(* ===== verification/_CoqProject ===== *)
-Q . S2P
Prelude.v
Memory.v
Kalloc.v
Vm.v
VmSpec.v
VmKernel.v
VmUser.v
Str.v
Bio.v
BioSpec.v
Fs.v
FsInode.v
FsFile.v
FsDir.v
Path.v
PathSpec.v
Kernel.v
Spinlock.v
Proc.v
ProcSpec.v
WakeSpec.v
Pipe.v
PipeSpec.v
File.v
Console.v
ConsoleSpec.v
Syscall.v
Sysfile.v
Sysproc.v
Exec.v
Machine.v
Virtio.v
VirtioSpec.v
Trap.v
Boot.v
Logic.v
NoSleep.v
LockInv.v
LockCalls.v
FdInv.v
FdCalls.v
FdSpec.v
LockSpec.v
Mkfs.v
MkfsSpec.v
LibcStr.v
LibcFmt.v
LibcFmtSpec.v
LibcSort.v
LibcHeap.v
LibcHeapSpec.v
LibcEnv.v
LibcEnvSpec.v
Prog.v
Shell.v
ShellSpec.v
ShellPipe.v
Tools.v
ToolsSpec.v
TextTools.v
TextToolsSpec.v
TailSpec.v
GrepSpec.v
Build.v
BuildSpec.v
Drivers.v
GccDriver.v
GccSpec.v
LibcSys.v
LibcStdio.v
LibcStdioSpec.v
Userland.v
UserlandSpec.v
LineEdit.v
LineEditSpec.v
LineEditRun.v
LibcScan.v
LibcScanSpec.v
LibcMisc.v
LibcMiscSpec.v
