(* ===== verification/Prelude.v ===== *)
(** * MyOS: a verification development

    MyOS is a small teaching operating system for 64-bit RISC-V.  Its kernel
    ([src/kernel]) has a page allocator, Sv39 address spaces, processes with a
    round-robin scheduler, sleep and wakeup, a block cache and an inode file
    system on a virtio disk, pipes, a console, and about twenty system calls.
    [src/mkfs.c] builds the disk image on the host,
    [src/ports/myos/libc.c] is the C library of the programs, and [src/user] and
    [src/userland] have the programs.  This development translates that code into
    executable definitions and proves what makes it correct.

    ** How code is modelled

    A C function is a definition of the same name in the monad [M S] of this
    file, over the state [S] it works on.  A computation returns
    ([Ok]), gives up the CPU in [sleep] or [sched] ([Sleep]) or stops
    ([Stop]): [Panic] is the kernel's [panic()], [Fault] undefined
    behaviour or a machine fault, [Hang] a spin that cannot end on one CPU,
    [NoFuel] a loop bound that was too small.  Early returns and guards are
    those of the source.  [wp m Q s] says that [m] returns from [s] and that
    [Q] then holds, so that the theorems below are about code that does
    return.  Integers are [Z] with the wrap of their C type written out ([u8]
    ... [u64], [s16] ... [s64]); structures in kernel pages (page tables, pipes,
    trap frames, the free list) are words of the byte-addressed memory of
    [Memory.v], other C objects are records, arrays are lists.

    ** The files

    Foundations
    - [Prelude.v] (this file): machine integers, the monad, loops, [wp] and its
      rules, arrays and little-endian codecs, tactics and hint databases.
    - [Memory.v]: memory layout and address macros ([memlayout.h], [riscv.h],
      [param.h]), loads and stores, [memset], [memmove], [memcpy].
    - [Str.v]: the kernel's string functions.

    Memory management
    - [Kalloc.v] ([mm/kalloc.c]): [kinit], [kalloc], [kfree] on the free list
      threaded through the free pages, and their proofs.
    - [Vm.v] ([mm/vm.c]): every function of the page-table code.  [VmSpec.v]
      relates the tables in memory to a tree of pages; [VmKernel.v] has the
      kernel's own table and the copies to user space; [VmUser.v] has
      [uvmcopy].

    File system
    - [Bio.v] ([fs/bio.c]): the buffers on their LRU ring, [bget], [bread],
      [bwrite], [brelse], the block bitmap.  The disk is the interface
      [BlockDev]: sectors that can be read and written.  [BioSpec.v]: the
      cache invariant and the refinement to a block store.
    - [Fs.v] ([fs/fs.c]): superblock, inodes, block map, [readi], [writei],
      directories, path lookup.  [FsInode.v]: inodes on disk and in the inode
      cache.  [FsFile.v]: files as byte sequences.  [FsDir.v]: directories as
      lists of entries.
    - [Path.v], [PathSpec.v]: the text of the working directory and path
      components.
    - [Mkfs.v] ([mkfs.c]): the image builder, every function.  [MkfsSpec.v]:
      the image is one the kernel reads.

    Processes
    - [Kernel.v]: the global state: process table, CPU, file table, console,
      over the file system's state; the trap frame's layout.
    - [Spinlock.v] ([proc/spinlock.c]), [Proc.v] ([proc/proc.c] and [sleep]),
      [ProcSpec.v], and [WakeSpec.v]: what [wakeup] does to the process table.  A
      process that gives up the CPU leaves a [kont] that says what it does when it
      runs again, in the place of the saved registers of [swtch.S].  [sleep] is a
      list of calls ([sleep_actions]), so that a theorem can speak of the states
      between them.
    - [Pipe.v], [PipeSpec.v]: [pipewrite], [piperead], [pipeclose].

    System calls and the machine
    - [File.v] ([fs/file.c]), [Console.v] ([driver/console.c], [uart.c]),
      [Syscall.v] (argument fetching), [Sysfile.v], [Sysproc.v], [Exec.v]
      ([sys_exec] in its stages), [Machine.v] and [Virtio.v]
      ([driver/virtio_disk.c]), [Trap.v] ([trap/trap.c], [plic.c], the table of
      [syscall.c]), [Boot.v] (start-up and the steps of the whole system).
    - [VirtioSpec.v]: the driver serves the requests of the block cache.  The
      sleeps of [virtio_disk_rw] are in [Virtio.v] with their locks and the way
      the process goes on ([vsleep], [virtio_disk_rw_resume]); the file system is
      on top of the driver's contract, [Bio.virtio_disk_rw], which the driver
      meets without a process ([virtio_disk_rw_refines]) and through the sleep, the
      interrupt and the switch back of a process ([virtio_disk_rw_for_process]).
      [ConsoleSpec.v]: the input ring of the console.

    Invariants of the whole kernel
    - [Logic.v]: partial-correctness judgements for code that returns or gives up
      the CPU ([pwlp], [preserves]), and the principle that what every part of
      [sys_step] keeps holds of every state the system reaches.
    - [NoSleep.v]: the code that never gives up the CPU.
    - [FdInv.v], [FdCalls.v], [FdSpec.v]: the reference counts of the open file
      table, through every system call.
    - [LockInv.v], [LockCalls.v], [LockSpec.v]: spin locks, interrupt nesting and
      process states, through every system call.

    The user library ([ports/myos/libc.c])
    - [LibcStr.v] (characters, strings, memory), [LibcFmt.v] (number
      conversions, [vsnprintf] and its family) with [LibcFmtSpec.v],
      [LibcSort.v] ([qsort]), [LibcHeap.v] (the allocator) with
      [LibcHeapSpec.v], [LibcEnv.v] (the environment) with [LibcEnvSpec.v].
    - On top of the system calls of [Prog.v]: [LibcSys.v] (the wrappers and
      [errno]), [LibcStdio.v] (streams, temporary files, directories) with
      [LibcStdioSpec.v], [LibcScan.v] ([sscanf]) with [LibcScanSpec.v],
      [LibcMisc.v] ([getopt], wide characters, clock, locale) with
      [LibcMiscSpec.v].

    User programs ([src/user])
    - [Prog.v]: a program as a tree of system calls, and its run against a
      kernel, which is a function of the call and the kernel's state.
    - [Shell.v] ([initcode.c]): the shell.  [ShellSpec.v]: line editing and
      words.  [ShellPipe.v]: pipelines, against a kernel that keeps the
      descriptors of a process.
    - [Tools.v]: [echo], [cat], [clear], [touch], [mkdir], [rm], [ls], [cp],
      [install], [mv], [cmp], [hexdump].  [ToolsSpec.v]: a kernel that keeps
      files and may answer a read or a write short, the rules for loops over
      reads, and the theorems on [cp], [mv], [cmp] and [cat].
    - [TextTools.v]: [wc], [head], [tail], [grep], [diff].
      [TextToolsSpec.v] ([wc], [head]), [TailSpec.v], [GrepSpec.v].
    - [Build.v] ([build.c]): the build tool, every function.  [BuildSpec.v]: the
      order of what it builds, and that its recursion ends.
    - [Drivers.v] ([as.c], [ld.c], [cc.c], [cpp.c], [gcc.c]) and [GccDriver.v]
      ([myos-gcc.c]): the drivers of the compilers.  [GccSpec.v]: which programs
      [myos-gcc] runs, against a kernel that runs the child of a [fork] first.

    Programs over the library
    - [Userland.v] ([src/userland]): [cat2], [lines], [wc2], [grep2], [diff2],
      [hello].  [UserlandSpec.v]: what [diff2] compares.
    - [LineEdit.v] ([ports/kilo/lineedit.c]): the line editor, every function.
      [LineEditSpec.v]: the buffer is a list of lines and the commands edit it.
      [LineEditRun.v]: a session from the file to the file.

    ** How the parts interact

    [Fs] calls [Bio] through [lbio], which runs a cache computation on the
    cache's part of the state, and [Kernel] includes the state of [Fs]; the
    system calls run file-system code through [Kernel.lfs], which also applies the
    effect that sleeping in the disk driver has on the calling process
    ([after_io]), in one step: no other process runs in between.
    Clients of the disk are proved against the class [BlockDev] and its laws
    [BlockDevOk], which a disk of blocks in memory satisfies; [malloc] is
    proved against [SbrkLaw], the law of the [sbrk] call.  [MkfsSpec] connects
    the image builder to [bmap] and [readi] of the kernel.

    ** What the theorems show

    - Allocators: the free lists stay well-formed, a page or block that is given
      out is not given out again before it is freed ([Kalloc.allocator_safe],
      [LibcHeapSpec.malloc_safe], [LibcHeapSpec.free_safe]), [kinit] terminates and frees every page, [balloc]
      takes the first free block and [bfree] clears its bit.
    - Address spaces: the table built by [kvmininit] maps what it should and
      nothing else, [mappages] adds exactly its range, [copyout] writes the
      bytes of the translated addresses, [uvmcopy] gives the child a copy that
      shares no page with the parent.
    - The block cache refines a store of blocks: reads see the last write
      whatever was evicted in between; eviction takes the least recently used
      free buffer.
    - Files: [writei] changes the bytes it was given and no others, [readi]
      returns the bytes of the file, an inode written by [iupdate] is what
      [ilock] loads, [iget] keeps one entry per inode, [ilock] yields values of
      the C types whatever the disk holds; directory lookup finds the first
      entry of a name and what [dirlink] added; image and kernel agree.
    - Paths: the text of the working directory is the resolution of its
      components.
    - Processes: interrupt nesting is restored, a spin lock excludes, a sleeper
      is woken by exactly its channel and runs again, no wakeup comes between the
      moment it gives up the caller's lock and its sleep ([ProcSpec.sleep_wakeup]),
      [yield] returns to its caller.
    - Pipes are bounded first-in first-out queues.
    - The whole system, in every state it can reach by [sys_step]: the count of an
      open file is the number of descriptors that refer to it
      ([FdSpec.reference_counts]); in user mode and in the
      scheduler no process's lock is held and every critical section has been
      left, and the process on the CPU is the one that is marked running, if there
      is one ([LockSpec.locks_released]).  A step runs a trap undisturbed, so
      these are theorems about the paths of the kernel, not about their
      interleaving (see below).
    - The disk driver returns with the block transferred and its descriptors free,
      keeps the requests apart, sleeps without its lock when descriptors are short
      or the request is not done, and wakes the owner of a request the device has
      finished, for a device that serves what is submitted
      ([VirtioSpec.device_serves]).
    - The input ring of the console is a bounded queue of characters, which
      control-C does not enter: it kills the readers.
    - The library: [vsnprintf] prints the text of its format cut to the buffer,
      [strtol] and [sscanf] read back what it prints, [printf] writes it,
      [qsort] sorts stably, [getenv] returns what [setenv] stored, [getline]
      gives the lines of a file, [getopt] reads the options of a command line.
    - The shell: editing a line is editing a text at a cursor, the arguments of
      a command are the tokens of the line, a stage of a pipeline runs with the
      ends of its pipes as input and output and no other end open, the status of a
      pipeline is that of its last stage, and what a fork that fails leaves behind
      ([ShellPipe.run_pipeline_status]).
    - Tools: [cp] copies, [mv] moves, [cmp] finds the first difference, [wc]
      counts, [head] and [tail] show the ends of a file, [grep] the lines with a
      pattern, whatever the sizes of the kernel's answers.
    - Programs over the library: a session with the line editor leaves the text
      that its commands make of the file, and no other file is changed; [diff2]
      returns 0 exactly if the parts of the lines it compares are the same.
    - The build tool builds a target after what it depends on, notices cycles,
      and its recursion ends on every build file it can read; [myos-gcc] runs the
      tools for its files in order, stops at the first failure, and links.
    - Limits of the code: [copyout] panics above [MAXVA], [writei] rejects a
      file that is too big, [dirlink] cuts a 14-character name.

    ** Loop bounds

    A loop whose bound is not in the code runs with fuel computed from its
    data: the free memory in pages for [kinit], the ring's length for the
    cache, the bits of a bitmap block, the blocks a transfer touches for
    [readi] and [writei], a directory's entries, the characters of a path or a
    format, the bytes of a pipe transfer.  The theorems about these loops are
    stated with [wp] or as equations with [Ok], so they prove that the fuel is
    enough.  The fuel of [malloc] and [free] is a parameter: their theorems
    require two rounds of the free list.  A loop of a program over the answers of
    the kernel has the number of calls as its fuel, and its theorem asks for one
    more than the bytes there are to read; the line editor asks for the bytes of
    the file, the commands of the session and the 512 characters of a command.
    The steps of the whole system are a relation and need no fuel.  The spin of [virtio_disk_rw] on its
    completion depends on the device and has its fuel as an argument; the file
    system sees the driver through [BlockDev].

    ** Not modelled

    - Interrupts between two instructions of kernel code.  A kernel path runs
      to its next sleep in a pipe, in [wait] or at the console; traps are taken in
      user mode, interrupts there and in the scheduler, and [yield] is modelled
      where the timer takes the CPU from user code.  The code lets a timer tick
      preempt a system call ([sys_trap_handler]): what goes wrong then with tables
      that have no lock is not in the reach of the theorems.
    - Other processes while one waits for the disk in a system call.  The waits
      are in [Virtio.v], where the driver's theorems speak of them, but the file
      system above takes a block transfer for one step ([Bio.virtio_disk_rw],
      [Kernel.after_io]).  A race of the code that needs the wait - [bread] marks a
      buffer valid before its data is there, [sys_dup2] and [proc_exit] close a
      file before they clear its descriptor - is outside [sys_step].
    - The assembler ([entry.S], [swtch.S], [trampoline.S], [kernelvec.S],
      [timervec.S]): saving and restoring registers is the trap frame and the
      [kont] of a process.
    - The lock of a pipe lies in the page of the pipe: the invariant of the locks
      counts it in the nesting of the CPU, and leaves its flag to the memory.
    - Devices: the virtio device is a parameter of [Virtio.v], the UART a trace
      of bytes out and a queue in.
    - Of [src/user]: the test programs ([runtests], [sbrktest], [testpipe]), and
      the calls and the older [malloc] that the compiler is linked with ([glue.c],
      [malloc.c]).
    - Of the image builder, errors of the host's file operations; the blocks it
      fills with zeros first are the absent bytes of the image.
    - Of the library: the functions on [double] ([strtod], [frexp] and the like),
      [localeconv] and [signal], which keep no state.  Streams see [malloc] by its
      answers only: where an object goes, and whether there is memory.
    - [src/ports] but for [myos/libc.c] and [kilo/lineedit.c]: third-party
      programs in C, and the headers and runtime for C++ ([cxx]). *)

From stdpp Require Export prelude list gmap strings fin_maps.
From Stdlib Require Export ZArith Lia.

#[export] Set Default Goal Selector "!".
Open Scope Z_scope.

(* ------------------------------------------------------------------ *)
(** ** Machine integers *)

(** A C unsigned integer of width [w] is the [Z] in [0, 2^w); every operation
    that can leave the range is followed by the wrap of the C type. *)
Definition u8 (x : Z) : Z := x mod 256.
Definition u16 (x : Z) : Z := x mod 65536.
Definition u32 (x : Z) : Z := x mod 4294967296.
Definition u64 (x : Z) : Z := x mod 18446744073709551616.

(** Two's complement reinterpretation of the low 16, 32 or 64 bits. *)
Definition s16 (x : Z) : Z :=
  let y := u16 x in if y <? 32768 then y else y - 65536.
Definition s32 (x : Z) : Z :=
  let y := u32 x in if y <? 2147483648 then y else y - 4294967296.
Definition s64 (x : Z) : Z :=
  let y := u64 x in
  if y <? 9223372036854775808 then y else y - 18446744073709551616.

(** [lia] with the division and modulo of [Z] and [nat] interpreted. *)
Ltac dlia := Z.to_euclidean_division_equations; lia.

Ltac unfold_width := unfold s16, s32, s64, u8, u16, u32, u64 in *.

Lemma u8_bounds x : 0 <= u8 x < 256.
Proof. unfold_width. dlia. Qed.
Lemma u16_bounds x : 0 <= u16 x < 65536.
Proof. unfold_width. dlia. Qed.
Lemma u32_bounds x : 0 <= u32 x < 4294967296.
Proof. unfold_width. dlia. Qed.
Lemma u64_bounds x : 0 <= u64 x < 18446744073709551616.
Proof. unfold_width. dlia. Qed.
Lemma u8_id x : 0 <= x < 256 -> u8 x = x.
Proof. unfold_width. apply Z.mod_small. Qed.
Lemma u16_id x : 0 <= x < 65536 -> u16 x = x.
Proof. unfold_width. apply Z.mod_small. Qed.
Lemma u32_id x : 0 <= x < 4294967296 -> u32 x = x.
Proof. unfold_width. apply Z.mod_small. Qed.
Lemma u64_id x : 0 <= x < 18446744073709551616 -> u64 x = x.
Proof. unfold_width. apply Z.mod_small. Qed.
Lemma s32_id x : -2147483648 <= x < 2147483648 -> s32 x = x.
Proof. unfold_width. intros. destruct (Z.ltb_spec (x mod 4294967296) 2147483648); dlia. Qed.
Lemma s32_bounds x : -2147483648 <= s32 x < 2147483648.
Proof. unfold_width. destruct (Z.ltb_spec (x mod 4294967296) 2147483648); dlia. Qed.

Lemma s64_bounds x : - 2 ^ 63 <= s64 x < 2 ^ 63.
Proof. unfold_width. destruct (Z.ltb_spec (x mod 18446744073709551616) 9223372036854775808); dlia. Qed.
Lemma s64_id x : - 2 ^ 63 <= x < 2 ^ 63 -> s64 x = x.
Proof. unfold_width. intros. destruct (Z.ltb_spec (x mod 18446744073709551616) 9223372036854775808); dlia. Qed.

(* ------------------------------------------------------------------ *)
(** ** The state and error monad of the kernel code *)

(** How a kernel computation can stop without returning: [panic()] (which
    never returns), undefined behaviour or a machine fault, a spin that can
    never end on the single CPU, and (for the models of unbounded loops) an
    exhausted fuel. *)
Inductive stop :=
| Panic (msg : string)
| Fault (why : string)
| Hang (why : string)
| NoFuel.

(** [Sleep chan s]: the code called [sleep(chan, lk)] and gave up the CPU in
    state [s]. *)
Inductive res (S A : Type) :=
| Ok (a : A) (s : S)
| Sleep (chan : Z) (s : S)
| Stop (e : stop).
Arguments Ok {S A}.
Arguments Sleep {S A}.
Arguments Stop {S A}.

Definition M (S A : Type) := S -> res S A.

Definition ret {S A} (a : A) : M S A := fun s => Ok a s.
Definition bind {S A B} (m : M S A) (k : A -> M S B) : M S B :=
  fun s => match m s with
           | Ok a s' => k a s'
           | Sleep c s' => Sleep c s'
           | Stop e => Stop e
           end.
Definition stop_with {S A} (e : stop) : M S A := fun _ => Stop e.
Definition panic {S A} (msg : string) : M S A := stop_with (Panic msg).
Definition fault {S A} (why : string) : M S A := stop_with (Fault why).
Definition hang {S A} (why : string) : M S A := stop_with (Hang why).
Definition get {S} : M S S := fun s => Ok s s.
Definition gets {S A} (f : S -> A) : M S A := fun s => Ok (f s) s.
Definition put {S} (s : S) : M S unit := fun _ => Ok tt s.
Definition modify {S} (f : S -> S) : M S unit := fun s => Ok tt (f s).
Definition when {S} (b : bool) (m : M S unit) : M S unit :=
  if b then m else ret tt.

Declare Scope cm_scope.
Delimit Scope cm_scope with cm.
Open Scope cm_scope.
Notation "'let!' x := c 'in' k" := (bind c (fun x => k))
  (at level 10, x name, c at level 200, k at level 200,
   format "'[v' 'let!'  x  :=  c  'in'  '/' k ']'") : cm_scope.
Notation "'let!' ' p := c 'in' k" := (bind c (fun x => match x with p => k end))
  (at level 10, p pattern, c at level 200, k at level 200) : cm_scope.
Notation "c ;;; k" := (bind c (fun _ => k))
  (at level 199, right associativity,
   format "'[v' c  ;;;  '/' k ']'") : cm_scope.

(** A component's computation run on its part of a larger state. *)
Definition zoom {S T A} (pi : S -> T) (upd : T -> S -> S) (m : M T A) : M S A :=
  fun s => match m (pi s) with
           | Ok a t => Ok a (upd t s)
           | Sleep c t => Sleep c (upd t s)
           | Stop e => Stop e
           end.

(** C loops. The body returns [inl x] to go round again with loop variables
    [x] and [inr r] to leave the loop with [r]. *)
Fixpoint loop {S X R} (fuel : nat) (body : X -> M S (X + R)) (x : X) : M S R :=
  match fuel with
  | O => stop_with NoFuel
  | Datatypes.S f =>
      let! r := body x in
      match r with
      | inl x' => loop f body x'
      | inr r' => ret r'
      end
  end.

(** [for (i = i0; i < i0 + n; i++) body(i)] over a constant range. *)
Fixpoint for_range {S} (i : nat) (n : nat) (body : nat -> M S unit) : M S unit :=
  match n with
  | O => ret tt
  | Datatypes.S n' => body i ;;; for_range (Datatypes.S i) n' body
  end.

(** The calls of a list, one after the other: code whose intermediate states a
    theorem speaks of is a list, and [take] gives the states on its way. *)
Fixpoint run_all {S} (l : list (M S unit)) : M S unit :=
  match l with
  | [] => ret tt
  | m :: l' => m ;;; run_all l'
  end.

(* ------------------------------------------------------------------ *)
(** ** Total-correctness weakest preconditions *)

(** [wp m Q s]: from [s] the computation returns, and [Q] holds of the result
    and the final state. *)
Definition wp {S A} (m : M S A) (Q : A -> S -> Prop) (s : S) : Prop :=
  match m s with Ok a s' => Q a s' | _ => False end.

#[global] Arguments wp : simpl never.
#[global] Arguments bind : simpl never.
#[global] Arguments ret : simpl never.
#[global] Arguments loop : simpl never.

Section wp_rules.
Context {S : Type}.
Implicit Types s : S.

Lemma wp_ret {A} (a : A) (Q : A -> S -> Prop) s : Q a s -> wp (ret a) Q s.
Proof. done. Qed.

Lemma wp_bind {A B} (m : M S A) (k : A -> M S B) (Q : B -> S -> Prop) s :
  wp m (fun a s' => wp (k a) Q s') s -> wp (bind m k) Q s.
Proof. unfold wp, bind. by destruct (m s). Qed.

Lemma wp_mono {A} (m : M S A) (P Q : A -> S -> Prop) s :
  wp m P s -> (forall a s', P a s' -> Q a s') -> wp m Q s.
Proof. unfold wp. destruct (m s); naive_solver. Qed.

Lemma wp_get (Q : S -> S -> Prop) s : Q s s -> wp get Q s.
Proof. done. Qed.
Lemma wp_gets {A} (f : S -> A) (Q : A -> S -> Prop) s :
  Q (f s) s -> wp (gets f) Q s.
Proof. done. Qed.
Lemma wp_put s' (Q : unit -> S -> Prop) s : Q tt s' -> wp (put s') Q s.
Proof. done. Qed.
Lemma wp_modify f (Q : unit -> S -> Prop) s : Q tt (f s) -> wp (modify f) Q s.
Proof. done. Qed.

Lemma wp_inv {A} (m : M S A) (Q : A -> S -> Prop) s :
  wp m Q s -> exists a s', m s = Ok a s' /\ Q a s'.
Proof. unfold wp. destruct (m s) as [a s'| |]; naive_solver. Qed.

Lemma wp_of_eq {A} (m : M S A) (Q : A -> S -> Prop) s a s' :
  m s = Ok a s' -> Q a s' -> wp m Q s.
Proof. unfold wp. by intros ->. Qed.

Lemma wp_ok {A} (m : M S A) (Q : A -> S -> Prop) s a s' :
  m s = Ok a s' -> wp m Q s -> Q a s'.
Proof. unfold wp. by intros ->. Qed.

Lemma wp_conj {A} (m : M S A) (P Q : A -> S -> Prop) s :
  wp m P s -> wp m Q s -> wp m (fun a s' => P a s' /\ Q a s') s.
Proof. unfold wp. destruct (m s); naive_solver. Qed.

(** The loop rule: an invariant indexed by a bound on the rounds left. *)
Lemma wp_loop {X R} (body : X -> M S (X + R)) (Q : R -> S -> Prop)
    (I : nat -> X -> S -> Prop) fuel n x s :
  (forall n x s, I n x s ->
     wp (body x) (fun r s' => match r with
                              | inl x' => exists n', (n' < n)%nat /\ I n' x' s'
                              | inr r' => Q r' s'
                              end) s) ->
  I n x s -> (n < fuel)%nat -> wp (loop fuel body x) Q s.
Proof.
  intros Hbody. revert n x s.
  induction fuel as [|fuel IH]; intros n x s HI Hlt; [lia|].
  change (loop (Datatypes.S fuel) body x) with
    (let! r := body x in match r with inl x' => loop fuel body x' | inr r' => ret r' end).
  apply wp_bind. eapply wp_mono; [by apply Hbody|].
  intros [x'|r'] s' HQ; [|by apply wp_ret].
  destruct HQ as (n' & Hn' & HI'). eapply IH; [done|lia].
Qed.

Lemma wp_for_range (body : nat -> M S unit) (I : nat -> S -> Prop) i n s :
  (forall j s, (i <= j < i + n)%nat -> I j s ->
     wp (body j) (fun _ s' => I (Datatypes.S j) s') s) ->
  I i s -> wp (for_range i n body) (fun _ s' => I (i + n)%nat s') s.
Proof.
  revert i s. induction n as [|n IH]; intros i s Hbody HI; cbn [for_range].
  - apply wp_ret. by rewrite Nat.add_0_r.
  - apply wp_bind. eapply wp_mono; [apply Hbody; [lia|done]|].
    cbn. intros _ s' HI'. replace (i + Datatypes.S n)%nat with (Datatypes.S i + n)%nat by lia.
    apply IH; [|done]. intros j t Hj. apply Hbody. lia.
Qed.

Lemma wp_when b m (Q : unit -> S -> Prop) s :
  (b = true -> wp m Q s) -> (b = false -> Q tt s) -> wp (when b m) Q s.
Proof. destruct b; cbn; intros; [by auto|]. apply wp_ret. auto. Qed.
End wp_rules.

Lemma wp_zoom {S T A} (pi : S -> T) upd (m : M T A) (Q : A -> S -> Prop) s :
  wp m (fun a t => Q a (upd t s)) (pi s) -> wp (zoom pi upd m) Q s.
Proof. unfold wp, zoom. by destruct (m (pi s)). Qed.

(** Monad laws, pointwise. *)
Lemma bind_ret_l {S A B} (a : A) (k : A -> M S B) s : bind (ret a) k s = k a s.
Proof. done. Qed.
Lemma bind_assoc {S A B C} (m : M S A) (k : A -> M S B) (h : B -> M S C) s :
  bind (bind m k) h s = bind m (fun a => bind (k a) h) s.
Proof. unfold bind. by destruct (m s). Qed.
Lemma bind_ok {S A B} (m : M S A) (k : A -> M S B) s a s' :
  m s = Ok a s' -> bind m k s = k a s'.
Proof. unfold bind. by intros ->. Qed.
Lemma bind_stop {S A B} (m : M S A) (k : A -> M S B) s e :
  m s = Stop e -> bind m k s = Stop e.
Proof. unfold bind. by intros ->. Qed.
Lemma bind_ok_inv {S A B} (m : M S A) (k : A -> M S B) s b s' :
  bind m k s = Ok b s' -> exists a t, m s = Ok a t /\ k a t = Ok b s'.
Proof. unfold bind. destruct (m s); naive_solver. Qed.

(** One round of a loop. *)
Lemma loop_next {S X R} fuel (body : X -> M S (X + R)) x s x' s' :
  body x s = Ok (inl x') s' -> loop (Datatypes.S fuel) body x s = loop fuel body x' s'.
Proof.
  intros Hb. change (loop (Datatypes.S fuel) body x s) with
    (bind (body x) (fun r => match r with inl x' => loop fuel body x' | inr r' => ret r' end) s).
  by rewrite (bind_ok _ _ _ _ _ Hb).
Qed.
Lemma loop_last {S X R} fuel (body : X -> M S (X + R)) x s r s' :
  body x s = Ok (inr r) s' -> loop (Datatypes.S fuel) body x s = Ok r s'.
Proof.
  intros Hb. change (loop (Datatypes.S fuel) body x s) with
    (bind (body x) (fun r => match r with inl x' => loop fuel body x' | inr r' => ret r' end) s).
  by rewrite (bind_ok _ _ _ _ _ Hb).
Qed.
Lemma loop_sleep {S X R} fuel (body : X -> M S (X + R)) x s c s' :
  body x s = Sleep c s' -> loop (Datatypes.S fuel) body x s = Sleep c s'.
Proof.
  intros Hb. change (loop (Datatypes.S fuel) body x s) with
    (bind (body x) (fun r => match r with inl x' => loop fuel body x' | inr r' => ret r' end) s).
  unfold bind. by rewrite Hb.
Qed.

Create HintDb cm discriminated.
Create Rewrite HintDb cm.
#[export] Hint Resolve wp_ret wp_get wp_put wp_modify wp_gets : cm.

(** One step of symbolic execution of a [wp] goal; a component that adds
    primitive operations extends [wp_hook]. *)
Ltac wp_hook := fail.
Ltac wp_step :=
  lazymatch goal with
  | |- wp (bind _ _) _ _ => apply wp_bind
  | |- wp (ret _) _ _ => apply wp_ret
  | |- wp get _ _ => apply wp_get
  | |- wp (gets _) _ _ => apply wp_gets
  | |- wp (put _) _ _ => apply wp_put
  | |- wp (modify _) _ _ => apply wp_modify
  | |- wp (zoom _ _ _) _ _ => apply wp_zoom
  | |- wp (let '(_, _) := ?p in _) _ _ => destruct p eqn:?
  | |- wp (if ?b then _ else _) _ _ => destruct b eqn:?
  | |- _ => wp_hook
  end; cbn beta.
Ltac wp_steps := repeat wp_step.

(** Boolean tests on [Z] become inequalities. *)
Ltac zbool :=
  repeat match goal with
  | H : _ && _ = true |- _ => apply andb_true_iff in H as [? ?]
  | H : _ || _ = false |- _ => apply orb_false_iff in H as [? ?]
  | H : negb _ = true |- _ => apply negb_true_iff in H
  | H : negb _ = false |- _ => apply negb_false_iff in H
  | H : (_ =? _) = true |- _ => apply Z.eqb_eq in H
  | H : (_ =? _) = false |- _ => apply Z.eqb_neq in H
  | H : (_ <? _) = true |- _ => apply Z.ltb_lt in H
  | H : (_ <? _) = false |- _ => apply Z.ltb_ge in H
  | H : (_ <=? _) = true |- _ => apply Z.leb_le in H
  | H : (_ <=? _) = false |- _ => apply Z.leb_gt in H
  | H : (_ >? _) = true |- _ => rewrite Z.gtb_ltb in H; apply Z.ltb_lt in H
  | H : (_ >? _) = false |- _ => rewrite Z.gtb_ltb in H; apply Z.ltb_ge in H
  | H : (_ >=? _) = true |- _ => rewrite Z.geb_leb in H; apply Z.leb_le in H
  | H : (_ >=? _) = false |- _ => rewrite Z.geb_leb in H; apply Z.leb_gt in H
  end.

(* ------------------------------------------------------------------ *)
(** ** Arrays *)

(** The C array element [l[i]] for an index known to be in range; [0] outside. *)
Definition zget (l : list Z) (i : Z) : Z := default 0 (l !! Z.to_nat i).
Definition zset (l : list Z) (i : Z) (v : Z) : list Z := <[Z.to_nat i := v]> l.

Lemma zget_zset_eq l i v :
  0 <= i < Z.of_nat (length l) -> zget (zset l i v) i = v.
Proof. intros. unfold zget, zset. rewrite list_lookup_insert_eq; [done|lia]. Qed.
Lemma zget_zset_ne l i j v :
  0 <= i -> 0 <= j -> i <> j -> zget (zset l i v) j = zget l j.
Proof. intros. unfold zget, zset. rewrite list_lookup_insert_ne; [done|lia]. Qed.
Lemma length_zset l i v : length (zset l i v) = length l.
Proof. apply length_insert. Qed.
#[export] Hint Rewrite length_zset @length_insert @length_replicate : cm.

(** [memmove(d + off, src, n)] into a byte array, with [src] of length [n]. *)
Definition blit (d : list Z) (off : nat) (src : list Z) : list Z :=
  take off d ++ src ++ drop (off + length src) d.
(** The [n] bytes at [off]. *)
Definition slice (d : list Z) (off n : nat) : list Z := take n (drop off d).

Lemma length_blit d off src :
  (off + length src <= length d)%nat -> length (blit d off src) = length d.
Proof. intros. unfold blit. rewrite !length_app, length_take, length_drop. lia. Qed.

Lemma length_slice d off n :
  (off + n <= length d)%nat -> length (slice d off n) = n.
Proof. intros. unfold slice. rewrite length_take, length_drop. lia. Qed.

Lemma lookup_blit d off src i :
  (off + length src <= length d)%nat ->
  blit d off src !! i =
    if decide (off <= i < off + length src)%nat then src !! (i - off)%nat else d !! i.
Proof.
  intros Hle. unfold blit.
  assert (length (take off d) = off) as Hlt by (rewrite length_take; lia).
  case_decide as Hd.
  - rewrite lookup_app_r by lia. rewrite Hlt. by rewrite lookup_app_l by lia.
  - destruct (decide (i < off)%nat).
    + rewrite lookup_app_l by lia. apply lookup_take_lt. lia.
    + rewrite !lookup_app_r by lia. rewrite lookup_drop, Hlt. f_equal. lia.
Qed.

Lemma lookup_slice d off n i :
  slice d off n !! i = if decide (i < n)%nat then d !! (off + i)%nat else None.
Proof.
  unfold slice. case_decide.
  - rewrite lookup_take_lt by done. by rewrite lookup_drop.
  - apply lookup_take_ge. lia.
Qed.

Lemma slice_blit_same d off src :
  (off + length src <= length d)%nat -> slice (blit d off src) off (length src) = src.
Proof.
  intros Hle. apply list_eq. intros i. rewrite lookup_slice.
  case_decide as Hi.
  - rewrite lookup_blit by done. rewrite decide_True by lia. f_equal. lia.
  - symmetry. apply lookup_ge_None. lia.
Qed.

Lemma slice_blit_disjoint d off src off' n :
  (off + length src <= length d)%nat ->
  (off' + n <= off \/ off + length src <= off')%nat ->
  slice (blit d off src) off' n = slice d off' n.
Proof.
  intros Hle Hdis. apply list_eq. intros i. rewrite !lookup_slice.
  case_decide as Hi; [|done]. rewrite lookup_blit by done. by rewrite decide_False by lia.
Qed.

Lemma zget_lookup l i : 0 <= i < Z.of_nat (length l) -> l !! Z.to_nat i = Some (zget l i).
Proof.
  intros Hi. unfold zget.
  destruct (lookup_lt_is_Some_2 l (Z.to_nat i)) as [x Hx]; [lia|]. by rewrite Hx.
Qed.

(** Little-endian byte codecs. *)
Fixpoint le_bytes (n : nat) (v : Z) : list Z :=
  match n with
  | O => []
  | Datatypes.S n' => v mod 256 :: le_bytes n' (v / 256)
  end.
Fixpoint le_val (bs : list Z) : Z :=
  match bs with
  | [] => 0
  | b :: bs' => b + 256 * le_val bs'
  end.

Lemma length_le_bytes n v : length (le_bytes n v) = n.
Proof. revert v. induction n as [|n IH]; intros v; cbn; [done|]. by rewrite IH. Qed.
#[export] Hint Rewrite length_le_bytes : cm.

Lemma le_val_bytes n v : le_val (le_bytes n v) = v mod (256 ^ Z.of_nat n).
Proof.
  revert v. induction n as [|n IH]; intros v; cbn [le_bytes le_val].
  - by rewrite Z.mod_1_r.
  - rewrite IH. rewrite Nat2Z.inj_succ, Z.pow_succ_r by lia.
    rewrite Z.rem_mul_r by lia. lia.
Qed.

Definition is_byte (b : Z) : Prop := 0 <= b < 256.

Lemma le_bytes_byte n v : Forall is_byte (le_bytes n v).
Proof.
  revert v. induction n as [|n IH]; intros v; cbn; constructor; [|apply IH].
  unfold is_byte. dlia.
Qed.

Lemma le_bytes_val bs : Forall is_byte bs -> le_bytes (length bs) (le_val bs) = bs.
Proof.
  induction bs as [|b bs IH]; intros Hall; [done|].
  inversion_clear Hall as [|? ? Hb Hbs]. unfold is_byte in Hb. cbn. f_equal.
  - dlia.
  - replace ((b + 256 * le_val bs) / 256) with (le_val bs) by dlia. by apply IH.
Qed.

Lemma le_val_bounds bs :
  Forall is_byte bs -> 0 <= le_val bs < 256 ^ Z.of_nat (length bs).
Proof.
  induction 1 as [|b bs Hb Hbs IH]; cbn [le_val length]; [lia|].
  unfold is_byte in Hb. rewrite Nat2Z.inj_succ, Z.pow_succ_r by lia. nia.
Qed.

(* ------------------------------------------------------------------ *)
(** ** C strings in byte arrays *)

(** The string held by an array: the bytes before the first NUL. *)
Fixpoint cstr (a : list Z) : list Z :=
  match a with
  | [] => []
  | c :: a' => if c =? 0 then [] else c :: cstr a'
  end.

Lemma cstr_app_zero t r : Forall (fun c => c <> 0) t -> cstr (t ++ 0 :: r) = t.
Proof.
  induction 1 as [|c t Hc Ht IH]; cbn; [done|].
  apply Z.eqb_neq in Hc. rewrite Hc. by f_equal.
Qed.
Lemma cstr_nonzero a : Forall (fun c => c <> 0) (cstr a).
Proof.
  induction a as [|c a IH]; cbn; [constructor|].
  destruct (Z.eqb_spec c 0); constructor; done.
Qed.
Lemma length_cstr a : (length (cstr a) <= length a)%nat.
Proof. induction a as [|c a IH]; cbn; [lia|]. destruct (c =? 0); cbn; lia. Qed.
Lemma cstr_id t : Forall (fun c => c <> 0) t -> cstr t = t.
Proof.
  induction 1 as [|c t Hc Ht IH]; cbn; [done|].
  apply Z.eqb_neq in Hc. rewrite Hc. by f_equal.
Qed.
Lemma cstr_cstr a : cstr (cstr a) = cstr a.
Proof. apply cstr_id, cstr_nonzero. Qed.
