(* ===== verification/Memory.v ===== *)
(** Physical memory: the layout constants and address macros of
    [memlayout.h], [param.h] and [riscv.h], the byte-addressed memory all
    kernel data lives in, and the [memset]/[memmove]/[memcpy] of
    [kernel/proc/proc.c] and [kernel/mm/vm.c]. *)

From S2P Require Import Prelude.

(* ------------------------------------------------------------------ *)
(** ** Constants and address macros *)

Definition PGSIZE : Z := 4096.
Definition KERNBASE : Z := 2147483648.
Definition PHYSTOP : Z := KERNBASE + 128 * 1024 * 1024.
Definition MAXVA : Z := Z.shiftl 1 (9 + 9 + 9 + 12 - 1).
Definition UART0 : Z := 268435456.
Definition VIRTIO0 : Z := 268439552.
Definition PLIC : Z := 201326592.
Definition NPROC : nat := 64.
Definition NOFILE : nat := 16.
Definition NFILE : nat := 100.
Definition NINODE : nat := 50.
Definition ROOTDEV : Z := 1.
Definition ROOTINO : Z := 1.
Definition MAXARG : nat := 32.
Definition NBUF : nat := 30.
Definition MAXPATH : nat := 128.
Definition BSIZE : Z := 1024.

(** [PGROUNDUP], [PGROUNDDOWN]: the mask [~(PGSIZE - 1)] is an [int], converted
    to the 64-bit type of the address. *)
Definition PGMASK : Z := u64 (Z.lnot (PGSIZE - 1)).
Definition PGROUNDUP (sz : Z) : Z := Z.land (u64 (sz + PGSIZE - 1)) PGMASK.
Definition PGROUNDDOWN (a : Z) : Z := Z.land a PGMASK.

(** Page-table entry bits and the conversions between entries and addresses. *)
Definition PTE_V : Z := Z.shiftl 1 0.
Definition PTE_R : Z := Z.shiftl 1 1.
Definition PTE_W : Z := Z.shiftl 1 2.
Definition PTE_X : Z := Z.shiftl 1 3.
Definition PTE_U : Z := Z.shiftl 1 4.
Definition PXSHIFT (level : Z) : Z := 12 + 9 * level.
Definition PX (level va : Z) : Z := Z.land (Z.shiftr va (PXSHIFT level)) 511.
Definition PA2PTE (pa : Z) : Z := u64 (Z.shiftl (Z.shiftr pa 12) 10).
Definition PTE2PA (pte : Z) : Z := u64 (Z.shiftl (Z.shiftr pte 10) 12).
Definition PTE_FLAGS (pte : Z) : Z := Z.land pte 1023.
Definition MAKE_SATP (pagetable : Z) : Z :=
  Z.lor (u64 (Z.shiftl 8 60)) (Z.shiftr pagetable 12).

(** [pte & f] as a C condition. *)
Definition has (pte f : Z) : bool := negb (Z.land pte f =? 0).

Lemma land_mask_hi x k n :
  0 <= k <= n -> 0 <= x < 2 ^ n ->
  Z.land x (2 ^ n - 2 ^ k) = x - x mod 2 ^ k.
Proof.
  intros Hk Hx.
  assert (2 ^ n - 2 ^ k = Z.shiftl (Z.ones (n - k)) k) as ->.
  { rewrite Z.shiftl_mul_pow2, Z.ones_equiv by lia.
    rewrite <- Z.sub_1_r, Z.mul_sub_distr_r, Z.mul_1_l, <- Z.pow_add_r by lia.
    by rewrite Z.sub_add. }
  assert (x - x mod 2 ^ k = Z.shiftl (Z.shiftr x k) k) as ->.
  { rewrite Z.shiftl_mul_pow2, Z.shiftr_div_pow2 by lia.
    pose proof (Z.div_mod x (2 ^ k)). pose proof (Z.pow_pos_nonneg 2 k). lia. }
  apply Z.bits_inj'. intros i Hi.
  rewrite Z.land_spec, !Z.shiftl_spec by lia.
  destruct (Z.ltb_spec i k) as [Hlt|Hge].
  - rewrite !(Z.testbit_neg_r _ (i - k)) by lia. apply andb_false_r.
  - rewrite Z.shiftr_spec by lia. replace (i - k + k) with i by lia.
    destruct (Z.ltb_spec i n) as [Hn|Hn].
    + rewrite Z.ones_spec_low by lia. apply andb_true_r.
    + destruct (decide (x = 0)) as [->|]; [by rewrite Z.bits_0|].
      rewrite (Z.bits_above_log2 x i); [done|lia|].
      apply Z.log2_lt_pow2; [lia|]. eapply Z.lt_le_trans; [apply Hx|].
      apply Z.pow_le_mono_r; lia.
Qed.

Lemma PGMASK_eq : PGMASK = 2 ^ 64 - 2 ^ 12.
Proof. reflexivity. Qed.

Lemma PGROUNDDOWN_eq a : 0 <= a < 2 ^ 64 -> PGROUNDDOWN a = a - a mod 4096.
Proof. intros. unfold PGROUNDDOWN. rewrite PGMASK_eq. by apply land_mask_hi. Qed.

Lemma PGROUNDUP_eq a :
  0 <= a -> a + 4095 < 2 ^ 64 -> PGROUNDUP a = a + 4095 - (a + 4095) mod 4096.
Proof.
  intros. unfold PGROUNDUP, PGSIZE. rewrite u64_id by lia. rewrite PGMASK_eq.
  replace (a + 4096 - 1) with (a + 4095) by lia. apply land_mask_hi; lia.
Qed.

Lemma PX_eq level va : 0 <= level -> PX level va = (va / 2 ^ (12 + 9 * level)) mod 512.
Proof.
  intros. unfold PX, PXSHIFT. rewrite Z.shiftr_div_pow2 by lia.
  change 511 with (Z.ones 9). by rewrite Z.land_ones by lia.
Qed.

Lemma PX_bounds level va : 0 <= level -> 0 <= PX level va < 512.
Proof. intros. rewrite PX_eq by done. apply Z.mod_pos_bound. lia. Qed.

Lemma lor_range n a b :
  0 <= n -> 0 <= a < 2 ^ n -> 0 <= b < 2 ^ n -> 0 <= Z.lor a b < 2 ^ n.
Proof.
  intros Hn Ha Hb.
  assert (Z.lor a b = Z.lor a b mod 2 ^ n) as ->.
  { rewrite <- Z.land_ones, Z.land_lor_distr_l, !Z.land_ones by lia.
    by rewrite !Z.mod_small by lia. }
  apply Z.mod_pos_bound. lia.
Qed.

Lemma PA2PTE_bounds pa : 0 <= PA2PTE pa < 2 ^ 64.
Proof. unfold PA2PTE. apply u64_bounds. Qed.

(** A page-aligned address below 2^56 survives the round trip through a
    page-table entry, whatever flag bits are or'ed in. *)
Lemma PTE2PA_PA2PTE pa perm :
  0 <= pa < 2 ^ 56 -> pa mod 4096 = 0 -> 0 <= perm < 1024 ->
  PTE2PA (Z.lor (PA2PTE pa) perm) = pa.
Proof.
  intros Hpa Hal Hperm. unfold PTE2PA, PA2PTE.
  rewrite Z.shiftr_lor.
  rewrite (Z.shiftr_div_pow2 perm) by lia.
  rewrite (Z.div_small perm) by lia. rewrite Z.lor_0_r.
  rewrite (Z.shiftr_div_pow2 pa), (Z.shiftl_mul_pow2 (pa / 2 ^ 12)) by lia.
  rewrite (u64_id (pa / 2 ^ 12 * 2 ^ 10)) by dlia.
  rewrite Z.shiftr_div_pow2, Z.shiftl_mul_pow2 by lia.
  rewrite Z.div_mul by lia. rewrite u64_id by dlia. dlia.
Qed.

Lemma PTE_FLAGS_lor pa perm :
  0 <= pa < 2 ^ 56 -> 0 <= perm < 1024 -> PTE_FLAGS (Z.lor (PA2PTE pa) perm) = perm.
Proof.
  intros Hpa Hperm. unfold PTE_FLAGS, PA2PTE.
  change 1023 with (Z.ones 10). rewrite Z.land_ones by lia.
  rewrite Z.shiftr_div_pow2, Z.shiftl_mul_pow2 by lia.
  rewrite u64_id by dlia.
  rewrite <- Z.land_ones, Z.land_lor_distr_l, !Z.land_ones by lia.
  rewrite Z.mod_mul by lia. rewrite Z.lor_0_l. apply Z.mod_small. lia.
Qed.

Lemma land_flag_low x y f :
  0 <= f < 1024 -> y = PTE_FLAGS x -> Z.land x f = Z.land y f.
Proof.
  intros Hf ->. unfold PTE_FLAGS. rewrite <- Z.land_assoc. f_equal.
  change 1023 with (Z.ones 10). rewrite Z.land_comm, Z.land_ones by lia.
  symmetry. apply Z.mod_small. lia.
Qed.

(* ------------------------------------------------------------------ *)
(** ** Byte-addressed memory *)

(** The whole physical memory: absent addresses hold [0]; a load always yields
    a byte. *)
Abbreviation mem := (gmap Z Z).

Definition rd8 (m : mem) (a : Z) : Z := u8 (default 0 (m !! a)).
Fixpoint store_bytes (m : mem) (a : Z) (bs : list Z) : mem :=
  match bs with
  | [] => m
  | b :: bs' => store_bytes (<[a := b]> m) (a + 1) bs'
  end.
Fixpoint load_bytes (m : mem) (a : Z) (n : nat) : list Z :=
  match n with
  | O => []
  | S n' => rd8 m a :: load_bytes m (a + 1) n'
  end.
Definition rd64 (m : mem) (a : Z) : Z := le_val (load_bytes m a 8).
Definition wr64 (m : mem) (a v : Z) : mem := store_bytes m a (le_bytes 8 v).
Definition rd32 (m : mem) (a : Z) : Z := le_val (load_bytes m a 4).
Definition wr32 (m : mem) (a v : Z) : mem := store_bytes m a (le_bytes 4 v).
Definition wr8 (m : mem) (a v : Z) : mem := <[a := u8 v]> m.

#[global] Arguments rd8 : simpl never.
#[global] Arguments rd32 : simpl never.
#[global] Arguments rd64 : simpl never.
#[global] Arguments wr8 : simpl never.
#[global] Arguments wr32 : simpl never.
#[global] Arguments wr64 : simpl never.

Lemma length_load_bytes m a n : length (load_bytes m a n) = n.
Proof. revert a. induction n as [|n IH]; intros a; cbn; [done|]. by rewrite IH. Qed.
#[export] Hint Rewrite length_load_bytes : cm.

Lemma rd8_byte m a : is_byte (rd8 m a).
Proof. apply u8_bounds. Qed.

Lemma load_bytes_byte m a n : Forall is_byte (load_bytes m a n).
Proof. revert a. induction n as [|n IH]; intros a; cbn; constructor; [apply rd8_byte|apply IH]. Qed.

Lemma load_bytes_app m a n k :
  load_bytes m a (n + k) = load_bytes m a n ++ load_bytes m (a + Z.of_nat n) k.
Proof.
  revert a. induction n as [|n IH]; intros a; cbn [load_bytes Nat.add app].
  - by rewrite Z.add_0_r.
  - rewrite IH. do 3 f_equal. lia.
Qed.

Lemma lookup_load_bytes m a n i :
  (i < n)%nat -> load_bytes m a n !! i = Some (rd8 m (a + Z.of_nat i)).
Proof.
  revert a i. induction n as [|n IH]; intros a [|i] Hi; cbn; [lia..| |].
  - by rewrite Z.add_0_r.
  - rewrite IH by lia. do 2 f_equal. lia.
Qed.

Lemma rd8_store_bytes m a bs x :
  rd8 (store_bytes m a bs) x =
    if decide (a <= x < a + Z.of_nat (length bs))
    then u8 (default 0 (bs !! Z.to_nat (x - a))) else rd8 m x.
Proof.
  revert m a. induction bs as [|b bs IH]; intros m a; cbn [store_bytes length].
  - by rewrite decide_False by lia.
  - rewrite IH. repeat case_decide; try lia.
    + replace (Z.to_nat (x - a)) with (S (Z.to_nat (x - (a + 1)))) by lia. done.
    + assert (x = a) as -> by lia. unfold rd8. rewrite lookup_insert_eq, Z.sub_diag. done.
    + unfold rd8. rewrite lookup_insert_ne; [done|lia].
Qed.

Lemma load_store_same m a bs :
  Forall is_byte bs -> load_bytes (store_bytes m a bs) a (length bs) = bs.
Proof.
  intros Hall. apply list_eq. intros i.
  destruct (decide (i < length bs)%nat) as [Hi|Hi].
  - rewrite lookup_load_bytes by done. rewrite rd8_store_bytes, decide_True by lia.
    replace (Z.to_nat (a + Z.of_nat i - a)) with i by lia.
    destruct (lookup_lt_is_Some_2 bs i Hi) as [b Hb]. rewrite Hb. cbn.
    rewrite u8_id; [done|]. by eapply Forall_lookup_1 in Hall.
  - rewrite !(proj2 (lookup_ge_None _ _)); [done|lia|rewrite length_load_bytes; lia].
Qed.

Lemma load_bytes_ext m m' a n :
  (forall x, a <= x < a + Z.of_nat n -> rd8 m x = rd8 m' x) ->
  load_bytes m a n = load_bytes m' a n.
Proof.
  intros Heq. apply list_eq. intros i. destruct (decide (i < n)%nat).
  - rewrite !lookup_load_bytes by done. f_equal. apply Heq. lia.
  - rewrite !(proj2 (lookup_ge_None _ _)); [done|rewrite length_load_bytes; lia..].
Qed.

Lemma load_store_disjoint m a bs a' n :
  a' + Z.of_nat n <= a \/ a + Z.of_nat (length bs) <= a' ->
  load_bytes (store_bytes m a bs) a' n = load_bytes m a' n.
Proof.
  intros Hd. apply load_bytes_ext. intros x Hx.
  rewrite rd8_store_bytes, decide_False; [done|lia].
Qed.

Lemma rd64_wr64_eq m a v : rd64 (wr64 m a v) a = u64 v.
Proof.
  unfold rd64, wr64.
  change 8%nat with (length (le_bytes 8 v)) at 2.
  rewrite load_store_same by apply le_bytes_byte. by rewrite le_val_bytes.
Qed.
Lemma rd64_wr64_ne m a v a' : a' + 8 <= a \/ a + 8 <= a' -> rd64 (wr64 m a v) a' = rd64 m a'.
Proof.
  intros. unfold rd64, wr64. rewrite load_store_disjoint; [done|].
  rewrite length_le_bytes. lia.
Qed.
Lemma rd64_bounds m a : 0 <= rd64 m a < 2 ^ 64.
Proof.
  unfold rd64. pose proof (le_val_bounds _ (load_bytes_byte m a 8)) as Hb.
  rewrite length_load_bytes in Hb. exact Hb.
Qed.
Lemma rd64_store_bytes_ne m a bs a' :
  a' + 8 <= a \/ a + Z.of_nat (length bs) <= a' ->
  rd64 (store_bytes m a bs) a' = rd64 m a'.
Proof. intros. unfold rd64. by rewrite load_store_disjoint. Qed.
Lemma rd8_wr64_ne m a v x : x < a \/ a + 8 <= x -> rd8 (wr64 m a v) x = rd8 m x.
Proof.
  intros. unfold wr64. rewrite rd8_store_bytes, length_le_bytes, decide_False; [done|lia].
Qed.
Lemma le_bytes_zero n : Forall (fun b => b = 0) (le_bytes n 0).
Proof. induction n as [|n IH]; cbn; constructor; done. Qed.
Lemma rd8_wr64_zero m a x :
  rd8 (wr64 m a 0) x = if decide (a <= x < a + 8) then 0 else rd8 m x.
Proof.
  unfold wr64. rewrite rd8_store_bytes, length_le_bytes.
  change (Z.of_nat 8) with 8. case_decide; [|done].
  destruct (le_bytes 8 0 !! Z.to_nat (x - a)) as [b|] eqn:Hb; [|done].
  cbn. by rewrite (Forall_lookup_1 _ _ _ _ (le_bytes_zero 8) Hb).
Qed.
Lemma rd32_bounds m a : 0 <= rd32 m a < 4294967296.
Proof.
  unfold rd32. pose proof (le_val_bounds (load_bytes m a 4) (load_bytes_byte m a 4)) as Hb.
  rewrite length_load_bytes in Hb. exact Hb.
Qed.
Lemma rd32_wr32_eq m a v : rd32 (wr32 m a v) a = u32 v.
Proof.
  unfold rd32, wr32. change 4%nat with (length (le_bytes 4 v)) at 2.
  rewrite load_store_same by apply le_bytes_byte. apply le_val_bytes.
Qed.
Lemma rd32_wr32_ne m a v a' : a' + 4 <= a \/ a + 4 <= a' -> rd32 (wr32 m a v) a' = rd32 m a'.
Proof. intros Hd. unfold rd32, wr32. rewrite load_store_disjoint; [done|]. rewrite length_le_bytes. lia. Qed.
Lemma rd8_wr32_ne m a v x : x < a \/ a + 4 <= x -> rd8 (wr32 m a v) x = rd8 m x.
Proof.
  intros Hd. unfold wr32. rewrite rd8_store_bytes, length_le_bytes. by rewrite decide_False by lia.
Qed.
Lemma rd32_ext m m' a :
  (forall x, a <= x < a + 4 -> rd8 m x = rd8 m' x) -> rd32 m a = rd32 m' a.
Proof. intros Hx. unfold rd32. f_equal. by apply load_bytes_ext. Qed.
Lemma rd64_ext m m' a :
  (forall x, a <= x < a + 8 -> rd8 m x = rd8 m' x) -> rd64 m a = rd64 m' a.
Proof. intros. unfold rd64. f_equal. by apply load_bytes_ext. Qed.

(* ------------------------------------------------------------------ *)
(** ** memset, memmove, memcpy *)

(** [memset]: [for (i = 0; i < n; i++) p[i] = val], counting up from [i]. *)
Fixpoint memset_from (m : mem) (p val : Z) (i : Z) (n : nat) : mem :=
  match n with
  | O => m
  | S n' => memset_from (wr8 m (p + i) val) p val (i + 1) n'
  end.
Definition memset (m : mem) (dst v n : Z) : mem :=
  memset_from m dst (u8 v) 0 (Z.to_nat n).

(** The two copy loops of [memmove]. *)
Fixpoint copy_up (m : mem) (d s : Z) (i : Z) (n : nat) : mem :=
  match n with
  | O => m
  | S n' => copy_up (wr8 m (d + i) (rd8 m (s + i))) d s (i + 1) n'
  end.
Fixpoint copy_down (m : mem) (d s : Z) (n : nat) : mem :=
  match n with
  | O => m
  | S n' =>
      let i := Z.of_nat (S n') in
      copy_down (wr8 m (d + (i - 1)) (rd8 m (s + (i - 1)))) d s n'
  end.
Definition memmove (m : mem) (dest src n : Z) : mem :=
  if (dest =? src) || (n =? 0) then m
  else if dest <? src then copy_up m dest src 0 (Z.to_nat n)
  else copy_down m dest src (Z.to_nat n).
Definition memcpy (m : mem) (dst src n : Z) : mem := memmove m dst src n.

#[global] Arguments memset : simpl never.
#[global] Arguments memmove : simpl never.

Lemma wr8_store m a v : wr8 m a v = store_bytes m a [u8 v].
Proof. done. Qed.
Lemma rd8_wr8 m a v x :
  rd8 (wr8 m a v) x = if decide (x = a) then u8 v else rd8 m x.
Proof.
  unfold rd8, wr8. case_decide as Hx.
  - subst. rewrite lookup_insert_eq. cbn. by rewrite u8_id by apply u8_bounds.
  - by rewrite lookup_insert_ne by lia.
Qed.

Lemma rd8_memset_from m p v i n x :
  rd8 (memset_from m p v i n) x =
    if decide (p + i <= x < p + i + Z.of_nat n) then u8 v else rd8 m x.
Proof.
  revert m i. induction n as [|n IH]; intros m i; cbn [memset_from].
  - by rewrite decide_False by lia.
  - rewrite IH, rd8_wr8. repeat case_decide; try lia; done.
Qed.

Lemma rd8_memset m p v n x :
  0 <= n -> rd8 (memset m p v n) x = if decide (p <= x < p + n) then u8 v else rd8 m x.
Proof.
  intros. unfold memset. rewrite rd8_memset_from, (u8_id (u8 v)) by apply u8_bounds.
  repeat case_decide; try lia; done.
Qed.

Lemma rd64_memset_zero m p n a :
  0 <= n -> p <= a -> a + 8 <= p + n -> rd64 (memset m p 0 n) a = 0.
Proof.
  intros Hn Hp Ha. unfold rd64.
  assert (load_bytes (memset m p 0 n) a 8 = replicate 8 0) as ->; [|done].
  apply list_eq. intros i. destruct (decide (i < 8)%nat).
  - rewrite lookup_load_bytes, lookup_replicate_2 by done.
    rewrite rd8_memset, decide_True by lia. done.
  - rewrite !(proj2 (lookup_ge_None _ _)); [done|by rewrite length_replicate; lia|].
    rewrite length_load_bytes. lia.
Qed.

Lemma rd64_memset_ne m p v n a :
  0 <= n -> a + 8 <= p \/ p + n <= a -> rd64 (memset m p v n) a = rd64 m a.
Proof. intros. apply rd64_ext. intros. by rewrite rd8_memset, decide_False by lia. Qed.

Lemma rd8_copy_up m d s i n x :
  d < s ->
  rd8 (copy_up m d s i n) x =
    if decide (d + i <= x < d + i + Z.of_nat n) then rd8 m (s + (x - d)) else rd8 m x.
Proof.
  intros Hds. revert m i. induction n as [|n IH]; intros m i; cbn [copy_up].
  - by rewrite decide_False by lia.
  - rewrite IH, !rd8_wr8.
    repeat case_decide; try lia; try done.
    subst x. replace (d + i - d) with i by lia. apply u8_id, rd8_byte.
Qed.

Lemma rd8_copy_down m d s n x :
  s < d ->
  rd8 (copy_down m d s n) x =
    if decide (d <= x < d + Z.of_nat n) then rd8 m (s + (x - d)) else rd8 m x.
Proof.
  intros Hds. revert m. induction n as [|n IH]; intros m; cbn [copy_down].
  - by rewrite decide_False by lia.
  - rewrite IH, !rd8_wr8.
    repeat case_decide; try lia; try done.
    rewrite u8_id by apply rd8_byte. f_equal. lia.
Qed.

Lemma rd8_memmove m d s n x :
  0 <= n ->
  rd8 (memmove m d s n) x =
    if decide (d <= x < d + n) then rd8 m (s + (x - d)) else rd8 m x.
Proof.
  intros Hn. unfold memmove.
  destruct (Z.eqb_spec d s); [|destruct (Z.eqb_spec n 0)]; cbn.
  - subst. case_decide; [|done]. f_equal. lia.
  - by rewrite decide_False by lia.
  - destruct (Z.ltb_spec d s).
    + rewrite rd8_copy_up by done. repeat case_decide; try lia; done.
    + rewrite rd8_copy_down by lia. repeat case_decide; try lia; done.
Qed.

Lemma rd64_memmove_ne m d s n a :
  0 <= n -> a + 8 <= d \/ d + n <= a -> rd64 (memmove m d s n) a = rd64 m a.
Proof. intros. apply rd64_ext. intros. by rewrite rd8_memmove, decide_False by lia. Qed.

(** From here on the proofs use the lemmas above, not the definitions. *)
#[global] Opaque rd8 wr8 rd32 wr32 rd64 wr64 memset memmove.
