(* ===== verification/Kalloc.v ===== *)
(** The physical page allocator, [kernel/mm/kalloc.c]: a free list threaded
    through the first eight bytes of every free page. *)

From S2P Require Import Prelude Memory.

(** Addresses the linker script and the assembler fix: the kernel's end, the
    end of its text, the code addresses the kernel stores in page tables and
    trap frames, and the static data whose addresses the kernel compares: the
    process table, the CPU descriptor, the console buffer, string literals. *)
Class Image := {
  end_address : Z;
  etext : Z;
  userret : Z;
  uservec : Z;
  usertrap_addr : Z;
  forkret_addr : Z;
  proc_base : Z;
  cpus_base : Z;
  cons_buffer_addr : Z;
  str_addr : string -> Z;
}.

(** What the linker script guarantees of them: the data lies in the kernel
    image, and the process table (64 entries of 480 bytes) and the console
    buffer are apart. *)
Class ImageOk `{Image} : Prop := {
  etext_range : KERNBASE <= etext <= end_address;
  end_range : KERNBASE <= end_address < PHYSTOP;
  proc_range : KERNBASE <= proc_base /\ proc_base + 64 * 480 <= end_address;
  cpus_range : KERNBASE <= cpus_base < end_address;
  cons_range : KERNBASE <= cons_buffer_addr < end_address;
  proc_cons : cons_buffer_addr < proc_base \/ proc_base + 64 * 480 <= cons_buffer_addr;
}.

(** The allocator's state: the memory and [free_mem_list] ([0] is NULL). *)
Record kmem := KMem { km_mem : mem; free_mem_list : Z }.

Definition ld8 (a : Z) : M kmem Z := gets (fun s => rd8 (km_mem s) a).
Definition ld32 (a : Z) : M kmem Z := gets (fun s => rd32 (km_mem s) a).
Definition ld64 (a : Z) : M kmem Z := gets (fun s => rd64 (km_mem s) a).
Definition upd_mem (f : mem -> mem) : M kmem unit :=
  modify (fun s => KMem (f (km_mem s)) (free_mem_list s)).
Definition st8 (a v : Z) : M kmem unit := upd_mem (fun m => wr8 m a v).
Definition st32 (a v : Z) : M kmem unit := upd_mem (fun m => wr32 m a v).
Definition st64 (a v : Z) : M kmem unit := upd_mem (fun m => wr64 m a v).

Ltac wp_hook ::=
  lazymatch goal with
  | |- wp (ld8 _) _ _ => apply wp_gets
  | |- wp (ld32 _) _ _ => apply wp_gets
  | |- wp (ld64 _) _ _ => apply wp_gets
  | |- wp (upd_mem _) _ _ => apply wp_modify
  | |- wp (st8 _ _) _ _ => apply wp_modify
  | |- wp (st32 _ _) _ _ => apply wp_modify
  | |- wp (st64 _ _) _ _ => apply wp_modify
  end.

Section kalloc.
Context `{Image}.

(** [tem->next = free_mem_list; free_mem_list = pa] behind the address check. *)
Definition kfree (pa : Z) : M kmem unit :=
  if negb (pa mod PGSIZE =? 0) || (pa <? end_address) || (PHYSTOP <=? pa)
  then panic "kfree: invalid address"
  else
    let! s := get in
    put (KMem (wr64 (km_mem s) pa (free_mem_list s)) pa).

(** [NULL] (0) when the list is empty, else the head page, unlinked. *)
Definition kalloc : M kmem Z :=
  let! s := get in
  if free_mem_list s =? 0 then ret 0
  else
    let res := free_mem_list s in
    put (KMem (km_mem s) (rd64 (km_mem s) res)) ;;;
    ret res.

(** The [for] of [kinit]; the loop variable is [p]. *)
Definition kinit_body (p : Z) : M kmem (Z + unit) :=
  if p + PGSIZE <=? PHYSTOP then kfree p ;;; ret (inl (p + PGSIZE))
  else ret (inr tt).
Definition kinit_fuel : nat := Z.to_nat ((PHYSTOP - KERNBASE) / PGSIZE + 2).
Definition kinit : M kmem unit := loop kinit_fuel kinit_body (PGROUNDUP end_address).

(* ------------------------------------------------------------------ *)
(** ** The free list *)

(** [free_chain m h ps]: from [h], following the [next] words in [m], the list
    visits exactly [ps] and ends in NULL. *)
Fixpoint free_chain (m : mem) (h : Z) (ps : list Z) : Prop :=
  match ps with
  | [] => h = 0
  | p :: ps' => h = p /\ free_chain m (rd64 m p) ps'
  end.

(** A page the allocator may hand out. *)
Definition page_ok (p : Z) : Prop :=
  p mod PGSIZE = 0 /\ end_address <= p /\ p + PGSIZE <= PHYSTOP.

(** The allocator owns the distinct valid pages [ps]. *)
Record kmem_inv (s : kmem) (ps : list Z) : Prop := {
  inv_chain : free_chain (km_mem s) (free_mem_list s) ps;
  inv_nodup : NoDup ps;
  inv_pages : Forall page_ok ps;
}.

Lemma page_disjoint p q :
  p mod PGSIZE = 0 -> q mod PGSIZE = 0 -> p <> q ->
  p + PGSIZE <= q \/ q + PGSIZE <= p.
Proof. unfold PGSIZE. dlia. Qed.

Lemma page_ok_pos `{!ImageOk} p : page_ok p -> 0 < p < 2 ^ 56.
Proof.
  destruct end_range. unfold page_ok, PHYSTOP, KERNBASE, PGSIZE in *. lia.
Qed.

(** The list survives any change of memory outside its pages' first words. *)
Lemma free_chain_ext m m' h ps :
  (forall p, p ∈ ps -> rd64 m' p = rd64 m p) ->
  free_chain m h ps -> free_chain m' h ps.
Proof.
  revert h. induction ps as [|p ps IH]; intros h Heq Hc; cbn in *; [done|].
  destruct Hc as [-> Hc]. split; [done|].
  rewrite Heq by set_solver. apply IH; [|done]. intros; apply Heq; set_solver.
Qed.

(** Memory writes that avoid every free page keep the invariant. *)
Lemma kmem_inv_frame s ps m' :
  kmem_inv s ps ->
  (forall p x, p ∈ ps -> p <= x < p + 8 -> rd8 m' x = rd8 (km_mem s) x) ->
  kmem_inv (KMem m' (free_mem_list s)) ps.
Proof.
  intros [Hc Hn Hp] Heq. split; [|done..]. cbn. eapply free_chain_ext; [|exact Hc].
  intros p Hin. apply rd64_ext. naive_solver.
Qed.

Lemma kfree_spec `{!ImageOk} pa s ps :
  kmem_inv s ps -> page_ok pa -> pa ∉ ps ->
  exists s', kfree pa s = Ok tt s' /\ kmem_inv s' (pa :: ps) /\
    (forall x, x < pa \/ pa + 8 <= x -> rd8 (km_mem s') x = rd8 (km_mem s) x).
Proof.
  intros Hinv Hpg Hni. pose proof (page_ok_pos _ Hpg) as Hpos.
  destruct Hinv as [Hc Hn Hps]. destruct Hpg as (Hal & Hlo & Hhi).
  unfold kfree. rewrite Hal. cbn.
  rewrite (proj2 (Z.ltb_ge pa end_address)), (proj2 (Z.leb_gt PHYSTOP pa)); cbn;
    [|unfold PGSIZE in *; lia..].
  eexists. split; [reflexivity|]. split; [|intros x Hx; cbn; by rewrite rd8_wr64_ne].
  split; cbn; [|by constructor|by repeat constructor].
  split; [done|]. rewrite rd64_wr64_eq.
  rewrite u64_id.
  2:{ destruct ps as [|q ps]; cbn in Hc; [lia|]. destruct Hc as [-> _].
      apply Forall_cons in Hps as [Hq _]. apply page_ok_pos in Hq. lia. }
  eapply free_chain_ext; [|exact Hc]. intros q Hq.
  rewrite rd64_wr64_ne; [done|].
  pose proof (proj1 (Forall_forall _ _) Hps q Hq) as (Hqal & _ & _).
  destruct (page_disjoint pa q) as [|]; unfold PGSIZE in *; [done|done|set_solver|lia|lia].
Qed.

Lemma kalloc_spec_cons `{!ImageOk} s p ps :
  kmem_inv s (p :: ps) ->
  exists s', kalloc s = Ok p s' /\ kmem_inv s' ps /\ km_mem s' = km_mem s /\
    page_ok p /\ p ∉ ps.
Proof.
  intros [Hc Hn Hps]. cbn in Hc. destruct Hc as [Hh Hc].
  apply NoDup_cons in Hn as [Hni Hn]. apply Forall_cons in Hps as [Hp Hps].
  unfold kalloc, bind, get, put, ret. rewrite Hh.
  pose proof (page_ok_pos _ Hp). rewrite (proj2 (Z.eqb_neq p 0)) by lia.
  eexists. split; [reflexivity|]. refine (conj _ (conj eq_refl (conj Hp Hni))).
  by constructor.
Qed.

Lemma kalloc_spec_nil s :
  kmem_inv s [] -> kalloc s = Ok 0 s.
Proof. intros [Hc _ _]. cbn in Hc. unfold kalloc, bind, get, ret. by rewrite Hc. Qed.

(** The pages between [p] and [PHYSTOP], in the order [kinit] leaves them. *)
Definition pages_down (p : Z) (n : nat) : list Z :=
  (fun i => p + PGSIZE * Z.of_nat i) <$> reverse (seq 0 n).

Definition npages : nat := Z.to_nat ((PHYSTOP - PGROUNDUP end_address) / PGSIZE).

Lemma pages_down_S p n : pages_down p (S n) = p + PGSIZE * Z.of_nat n :: pages_down p n.
Proof. unfold pages_down. by rewrite seq_S, reverse_snoc. Qed.

Lemma elem_of_pages_down p n x :
  x ∈ pages_down p n <-> exists i, (i < n)%nat /\ x = p + PGSIZE * Z.of_nat i.
Proof.
  unfold pages_down. rewrite list_elem_of_fmap. split.
  - intros (i & -> & Hi). rewrite elem_of_reverse, elem_of_seq in Hi. exists i. split; [lia|done].
  - intros (i & Hi & ->). exists i. split; [done|]. rewrite elem_of_reverse, elem_of_seq. lia.
Qed.

Lemma PGROUNDUP_end `{!ImageOk} :
  PGROUNDUP end_address mod PGSIZE = 0 /\ end_address <= PGROUNDUP end_address /\
  PGROUNDUP end_address <= PHYSTOP.
Proof.
  destruct end_range. rewrite PGROUNDUP_eq by (unfold PHYSTOP, KERNBASE in *; lia).
  unfold PHYSTOP, KERNBASE, PGSIZE in *. dlia.
Qed.

(** [kinit] hands every whole page of [PGROUNDUP(end_address), PHYSTOP) to the
    free list exactly once, whatever the memory held. *)
Lemma kinit_spec `{!ImageOk} m :
  wp kinit (fun _ s' => kmem_inv s' (pages_down (PGROUNDUP end_address) npages))
    (KMem m 0).
Proof.
  destruct PGROUNDUP_end as (Hal & Hlo & Hhi). pose proof end_range as Her.
  set (p0 := PGROUNDUP end_address) in *.
  assert (PGSIZE * Z.of_nat npages = PHYSTOP - p0) as Hnp.
  { unfold npages. fold p0. unfold PHYSTOP, KERNBASE, PGSIZE in *. dlia. }
  apply (wp_loop _ _ (fun n p s => exists k, p = p0 + PGSIZE * Z.of_nat k /\
     (k <= npages)%nat /\ n = (npages - k)%nat /\ kmem_inv s (pages_down p0 k))
     _ npages).
  - intros n p s (k & -> & Hk & -> & Hinv). unfold kinit_body. wp_step; zbool.
    + wp_step.
      assert (k < npages)%nat as Hlt by (unfold PGSIZE in *; lia).
      destruct (kfree_spec (p0 + PGSIZE * Z.of_nat k) s (pages_down p0 k))
        as (s' & Hrun & Hinv' & _); [done| | |].
      * split; [unfold PGSIZE in *; dlia|]. unfold PGSIZE in *. lia.
      * rewrite elem_of_pages_down. intros (i & Hi & Heq). unfold PGSIZE in *. lia.
      * eapply wp_of_eq; [exact Hrun|]. wp_step. exists (npages - S k)%nat. split; [lia|].
        exists (S k). rewrite pages_down_S.
        refine (conj _ (conj _ (conj eq_refl Hinv'))); [unfold PGSIZE in *|]; lia.
    + wp_step. by replace npages with k by (unfold PGSIZE in *; lia).
  - exists 0%nat. refine (conj _ (conj _ (conj _ _))); [unfold PGSIZE; lia|lia|lia|].
    by repeat constructor.
  - unfold kinit_fuel. unfold PHYSTOP, KERNBASE, PGSIZE in *. dlia.
Qed.

(** The pages the allocator manages. *)
Definition all_pages : list Z := pages_down (PGROUNDUP end_address) npages.

(** Use of the allocator by the rest of the kernel: [own] are the pages handed
    out and not yet returned, the only ones their owners write to. *)
Inductive alloc_step : kmem * list Z -> kmem * list Z -> Prop :=
| alloc_take s own p s' :
    kalloc s = Ok p s' -> p <> 0 -> alloc_step (s, own) (s', p :: own)
| alloc_fail s own s' :
    kalloc s = Ok 0 s' -> alloc_step (s, own) (s', own)
| alloc_give s own1 p own2 s' :
    kfree p s = Ok tt s' -> alloc_step (s, own1 ++ p :: own2) (s', own1 ++ own2)
| alloc_write s own m' :
    (forall x, (forall p, p ∈ own -> ~ (p <= x < p + PGSIZE)) -> rd8 m' x = rd8 (km_mem s) x) ->
    alloc_step (s, own) (KMem m' (free_mem_list s), own).

(** Every managed page is either free or owned, once. *)
Definition alloc_inv (x : kmem * list Z) : Prop :=
  exists ps, kmem_inv (fst x) ps /\ snd x ++ ps ≡ₚ all_pages.

Lemma NoDup_all_pages : NoDup all_pages.
Proof.
  unfold all_pages, pages_down. apply NoDup_fmap_2_strong.
  - intros x y _ _ Heq. unfold PGSIZE in Heq. lia.
  - rewrite reverse_Permutation. apply NoDup_seq.
Qed.

Lemma page_ok_all `{!ImageOk} p : p ∈ all_pages -> page_ok p.
Proof.
  destruct PGROUNDUP_end as (Hal & Hlo & Hhi). pose proof end_range.
  intros (i & Hi & ->)%elem_of_pages_down. unfold npages in Hi.
  unfold page_ok, PGSIZE, PHYSTOP, KERNBASE in *. dlia.
Qed.

Lemma alloc_step_inv `{!ImageOk} x y : alloc_inv x -> alloc_step x y -> alloc_inv y.
Proof.
  intros (ps & Hinv & Hperm) Hstep.
  assert (NoDup (snd x ++ ps)) as Hnd by (rewrite Hperm; apply NoDup_all_pages).
  destruct Hstep as [s own p s' Hk Hp|s own s' Hk|s own1 p own2 s' Hk|s own m' Hw]; cbn [fst snd] in *.
  - destruct ps as [|q ps]; [rewrite kalloc_spec_nil in Hk by done; congruence|].
    destruct (kalloc_spec_cons _ _ _ Hinv) as (s1 & Hrun & Hinv1 & _).
    rewrite Hrun in Hk. injection Hk as -> ->. exists ps. split; [done|].
    rewrite <- Hperm. apply (Permutation_middle own ps p).
  - destruct ps as [|q ps].
    + rewrite kalloc_spec_nil in Hk by done. injection Hk as ->. by exists [].
    + destruct (kalloc_spec_cons _ _ _ Hinv) as (s1 & Hrun & _ & _ & Hq & _).
      rewrite Hrun in Hk. injection Hk as -> ->. apply page_ok_pos in Hq. lia.
  - assert (p ∈ all_pages) as Hin by (rewrite <- Hperm; set_solver).
    assert (p ∉ ps) as Hni.
    { intros Hin'. rewrite <- (assoc_L (++)) in Hnd.
      apply NoDup_app in Hnd as (_ & _ & Hnd). apply NoDup_cons in Hnd as [Hnd _]. set_solver. }
    destruct (kfree_spec p s ps Hinv (page_ok_all _ Hin) Hni) as (s1 & Hrun & Hinv1 & _).
    rewrite Hrun in Hk. injection Hk as ->. exists (p :: ps). split; [done|].
    cbn [fst snd]. rewrite <- Hperm. rewrite <- !(assoc_L (++)).
    apply Permutation_app_head. symmetry. apply (Permutation_middle own2 ps p).
  - exists ps. split; [|done]. apply kmem_inv_frame; [done|]. intros q x Hq Hx.
    apply Hw. intros p Hp.
    assert (p <> q) as Hne by (intros ->; apply NoDup_app in Hnd as (_ & Hnd & _); naive_solver).
    assert (page_ok p) as (Hpal & _) by (apply page_ok_all; rewrite <- Hperm; set_solver).
    assert (page_ok q) as (Hqal & _) by (apply page_ok_all; rewrite <- Hperm; set_solver).
    destruct (page_disjoint p q Hpal Hqal Hne); unfold PGSIZE in *; lia.
Qed.

(* ------------------------------------------------------------------ *)
(** ** Properties *)

(** C3: however the kernel allocates, frees and writes to the pages it holds
    after [kinit], every page of the pool is at every moment either on the free
    list or held by exactly one owner: none is handed out twice and none lost. *)
Theorem allocator_safe `{!ImageOk} m s x :
  kinit (KMem m 0) = Ok tt s -> rtc alloc_step (s, []) x ->
  exists ps, kmem_inv (fst x) ps /\ snd x ++ ps ≡ₚ all_pages /\ NoDup (snd x ++ ps).
Proof.
  intros Hk Hsteps.
  assert (alloc_inv x) as (ps & Hinv & Hperm).
  { assert (alloc_inv (s, [])) as Hs.
    { exists all_pages. split; [|done].
      pose proof (kinit_spec m) as Hw. unfold wp in Hw. by rewrite Hk in Hw. }
    induction Hsteps as [x|x y z Hxy _ IH]; [done|]. by apply IH, alloc_step_inv with x. }
  exists ps. split; [done|]. split; [done|]. rewrite Hperm. apply NoDup_all_pages.
Qed.

(** [kinit] terminates and puts every whole page of
    [PGROUNDUP(end_address), PHYSTOP) on the free list, whatever memory held. *)
Theorem kinit_frees_all `{!ImageOk} m :
  exists s, kinit (KMem m 0) = Ok tt s /\ kmem_inv s all_pages /\
    Z.of_nat (length all_pages) * PGSIZE = PHYSTOP - PGROUNDUP end_address.
Proof.
  destruct (wp_inv _ _ _ (kinit_spec m)) as ([] & s & Hrun & Hinv).
  exists s. split; [done|]. split; [done|].
  destruct PGROUNDUP_end as (Hal & Hlo & Hhi).
  unfold all_pages, pages_down. rewrite length_fmap, length_reverse, length_seq.
  unfold npages, PHYSTOP, KERNBASE, PGSIZE in *. dlia.
Qed.

(** [kfree] panics on every address that is not a page of managed memory;
    freeing a page and allocating again yields that page, with the rest of the
    list and of memory as before. *)
Theorem kfree_kalloc `{!ImageOk} pa s ps :
  kmem_inv s ps ->
  (page_ok pa -> pa ∉ ps ->
     exists s', bind (kfree pa) (fun _ => kalloc) s = Ok pa s' /\ kmem_inv s' ps /\
       forall x, x < pa \/ pa + 8 <= x -> rd8 (km_mem s') x = rd8 (km_mem s) x) /\
  (~ page_ok pa -> 0 <= pa -> kfree pa s = Stop (Panic "kfree: invalid address")).
Proof.
  intros Hinv. split.
  - intros Hpg Hni. destruct (kfree_spec pa s ps Hinv Hpg Hni) as (s1 & Hrun & Hinv1 & Hfr).
    destruct (kalloc_spec_cons _ _ _ Hinv1) as (s2 & Hrun2 & Hinv2 & Hm & _).
    exists s2. rewrite (bind_ok _ _ _ _ _ Hrun), Hrun2, Hm. done.
  - intros Hno Hpos. unfold kfree.
    destruct (Z.eqb_spec (pa mod PGSIZE) 0) as [Hal|Hal]; [|done].
    destruct (Z.ltb_spec pa end_address) as [Hlo|Hlo]; [done|].
    destruct (Z.leb_spec PHYSTOP pa) as [Hhi|Hhi]; [done|].
    exfalso. apply Hno. split; [done|]. split; [done|].
    unfold PHYSTOP, KERNBASE, PGSIZE in *. dlia.
Qed.
End kalloc.

(* ------------------------------------------------------------------ *)
(** ** A concrete image *)

(** A kernel that fills memory up to the last [n] pages; with few of them a run
    of [kinit] is short, and 128 are enough for the kernel's page table. *)
Definition image_with (n : Z) : Image := {|
  end_address := PHYSTOP - n * PGSIZE;
  etext := KERNBASE + 32768;
  userret := KERNBASE + 4096;
  uservec := KERNBASE + 8192;
  usertrap_addr := KERNBASE + 12288;
  forkret_addr := KERNBASE + 12544;
  proc_base := KERNBASE + 65536;
  cpus_base := KERNBASE + 131072;
  cons_buffer_addr := KERNBASE + 139264;
  str_addr := fun _ => KERNBASE + 147456;
|}.
Definition small_image : Image := image_with 16.
Definition sample_image : Image := image_with 128.
Lemma small_image_ok : @ImageOk small_image.
Proof. split; cbv -[Z.le Z.lt]; lia. Qed.
Lemma sample_image_ok : @ImageOk sample_image.
Proof. split; cbv -[Z.le Z.lt]; lia. Qed.

Section witnesses.
#[local] Existing Instance small_image.
#[local] Existing Instance small_image_ok.

(** The states after [kinit] from zeroed memory and after one allocation. *)
Definition kinit_state : kmem :=
  match kinit (KMem ∅ 0) with Ok _ s => s | _ => KMem ∅ 0 end.
Definition kalloc_state : kmem :=
  match kalloc kinit_state with Ok _ s => s | _ => KMem ∅ 0 end.

Lemma allocator_safe_witness :
  kinit (KMem ∅ 0) = Ok tt kinit_state /\
  rtc alloc_step (kinit_state, []) (kalloc_state, [PHYSTOP - PGSIZE]) /\
  exists ps, kmem_inv kalloc_state ps /\ [PHYSTOP - PGSIZE] ++ ps ≡ₚ all_pages /\
    NoDup ([PHYSTOP - PGSIZE] ++ ps).
Proof.
  assert (kinit (KMem ∅ 0) = Ok tt kinit_state) as Hk by (vm_compute; reflexivity).
  assert (rtc alloc_step (kinit_state, []) (kalloc_state, [PHYSTOP - PGSIZE])) as Hs.
  { apply rtc_once, alloc_take; [vm_compute; reflexivity|]. vm_compute. discriminate. }
  split; [exact Hk|]. split; [exact Hs|]. exact (allocator_safe ∅ _ _ Hk Hs).
Defined.

Lemma kinit_frees_all_witness :
  exists s, kinit (KMem ∅ 0) = Ok tt s /\ kmem_inv s all_pages /\
    Z.of_nat (length all_pages) * PGSIZE = PHYSTOP - PGROUNDUP end_address.
Proof. exact (kinit_frees_all ∅). Defined.

Lemma kfree_kalloc_witness :
  exists s', bind (kfree (PHYSTOP - PGSIZE)) (fun _ => kalloc) (KMem ∅ 0)
    = Ok (PHYSTOP - PGSIZE) s' /\ kmem_inv s' [].
Proof.
  destruct (proj1 (kfree_kalloc (PHYSTOP - PGSIZE) (KMem ∅ 0) []
    ltac:(split; [done|constructor|constructor])))
    as (s' & Hrun & Hinv & _).
  - split; [reflexivity|split; vm_compute; discriminate].
  - apply not_elem_of_nil.
  - exists s'. split; [exact Hrun|exact Hinv].
Defined.
End witnesses.
