(* ===== verification/Vm.v ===== *)
(** Sv39 page tables, [kernel/mm/vm.c]: walking and building three-level
    tables in memory, copying to user space, growing, shrinking, copying and
    freeing address spaces. *)

From S2P Require Import Prelude Memory Kalloc.

Section vm.
Context `{Image}.

(* ------------------------------------------------------------------ *)
(** ** walk and mappages *)

(** One round of the level loop of [walk]; level 0 is the final
    [&pagetable[PX(0, va)]]. The result is the address of the entry, 0 for NULL. *)
Fixpoint walk_level (level : nat) (pagetable va : Z) (alloc : bool) : M kmem Z :=
  let pte := pagetable + 8 * PX (Z.of_nat level) va in
  match level with
  | O => ret pte
  | S level' =>
      let! v := ld64 pte in
      if has v PTE_V then walk_level level' (PTE2PA v) va alloc
      else if negb alloc then ret 0
      else
        let! pagetable := kalloc in
        if pagetable =? 0 then ret 0
        else
          upd_mem (fun m => memset m pagetable 0 PGSIZE) ;;;
          st64 pte (PA2PTE pagetable) ;;;
          (let! v := ld64 pte in st64 pte (Z.lor v PTE_V)) ;;;
          walk_level level' pagetable va alloc
  end.

Definition walk (pagetable va : Z) (alloc : bool) : M kmem Z :=
  if MAXVA <=? va then panic "walk: virtual address out of range"
  else walk_level 2 pagetable va alloc.

(** One round of the [for (;;)] of [mappages]; the loop variables are [a], [pa]. *)
Definition mappages_body (pagetable last perm : Z) (x : Z * Z) : M kmem (Z * Z + Z) :=
  let '(a, pa) := x in
  let! pte := walk pagetable a true in
  if pte =? 0 then ret (inr (-1))
  else
    let! v := ld64 pte in
    if has v PTE_V then panic "mappages: remap"
    else
      st64 pte (Z.lor (PA2PTE pa) (Z.lor perm PTE_V)) ;;;
      if a =? last then ret (inr 0)
      else ret (inl (u64 (a + PGSIZE), u64 (pa + PGSIZE))).

Definition mappages (pagetable pa va size perm : Z) : M kmem Z :=
  if size =? 0 then panic "mappages: size is 0"
  else
    let a := PGROUNDDOWN va in
    let last := PGROUNDDOWN (u64 (va + size - 1)) in
    loop (Z.to_nat (u64 (last - a) / PGSIZE) + 1) (mappages_body pagetable last perm) (a, pa).

(* ------------------------------------------------------------------ *)
(** ** The kernel page table *)

(** [kernel_pagetable] is the result of [kvmininit]. *)
Definition kvmininit : M kmem Z :=
  let! kernel_pagetable := kalloc in
  if kernel_pagetable =? 0 then panic "kvmininit: out of memory"
  else
    for_range 0 512 (fun i => st64 (kernel_pagetable + 8 * Z.of_nat i) 0) ;;;
    mappages kernel_pagetable VIRTIO0 VIRTIO0 PGSIZE (Z.lor PTE_R PTE_W) ;;;
    mappages kernel_pagetable PLIC PLIC 4194304 (Z.lor PTE_R PTE_W) ;;;
    mappages kernel_pagetable UART0 UART0 PGSIZE (Z.lor PTE_R PTE_W) ;;;
    mappages kernel_pagetable KERNBASE KERNBASE (u64 (PGROUNDUP etext - KERNBASE))
      (Z.lor PTE_R PTE_X) ;;;
    mappages kernel_pagetable (PGROUNDUP etext) (PGROUNDUP etext)
      (u64 (PHYSTOP - PGROUNDUP etext)) (Z.lor PTE_R PTE_W) ;;;
    ret kernel_pagetable.

(** The [satp] value [kvminithart] writes. *)
Definition kvminithart (kernel_pagetable : Z) : Z := MAKE_SATP kernel_pagetable.

Definition set_pte_u (pagetable va : Z) : M kmem unit :=
  let! pte := walk pagetable va false in
  if pte =? 0 then panic "set_pte_u: pte should exist"
  else
    let! v := ld64 pte in
    st64 pte (Z.lor v (Z.lor (Z.lor (Z.lor PTE_U PTE_R) PTE_X) PTE_W)).

(* ------------------------------------------------------------------ *)
(** ** Copying to and translating user addresses *)

(** One round of the [while (len > 0)] of [copyout]; [src] holds the bytes still
    to copy, so [len] is its length. *)
Definition copyout_body (pagetable : Z) (x : Z * list Z) : M kmem (Z * list Z + Z) :=
  let '(dstva, src) := x in
  let len := Z.of_nat (length src) in
  if len <=? 0 then ret (inr 0)
  else
    let va0 := PGROUNDDOWN dstva in
    let! pte := walk pagetable va0 false in
    if pte =? 0 then ret (inr (-1))
    else
      let! v := ld64 pte in
      if negb (has v PTE_V) || negb (has v PTE_U) then ret (inr (-1))
      else
        let pa0 := PTE2PA v in
        let n := PGSIZE - (dstva - va0) in
        let n := if len <? n then len else n in
        let kernel_dst := pa0 + (dstva - va0) in
        upd_mem (fun m => store_bytes m kernel_dst (take (Z.to_nat n) src)) ;;;
        ret (inl (u64 (dstva + n), drop (Z.to_nat n) src)).

Definition copyout (pagetable dstva : Z) (src : list Z) : M kmem Z :=
  loop (length src + 1) (copyout_body pagetable) (dstva, src).

Definition walkaddr (pagetable va : Z) : M kmem Z :=
  let! pte := walk pagetable va false in
  if pte =? 0 then ret 0
  else
    let! v := ld64 pte in
    if negb (has v PTE_V) || negb (has v PTE_U) then ret 0
    else ret (Z.lor (PTE2PA v) (Z.land va (PGSIZE - 1))).

(* ------------------------------------------------------------------ *)
(** ** Address spaces *)

(** One round of the loop of [uvmcopy]; the loop variable is [i]. *)
Definition uvmcopy_body (old new sz : Z) (i : Z) : M kmem (Z + Z) :=
  if negb (i <? sz) then ret (inr 0)
  else
    let! pte := walk old i false in
    if pte =? 0 then ret (inl (u64 (i + PGSIZE)))
    else
      let! v := ld64 pte in
      if negb (has v PTE_V) then ret (inl (u64 (i + PGSIZE)))
      else
        let pa := PTE2PA v in
        let flags := PTE_FLAGS v in
        let! mem := kalloc in
        if mem =? 0 then ret (inr (-1))
        else
          upd_mem (fun m => memmove m mem pa PGSIZE) ;;;
          let! r := mappages new mem i PGSIZE (s32 flags) in
          if r <? 0 then kfree mem ;;; ret (inr (-1))
          else ret (inl (u64 (i + PGSIZE))).

Definition uvmcopy (old new sz : Z) : M kmem Z :=
  loop (Z.to_nat (sz / PGSIZE) + 2) (uvmcopy_body old new sz) 0.

(** [proc_pagetable(p)], which reads only [p->trapframe]. *)
Definition proc_pagetable (trapframe : Z) : M kmem Z :=
  let! pgtbl := kalloc in
  if pgtbl =? 0 then ret 0
  else
    upd_mem (fun m => memset m pgtbl 0 PGSIZE) ;;;
    let userret_pa := PGROUNDDOWN userret in
    let! r := mappages pgtbl userret_pa userret_pa PGSIZE (Z.lor PTE_R PTE_X) in
    if r <? 0 then ret 0
    else
      let uservec_pa := PGROUNDDOWN uservec in
      when (negb (uservec_pa =? userret_pa))
        (mappages pgtbl uservec_pa uservec_pa PGSIZE (Z.lor PTE_R PTE_X) ;;; ret tt) ;;;
      let tf_pa := PGROUNDDOWN trapframe in
      let! r := mappages pgtbl tf_pa tf_pa PGSIZE (Z.lor PTE_R PTE_W) in
      if r <? 0 then ret 0 else ret pgtbl.

(** One round of the loop of [uvmunmap]; the loop variable is [a]. *)
Definition uvmunmap_body (pagetable stop : Z) (do_free : bool) (a : Z) : M kmem (Z + unit) :=
  if negb (a <? stop) then ret (inr tt)
  else
    let! pte := walk pagetable a false in
    if pte =? 0 then panic "uvmunmap: walk"
    else
      let! v := ld64 pte in
      if negb (has v PTE_V) then panic "uvmunmap: not mapped"
      else if PTE_FLAGS v =? PTE_V then panic "uvmunmap: not a leaf"
      else
        when do_free (kfree (PTE2PA v)) ;;;
        st64 pte 0 ;;;
        ret (inl (u64 (a + PGSIZE))).

Definition uvmunmap (pagetable va npages : Z) (do_free : bool) : M kmem unit :=
  if negb (va mod PGSIZE =? 0) then panic "uvmunmap: not aligned"
  else loop (Z.to_nat npages + 1)
         (uvmunmap_body pagetable (u64 (va + npages * PGSIZE)) do_free) va.

(** [freewalk]; the recursion is on the table's depth, which [fuel] bounds. *)
Fixpoint freewalk (fuel : nat) (pagetable : Z) : M kmem unit :=
  match fuel with
  | O => stop_with NoFuel
  | S f =>
      for_range 0 512 (fun i =>
        let a := pagetable + 8 * Z.of_nat i in
        let! pte := ld64 a in
        if has pte PTE_V && (Z.land pte (Z.lor (Z.lor PTE_R PTE_W) PTE_X) =? 0) then
          freewalk f (PTE2PA pte) ;;; st64 a 0
        else when (has pte PTE_V) (panic "freewalk: leaf")) ;;;
      kfree pagetable
  end.

Definition PTE_RWX : Z := Z.lor (Z.lor PTE_R PTE_W) PTE_X.

(** The body of the innermost loop of [proc_freepagetable]: release the page of
    one valid level-0 entry unless it is protected, and clear the entry. *)
Definition free_leaf (forbidden_pa : Z) (a : Z) : M kmem unit :=
  let! pte3 := ld64 a in
  when (has pte3 PTE_V && has pte3 PTE_RWX)
    (let pa := PTE2PA pte3 in
     when (has pte3 PTE_U || (2264924160 <=? pa))
       (when (((pa <? 2147483648) || (2148532224 <=? pa)) && negb (pa =? forbidden_pa))
          (kfree pa)) ;;;
     st64 a 0).

(** [proc_freepagetable(pagetable, sz)]; [trapframe] is the running process's,
    and [sz] is not read. *)
Definition proc_freepagetable (trapframe pagetable : Z) : M kmem unit :=
  let forbidden_pa := PGROUNDDOWN trapframe in
  for_range 0 512 (fun i =>
    let a1 := pagetable + 8 * Z.of_nat i in
    let! pte1 := ld64 a1 in
    when (has pte1 PTE_V)
      (if has pte1 PTE_RWX then st64 a1 0
       else
         let pgtbl2 := PTE2PA pte1 in
         for_range 0 512 (fun j =>
           let a2 := pgtbl2 + 8 * Z.of_nat j in
           let! pte2 := ld64 a2 in
           when (has pte2 PTE_V)
             (if has pte2 PTE_RWX then st64 a2 0
              else
                let pgtbl3 := PTE2PA pte2 in
                for_range 0 512 (fun k =>
                  free_leaf forbidden_pa (pgtbl3 + 8 * Z.of_nat k)))))) ;;;
  freewalk 4 pagetable.

Definition uvmdealloc (pagetable oldsz newsz : Z) : M kmem Z :=
  if oldsz <=? newsz then ret oldsz
  else
    when (PGROUNDUP newsz <? PGROUNDUP oldsz)
      (let npages := s32 ((PGROUNDUP oldsz - PGROUNDUP newsz) / PGSIZE) in
       uvmunmap pagetable (PGROUNDUP newsz) (u64 npages) true) ;;;
    ret newsz.

(** One round of the loop of [uvmalloc]; the loop variable is [a]. *)
Definition uvmalloc_body (pagetable oldsz newsz : Z) (a : Z) : M kmem (Z + Z) :=
  if negb (a <? newsz) then ret (inr newsz)
  else
    let! mem := kalloc in
    if mem =? 0 then uvmdealloc pagetable a oldsz ;;; ret (inr 0)
    else
      upd_mem (fun m => memset m mem 0 PGSIZE) ;;;
      let! r := mappages pagetable mem a PGSIZE (Z.lor (Z.lor PTE_W PTE_R) PTE_U) in
      if negb (r =? 0) then
        kfree mem ;;; uvmdealloc pagetable a oldsz ;;; ret (inr 0)
      else ret (inl (u64 (a + PGSIZE))).

Definition uvmalloc (pagetable oldsz newsz : Z) : M kmem Z :=
  if newsz <? oldsz then ret oldsz
  else
    let oldsz := PGROUNDUP oldsz in
    loop (Z.to_nat ((newsz - oldsz) / PGSIZE) + 2) (uvmalloc_body pagetable oldsz newsz) oldsz.
End vm.
