(* ===== verification/VmSpec.v ===== *)
(** What the page-table code of [Vm.v] guarantees: [walk] and [mappages]
    against an abstract tree of table pages, address translation and
    [copyout]. *)

From S2P Require Import Prelude Memory Kalloc Vm.

(* ------------------------------------------------------------------ *)
(** ** The abstract tree *)

(** The table pages of a Sv39 page table: the root, the level-1 table of each
    level-2 index and the level-0 table of each pair of indices. *)
Inductive tslot := TRoot | TMid (i2 : Z) | TLeaf (i2 i1 : Z).
#[global] Instance tslot_eq_dec : EqDecision tslot.
Proof. solve_decision. Defined.

Definition ptree := tslot -> option Z.
Definition tset (t : ptree) (sl : tslot) (p : Z) : ptree :=
  fun x => if decide (x = sl) then Some p else t x.

(** The word at [a] points to the child table, or has its valid bit clear. *)
Definition entry_ok (m : mem) (a : Z) (child : option Z) : Prop :=
  match child with
  | Some q => rd64 m a = Z.lor (PA2PTE q) PTE_V
  | None => has (rd64 m a) PTE_V = false
  end.

Definition idx (i : Z) : Prop := 0 <= i < 512.

Section spec.
Context `{Image} `{!ImageOk}.

Record pt_wf (m : mem) (root : Z) (t : ptree) : Prop := {
  wf_root : t TRoot = Some root;
  wf_page : forall sl p, t sl = Some p -> page_ok p;
  wf_inj : forall a b p, t a = Some p -> t b = Some p -> a = b;
  wf_mid : forall i2, idx i2 -> entry_ok m (root + 8 * i2) (t (TMid i2));
  wf_leaf : forall i2 i1 p, idx i1 -> t (TMid i2) = Some p ->
              entry_ok m (p + 8 * i1) (t (TLeaf i2 i1));
  wf_up : forall i2 i1, is_Some (t (TLeaf i2 i1)) -> is_Some (t (TMid i2));
  wf_idx : forall i2, is_Some (t (TMid i2)) -> idx i2;
  wf_idx1 : forall i2 i1, is_Some (t (TLeaf i2 i1)) -> idx i1;
}.

(** The table pages are not free pages. *)
Definition pt_apart (t : ptree) (ps : list Z) : Prop :=
  forall sl p, t sl = Some p -> p ∉ ps.

(** The address of the level-0 entry of [va]; the entry's value, [0] when the
    level-0 table is absent. *)
Definition pte_addr (t : ptree) (va : Z) : option Z :=
  (fun q => q + 8 * PX 0 va) <$> t (TLeaf (PX 2 va) (PX 1 va)).
Definition pte_at (m : mem) (t : ptree) (va : Z) : Z :=
  match pte_addr t va with Some a => rd64 m a | None => 0 end.

Lemma has_V_lor x : has (Z.lor x PTE_V) PTE_V = true.
Proof.
  unfold has, PTE_V. apply negb_true_iff, Z.eqb_neq. intros Hz.
  assert (Z.testbit (Z.land (Z.lor x (Z.shiftl 1 0)) (Z.shiftl 1 0)) 0 = false) as Hb
    by (by rewrite Hz).
  rewrite Z.land_spec, Z.lor_spec in Hb. cbn in Hb. by rewrite orb_true_r in Hb.
Qed.

Lemma entry_ok_frame m m' a c :
  rd64 m' a = rd64 m a -> entry_ok m a c -> entry_ok m' a c.
Proof. unfold entry_ok. by intros ->. Qed.

(** A well-formed table does not notice memory changes outside its pages. *)
Lemma pt_wf_frame m m' root t :
  pt_wf m root t ->
  (forall sl p, t sl = Some p -> forall x, p <= x < p + PGSIZE -> rd8 m' x = rd8 m x) ->
  pt_wf m' root t.
Proof.
  intros [] Heq. split; try done.
  - intros i2 Hi. eapply entry_ok_frame; [|by apply wf_mid0].
    apply rd64_ext. intros. eapply Heq; [done|]. unfold idx, PGSIZE in *. lia.
  - intros i2 i1 p Hi Hp. eapply entry_ok_frame; [|by apply wf_leaf0].
    apply rd64_ext. intros. eapply Heq; [done|]. unfold idx, PGSIZE in *. lia.
Qed.

Lemma pt_pages_disjoint m root t a b p q :
  pt_wf m root t -> t a = Some p -> t b = Some q -> a <> b ->
  p + PGSIZE <= q \/ q + PGSIZE <= p.
Proof.
  intros Hwf Ha Hb Hne. apply page_disjoint.
  - by apply (wf_page _ _ _ Hwf) in Ha as [? _].
  - by apply (wf_page _ _ _ Hwf) in Hb as [? _].
  - intros ->. by pose proof (wf_inj _ _ _ Hwf _ _ _ Ha Hb).
Qed.

(** Walking without allocation only reads, and finds the entry of [va]. *)
Lemma walk_noalloc s root t va :
  pt_wf (km_mem s) root t -> va < MAXVA ->
  walk root va false s = Ok (default 0 (pte_addr t va)) s.
Proof.
  intros Hwf Hva. unfold walk. rewrite (proj2 (Z.leb_gt MAXVA va)) by done.
  cbn [walk_level]. unfold bind, ld64, gets.
  pose proof (wf_mid _ _ _ Hwf (PX 2 va) (PX_bounds 2 va ltac:(lia))) as Hm.
  change (Z.of_nat 2) with 2. change (Z.of_nat 1) with 1. change (Z.of_nat 0) with 0.
  unfold entry_ok in Hm. unfold pte_addr.
  destruct (t (TMid (PX 2 va))) as [p|] eqn:Hmid.
  - rewrite Hm, has_V_lor.
    pose proof (wf_page _ _ _ Hwf _ _ Hmid) as Hpg.
    pose proof (page_ok_pos _ Hpg).
    rewrite PTE2PA_PA2PTE; [|lia|apply Hpg|done].
    pose proof (wf_leaf _ _ _ Hwf _ (PX 1 va) _ (PX_bounds 1 va ltac:(lia)) Hmid) as Hl.
    unfold entry_ok in Hl.
    destruct (t (TLeaf (PX 2 va) (PX 1 va))) as [q|] eqn:Hleaf.
    + rewrite Hl, has_V_lor.
      pose proof (wf_page _ _ _ Hwf _ _ Hleaf) as Hqg.
      pose proof (page_ok_pos _ Hqg).
      rewrite PTE2PA_PA2PTE; [done|lia|apply Hqg|done].
    + by rewrite Hl.
  - rewrite Hm. cbn.
    destruct (t (TLeaf (PX 2 va) (PX 1 va))) eqn:Hl; [|done].
    destruct (wf_up _ _ _ Hwf (PX 2 va) (PX 1 va)) as [? ?]; [by rewrite Hl|congruence].
Qed.

(** Storing [PA2PTE p] at [a] and then setting the valid bit. *)
Definition set_table (m : mem) (a p : Z) : mem :=
  let m := wr64 m a (PA2PTE p) in wr64 m a (Z.lor (rd64 m a) PTE_V).

Lemma set_table_fold m a p :
  wr64 (wr64 m a (PA2PTE p)) a (Z.lor (rd64 (wr64 m a (PA2PTE p)) a) PTE_V) = set_table m a p.
Proof. done. Qed.

Lemma rd64_set_table m a p : rd64 (set_table m a p) a = Z.lor (PA2PTE p) PTE_V.
Proof.
  unfold set_table. rewrite !rd64_wr64_eq.
  pose proof (PA2PTE_bounds p). rewrite (u64_id (PA2PTE p)) by lia. apply u64_id.
  apply (lor_range 64); [lia|lia|]. unfold PTE_V. rewrite Z.shiftl_0_r. lia.
Qed.
Lemma rd8_set_table_ne m a p x :
  x < a \/ a + 8 <= x -> rd8 (set_table m a p) x = rd8 m x.
Proof. intros. unfold set_table. by rewrite !rd8_wr64_ne. Qed.

(** [kalloc], zero the page, and enter it in the table [T]: the allocating
    branch of [walk_level]. *)
Lemma install_table s p ps T i :
  kmem_inv s (p :: ps) -> page_ok T -> T ∉ p :: ps -> idx i ->
  exists s1, kalloc s = Ok p s1 /\ p <> 0 /\ page_ok p /\ (p ∉ ps) /\ km_mem s1 = km_mem s /\
  let m' := set_table (memset (km_mem s) p 0 PGSIZE) (T + 8 * i) p in
  kmem_inv (KMem m' (free_mem_list s1)) ps /\
  (forall x, p <= x < p + PGSIZE -> rd8 m' x = 0) /\
  (forall x, (x < p \/ p + PGSIZE <= x) -> (x < T + 8 * i \/ T + 8 * i + 8 <= x) ->
     rd8 m' x = rd8 (km_mem s) x).
Proof.
  intros Hinv HT Hni Hi. apply not_elem_of_cons in Hni as [HTp HTps].
  destruct (kalloc_spec_cons s p ps Hinv) as (s1 & Hk & Hinv1 & Hm & Hp & Hpps).
  exists s1. pose proof (page_ok_pos _ Hp) as Hppos.
  refine (conj Hk (conj _ (conj Hp (conj Hpps (conj Hm _))))); [lia|]. cbn zeta.
  pose proof HT as (HTal & _ & _). pose proof Hp as (Hpal & _ & _).
  pose proof (page_disjoint T p HTal Hpal HTp) as HTd.
  assert (forall x, (x < p \/ p + PGSIZE <= x) -> (x < T + 8 * i \/ T + 8 * i + 8 <= x) ->
     rd8 (set_table (memset (km_mem s) p 0 PGSIZE) (T + 8 * i) p) x = rd8 (km_mem s) x) as Hfr.
  { intros x Hx1 Hx2. rewrite rd8_set_table_ne, rd8_memset by done.
    rewrite decide_False; [done|lia]. }
  refine (conj _ (conj _ Hfr)).
  - rewrite <- Hm in Hfr |- *. apply kmem_inv_frame; [done|]. intros q x Hq Hx.
    pose proof (proj1 (Forall_forall _ _) (inv_pages _ _ Hinv1) q Hq) as (Hqal & _ & _).
    assert (p <> q) as Hpq by (intros ->; done). assert (T <> q) as HTq by (intros ->; done).
    pose proof (page_disjoint p q Hpal Hqal Hpq).
    pose proof (page_disjoint T q HTal Hqal HTq).
    apply Hfr; unfold idx, PGSIZE in *; lia.
  - intros x Hx. rewrite rd8_set_table_ne; [|unfold idx, PGSIZE in *; lia].
    by rewrite rd8_memset, decide_True by done.
Qed.
(** How [walk] may grow a table: slots are added from the free list, no entry
    changes its value, and memory outside the tables is untouched. *)
Definition on_path (va : Z) (sl : tslot) : Prop :=
  sl = TMid (PX 2 va) \/ sl = TLeaf (PX 2 va) (PX 1 va).

(** Slots are added only on the way to addresses satisfying [P]. *)
Definition grown (P : Z -> Prop) (t t' : ptree) : Prop :=
  forall sl, is_Some (t' sl) -> is_Some (t sl) \/ exists va, P va /\ on_path va sl.

Lemma grown_refl P t : grown P t t.
Proof. intros sl. by left. Qed.
Lemma grown_trans P t t1 t2 : grown P t t1 -> grown P t1 t2 -> grown P t t2.
Proof. intros G1 G2 sl Hs. apply G2 in Hs as [Hs|Hs]; [by apply G1|by right]. Qed.
Lemma grown_mono (P Q : Z -> Prop) t t' : (forall va, P va -> Q va) -> grown P t t' -> grown Q t t'.
Proof. intros HPQ G sl Hs. apply G in Hs as [Hs|(va & Hva & Hp)]; [by left|]. right. eauto. Qed.
Lemma grown_tset (P : Z -> Prop) va t sl p : P va -> on_path va sl -> grown P t (tset t sl p).
Proof.
  intros HP Hon x. unfold tset. case_decide as Hx; [|by left]. intros _. right.
  exists va. by subst x.
Qed.

Record pt_ext (P : Z -> Prop) (m : mem) (ps : list Z) (t : ptree)
    (m' : mem) (ps' : list Z) (t' : ptree) : Prop := {
  ext_sub : forall sl p, t sl = Some p -> t' sl = Some p;
  ext_new : forall sl p, t' sl = Some p -> t sl = Some p \/ p ∈ ps;
  ext_free : exists used, ps = used ++ ps';
  ext_used : forall p, p ∈ ps -> p ∈ ps' \/ exists sl, t' sl = Some p;
  ext_grown : grown P t t';
  ext_pte : forall va, pte_at m' t' va = pte_at m t va;
  ext_frame : forall x, (forall sl p, t' sl = Some p -> ~ (p <= x < p + PGSIZE)) ->
                rd8 m' x = rd8 m x;
}.

Lemma pt_ext_refl P m ps t : pt_ext P m ps t m ps t.
Proof. split; auto using grown_refl. by exists []. Qed.

Lemma pt_ext_trans P m ps t m1 ps1 t1 m2 ps2 t2 :
  pt_ext P m ps t m1 ps1 t1 -> pt_ext P m1 ps1 t1 m2 ps2 t2 -> pt_ext P m ps t m2 ps2 t2.
Proof.
  intros [S1 N1 (u1 & F1) U1 G1 P1 R1] [S2 N2 (u2 & F2) U2 G2 P2 R2]. split.
  - auto.
  - intros sl p Hp. apply N2 in Hp as [Hp|Hp]; [by apply N1|].
    right. rewrite F1. set_solver.
  - exists (u1 ++ u2). by rewrite F1, F2, app_assoc.
  - intros p Hp. apply U1 in Hp as [Hp|(sl & Hp)]; [by apply U2|]. right. eauto.
  - by apply grown_trans with t1.
  - intros va. by rewrite P2, P1.
  - intros x Hx. rewrite R2, R1; [done| |done].
    intros sl p Hp. apply S2 in Hp. by eapply Hx.
Qed.

(** A table page all of whose words are zero has no child. *)
Lemma entry_ok_zero m a p :
  (forall x, p <= x < p + PGSIZE -> rd8 m x = 0) -> p <= a -> a + 8 <= p + PGSIZE ->
  rd64 m a = 0.
Proof.
  intros Hz Hlo Hhi. rewrite <- (rd64_memset_zero m p PGSIZE a) by (unfold PGSIZE in *; lia).
  apply rd64_ext. intros x Hx. rewrite rd8_memset, decide_True by (unfold PGSIZE in *; lia).
  rewrite Hz by lia. done.
Qed.

Section install.
Variables (m m' : mem) (root : Z) (t : ptree) (T i p : Z).
Hypothesis Hwf : pt_wf m root t.
Hypothesis Hpage : page_ok p.
Hypothesis Hidx : idx i.
Hypothesis Hfresh : forall sl q, t sl = Some q -> q <> p.
Hypothesis Hent : rd64 m' (T + 8 * i) = Z.lor (PA2PTE p) PTE_V.
Hypothesis Hzero : forall x, p <= x < p + PGSIZE -> rd8 m' x = 0.
Hypothesis Hframe : forall x, (x < p \/ p + PGSIZE <= x) ->
  (x < T + 8 * i \/ T + 8 * i + 8 <= x) -> rd8 m' x = rd8 m x.

(** Words of the tables other than the entry written keep their value. *)
Lemma install_keep slT sl q k :
  t slT = Some T -> t sl = Some q -> idx k -> (sl <> slT \/ k <> i) ->
  rd64 m' (q + 8 * k) = rd64 m (q + 8 * k).
Proof using Hwf Hpage Hidx Hfresh Hframe.
  intros HT Hq Hk Hne.
  pose proof (wf_page _ _ _ Hwf _ _ Hq) as (Hqal & _).
  destruct Hpage as (Hpal & _).
  pose proof (page_disjoint q p Hqal Hpal (Hfresh _ _ Hq)) as Hd.
  apply rd64_ext. intros x Hx. unfold idx, PGSIZE in *.
  apply Hframe; [lia|].
  destruct (decide (sl = slT)) as [->|Hs].
  - rewrite HT in Hq. injection Hq as <-. destruct Hne as [?|?]; [done|lia].
  - pose proof (pt_pages_disjoint _ _ _ _ _ _ _ Hwf Hq HT Hs). unfold PGSIZE in *. lia.
Qed.

Lemma install_inj sl :
  t sl = None -> forall a b q, tset t sl p a = Some q -> tset t sl p b = Some q -> a = b.
Proof using Hwf Hfresh.
  intros Hsl a b q. unfold tset. repeat case_decide; subst; intros Ha Hb; try congruence.
  - injection Ha as <-. by destruct (Hfresh _ _ Hb).
  - injection Hb as <-. by destruct (Hfresh _ _ Ha).
  - eapply wf_inj; eauto.
Qed.

Lemma install_page sl a q : tset t sl p a = Some q -> page_ok q.
Proof using Hwf Hpage.
  unfold tset. case_decide; [by intros [= <-]|]. by apply (wf_page _ _ _ Hwf).
Qed.

Lemma install_mid_wf :
  root = T -> t (TMid i) = None -> pt_wf m' root (tset t (TMid i) p).
Proof using All.
  intros HrT Hnone. pose proof (wf_root _ _ _ Hwf) as HTr. rewrite HrT in HTr.
  assert (forall i1, t (TLeaf i i1) = None) as Hnl.
  { intros i1. destruct (t (TLeaf i i1)) eqn:E; [|done].
    destruct (wf_up _ _ _ Hwf i i1); [by rewrite E|congruence]. }
  split.
  - unfold tset. rewrite decide_False by done. by apply (wf_root _ _ _ Hwf).
  - apply install_page.
  - by apply install_inj.
  - intros i2 Hi2. unfold tset. case_decide as Hd; [injection Hd as ->; by rewrite HrT|].
    eapply entry_ok_frame; [|by apply (wf_mid _ _ _ Hwf)].
    rewrite HrT. apply (install_keep TRoot TRoot); [done..|right; congruence].
  - intros i2 i1 q Hi1. unfold tset. rewrite (decide_False (P := TLeaf _ _ = TMid _)) by done.
    case_decide as Hd.
    + injection Hd as ->. intros Hq. injection Hq as <-. rewrite Hnl. cbn.
      rewrite (entry_ok_zero m' _ p Hzero); [done|unfold idx in *; lia|unfold idx, PGSIZE in *; lia].
    + intros Hq. eapply entry_ok_frame; [|by apply (wf_leaf _ _ _ Hwf)].
      by apply (install_keep TRoot (TMid i2)); auto.
  - intros i2 i1. unfold tset. rewrite decide_False by done. intros Hs.
    case_decide; [done|]. by apply (wf_up _ _ _ Hwf) in Hs.
  - intros i2. unfold tset. case_decide as Hd; [by injection Hd as ->|]. apply (wf_idx _ _ _ Hwf).
  - intros i2 i1. unfold tset. rewrite decide_False by done. apply (wf_idx1 _ _ _ Hwf).
Qed.

Lemma install_leaf_wf i2 :
  t (TMid i2) = Some T -> t (TLeaf i2 i) = None -> pt_wf m' root (tset t (TLeaf i2 i) p).
Proof using All.
  intros HT Hnone. split.
  - unfold tset. rewrite decide_False by done. by apply (wf_root _ _ _ Hwf).
  - apply install_page.
  - by apply install_inj.
  - intros j Hj. unfold tset. rewrite decide_False by done.
    eapply entry_ok_frame; [|by apply (wf_mid _ _ _ Hwf)].
    apply (install_keep (TMid i2) TRoot); [done|by apply (wf_root _ _ _ Hwf)|done|by left].
  - intros j i1 q Hi1. unfold tset. rewrite (decide_False (P := TMid _ = TLeaf _ _)) by done.
    intros Hq. case_decide as Hd.
    + injection Hd as -> ->. rewrite HT in Hq. injection Hq as <-. done.
    + eapply entry_ok_frame; [|by apply (wf_leaf _ _ _ Hwf)].
      apply (install_keep (TMid i2) (TMid j)); [done..|].
      destruct (decide (j = i2)) as [->|]; [right|left]; congruence.
  - intros j i1. unfold tset. rewrite (decide_False (P := TMid _ = TLeaf _ _)) by done.
    case_decide as Hd; [injection Hd as -> ->; by rewrite HT|]. apply (wf_up _ _ _ Hwf).
  - intros j. unfold tset. rewrite decide_False by done. apply (wf_idx _ _ _ Hwf).
  - intros j i1. unfold tset. case_decide as Hd; [by injection Hd as -> ->|].
    apply (wf_idx1 _ _ _ Hwf).
Qed.
End install.
Definition walk_post (root va : Z) (s : kmem) (ps : list Z) (t : ptree)
    (a : Z) (s' : kmem) : Prop :=
  exists ps' t', kmem_inv s' ps' /\ pt_wf (km_mem s') root t' /\ pt_apart t' ps' /\
    pt_ext (eq va) (km_mem s) ps t (km_mem s') ps' t' /\
    ((a = 0 /\ ps' = []) \/ (pte_addr t' va = Some a /\ a <> 0)).

Lemma tset_same t sl p : tset t sl p sl = Some p.
Proof. unfold tset. by rewrite decide_True by done. Qed.
Lemma tset_other t sl p x : x <> sl -> tset t sl p x = t x.
Proof. intros. unfold tset. by rewrite decide_False by done. Qed.

Lemma pt_apart_tset t ps p sl :
  pt_apart t (p :: ps) -> p ∉ ps -> pt_apart (tset t sl p) ps.
Proof.
  intros Hap Hni a q. unfold tset. case_decide; [by intros [= <-]|].
  intros Hq Hin. apply (Hap _ _ Hq). by apply list_elem_of_further.
Qed.

(** Installing a fresh zeroed page as slot [sl] extends the table. *)
Lemma install_ext va m m' root t slT T sl i p ps :
  on_path va sl ->
  pt_wf m root t -> pt_wf m' root (tset t sl p) -> page_ok p -> idx i ->
  t slT = Some T -> t sl = None -> pt_apart t (p :: ps) ->
  (forall j k, slT <> TLeaf j k) ->
  (forall x, p <= x < p + PGSIZE -> rd8 m' x = 0) ->
  (forall x, (x < p \/ p + PGSIZE <= x) -> (x < T + 8 * i \/ T + 8 * i + 8 <= x) ->
     rd8 m' x = rd8 m x) ->
  pt_ext (eq va) m (p :: ps) t m' ps (tset t sl p).
Proof.
  intros Hon Hwf Hwf' Hp Hi HT Hsl Hap HnT Hz Hfr.
  assert (forall a q, t a = Some q -> q <> p) as Hfresh.
  { intros a q Hq ->. apply (Hap _ _ Hq). by left. }
  split.
  - intros a q Ha. rewrite tset_other; [done|congruence].
  - intros a q. unfold tset. case_decide; [|by left]. intros [= <-]. right. by left.
  - by exists [p].
  - intros q Hq. apply elem_of_cons in Hq as [->|Hq]; [|by left].
    right. exists sl. apply tset_same.
  - by apply grown_tset with va.
  - intros v. unfold pte_at, pte_addr.
    destruct (decide (TLeaf (PX 2 v) (PX 1 v) = sl)) as [<-|Hne].
    + rewrite tset_same, Hsl. cbn. pose proof (PX_bounds 0 v ltac:(lia)).
      apply (entry_ok_zero _ _ p); [done|lia|unfold PGSIZE; lia].
    + rewrite tset_other by done.
      destruct (t (TLeaf (PX 2 v) (PX 1 v))) as [q|] eqn:Hq; [|done]. cbn.
      eapply (install_keep m m' root t T i p) with (slT := slT); eauto.
      apply PX_bounds. lia.
  - intros x Hx. apply Hfr.
    + assert (~ (p <= x < p + PGSIZE)) by (by apply (Hx sl), tset_same). lia.
    + assert (~ (T <= x < T + PGSIZE)) as HTx.
      { apply (Hx slT). rewrite tset_other; [done|congruence]. }
      unfold idx, PGSIZE in *. lia.
Qed.

Lemma walk_level1_alloc s ps root t va pm :
  kmem_inv s ps -> pt_wf (km_mem s) root t -> pt_apart t ps ->
  t (TMid (PX 2 va)) = Some pm ->
  wp (walk_level 1 pm va true) (walk_post root va s ps t) s.
Proof.
  intros Hinv Hwf Hap Hm. cbn [walk_level]. change (Z.of_nat 1) with 1. change (Z.of_nat 0) with 0.
  pose proof (wf_leaf _ _ _ Hwf _ (PX 1 va) _ (PX_bounds 1 va ltac:(lia)) Hm) as Hl.
  unfold entry_ok in Hl. do 2 wp_step.
  destruct (t (TLeaf (PX 2 va) (PX 1 va))) as [q|] eqn:Hleaf.
  - rewrite Hl, has_V_lor. pose proof (wf_page _ _ _ Hwf _ _ Hleaf) as Hqg.
    pose proof (page_ok_pos _ Hqg) as Hqp. rewrite PTE2PA_PA2PTE; [|lia|apply Hqg|done].
    cbn [walk_level]. apply wp_ret. exists ps, t.
    repeat (split; [by auto using pt_ext_refl|]).
    right. unfold pte_addr. rewrite Hleaf. cbn. pose proof (PX_bounds 0 va ltac:(lia)).
    split; [done|lia].
  - rewrite Hl. cbn [negb]. wp_step. destruct ps as [|p ps].
    + eapply wp_of_eq; [by apply kalloc_spec_nil|]. cbn. wp_step.
      exists [], t. repeat (split; [by auto using pt_ext_refl|]). by left.
    + assert (pm ∉ p :: ps) as Hpm by (by apply (Hap _ _ Hm)).
      destruct (install_table s p ps pm (PX 1 va))
        as (s1 & Hk & Hp0 & Hpg & Hpps & Hm1 & Hinv' & Hz & Hfr);
        [done|by apply (wf_page _ _ _ Hwf _ _ Hm)|done|by apply PX_bounds|].
      eapply wp_of_eq; [exact Hk|]. rewrite (proj2 (Z.eqb_neq p 0)) by done.
      repeat wp_step. cbn [km_mem free_mem_list]. rewrite Hm1, set_table_fold.
      pose proof (page_ok_pos _ Hpg). pose proof (PX_bounds 0 va ltac:(lia)).
      assert (pt_wf (set_table (memset (km_mem s) p 0 PGSIZE) (pm + 8 * PX 1 va) p) root
        (tset t (TLeaf (PX 2 va) (PX 1 va)) p)) as Hwf'.
      { apply (install_leaf_wf (km_mem s) _ root t pm (PX 1 va) p); try done; [by apply PX_bounds| |].
        - intros a q Hq ->. apply (Hap _ _ Hq). by left.
        - apply rd64_set_table. }
      exists ps, (tset t (TLeaf (PX 2 va) (PX 1 va)) p).
      refine (conj Hinv' (conj Hwf' (conj _ (conj _ _)))).
      * by apply pt_apart_tset.
      * eapply (install_ext va _ _ root _ (TMid (PX 2 va)) pm _ (PX 1 va)); try done; [by right|].
        by apply PX_bounds.
      * right. unfold pte_addr. rewrite tset_same. cbn. split; [done|lia].
Qed.

Lemma walk_post_trans root va s ps t s1 ps1 t1 a s2 :
  pt_ext (eq va) (km_mem s) ps t (km_mem s1) ps1 t1 ->
  walk_post root va s1 ps1 t1 a s2 -> walk_post root va s ps t a s2.
Proof.
  intros Hext (ps2 & t2 & Hi & Hw & Hd & He & Hr). exists ps2, t2.
  exact (conj Hi (conj Hw (conj Hd (conj (pt_ext_trans _ _ _ _ _ _ _ _ _ _ Hext He) Hr)))).
Qed.

(** Walking with allocation finds the entry of [va], growing the table from the
    free list, or returns NULL with the free list exhausted. *)
Lemma walk_alloc s ps root t va :
  kmem_inv s ps -> pt_wf (km_mem s) root t -> pt_apart t ps -> va < MAXVA ->
  wp (walk root va true) (walk_post root va s ps t) s.
Proof.
  intros Hinv Hwf Hap Hva. unfold walk. rewrite (proj2 (Z.leb_gt MAXVA va)) by done.
  change (walk_level 2 root va true) with
    (let pte := root + 8 * PX 2 va in
     let! v := ld64 pte in
     if has v PTE_V then walk_level 1 (PTE2PA v) va true
     else if negb true then ret 0
     else
       let! pagetable := kalloc in
       if pagetable =? 0 then ret 0
       else
         upd_mem (fun m => memset m pagetable 0 PGSIZE) ;;;
         st64 pte (PA2PTE pagetable) ;;;
         (let! v := ld64 pte in st64 pte (Z.lor v PTE_V)) ;;;
         walk_level 1 pagetable va true).
  cbv zeta.
  pose proof (wf_mid _ _ _ Hwf (PX 2 va) (PX_bounds 2 va ltac:(lia))) as Hm.
  pose proof (wf_root _ _ _ Hwf) as Hroot.
  unfold entry_ok in Hm. do 2 wp_step.
  destruct (t (TMid (PX 2 va))) as [pm|] eqn:Hmid.
  - rewrite Hm, has_V_lor. pose proof (wf_page _ _ _ Hwf _ _ Hmid) as Hqg.
    pose proof (page_ok_pos _ Hqg) as Hqp. rewrite PTE2PA_PA2PTE; [|lia|apply Hqg|done].
    by apply walk_level1_alloc.
  - rewrite Hm. cbn [negb]. wp_step. destruct ps as [|p ps].
    + eapply wp_of_eq; [by apply kalloc_spec_nil|]. cbn. wp_step.
      exists [], t. repeat (split; [by auto using pt_ext_refl|]). by left.
    + destruct (install_table s p ps root (PX 2 va))
        as (s1 & Hk & Hp0 & Hpg & Hpps & Hm1 & Hinv' & Hz & Hfr);
        [done|by apply (wf_page _ _ _ Hwf _ _ Hroot)|by apply (Hap _ _ Hroot)|by apply PX_bounds|].
      eapply wp_of_eq; [exact Hk|]. rewrite (proj2 (Z.eqb_neq p 0)) by done.
      repeat wp_step. cbn [km_mem free_mem_list]. rewrite Hm1, set_table_fold.
      assert (pt_wf (set_table (memset (km_mem s) p 0 PGSIZE) (root + 8 * PX 2 va) p) root
        (tset t (TMid (PX 2 va)) p)) as Hwf'.
      { apply (install_mid_wf (km_mem s) _ root t root (PX 2 va) p); try done; [by apply PX_bounds| |].
        - intros a q Hq ->. apply (Hap _ _ Hq). by left.
        - apply rd64_set_table. }
      set (s3 := KMem _ _).
      eapply wp_mono.
      * eapply (walk_level1_alloc s3 ps root (tset t (TMid (PX 2 va)) p));
          [exact Hinv'|exact Hwf'|by apply pt_apart_tset|apply tset_same].
      * intros a s'. apply walk_post_trans.
        eapply (install_ext va _ _ root _ TRoot root _ (PX 2 va)); try done; [by left|].
        by apply PX_bounds.
Qed.
(* ------------------------------------------------------------------ *)
(** ** mappages *)

(** [pt_ext] without the values of the entries. *)
Record pt_grow (P : Z -> Prop) (m : mem) (ps : list Z) (t : ptree)
    (m' : mem) (ps' : list Z) (t' : ptree) : Prop := {
  grow_sub : forall sl p, t sl = Some p -> t' sl = Some p;
  grow_new : forall sl p, t' sl = Some p -> t sl = Some p \/ p ∈ ps;
  grow_free : exists used, ps = used ++ ps';
  grow_used : forall p, p ∈ ps -> p ∈ ps' \/ exists sl, t' sl = Some p;
  grow_grown : grown P t t';
  grow_frame : forall x, (forall sl p, t' sl = Some p -> ~ (p <= x < p + PGSIZE)) ->
                rd8 m' x = rd8 m x;
}.

Lemma pt_ext_grow P m ps t m' ps' t' :
  pt_ext P m ps t m' ps' t' -> pt_grow P m ps t m' ps' t'.
Proof. by intros []. Qed.

Lemma pt_grow_mono (P Q : Z -> Prop) m ps t m' ps' t' :
  (forall va, P va -> Q va) -> pt_grow P m ps t m' ps' t' -> pt_grow Q m ps t m' ps' t'.
Proof. intros HPQ []. split; try done. by apply grown_mono with P. Qed.

Lemma pt_grow_trans P m ps t m1 ps1 t1 m2 ps2 t2 :
  pt_grow P m ps t m1 ps1 t1 -> pt_grow P m1 ps1 t1 m2 ps2 t2 -> pt_grow P m ps t m2 ps2 t2.
Proof.
  intros [S1 N1 (u1 & F1) U1 G1 R1] [S2 N2 (u2 & F2) U2 G2 R2]. split.
  - auto.
  - intros sl p Hp. apply N2 in Hp as [Hp|Hp]; [by apply N1|].
    right. rewrite F1. apply elem_of_app. by right.
  - exists (u1 ++ u2). by rewrite F1, F2, app_assoc.
  - intros p Hp. apply U1 in Hp as [Hp|(sl & Hp)]; [by apply U2|]. right. eauto.
  - by apply grown_trans with t1.
  - intros x Hx. rewrite R2, R1; [done| |done].
    intros sl p Hp. apply S2 in Hp. by eapply Hx.
Qed.

Lemma pte_addr_inv t va a :
  pte_addr t va = Some a ->
  exists q, t (TLeaf (PX 2 va) (PX 1 va)) = Some q /\ a = q + 8 * PX 0 va.
Proof.
  unfold pte_addr. destruct (t _) as [q|]; [|done]. intros [= <-]. by exists q.
Qed.

Lemma PX_page va : 0 <= va < MAXVA ->
  va / 4096 = PX 2 va * 262144 + PX 1 va * 512 + PX 0 va.
Proof.
  intros [Hlo Hhi]. unfold MAXVA in Hhi. rewrite Z.shiftl_mul_pow2 in Hhi by lia.
  rewrite !PX_eq by lia. cbn in Hhi |- *. dlia.
Qed.

(** Distinct pages below [MAXVA] have distinct entries. *)
Lemma pte_addr_inj m root t va va' a :
  pt_wf m root t -> 0 <= va < MAXVA -> 0 <= va' < MAXVA ->
  pte_addr t va = Some a -> pte_addr t va' = Some a -> va / 4096 = va' / 4096.
Proof.
  intros Hwf Hva Hva' (q & Hq & ->)%pte_addr_inv (q' & Hq' & Heq)%pte_addr_inv.
  pose proof (PX_bounds 0 va ltac:(lia)). pose proof (PX_bounds 0 va' ltac:(lia)).
  rewrite !PX_page by done.
  destruct (decide (TLeaf (PX 2 va) (PX 1 va) = TLeaf (PX 2 va') (PX 1 va'))) as [He|Hne].
  - injection He as E2 E1. rewrite E2, E1 in Hq. rewrite Hq in Hq'. injection Hq' as <-. lia.
  - pose proof (pt_pages_disjoint _ _ _ _ _ _ _ Hwf Hq Hq' Hne). unfold PGSIZE in *. lia.
Qed.

Lemma pte_addr_page t va va' :
  0 <= va < MAXVA -> 0 <= va' < MAXVA -> va / 4096 = va' / 4096 ->
  pte_addr t va = pte_addr t va'.
Proof.
  intros Hva Hva' Heq. rewrite (PX_page va), (PX_page va') in Heq by done.
  pose proof (PX_bounds 0 va ltac:(lia)). pose proof (PX_bounds 0 va' ltac:(lia)).
  pose proof (PX_bounds 1 va ltac:(lia)). pose proof (PX_bounds 1 va' ltac:(lia)).
  unfold pte_addr. replace (PX 2 va') with (PX 2 va) by lia.
  replace (PX 1 va') with (PX 1 va) by lia. by replace (PX 0 va') with (PX 0 va) by lia.
Qed.

(** Writing a level-0 entry: the tables stay well formed, the free list is not
    touched, and only the entries of that page change. *)
Lemma set_pte s root t ps va a v :
  kmem_inv s ps -> pt_wf (km_mem s) root t -> pt_apart t ps ->
  0 <= va < MAXVA -> pte_addr t va = Some a -> 0 <= v < 2 ^ 64 ->
  let s' := KMem (wr64 (km_mem s) a v) (free_mem_list s) in
  kmem_inv s' ps /\ pt_wf (km_mem s') root t /\
  (forall va', 0 <= va' < MAXVA -> pte_at (km_mem s') t va' =
     if decide (va' / 4096 = va / 4096) then v else pte_at (km_mem s) t va') /\
  (forall x, (forall sl p, t sl = Some p -> ~ (p <= x < p + PGSIZE)) ->
     rd8 (km_mem s') x = rd8 (km_mem s) x).
Proof.
  intros Hinv Hwf Hap Hva Ha Hv. cbn zeta. cbn [km_mem].
  pose proof Ha as (q & Hq & Haq)%pte_addr_inv. pose proof (PX_bounds 0 va ltac:(lia)).
  assert (forall sl p k, t sl = Some p -> sl <> TLeaf (PX 2 va) (PX 1 va) -> idx k ->
    rd64 (wr64 (km_mem s) a v) (p + 8 * k) = rd64 (km_mem s) (p + 8 * k)) as Hkeep.
  { intros sl p k Hp Hne Hk. rewrite rd64_wr64_ne; [done|].
    pose proof (pt_pages_disjoint _ _ _ _ _ _ _ Hwf Hp Hq Hne). unfold idx, PGSIZE in *. lia. }
  refine (conj _ (conj _ (conj _ _))).
  - apply kmem_inv_frame; [done|]. intros p x Hp Hx. apply rd8_wr64_ne.
    pose proof (wf_page _ _ _ Hwf _ _ Hq) as (Hqal & _).
    pose proof (proj1 (Forall_forall _ _) (inv_pages _ _ Hinv) p Hp) as (Hpal & _).
    assert (q <> p) as Hqp by (intros ->; by apply (Hap _ _ Hq)).
    pose proof (page_disjoint q p Hqal Hpal Hqp). unfold PGSIZE in *. lia.
  - destruct Hwf as [W1 W2 W3 W4 W5 W6 W7 W8]. split; try done.
    + intros i2 Hi2. eapply entry_ok_frame; [|by apply W4]. by eapply (Hkeep TRoot).
    + intros i2 i1 p Hi1 Hp. eapply entry_ok_frame; [|by apply W5]. by eapply (Hkeep (TMid i2)).
  - intros va' Hva'. case_decide as Hd.
    + unfold pte_at. rewrite (pte_addr_page t va' va), Ha by done.
      rewrite rd64_wr64_eq. by apply u64_id.
    + unfold pte_at. destruct (pte_addr t va') as [a'|] eqn:Ha'; [|done].
      pose proof Ha' as (q' & Hq' & Haq')%pte_addr_inv. pose proof (PX_bounds 0 va' ltac:(lia)).
      rewrite rd64_wr64_ne; [done|].
      destruct (decide (TLeaf (PX 2 va') (PX 1 va') = TLeaf (PX 2 va) (PX 1 va))) as [He|Hne].
      * rewrite He, Hq in Hq'. injection Hq' as <-.
        assert (PX 0 va <> PX 0 va'); [|lia]. intros E0.
        apply Hd. injection He as E2 E1. rewrite !PX_page by done. lia.
      * pose proof (pt_pages_disjoint _ _ _ _ _ _ _ Hwf Hq' Hq Hne). unfold PGSIZE in *. lia.
  - intros x Hx. apply rd8_wr64_ne. specialize (Hx _ _ Hq). unfold PGSIZE in *. lia.
Qed.
(** The entry [mappages] writes for a page at physical address [pa]. *)
Definition leaf_pte (pa perm : Z) : Z := Z.lor (PA2PTE pa) (Z.lor perm PTE_V).

Lemma leaf_pte_bounds pa perm : 0 <= perm < 1024 -> 0 <= leaf_pte pa perm < 2 ^ 64.
Proof.
  intros. apply lor_range; [lia|apply PA2PTE_bounds|]. apply lor_range; [lia|lia|].
  unfold PTE_V. rewrite Z.shiftl_0_r. lia.
Qed.

Definition map_post (m : mem) (ps : list Z) (t : ptree) (root lo hi pa perm r : Z)
    (s' : kmem) : Prop :=
  exists ps' t', kmem_inv s' ps' /\ pt_wf (km_mem s') root t' /\ pt_apart t' ps' /\
    pt_grow (fun v => lo <= v < hi) m ps t (km_mem s') ps' t' /\
    (forall va', 0 <= va' < MAXVA -> ~ (lo <= va' < hi) ->
       pte_at (km_mem s') t' va' = pte_at m t va') /\
    ((r = -1 /\ ps' = []) \/
     (r = 0 /\ forall va', 0 <= va' < MAXVA -> pte_at (km_mem s') t' va' =
        if decide (lo <= va' < hi) then leaf_pte (pa + (va' / 4096 * 4096 - lo)) perm
        else pte_at m t va')).

(** One round maps one page. *)
Lemma mappages_round s ps root t a pa last perm :
  kmem_inv s ps -> pt_wf (km_mem s) root t -> pt_apart t ps ->
  a mod 4096 = 0 -> 0 <= a < MAXVA -> 0 <= perm < 1024 ->
  has (pte_at (km_mem s) t a) PTE_V = false ->
  wp (mappages_body root last perm (a, pa))
    (fun r s' => match r with
       | inr v => map_post (km_mem s) ps t root a (a + 4096) pa perm v s' /\
           (v = 0 -> a = last)
       | inl (a', pa') => map_post (km_mem s) ps t root a (a + 4096) pa perm 0 s' /\
           a <> last /\ a' = u64 (a + PGSIZE) /\ pa' = u64 (pa + PGSIZE)
       end) s.
Proof.
  intros Hinv Hwf Hap Hal Ha Hperm Hnv. unfold mappages_body. wp_step.
  eapply wp_mono; [apply walk_alloc; [exact Hinv|exact Hwf|exact Hap|lia]|].
  intros pte s1 (ps1 & t1 & Hinv1 & Hwf1 & Hap1 & Hext & Hres).
  assert (pt_grow (fun v => a <= v < a + 4096) (km_mem s) ps t (km_mem s1) ps1 t1) as Hgr.
  { apply (pt_grow_mono (eq a)); [intros v <-; lia|]. by apply pt_ext_grow. }
  destruct Hres as [[-> ->]|[Hpte Hne]].
  { rewrite Z.eqb_refl. wp_step. split; [|done]. exists [], t1.
    refine (conj Hinv1 (conj Hwf1 (conj Hap1 (conj Hgr (conj _ (or_introl (conj eq_refl eq_refl))))))).
    intros va' _ _. apply (ext_pte _ _ _ _ _ _ _ Hext). }
  rewrite (proj2 (Z.eqb_neq pte 0)) by done. do 2 wp_step.
  assert (rd64 (km_mem s1) pte = pte_at (km_mem s) t a) as ->.
  { rewrite <- (ext_pte _ _ _ _ _ _ _ Hext). unfold pte_at at 1. by rewrite Hpte. }
  rewrite Hnv. do 2 wp_step.
  destruct (set_pte s1 root t1 ps1 a pte (leaf_pte pa perm) Hinv1 Hwf1 Hap1 Ha Hpte
     (leaf_pte_bounds _ _ Hperm)) as (Hinv2 & Hwf2 & Hpt2 & Hfr2).
  assert (map_post (km_mem s) ps t root a (a + 4096) pa perm 0
     (KMem (wr64 (km_mem s1) pte (leaf_pte pa perm)) (free_mem_list s1))) as Hpost.
  { exists ps1, t1. refine (conj Hinv2 (conj Hwf2 (conj Hap1 (conj _ (conj _ (or_intror (conj eq_refl _))))))).
    - destruct Hgr as [G1 G2 G3 G4 G5 G6]. split; try done.
      intros x Hx. rewrite Hfr2 by done. by apply G6.
    - intros va' Hva' Hout. rewrite Hpt2, (ext_pte _ _ _ _ _ _ _ Hext) by done.
      rewrite decide_False by dlia. done.
    - intros va' Hva'. rewrite Hpt2 by done. rewrite (ext_pte _ _ _ _ _ _ _ Hext).
      repeat case_decide; first [done | dlia | f_equal; dlia]. }
  wp_step; zbool; wp_step; [by split|]. by repeat split.
Qed.

(** [mappages] maps every page of the range, or fails with the free list
    exhausted; nothing else changes its translation. *)
Lemma mappages_wp s ps root t va size pa perm :
  let lo := va - va mod 4096 in
  let hi := va + size - 1 - (va + size - 1) mod 4096 + 4096 in
  kmem_inv s ps -> pt_wf (km_mem s) root t -> pt_apart t ps ->
  0 <= va -> 0 < size -> va + size <= MAXVA -> 0 <= pa -> pa + size + 4096 < 2 ^ 64 ->
  0 <= perm < 1024 ->
  (forall a, lo <= a < hi -> has (pte_at (km_mem s) t a) PTE_V = false) ->
  wp (mappages root pa va size perm)
     (fun r s' => map_post (km_mem s) ps t root lo hi pa perm r s') s.
Proof.
  intros lo hi Hinv Hwf Hap Hva Hsz Hmax Hpa Hpas Hperm Hfree.
  assert (MAXVA = 2 ^ 38) as HM by done.
  unfold mappages. rewrite (proj2 (Z.eqb_neq size 0)) by lia.
  rewrite (PGROUNDDOWN_eq va) by lia. fold lo.
  rewrite (u64_id (va + size - 1)) by lia. rewrite PGROUNDDOWN_eq by lia.
  set (last := va + size - 1 - (va + size - 1) mod 4096) in *.
  assert (last = hi - 4096) as Hlast by (unfold hi; lia).
  assert (lo mod 4096 = 0 /\ last mod 4096 = 0 /\ lo <= last /\ last < MAXVA /\ 0 <= lo) as
    (Hlo0 & Hla0 & Hle & HlM & Hlo) by (unfold last, lo; dlia).
  assert (last - lo <= size - 1 + 4095) as Hspan by (unfold last, lo; dlia).
  rewrite (u64_id (last - lo)) by lia. unfold PGSIZE at 1.
  clearbody last hi. cbn zeta.
  apply (wp_loop _ _ (fun n '(a, pa') s1 => exists k, 0 <= k /\ a = lo + 4096 * k /\
     a <= last /\ n = Z.to_nat ((last - a) / 4096) /\ pa' = pa + 4096 * k /\
     map_post (km_mem s) ps t root lo a pa perm 0 s1) _ (Z.to_nat ((last - lo) / 4096))).
  - intros n [a pa'] s1 (k & Hk & Hak & Hal & Hn & Hpa' & (ps1 & t1 & I1 & W1 & A1 & G1 & O1 & [[? ?]|[_ P1]])); [lia|].
    eapply wp_mono.
    + apply (mappages_round s1 ps1 root t1); try done; [subst; dlia|lia|].
      rewrite P1 by lia. rewrite decide_False by lia. apply Hfree. lia.
    + assert (forall s2 v, map_post (km_mem s1) ps1 t1 root a (a + 4096) pa' perm v s2 ->
         map_post (km_mem s) ps t root lo (a + 4096) pa perm v s2) as Hcomp.
      { intros s2 v (ps2 & t2 & I2 & W2 & A2 & G2 & O2 & R2). exists ps2, t2.
        apply (pt_grow_mono _ (fun v => lo <= v < a + 4096)) in G1; [|lia].
        apply (pt_grow_mono _ (fun v => lo <= v < a + 4096)) in G2; [|lia].
        refine (conj I2 (conj W2 (conj A2 (conj (pt_grow_trans _ _ _ _ _ _ _ _ _ _ G1 G2) (conj _ _))))).
        { intros va' Hva' Hout. rewrite O2, O1 by lia. done. }
        destruct R2 as [R2|[-> P2]]; [by left|]. right. split; [done|].
        intros va' Hva'. rewrite P2, P1 by done. repeat case_decide;
          first [done | lia | f_equal; subst; dlia]. }
      intros [[a' pa'']|v] s2.
      * intros (Hp & Hne & -> & ->). unfold PGSIZE.
        assert (a + 4096 <= last) as Hal' by (clear -Hne Hal Hak Hlo0 Hla0; subst; dlia).
        rewrite !u64_id by lia.
        exists (Z.to_nat ((last - (a + 4096)) / 4096)). split; [subst; dlia|].
        exists (k + 1). refine (conj _ (conj _ (conj _ (conj eq_refl (conj _ _)))));
          [lia|lia|lia|lia|by apply Hcomp].
      * intros [Hp Hv]. apply Hcomp in Hp.
        destruct (decide (v = 0)) as [->|Hv0].
        { rewrite (Hv eq_refl) in Hp. by replace hi with (last + 4096) by lia. }
        destruct Hp as (ps2 & t2 & I2 & W2 & A2 & G2 & O2 & [R2|[? _]]); [|done].
        exists ps2, t2. apply (pt_grow_mono _ (fun v => lo <= v < hi)) in G2; [|lia].
        refine (conj I2 (conj W2 (conj A2 (conj G2 (conj _ (or_introl R2)))))).
        intros va' Hva' Hout. apply O2; [done|lia].
  - exists 0. refine (conj _ (conj _ (conj _ (conj eq_refl (conj _ _))))); [lia..|].
    exists ps, t. refine (conj Hinv (conj Hwf (conj Hap (conj _ (conj _ (or_intror (conj eq_refl _))))))).
    + apply pt_ext_grow, pt_ext_refl.
    + done.
    + intros va' _. by rewrite decide_False by lia.
  - lia.
Qed.
(* ------------------------------------------------------------------ *)
(** ** User addresses *)

(** The user may access [va]; the physical address it translates to. *)
Definition uaccess (m : mem) (t : ptree) (va : Z) : bool :=
  has (pte_at m t va) PTE_V && has (pte_at m t va) PTE_U.
Definition upa (m : mem) (t : ptree) (va : Z) : Z :=
  PTE2PA (pte_at m t va) + va mod 4096.

Lemma PTE2PA_aligned pte : PTE2PA pte mod 4096 = 0.
Proof.
  unfold PTE2PA. rewrite Z.shiftl_mul_pow2 by lia. unfold u64.
  generalize (Z.shiftr pte 10). intros x. change (2 ^ 12) with 4096. dlia.
Qed.

(** The pages of [dst, dst + len) are the user's: their frames are distinct and
    hold no table page. *)
Record user_range (m : mem) (t : ptree) (dst len : Z) : Prop := {
  ur_acc : forall a, dst <= a < dst + len -> uaccess m t a = true;
  ur_apart : forall a sl p, dst <= a < dst + len -> t sl = Some p ->
               PTE2PA (pte_at m t a) <> p;
  ur_inj : forall a b, dst <= a < dst + len -> dst <= b < dst + len ->
             PTE2PA (pte_at m t a) = PTE2PA (pte_at m t b) -> a / 4096 = b / 4096;
}.

Lemma pte_at_page m t va va' :
  0 <= va < MAXVA -> 0 <= va' < MAXVA -> va / 4096 = va' / 4096 ->
  pte_at m t va = pte_at m t va'.
Proof. intros. unfold pte_at. by rewrite (pte_addr_page t va va'). Qed.

Lemma upa_inj m t dst len a b :
  user_range m t dst len -> 0 <= dst -> dst + len <= MAXVA ->
  dst <= a < dst + len -> dst <= b < dst + len -> upa m t a = upa m t b -> a = b.
Proof.
  intros Hu Hlo Hhi Ha Hb Heq. unfold upa in Heq.
  pose proof (PTE2PA_aligned (pte_at m t a)). pose proof (PTE2PA_aligned (pte_at m t b)).
  assert (PTE2PA (pte_at m t a) = PTE2PA (pte_at m t b)) as Hp by dlia.
  pose proof (ur_inj _ _ _ _ Hu a b Ha Hb Hp). dlia.
Qed.

Lemma upa_add m t a k :
  0 <= a -> a mod 4096 + k < 4096 -> 0 <= k -> a + k < MAXVA ->
  upa m t (a + k) = upa m t a + k.
Proof.
  intros Ha Hk Hk0 HM. unfold upa. rewrite (pte_at_page m t (a + k) a) by dlia.
  replace ((a + k) mod 4096) with (a mod 4096 + k) by dlia. lia.
Qed.

(** The state of a copy after [j] bytes. *)
Definition copied (m : mem) (t : ptree) (dst : Z) (src : list Z) (j : nat) (m' : mem) : Prop :=
  (forall i b, (i < j)%nat -> src !! i = Some b ->
     rd8 m' (upa m t (dst + Z.of_nat i)) = u8 b) /\
  (forall x, (forall i, (i < j)%nat -> x <> upa m t (dst + Z.of_nat i)) -> rd8 m' x = rd8 m x).

Lemma copied_tables m t dst src j m' root :
  pt_wf m root t -> user_range m t dst (Z.of_nat (length src)) -> (j <= length src)%nat ->
  copied m t dst src j m' ->
  pt_wf m' root t /\ forall va, pte_at m' t va = pte_at m t va.
Proof.
  intros Hwf Hu Hj [_ Hfr].
  assert (forall sl p, t sl = Some p -> forall x, p <= x < p + PGSIZE -> rd8 m' x = rd8 m x) as Hpg.
  { intros sl p Hp x Hx. apply Hfr. intros i Hi ->.
    pose proof (wf_page _ _ _ Hwf _ _ Hp) as (Hal & _).
    apply (ur_apart _ _ _ _ Hu (dst + Z.of_nat i) sl p); [lia|done|].
    unfold upa in Hx. pose proof (PTE2PA_aligned (pte_at m t (dst + Z.of_nat i))).
    unfold PGSIZE in *. dlia. }
  split; [by eapply pt_wf_frame|]. intros va. unfold pte_at.
  destruct (pte_addr t va) as [a|] eqn:Ha; [|done].
  apply pte_addr_inv in Ha as (q & Hq & ->). pose proof (PX_bounds 0 va ltac:(lia)).
  apply rd64_ext. intros x Hx. eapply Hpg; [exact Hq|]. unfold PGSIZE. lia.
Qed.

(** Copying one page's worth of bytes. *)
Lemma copied_step m t dst src j m' n :
  user_range m t dst (Z.of_nat (length src)) -> 0 <= dst ->
  dst + Z.of_nat (length src) <= MAXVA -> copied m t dst src j m' ->
  (0 < n)%nat -> (j + n <= length src)%nat ->
  (dst + Z.of_nat j) mod 4096 + Z.of_nat n <= 4096 ->
  copied m t dst src (j + n)
    (store_bytes m' (upa m t (dst + Z.of_nat j)) (take n (drop j src))).
Proof.
  intros Hu Hlo Hhi [Hd Hfr] Hn Hjn Hpg.
  assert (length (take n (drop j src)) = n) as Hlen
    by (rewrite length_take, length_drop; lia).
  assert (forall k, (k < n)%nat -> upa m t (dst + Z.of_nat (j + k)) =
     upa m t (dst + Z.of_nat j) + Z.of_nat k) as Hup.
  { intros k Hk. replace (dst + Z.of_nat (j + k)) with (dst + Z.of_nat j + Z.of_nat k) by lia.
    apply upa_add; lia. }
  split.
  - intros i b Hi Hb. rewrite rd8_store_bytes, Hlen. case_decide as Hin.
    + assert (exists k, (k < n)%nat /\ upa m t (dst + Z.of_nat i) =
        upa m t (dst + Z.of_nat (j + k))) as (k & Hk & Hik).
      { exists (Z.to_nat (upa m t (dst + Z.of_nat i) - upa m t (dst + Z.of_nat j))).
        split; [lia|]. rewrite Hup by lia. lia. }
      apply (upa_inj m t dst (Z.of_nat (length src))) in Hik; [|done|lia..].
      assert (i = j + k)%nat as -> by lia. rewrite Hup by done.
      replace (Z.to_nat _) with k by lia. rewrite lookup_take_lt by done.
      rewrite lookup_drop, Hb. done.
    + destruct (decide (i < j)%nat); [by apply Hd|]. destruct Hin.
      replace i with (j + (i - j))%nat by lia. rewrite Hup by lia. lia.
  - intros x Hx. rewrite rd8_store_bytes, Hlen. case_decide as Hin.
    + destruct (Hx (j + Z.to_nat (x - upa m t (dst + Z.of_nat j)))%nat); [lia|].
      rewrite Hup by lia. lia.
    + apply Hfr. intros i Hi. apply Hx. lia.
Qed.

(** One round of [copyout] on an accessible page. *)
Lemma copyout_round root t s dst src b bs :
  pt_wf (km_mem s) root t -> 0 <= dst -> dst < MAXVA -> src = b :: bs ->
  let n := Z.to_nat (Z.min (PGSIZE - dst mod 4096) (Z.of_nat (length src))) in
  copyout_body root (dst, src) s =
    if uaccess (km_mem s) t dst then
      Ok (inl (u64 (dst + Z.of_nat n), drop n src))
         (KMem (store_bytes (km_mem s) (upa (km_mem s) t dst) (take n src)) (free_mem_list s))
    else Ok (inr (-1)) s.
Proof.
  intros Hwf Hlo Hhi Hsrc n. assert (MAXVA = 2 ^ 38) as HM by done.
  assert (0 < Z.of_nat (length src)) as Hlen by (subst; cbn; lia).
  unfold copyout_body. rewrite (proj2 (Z.leb_gt _ 0)) by done.
  rewrite PGROUNDDOWN_eq by lia.
  rewrite (bind_ok _ _ s (default 0 (pte_addr t (dst - dst mod 4096))) s)
    by (apply walk_noalloc; [done|dlia]).
  assert (pte_addr t (dst - dst mod 4096) = pte_addr t dst) as ->
    by (apply pte_addr_page; dlia).
  unfold uaccess, upa, pte_at. destruct (pte_addr t dst) as [a|] eqn:Ha; cbn [default].
  2: { done. }
  assert (a <> 0) as Ha0.
  { apply pte_addr_inv in Ha as (q & Hq & ->). pose proof (PX_bounds 0 dst ltac:(lia)).
    apply (wf_page _ _ _ Hwf), page_ok_pos in Hq. lia. }
  change (id a) with a. rewrite (proj2 (Z.eqb_neq a 0)) by done.
  unfold bind, ld64, gets, upd_mem, modify, ret.
  destruct (has (rd64 (km_mem s) a) PTE_V) eqn:HV; [|done].
  destruct (has (rd64 (km_mem s) a) PTE_U) eqn:HU; [|done]. cbn [negb orb andb].
  replace (dst - (dst - dst mod 4096)) with (dst mod 4096) by lia.
  assert ((if Z.of_nat (length src) <? PGSIZE - dst mod 4096 then Z.of_nat (length src)
     else PGSIZE - dst mod 4096) = Z.of_nat n) as ->.
  { unfold n, PGSIZE. destruct (Z.ltb_spec (Z.of_nat (length src)) (4096 - dst mod 4096)); dlia. }
  rewrite Nat2Z.id, u64_id; [done|unfold n, PGSIZE; dlia].
Qed.

(** [copyout] copies every byte to its translation when the whole range is the
    user's, and fails as soon as a page is not. *)
Lemma copyout_wp root t s ps dst src :
  kmem_inv s ps -> pt_wf (km_mem s) root t ->
  0 <= dst -> dst + Z.of_nat (length src) <= MAXVA ->
  user_range (km_mem s) t dst (Z.of_nat (length src)) ->
  wp (copyout root dst src)
    (fun r s' => r = 0 /\ free_mem_list s' = free_mem_list s /\
       copied (km_mem s) t dst src (length src) (km_mem s')) s.
Proof.
  intros Hinv Hwf Hlo Hhi Hu. unfold copyout.
  apply (wp_loop _ _ (fun k '(d, bs) s1 => exists j, (j <= length src)%nat /\
     k = (length src - j)%nat /\ d = dst + Z.of_nat j /\ bs = drop j src /\
     free_mem_list s1 = free_mem_list s /\
     copied (km_mem s) t dst src j (km_mem s1)) _ (length src)).
  2: { exists 0%nat. refine (conj _ (conj _ (conj _ (conj eq_refl (conj eq_refl _))))); [lia..|].
       split; [lia|done]. }
  2: { lia. }
  intros k [d bs] s1 (j & Hj & -> & -> & Hbs & Hfl & Hc).
  destruct bs as [|b bs'].
  - apply (wp_of_eq _ _ s1 (inr 0) s1); [done|]. split; [done|]. split; [done|].
    assert (j = length src) as <-; [|done].
    apply (f_equal length) in Hbs. cbn in Hbs. rewrite length_drop in Hbs. lia.
  - assert (j < length src)%nat as Hlt.
    { apply (f_equal length) in Hbs. cbn in Hbs. rewrite length_drop in Hbs. lia. }
    destruct (copied_tables _ _ _ _ _ _ _ Hwf Hu Hj Hc) as [Hwf1 Hpt].
    assert (forall va, uaccess (km_mem s1) t va = uaccess (km_mem s) t va) as Hacc
      by (intros; unfold uaccess; by rewrite Hpt).
    assert (forall va, upa (km_mem s1) t va = upa (km_mem s) t va) as Hupa
      by (intros; unfold upa; by rewrite Hpt).
    pose proof (copyout_round root t s1 (dst + Z.of_nat j) _ b bs' Hwf1
      ltac:(lia) ltac:(lia) eq_refl) as Hround. cbn zeta in Hround.
    set (n := Z.to_nat _) in Hround.
    rewrite Hacc, Hupa in Hround. rewrite (ur_acc _ _ _ _ Hu) in Hround by lia.
    rewrite Hbs in *.
    assert ((0 < n)%nat /\ (j + n <= length src)%nat /\
      (dst + Z.of_nat j) mod 4096 + Z.of_nat n <= 4096) as (Hn0 & Hn1 & Hn2).
    { unfold n. rewrite Hbs, length_drop. unfold PGSIZE. dlia. }
    eapply wp_of_eq; [exact Hround|]. cbn beta.
    exists (length src - (j + n))%nat. split; [lia|].
    exists (j + n)%nat. rewrite drop_drop.
    refine (conj _ (conj eq_refl (conj _ (conj eq_refl (conj Hfl _))))); [lia| |].
    + rewrite u64_id; [lia|]. assert (MAXVA = 2 ^ 38) by done. lia.
    + by apply copied_step.
Qed.

Lemma copyout_denied root t s dst b bs :
  pt_wf (km_mem s) root t -> 0 <= dst < MAXVA -> uaccess (km_mem s) t dst = false ->
  copyout root dst (b :: bs) s = Ok (-1) s.
Proof.
  intros Hwf [Hlo Hhi] Hno. unfold copyout. rewrite Nat.add_1_r.
  change (bind (copyout_body root (dst, b :: bs))
    (fun r => match r with
              | inl x => loop (length (b :: bs)) (copyout_body root) x
              | inr v => ret v end) s = Ok (-1) s).
  rewrite (bind_ok _ _ s (inr (-1)) s); [done|].
  rewrite (copyout_round root t s dst _ b bs) by done. by rewrite Hno.
Qed.

(** A user buffer at or above [MAXVA] reaches the [panic] of [walk]. *)
Lemma copyout_high_panics root s dst b bs :
  MAXVA <= dst < 2 ^ 64 ->
  copyout root dst (b :: bs) s = Stop (Panic "walk: virtual address out of range").
Proof.
  intros Hd. assert (MAXVA = 2 ^ 38) as HM by done. unfold copyout. rewrite Nat.add_1_r.
  change (bind (copyout_body root (dst, b :: bs))
    (fun r => match r with
              | inl x => loop (length (b :: bs)) (copyout_body root) x
              | inr v => ret v end) s = Stop (Panic "walk: virtual address out of range")).
  apply bind_stop. unfold copyout_body. rewrite (proj2 (Z.leb_gt _ 0)) by (cbn; lia).
  apply bind_stop. unfold walk. rewrite PGROUNDDOWN_eq by lia.
  rewrite (proj2 (Z.leb_le MAXVA _)); [done|]. rewrite HM in *. dlia.
Qed.

(** [walkaddr] is the translation, or 0 where the user has no access. *)
Lemma walkaddr_spec root t s va :
  pt_wf (km_mem s) root t -> 0 <= va < MAXVA ->
  walkaddr root va s =
    Ok (if uaccess (km_mem s) t va then Z.lor (PTE2PA (pte_at (km_mem s) t va)) (va mod 4096)
        else 0) s.
Proof.
  intros Hwf Hva. unfold walkaddr.
  rewrite (bind_ok _ _ s (default 0 (pte_addr t va)) s) by (apply walk_noalloc; [done|lia]).
  unfold uaccess, pte_at. destruct (pte_addr t va) as [a|] eqn:Ha; cbn [default]; [|done].
  assert (a <> 0) as Ha0.
  { apply pte_addr_inv in Ha as (q & Hq & ->). pose proof (PX_bounds 0 va ltac:(lia)).
    apply (wf_page _ _ _ Hwf), page_ok_pos in Hq. lia. }
  change (id a) with a. rewrite (proj2 (Z.eqb_neq a 0)) by done.
  unfold bind, ld64, gets, ret. unfold PGSIZE. change (4096 - 1) with (Z.ones 12).
  rewrite Z.land_ones by lia.
  by destruct (has (rd64 (km_mem s) a) PTE_V), (has (rd64 (km_mem s) a) PTE_U).
Qed.
End spec.
