(* ===== verification/VmKernel.v ===== *)
(** Properties of [kernel/mm/vm.c]: [mappages], the kernel page table of
    [kvmininit], and the copies to user space. *)

From S2P Require Import Prelude Memory Kalloc Vm VmSpec.

Section kernel.
Context `{Image} `{!ImageOk}.

(** The entry the code's own [walk] finds for [va], [0] when there is none. *)
Definition pte_of (s : kmem) (root va : Z) : Z :=
  match walk root va false s with
  | Ok a _ => if a =? 0 then 0 else rd64 (km_mem s) a
  | _ => 0
  end.

Lemma pte_addr_pos m root t va a : pt_wf m root t -> pte_addr t va = Some a -> a <> 0.
Proof.
  intros Hwf Ha. apply pte_addr_inv in Ha as (q & Hq & ->).
  pose proof (page_ok_pos _ (wf_page _ _ _ Hwf _ _ Hq)). pose proof (PX_bounds 0 va ltac:(lia)). lia.
Qed.

Lemma pte_of_at s root t va :
  pt_wf (km_mem s) root t -> va < MAXVA -> pte_of s root va = pte_at (km_mem s) t va.
Proof.
  intros Hwf Hva. unfold pte_of, pte_at. rewrite (walk_noalloc s root t va Hwf Hva).
  destruct (pte_addr t va) as [a|] eqn:Ha; [|done]. change (default 0 (Some a)) with a.
  by rewrite (proj2 (Z.eqb_neq a 0) (pte_addr_pos _ _ _ _ _ Hwf Ha)).
Qed.

(* ------------------------------------------------------------------ *)
(** ** A new table *)

Definition tnew (root : Z) : ptree := fun sl => if decide (sl = TRoot) then Some root else None.

Lemma tnew_inv root sl p : tnew root sl = Some p -> sl = TRoot /\ p = root.
Proof. unfold tnew. case_decide; [|done]. by intros [= <-]. Qed.
Lemma tnew_none root sl : sl <> TRoot -> tnew root sl = None.
Proof. intros. unfold tnew. by rewrite decide_False by done. Qed.

Lemma zero_word m p i :
  (forall x, p <= x < p + PGSIZE -> rd8 m x = 0) -> idx i -> rd64 m (p + 8 * i) = 0.
Proof. intros Hz Hi. apply (entry_ok_zero m _ p Hz); unfold idx, PGSIZE in *; lia. Qed.

Lemma tnew_wf m root :
  page_ok root -> (forall x, root <= x < root + PGSIZE -> rd8 m x = 0) -> pt_wf m root (tnew root).
Proof.
  intros Hp Hz. split.
  - unfold tnew. by rewrite decide_True by done.
  - by intros sl p [_ ->]%tnew_inv.
  - by intros a b p [-> _]%tnew_inv [-> _]%tnew_inv.
  - intros i Hi. rewrite tnew_none by done. cbn. by rewrite zero_word.
  - by intros i2 i1 p _ [? _]%tnew_inv.
  - by intros i2 i1 [p [? _]%tnew_inv].
  - by intros i2 [p [? _]%tnew_inv].
  - by intros i2 i1 [p [? _]%tnew_inv].
Qed.

Lemma tnew_pte m root va : pte_at m (tnew root) va = 0.
Proof. done. Qed.
Lemma tnew_apart root ps : root ∉ ps -> pt_apart (tnew root) ps.
Proof. by intros Hr sl p [_ ->]%tnew_inv. Qed.

(** A page that is not free may be filled with zeroes. *)
Lemma zero_page_inv s ps p m' :
  kmem_inv s ps -> page_ok p -> p ∉ ps ->
  (forall x, rd8 m' x = if decide (p <= x < p + PGSIZE) then 0 else rd8 (km_mem s) x) ->
  kmem_inv (KMem m' (free_mem_list s)) ps.
Proof.
  intros Hinv Hp Hni Hm. apply (kmem_inv_frame s ps m' Hinv). intros q x Hq Hx.
  rewrite Hm, decide_False; [done|]. intros Hpx.
  pose proof (proj1 (Forall_forall _ _) (inv_pages _ _ Hinv) q Hq) as Hqo.
  destruct (page_disjoint p q (proj1 Hp) (proj1 Hqo)); [by intros ->|unfold PGSIZE in *; lia..].
Qed.

Lemma zero_words_wp p s :
  wp (for_range 0 512 (fun i => st64 (p + 8 * Z.of_nat i) 0))
    (fun _ s' => free_mem_list s' = free_mem_list s /\
       forall x, rd8 (km_mem s') x = if decide (p <= x < p + PGSIZE) then 0 else rd8 (km_mem s) x) s.
Proof.
  eapply wp_mono; [apply (wp_for_range _ (fun j s' => free_mem_list s' = free_mem_list s /\
    forall x, rd8 (km_mem s') x =
      if decide (p <= x < p + 8 * Z.of_nat j) then 0 else rd8 (km_mem s) x))|].
  - intros j s1 Hj [Hf Hx]. wp_step. cbn [km_mem free_mem_list]. split; [done|].
    intros x. rewrite rd8_wr64_zero, Hx. repeat case_decide; first [done|lia].
  - split; [done|]. intros x. by rewrite decide_False by lia.
  - cbn beta. intros _ s' [Hf Hx]. split; [done|]. intros x. rewrite Hx.
    change (p + 8 * Z.of_nat (0 + 512)) with (p + PGSIZE). done.
Qed.

(* ------------------------------------------------------------------ *)
(** ** Enough pages *)

(** A table that took the whole free list has a slot for each of its pages. *)
Lemma grow_count P m ps root m' t' L :
  NoDup ps -> root ∉ ps -> pt_grow P m ps (tnew root) m' [] t' ->
  (forall va sl, P va -> on_path va sl -> sl ∈ L) -> (length ps <= length L)%nat.
Proof.
  intros Hnd Hr G HL. destruct G as [Gs _ _ Gu Gg _].
  assert (ps ⊆+ omap t' L) as Hsub.
  { apply NoDup_submseteq; [done|]. intros p Hp. apply list_elem_of_omap.
    destruct (Gu p Hp) as [?|(sl & Hsl)]; [set_solver|]. exists sl. split; [|done].
    destruct (Gg sl (ex_intro _ p Hsl)) as [[q [-> ->]%tnew_inv]|(va & Hva & Hon)]; [|by eapply HL].
    assert (t' TRoot = Some root) as Hroot by (apply Gs; unfold tnew; by rewrite decide_True by done).
    by simplify_eq. }
  apply submseteq_length in Hsub. etrans; [exact Hsub|].
  clear. induction L as [|x L IH]; cbn; [done|]. destruct (t' x); cbn; lia.
Qed.

(* ------------------------------------------------------------------ *)
(** ** kvmininit *)

(** What the kernel maps, one to one: the devices read-write, its text
    read-execute, and the rest of memory read-write. *)
Definition in_range (lo hi va : Z) : bool := (lo <=? va) && (va <? hi).
Definition kernel_perm (va : Z) : option Z :=
  if in_range VIRTIO0 (VIRTIO0 + PGSIZE) va || in_range PLIC (PLIC + 4194304) va ||
     in_range UART0 (UART0 + PGSIZE) va then Some (Z.lor PTE_R PTE_W)
  else if in_range KERNBASE (PGROUNDUP etext) va then Some (Z.lor PTE_R PTE_X)
  else if in_range (PGROUNDUP etext) PHYSTOP va then Some (Z.lor PTE_R PTE_W)
  else None.

(** The slots the kernel's mappings can need. *)
Definition kernel_slots : list tslot :=
  [TMid 0; TMid 2; TLeaf 0 96; TLeaf 0 97; TLeaf 0 128] ++
  ((fun i : nat => TLeaf 2 (Z.of_nat i)) <$> seq 0 64).
Definition kernel_va (va : Z) : Prop :=
  PLIC <= va < PLIC + 4194304 \/ UART0 <= va < VIRTIO0 + PGSIZE \/ KERNBASE <= va < PHYSTOP.

Lemma kernel_slots_path va sl : kernel_va va -> on_path va sl -> sl ∈ kernel_slots.
Proof.
  unfold kernel_va, on_path, PLIC, UART0, VIRTIO0, PHYSTOP, KERNBASE, PGSIZE. intros Hva Hon.
  rewrite !PX_eq in Hon by lia. change (2 ^ (12 + 9 * 2)) with 1073741824 in Hon.
  change (2 ^ (12 + 9 * 1)) with 2097152 in Hon.
  unfold kernel_slots.
  assert ((va / 1073741824 mod 512 = 0 /\ (va / 2097152 mod 512 = 96 \/ va / 2097152 mod 512 = 97 \/ va / 2097152 mod 512 = 128)) \/
    (va / 1073741824 mod 512 = 2 /\ 0 <= va / 2097152 mod 512 < 64)) as [[E2 E1]|[E2 E1]].
  { destruct Hva as [Hva|[Hva|Hva]]; [left|left|right].
    - clear Hon. split; [dlia|]. assert (va / 2097152 mod 512 = 96 \/ va / 2097152 mod 512 = 97) by dlia. tauto.
    - clear Hon. split; [dlia|]. right; right. dlia.
    - clear Hon. split; dlia. }
  - rewrite E2 in Hon. apply elem_of_app. left. rewrite !elem_of_cons.
    destruct Hon as [->| ->]; [tauto|]. destruct E1 as [->|[->| ->]]; tauto.
  - rewrite E2 in Hon. apply elem_of_app. destruct Hon as [->| ->]; [left; rewrite !elem_of_cons; tauto|].
    right. apply list_elem_of_fmap. exists (Z.to_nat (va / 2097152 mod 512)).
    split; [f_equal; lia|]. apply elem_of_seq. lia.
Qed.

(** Between two [mappages]: the entries are those of [f]. *)
Definition kvm_st (root : Z) (m0 : mem) (ps0 : list Z) (f : Z -> Z) (s : kmem) : Prop :=
  exists ps t, kmem_inv s ps /\ pt_wf (km_mem s) root t /\ pt_apart t ps /\
    pt_grow kernel_va m0 ps0 (tnew root) (km_mem s) ps t /\
    forall va, 0 <= va < MAXVA -> pte_at (km_mem s) t va = f va.

Definition fmap_range (f : Z -> Z) (lo hi perm : Z) (va : Z) : Z :=
  if in_range lo hi va then leaf_pte (va / 4096 * 4096) perm else f va.

Lemma fmap_range_out f lo hi perm va :
  f va = 0 -> ~ (lo <= va < hi) -> fmap_range f lo hi perm va = 0.
Proof.
  intros Hf Hva. unfold fmap_range, in_range.
  destruct (Z.leb_spec lo va), (Z.ltb_spec va hi); cbn; try done; lia.
Qed.

(** One identity mapping, with pages to spare. *)
Lemma kvm_map root m0 ps0 f s lo size perm :
  NoDup ps0 -> root ∉ ps0 -> (length kernel_slots < length ps0)%nat ->
  kvm_st root m0 ps0 f s ->
  0 <= lo -> lo mod 4096 = 0 -> 0 < size -> size mod 4096 = 0 -> lo + size <= MAXVA ->
  0 <= perm < 1024 -> (forall va, lo <= va < lo + size -> kernel_va va) ->
  (forall va, lo <= va < lo + size -> f va = 0) ->
  wp (mappages root lo lo size perm)
    (fun _ s' => kvm_st root m0 ps0 (fmap_range f lo (lo + size) perm) s') s.
Proof.
  intros Hnd Hr Hlen (ps & t & I & W & A & G & E) Hlo Hlom Hsz Hszm Hmax Hperm Hk Hf.
  assert (MAXVA = 2 ^ 38) as HM by done.
  assert (lo - lo mod 4096 = lo) as Elo by lia.
  assert (lo + size - 1 - (lo + size - 1) mod 4096 + 4096 = lo + size) as Ehi by dlia.
  eapply wp_mono; [apply (mappages_wp s ps root t); try done; rewrite ?Elo, ?Ehi; try lia|].
  { intros a Ha. rewrite E, Hf by lia. done. }
  rewrite Elo, Ehi. intros r s' (ps' & t' & I' & W' & A' & G' & O' & R').
  apply (pt_grow_mono _ kernel_va) in G'; [|exact Hk].
  pose proof (pt_grow_trans _ _ _ _ _ _ _ _ _ _ G G') as G2.
  exists ps', t'. refine (conj I' (conj W' (conj A' (conj G2 _)))).
  destruct R' as [[_ ->]|[_ R']].
  - pose proof (grow_count _ _ _ _ _ _ _ Hnd Hr G2 kernel_slots_path). lia.
  - intros va Hva. rewrite R', E by done. unfold fmap_range, in_range.
    case_decide; destruct (Z.leb_spec lo va), (Z.ltb_spec va (lo + size)); cbn; try lia; try done.
    f_equal. lia.
Qed.

Lemma kvm_start s root ps :
  kmem_inv s (root :: ps) ->
  exists s1, kalloc s = Ok root s1 /\ root <> 0 /\ NoDup ps /\ root ∉ ps /\
    wp (for_range 0 512 (fun i => st64 (root + 8 * Z.of_nat i) 0))
      (fun _ s' => exists m0, kvm_st root m0 ps (fun _ => 0) s') s1.
Proof.
  intros Hinv. destruct (kalloc_spec_cons s root ps Hinv) as (s1 & Hk & I1 & Hm & Hp & Hni).
  exists s1. pose proof (page_ok_pos _ Hp). split; [done|]. split; [lia|].
  split; [apply (inv_nodup _ _ I1)|]. split; [done|].
  eapply wp_mono; [apply zero_words_wp|]. intros _ s2 [Hf Hx]. exists (km_mem s2), ps, (tnew root).
  pose proof (zero_page_inv s1 ps root (km_mem s2) I1 Hp Hni Hx) as I2. rewrite <- Hf in I2.
  split; [by destruct s2|]. split.
  { apply tnew_wf; [done|]. intros x Hxr. by rewrite Hx, decide_True by done. }
  split; [by apply tnew_apart|]. split; [apply pt_ext_grow, pt_ext_refl|]. done.
Qed.

Lemma PGROUNDUP_etext root :
  page_ok root -> KERNBASE < etext ->
  let e := PGROUNDUP etext in e mod 4096 = 0 /\ KERNBASE < e < PHYSTOP.
Proof.
  intros Hp He. destruct etext_range as [_ Hee]. destruct end_range as [_ Hend].
  destruct Hp as (Hal & Hlo & Hhi). unfold KERNBASE, PHYSTOP, PGSIZE in *.
  cbv zeta. rewrite PGROUNDUP_eq by (unfold KERNBASE, PHYSTOP in *; lia).
  split; [dlia|]. unfold KERNBASE, PHYSTOP in *. split; dlia.
Qed.

Lemma kernel_map_eq va :
  KERNBASE < PGROUNDUP etext < PHYSTOP ->
  fmap_range (fmap_range (fmap_range (fmap_range (fmap_range (fun _ => 0)
    VIRTIO0 (VIRTIO0 + PGSIZE) (Z.lor PTE_R PTE_W)) PLIC (PLIC + 4194304) (Z.lor PTE_R PTE_W))
    UART0 (UART0 + PGSIZE) (Z.lor PTE_R PTE_W))
    KERNBASE (KERNBASE + (PGROUNDUP etext - KERNBASE)) (Z.lor PTE_R PTE_X))
    (PGROUNDUP etext) (PGROUNDUP etext + (PHYSTOP - PGROUNDUP etext)) (Z.lor PTE_R PTE_W) va =
  match kernel_perm va with Some perm => leaf_pte (va / 4096 * 4096) perm | None => 0 end.
Proof.
  intros He. set (e := PGROUNDUP etext) in *. unfold fmap_range, kernel_perm. fold e.
  replace (KERNBASE + (e - KERNBASE)) with e by lia. replace (e + (PHYSTOP - e)) with PHYSTOP by lia.
  clearbody e. unfold in_range, PLIC, UART0, VIRTIO0, PHYSTOP, KERNBASE, PGSIZE in *.
  repeat match goal with
  | |- context [?a <=? ?b] => destruct (Z.leb_spec a b)
  | |- context [?a <? ?b] => destruct (Z.ltb_spec a b)
  end; cbn [andb orb]; first [done|lia].
Qed.

(* ------------------------------------------------------------------ *)
(** ** Properties *)

(** C5: with seventy-one free pages [kvmininit] builds, without panicking, a
    table in which [walk] finds exactly the identity mapping of the devices, the
    kernel text and the rest of memory, with their permissions, and no other
    entry. *)
Theorem kvmininit_identity s root ps :
  kmem_inv s (root :: ps) -> (70 <= length ps)%nat -> KERNBASE < etext ->
  exists s', kvmininit s = Ok root s' /\
    forall va, 0 <= va < MAXVA ->
      pte_of s' root va =
        match kernel_perm va with Some perm => leaf_pte (va / 4096 * 4096) perm | None => 0 end.
Proof.
  intros Hinv Hlen Het.
  assert (page_ok root) as Hp by (pose proof (inv_pages _ _ Hinv) as Hall; by inversion_clear Hall).
  destruct (PGROUNDUP_etext root Hp Het) as [Hem Her].
  destruct (kvm_start s root ps Hinv) as (s1 & Hk & Hr0 & Hnd & Hr & Hz).
  assert (length kernel_slots < length ps)%nat as Hl by (unfold kernel_slots; cbn; lia).
  enough (wp kvmininit (fun a s' => a = root /\ exists m0, kvm_st root m0 ps
    (fun va => match kernel_perm va with Some p => leaf_pte (va / 4096 * 4096) p | None => 0 end) s') s)
    as Hw.
  { destruct (wp_inv _ _ _ Hw) as (a & s' & Hrun & -> & m0 & ps' & t & _ & W & _ & _ & E).
    exists s'. split; [exact Hrun|]. intros va Hva. rewrite (pte_of_at _ _ t va W (proj2 Hva)). exact (E va Hva). }
  unfold kvmininit. apply wp_bind, (wp_of_eq _ _ _ _ _ Hk). rewrite (proj2 (Z.eqb_neq root 0)) by done.
  apply wp_bind. eapply wp_mono; [exact Hz|]. intros _ s2 (m0 & Hst).
  remember (PGROUNDUP etext) as e eqn:Ee.
  assert (MAXVA = 274877906944 /\ PHYSTOP = 2281701376 /\ KERNBASE = 2147483648 /\ PGSIZE = 4096 /\
    VIRTIO0 = 268439552 /\ PLIC = 201326592 /\ UART0 = 268435456)
    as (EM & EP & EK & EG & EV & EPl & EU) by (vm_compute; tauto).
  rewrite !u64_id by lia.
  assert (forall root f lo size perm (k : M kmem Z) Q s, kvm_st root m0 ps f s -> root ∉ ps ->
    lo mod 4096 = 0 -> 0 < size -> size mod 4096 = 0 -> 0 <= lo -> lo + size <= MAXVA ->
    0 <= perm < 1024 -> (forall va, lo <= va < lo + size -> kernel_va va) ->
    (forall va, lo <= va < lo + size -> f va = 0) ->
    (forall s', kvm_st root m0 ps (fmap_range f lo (lo + size) perm) s' -> wp k Q s') ->
    wp (mappages root lo lo size perm ;;; k) Q s) as Hnext.
  { intros rt f lo size perm k Q s3 Hst3 Hrt ? ? ? ? ? ? ? ? Hk3. apply wp_bind. eapply wp_mono;
      [by eapply (kvm_map rt m0 ps f)|]. intros ? s4. apply Hk3. }
  do 5 (eapply Hnext; [exact Hst|exact Hr| |lia| |lia|lia| |unfold kernel_va; lia
    |intros va Hva; repeat (apply fmap_range_out; [|lia]); reflexivity|];
    [lazymatch goal with |- e mod _ = 0 => exact Hem | |- _ => reflexivity end
    |lazymatch goal with |- (_ - _) mod _ = 0 => rewrite ?EP, ?EK; clear -Hem; dlia | |- _ => reflexivity end
    |by split; vm_compute|]; clear dependent s2; intros s2 Hst).
  apply wp_ret. split; [done|]. exists m0.
  destruct Hst as (ps' & t & I & W & A & G & E). exists ps', t.
  refine (conj I (conj W (conj A (conj G _)))). intros va Hva. rewrite E by done.
  rewrite Ee. apply kernel_map_eq. lia.
Qed.

(** [mappages] over a range without mappings either makes [walk] find, for
    every page of the range, the next physical page with the permissions and the
    valid bit, and for every other address what it found before; or it returns -1
    with the free list exhausted and the other addresses as before. *)
Theorem mappages_maps s ps root t va size pa perm :
  kmem_inv s ps -> pt_wf (km_mem s) root t -> pt_apart t ps ->
  0 <= va -> 0 < size -> va + size <= MAXVA -> 0 <= pa -> pa + size + 4096 < 2 ^ 64 ->
  0 <= perm < 1024 ->
  let lo := va / 4096 * 4096 in
  let hi := (va + size - 1) / 4096 * 4096 + 4096 in
  (forall a, lo <= a < hi -> has (pte_of s root a) PTE_V = false) ->
  exists r s', mappages root pa va size perm s = Ok r s' /\
    (forall a, 0 <= a < MAXVA -> ~ (lo <= a < hi) -> pte_of s' root a = pte_of s root a) /\
    ((r = 0 /\ forall a, lo <= a < hi ->
        pte_of s' root a = Z.lor (PA2PTE (pa + (a / 4096 * 4096 - lo))) (Z.lor perm PTE_V)) \/
     (r = -1 /\ kmem_inv s' [])).
Proof.
  intros I W A Hva Hsz Hmax Hpa Hpas Hperm lo hi Hfree.
  assert (lo = va - va mod 4096 /\
    hi = va + size - 1 - (va + size - 1) mod 4096 + 4096 /\ 0 <= lo /\ hi <= MAXVA) as (El & Eh & Hlo & Hhi).
  { unfold lo, hi. change MAXVA with 274877906944 in *. dlia. }
  destruct (wp_inv _ _ _ (mappages_wp s ps root t va size pa perm I W A Hva Hsz Hmax Hpa Hpas Hperm
    ltac:(rewrite <- El, <- Eh; intros a Ha; rewrite <- (pte_of_at s root t) by (done || lia); by apply Hfree)))
    as (r & s' & Hrun & ps' & t' & I' & W' & A' & _ & O' & R').
  rewrite <- El, <- Eh in *. exists r, s'. split; [exact Hrun|]. split.
  - intros a Ha Hout. rewrite !(pte_of_at _ root t'), (pte_of_at _ root t) by (done || lia). by apply O'.
  - destruct R' as [[-> ->]|[-> R']]; [by right|]. left. split; [done|].
    intros a Ha. rewrite (pte_of_at _ root t') by (done || lia). rewrite R' by lia.
    by rewrite decide_True by done.
Qed.

(** C37: [copyout] to a range the user may access, whose pages are distinct and
    hold no page table, returns 0 having stored each byte at the address its
    virtual address translates to and changed nothing else; when the first page is
    not accessible it returns -1 and writes nothing. *)
Theorem copyout_correct s ps root t dst src :
  kmem_inv s ps -> pt_wf (km_mem s) root t ->
  0 <= dst -> dst + Z.of_nat (length src) <= MAXVA -> src <> [] ->
  (user_range (km_mem s) t dst (Z.of_nat (length src)) ->
     exists s', copyout root dst src s = Ok 0 s' /\ free_mem_list s' = free_mem_list s /\
       (forall i b, src !! i = Some b ->
          rd8 (km_mem s') (upa (km_mem s) t (dst + Z.of_nat i)) = u8 b) /\
       (forall x, (forall i, (i < length src)%nat -> x <> upa (km_mem s) t (dst + Z.of_nat i)) ->
          rd8 (km_mem s') x = rd8 (km_mem s) x)) /\
  (uaccess (km_mem s) t dst = false -> copyout root dst src s = Ok (-1) s).
Proof.
  intros I W Hd Hmax Hne. split.
  - intros Hur. destruct (wp_inv _ _ _ (copyout_wp root t s ps dst src I W Hd Hmax Hur))
      as (r & s' & Hrun & -> & Hf & Hc & Ho).
    exists s'. refine (conj Hrun (conj Hf (conj _ Ho))).
    intros i b Hi. apply Hc; [by apply lookup_lt_Some in Hi|done].
  - intros Hu. destruct src as [|b bs]; [done|]. cbn in Hmax.
    apply (copyout_denied root t); [done|lia|done].
Qed.

(** C39: a system call that copies to a user pointer of [MAXVA] or above stops
    the kernel: [copyout] does not return an error, it panics. *)
Theorem copyout_panics_above_maxva root s dst src :
  MAXVA <= dst < 2 ^ 64 -> src <> [] ->
  copyout root dst src s = Stop (Panic "walk: virtual address out of range").
Proof. intros Hd Hne. destruct src; [done|]. by apply copyout_high_panics. Qed.
End kernel.

Section witnesses.
#[local] Existing Instance sample_image.
#[local] Existing Instance sample_image_ok.

Lemma sample_pages : all_pages = (PHYSTOP - PGSIZE) :: tail all_pages /\ length (tail all_pages) = 127%nat.
Proof. split; vm_compute; reflexivity. Qed.

Lemma kvmininit_identity_witness :
  exists s s', kinit (KMem ∅ 0) = Ok tt s /\ kvmininit s = Ok (PHYSTOP - PGSIZE) s' /\
    pte_of s' (PHYSTOP - PGSIZE) (KERNBASE + 5000) = leaf_pte (KERNBASE + 4096) (Z.lor PTE_R PTE_X).
Proof.
  destruct (wp_inv _ _ _ (kinit_spec ∅)) as (u & s & Hk & I). destruct u. exists s.
  change (kmem_inv s all_pages) in I. destruct sample_pages as [Ep El]. rewrite Ep in I.
  destruct (kvmininit_identity s _ _ I) as (s' & Hrun & Hp).
  - rewrite El. apply Nat.leb_le. reflexivity.
  - apply Z.ltb_lt. reflexivity.
  - exists s'. split; [exact Hk|]. split; [exact Hrun|]. rewrite Hp; [vm_compute; reflexivity|].
    split; [apply Z.leb_le|apply Z.ltb_lt]; reflexivity.
Defined.

(** An empty table with 127 free pages left. *)
Lemma sample_table :
  exists s m0 ps0, kvm_st (PHYSTOP - PGSIZE) m0 ps0 (fun _ => 0) s /\
    NoDup ps0 /\ PHYSTOP - PGSIZE ∉ ps0 /\ (length kernel_slots < length ps0)%nat.
Proof.
  destruct (wp_inv _ _ _ (kinit_spec ∅)) as (u & s & Hk & I).
  change (kmem_inv s all_pages) in I. destruct sample_pages as [Ep El]. rewrite Ep in I.
  destruct (kvm_start s _ _ I) as (s1 & _ & _ & Hnd & Hr & Hw).
  destruct (wp_inv _ _ _ Hw) as (v & s2 & _ & m0 & Hst).
  exists s2, m0, (tail all_pages). refine (conj Hst (conj Hnd (conj Hr _))).
  rewrite El. apply Nat.ltb_lt. reflexivity.
Qed.

Lemma mappages_maps_witness : exists s r s', mappages (PHYSTOP - PGSIZE) KERNBASE 4096 8192 PTE_R s = Ok r s'.
Proof.
  destruct sample_table as (s & m0 & ps0 & (ps & t & I & W & A & _ & E) & _).
  destruct (mappages_maps s ps (PHYSTOP - PGSIZE) t 4096 8192 KERNBASE PTE_R I W A) as (r & s' & Hrun & _);
    try (unfold KERNBASE; lia).
  - apply Z.leb_le. reflexivity.
  - split; [apply Z.leb_le|apply Z.ltb_lt]; reflexivity.
  - intros a Ha. rewrite (pte_of_at s _ t a W), E; [reflexivity|..]; change MAXVA with 274877906944; dlia.
  - exists s, r, s'. exact Hrun.
Defined.

(** A table with one page the user may access, at [KERNBASE]. *)
Lemma sample_user_table :
  exists s ps t, kmem_inv s ps /\ pt_wf (km_mem s) (PHYSTOP - PGSIZE) t /\
    user_range (km_mem s) t KERNBASE 2 /\ upa (km_mem s) t KERNBASE = KERNBASE.
Proof.
  destruct sample_table as (s & m0 & ps0 & Hst & Hnd & Hr & Hl).
  set (perm := Z.lor PTE_R PTE_U).
  assert (MAXVA = 274877906944 /\ KERNBASE = 2147483648 /\ PHYSTOP = 2281701376)
    as (EM & EK & EP) by (vm_compute; tauto).
  destruct (wp_inv _ _ _ (kvm_map _ m0 ps0 _ s KERNBASE 4096 perm Hnd Hr Hl Hst
    ltac:(lia) eq_refl ltac:(lia) eq_refl ltac:(lia)
    ltac:(split; [apply Z.leb_le|apply Z.ltb_lt]; reflexivity)
    ltac:(unfold kernel_va; intros; lia) ltac:(reflexivity)))
    as (r & s1 & _ & ps & t & I & W & A & _ & E).
  assert (forall a, KERNBASE <= a < KERNBASE + 2 -> pte_at (km_mem s1) t a = leaf_pte KERNBASE perm) as Ea.
  { intros a Ha. rewrite E by lia. unfold fmap_range, in_range.
    rewrite (proj2 (Z.leb_le KERNBASE a)), (proj2 (Z.ltb_lt a (KERNBASE + 4096))) by lia. cbn [andb].
    f_equal. rewrite EK in *. dlia. }
  assert (PTE2PA (leaf_pte KERNBASE perm) = KERNBASE) as Hpa by (vm_compute; reflexivity).
  exists s1, ps, t. refine (conj I (conj W (conj _ _))).
  - split.
    + intros a Ha. unfold uaccess. rewrite Ea by lia. vm_compute. reflexivity.
    + intros a sl p Ha Hsl. rewrite Ea, Hpa by lia.
      destruct (wf_page _ _ _ W _ _ Hsl) as (_ & Hlo & _). change end_address with 2281177088 in Hlo. lia.
    + intros a b Ha Hb _. rewrite EK in *. dlia.
  - unfold upa. rewrite Ea, Hpa by lia. vm_compute. reflexivity.
Qed.

Lemma copyout_correct_witness :
  exists s s', copyout (PHYSTOP - PGSIZE) KERNBASE [7; 8] s = Ok 0 s' /\ rd8 (km_mem s') KERNBASE = 7.
Proof.
  destruct sample_user_table as (s & ps & t & I & W & U & Hpa).
  destruct (proj1 (copyout_correct s ps (PHYSTOP - PGSIZE) t KERNBASE [7; 8] I W
    ltac:(apply Z.leb_le; reflexivity) ltac:(apply Z.leb_le; reflexivity) ltac:(discriminate)) U)
    as (s' & Hrun & _ & Hb & _).
  exists s, s'. split; [exact Hrun|]. specialize (Hb 0%nat 7 eq_refl).
  change (KERNBASE + Z.of_nat 0) with KERNBASE in Hb. rewrite Hpa in Hb. exact Hb.
Defined.

Lemma copyout_panics_above_maxva_witness :
  copyout KERNBASE MAXVA [0] (KMem ∅ 0) = Stop (Panic "walk: virtual address out of range").
Proof.
  apply (copyout_panics_above_maxva KERNBASE (KMem ∅ 0) MAXVA [0]); [|discriminate].
  split; [apply Z.le_refl|apply Z.ltb_lt; reflexivity].
Defined.
End witnesses.
