(* ===== verification/VmUser.v ===== *)
(** Address spaces of processes: [uvmcopy] of [kernel/mm/vm.c], which [fork]
    uses, gives the child a copy of its own of every page of the parent. *)

From S2P Require Import Prelude Memory Kalloc Vm VmSpec VmKernel.

(* ------------------------------------------------------------------ *)
(** ** Pages of bytes *)

Definition in_page (p x : Z) : Prop := p <= x < p + PGSIZE.

Lemma in_page_eq p q x : p mod PGSIZE = 0 -> q mod PGSIZE = 0 -> in_page p x -> in_page q x -> p = q.
Proof. unfold in_page, PGSIZE. intros. dlia. Qed.

(** The entry is valid. *)
Definition vbit (pte : Z) : bool := has pte PTE_V.

Section uvmcopy.
Context `{Image} `{!ImageOk}.

Lemma leaf_pte_pa q f : page_ok q -> 0 <= f < 1024 -> PTE2PA (leaf_pte q f) = q.
Proof.
  intros Hq Hf. pose proof (page_ok_pos _ Hq). unfold leaf_pte. apply PTE2PA_PA2PTE; [lia|apply Hq|].
  assert (0 <= Z.lor f PTE_V < 2 ^ 10); [|lia]. apply lor_range; [lia|lia|]. split; [apply Z.leb_le|apply Z.ltb_lt]; reflexivity.
Qed.
Lemma flags_range pte : 0 <= PTE_FLAGS pte < 1024.
Proof.
  unfold PTE_FLAGS. change 1023 with (Z.ones 10). rewrite Z.land_ones by lia. apply Z.mod_pos_bound. lia.
Qed.

(** A table whose pages are not written keeps its entries. *)
Lemma pte_at_frame m m' t va :
  (forall sl p, t sl = Some p -> forall x, in_page p x -> rd8 m' x = rd8 m x) -> pte_at m' t va = pte_at m t va.
Proof.
  intros Hf. unfold pte_at. destruct (pte_addr t va) as [a|] eqn:Ha; [|done].
  apply pte_addr_inv in Ha as (q & Hq & ->). pose proof (PX_bounds 0 va ltac:(lia)).
  apply rd64_ext. intros x Hx. apply (Hf _ _ Hq). unfold in_page, PGSIZE. lia.
Qed.

Context (s : kmem) (ps : list Z) (old : Z) (t1 : ptree) (new : Z) (t2 : ptree) (sz : Z).
Let m := km_mem s.

(** The parent's table and frames and the child's (empty) table do not overlap,
    and none of them is free. *)
Record fork_ready : Prop := {
  fr_inv : kmem_inv s ps;
  fr_old : pt_wf m old t1;
  fr_new : pt_wf m new t2;
  fr_apart1 : pt_apart t1 ps;
  fr_apart2 : pt_apart t2 ps;
  fr_tables : forall sl sl' p, t1 sl = Some p -> t2 sl' <> Some p;
  fr_frames : forall a, 0 <= a < sz -> vbit (pte_at m t1 a) = true ->
    PTE2PA (pte_at m t1 a) ∉ ps /\ forall sl, t2 sl <> Some (PTE2PA (pte_at m t1 a));
  fr_unmapped : forall a, 0 <= a -> a / 4096 * 4096 < sz -> vbit (pte_at m t2 a) = false;
  fr_sz : 0 <= sz <= MAXVA;
}.
Context (Hr : fork_ready).

(** Memory of the parent: neither free at the start nor a page of the child's
    table. *)
Definition outside (x : Z) : Prop :=
  (forall p, p ∈ ps -> ~ in_page p x) /\ (forall sl p, t2 sl = Some p -> ~ in_page p x).

(** The child's frame [q] is a copy of the parent's page at [a]. *)
Record page_copy (s' : kmem) (ps' : list Z) (t' : ptree) (a q : Z) : Prop := {
  pc_page : q ∈ ps;
  pc_used : q ∉ ps';
  pc_data : forall sl, t' sl <> Some q;
  pc_pte : pte_at (km_mem s') t' a = leaf_pte q (PTE_FLAGS (pte_at m t1 a));
  pc_bytes : forall k, 0 <= k < PGSIZE -> rd8 (km_mem s') (q + k) = rd8 m (PTE2PA (pte_at m t1 a) + k);
}.

(** The state of the copy when the addresses below [i] are done. *)
Record copying (i : Z) (s' : kmem) (ps' : list Z) (t' : ptree) : Prop := {
  cp_inv : kmem_inv s' ps';
  cp_wf : pt_wf (km_mem s') new t';
  cp_apart : pt_apart t' ps';
  cp_free : exists used, ps = used ++ ps';
  cp_tab : forall sl p, t' sl = Some p -> t2 sl = Some p \/ p ∈ ps;
  cp_frame : forall x, outside x -> rd8 (km_mem s') x = rd8 m x;
  cp_done : forall a, 0 <= a < i -> a < MAXVA -> vbit (pte_at m t1 a) = true -> exists q, page_copy s' ps' t' a q;
  cp_inj : forall a b, 0 <= a < i -> 0 <= b < i -> a < MAXVA -> b < MAXVA ->
    vbit (pte_at m t1 a) = true -> vbit (pte_at m t1 b) = true ->
    PTE2PA (pte_at (km_mem s') t' a) = PTE2PA (pte_at (km_mem s') t' b) -> a / 4096 = b / 4096;
  cp_rest : forall a, 0 <= a < MAXVA -> i <= a \/ vbit (pte_at m t1 a) = false ->
    pte_at (km_mem s') t' a = pte_at m t2 a;
}.

Lemma ps_page p : p ∈ ps -> page_ok p.
Proof. apply (proj1 (Forall_forall _ _) (inv_pages _ _ (fr_inv Hr))). Qed.

(** What the parent owns is outside. *)
Lemma outside_old sl p x : t1 sl = Some p -> in_page p x -> outside x.
Proof.
  intros Hp Hx. pose proof (wf_page _ _ _ (fr_old Hr) _ _ Hp) as (Hal & _). split.
  - intros q Hq Hxq. pose proof (ps_page q Hq) as (Hqal & _).
    rewrite (in_page_eq p q x Hal Hqal Hx Hxq) in Hp. by apply (fr_apart1 Hr sl q).
  - intros sl' q Hq Hxq. pose proof (wf_page _ _ _ (fr_new Hr) _ _ Hq) as (Hqal & _).
    rewrite (in_page_eq p q x Hal Hqal Hx Hxq) in Hp. by apply (fr_tables Hr sl sl' q).
Qed.
Lemma outside_frame a x : 0 <= a < sz -> vbit (pte_at m t1 a) = true -> in_page (PTE2PA (pte_at m t1 a)) x -> outside x.
Proof.
  intros Ha Hv Hx. destruct (fr_frames Hr a Ha Hv) as [Hp Ht].
  pose proof (PTE2PA_aligned (pte_at m t1 a)) as Hal. split.
  - intros q Hq Hxq. pose proof (ps_page q Hq) as (Hqal & _).
    by rewrite (in_page_eq _ q x Hal Hqal Hx Hxq) in Hp.
  - intros sl q Hq Hxq. pose proof (wf_page _ _ _ (fr_new Hr) _ _ Hq) as (Hqal & _).
    apply (Ht sl). by rewrite (in_page_eq _ q x Hal Hqal Hx Hxq).
Qed.

(** The parent's table reads the same throughout. *)
Lemma copying_old i s' ps' t' :
  copying i s' ps' t' -> pt_wf (km_mem s') old t1 /\ forall a, pte_at (km_mem s') t1 a = pte_at m t1 a.
Proof.
  intros Hc. assert (forall sl p, t1 sl = Some p -> forall x, in_page p x -> rd8 (km_mem s') x = rd8 m x) as Hf.
  { intros sl p Hp x Hx. apply (cp_frame _ _ _ _ Hc). by eapply outside_old. }
  split; [exact (pt_wf_frame _ _ _ _ (fr_old Hr) Hf)|]. intros a. by apply pte_at_frame.
Qed.

Lemma copying_start : copying 0 s ps t2.
Proof.
  split; try apply Hr; try done; try (intros; lia).
  - by exists [].
  - intros sl p Hp. by left.
Qed.

(** A page that is not mapped is passed over. *)
Lemma copying_skip i s' ps' t' :
  i mod 4096 = 0 -> 0 <= i < sz -> vbit (pte_at m t1 i) = false -> copying i s' ps' t' -> copying (i + PGSIZE) s' ps' t'.
Proof.
  intros Hal Hi Hv [Hin Hwf Hap Hfr Htab Hframe Hdone Hinj Hrest].
  assert (forall a, i <= a < i + 4096 -> a < MAXVA -> pte_at m t1 a = pte_at m t1 i) as Hpg.
  { intros a Ha HM. apply pte_at_page; [lia|pose proof (fr_sz Hr); lia|dlia]. }
  assert (forall a, a < i + 4096 -> a < MAXVA -> vbit (pte_at m t1 a) = true -> a < i) as Hlt.
  { intros a Ha HM Hva. destruct (decide (a < i)); [done|]. rewrite Hpg in Hva by lia. congruence. }
  unfold PGSIZE. split; try done.
  - intros a Ha HM Hva. apply Hdone; [|done|done]. specialize (Hlt a ltac:(lia) HM Hva). lia.
  - intros a b Ha Hb HMa HMb Hva Hvb. apply Hinj; try done.
    + specialize (Hlt a ltac:(lia) HMa Hva). lia.
    + specialize (Hlt b ltac:(lia) HMb Hvb). lia.
  - intros a Ha Hor. apply Hrest; [done|]. destruct Hor; [left; lia|by right].
Qed.

(** One page: [q] was the first free page, and [s2] holds the copy. *)
Section page.
Context (i : Z) (s1 : kmem) (q : Z) (ps1 : list Z) (t' : ptree) (s2 s3 : kmem) (ps3 : list Z) (t3 : ptree).
Let pa := PTE2PA (pte_at m t1 i).
Let flags := PTE_FLAGS (pte_at m t1 i).
Context (Hal : i mod 4096 = 0) (Hi : 0 <= i < sz) (Hv : vbit (pte_at m t1 i) = true).
Context (Hc : copying i s1 (q :: ps1) t').
Context (Hm2 : km_mem s2 = memmove (km_mem s1) q pa PGSIZE).

Lemma page_q : q ∈ ps /\ page_ok q /\ q ∉ ps1 /\ forall p, p ∈ ps1 -> p ∈ ps.
Proof.
  destruct (cp_free _ _ _ _ Hc) as [used Hu]. assert (q ∈ ps) as Hq by (rewrite Hu; apply elem_of_app; right; by left).
  split; [done|]. split; [by apply ps_page|].
  pose proof (inv_nodup _ _ (cp_inv _ _ _ _ Hc)) as [Hn _]%NoDup_cons. split; [done|].
  intros p Hp. rewrite Hu. apply elem_of_app. right. by right.
Qed.

Lemma page_s2 x : ~ in_page q x -> rd8 (km_mem s2) x = rd8 (km_mem s1) x.
Proof. intros Hx. rewrite Hm2, rd8_memmove by (unfold PGSIZE; lia). by rewrite decide_False by done. Qed.

(** The child's table does not move. *)
Lemma page_table sl p x : t' sl = Some p -> in_page p x -> rd8 (km_mem s2) x = rd8 (km_mem s1) x.
Proof.
  intros Hp Hx. apply page_s2. intros Hxq. destruct page_q as (_ & Hqp & _).
  pose proof (wf_page _ _ _ (cp_wf _ _ _ _ Hc) _ _ Hp) as (Hpal & _).
  rewrite (in_page_eq p q x Hpal (proj1 Hqp) Hx Hxq) in Hp.
  apply (cp_apart _ _ _ _ Hc sl q Hp). by left.
Qed.

Context (G : pt_grow (fun v => i <= v < i + 4096) (km_mem s2) ps1 t' (km_mem s3) ps3 t3).
Context (I3 : kmem_inv s3 ps3) (W3 : pt_wf (km_mem s3) new t3) (A3 : pt_apart t3 ps3).
Context (E3 : forall a, 0 <= a < MAXVA -> pte_at (km_mem s3) t3 a =
  if decide (i <= a < i + 4096) then leaf_pte (q + (a / 4096 * 4096 - i)) flags else pte_at (km_mem s2) t' a).

(** A page that the child's table does not use keeps its bytes. *)
Lemma page_keep p x :
  page_ok p -> p <> q -> (forall sl, t' sl <> Some p) -> p ∉ ps1 -> in_page p x -> rd8 (km_mem s3) x = rd8 (km_mem s1) x.
Proof.
  intros Hp Hne Hnt Hnp Hx. destruct page_q as (_ & Hqp & _ & Hin).
  rewrite (grow_frame _ _ _ _ _ _ _ G).
  - apply page_s2. intros Hxq. apply Hne. eapply in_page_eq; [apply Hp|apply Hqp|done|done].
  - intros sl p' Hp' Hx'. pose proof (wf_page _ _ _ W3 _ _ Hp') as (Hal' & _).
    rewrite (in_page_eq p' p x Hal' (proj1 Hp) Hx' Hx) in Hp'.
    destruct (grow_new _ _ _ _ _ _ _ G _ _ Hp'); [by apply (Hnt sl)|done].
Qed.

Lemma page_outside x : outside x -> rd8 (km_mem s3) x = rd8 m x.
Proof.
  intros [Hop Hot]. destruct page_q as (Hq & _ & _ & Hin). rewrite <- (cp_frame _ _ _ _ Hc x) by done.
  rewrite (grow_frame _ _ _ _ _ _ _ G).
  - apply page_s2. by apply Hop.
  - intros sl p Hp. destruct (grow_new _ _ _ _ _ _ _ G _ _ Hp) as [Hp'|Hp']; [|by apply Hop, Hin].
    destruct (cp_tab _ _ _ _ Hc _ _ Hp') as [Hp2|Hp2]; [by apply (Hot sl)|by apply Hop].
Qed.

(** The page of [i] in the child. *)
Lemma page_new a : i <= a < i + 4096 -> a < MAXVA -> page_copy s3 ps3 t3 a q.
Proof.
  intros Ha HM. destruct page_q as (Hq & Hqp & Hn & Hin). pose proof (fr_sz Hr) as Hsz.
  assert (pte_at m t1 a = pte_at m t1 i) as Hpte by (apply pte_at_page; [lia|lia|dlia]).
  destruct (grow_free _ _ _ _ _ _ _ G) as [used Hu].
  assert (forall sl, t3 sl <> Some q) as Hnt.
  { intros sl Hs. destruct (grow_new _ _ _ _ _ _ _ G _ _ Hs) as [Hs'|Hs']; [|done].
    apply (cp_apart _ _ _ _ Hc sl q Hs'). by left. }
  split; rewrite ?Hpte; try done.
  - intros Hq3. apply Hn. rewrite Hu. apply elem_of_app. by right.
  - rewrite E3, decide_True by lia. f_equal. dlia.
  - intros k Hk. rewrite (grow_frame _ _ _ _ _ _ _ G).
    + rewrite Hm2, rd8_memmove, decide_True by (unfold PGSIZE in *; lia). fold pa. rewrite (cp_frame _ _ _ _ Hc); [f_equal; lia|].
      apply (outside_frame i); [done|done|]. unfold in_page, PGSIZE in *. fold pa. lia.
    + intros sl p Hp Hx. pose proof (wf_page _ _ _ W3 _ _ Hp) as (Hal' & _).
      apply (Hnt sl). rewrite <- (in_page_eq p q (q + k) Hal' (proj1 Hqp) Hx); [done|]. unfold in_page. lia.
Qed.

(** The pages already copied stay. *)
Lemma page_old a qa : 0 <= a < i -> a < MAXVA -> page_copy s1 (q :: ps1) t' a qa -> page_copy s3 ps3 t3 a qa.
Proof.
  intros Ha HM [Hp Hu Hd Hpte Hb]. apply not_elem_of_cons in Hu as [Hne Hnp].
  destruct (grow_free _ _ _ _ _ _ _ G) as [used Hus]. pose proof (ps_page qa Hp) as Hqa.
  split; [done| | | |].
  - intros Hq3. apply Hnp. rewrite Hus. apply elem_of_app. by right.
  - intros sl Hs. destruct (grow_new _ _ _ _ _ _ _ G _ _ Hs) as [Hs'|Hs']; [by apply (Hd sl)|done].
  - rewrite E3, decide_False by lia. rewrite <- Hpte. apply pte_at_frame. intros sl p Hps x. by apply (page_table sl p).
  - intros k Hk. rewrite <- Hb by done. apply (page_keep qa); [done..|]. unfold in_page. lia.
Qed.

Lemma copying_page : copying (i + PGSIZE) s3 ps3 t3.
Proof.
  destruct page_q as (Hq & Hqp & Hn & Hin). pose proof (flags_range (pte_at m t1 i)) as Hfl.
  assert (forall a, 0 <= a < i + PGSIZE -> a < MAXVA -> vbit (pte_at m t1 a) = true ->
    i <= a < i + 4096 \/ (0 <= a < i /\ exists qa, page_copy s1 (q :: ps1) t' a qa)) as Hcase.
  { intros a Ha HM Hva. unfold PGSIZE in Ha. destruct (decide (a < i)); [right|left; lia].
    split; [lia|]. apply (cp_done _ _ _ _ Hc); [lia|done|done]. }
  assert (forall a qa, page_copy s3 ps3 t3 a qa -> PTE2PA (pte_at (km_mem s3) t3 a) = qa) as Hpa.
  { intros a qa [Hp _ _ -> _]. apply leaf_pte_pa; [by apply ps_page|apply flags_range]. }
  split; [done..| | | | | |].
  - destruct (grow_free _ _ _ _ _ _ _ G) as [u1 Hu1], (cp_free _ _ _ _ Hc) as [u2 Hu2].
    exists (u2 ++ q :: u1). by rewrite Hu2, Hu1, <- app_assoc.
  - intros sl p Hp. destruct (grow_new _ _ _ _ _ _ _ G _ _ Hp) as [Hp'|Hp']; [by apply (cp_tab _ _ _ _ Hc _ _ Hp')|right; by apply Hin].
  - exact page_outside.
  - intros a Ha HM Hva. destruct (Hcase a Ha HM Hva) as [Hin'|(Ha' & qa & Hqa)].
    + exists q. by apply page_new.
    + exists qa. by apply page_old.
  - intros a b Ha Hb HMa HMb Hva Hvb.
    destruct (Hcase a Ha HMa Hva) as [Ha'|(Ha' & qa & Hqa)], (Hcase b Hb HMb Hvb) as [Hb'|(Hb' & qb & Hqb)].
    + intros _. dlia.
    + rewrite (Hpa a q), (Hpa b qb) by (by apply page_new || by apply page_old). intros <-.
      destruct (pc_used _ _ _ _ _ Hqb). by left.
    + rewrite (Hpa a qa), (Hpa b q) by (by apply page_new || by apply page_old). intros ->.
      destruct (pc_used _ _ _ _ _ Hqa). by left.
    + rewrite (Hpa a qa), (Hpa b qb) by (by apply page_old). intros ->.
      apply (cp_inj _ _ _ _ Hc); try done. by rewrite (pc_pte _ _ _ _ _ Hqa), (pc_pte _ _ _ _ _ Hqb), !leaf_pte_pa
        by (apply flags_range || (apply ps_page, (pc_page _ _ _ _ _ Hqb))).
  - intros a Ha Hor. unfold PGSIZE in Hor. assert (~ (i <= a < i + 4096)) as Hout.
    { destruct Hor as [|Hno]; [lia|]. intros Hin'.
      rewrite (pte_at_page m t1 a i) in Hno; [congruence|lia|pose proof (fr_sz Hr); lia|dlia]. }
    rewrite E3, decide_False by done. rewrite (pte_at_frame (km_mem s1)).
    + apply (cp_rest _ _ _ _ Hc); [done|]. destruct Hor; [left; lia|by right].
    + intros sl p Hps x. by apply (page_table sl p).
Qed.
End page.

(** What holds even when memory runs out. *)
Definition parent_kept (s' : kmem) : Prop := forall x, outside x -> rd8 (km_mem s') x = rd8 m x.

(** A round of [uvmcopy] over a mapped page. *)
Lemma uvmcopy_page_wp i s1 ps1 t' (Q : Z + Z -> kmem -> Prop) :
  i mod 4096 = 0 -> 0 <= i < sz -> vbit (pte_at m t1 i) = true -> copying i s1 ps1 t' ->
  (forall s' ps' t'', copying (i + PGSIZE) s' ps' t'' -> Q (inl (i + PGSIZE)) s') ->
  (forall s', parent_kept s' -> Q (inr (-1)) s') ->
  wp (let! mem := kalloc in
      if mem =? 0 then ret (inr (-1))
      else
        upd_mem (fun mm => memmove mm mem (PTE2PA (pte_at m t1 i)) PGSIZE) ;;;
        let! r := mappages new mem i PGSIZE (s32 (PTE_FLAGS (pte_at m t1 i))) in
        if r <? 0 then kfree mem ;;; ret (inr (-1)) else ret (inl (u64 (i + PGSIZE)))) Q s1.
Proof.
  intros Hal Hi Hv Hc HQ Hfail. pose proof (fr_sz Hr) as Hsz. assert (MAXVA = 2 ^ 38) as HM by done.
  pose proof (flags_range (pte_at m t1 i)) as Hfl. rewrite s32_id by lia. apply wp_bind.
  destruct ps1 as [|q ps1].
  { eapply wp_of_eq; [apply kalloc_spec_nil, Hc|]. cbn. apply wp_ret, Hfail. intros x Hx. by apply (cp_frame _ _ _ _ Hc). }
  destruct (kalloc_spec_cons _ _ _ (cp_inv _ _ _ _ Hc)) as (s1k & Hk & I1 & Hm1 & Hqp & Hq).
  eapply wp_of_eq; [exact Hk|]. pose proof (page_ok_pos _ Hqp) as Hqpos. rewrite (proj2 (Z.eqb_neq q 0)) by lia.
  apply wp_bind, wp_modify. set (s2 := KMem _ _).
  assert (km_mem s2 = memmove (km_mem s1) q (PTE2PA (pte_at m t1 i)) PGSIZE) as Hm2 by (unfold s2; cbn; by rewrite Hm1).
  assert (kmem_inv s2 ps1) as I2.
  { apply kmem_inv_frame; [done|]. intros p x Hp Hx. rewrite <- Hm1 in Hm2. rewrite rd8_memmove by (unfold PGSIZE; lia).
    rewrite decide_False; [done|]. pose proof (proj1 (Forall_forall _ _) (inv_pages _ _ I1) p Hp) as (Hpal & _).
    assert (p <> q) as Hpq by (intros ->; done). pose proof (page_disjoint p q Hpal (proj1 Hqp) Hpq).
    unfold PGSIZE in *. lia. }
  assert (pt_wf (km_mem s2) new t') as W2.
  { apply (pt_wf_frame (km_mem s1)); [apply Hc|]. intros sl p Hp x. by apply (page_table i s1 q ps1 t' s2 Hc Hm2 sl). }
  assert (pt_apart t' ps1) as A2 by (intros sl p Hp Hin; apply (cp_apart _ _ _ _ Hc sl p Hp); by right).
  assert (forall a, pte_at (km_mem s2) t' a = pte_at (km_mem s1) t' a) as E2.
  { intros a. apply pte_at_frame. intros sl p Hp x. by apply (page_table i s1 q ps1 t' s2 Hc Hm2 sl). }
  assert (i + PGSIZE <= MAXVA) as Hmax by (unfold PGSIZE; rewrite HM in *; dlia).
  apply wp_bind. eapply wp_mono.
  { apply (mappages_wp s2 ps1 new t' i PGSIZE q (PTE_FLAGS (pte_at m t1 i)));
      [exact I2|exact W2|exact A2|lia|unfold PGSIZE; lia|exact Hmax|lia|unfold PGSIZE; lia|exact Hfl|]. unfold PGSIZE in *.
    intros a Ha. assert (i <= a < i + 4096) as Ha' by (clear -Ha Hal; dlia). rewrite E2, (cp_rest _ _ _ _ Hc) by lia. apply (fr_unmapped Hr); [lia|].
    clear -Ha' Hi Hal. dlia. }
  cbn beta. replace (i - i mod 4096) with i by lia.
  replace (i + PGSIZE - 1 - (i + PGSIZE - 1) mod 4096 + 4096) with (i + 4096) by (unfold PGSIZE; dlia).
  intros r s3 (ps3 & t3 & I3 & W3 & A3 & G & _ & Hres). destruct Hres as [[-> ->]|[-> E3]]; cbn [Z.ltb].
  - change (-1 <? 0) with true. cbn beta iota. apply wp_bind.
    destruct (kfree_spec q s3 [] I3 Hqp ltac:(apply not_elem_of_nil)) as (s4 & Hf & _ & Hfr).
    eapply wp_of_eq; [exact Hf|]. apply wp_ret, Hfail. intros x Hx. rewrite Hfr.
    + by apply (page_outside i s1 q ps1 t' s2 s3 [] t3).
    + destruct (page_q i s1 q ps1 t' Hc) as (Hqin & _). pose proof (proj1 Hx q Hqin). unfold in_page, PGSIZE in *. lia.
  - change (0 <? 0) with false. cbn beta iota. apply wp_ret. rewrite u64_id by (unfold PGSIZE in *; lia).
    apply (HQ s3 ps3 t3). by apply (copying_page i s1 q ps1 t' s2 s3 ps3 t3).
Qed.

Lemma uvmcopy_wp :
  wp (uvmcopy old new sz) (fun r s' =>
    (r = 0 /\ exists i ps' t', sz <= i /\ copying i s' ps' t') \/ (r = -1 /\ parent_kept s')) s.
Proof.
  pose proof (fr_sz Hr) as Hsz. assert (MAXVA = 2 ^ 38) as HM by done. unfold uvmcopy.
  apply (wp_loop _ _ (fun n i s1 => n = Z.to_nat ((sz - i + 4095) / 4096) /\ i mod 4096 = 0 /\ 0 <= i /\
    i < sz + 4096 /\ exists ps1 t', copying i s1 ps1 t') _ (Z.to_nat ((sz + 4095) / 4096))).
  - intros n i s1 (-> & Hal & Hi & Hub & ps1 & t' & Hc). destruct (copying_old _ _ _ _ Hc) as [Wold Eold].
    unfold uvmcopy_body. destruct (Z.ltb_spec i sz) as [Hlt|Hge]; cbn [negb].
    2: { apply wp_ret. left. split; [done|]. by exists i, ps1, t'. }
    assert (vbit (pte_at m t1 i) = false -> exists n', (n' < Z.to_nat ((sz - i + 4095) / 4096))%nat /\
      n' = Z.to_nat ((sz - u64 (i + PGSIZE) + 4095) / 4096) /\ u64 (i + PGSIZE) mod 4096 = 0 /\ 0 <= u64 (i + PGSIZE) /\
      u64 (i + PGSIZE) < sz + 4096 /\ exists ps1 t', copying (u64 (i + PGSIZE)) s1 ps1 t') as Hskip.
    { intros Hv. rewrite u64_id by (unfold PGSIZE; lia). eexists. split; [|split; [reflexivity|]]; [unfold PGSIZE; dlia|].
      split; [unfold PGSIZE; dlia|]. split; [unfold PGSIZE; lia|]. split; [unfold PGSIZE; lia|]. exists ps1, t'. by apply copying_skip. }
    apply wp_bind. eapply wp_of_eq; [apply (walk_noalloc s1 old t1 i); [done|lia]|].
    specialize (Eold i). unfold pte_at at 1 in Eold. destruct (pte_addr t1 i) as [a|] eqn:Ha; cbn [default].
    2: { apply wp_ret, Hskip. by rewrite <- Eold. }
    change (id a) with a. rewrite (proj2 (Z.eqb_neq a 0)) by (by eapply pte_addr_pos).
    apply wp_bind, wp_gets. rewrite Eold. fold (vbit (pte_at m t1 i)).
    destruct (vbit (pte_at m t1 i)) eqn:Hv; cbn [negb]; [|by apply wp_ret, Hskip].
    apply (uvmcopy_page_wp i s1 ps1 t'); [done|done|done|done| |].
    + intros s' ps' t'' Hc'. exists (Z.to_nat ((sz - (i + PGSIZE) + 4095) / 4096)). unfold PGSIZE in *.
      split; [dlia|]. split; [done|]. split; [dlia|]. split; [lia|]. split; [lia|]. by exists ps', t''.
    + intros s' Hk. by right.
  - rewrite Z.sub_0_r. split; [done|]. split; [done|]. split; [lia|]. split; [lia|]. exists ps, t2. exact copying_start.
  - unfold PGSIZE. dlia.
Qed.
End uvmcopy.

Section theorems.
Context `{Image} `{!ImageOk}.

Lemma vbit_flags pte : vbit pte = true -> Z.lor (PTE_FLAGS pte) PTE_V = PTE_FLAGS pte.
Proof.
  intros Hv. change PTE_V with (2 ^ 0). unfold vbit, has in Hv. change PTE_V with (2 ^ 0) in Hv.
  assert (Z.testbit pte 0 = true) as Hb.
  { destruct (Z.testbit pte 0) eqn:E; [done|]. rewrite (proj2 (Z.eqb_eq _ 0)) in Hv; [done|].
    apply Z.bits_inj'. intros n Hn. rewrite Z.land_spec, Z.bits_0, Z.pow2_bits_eqb by lia.
    destruct (Z.eqb_spec 0 n) as [<-|]; [by rewrite E|by rewrite andb_false_r]. }
  apply Z.bits_inj'. intros n Hn. unfold PTE_FLAGS. rewrite Z.lor_spec, Z.land_spec, Z.pow2_bits_eqb by lia.
  destruct (Z.eqb_spec 0 n) as [<-|]; [by rewrite Hb|by rewrite orb_false_r].
Qed.

(** A fresh page filled with zeroes is an empty table for the child. *)
Lemma fork_ready_new s q ps old t1 sz :
  kmem_inv s (q :: ps) -> pt_wf (km_mem s) old t1 -> pt_apart t1 (q :: ps) -> 0 <= sz <= MAXVA ->
  (forall a, 0 <= a < sz -> vbit (pte_at (km_mem s) t1 a) = true -> PTE2PA (pte_at (km_mem s) t1 a) ∉ q :: ps) ->
  exists s', kalloc s = Ok q s' /\
    fork_ready (KMem (memset (km_mem s') q 0 PGSIZE) (free_mem_list s')) ps old t1 q (tnew q) sz /\
    forall a, pte_at (memset (km_mem s') q 0 PGSIZE) t1 a = pte_at (km_mem s) t1 a.
Proof.
  intros Hinv Hold Hap Hsz Hfr. destruct (kalloc_spec_cons s q ps Hinv) as (s1 & Hk & I1 & Hm & Hq & Hni).
  exists s1. split; [done|]. set (m' := memset _ _ _ _).
  assert (forall x, rd8 m' x = if decide (q <= x < q + PGSIZE) then 0 else rd8 (km_mem s1) x) as Hx
    by (intros x; unfold m'; by rewrite rd8_memset by (unfold PGSIZE; lia)).
  assert (forall sl p, t1 sl = Some p -> forall x, in_page p x -> rd8 m' x = rd8 (km_mem s) x) as Hkeep.
  { intros sl p Hp x Hpx. rewrite Hx, Hm, decide_False; [done|]. intros Hqx.
    pose proof (wf_page _ _ _ Hold _ _ Hp) as (Hal & _).
    rewrite (in_page_eq p q x Hal (proj1 Hq) Hpx Hqx) in Hp. apply (Hap sl q Hp). by left. }
  assert (forall a, pte_at m' t1 a = pte_at (km_mem s) t1 a) as Hpte by (intros a; by apply pte_at_frame).
  split; [|exact Hpte]. split; cbn [km_mem]; fold m'.
  - by apply (zero_page_inv s1 ps q m').
  - by apply (pt_wf_frame (km_mem s)).
  - apply tnew_wf; [done|]. intros x Hqx. by rewrite Hx, decide_True by done.
  - intros sl p Hp Hin. apply (Hap sl p Hp). by right.
  - by apply tnew_apart.
  - intros sl sl' p Hp [_ ->]%tnew_inv. apply (Hap sl q Hp). by left.
  - intros a Ha. rewrite Hpte. intros Hv. specialize (Hfr a Ha Hv). apply not_elem_of_cons in Hfr as [Hne Hnp].
    split; [done|]. by intros sl [_ ?]%tnew_inv.
  - intros a _ _. by rewrite tnew_pte.
  - done.
Qed.

(** C13: [uvmcopy] leaves the parent's mappings and pages as they are, and when
    it returns 0 every mapped page of the parent is mapped in the child with the
    same flags to a page of its own, taken from the free list, that holds the
    same bytes; pages the parent lacks stay unmapped. It fails only with -1,
    and then too the parent keeps its pages. *)
Theorem uvmcopy_isolates s ps old t1 new t2 sz :
  fork_ready s ps old t1 new t2 sz ->
  exists r s', uvmcopy old new sz s = Ok r s' /\
    (forall a, 0 <= a < sz -> pte_of s' old a = pte_of s old a /\
       (vbit (pte_of s old a) = true -> forall k, 0 <= k < PGSIZE ->
          rd8 (km_mem s') (PTE2PA (pte_of s old a) + k) = rd8 (km_mem s) (PTE2PA (pte_of s old a) + k))) /\
    (r = -1 \/ r = 0 /\
     (forall a, 0 <= a < sz -> vbit (pte_of s old a) = false -> pte_of s' new a = pte_of s new a) /\
     (forall a, 0 <= a < sz -> vbit (pte_of s old a) = true ->
        let q := PTE2PA (pte_of s' new a) in
        q ∈ ps /\ PTE_FLAGS (pte_of s' new a) = PTE_FLAGS (pte_of s old a) /\
        forall k, 0 <= k < PGSIZE -> rd8 (km_mem s') (q + k) = rd8 (km_mem s) (PTE2PA (pte_of s old a) + k)) /\
     (forall a b, 0 <= a < sz -> 0 <= b < sz -> vbit (pte_of s old a) = true -> vbit (pte_of s old b) = true ->
        PTE2PA (pte_of s' new a) = PTE2PA (pte_of s' new b) -> a / 4096 = b / 4096)).
Proof.
  intros Hr. pose proof (fr_sz _ _ _ _ _ _ _ Hr) as Hsz. assert (MAXVA = 2 ^ 38) as HM by done.
  destruct (wp_inv _ _ _ (uvmcopy_wp s ps old t1 new t2 sz Hr)) as (r & s' & Heq & Hres).
  exists r, s'. split; [exact Heq|].
  assert (parent_kept s ps t2 s') as Hk.
  { destruct Hres as [(_ & i & ps' & t' & _ & Hc)|[_ Hk]]; [|done]. intros x Hx. by apply (cp_frame _ _ _ _ _ _ _ _ _ Hc). }
  assert (forall sl p, t1 sl = Some p -> forall x, in_page p x -> rd8 (km_mem s') x = rd8 (km_mem s) x) as Hf.
  { intros sl p Hp x Hx. apply Hk. by eapply outside_old. }
  pose proof (pt_wf_frame _ _ _ _ (fr_old _ _ _ _ _ _ _ Hr) Hf) as Hold.
  assert (forall a, a < sz -> pte_of s old a = pte_at (km_mem s) t1 a) as Eo.
  { intros a Ha. apply pte_of_at; [apply Hr|lia]. }
  split.
  { intros a Ha. rewrite (pte_of_at s' old t1), Eo, (pte_at_frame (km_mem s)) by (done || lia).
    split; [done|]. intros Hv k Hkk. apply Hk. eapply outside_frame; [done..|]. unfold in_page. lia. }
  destruct Hres as [(-> & i & ps' & t' & Hi & Hc)|[-> _]]; [right|by left]. split; [done|].
  assert (forall a, a < sz -> pte_of s' new a = pte_at (km_mem s') t' a) as En.
  { intros a Ha. apply pte_of_at; [apply Hc|lia]. }
  split; [|split].
  - intros a Ha Hv. rewrite Eo in Hv by lia. rewrite En, (pte_of_at s new t2) by (lia || apply Hr).
    apply (cp_rest _ _ _ _ _ _ _ _ _ Hc); [lia|by right].
  - intros a Ha Hv. rewrite Eo in Hv by lia. rewrite En, !Eo by lia.
    destruct (cp_done _ _ _ _ _ _ _ _ _ Hc a ltac:(lia) ltac:(lia) Hv) as [q [Hq _ _ Hpte Hb]].
    rewrite Hpte. pose proof (flags_range (pte_at (km_mem s) t1 a)) as Hfl.
    pose proof (ps_page _ _ _ _ _ _ _ Hr q Hq) as Hqp.
    rewrite leaf_pte_pa by done. split; [done|]. split; [|done].
    unfold leaf_pte. pose proof (page_ok_pos _ Hqp). rewrite vbit_flags by done. apply PTE_FLAGS_lor; lia.
  - intros a b Ha Hb Hva Hvb. rewrite Eo in Hva, Hvb by lia. rewrite !En by lia.
    apply (cp_inj _ _ _ _ _ _ _ _ _ Hc); lia || done.
Qed.
End theorems.

Section witnesses.
#[local] Existing Instance sample_image.
#[local] Existing Instance sample_image_ok.

(** A parent with one page, at [KERNBASE], and a child with an empty table. *)
Lemma sample_fork :
  exists s ps old t1 new, fork_ready s ps old t1 new (tnew new) (KERNBASE + 4096) /\
    vbit (pte_at (km_mem s) t1 KERNBASE) = true.
Proof.
  destruct sample_table as (s & m0 & ps0 & Hst & Hnd & Hr & Hl).
  set (perm := Z.lor PTE_R PTE_U).
  assert (MAXVA = 274877906944 /\ KERNBASE = 2147483648 /\ PHYSTOP = 2281701376)
    as (EM & EK & EP) by (vm_compute; tauto).
  destruct (wp_inv _ _ _ (kvm_map _ m0 ps0 _ s KERNBASE 4096 perm Hnd Hr Hl Hst
    ltac:(lia) eq_refl ltac:(lia) eq_refl ltac:(lia)
    ltac:(split; [apply Z.leb_le|apply Z.ltb_lt]; reflexivity)
    ltac:(unfold kernel_va; intros; lia) ltac:(reflexivity)))
    as (r & s1 & _ & ps & t & I & W & A & G & E).
  destruct ps as [|q ps].
  { pose proof (grow_count _ _ _ _ _ _ _ Hnd Hr G kernel_slots_path). lia. }
  assert (PTE2PA (leaf_pte KERNBASE perm) = KERNBASE) as Hpa by (vm_compute; reflexivity).
  destruct (fork_ready_new s1 q ps (PHYSTOP - PGSIZE) t (KERNBASE + 4096) I W A ltac:(lia)) as (s2 & _ & Hf & Hp).
  - intros a Ha. rewrite E by lia. unfold fmap_range, in_range.
    destruct (Z.leb_spec KERNBASE a); cbn [andb]; [|intros Hv; vm_compute in Hv; discriminate].
    rewrite (proj2 (Z.ltb_lt a (KERNBASE + 4096))) by lia. intros _.
    assert (a / 4096 * 4096 = KERNBASE) as -> by (rewrite EK in *; dlia). rewrite Hpa. intros Hin.
    pose proof (proj1 (Forall_forall _ _) (inv_pages _ _ I) _ Hin) as (_ & Hlo & _).
    change end_address with 2281177088 in Hlo. lia.
  - do 5 eexists. split; [exact Hf|]. cbn [km_mem]. rewrite Hp, E by lia. vm_compute. reflexivity.
Qed.

Lemma uvmcopy_isolates_witness : exists s old new r s', uvmcopy old new (KERNBASE + 4096) s = Ok r s'.
Proof.
  destruct sample_fork as (s & ps & old & t1 & new & Hf & _).
  destruct (uvmcopy_isolates s ps old t1 new (tnew new) (KERNBASE + 4096) Hf) as (r & s' & Hrun & _).
  exists s, old, new, r, s'. exact Hrun.
Defined.
End witnesses.
