(* ===== verification/Str.v ===== *)
(** The kernel's C string routines: [strlen] and [safestrcpy] of
    [kernel/syscall/syscall.c], [kernel_strlen] of [kernel/syscall/sysproc.c],
    [strncmp] and [namecmp] of [kernel/fs/fs.c].

    A C string is the list of the bytes from the pointer on; past the end of the
    list there is the NUL that ends the string. *)

From S2P Require Import Prelude.

Definition DIRSIZ : nat := 14.

(** [*s] *)
Definition chr (s : list Z) : Z := hd 0 s.

Fixpoint strlen (s : list Z) : Z :=
  match s with
  | [] => 0
  | c :: s' => if c =? 0 then 0 else 1 + strlen s'
  end.

(** [kernel_strlen] is the same loop. *)
Definition kernel_strlen (s : list Z) : Z := strlen s.

(** The [while] of [safestrcpy]: [n] is the value of the counter, [i] how far
    [s] has advanced into the destination array [a]. *)
Fixpoint safestrcpy_loop (n i : nat) (a t : list Z) : list Z :=
  match n with
  | O => <[i := 0]> a
  | S O => <[i := 0]> a
  | S n' =>
      let a := <[i := chr t]> a in
      if chr t =? 0 then <[S i := 0]> a
      else safestrcpy_loop n' (S i) a (tl t)
  end.

(** [safestrcpy(s, t, n)]: the contents of the array [s] afterwards. *)
Definition safestrcpy (s t : list Z) (n : Z) : list Z :=
  if n <=? 0 then s else safestrcpy_loop (Z.to_nat n) 0 s t.

(** [strncmp(p, q, n)] *)
Fixpoint strncmp (p q : list Z) (n : nat) : Z :=
  match n with
  | O => 0
  | S n' =>
      if negb (chr p =? 0) && (chr p =? chr q) then strncmp (tl p) (tl q) n'
      else chr p - chr q
  end.

Definition namecmp (s t : list Z) : Z := strncmp s t DIRSIZ.

(* ------------------------------------------------------------------ *)
(** ** What they compute *)

Lemma cstr_chr s : cstr s = if chr s =? 0 then [] else chr s :: cstr (tl s).
Proof. by destruct s as [|c s]. Qed.

Lemma strlen_cstr s : strlen s = Z.of_nat (length (cstr s)).
Proof.
  induction s as [|c s IH]; [done|]. cbn [strlen cstr].
  destruct (c =? 0); [done|]. cbn [length]. rewrite IH. lia.
Qed.

Lemma strlen_app_zero t r : Forall (fun c => c <> 0) t -> strlen (t ++ 0 :: r) = Z.of_nat (length t).
Proof. intros. by rewrite strlen_cstr, cstr_app_zero. Qed.

(** Two strings compare equal exactly when they agree on their first [n] bytes. *)
Lemma strncmp_eq p q n :
  strncmp p q n = 0 <-> take n (cstr p) = take n (cstr q).
Proof.
  revert p q. induction n as [|n IH]; intros p q; [done|]. cbn [strncmp].
  rewrite (cstr_chr p), (cstr_chr q).
  destruct (Z.eqb_spec (chr p) 0) as [Hp|Hp]; cbn [negb andb].
  - rewrite Hp. destruct (Z.eqb_spec (chr q) 0) as [Hq|Hq].
    + rewrite Hq. done.
    + cbn [take]. split; [lia|done].
  - destruct (Z.eqb_spec (chr q) 0) as [Hq|Hq].
    + rewrite Hq. rewrite (proj2 (Z.eqb_neq (chr p) 0)) by done. cbn [take].
      split; [lia|done].
    + cbn [take]. destruct (Z.eqb_spec (chr p) (chr q)) as [He|He].
      * rewrite IH, He. split; [by intros ->|]. by intros [= ->].
      * split; [lia|]. intros [= Heq _]. lia.
Qed.

(** [safestrcpy] only writes to the first [n] bytes, and leaves there the
    longest prefix of [t] that fits before the terminator. *)
Lemma length_safestrcpy s t n : length (safestrcpy s t n) = length s.
Proof.
  unfold safestrcpy. destruct (n <=? 0); [done|]. generalize (Z.to_nat n) 0%nat. clear n.
  intros n. revert s t. induction n as [|n IH]; intros s t i; cbn [safestrcpy_loop].
  - by rewrite length_insert.
  - destruct n as [|n]; [by rewrite length_insert|].
    destruct (chr t =? 0); [by rewrite !length_insert|]. rewrite IH. by rewrite length_insert.
Qed.

Lemma safestrcpy_loop_lookup n i a t j :
  (0 < n)%nat -> (i + n <= length a)%nat ->
  safestrcpy_loop n i a t !! j =
    let k := length (take (n - 1) (cstr t)) in
    if decide (i <= j < i + k)%nat then cstr t !! (j - i)%nat
    else if decide (j = i + k)%nat then Some 0
    else if decide (j = i + k + 1 /\ k < n - 1)%nat then Some 0
    else a !! j.
Proof.
  revert i a t. induction n as [|n IH]; intros i a t Hn Hle; [lia|].
  destruct n as [|n].
  - cbn zeta. change (take (1 - 1) (cstr t)) with (@nil Z). cbn [safestrcpy_loop length].
    rewrite list_lookup_insert. repeat case_decide; try lia; done.
  - remember (S n) as n1 eqn:Hn1. cbn zeta.
    assert (safestrcpy_loop (S n1) i a t =
      if chr t =? 0 then <[S i := 0]> (<[i := chr t]> a)
      else safestrcpy_loop n1 (S i) (<[i := chr t]> a) (tl t)) as -> by (by subst n1).
    rewrite (cstr_chr t). replace (S n1 - 1)%nat with n1 by lia.
    destruct (Z.eqb_spec (chr t) 0) as [Ht|Ht].
    + rewrite Ht, take_nil. cbn [length]. rewrite !list_lookup_insert, length_insert.
      repeat case_decide; try lia; done.
    + rewrite IH by (rewrite ?length_insert; lia). cbn zeta.
      assert (take n1 (chr t :: cstr (tl t)) = chr t :: take (n1 - 1) (cstr (tl t))) as ->
        by (subst n1; cbn; by rewrite Nat.sub_0_r).
      cbn [length]. rewrite list_lookup_insert.
      repeat case_decide; try lia; try done.
      * replace (j - i)%nat with (S (j - S i)) by lia. done.
      * by replace (j - i)%nat with 0%nat by lia.
Qed.

Lemma safestrcpy_lookup s t n j :
  0 < n -> n <= Z.of_nat (length s) ->
  safestrcpy s t n !! j =
    let k := length (take (Z.to_nat n - 1) (cstr t)) in
    if decide (j < k)%nat then cstr t !! j
    else if decide (j = k)%nat then Some 0
    else if decide (j = k + 1 /\ k < Z.to_nat n - 1)%nat then Some 0
    else s !! j.
Proof.
  intros Hn Hle. unfold safestrcpy. rewrite (proj2 (Z.leb_gt n 0)) by lia.
  rewrite safestrcpy_loop_lookup by lia. cbn zeta. rewrite !Nat.add_0_l, Nat.sub_0_r.
  repeat case_decide; try lia; done.
Qed.

(** The string left in the destination is [t] cut to [n - 1] bytes. *)
Lemma cstr_safestrcpy s t n :
  0 < n -> n <= Z.of_nat (length s) ->
  cstr (safestrcpy s t n) = take (Z.to_nat n - 1) (cstr t).
Proof.
  intros Hn Hle. set (k := length (take (Z.to_nat n - 1) (cstr t))).
  assert (k <= Z.to_nat n - 1)%nat as Hk by (unfold k; rewrite length_take; lia).
  assert (safestrcpy s t n =
    take (Z.to_nat n - 1) (cstr t) ++ 0 :: drop (S k) (safestrcpy s t n)) as ->.
  { apply list_eq. intros j. rewrite safestrcpy_lookup by done. cbn zeta. fold k.
    case_decide as H1.
    - rewrite lookup_app_l by done. rewrite lookup_take_lt by lia. done.
    - rewrite lookup_app_r by (fold k; lia). fold k. case_decide as H2.
      + by replace (j - k)%nat with 0%nat by lia.
      + replace (j - k)%nat with (S (j - S k)) by lia. cbn [lookup]. cbn.
        rewrite lookup_drop. replace (S k + (j - S k))%nat with j by lia.
        rewrite safestrcpy_lookup by done. cbn zeta. fold k.
        rewrite (decide_False (P := (j < k)%nat)), (decide_False (P := j = k)) by lia.
        done. }
  apply cstr_app_zero. apply Forall_take, cstr_nonzero.
Qed.
