(* ===== verification/Bio.v ===== *)
(** The block buffer cache, [kernel/fs/bio.c]: thirty buffers on a circular
    doubly linked LRU list, and the block bitmap allocator on top of it. *)

From S2P Require Import Prelude Memory.

(* ------------------------------------------------------------------ *)
(** ** The disk below *)

(** The block device the driver talks to: the kernel reads and writes one block
    of two sectors at a time. The device is not part of the kernel. *)
Class BlockDev (D : Type) := {
  dev_read : D -> Z -> list Z;
  dev_write : D -> Z -> list Z -> D;
}.

Definition is_block (d : list Z) : Prop := length d = Z.to_nat BSIZE /\ Forall is_byte d.

(** A disk keeps what is written to a block and leaves the other blocks alone. *)
Class BlockDevOk (D : Type) `{BlockDev D} : Prop := {
  dev_block : forall (d : D) s, is_block (dev_read d s);
  dev_same : forall (d : D) s data, is_block data -> dev_read (dev_write d s data) s = data;
  dev_other : forall (d : D) s s' data, s <> s' -> s mod 2 = 0 -> s' mod 2 = 0 ->
    dev_read (dev_write d s data) s' = dev_read d s';
}.

Record superblock := SuperBlock {
  sb_magic : Z; sb_size : Z; sb_nblocks : Z; sb_ninodes : Z;
  sb_nlog : Z; sb_logstart : Z; sb_inodestart : Z; sb_bmapstart : Z;
}.

(** [struct buf]; a buffer pointer is an index in [bcache.buf], and [HEAD] is
    [&bcache.head]. *)
Record buf := Buf {
  b_valid : Z; b_disk : Z; b_dev : Z; b_blockno : Z; b_refcnt : Z;
  b_prev : nat; b_next : nat; b_data : list Z;
}.
Definition HEAD : nat := NBUF.

(** [bcache] holds [buf[0..NBUF-1]] and then [head]; [bio_count] counts the
    requests given to the disk driver. *)
Record bio (D : Type) := Bio {
  bcache : list buf; bdisk : D; sb : superblock; bio_count : Z;
}.
Arguments Bio {D}.
Arguments bcache {D}.
Arguments bdisk {D}.
Arguments sb {D}.
Arguments bio_count {D}.

Definition BPB : Z := BSIZE * 8.

Definition buf_set_valid v b := Buf v (b_disk b) (b_dev b) (b_blockno b) (b_refcnt b)
  (b_prev b) (b_next b) (b_data b).
Definition buf_set_disk v b := Buf (b_valid b) v (b_dev b) (b_blockno b) (b_refcnt b)
  (b_prev b) (b_next b) (b_data b).
Definition buf_set_id dev bno b := Buf (b_valid b) (b_disk b) dev bno (b_refcnt b)
  (b_prev b) (b_next b) (b_data b).
Definition buf_set_refcnt v b := Buf (b_valid b) (b_disk b) (b_dev b) (b_blockno b) v
  (b_prev b) (b_next b) (b_data b).
Definition buf_set_prev v b := Buf (b_valid b) (b_disk b) (b_dev b) (b_blockno b) (b_refcnt b)
  v (b_next b) (b_data b).
Definition buf_set_next v b := Buf (b_valid b) (b_disk b) (b_dev b) (b_blockno b) (b_refcnt b)
  (b_prev b) v (b_data b).
Definition buf_set_data v b := Buf (b_valid b) (b_disk b) (b_dev b) (b_blockno b) (b_refcnt b)
  (b_prev b) (b_next b) v.

Section bio.
Context {D : Type} `{BlockDev D}.

(** Dereferencing a buffer pointer, and assigning to a field. *)
Definition getb (b : nat) : M (bio D) buf :=
  fun s => match bcache s !! b with Some x => Ok x s | None => Stop (Fault "buf") end.
Definition setb (b : nat) (f : buf -> buf) : M (bio D) unit :=
  fun s => match bcache s !! b with
           | Some x => Ok tt (Bio (<[b := f x]> (bcache s)) (bdisk s) (sb s) (bio_count s))
           | None => Stop (Fault "buf")
           end.

(** [virtio_disk_rw(b, write)] as the cache sees it: the request for the sector
    of the block is issued and completes, [b->disk] is 0 again. The multiplication
    is in the 32-bit type of [b->blockno]. *)
Definition virtio_disk_rw (b : nat) (write : bool) : M (bio D) unit :=
  let! x := getb b in
  let sector := u32 (b_blockno x * (BSIZE / 512)) in
  (if write then
     modify (fun s => Bio (bcache s) (dev_write (bdisk s) sector (b_data x)) (sb s) (bio_count s))
   else
     let! s := get in setb b (buf_set_data (dev_read (bdisk s) sector))) ;;;
  setb b (buf_set_disk 0) ;;;
  modify (fun s => Bio (bcache s) (bdisk s) (sb s) (bio_count s + 1)).

(** Insertion at the head of the list, the four assignments of [binit]. *)
Definition insert_head (b : nat) : M (bio D) unit :=
  (let! h := getb HEAD in setb b (buf_set_next (b_next h))) ;;;
  (let! h := getb HEAD in setb (b_next h) (buf_set_prev b)) ;;;
  setb HEAD (buf_set_next b) ;;;
  setb b (buf_set_prev HEAD).

Definition binit : M (bio D) unit :=
  setb HEAD (buf_set_prev HEAD) ;;;
  setb HEAD (buf_set_next HEAD) ;;;
  for_range 0 NBUF insert_head.

(** The two scans of [bget]; the loop variable is [b]. *)
Definition bget_hit (dev blockno : Z) (b : nat) : M (bio D) (nat + option nat) :=
  if decide (b = HEAD) then ret (inr None)
  else
    let! x := getb b in
    if (b_dev x =? dev) && (b_blockno x =? blockno) then
      setb b (buf_set_refcnt (u32 (b_refcnt x + 1))) ;;; ret (inr (Some b))
    else ret (inl (b_next x)).
Definition bget_evict (dev blockno : Z) (b : nat) : M (bio D) (nat + option nat) :=
  if decide (b = HEAD) then ret (inr None)
  else
    let! x := getb b in
    if b_refcnt x =? 0 then
      setb b (buf_set_id dev blockno) ;;;
      setb b (buf_set_valid 0) ;;;
      setb b (buf_set_refcnt 1) ;;;
      ret (inr (Some b))
    else ret (inl (b_prev x)).

Definition bget (dev blockno : Z) : M (bio D) nat :=
  let! h := getb HEAD in
  let! r := loop (S NBUF) (bget_hit dev blockno) (b_next h) in
  match r with
  | Some b => ret b
  | None =>
      let! h := getb HEAD in
      let! r := loop (S NBUF) (bget_evict dev blockno) (b_prev h) in
      match r with
      | Some b => ret b
      | None => panic "bget: no buffers"
      end
  end.

Definition bread (dev blockno : Z) : M (bio D) nat :=
  let! b := bget dev blockno in
  let! x := getb b in
  when (b_valid x =? 0) (setb b (buf_set_valid 1) ;;; virtio_disk_rw b false) ;;;
  ret b.

Definition bwrite (b : nat) : M (bio D) unit := virtio_disk_rw b true.

Definition brelse (b : nat) : M (bio D) unit :=
  (let! x := getb b in setb b (buf_set_refcnt (u32 (b_refcnt x - 1)))) ;;;
  let! x := getb b in
  when (b_refcnt x =? 0)
    ((let! x := getb b in setb (b_prev x) (buf_set_next (b_next x))) ;;;
     (let! x := getb b in setb (b_next x) (buf_set_prev (b_prev x))) ;;;
     (let! h := getb HEAD in setb b (buf_set_next (b_next h))) ;;;
     (let! h := getb HEAD in setb (b_next h) (buf_set_prev b)) ;;;
     setb b (buf_set_prev HEAD) ;;;
     setb HEAD (buf_set_next b)).

(** [bp->data = ...; bwrite(bp)]. *)
Definition bstore (b : nat) (data : list Z) : M (bio D) unit :=
  setb b (buf_set_data data) ;;; bwrite b.

Definition bzero (dev bno : Z) : M (bio D) unit :=
  let! bp := bread dev bno in
  bstore bp (replicate (Z.to_nat BSIZE) 0) ;;;
  brelse bp.

(** [BMAP_BLOCK(b, sb)]. *)
Definition BMAP_BLOCK (b : Z) (sb : superblock) : Z := u32 (b / BPB + sb_bmapstart sb).

(** The inner loop of [balloc] over the bits of one bitmap block; the loop
    variable is [bi], the result the block allocated. *)
Definition balloc_bit (dev : Z) (b : Z) (bp : nat) (bi : Z) : M (bio D) (Z + option Z) :=
  let! s := get in
  if negb ((bi <? BPB) && (b + bi <? sb_size (sb s))) then ret (inr None)
  else
    let m := Z.shiftl 1 (bi mod 8) in
    let! x := getb bp in
    let v := zget (b_data x) (bi / 8) in
    if Z.land v m =? 0 then
      bstore bp (zset (b_data x) (bi / 8) (u8 (Z.lor v m))) ;;;
      brelse bp ;;;
      bzero dev (b + bi) ;;;
      ret (inr (Some (b + bi)))
    else ret (inl (bi + 1)).

(** The outer loop of [balloc]; the loop variable is [b]. *)
Definition balloc_block (dev : Z) (b : Z) : M (bio D) (Z + option Z) :=
  let! s := get in
  if negb (b <? sb_size (sb s)) then ret (inr None)
  else
    let! bp := bread dev (BMAP_BLOCK b (sb s)) in
    let! r := loop (S (Z.to_nat BPB)) (balloc_bit dev b bp) 0 in
    match r with
    | Some a => ret (inr (Some a))
    | None => brelse bp ;;; ret (inl (b + BPB))
    end.

Definition balloc (dev : Z) : M (bio D) Z :=
  let! s := get in
  let! r := loop (Z.to_nat (sb_size (sb s) / BPB) + 2) (balloc_block dev) 0 in
  match r with
  | Some a => ret a
  | None => panic "balloc: out of blocks"
  end.

Definition bfree (dev b : Z) : M (bio D) unit :=
  let! s := get in
  let! bp := bread dev (BMAP_BLOCK b (sb s)) in
  let bi := b mod BPB in
  let m := Z.shiftl 1 (bi mod 8) in
  let! x := getb bp in
  let v := zget (b_data x) (bi / 8) in
  if Z.land v m =? 0 then panic "bfree: freeing free block"
  else
    bstore bp (zset (b_data x) (bi / 8) (u8 (Z.land v (Z.lnot m)))) ;;;
    brelse bp.
End bio.

(* ------------------------------------------------------------------ *)
(** ** A disk in memory *)

(** A concrete device: the blocks written so far, by their first sector. *)
Abbreviation memdisk := (gmap Z (list Z)).
Definition to_block (d : list Z) : list Z := u8 <$> take (Z.to_nat BSIZE) (d ++ replicate (Z.to_nat BSIZE) 0).
#[global] Instance memdisk_dev : BlockDev memdisk := {
  dev_read d s := to_block (default [] (d !! s));
  dev_write d s data := <[s := data]> d;
}.

Lemma to_block_is_block d : is_block (to_block d).
Proof.
  unfold to_block, is_block. split.
  - rewrite length_fmap, length_take, length_app, length_replicate. lia.
  - apply Forall_fmap, Forall_true. intros x. apply u8_bounds.
Qed.

Lemma to_block_id d : is_block d -> to_block d = d.
Proof.
  intros [Hl Hb]. unfold to_block. rewrite take_app_length'; [|lia].
  rewrite <- (list_fmap_id d) at 2. apply list_fmap_ext. intros i x Hx.
  eapply Forall_lookup_1 in Hb; [|done]. by apply u8_id.
Qed.

#[global] Instance memdisk_ok : BlockDevOk memdisk.
Proof.
  split; cbn.
  - intros d s. apply to_block_is_block.
  - intros d s data Hb. rewrite lookup_insert_eq. by apply to_block_id.
  - intros d s s' data Hne _ _. by rewrite lookup_insert_ne.
Qed.

(** The buffer pool before [binit]: zeroed memory. *)
Definition buf0 : buf := Buf 0 0 0 0 0 0 0 (replicate (Z.to_nat BSIZE) 0).
Definition bio0 {D} (disk : D) (sb : superblock) : bio D :=
  Bio (replicate (S NBUF) buf0) disk sb 0.
