(* ===== verification/BioSpec.v ===== *)
(** What the block cache of [Bio.v] guarantees: the LRU list stays a doubly
    linked list of all buffers, a buffer holds the block it is named after, the
    contents agree with the disk, and the bitmap allocator on top of it. *)

From S2P Require Import Prelude Memory Bio.

(* ------------------------------------------------------------------ *)
(** ** The doubly linked list *)

Definition bnext (bufs : list buf) (i : nat) : option nat := b_next <$> bufs !! i.
Definition bprev (bufs : list buf) (i : nat) : option nat := b_prev <$> bufs !! i.
Definition link (bufs : list buf) (a b : nat) : Prop :=
  bnext bufs a = Some b /\ bprev bufs b = Some a.

(** From [a] through the buffers [l], in order, to [z]. *)
Fixpoint dll (bufs : list buf) (a : nat) (l : list nat) (z : nat) : Prop :=
  match l with
  | [] => link bufs a z
  | x :: l' => link bufs a x /\ dll bufs x l' z
  end.

Lemma dll_app bufs a l1 x l2 z :
  dll bufs a (l1 ++ x :: l2) z <-> dll bufs a l1 x /\ dll bufs x l2 z.
Proof.
  revert a. induction l1 as [|y l1 IH]; intros a; cbn; [done|]. rewrite IH. tauto.
Qed.

(** The list only depends on the [next] of its start and members and the [prev]
    of its members and end. *)
Lemma dll_frame bufs bufs' a l z :
  (forall x, x ∈ a :: l -> bnext bufs' x = bnext bufs x) ->
  (forall x, x ∈ l ++ [z] -> bprev bufs' x = bprev bufs x) ->
  dll bufs a l z -> dll bufs' a l z.
Proof.
  revert a. induction l as [|x l IH]; intros a Hn Hp Hd; cbn in *.
  - destruct Hd as [H1 H2]. split; [rewrite Hn by set_solver; done|].
    rewrite Hp by set_solver. done.
  - destruct Hd as [[H1 H2] Hd]. split.
    + split; [rewrite Hn by set_solver; done|]. rewrite Hp by set_solver. done.
    + apply IH; [| |done]; intros; [apply Hn|apply Hp]; set_solver.
Qed.

(** The LRU list: all the buffers between [HEAD] and [HEAD]. *)
Record lru_ok (bufs : list buf) (order : list nat) : Prop := {
  lru_len : length bufs = S NBUF;
  lru_perm : order ≡ₚ seq 0 NBUF;
  lru_dll : dll bufs HEAD order HEAD;
}.

Lemma lru_lt bufs order i : lru_ok bufs order -> i ∈ order -> (i < NBUF)%nat.
Proof. intros [_ Hp _]. rewrite Hp, elem_of_seq. lia. Qed.
Lemma lru_in bufs order i : lru_ok bufs order -> (i < NBUF)%nat -> i ∈ order.
Proof. intros [_ Hp _] Hi. rewrite Hp, elem_of_seq. lia. Qed.
Lemma lru_nodup bufs order : lru_ok bufs order -> NoDup order.
Proof. intros [_ Hp _]. rewrite Hp. apply NoDup_seq. Qed.
Lemma lru_length bufs order : lru_ok bufs order -> length order = NBUF.
Proof. intros [_ Hp _]. by rewrite Hp, length_seq. Qed.

Lemma bnext_insert_same bufs i f j :
  (forall x, b_next (f x) = b_next x) ->
  bnext (alter f i bufs) j = bnext bufs j.
Proof.
  intros Hf. unfold bnext. destruct (decide (i = j)) as [->|Hne].
  - rewrite list_lookup_alter_eq. destruct (bufs !! j); cbn; [by rewrite Hf|done].
  - by rewrite list_lookup_alter_ne.
Qed.
Lemma bprev_insert_same bufs i f j :
  (forall x, b_prev (f x) = b_prev x) ->
  bprev (alter f i bufs) j = bprev bufs j.
Proof.
  intros Hf. unfold bprev. destruct (decide (i = j)) as [->|Hne].
  - rewrite list_lookup_alter_eq. destruct (bufs !! j); cbn; [by rewrite Hf|done].
  - by rewrite list_lookup_alter_ne.
Qed.

(** Changing fields other than the links leaves the list alone. *)
Lemma lru_alter bufs order i f :
  (forall x, b_next (f x) = b_next x) -> (forall x, b_prev (f x) = b_prev x) ->
  lru_ok bufs order -> lru_ok (alter f i bufs) order.
Proof.
  intros Hn Hp [Hl Hpm Hd]. split; [by rewrite length_alter|done|].
  eapply dll_frame; [| |exact Hd]; intros.
  - by apply bnext_insert_same.
  - by apply bprev_insert_same.
Qed.

Lemma bnext_set_next bufs i v j :
  bnext (alter (buf_set_next v) i bufs) j =
    if decide (i = j) then (if decide (i < length bufs)%nat then Some v else None)
    else bnext bufs j.
Proof.
  unfold bnext. case_decide as Hd; [|by rewrite list_lookup_alter_ne].
  subst j. rewrite list_lookup_alter_eq. case_decide as Hl.
  - destruct (lookup_lt_is_Some_2 bufs i Hl) as [x ->]. done.
  - rewrite lookup_ge_None_2 by lia. done.
Qed.
Lemma bprev_set_prev bufs i v j :
  bprev (alter (buf_set_prev v) i bufs) j =
    if decide (i = j) then (if decide (i < length bufs)%nat then Some v else None)
    else bprev bufs j.
Proof.
  unfold bprev. case_decide as Hd; [|by rewrite list_lookup_alter_ne].
  subst j. rewrite list_lookup_alter_eq. case_decide as Hl.
  - destruct (lookup_lt_is_Some_2 bufs i Hl) as [x ->]. done.
  - rewrite lookup_ge_None_2 by lia. done.
Qed.
Lemma bnext_set_prev bufs i v j : bnext (alter (buf_set_prev v) i bufs) j = bnext bufs j.
Proof. by apply bnext_insert_same. Qed.
Lemma bprev_set_next bufs i v j : bprev (alter (buf_set_next v) i bufs) j = bprev bufs j.
Proof. by apply bprev_insert_same. Qed.
Create Rewrite HintDb dll.
#[export] Hint Rewrite bnext_set_next bprev_set_prev bnext_set_prev bprev_set_next
  @length_alter : dll.

Lemma last_cons {A} (x : A) l d : List.last (x :: l) d = List.last l x.
Proof.
  revert x d. induction l as [|y l IH]; intros x d; [done|].
  change (List.last (x :: y :: l) d) with (List.last (y :: l) d). by rewrite !IH.
Qed.
Lemma last_in {A} (x : A) l : List.last l x ∈ x :: l.
Proof.
  revert x. induction l as [|y l IH]; intros x; [set_solver|].
  rewrite last_cons. specialize (IH y). set_solver.
Qed.

Lemma dll_last bufs a l z : dll bufs a l z -> bprev bufs z = Some (List.last l a).
Proof.
  revert a. induction l as [|x l IH]; intros a Hd; cbn [dll] in *; [by destruct Hd|].
  destruct Hd as [_ Hd]. by rewrite (IH _ Hd), last_cons.
Qed.
Lemma dll_head bufs a l z : dll bufs a l z -> bnext bufs a = Some (hd z l).
Proof. by destruct l as [|x l]; [intros [? _]|intros [[? _] _]]. Qed.

(** Taking [b] out: its neighbours are linked to each other. *)
Lemma dll_unlink bufs bufs' a l1 b l2 z :
  dll bufs a l1 b -> dll bufs b l2 z ->
  NoDup (a :: l1 ++ b :: l2) -> NoDup (l1 ++ b :: l2 ++ [z]) ->
  (forall j, bnext bufs' j = if decide (j = List.last l1 a) then Some (hd z l2) else bnext bufs j) ->
  (forall j, bprev bufs' j = if decide (j = hd z l2) then Some (List.last l1 a) else bprev bufs j) ->
  dll bufs' a (l1 ++ l2) z.
Proof.
  revert a. induction l1 as [|y l1 IH]; intros a H1 H2 Hnd1 Hnd2 Hn Hp.
  - cbn [List.last app] in *. apply NoDup_cons in Hnd1 as [Ha Hnd1].
    apply NoDup_cons in Hnd2 as [Hb Hnd2].
    destruct l2 as [|x l2]; cbn [hd dll] in *.
    + split; [rewrite Hn|rewrite Hp]; by rewrite decide_True.
    + split.
      { split; [rewrite Hn|rewrite Hp]; by rewrite decide_True. }
      destruct H2 as [_ H2]. eapply dll_frame; [| |exact H2].
      * intros j Hj. rewrite Hn, decide_False; [done|]. set_solver.
      * intros j Hj. rewrite Hp, decide_False; [done|].
        apply NoDup_cons in Hnd2 as [Hx _]. set_solver.
  - cbn [dll app] in *. destruct H1 as [[Hay Hya] H1].
    apply NoDup_cons in Hnd1 as [Ha Hnd1]. apply NoDup_cons in Hnd2 as [Hy Hnd2].
    rewrite last_cons in *. pose proof (last_in y l1) as Hin.
    assert (hd z l2 ∈ l2 ++ [z]) as Hhd by (destruct l2; set_solver).
    split.
    + split.
      * rewrite Hn, decide_False; [done|]. intros ->. apply Ha. set_solver.
      * rewrite Hp, decide_False; [done|]. intros Heq. apply Hy. set_solver.
    + apply IH; done.
Qed.

(** Putting [b] in after [a]. *)
Lemma dll_insert_head bufs bufs' a b l z :
  dll bufs a l z -> NoDup (a :: l) -> NoDup (l ++ [z]) -> b ∉ a :: l -> b ∉ l ++ [z] ->
  bnext bufs' b = Some (hd z l) -> bprev bufs' (hd z l) = Some b ->
  bprev bufs' b = Some a -> bnext bufs' a = Some b ->
  (forall j, j <> b -> j <> a -> bnext bufs' j = bnext bufs j) ->
  (forall j, j <> b -> j <> hd z l -> bprev bufs' j = bprev bufs j) ->
  dll bufs' a (b :: l) z.
Proof.
  intros Hd Hnd1 Hnd2 Hb1 Hb2 H1 H2 H3 H4 Hn Hp. cbn [dll]. split; [by split|].
  destruct l as [|x l]; cbn [hd dll] in *; [by split|].
  destruct Hd as [_ Hd]. split; [by split|].
  apply NoDup_cons in Hnd1 as [Ha _]. apply NoDup_cons in Hnd2 as [Hx _].
  eapply dll_frame; [| |exact Hd]; intros j Hj; [apply Hn|apply Hp]; set_solver.
Qed.

(* ------------------------------------------------------------------ *)
(** ** Stepping through the code *)

Section spec.
Context {D : Type} `{BlockDev D}.
Implicit Types s : bio D.

Definition upd_bufs (g : list buf -> list buf) (s : bio D) : bio D :=
  Bio (g (bcache s)) (bdisk s) (sb s) (bio_count s).

Lemma insert_alter_eq {A} (l : list A) i x f : l !! i = Some x -> <[i := f x]> l = alter f i l.
Proof.
  intros Hx. apply list_eq. intros j. destruct (decide (i = j)) as [->|Hne].
  - rewrite list_lookup_alter_eq, list_lookup_insert_eq, Hx; [done|].
    by eapply lookup_lt_Some.
  - by rewrite list_lookup_alter_ne, list_lookup_insert_ne.
Qed.

Lemma getb_eq s b x : bcache s !! b = Some x -> getb b s = Ok x s.
Proof. intros Hx. unfold getb. by rewrite Hx. Qed.
Lemma setb_eq s b f :
  (b < length (bcache s))%nat -> setb b f s = Ok tt (upd_bufs (alter f b) s).
Proof.
  intros Hb. unfold setb. destruct (lookup_lt_is_Some_2 _ _ Hb) as [x Hx]. rewrite Hx.
  by rewrite (insert_alter_eq _ _ _ _ Hx).
Qed.
Lemma wp_getb s b (Q : buf -> bio D -> Prop) x :
  bcache s !! b = Some x -> Q x s -> wp (getb b) Q s.
Proof. intros Hx HQ. eapply wp_of_eq; [by apply getb_eq|done]. Qed.
Lemma wp_setb s b f (Q : unit -> bio D -> Prop) :
  (b < length (bcache s))%nat -> Q tt (upd_bufs (alter f b) s) -> wp (setb b f) Q s.
Proof. intros Hb HQ. eapply wp_of_eq; [by apply setb_eq|done]. Qed.

(** Reading the links of a buffer. *)
Lemma wp_next s b n {A} (k : buf -> M (bio D) A) (Q : A -> bio D -> Prop) :
  bnext (bcache s) b = Some n -> (forall x, b_next x = n -> wp (k x) Q s) ->
  wp (let! x := getb b in k x) Q s.
Proof.
  unfold bnext. intros Hn HQ. destruct (bcache s !! b) as [x|] eqn:Hx; [|done].
  injection Hn as Hn. apply wp_bind. eapply wp_getb; [done|]. by apply HQ.
Qed.
Lemma wp_prev s b n {A} (k : buf -> M (bio D) A) (Q : A -> bio D -> Prop) :
  bprev (bcache s) b = Some n -> (forall x, b_prev x = n -> wp (k x) Q s) ->
  wp (let! x := getb b in k x) Q s.
Proof.
  unfold bprev. intros Hn HQ. destruct (bcache s !! b) as [x|] eqn:Hx; [|done].
  injection Hn as Hn. apply wp_bind. eapply wp_getb; [done|]. by apply HQ.
Qed.

(** Only links differ. *)
Definition links_only (bufs bufs' : list buf) : Prop :=
  forall i, exists p n, bufs' !! i = (fun x => buf_set_prev p (buf_set_next n x)) <$> bufs !! i.

Lemma links_only_refl bufs : links_only bufs bufs.
Proof.
  intros i. exists (default 0%nat (b_prev <$> bufs !! i)), (default 0%nat (b_next <$> bufs !! i)).
  by destruct (bufs !! i) as [[]|].
Qed.
Lemma links_only_next bufs bufs' i v :
  links_only bufs bufs' -> links_only bufs (alter (buf_set_next v) i bufs').
Proof.
  intros Hl j. destruct (Hl j) as (p & n & Hj). destruct (decide (i = j)) as [->|Hne].
  - exists p, v. rewrite list_lookup_alter_eq, Hj. by destruct (bufs !! j).
  - exists p, n. by rewrite list_lookup_alter_ne.
Qed.
Lemma links_only_prev bufs bufs' i v :
  links_only bufs bufs' -> links_only bufs (alter (buf_set_prev v) i bufs').
Proof.
  intros Hl j. destruct (Hl j) as (p & n & Hj). destruct (decide (i = j)) as [->|Hne].
  - exists v, n. rewrite list_lookup_alter_eq, Hj. by destruct (bufs !! j).
  - exists p, n. by rewrite list_lookup_alter_ne.
Qed.

Lemma links_only_trans a b c : links_only a b -> links_only b c -> links_only a c.
Proof.
  intros H1 H2 i. destruct (H1 i) as (p1 & n1 & E1). destruct (H2 i) as (p2 & n2 & E2).
  exists p2, n2. rewrite E2, E1. by destruct (a !! i).
Qed.

(** Splits off the assignments of links. *)
Ltac links := unfold upd_bufs; cbn [bcache];
  repeat first [ refine (links_only_next _ _ _ _ _) | refine (links_only_prev _ _ _ _ _)
               | exact (links_only_refl _) ].

Lemma NoDup_snoc_HEAD l : NoDup l -> HEAD ∉ l -> NoDup (l ++ [HEAD]).
Proof. intros. apply NoDup_app. split; [done|]. split; [set_solver|]. apply NoDup_singleton. Qed.

(** The insertion at the head, in the order of the assignments of [binit]. *)
Lemma insert_head_wp s l b :
  length (bcache s) = S NBUF -> dll (bcache s) HEAD l HEAD ->
  NoDup l -> HEAD ∉ l -> b ∉ l -> (b < NBUF)%nat -> (forall x, x ∈ l -> (x < NBUF)%nat) ->
  wp (insert_head b) (fun _ s' => exists g, s' = upd_bufs g s /\
     length (g (bcache s)) = S NBUF /\ links_only (bcache s) (g (bcache s)) /\
     dll (g (bcache s)) HEAD (b :: l) HEAD) s.
Proof.
  intros Hlen Hd Hnd Hh Hb Hlt Hl. unfold HEAD in *.
  assert (hd NBUF l <= NBUF)%nat as Hhd by (destruct l as [|x l]; cbn; [lia|specialize (Hl x); set_solver by lia]).
  assert (hd NBUF l <> b) as Hhb by (destruct l; cbn; [lia|set_solver]).
  unfold insert_head. fold HEAD. unfold HEAD.
  apply wp_bind. eapply wp_next; [by apply (dll_head _ _ _ _ Hd)|]. intros x ->.
  apply wp_setb; [lia|]. cbn beta.
  apply wp_bind. eapply wp_next.
  { cbn [upd_bufs bcache]. rewrite bnext_set_next, decide_False by lia. by apply (dll_head _ _ _ _ Hd). }
  intros x' ->. apply wp_setb; [cbn; rewrite length_alter; lia|].
  apply wp_bind, wp_setb; [cbn; rewrite !length_alter; lia|].
  apply wp_setb; [cbn; rewrite !length_alter; lia|].
  exists (fun bufs => alter (buf_set_prev NBUF) b (alter (buf_set_next b) NBUF
    (alter (buf_set_prev b) (hd NBUF l) (alter (buf_set_next (hd NBUF l)) b bufs)))).
  split; [done|]. split; [by rewrite !length_alter|]. split; [links|].
  eapply dll_insert_head; [exact Hd|..].
  - by apply NoDup_cons.
  - by apply NoDup_snoc_HEAD.
  - apply not_elem_of_cons. split; [lia|done].
  - rewrite elem_of_app, list_elem_of_singleton. intros [?|?]; [done|lia].
  - autorewrite with dll. repeat case_decide; first [done|lia].
  - autorewrite with dll. repeat case_decide; first [done|lia].
  - autorewrite with dll. repeat case_decide; first [done|lia].
  - autorewrite with dll. repeat case_decide; first [done|lia].
  - intros j ? ?. autorewrite with dll. repeat case_decide; first [done|lia].
  - intros j ? ?. autorewrite with dll. repeat case_decide; first [done|lia].
Qed.

(** [binit] links all the buffers, the last one inserted first. *)
Lemma binit_wp s :
  length (bcache s) = S NBUF ->
  wp binit (fun _ s' => lru_ok (bcache s') (reverse (seq 0 NBUF)) /\
    links_only (bcache s) (bcache s') /\ bdisk s' = bdisk s /\ sb s' = sb s) s.
Proof.
  intros Hlen. unfold binit. apply wp_bind, wp_setb; [unfold HEAD; lia|].
  apply wp_bind, wp_setb; [cbn; rewrite length_alter; unfold HEAD; lia|].
  eapply wp_mono; [apply (wp_for_range _ (fun j s' =>
    length (bcache s') = S NBUF /\ dll (bcache s') HEAD (reverse (seq 0 j)) HEAD /\
    links_only (bcache s) (bcache s') /\ bdisk s' = bdisk s /\ sb s' = sb s))|].
  - intros j s1 Hj (Hl1 & Hd1 & Hlo1 & Hk1 & Hs1).
    assert (forall x, x ∈ reverse (seq 0 j) -> (x < j)%nat) as Hlt
      by (intros x; rewrite elem_of_reverse, elem_of_seq; lia).
    eapply wp_mono; [apply (insert_head_wp s1 (reverse (seq 0 j)) j)|].
    + done.
    + done.
    + rewrite reverse_Permutation. apply NoDup_seq.
    + intros Hin. apply Hlt in Hin. unfold HEAD in Hin. lia.
    + intros Hin. apply Hlt in Hin. lia.
    + lia.
    + intros x Hin. apply Hlt in Hin. lia.
    + intros [] s2 (g & -> & Hl2 & Hlo2 & Hd2). cbn [upd_bufs bcache bdisk sb].
      rewrite seq_S, reverse_snoc. split; [done|]. split; [done|]. split; [|done].
      by eapply links_only_trans.
  - cbn [upd_bufs bcache bdisk sb]. rewrite !length_alter. split; [done|].
    split; [|split; [links|done]]. cbn. split; autorewrite with dll; unfold HEAD;
      repeat case_decide; first [done|lia].
  - intros [] s' (Hl & Hd & Hlo & Hk & Hs). split; [|done]. split; [done|by rewrite reverse_Permutation|done].
Qed.

(* ------------------------------------------------------------------ *)
(** ** The scans of bget *)

Definition buf_is (dev bno : Z) (s : bio D) (i : nat) : bool :=
  match bcache s !! i with
  | Some x => (b_dev x =? dev) && (b_blockno x =? bno)
  | None => false
  end.
Definition buf_free (s : bio D) (i : nat) : bool :=
  match bcache s !! i with Some x => b_refcnt x =? 0 | None => false end.

Lemma loop_S {S X R} n (body : X -> M S (X + R)) x :
  loop (Datatypes.S n) body x =
  (let! r := body x in match r with inl x' => loop n body x' | inr r' => ret r' end).
Proof. done. Qed.

(** The forward scan finds the first match of the list. *)
Lemma bget_hit_scan s dev bno a l z n :
  dll (bcache s) a l z -> z = HEAD -> (forall x, x ∈ l -> x <> HEAD) -> (length l < n)%nat ->
  loop n (bget_hit dev bno) (hd z l) s =
    match find (buf_is dev bno s) l with
    | Some b => Ok (Some b) (upd_bufs (alter (fun x => buf_set_refcnt (u32 (b_refcnt x + 1)) x) b) s)
    | None => Ok None s
    end.
Proof.
  intros Hd -> Hne Hn. revert a n Hd Hn. induction l as [|x l IH]; intros a n Hd Hn.
  - destruct n as [|n]; [cbn in Hn; lia|]. done.
  - destruct n as [|n]; [cbn in Hn; lia|]. cbn [hd dll] in *. destruct Hd as [_ Hd].
    rewrite loop_S. unfold bget_hit at 1. rewrite decide_False by (apply Hne; set_solver).
    cbn [find]. unfold buf_is at 1. pose proof (dll_head _ _ _ _ Hd) as Hnx.
    unfold bnext in Hnx. destruct (bcache s !! x) as [bx|] eqn:Hx; [|done].
    injection Hnx as Hnx. rewrite bind_assoc. rewrite (bind_ok _ _ _ _ _ (getb_eq _ _ _ Hx)).
    destruct ((b_dev bx =? dev) && (b_blockno bx =? bno)) eqn:Hm.
    + rewrite bind_assoc. rewrite (bind_ok _ _ s tt (upd_bufs
        (alter (fun x => buf_set_refcnt (u32 (b_refcnt x + 1)) x) x) s)); [done|].
      unfold setb. rewrite Hx. unfold upd_bufs. do 3 f_equal. symmetry.
      rewrite <- (insert_alter_eq _ _ bx); done.
    + rewrite Hnx. eapply IH; [set_solver|exact Hd|cbn in Hn; lia].
Qed.

(** The backward scan finds the last unreferenced buffer of the list. *)
Lemma bget_evict_scan s dev bno l z n :
  dll (bcache s) HEAD l z -> (forall x, x ∈ l -> x <> HEAD) -> (length l < n)%nat ->
  loop n (bget_evict dev bno) (List.last l HEAD) s =
    match find (buf_free s) (reverse l) with
    | Some b => Ok (Some b)
        (upd_bufs (alter (fun x => buf_set_refcnt 1 (buf_set_valid 0 (buf_set_id dev bno x))) b) s)
    | None => Ok None s
    end.
Proof.
  revert z n. induction l as [|x l IH] using rev_ind; intros z n Hd Hne Hn.
  - destruct n as [|n]; [cbn in Hn; lia|]. done.
  - destruct n as [|n]; [cbn in Hn; lia|].
    rewrite List.last_last, reverse_snoc. apply dll_app in Hd as [Hd Hxz].
    rewrite loop_S. unfold bget_evict at 1. rewrite decide_False by (apply Hne; set_solver).
    cbn [find]. unfold buf_free at 1. pose proof (dll_last _ _ _ _ Hd) as Hpv.
    unfold bprev in Hpv. destruct (bcache s !! x) as [bx|] eqn:Hx; [|done].
    injection Hpv as Hpv. rewrite bind_assoc. rewrite (bind_ok _ _ _ _ _ (getb_eq _ _ _ Hx)).
    destruct (b_refcnt bx =? 0) eqn:Hm.
    + assert (x < length (bcache s))%nat as Hlt by (by eapply lookup_lt_Some).
      rewrite !bind_assoc. rewrite (bind_ok _ _ _ _ _ (setb_eq _ _ _ Hlt)).
      rewrite !bind_assoc. erewrite (bind_ok _ _ _ tt); [|apply setb_eq; cbn; by rewrite length_alter].
      rewrite !bind_assoc. erewrite (bind_ok _ _ _ tt); [|apply setb_eq; cbn; by rewrite !length_alter].
      change (bind (ret ?r) ?k ?s) with (k r s). unfold upd_bufs. cbn. by rewrite !list_alter_alter_eq.
    + rewrite Hpv. rewrite (bind_ok _ _ _ (inl (List.last l HEAD)) s) by done.
      eapply IH; [exact Hd|set_solver|]. rewrite length_app in Hn. cbn in Hn. lia.
Qed.

(** [bget] in terms of the LRU order: the buffer of the block, or the least
    recently used buffer nobody refers to, or a panic. *)
Lemma bget_eq s dev bno order :
  lru_ok (bcache s) order ->
  bget dev bno s =
    match find (buf_is dev bno s) order with
    | Some b => Ok b (upd_bufs (alter (fun x => buf_set_refcnt (u32 (b_refcnt x + 1)) x) b) s)
    | None =>
        match find (buf_free s) (reverse order) with
        | Some b => Ok b (upd_bufs (alter (fun x =>
            buf_set_refcnt 1 (buf_set_valid 0 (buf_set_id dev bno x))) b) s)
        | None => Stop (Panic "bget: no buffers")
        end
    end.
Proof.
  intros Hlru. pose proof (lru_dll _ _ Hlru) as Hd. pose proof (lru_length _ _ Hlru) as Hlen.
  assert (forall x, x ∈ order -> x <> HEAD) as Hne.
  { intros x Hx. apply (lru_lt _ _ _ Hlru) in Hx. unfold HEAD. lia. }
  pose proof (dll_head _ _ _ _ Hd) as Hn. pose proof (dll_last _ _ _ _ Hd) as Hp.
  unfold bnext in Hn. unfold bprev in Hp.
  destruct (bcache s !! HEAD) as [h|] eqn:Hh; [|done].
  injection Hn as Hn. injection Hp as Hp.
  unfold bget. rewrite (bind_ok _ _ _ _ _ (getb_eq _ _ _ Hh)), Hn.
  unfold bind at 1. rewrite (bget_hit_scan s dev bno HEAD order HEAD) by (done || lia).
  destruct (find (buf_is dev bno s) order) as [b|]; [done|].
  rewrite (bind_ok _ _ _ _ _ (getb_eq _ _ _ Hh)), Hp.
  unfold bind at 1. rewrite (bget_evict_scan s dev bno order HEAD) by (done || lia).
  by destruct (find (buf_free s) (reverse order)).
Qed.

(* ------------------------------------------------------------------ *)
(** ** Coherence with the disk *)

(** The contents of block [k] on the disk. *)
Definition dblk (s : bio D) (k : Z) : list Z := dev_read (bdisk s) (u32 (k * 2)).

(** The references to buffer [i] among those held. *)
Definition refs (held : list (nat * Z)) (i : nat) : nat :=
  length (filter (fun p => p.1 = i) held).
#[local] Arguments refs : simpl never.
#[local] Arguments dblk : simpl never.

Definition bno_ok (k : Z) : Prop := 0 <= k < 2147483648.

(** [held] are the buffers acquired with [bread] and not yet released, with the
    block each stands for. A buffer of the file system's device holds its
    block, and no other buffer stands for that block. *)
Record bio_ok (s : bio D) (held : list (nat * Z)) : Prop := {
  ok_lru : exists order, lru_ok (bcache s) order;
  ok_ref : forall i x, (i < NBUF)%nat -> bcache s !! i = Some x ->
    b_refcnt x = Z.of_nat (refs held i);
  ok_data : forall i x, (i < NBUF)%nat -> bcache s !! i = Some x -> b_dev x = ROOTDEV ->
    b_valid x <> 0 /\ bno_ok (b_blockno x) /\ b_data x = dblk s (b_blockno x);
  ok_uniq : forall i j x y, (i < NBUF)%nat -> (j < NBUF)%nat ->
    bcache s !! i = Some x -> bcache s !! j = Some y ->
    b_dev x = ROOTDEV -> b_dev y = ROOTDEV -> b_blockno x = b_blockno y -> i = j;
  ok_held : forall i k, (i, k) ∈ held -> (i < NBUF)%nat /\
    exists x, bcache s !! i = Some x /\ b_dev x = ROOTDEV /\ b_blockno x = k;
}.

Lemma refs_cons i k held j : refs ((i, k) :: held) j = if decide (i = j) then S (refs held j) else refs held j.
Proof. unfold refs. rewrite filter_cons. repeat case_decide; cbn in *; congruence. Qed.
Lemma refs_in i k held : (i, k) ∈ held -> (0 < refs held i)%nat.
Proof.
  intros Hin. unfold refs. destruct (filter _ held) as [|p l] eqn:Hf; [|cbn; lia].
  assert ((i, k) ∈ filter (fun p => p.1 = i) held) as Hin' by (by apply list_elem_of_filter).
  rewrite Hf in Hin'. set_solver.
Qed.
Lemma refs_pos i held : (0 < refs held i)%nat -> exists k, (i, k) ∈ held.
Proof.
  unfold refs. destruct (filter _ held) as [|[j k] l] eqn:Hf; cbn; [lia|]. intros _.
  assert ((j, k) ∈ filter (fun p => p.1 = i) held) as Hin by (rewrite Hf; set_solver).
  apply list_elem_of_filter in Hin as [Hj Hin]. cbn in Hj. subst j. by exists k.
Qed.
Lemma refs_le held i : (refs held i <= length held)%nat.
Proof. unfold refs. apply length_filter. Qed.

(** While fewer than [NBUF] references are held, some buffer is unreferenced. *)
Lemma some_buf_free s held order :
  bio_ok s held -> lru_ok (bcache s) order -> (length held < NBUF)%nat ->
  find (buf_free s) (reverse order) <> None.
Proof.
  intros Hok Hlru Hlt Hnone.
  assert (length (seq 0 NBUF) <= length held.*1)%nat as Hle.
  { apply NoDup_incl_length; [apply List.seq_NoDup|]. intros i Hi%in_seq.
    destruct (lookup_lt_is_Some_2 (bcache s) i) as [x Hx]; [rewrite (lru_len _ _ Hlru); lia|].
    pose proof (find_none _ _ Hnone i) as Hf. unfold buf_free in Hf. rewrite Hx in Hf.
    assert (List.In i (reverse order)) as Hin.
    { apply list_elem_of_In, elem_of_reverse, (lru_in _ _ _ Hlru). lia. }
    specialize (Hf Hin). apply Z.eqb_neq in Hf.
    rewrite (ok_ref _ _ Hok i x) in Hf by (done || lia).
    destruct (refs_pos i held) as [k Hk]; [lia|].
    apply list_elem_of_In, list_elem_of_fmap. by exists (i, k). }
  rewrite length_seq, length_fmap in Hle. lia.
Qed.

(** Replacing one buffer, links aside. *)
Lemma bio_ok_alter s held held' b x f n :
  bio_ok s held -> (b < NBUF)%nat -> bcache s !! b = Some x ->
  (forall y, b_next (f y) = b_next y) -> (forall y, b_prev (f y) = b_prev y) ->
  (forall i, (i < NBUF)%nat -> i <> b -> refs held' i = refs held i) ->
  b_refcnt (f x) = Z.of_nat (refs held' b) ->
  (b_dev (f x) = ROOTDEV -> b_valid (f x) <> 0 /\ bno_ok (b_blockno (f x)) /\
     b_data (f x) = dblk s (b_blockno (f x))) ->
  (b_dev (f x) = ROOTDEV -> forall j y, (j < NBUF)%nat -> j <> b -> bcache s !! j = Some y ->
     b_dev y = ROOTDEV -> b_blockno y <> b_blockno (f x)) ->
  (forall i k, (i, k) ∈ held' -> ((i, k) ∈ held /\ i <> b) \/
     (i = b /\ b_dev (f x) = ROOTDEV /\ b_blockno (f x) = k)) ->
  bio_ok (Bio (alter f b (bcache s)) (bdisk s) (sb s) n) held'.
Proof.
  intros Hok Hb Hx Hn Hp Hrefs Href Hdata Huniq Hheld.
  assert (forall i, alter f b (bcache s) !! i =
    if decide (i = b) then Some (f x) else bcache s !! i) as Hlk.
  { intros i. case_decide as Hi; [subst i; by rewrite list_lookup_alter_eq, Hx|].
    by rewrite list_lookup_alter_ne. }
  split; cbn [bcache].
  - destruct (ok_lru _ _ Hok) as [order Ho]. exists order. by apply lru_alter.
  - intros i y Hi. rewrite Hlk. case_decide as Hib; [subst i; by intros [= <-]|].
    intros Hy. rewrite Hrefs by done. by apply (ok_ref _ _ Hok).
  - intros i y Hi. rewrite Hlk. case_decide as Hib; [subst i; by intros [= <-]|].
    intros Hy. by apply (ok_data _ _ Hok i).
  - intros i j y z Hi Hj. rewrite !Hlk.
    case_decide as Hib; case_decide as Hjb; subst; try done.
    + intros [= <-] Hz Hd1 Hd2 Heq. exfalso. by apply (Huniq Hd1 j z).
    + intros Hy [= <-] Hd1 Hd2 Heq. exfalso. by apply (Huniq Hd2 i y).
    + intros Hy Hz. by apply (ok_uniq _ _ Hok).
  - intros i k Hin. rewrite Hlk. destruct (Hheld i k Hin) as [[Hin' Hib]|(-> & Hd & Hk)].
    + rewrite decide_False by done. by apply (ok_held _ _ Hok).
    + rewrite decide_True by done. split; [done|]. by exists (f x).
Qed.

Lemma buf_is_spec dev bno s i :
  buf_is dev bno s i = true <-> exists x, bcache s !! i = Some x /\ b_dev x = dev /\ b_blockno x = bno.
Proof.
  unfold buf_is. destruct (bcache s !! i) as [x|]; [|naive_solver].
  rewrite andb_true_iff, !Z.eqb_eq. naive_solver.
Qed.

(** [bread] acquires a buffer that holds the block. *)
Lemma bread_wp s held k :
  bio_ok s held -> (length held < NBUF)%nat -> bno_ok k ->
  wp (bread ROOTDEV k) (fun b s' => bio_ok s' ((b, k) :: held) /\
    bdisk s' = bdisk s /\ sb s' = sb s) s.
Proof.
  intros Hok Hlen Hk. destruct (ok_lru _ _ Hok) as [order Hlru].
  unfold bread. apply wp_bind. pose proof (bget_eq s ROOTDEV k order Hlru) as Hget.
  destruct (find (buf_is ROOTDEV k s) order) as [b|] eqn:Hf.
  - apply find_some in Hf as [Hin (x & Hx & Hd & Hb)%buf_is_spec].
    apply list_elem_of_In, (lru_lt _ _ _ Hlru) in Hin.
    destruct (ok_data _ _ Hok b x Hin Hx Hd) as (Hv & _ & Hdata).
    pose proof (ok_ref _ _ Hok b x Hin Hx) as Href. pose proof (refs_le held b).
    eapply wp_of_eq; [exact Hget|]. apply wp_bind. eapply wp_getb.
    { cbn [upd_bufs bcache]. by rewrite list_lookup_alter_eq, Hx. }
    cbn [buf_set_refcnt b_valid]. rewrite (proj2 (Z.eqb_neq _ _)) by done.
    cbn [when]. apply wp_bind, wp_ret, wp_ret. split; [|done].
    eapply bio_ok_alter; [exact Hok|done|exact Hx|done|done|..]; cbn.
    + intros i _ Hi. rewrite refs_cons, decide_False by done. done.
    + rewrite refs_cons, decide_True by done. unfold NBUF in *. rewrite u32_id; lia.
    + intros _. by apply (ok_data _ _ Hok b x).
    + intros _ j y Hj Hjb Hy Hdy Heq. apply Hjb. by apply (ok_uniq _ _ Hok j b y x).
    + intros i k' [[= -> ->]|Hin']%elem_of_cons; [by right|].
      destruct (decide (i = b)) as [->|]; [|by left]. right.
      destruct (ok_held _ _ Hok _ _ Hin') as (_ & x' & Hx' & _ & Hk'). naive_solver.
  - destruct (find (buf_free s) (reverse order)) as [b|] eqn:Hfr;
      [|by destruct (some_buf_free s held order)].
    apply find_some in Hfr as [Hin Hfree]. apply list_elem_of_In in Hin.
    rewrite elem_of_reverse in Hin.
    pose proof (lru_lt _ _ _ Hlru Hin) as Hb. unfold buf_free in Hfree.
    destruct (bcache s !! b) as [x|] eqn:Hx; [|done]. apply Z.eqb_eq in Hfree.
    pose proof (ok_ref _ _ Hok b x Hb Hx) as Href.
    eapply wp_of_eq; [exact Hget|]. apply wp_bind. eapply wp_getb.
    { cbn [upd_bufs bcache]. by rewrite list_lookup_alter_eq, Hx. }
    cbn [b_valid buf_set_refcnt buf_set_valid buf_set_id when Z.eqb].
    assert (length (bcache s) = S NBUF) as Hl by (apply (lru_len _ _ Hlru)).
    apply wp_bind, wp_bind, wp_setb; [cbn; rewrite length_alter; lia|].
    unfold virtio_disk_rw. apply wp_bind. eapply wp_getb.
    { cbn [upd_bufs bcache]. by rewrite !list_lookup_alter_eq, Hx. }
    cbn [b_blockno buf_set_refcnt buf_set_valid buf_set_id].
    apply wp_bind, wp_bind, wp_get, wp_setb; [cbn; rewrite !length_alter; lia|].
    apply wp_bind, wp_setb; [cbn; rewrite !length_alter; lia|].
    apply wp_modify. cbn [upd_bufs bcache bdisk sb bio_count]. apply wp_ret.
    rewrite !list_alter_alter_eq. split; [|done].
    eapply bio_ok_alter; [exact Hok|done|exact Hx|done|done|..]; cbn.
    + intros i _ Hi. rewrite refs_cons, decide_False by done. done.
    + rewrite refs_cons, decide_True by done. lia.
    + intros _. split; [done|]. split; [done|]. unfold dblk. done.
    + intros _ j y Hj Hjb Hy Hdy Heq.
      assert (buf_is ROOTDEV k s j = true) as Hm by (apply buf_is_spec; by exists y).
      rewrite (find_none _ _ Hf j) in Hm; [done|].
      by apply list_elem_of_In, (lru_in _ _ _ Hlru).
    + intros i k' [[= -> ->]|Hin']%elem_of_cons; [by right|]. left. split; [done|].
      intros ->. apply refs_in in Hin'. lia.
Qed.

Lemma bio_ok_buf s held b k :
  bio_ok s held -> (b, k) ∈ held ->
  (b < NBUF)%nat /\ bno_ok k /\ exists x, bcache s !! b = Some x /\ b_dev x = ROOTDEV /\
    b_blockno x = k /\ b_data x = dblk s k.
Proof.
  intros Hok Hin. destruct (ok_held _ _ Hok _ _ Hin) as (Hb & x & Hx & Hd & Hk).
  destruct (ok_data _ _ Hok b x Hb Hx Hd) as (_ & Hbno & Hdata). rewrite Hk in *.
  split; [done|]. split; [done|]. by exists x.
Qed.

Lemma sector_inj j k : bno_ok j -> bno_ok k -> u32 (j * 2) = u32 (k * 2) -> j = k.
Proof. unfold bno_ok. intros. rewrite !u32_id in * by lia. lia. Qed.
Lemma sector_even k : bno_ok k -> u32 (k * 2) mod 2 = 0.
Proof. unfold bno_ok. intros. rewrite u32_id by lia. dlia. Qed.

Lemma dblk_block `{!BlockDevOk D} s k : is_block (dblk s k).
Proof. apply dev_block. Qed.

(** [bstore] on a held buffer changes its block and no other. *)
Lemma bstore_wp `{!BlockDevOk D} s held b k d :
  bio_ok s held -> (b, k) ∈ held -> is_block d ->
  wp (bstore b d) (fun _ s' => bio_ok s' held /\ sb s' = sb s /\
    forall j, bno_ok j -> dblk s' j = if decide (j = k) then d else dblk s j) s.
Proof.
  intros Hok Hin Hd. destruct (bio_ok_buf _ _ _ _ Hok Hin) as (Hb & Hk & x & Hx & Hdv & Hbn & _).
  destruct (ok_lru _ _ Hok) as [order Hlru]. pose proof (lru_len _ _ Hlru) as Hlen.
  unfold bstore, bwrite, virtio_disk_rw.
  apply wp_bind, wp_setb; [lia|]. apply wp_bind. eapply wp_getb.
  { cbn [upd_bufs bcache]. by rewrite list_lookup_alter_eq, Hx. }
  apply wp_bind, wp_modify. cbn [buf_set_data b_data b_blockno].
  apply wp_bind, wp_setb; [cbn; rewrite length_alter; lia|]. apply wp_modify.
  cbn [upd_bufs bcache bdisk sb bio_count]. rewrite list_alter_alter_eq, Hbn.
  set (s1 := Bio (bcache s) (dev_write (bdisk s) (u32 (k * (BSIZE / 512))) d) (sb s) (bio_count s)).
  assert (forall j, bno_ok j -> dblk s1 j = if decide (j = k) then d else dblk s j) as Hblk.
  { intros j Hj. unfold dblk, s1. cbn [bdisk]. change (BSIZE / 512) with 2. case_decide as Hjk.
    - subst j. by apply dev_same.
    - apply dev_other; [|by apply sector_even..]. intros Heq. apply Hjk.
      symmetry. by apply sector_inj. }
  split; [|split; [done|exact Hblk]].
  destruct Hok as [Hl Hr Hda Hu Hh].
  assert (forall i, alter (buf_set_disk 0 ∘ buf_set_data d) b (bcache s) !! i =
    if decide (i = b) then Some (buf_set_disk 0 (buf_set_data d x)) else bcache s !! i) as Hlk.
  { intros i. case_decide as Hi; [subst i; by rewrite list_lookup_alter_eq, Hx|].
    by rewrite list_lookup_alter_ne. }
  assert (forall i y, alter (buf_set_disk 0 ∘ buf_set_data d) b (bcache s) !! i = Some y ->
    exists z, bcache s !! i = Some z /\ b_dev y = b_dev z /\ b_blockno y = b_blockno z /\
      b_refcnt y = b_refcnt z /\ b_valid y = b_valid z /\
      b_data y = if decide (i = b) then d else b_data z) as Hinv.
  { intros i y. rewrite Hlk. case_decide as Hi.
    - intros [= <-]. subst i. by exists x.
    - intros Hy. by exists y. }
  split; cbn [bcache].
  - exists order. by apply lru_alter.
  - intros i y Hi Hy. destruct (Hinv i y Hy) as (z & Hz & _ & _ & -> & _). by apply Hr.
  - intros i y Hi Hy. destruct (Hinv i y Hy) as (z & Hz & -> & -> & _ & -> & ->). intros Hdz.
    destruct (Hda i z Hi Hz Hdz) as (Hv & Hbz & Hdat). split; [done|]. split; [done|].
    change (dblk _ (b_blockno z)) with (dblk s1 (b_blockno z)). rewrite Hblk by done.
    destruct (decide (i = b)) as [->|Hib].
    + rewrite decide_True; [done|]. congruence.
    + rewrite decide_False; [done|]. intros Heq. apply Hib. apply (Hu i b z x); congruence.
  - intros i j y y' Hi Hj Hy Hy'. destruct (Hinv i y Hy) as (z & Hz & -> & -> & _).
    destruct (Hinv j y' Hy') as (z' & Hz' & -> & -> & _). by apply Hu.
  - intros i k' Hin'. destruct (Hh i k' Hin') as (Hi & z & Hz & Hdz & Hkz). split; [done|].
    rewrite Hlk. case_decide as Hib; [|by exists z]. subst i. eexists. split; [done|].
    rewrite Hx in Hz. by injection Hz as ->.
Qed.

Lemma bio_ok_links s held bufs' order' :
  bio_ok s held -> links_only (bcache s) bufs' -> lru_ok bufs' order' ->
  bio_ok (Bio bufs' (bdisk s) (sb s) (bio_count s)) held.
Proof.
  intros [Hl Hr Hda Hu Hh] Hlo Hlru.
  assert (forall i y, bufs' !! i = Some y -> exists x, bcache s !! i = Some x /\
    b_dev y = b_dev x /\ b_blockno y = b_blockno x /\ b_refcnt y = b_refcnt x /\
    b_valid y = b_valid x /\ b_data y = b_data x) as Hinv.
  { intros i y Hy. destruct (Hlo i) as (p & n & Heq). rewrite Hy in Heq.
    destruct (bcache s !! i) as [x|]; [|done]. injection Heq as ->. by exists x. }
  split; cbn [bcache].
  - by exists order'.
  - intros i y Hi Hy. destruct (Hinv i y Hy) as (x & Hx & _ & _ & -> & _). by apply Hr.
  - intros i y Hi Hy. destruct (Hinv i y Hy) as (x & Hx & -> & -> & _ & -> & ->). by apply (Hda i).
  - intros i j y y' Hi Hj Hy Hy'. destruct (Hinv i y Hy) as (x & Hx & -> & -> & _).
    destruct (Hinv j y' Hy') as (x' & Hx' & -> & -> & _). by apply Hu.
  - intros i k Hin. destruct (Hh i k Hin) as (Hi & x & Hx & Hdx & Hkx). split; [done|].
    destruct (Hlo i) as (p & n & Heq). rewrite Hx in Heq. eexists. by split; [exact Heq|].
Qed.

(** The pointer assignments of [brelse] move [b] to the front. *)
Lemma move_front_wp s l1 b l2 (Q : unit -> bio D -> Prop) :
  lru_ok (bcache s) (l1 ++ b :: l2) ->
  (forall bufs', links_only (bcache s) bufs' -> lru_ok bufs' (b :: l1 ++ l2) ->
     Q tt (Bio bufs' (bdisk s) (sb s) (bio_count s))) ->
  wp ((let! x := getb b in setb (b_prev x) (buf_set_next (b_next x))) ;;;
      (let! x := getb b in setb (b_next x) (buf_set_prev (b_prev x))) ;;;
      (let! h := getb HEAD in setb b (buf_set_next (b_next h))) ;;;
      (let! h := getb HEAD in setb (b_next h) (buf_set_prev b)) ;;;
      setb b (buf_set_prev HEAD) ;;;
      setb HEAD (buf_set_next b)) Q s.
Proof.
  intros Hlru HQ. pose proof (lru_len _ _ Hlru) as Hlen.
  pose proof (lru_nodup _ _ Hlru) as Hnd.
  pose proof (lru_dll _ _ Hlru) as Hd. apply dll_app in Hd as [Hd1 Hd2].
  assert (forall x, x ∈ l1 ++ b :: l2 -> (x < NBUF)%nat) as Hlt
    by (intros x; apply (lru_lt _ _ _ Hlru)).
  assert (HEAD ∉ l1 ++ b :: l2) as Hh by (intros Hin; apply Hlt in Hin; unfold HEAD in Hin; lia).
  pose proof (dll_last _ _ _ _ Hd1) as Hp. pose proof (dll_head _ _ _ _ Hd2) as Hn.
  set (p := List.last l1 HEAD) in *. set (n := hd HEAD l2) in *.
  assert (p ∈ HEAD :: l1) as Hpin by apply last_in.
  assert (n ∈ l2 ++ [HEAD]) as Hnin by (unfold n; destruct l2; set_solver).
  assert (b <> HEAD) as HbH by set_solver.
  assert (b ∉ l1 ++ l2) as Hb.
  { apply NoDup_app in Hnd as (_ & Hnd & Hnd2). apply NoDup_cons in Hnd2 as [Hnd2 _]. set_solver. }
  assert (p < S NBUF /\ n < S NBUF /\ b < S NBUF)%nat as (Hpl & Hnl & Hbl).
  { assert (forall x, x ∈ HEAD :: l1 ++ b :: l2 -> (x < S NBUF)%nat) as Hall.
    { intros x [->|Hx]%elem_of_cons; [unfold HEAD; lia|]. apply Hlt in Hx. lia. }
    split; [|split]; apply Hall; set_solver. }
  assert (p <> b /\ n <> b) as [Hpb Hnb] by set_solver.
  set (bufs1 := alter (buf_set_prev p) n (alter (buf_set_next n) p (bcache s))).
  assert (dll bufs1 HEAD (l1 ++ l2) HEAD) as Hdll.
  { eapply dll_unlink; [exact Hd1|exact Hd2|..].
    - by apply NoDup_cons.
    - change (NoDup (l1 ++ b :: l2 ++ [HEAD])). replace (l1 ++ b :: l2 ++ [HEAD])
        with ((l1 ++ b :: l2) ++ [HEAD]) by by rewrite <- (assoc_L (++)).
      by apply NoDup_snoc_HEAD.
    - intros j. fold p n. unfold bufs1. autorewrite with dll. rewrite Hlen.
      repeat case_decide; first [done|lia|congruence].
    - intros j. fold p n. unfold bufs1. autorewrite with dll. rewrite Hlen.
      repeat case_decide; first [done|lia|congruence]. }
  pose proof (dll_head _ _ _ _ Hdll) as Hh1. set (h := hd HEAD (l1 ++ l2)) in *.
  assert (h ∈ (l1 ++ l2) ++ [HEAD]) as Hhin by (unfold h; destruct (l1 ++ l2); set_solver).
  assert (h <> b) as Hhb by set_solver.
  assert (h < S NBUF)%nat as Hhl.
  { apply elem_of_app in Hhin as [Hx|Hx]; [|apply list_elem_of_singleton in Hx; unfold HEAD in *; lia].
    assert (h < NBUF)%nat; [apply Hlt|lia]. clear -Hx. set_solver. }
  apply wp_bind. unfold bnext, bprev in Hp, Hn.
  destruct (bcache s !! b) as [x|] eqn:Hx; [|done].
  injection Hp as Hp. injection Hn as Hn.
  apply wp_bind. eapply wp_getb; [exact Hx|]. rewrite Hp, Hn. apply wp_setb; [lia|].
  apply wp_bind, wp_bind. eapply wp_getb.
  { cbn [upd_bufs bcache]. rewrite list_lookup_alter_ne by done. exact Hx. }
  rewrite Hp, Hn. apply wp_setb; [cbn; rewrite length_alter; lia|].
  cbn [upd_bufs bcache bdisk sb bio_count]. fold bufs1.
  apply wp_bind. eapply wp_next; [exact Hh1|]. intros y ->. apply wp_setb.
  { cbn. unfold bufs1. rewrite !length_alter. lia. }
  apply wp_bind. eapply wp_next.
  { cbn [upd_bufs bcache]. rewrite bnext_set_next, decide_False by done. exact Hh1. }
  intros y' ->. apply wp_setb.
  { cbn. unfold bufs1. rewrite !length_alter. lia. }
  apply wp_bind, wp_setb; [cbn; unfold bufs1; rewrite !length_alter; lia|].
  apply wp_setb; [cbn; unfold bufs1; rewrite !length_alter; unfold HEAD; lia|].
  unfold upd_bufs. cbn [bcache bdisk sb bio_count]. fold bufs1. apply HQ.
  - unfold bufs1. links.
  - split.
    + unfold bufs1. by rewrite !length_alter.
    + rewrite <- (lru_perm _ _ Hlru). apply (Permutation_middle l1 l2 b).
    + assert (length bufs1 = S NBUF) as Hlen1 by (unfold bufs1; by rewrite !length_alter).
      assert (NoDup (l1 ++ l2)) as Hnd12.
      { apply NoDup_app in Hnd as (Ha & Hb' & Hc). apply NoDup_cons in Hc as [_ Hc].
        apply NoDup_app. split; [done|]. split; [set_solver|done]. }
      assert (HEAD < S NBUF)%nat as HHl by (unfold HEAD; lia).
      assert (HEAD ∉ l1 ++ l2) as HH2 by set_solver.
      eapply dll_insert_head; [exact Hdll|..].
      * by apply NoDup_cons.
      * by apply NoDup_snoc_HEAD.
      * set_solver.
      * set_solver.
      * autorewrite with dll. rewrite Hlen1. repeat case_decide; first [done|lia|congruence].
      * fold h. autorewrite with dll. rewrite Hlen1. repeat case_decide; first [done|lia|congruence].
      * autorewrite with dll. rewrite Hlen1. repeat case_decide; first [done|lia|congruence].
      * autorewrite with dll. rewrite Hlen1. repeat case_decide; first [done|lia|congruence].
      * intros j ? ?. autorewrite with dll. repeat case_decide; first [done|lia|congruence].
      * intros j ? Hjh. fold h in Hjh. autorewrite with dll. repeat case_decide; first [done|lia|congruence].
Qed.

(** [brelse] gives the reference back; the last one moves the buffer to the
    front of the list. *)
Lemma brelse_order_wp s held b k l1 l2 :
  bio_ok s ((b, k) :: held) -> (length held < NBUF)%nat -> lru_ok (bcache s) (l1 ++ b :: l2) ->
  wp (brelse b) (fun _ s' => bio_ok s' held /\ bdisk s' = bdisk s /\ sb s' = sb s /\
    lru_ok (bcache s') (if decide (refs held b = O) then b :: l1 ++ l2 else l1 ++ b :: l2)) s.
Proof.
  intros Hok Hlen Hlru.
  destruct (bio_ok_buf _ _ b k Hok ltac:(set_solver)) as (Hb & Hk & x & Hx & Hdv & Hbn & Hdat).
  pose proof (ok_ref _ _ Hok b x Hb Hx) as Href. rewrite refs_cons, decide_True in Href by done.
  pose proof (refs_le held b) as Hle.
  assert (u32 (b_refcnt x - 1) = Z.of_nat (refs held b)) as Hr1.
  { rewrite Href. unfold NBUF in *. rewrite u32_id; lia. }
  set (f := fun x => buf_set_refcnt (u32 (b_refcnt x - 1)) x).
  assert (upd_bufs (alter (buf_set_refcnt (u32 (b_refcnt x - 1))) b) s =
          upd_bufs (alter f b) s) as Heq.
  { unfold upd_bufs. f_equal. apply list_alter_ext; [|done]. intros y Hy.
    rewrite Hx in Hy. by injection Hy as <-. }
  assert (bio_ok (upd_bufs (alter f b) s) held) as Hok1.
  { apply (bio_ok_alter s ((b, k) :: held) held b x); try done; cbn.
    - intros i _ Hi. by rewrite refs_cons, decide_False by done.
    - intros _. by apply (ok_data _ _ Hok b).
    - intros _ j y Hj Hjb Hy Hdy Heqb. apply Hjb. by apply (ok_uniq _ _ Hok j b y x).
    - intros i k' Hin. destruct (decide (i = b)) as [->|]; [|left; set_solver]. right.
      destruct (ok_held _ _ Hok b k') as (_ & x' & Hx' & _ & Hk'); [set_solver|]. naive_solver. }
  assert (lru_ok (alter f b (bcache s)) (l1 ++ b :: l2)) as Hlru1 by (by apply lru_alter).
  unfold brelse. apply wp_bind, wp_bind. eapply wp_getb; [exact Hx|].
  apply wp_setb; [rewrite (lru_len _ _ Hlru); lia|]. rewrite Heq.
  apply wp_bind. eapply wp_getb.
  { cbn [upd_bufs bcache]. rewrite list_lookup_alter_eq, Hx. reflexivity. }
  unfold f at 1. cbn [b_refcnt buf_set_refcnt]. rewrite Hr1.
  case_decide as Hz.
  - rewrite Hz. cbn [Z.of_nat Z.eqb when].
    apply (move_front_wp _ l1 b l2); [exact Hlru1|]. intros bufs' Hlo Hlru'.
    split; [|done]. by apply (bio_ok_links (upd_bufs (alter f b) s) held bufs' (b :: l1 ++ l2)).
  - rewrite (proj2 (Z.eqb_neq _ _)) by lia. cbn [when]. by apply wp_ret.
Qed.

Lemma brelse_wp s held b k :
  bio_ok s ((b, k) :: held) -> (length held < NBUF)%nat ->
  wp (brelse b) (fun _ s' => bio_ok s' held /\ bdisk s' = bdisk s /\ sb s' = sb s) s.
Proof.
  intros Hok Hlen. destruct (ok_lru _ _ Hok) as [order Hlru].
  destruct (bio_ok_buf _ _ b k Hok ltac:(set_solver)) as (Hb & _).
  pose proof (lru_in _ _ b Hlru Hb) as (l1 & l2 & ->)%list_elem_of_split.
  eapply wp_mono; [by apply (brelse_order_wp s held b k l1 l2)|]. by intros ? ? (? & ? & ? & _).
Qed.

(* ------------------------------------------------------------------ *)
(** ** The block allocator *)

Lemma land_bit v k : 0 <= k -> (Z.land v (Z.shiftl 1 k) =? 0) = negb (Z.testbit v k).
Proof.
  intros Hk. destruct (Z.testbit v k) eqn:Hb; cbn.
  - apply Z.eqb_neq. intros Hz. apply (f_equal (fun x => Z.testbit x k)) in Hz.
    rewrite Z.land_spec, Z.shiftl_spec, Z.sub_diag, Hb, Z.testbit_0_l in Hz by lia. done.
  - apply Z.eqb_eq. apply Z.bits_inj'. intros i Hi.
    rewrite Z.land_spec, Z.shiftl_spec, Z.testbit_0_l by lia.
    destruct (decide (i = k)) as [->|Hne]; [by rewrite Hb|].
    destruct (Z.eqb_spec (i - k) 0) as [|Hn]; [lia|].
    replace (Z.testbit 1 (i - k)) with false; [by rewrite andb_false_r|]. symmetry.
    destruct (Z.ltb_spec (i - k) 0); [by apply Z.testbit_neg_r|].
    apply (Z.bits_above_log2 1); cbn; lia.
Qed.

Lemma testbit_u8 v k : 0 <= k < 8 -> Z.testbit (u8 v) k = Z.testbit v k.
Proof. intros. unfold u8. change 256 with (2 ^ 8). by rewrite Z.mod_pow2_bits_low by lia. Qed.

Lemma testbit_one k i : 0 <= k -> Z.testbit (Z.shiftl 1 k) i = (i =? k).
Proof.
  intros Hk. rewrite Z.shiftl_1_l. destruct (Z.eqb_spec i k) as [->|Hne].
  - by apply Z.pow2_bits_true.
  - apply Z.pow2_bits_false. lia.
Qed.

Lemma set_bit_spec v k i :
  0 <= k < 8 -> 0 <= i < 8 ->
  Z.testbit (u8 (Z.lor v (Z.shiftl 1 k))) i = Z.testbit v i || (i =? k).
Proof. intros. rewrite testbit_u8, Z.lor_spec, testbit_one by lia. done. Qed.
Lemma clear_bit_spec v k i :
  0 <= k < 8 -> 0 <= i < 8 ->
  Z.testbit (u8 (Z.land v (Z.lnot (Z.shiftl 1 k)))) i = Z.testbit v i && negb (i =? k).
Proof. intros. rewrite testbit_u8, Z.land_spec, Z.lnot_spec, testbit_one by lia. done. Qed.

(** Bit [i] of a bitmap block. *)
Definition bit (d : list Z) (i : Z) : bool := Z.testbit (zget d (i / 8)) (i mod 8).
Definition upd_bit (op : Z -> Z) (d : list Z) (i : Z) : list Z := zset d (i / 8) (u8 (op (zget d (i / 8)))).

Lemma is_block_upd d i v : is_block d -> is_byte v -> is_block (zset d i v).
Proof.
  intros [Hl Hb] Hv. split; [by rewrite length_zset|]. unfold zset. by apply Forall_insert.
Qed.

Lemma bit_set d i j :
  is_block d -> 0 <= i < BPB -> 0 <= j < BPB ->
  bit (zset d (i / 8) (u8 (Z.lor (zget d (i / 8)) (Z.shiftl 1 (i mod 8))))) j = bit d j || (j =? i).
Proof.
  intros [Hl _] Hi Hj. unfold bit. unfold BPB, BSIZE in *.
  destruct (decide (j / 8 = i / 8)) as [He|He].
  - rewrite He, zget_zset_eq by (rewrite Hl; dlia). rewrite set_bit_spec by dlia. f_equal.
    destruct (Z.eqb_spec (j mod 8) (i mod 8)), (Z.eqb_spec j i); try done; dlia.
  - rewrite zget_zset_ne by dlia. destruct (Z.eqb_spec j i); [congruence|]. by rewrite orb_false_r.
Qed.
Lemma bit_clear d i j :
  is_block d -> 0 <= i < BPB -> 0 <= j < BPB ->
  bit (zset d (i / 8) (u8 (Z.land (zget d (i / 8)) (Z.lnot (Z.shiftl 1 (i mod 8)))))) j =
    bit d j && negb (j =? i).
Proof.
  intros [Hl _] Hi Hj. unfold bit. unfold BPB, BSIZE in *.
  destruct (decide (j / 8 = i / 8)) as [He|He].
  - rewrite He, zget_zset_eq by (rewrite Hl; dlia). rewrite clear_bit_spec by dlia. f_equal. f_equal.
    destruct (Z.eqb_spec (j mod 8) (i mod 8)), (Z.eqb_spec j i); try done; dlia.
  - rewrite zget_zset_ne by dlia. destruct (Z.eqb_spec j i); [congruence|]. by rewrite andb_true_r.
Qed.

(** The file system's geometry: the bitmap covers every block and its blocks
    have numbers a buffer can have. *)
Record sb_ok (sb : superblock) : Prop := {
  sbo_size : 0 <= sb_size sb < 1073741824;
  sbo_bmap : 0 <= sb_bmapstart sb < 1073741824;
}.
Definition bmapb (sb : superblock) (b : Z) : Z := BMAP_BLOCK b sb.
Definition used (s : bio D) (b : Z) : bool := bit (dblk s (bmapb (sb s) b)) (b mod BPB).

Lemma bmapb_ok s b : sb_ok (sb s) -> 0 <= b < 1073741824 -> bno_ok (bmapb (sb s) b).
Proof.
  intros [Hs Hm] Hb. unfold bmapb, BMAP_BLOCK, bno_ok, BPB, BSIZE in *. rewrite u32_id by dlia. dlia.
Qed.
Lemma bmapb_same sb b bi : b mod BPB = 0 -> 0 <= bi < BPB -> bmapb sb (b + bi) = bmapb sb b.
Proof. intros. unfold bmapb, BMAP_BLOCK. f_equal. f_equal. unfold BPB, BSIZE in *. dlia. Qed.

Definition zero_block : list Z := replicate (Z.to_nat BSIZE) 0.
Lemma zero_block_ok : is_block zero_block.
Proof. split; [by unfold zero_block; rewrite length_replicate|]. apply Forall_replicate. unfold is_byte. lia. Qed.

(** A block is zeroed. *)
Lemma bzero_wp `{!BlockDevOk D} s held b :
  bio_ok s held -> (length held + 1 < NBUF)%nat -> bno_ok b ->
  wp (bzero ROOTDEV b) (fun _ s' => bio_ok s' held /\ sb s' = sb s /\
    forall j, bno_ok j -> dblk s' j = if decide (j = b) then zero_block else dblk s j) s.
Proof.
  intros Hok Hlen Hb. unfold bzero. apply wp_bind.
  eapply wp_mono; [by apply (bread_wp s held b); [|lia|]|]. intros bp s1 (Hok1 & Hd1 & Hs1).
  apply wp_bind. eapply wp_mono; [apply (bstore_wp s1 _ bp b zero_block Hok1); [set_solver|apply zero_block_ok]|].
  intros _ s2 (Hok2 & Hs2 & Hblk2).
  eapply wp_mono; [apply (brelse_wp s2 held bp b Hok2); lia|].
  intros _ s3 (Hok3 & Hd3 & Hs3). split; [done|]. split; [congruence|]. intros j Hj.
  unfold dblk. rewrite Hd3. fold (dblk s2 j). rewrite Hblk2 by done. unfold dblk. by rewrite Hd1.
Qed.

(** What an allocation does: [a] was free, it is marked and zeroed, and no other
    block changes. *)
Record allocated (s : bio D) (held : list (nat * Z)) (a : Z) (s' : bio D) : Prop := {
  al_ok : bio_ok s' held;
  al_sb : sb s' = sb s;
  al_range : 0 <= a < sb_size (sb s);
  al_free : used s a = false;
  al_blk : forall j, bno_ok j -> dblk s' j =
    if decide (j = a) then zero_block
    else if decide (j = bmapb (sb s) a) then
      zset (dblk s j) (a mod BPB / 8)
        (u8 (Z.lor (zget (dblk s j) (a mod BPB / 8)) (Z.shiftl 1 (a mod BPB mod 8))))
    else dblk s j;
}.

(** No block of the bitmap is marked free. *)
Definition bitmap_used (s : bio D) : Prop :=
  forall a b, 0 <= a < sb_size (sb s) -> 0 <= b < sb_size (sb s) -> used s a = false -> a <> bmapb (sb s) b.

(** The inner loop: the first free bit of one bitmap block. *)
Lemma balloc_bit_wp `{!BlockDevOk D} s held bp b :
  sb_ok (sb s) -> bitmap_used s -> bio_ok s ((bp, bmapb (sb s) b) :: held) ->
  (length held + 2 < NBUF)%nat -> 0 <= b < sb_size (sb s) -> b mod BPB = 0 ->
  wp (loop (S (Z.to_nat BPB)) (balloc_bit ROOTDEV b bp) 0)
    (fun r s' => match r with
       | Some a => allocated s held a s' /\ b <= a /\ (forall i, b <= i < a -> used s i = true)
       | None => s' = s /\ forall i, b <= i < b + BPB -> i < sb_size (sb s) -> used s i = true
       end) s.
Proof.
  intros Hsb Hmeta Hok Hlen Hb Hal. pose proof (sbo_size _ Hsb) as Hsz.
  assert (forall bi, 0 <= bi < BPB -> (b + bi) mod BPB = bi) as Hmod.
  { intros bi Hbi. rewrite Z.add_mod, Hal, Z.add_0_l, Z.mod_mod by (unfold BPB, BSIZE; lia).
    by apply Z.mod_small. }
  apply (wp_loop _ _ (fun n bi s1 => s1 = s /\ 0 <= bi <= BPB /\ n = Z.to_nat (BPB - bi) /\
     forall i, b <= i < b + bi -> used s i = true) _ (Z.to_nat BPB)).
  2: { split; [done|]. split; [unfold BPB, BSIZE; lia|]. split; [f_equal; lia|]. intros i Hi. lia. }
  2: { lia. }
  intros n bi s1 (-> & Hbi & -> & Hall). unfold balloc_bit. apply wp_bind, wp_get. cbn beta.
  destruct ((bi <? BPB) && (b + bi <? sb_size (sb s))) eqn:Hg; cbn [negb].
  2: { apply wp_ret. split; [done|]. intros i Hi Hlt. apply andb_false_iff in Hg.
       destruct Hg as [Hg|Hg]; apply Z.ltb_ge in Hg; apply Hall; lia. }
  zbool. set (a := b + bi). set (k := bmapb (sb s) b).
  assert (bmapb (sb s) a = k) as Hka by (apply bmapb_same; lia).
  destruct (bio_ok_buf _ _ bp k Hok ltac:(set_solver)) as (Hbp & Hk & x & Hx & _ & _ & Hdat).
  apply wp_bind. eapply wp_getb; [exact Hx|]. rewrite Hdat.
  rewrite land_bit by (pose proof (Z.mod_pos_bound bi 8); lia).
  assert (used s a = Z.testbit (zget (dblk s k) (bi / 8)) (bi mod 8)) as Hu.
  { unfold used, bit. rewrite Hka. unfold a. by rewrite Hmod by lia. }
  rewrite <- Hu. destruct (used s a) eqn:Hused; cbn [negb].
  { apply wp_ret. exists (Z.to_nat (BPB - (bi + 1))). split; [lia|]. split; [done|].
    split; [lia|]. split; [done|]. intros i Hi.
    destruct (decide (i = a)) as [->|]; [done|]. apply Hall. unfold a in *. lia. }
  set (d := zset (dblk s k) (bi / 8) (u8 (Z.lor (zget (dblk s k) (bi / 8)) (Z.shiftl 1 (bi mod 8))))).
  assert (is_block d) as Hd by (apply is_block_upd; [apply dblk_block|apply u8_bounds]).
  apply wp_bind. eapply wp_mono; [apply (bstore_wp s _ bp k d Hok); [set_solver|done]|].
  intros _ s2 (Hok2 & Hs2 & Hb2). apply wp_bind.
  eapply wp_mono; [apply (brelse_wp s2 held bp k Hok2); lia|]. intros _ s3 (Hok3 & Hd3 & Hs3).
  assert (bno_ok a) as Hano by (unfold bno_ok, a; lia).
  apply wp_bind. eapply wp_mono; [apply (bzero_wp s3 held a Hok3); [lia|done]|].
  intros _ s4 (Hok4 & Hs4 & Hb4). apply wp_ret. split; [|split; [unfold a; lia|exact Hall]].
  split; [done|congruence|unfold a; lia|done|].
  intros j Hj. rewrite Hb4 by done. case_decide as Hja; [done|].
  unfold dblk at 1. rewrite Hd3. fold (dblk s2 j). rewrite Hb2 by done. rewrite Hka.
  case_decide as Hjk; [|done]. subst j. unfold d, a. by rewrite Hmod by lia.
Qed.

Lemma dblk_disk s s' k : bdisk s' = bdisk s -> dblk s' k = dblk s k.
Proof. unfold dblk. by intros ->. Qed.
Lemma used_disk s s' b : bdisk s' = bdisk s -> sb s' = sb s -> used s' b = used s b.
Proof. intros Hd Hs. unfold used. by rewrite Hs, (dblk_disk s s'). Qed.

Lemma allocated_disk s s1 held a s' :
  bdisk s1 = bdisk s -> sb s1 = sb s -> allocated s1 held a s' -> allocated s held a s'.
Proof.
  intros Hd Hs [Hok Hsb Hr Hf Hb]. split; [done|congruence|by rewrite <- Hs| |].
  - by rewrite <- (used_disk s s1).
  - intros j Hj. rewrite Hb by done. by rewrite Hs, (dblk_disk s s1).
Qed.

(** The whole scan of [balloc]: the first free block, or none. *)
Lemma balloc_scan_wp `{!BlockDevOk D} s held :
  sb_ok (sb s) -> bitmap_used s -> bio_ok s held -> (length held + 2 < NBUF)%nat ->
  wp (loop (Z.to_nat (sb_size (sb s) / BPB) + 2) (balloc_block ROOTDEV) 0)
    (fun r s' => match r with
       | Some a => allocated s held a s' /\ (forall i, 0 <= i < a -> used s i = true)
       | None => forall i, 0 <= i < sb_size (sb s) -> used s i = true
       end) s.
Proof.
  intros Hsb Hmeta Hok Hlen. pose proof (sbo_size _ Hsb) as Hsz.
  apply (wp_loop _ _ (fun n b s1 => bio_ok s1 held /\ bdisk s1 = bdisk s /\ sb s1 = sb s /\
     b mod BPB = 0 /\ 0 <= b /\ (forall i, 0 <= i < b -> i < sb_size (sb s) -> used s i = true) /\
     n = Z.to_nat ((sb_size (sb s) + BPB - 1 - b) / BPB))
     _ (Z.to_nat ((sb_size (sb s) + BPB - 1) / BPB))).
  2: { refine (conj Hok (conj eq_refl (conj eq_refl (conj _ (conj _ (conj _ _)))))); [done|lia| |].
       - intros i Hi. lia.
       - by rewrite Z.sub_0_r. }
  2: { unfold BPB, BSIZE in *. dlia. }
  intros n b s1 (Hok1 & Hd1 & Hs1 & Hal & Hb0 & Hall & ->). unfold balloc_block.
  apply wp_bind, wp_get. cbn beta. rewrite Hs1.
  destruct (Z.ltb_spec b (sb_size (sb s))) as [Hlt|Hge]; cbn [negb].
  2: { apply wp_ret. intros i Hi. apply Hall; lia. }
  assert (bno_ok (bmapb (sb s) b)) as Hbm by (apply bmapb_ok; [done|lia]).
  apply wp_bind. eapply wp_mono; [apply (bread_wp s1 held _ Hok1); [lia|exact Hbm]|].
  intros bp s2 (Hok2 & Hd2 & Hs2).
  assert (bdisk s2 = bdisk s) as Hds by congruence. assert (sb s2 = sb s) as Hss by congruence.
  apply wp_bind. eapply wp_mono.
  { apply (balloc_bit_wp s2 held bp b); rewrite ?Hss; try done.
    intros i j. rewrite Hss, (used_disk s s2) by done. apply Hmeta. }
  intros [a|] s3.
  - intros (Hal3 & Hba & Hbef). apply wp_ret. split; [by apply (allocated_disk s s2)|].
    intros i Hi. destruct (Z.ltb_spec i b).
    + apply Hall; [lia|]. pose proof (al_range _ _ _ _ Hal3) as Hr. rewrite Hss in Hr. lia.
    + rewrite <- (used_disk s s2) by done. apply Hbef. lia.
  - intros [-> Hbef]. apply wp_bind.
    eapply wp_mono; [apply (brelse_wp s2 held bp _ Hok2); lia|]. intros _ s4 (Hok4 & Hd4 & Hs4).
    apply wp_ret. exists (Z.to_nat ((sb_size (sb s) + BPB - 1 - (b + BPB)) / BPB)).
    split; [unfold BPB, BSIZE in *; dlia|].
    refine (conj Hok4 (conj _ (conj _ (conj _ (conj _ (conj _ eq_refl)))))); [congruence..| | |].
    + unfold BPB, BSIZE in *. dlia.
    + unfold BPB, BSIZE in *. lia.
    + intros i Hi Hsi. destruct (Z.ltb_spec i b); [apply Hall; lia|].
      rewrite <- (used_disk s s2) by done. apply Hbef; [lia|by rewrite Hss].
Qed.

(** [balloc] takes the first free block. *)
Lemma balloc_wp `{!BlockDevOk D} s held b :
  sb_ok (sb s) -> bitmap_used s -> bio_ok s held -> (length held + 2 < NBUF)%nat ->
  0 <= b < sb_size (sb s) -> used s b = false ->
  wp (balloc ROOTDEV) (fun a s' => allocated s held a s' /\ (forall i, 0 <= i < a -> used s i = true)) s.
Proof.
  intros Hsb Hmeta Hok Hlen Hb Hf. unfold balloc. apply wp_bind, wp_get. apply wp_bind.
  eapply wp_mono; [by apply (balloc_scan_wp s held)|]. intros [a|] s' HQ.
  - by apply wp_ret.
  - by rewrite HQ in Hf.
Qed.

(** [bfree] clears the bit, and panics when it is clear already. *)
Lemma bfree_wp `{!BlockDevOk D} s held b :
  sb_ok (sb s) -> bio_ok s held -> (length held + 1 < NBUF)%nat ->
  0 <= b < sb_size (sb s) -> used s b = true ->
  wp (bfree ROOTDEV b) (fun _ s' => bio_ok s' held /\ sb s' = sb s /\
    forall j, bno_ok j -> dblk s' j =
      if decide (j = bmapb (sb s) b) then
        zset (dblk s j) (b mod BPB / 8)
          (u8 (Z.land (zget (dblk s j) (b mod BPB / 8)) (Z.lnot (Z.shiftl 1 (b mod BPB mod 8)))))
      else dblk s j) s.
Proof.
  intros Hsb Hok Hlen Hb Hu. pose proof (sbo_size _ Hsb) as Hsz. unfold bfree.
  set (k := bmapb (sb s) b). assert (bno_ok k) as Hk by (apply bmapb_ok; [done|lia]).
  apply wp_bind, wp_get. fold (bmapb (sb s) b). fold k.
  apply wp_bind. eapply wp_mono; [apply (bread_wp s held k Hok); [lia|exact Hk]|].
  intros bp s1 (Hok1 & Hd1 & Hs1).
  destruct (bio_ok_buf _ _ bp k Hok1 ltac:(set_solver)) as (Hbp & _ & x & Hx & _ & _ & Hdat).
  apply wp_bind. eapply wp_getb; [exact Hx|]. rewrite Hdat, (dblk_disk s s1) by done.
  rewrite land_bit by (pose proof (Z.mod_pos_bound (b mod BPB) 8); lia).
  unfold used, bit in Hu. fold k in Hu. rewrite Hu. cbn [negb].
  apply wp_bind. eapply wp_mono; [apply (bstore_wp s1 ((bp, k) :: held) bp k); [exact Hok1|set_solver|]|].
  { apply is_block_upd; [apply dblk_block|apply u8_bounds]. }
  intros _ s2 (Hok2 & Hs2 & Hb2).
  eapply wp_mono; [apply (brelse_wp s2 held bp k Hok2); lia|]. intros _ s3 (Hok3 & Hd3 & Hs3).
  split; [done|]. split; [congruence|]. intros j Hj.
  rewrite (dblk_disk s2 s3), Hb2, (dblk_disk s s1) by done. case_decide; [by subst j|done].
Qed.

Lemma bfree_free_panics `{!BlockDevOk D} s held b :
  sb_ok (sb s) -> bio_ok s held -> (length held + 1 < NBUF)%nat ->
  0 <= b < sb_size (sb s) -> used s b = false ->
  bfree ROOTDEV b s = Stop (Panic "bfree: freeing free block").
Proof.
  intros Hsb Hok Hlen Hb Hu. pose proof (sbo_size _ Hsb) as Hsz.
  set (k := bmapb (sb s) b). assert (bno_ok k) as Hk by (apply bmapb_ok; [done|lia]).
  destruct (wp_inv _ _ _ (bread_wp s held k Hok ltac:(lia) Hk)) as (bp & s1 & Hrun & Hok1 & Hd1 & Hs1).
  destruct (bio_ok_buf _ _ bp k Hok1 ltac:(set_solver)) as (Hbp & _ & x & Hx & _ & _ & Hdat).
  unfold bfree. change (BMAP_BLOCK b (sb s)) with k.
  rewrite (bind_ok _ _ s s s) by done. fold (bmapb (sb s) b). fold k.
  rewrite (bind_ok _ _ _ _ _ Hrun), (bind_ok _ _ _ _ _ (getb_eq _ _ _ Hx)).
  rewrite Hdat, (dblk_disk s s1) by done.
  rewrite land_bit by (pose proof (Z.mod_pos_bound (b mod BPB) 8); lia).
  unfold used, bit in Hu. fold k in Hu. by rewrite Hu.
Qed.

(* ------------------------------------------------------------------ *)
(** ** Start-up and use *)

Lemma lookup_bufs0 disk sbk i x :
  bcache (bio0 (D := D) disk sbk) !! i = Some x -> x = buf0.
Proof. unfold bio0. cbn [bcache]. intros Hx. apply lookup_replicate in Hx. naive_solver. Qed.

(** After [binit] from zeroed memory the cache is empty and well formed. *)
Lemma binit_ok disk sbk :
  wp binit (fun _ s' => bio_ok s' [] /\ bdisk s' = disk /\ sb s' = sbk) (bio0 disk sbk).
Proof.
  eapply wp_mono; [by apply (binit_wp (bio0 disk sbk))|].
  intros [] s' (Hlru & Hlo & Hdisk & Hsb). split; [|done].
  assert (forall i x, bcache s' !! i = Some x -> b_dev x = 0 /\ b_refcnt x = 0) as Hz.
  { intros i x Hx. destruct (Hlo i) as (p & n & Hi). rewrite Hx in Hi.
    destruct (bcache (bio0 disk sbk) !! i) as [y|] eqn:Hy; [|done].
    apply lookup_bufs0 in Hy as ->. by injection Hi as ->. }
  split.
  - by exists (reverse (seq 0 NBUF)).
  - intros i x _ Hx. by apply Hz in Hx as [_ ->].
  - intros i x _ Hx Hd. apply Hz in Hx as [Hx _]. rewrite Hd in Hx. done.
  - intros i j x y _ _ Hx _ Hd. apply Hz in Hx as [Hx _]. rewrite Hd in Hx. done.
  - intros i k Hin. set_solver.
Qed.

Lemma bio_ok_perm s held held' : held ≡ₚ held' -> bio_ok s held -> bio_ok s held'.
Proof.
  intros Hp [Hl Hr Hda Hu Hh]. split; [done| |done|done|].
  - intros i x Hi Hx. rewrite (Hr i x Hi Hx). unfold refs. by rewrite Hp.
  - intros i k. rewrite <- Hp. apply Hh.
Qed.

(** The abstract block store: one value per block. A client reads a block into
    a buffer it then holds, overwrites a block it holds, and releases it. *)
Notation cache_state := (bio D * list (nat * Z) * (Z -> list Z))%type.
Inductive cache_step : cache_state -> cache_state -> Prop :=
| cs_read s held A k b s' :
    bno_ok k -> (length held < NBUF)%nat -> bread ROOTDEV k s = Ok b s' ->
    cache_step (s, held, A) (s', (b, k) :: held, A)
| cs_write s held (A : Z -> list Z) b k d s' :
    (b, k) ∈ held -> is_block d -> bstore b d s = Ok tt s' ->
    cache_step (s, held, A) (s', held, fun j => if decide (j = k) then d else A j)
| cs_release s held1 b k held2 A s' :
    brelse b s = Ok tt s' ->
    cache_step (s, held1 ++ (b, k) :: held2, A) (s', held1 ++ held2, A).

Record cache_inv (x : cache_state) : Prop := {
  ci_ok : bio_ok x.1.1 x.1.2;
  ci_len : (length x.1.2 <= NBUF)%nat;
  ci_blk : forall k, bno_ok k -> dblk x.1.1 k = x.2 k;
}.

Lemma cache_step_inv `{!BlockDevOk D} x y : cache_inv x -> cache_step x y -> cache_inv y.
Proof.
  intros [Hok Hlen Hblk] Hstep.
  destruct Hstep as [s held A k b s' Hk Hlt Hrun|s held A b k d s' Hin Hd Hrun|s h1 b k h2 A s' Hrun];
    cbn [fst snd] in *.
  - destruct (wp_ok _ _ _ _ _ Hrun (bread_wp s held k Hok Hlt Hk)) as (Hok' & Hd & _). split; cbn; [done|lia|]. intros j Hj.
    rewrite (dblk_disk s s') by done. by apply Hblk.
  - destruct (wp_ok _ _ _ _ _ Hrun (bstore_wp s held b k d Hok Hin Hd)) as (Hok' & _ & Hb). split; cbn; [done|done|]. intros j Hj.
    rewrite Hb by done. case_decide; [done|by apply Hblk].
  - assert (bio_ok s ((b, k) :: h1 ++ h2)) as Hok1.
    { apply (bio_ok_perm _ _ _ (Permutation_sym (Permutation_middle h1 h2 (b, k)))). exact Hok. }
    rewrite length_app in Hlen. cbn in Hlen.
    destruct (wp_ok _ _ _ _ _ Hrun (brelse_wp s (h1 ++ h2) b k Hok1 ltac:(rewrite length_app; lia)))
      as (Hok' & Hd & _).
    split; cbn; [done|rewrite length_app; lia|]. intros j Hj.
    rewrite (dblk_disk s s') by done. by apply Hblk.
Qed.

Lemma cache_init_inv disk sbk s0 :
  binit (bio0 disk sbk) = Ok tt s0 ->
  cache_inv (s0, [], fun k => dev_read disk (u32 (k * 2))).
Proof.
  intros Hrun. destruct (wp_ok _ _ _ _ _ Hrun (binit_ok disk sbk)) as (Hok & <- & _).
  split; [exact Hok|apply Nat.le_0_l|]. intros k _. reflexivity.
Qed.

Lemma cache_steps_inv `{!BlockDevOk D} x y : rtc cache_step x y -> cache_inv x -> cache_inv y.
Proof. induction 1 as [|x y z Hxy _ IH]; [done|]. intros Hx. by apply IH, cache_step_inv with x. Qed.

(* ------------------------------------------------------------------ *)
(** ** Properties *)

(** C4: used through [bread], [bwrite] and [brelse], the cache after [binit]
    implements a store with one value per block: whatever the evictions, a held
    buffer always contains the value last written to its block (on disk, too),
    and a read succeeds as long as fewer than thirty buffers are held. *)
Theorem cache_refines_store `{!BlockDevOk D} disk sbk s0 x :
  binit (bio0 disk sbk) = Ok tt s0 ->
  rtc cache_step (s0, [], fun k => dev_read disk (u32 (k * 2))) x ->
  (forall k, bno_ok k -> dev_read (bdisk x.1.1) (u32 (k * 2)) = x.2 k) /\
  (forall b k, (b, k) ∈ x.1.2 ->
     exists y, bcache x.1.1 !! b = Some y /\ b_blockno y = k /\ b_data y = x.2 k) /\
  (forall k, bno_ok k -> (length x.1.2 < NBUF)%nat ->
     exists b s', bread ROOTDEV k x.1.1 = Ok b s').
Proof.
  intros Hrun Hsteps.
  destruct (cache_steps_inv _ _ Hsteps (cache_init_inv _ _ _ Hrun)) as [Hok Hlen Hblk].
  split; [exact Hblk|]. split.
  - intros b k Hin. destruct (bio_ok_buf _ _ b k Hok Hin) as (_ & Hk & y & Hy & _ & Hb & Hd).
    exists y. split; [exact Hy|]. split; [exact Hb|]. rewrite Hd. by apply Hblk.
  - intros k Hk Hlt. destruct (wp_inv _ _ _ (bread_wp _ _ k Hok Hlt Hk)) as (b & s' & Hr & _).
    by exists b, s'.
Qed.

(** Replacement is least-recently-used: after [brelse] of the last reference
    the buffer is the most recent one, and [bget] returns the buffer of the block
    if there is one, else the unreferenced buffer released longest ago, with the
    new identity and one reference; it panics only when all thirty are in use. *)
Theorem bget_lru s held b k l1 l2 dev bno :
  bio_ok s ((b, k) :: held) -> (length held < NBUF)%nat -> lru_ok (bcache s) (l1 ++ b :: l2) ->
  exists s', brelse b s = Ok tt s' /\
    let order := if decide (refs held b = O) then b :: l1 ++ l2 else l1 ++ b :: l2 in
    bget dev bno s' =
      match find (buf_is dev bno s') order with
      | Some b' => Ok b' (upd_bufs (alter (fun x => buf_set_refcnt (u32 (b_refcnt x + 1)) x) b') s')
      | None =>
          match find (buf_free s') (reverse order) with
          | Some b' => Ok b' (upd_bufs (alter (fun x =>
              buf_set_refcnt 1 (buf_set_valid 0 (buf_set_id dev bno x))) b') s')
          | None => Stop (Panic "bget: no buffers")
          end
      end.
Proof.
  intros Hok Hlen Hlru.
  destruct (wp_inv _ _ _ (brelse_order_wp s held b k l1 l2 Hok Hlen Hlru))
    as ([] & s' & Hrun & _ & _ & _ & Hlru').
  exists s'. split; [done|]. by apply bget_eq.
Qed.

(** [balloc] returns the first block whose bit is clear, sets that bit and
    only that bit, zeroes that block and changes no other block; when every bit is
    set it panics. *)
Theorem balloc_first_free `{!BlockDevOk D} s held :
  sb_ok (sb s) -> bitmap_used s -> bio_ok s held -> (length held + 2 < NBUF)%nat ->
  ((exists b, 0 <= b < sb_size (sb s) /\ used s b = false) ->
     exists a s', balloc ROOTDEV s = Ok a s' /\ 0 <= a < sb_size (sb s) /\
       used s a = false /\ (forall i, 0 <= i < a -> used s i = true) /\
       (forall i, 0 <= i < sb_size (sb s) -> used s' i = used s i || (i =? a)) /\
       dblk s' a = zero_block /\
       (forall j, bno_ok j -> j <> a -> j <> bmapb (sb s) a -> dblk s' j = dblk s j)) /\
  ((forall b, 0 <= b < sb_size (sb s) -> used s b = true) ->
     balloc ROOTDEV s = Stop (Panic "balloc: out of blocks")).
Proof.
  intros Hsb Hmeta Hok Hlen. pose proof (sbo_size _ Hsb) as Hsz. split.
  - intros (b & Hb & Hf). destruct (wp_inv _ _ _ (balloc_wp s held b Hsb Hmeta Hok Hlen Hb Hf))
      as (a & s' & Hrun & [Hok' Hs' Hr Hfa Hblk] & Hbef).
    assert (bno_ok a) as Ha by (unfold bno_ok; lia).
    exists a, s'. refine (conj Hrun (conj Hr (conj Hfa (conj Hbef (conj _ (conj _ _)))))).
    + intros i Hi. pose proof (bmapb_ok s i Hsb ltac:(lia)) as Hbi.
      unfold used. rewrite Hs', Hblk by done.
      rewrite decide_False by (intros Heq; by apply (Hmeta a i Hr Hi Hfa)).
      case_decide as Hbm.
      * rewrite bit_set; [|apply dblk_block|apply Z.mod_pos_bound; unfold BPB, BSIZE; lia..].
        f_equal. unfold bmapb, BMAP_BLOCK in Hbm. destruct Hsb as [_ Hsm].
        unfold BPB, BSIZE in *. rewrite !u32_id in Hbm by dlia.
        destruct (Z.eqb_spec (i mod 8192) (a mod 8192)), (Z.eqb_spec i a); try done; dlia.
      * destruct (Z.eqb_spec i a) as [->|]; [done|]. by rewrite orb_false_r.
    + by rewrite Hblk, decide_True by done.
    + intros j Hj Hja Hjb. by rewrite Hblk, !decide_False by done.
  - intros Hall. destruct (wp_inv _ _ _ (balloc_scan_wp s held Hsb Hmeta Hok Hlen))
      as ([a|] & s' & Hrun & HQ).
    + destruct HQ as [[_ _ Hr Hfa _] _]. by rewrite Hall in Hfa.
    + unfold balloc. rewrite (bind_ok _ _ s s s) by done. by rewrite (bind_ok _ _ _ _ _ Hrun).
Qed.

(** [bfree] of a marked block clears exactly its bit and touches no block
    but its bitmap block; of a block already free it panics. *)
Theorem bfree_clears `{!BlockDevOk D} s held b :
  sb_ok (sb s) -> bio_ok s held -> (length held + 1 < NBUF)%nat -> 0 <= b < sb_size (sb s) ->
  (used s b = true ->
     exists s', bfree ROOTDEV b s = Ok tt s' /\ bio_ok s' held /\
       (forall i, 0 <= i < sb_size (sb s) -> used s' i = used s i && negb (i =? b)) /\
       (forall j, bno_ok j -> j <> bmapb (sb s) b -> dblk s' j = dblk s j)) /\
  (used s b = false -> bfree ROOTDEV b s = Stop (Panic "bfree: freeing free block")).
Proof.
  intros Hsb Hok Hlen Hb. pose proof (sbo_size _ Hsb) as Hsz. split.
  - intros Hu. destruct (wp_inv _ _ _ (bfree_wp s held b Hsb Hok Hlen Hb Hu))
      as ([] & s' & Hrun & Hok' & Hs' & Hblk).
    exists s'. refine (conj Hrun (conj Hok' (conj _ _))).
    + intros i Hi. pose proof (bmapb_ok s i Hsb ltac:(lia)) as Hbi.
      unfold used. rewrite Hs', Hblk by done. case_decide as Hbm.
      * rewrite bit_clear; [|apply dblk_block|apply Z.mod_pos_bound; unfold BPB, BSIZE; lia..].
        f_equal. f_equal. unfold bmapb, BMAP_BLOCK in Hbm. destruct Hsb as [_ Hsm].
        unfold BPB, BSIZE in *. rewrite !u32_id in Hbm by dlia.
        destruct (Z.eqb_spec (i mod 8192) (b mod 8192)), (Z.eqb_spec i b); try done; dlia.
      * destruct (Z.eqb_spec i b) as [->|]; [done|]. by rewrite andb_true_r.
    + intros j Hj Hjb. by rewrite Hblk, decide_False by done.
  - intros Hu. by apply bfree_free_panics with held.
Qed.
End spec.

(* ------------------------------------------------------------------ *)
(** ** A concrete disk *)

(** A hundred blocks with the bitmap in block 2; the first fifty are in use. *)
Definition sample_sb : superblock := SuperBlock 270544960 100 50 20 0 0 3 2.
Definition sample_disk : memdisk := {[ 4 := replicate 6 255 ++ [3] ]}.
Definition sample_bio : bio memdisk :=
  match binit (bio0 sample_disk sample_sb) with Ok _ s => s | _ => bio0 sample_disk sample_sb end.

Lemma sample_binit : binit (bio0 sample_disk sample_sb) = Ok tt sample_bio.
Proof. vm_compute. reflexivity. Qed.
Lemma sample_bio_ok : bio_ok sample_bio [] /\ bdisk sample_bio = sample_disk /\ sb sample_bio = sample_sb.
Proof.
  exact (wp_ok _ _ _ _ _ sample_binit (binit_ok sample_disk sample_sb)).
Qed.
Lemma sample_sb_ok : sb_ok sample_sb.
Proof. split; cbn; lia. Qed.
Lemma sample_used_range : forallb (fun i => used sample_bio (Z.of_nat i) || (50 <=? Z.of_nat i)) (seq 0 100) = true.
Proof. vm_compute. reflexivity. Qed.
Lemma sample_bitmap_used : bitmap_used sample_bio.
Proof.
  destruct sample_bio_ok as (_ & _ & Hs). intros a b Ha Hb Hf. rewrite Hs in *. cbn in Ha, Hb.
  pose proof (proj1 (forallb_forall _ _) sample_used_range (Z.to_nat a)) as Hall.
  cbn beta in Hall.
  rewrite Z2Nat.id, Hf in Hall by lia. cbn [orb] in Hall.
  assert (50 <= a) by (apply Z.leb_le, Hall, in_seq; lia).
  unfold bmapb, BMAP_BLOCK, BPB, BSIZE. cbn [sb_bmapstart sample_sb]. rewrite u32_id by dlia. dlia.
Qed.
(** The state after reading block 7, and the buffer it was read into. *)
Definition sample_read : res (bio memdisk) nat := bread ROOTDEV 7 sample_bio.
Definition sample_read_state : bio memdisk := match sample_read with Ok _ s => s | _ => sample_bio end.

Lemma sample_read_eq : sample_read = Ok 0%nat sample_read_state.
Proof. vm_compute. reflexivity. Qed.
#[local] Opaque sample_bio sample_read_state.

Lemma cache_refines_store_witness :
  binit (bio0 sample_disk sample_sb) = Ok tt sample_bio /\
  bread ROOTDEV 7 sample_bio = Ok 0%nat sample_read_state /\
  exists y, bcache sample_read_state !! 0%nat = Some y /\ b_blockno y = 7 /\
    b_data y = dev_read sample_disk 14.
Proof.
  pose proof sample_read_eq as Hr. unfold sample_read in Hr.
  split; [exact sample_binit|]. split; [exact Hr|].
  destruct (cache_refines_store sample_disk sample_sb sample_bio
    (sample_read_state, [(0%nat, 7)], fun k => dev_read sample_disk (u32 (k * 2)))
    sample_binit) as (_ & Hh & _).
  - apply rtc_once, cs_read; [unfold bno_ok; lia|apply Nat.ltb_lt; reflexivity|exact Hr].
  - destruct (Hh 0%nat 7) as (y & Hy & Hb & Hd); [apply list_elem_of_here|].
    exists y. exact (conj Hy (conj Hb Hd)).
Defined.

Lemma bget_lru_witness : exists s', brelse 0 sample_read_state = Ok tt s'.
Proof.
  assert (bio_ok sample_read_state [(0%nat, 7)] /\ exists l1 l2, lru_ok (bcache sample_read_state) (l1 ++ 0%nat :: l2))
    as (Hok & l1 & l2 & Hlru).
  { destruct (wp_ok _ _ _ _ _ sample_read_eq (bread_wp sample_bio [] 7 (proj1 sample_bio_ok)
      ltac:(apply Nat.ltb_lt; reflexivity) ltac:(unfold bno_ok; lia))) as [Hok _].
    split; [exact Hok|].
    destruct (ok_lru _ _ Hok) as [order Hlru].
    destruct (list_elem_of_split order 0%nat) as (l1 & l2 & ->);
      [apply (lru_in _ _ _ Hlru); apply Nat.ltb_lt; reflexivity|]. by exists l1, l2. }
  destruct (bget_lru sample_read_state [] 0 7 l1 l2 ROOTDEV 9 Hok ltac:(apply Nat.ltb_lt; reflexivity) Hlru)
    as (s' & Hrun & _).
  exists s'. exact Hrun.
Defined.

Lemma balloc_first_free_witness :
  exists a s', balloc ROOTDEV sample_bio = Ok a s' /\ used sample_bio a = false /\ dblk s' a = zero_block.
Proof.
  destruct sample_bio_ok as (Hok & _ & Hs).
  destruct (proj1 (balloc_first_free sample_bio [] ltac:(rewrite Hs; exact sample_sb_ok)
    sample_bitmap_used Hok ltac:(apply Nat.ltb_lt; reflexivity))) as (a & s' & Hrun & _ & Hf & _ & _ & Hz & _).
  - exists 50. rewrite Hs. cbn. split; [lia|]. vm_compute. reflexivity.
  - exists a, s'. split; [exact Hrun|]. split; [exact Hf|exact Hz].
Defined.

Lemma bfree_clears_witness : exists s', bfree ROOTDEV 49 sample_bio = Ok tt s' /\ bio_ok s' [].
Proof.
  destruct sample_bio_ok as (Hok & _ & Hs).
  destruct (proj1 (bfree_clears sample_bio [] 49 ltac:(rewrite Hs; exact sample_sb_ok) Hok
    ltac:(apply Nat.ltb_lt; reflexivity) ltac:(rewrite Hs; cbn; lia))) as (s' & Hrun & Hok' & _).
  - vm_compute. reflexivity.
  - exists s'. split; [exact Hrun|exact Hok'].
Defined.
