(* ===== verification/Fs.v ===== *)
(** The file system, [kernel/fs/fs.c]: block mapping, reading and writing
    inodes, directories and path resolution over the block cache. *)

From S2P Require Import Prelude Memory Kalloc Vm Str Bio.

(* ------------------------------------------------------------------ *)
(** ** Data *)

Definition FSMAGIC : Z := 270544960.
Definition T_DIR : Z := 1.
Definition T_FILE : Z := 2.
Definition NDIRECT : nat := 11.
Definition NINDIRECT : nat := 256.
Definition NDINDIRECT : Z := 65536.
Definition MAXFILE : Z := 65803.
Definition IPB : Z := 16.

(** [struct inode]; [i_addrs] is [addrs[NDIRECT + 2]]. *)
Record inode := Inode {
  i_dev : Z; i_inum : Z; i_ref : Z; i_valid : Z; i_type : Z; i_major : Z; i_minor : Z;
  i_nlink : Z; i_size : Z; i_addrs : list Z;
}.
Definition inode_set_dev (v : Z) (x : inode) : inode :=
  Inode v (i_inum x) (i_ref x) (i_valid x) (i_type x) (i_major x) (i_minor x)
    (i_nlink x) (i_size x) (i_addrs x).
Definition inode_set_inum (v : Z) (x : inode) : inode :=
  Inode (i_dev x) v (i_ref x) (i_valid x) (i_type x) (i_major x) (i_minor x) (i_nlink x)
    (i_size x) (i_addrs x).
Definition inode_set_ref (v : Z) (x : inode) : inode :=
  Inode (i_dev x) (i_inum x) v (i_valid x) (i_type x) (i_major x) (i_minor x)
    (i_nlink x) (i_size x) (i_addrs x).
Definition inode_set_valid (v : Z) (x : inode) : inode :=
  Inode (i_dev x) (i_inum x) (i_ref x) v (i_type x) (i_major x) (i_minor x) (i_nlink x)
    (i_size x) (i_addrs x).
Definition inode_set_type (v : Z) (x : inode) : inode :=
  Inode (i_dev x) (i_inum x) (i_ref x) (i_valid x) v (i_major x) (i_minor x) (i_nlink x)
    (i_size x) (i_addrs x).
Definition inode_set_major (v : Z) (x : inode) : inode :=
  Inode (i_dev x) (i_inum x) (i_ref x) (i_valid x) (i_type x) v (i_minor x) (i_nlink x)
    (i_size x) (i_addrs x).
Definition inode_set_minor (v : Z) (x : inode) : inode :=
  Inode (i_dev x) (i_inum x) (i_ref x) (i_valid x) (i_type x) (i_major x) v (i_nlink x)
    (i_size x) (i_addrs x).
Definition inode_set_nlink (v : Z) (x : inode) : inode :=
  Inode (i_dev x) (i_inum x) (i_ref x) (i_valid x) (i_type x) (i_major x) (i_minor x) v
    (i_size x) (i_addrs x).
Definition inode_set_size (v : Z) (x : inode) : inode :=
  Inode (i_dev x) (i_inum x) (i_ref x) (i_valid x) (i_type x) (i_major x) (i_minor x)
    (i_nlink x) v (i_addrs x).
Definition inode_set_addrs (v : list Z) (x : inode) : inode :=
  Inode (i_dev x) (i_inum x) (i_ref x) (i_valid x) (i_type x) (i_major x) (i_minor x)
    (i_nlink x) (i_size x) v.

(** The state the file system works on: memory and its allocator, the block
    cache and disk, and [icache.inode]. An inode pointer is an index. *)
Record fs (D : Type) := Fs { f_km : kmem; f_bio : bio D; icache : list inode }.
Arguments Fs {D}.
Arguments f_km {D}.
Arguments f_bio {D}.
Arguments icache {D}.

(** [struct dinode] at byte [off] of a block: type, major, minor and nlink are
    [short]s, size and the thirteen addresses [uint]s. *)
Definition get16 (d : list Z) (off : nat) : Z := le_val (slice d off 2).
Definition get32 (d : list Z) (off : nat) : Z := le_val (slice d off 4).
Definition set16 (d : list Z) (off : nat) (v : Z) : list Z := blit d off (le_bytes 2 v).
Definition set32 (d : list Z) (off : nat) (v : Z) : list Z := blit d off (le_bytes 4 v).

Definition dinode_off (inum : Z) : nat := Z.to_nat (inum mod IPB * 64).

(** [memmove(ip->addrs, dip->addrs, sizeof(ip->addrs))] as words, and back. *)
Definition get_addrs (d : list Z) (off : nat) : list Z :=
  (fun i => get32 d (off + 4 * i)) <$> seq 0 13.
Definition addrs_bytes (addrs : list Z) : list Z := addrs ≫= le_bytes 4.

(** [struct dirent]: a 16-bit inode number and fourteen bytes of name. *)
Record dirent := Dirent { de_inum : Z; de_name : list Z }.
Definition dirent_of (b : list Z) : dirent := Dirent (get16 b 0) (slice b 2 DIRSIZ).
Definition dirent_bytes (de : dirent) : list Z := le_bytes 2 (de_inum de) ++ de_name de.

(** Where [readi] puts the bytes: a user address, a physical address of the
    kernel, or a local of the caller (the bytes are then returned). *)
Inductive rdst := DUser (pagetable va : Z) | DPhys (a : Z) | DLocal (bs : list Z).

Section fs.
Context {D : Type} `{BlockDev D}.

Definition lkm {A} (m : M kmem A) : M (fs D) A :=
  zoom f_km (fun k s => Fs k (f_bio s) (icache s)) m.
Definition lbio {A} (m : M (bio D) A) : M (fs D) A :=
  zoom f_bio (fun b s => Fs (f_km s) b (icache s)) m.

Definition geti (ip : nat) : M (fs D) inode :=
  fun s => match icache s !! ip with Some x => Ok x s | None => Stop (Fault "inode") end.
Definition seti (ip : nat) (f : inode -> inode) : M (fs D) unit :=
  fun s => match icache s !! ip with
           | Some x => Ok tt (Fs (f_km s) (f_bio s) (<[ip := f x]> (icache s)))
           | None => Stop (Fault "inode")
           end.
Definition getsb : M (fs D) superblock := gets (fun s => sb (f_bio s)).

(* ------------------------------------------------------------------ *)
(** ** Block mapping *)

(** [ip->addrs[k]], allocated when it is 0. *)
Definition bmap_addr (ip k : nat) : M (fs D) Z :=
  let! x := geti ip in
  let addr := default 0 (i_addrs x !! k) in
  if addr =? 0 then
    let! a := lbio (balloc (i_dev x)) in
    seti ip (fun x => inode_set_addrs (<[k := a]> (i_addrs x)) x) ;;;
    ret a
  else ret addr.

(** Entry [k] of the index block [blk], allocated when it is 0. *)
Definition bmap_entry (dev blk : Z) (k : nat) : M (fs D) Z :=
  let! bp := lbio (bread dev blk) in
  let! x := lbio (getb bp) in
  let! addr :=
    (if get32 (b_data x) (4 * k) =? 0 then
       let! a := lbio (balloc dev) in
       let! x := lbio (getb bp) in
       lbio (bstore bp (set32 (b_data x) (4 * k) a)) ;;;
       ret a
     else ret (get32 (b_data x) (4 * k))) in
  lbio (brelse bp) ;;;
  ret addr.

Definition bmap (ip : nat) (bn : Z) : M (fs D) Z :=
  if bn <? Z.of_nat NDIRECT then bmap_addr ip (Z.to_nat bn)
  else
    let bn := bn - Z.of_nat NDIRECT in
    if bn <? Z.of_nat NINDIRECT then
      let! addr := bmap_addr ip NDIRECT in
      let! x := geti ip in
      bmap_entry (i_dev x) addr (Z.to_nat bn)
    else
      let bn := bn - Z.of_nat NINDIRECT in
      if bn <? NDINDIRECT then
        let first := bn / Z.of_nat NINDIRECT in
        let second := bn mod Z.of_nat NINDIRECT in
        let! addr := bmap_addr ip (NDIRECT + 1) in
        let! x := geti ip in
        let! addr2 := bmap_entry (i_dev x) addr (Z.to_nat first) in
        bmap_entry (i_dev x) addr2 (Z.to_nat second)
      else panic "bmap: out of range".

(* ------------------------------------------------------------------ *)
(** ** Inodes *)

Definition idup (ip : nat) : M (fs D) nat :=
  seti ip (fun x => inode_set_ref (s32 (i_ref x + 1)) x) ;;; ret ip.

(** The scan of [iget]: a hit, or the first unused entry. *)
Fixpoint iget_scan (dev inum : Z) (l : list inode) (i : nat) (empty : option nat)
    : nat + option nat :=
  match l with
  | [] => inr empty
  | x :: l' =>
      if (0 <? i_ref x) && (i_dev x =? dev) && (i_inum x =? inum) then inl i
      else iget_scan dev inum l' (S i)
             (match empty with
              | None => if i_ref x =? 0 then Some i else None
              | Some _ => empty
              end)
  end.

Definition iget (dev inum : Z) : M (fs D) nat :=
  let! s := get in
  match iget_scan dev inum (icache s) 0 None with
  | inl ip => seti ip (fun x => inode_set_ref (s32 (i_ref x + 1)) x) ;;; ret ip
  | inr (Some ip) =>
      seti ip (fun x => inode_set_valid 0 (inode_set_ref 1 (inode_set_inum inum
                          (inode_set_dev dev x)))) ;;;
      ret ip
  | inr None => panic "iget: no inodes"
  end.

(** The block of an inode: [sb.inodestart + inum / IPB]. *)
Definition iblock (sb : superblock) (inum : Z) : Z := u32 (sb_inodestart sb + inum / IPB).

(** The disk inode of [inum] as [ilock] copies it into [ip]. *)
Definition dinode_load (d : list Z) (off : nat) (x : inode) : inode :=
  Inode (i_dev x) (i_inum x) (i_ref x) (i_valid x)
    (s16 (get16 d off)) (s16 (get16 d (off + 2))) (s16 (get16 d (off + 4)))
    (s16 (get16 d (off + 6))) (get32 d (off + 8)) (get_addrs d (off + 12)).
(** The assignments of [iupdate] to the disk inode. *)
Definition dinode_store (d : list Z) (off : nat) (x : inode) : list Z :=
  let d := set16 d off (i_type x) in
  let d := set16 d (off + 2) (i_major x) in
  let d := set16 d (off + 4) (i_minor x) in
  let d := set16 d (off + 6) (i_nlink x) in
  let d := set32 d (off + 8) (i_size x) in
  blit d (off + 12) (addrs_bytes (i_addrs x)).

Definition ilock (ip : nat) : M (fs D) unit :=
  (let! x := geti ip in
   when (i_valid x =? 0)
     (let! sb := getsb in
      let! bp := lbio (bread (i_dev x) (iblock sb (i_inum x))) in
      let! b := lbio (getb bp) in
      seti ip (dinode_load (b_data b) (dinode_off (i_inum x))) ;;;
      lbio (brelse bp) ;;;
      seti ip (inode_set_valid 1))) ;;;
  let! x := geti ip in
  when (i_type x =? 0) (panic "ilock: no type").

Definition iunlock (ip : nat) : M (fs D) unit :=
  let! x := geti ip in
  if 1 <=? i_ref x then ret tt else panic "iunlock".

Definition iupdate (ip : nat) : M (fs D) unit :=
  let! sb := getsb in
  let! x := geti ip in
  let! bp := lbio (bread (i_dev x) (iblock sb (i_inum x))) in
  let! b := lbio (getb bp) in
  lbio (bstore bp (dinode_store (b_data b) (dinode_off (i_inum x)) x)) ;;;
  lbio (brelse bp).

(** [ip->addrs[k]] is freed and cleared. *)
Definition itrunc_addr (ip k : nat) : M (fs D) unit :=
  let! x := geti ip in
  let addr := default 0 (i_addrs x !! k) in
  when (negb (addr =? 0))
    (lbio (bfree (i_dev x) addr) ;;;
     seti ip (fun x => inode_set_addrs (<[k := 0]> (i_addrs x)) x)).

(** Free every block the index block held by [bp] points to. *)
Definition free_entries (dev : Z) (bp : nat) : M (fs D) unit :=
  for_range 0 NINDIRECT (fun i =>
    let! b := lbio (getb bp) in
    let a := get32 (b_data b) (4 * i) in
    when (negb (a =? 0)) (lbio (bfree dev a))).

Definition itrunc_single (ip : nat) : M (fs D) unit :=
  let! x := geti ip in
  let addr := default 0 (i_addrs x !! NDIRECT) in
  when (negb (addr =? 0))
    (let! bp := lbio (bread (i_dev x) addr) in
     free_entries (i_dev x) bp ;;;
     lbio (brelse bp) ;;;
     itrunc_addr ip NDIRECT).

Definition itrunc_double (ip : nat) : M (fs D) unit :=
  let! x := geti ip in
  let dev := i_dev x in
  let addr := default 0 (i_addrs x !! (NDIRECT + 1)%nat) in
  when (negb (addr =? 0))
    (let! bp := lbio (bread dev addr) in
     for_range 0 NINDIRECT (fun i =>
       let! b := lbio (getb bp) in
       let a := get32 (b_data b) (4 * i) in
       when (negb (a =? 0))
         (let! bp2 := lbio (bread dev a) in
          free_entries dev bp2 ;;;
          lbio (brelse bp2) ;;;
          let! b := lbio (getb bp) in
          lbio (bfree dev (get32 (b_data b) (4 * i))))) ;;;
     lbio (brelse bp) ;;;
     itrunc_addr ip (NDIRECT + 1)).

Definition itrunc (ip : nat) : M (fs D) unit :=
  for_range 0 NDIRECT (itrunc_addr ip) ;;;
  itrunc_single ip ;;;
  itrunc_double ip ;;;
  seti ip (inode_set_size 0) ;;;
  iupdate ip.

Definition iput (ip : nat) : M (fs D) unit :=
  seti ip (fun x => inode_set_ref (s32 (i_ref x - 1)) x) ;;;
  (let! x := geti ip in
   when ((i_ref x =? 0) && negb (i_valid x =? 0) && (i_nlink x =? 0))
     (itrunc ip ;;; seti ip (inode_set_type 0) ;;; iupdate ip)) ;;;
  let! x := geti ip in
  when (i_ref x =? 0) (seti ip (inode_set_valid 0)).

Definition iunlockput (ip : nat) : M (fs D) unit := iunlock ip ;;; iput ip.

(** One round of the loop of [ialloc]; the loop variable is [inum]. *)
Definition ialloc_body (dev type : Z) (inum : Z) : M (fs D) (Z + nat) :=
  let! sb := getsb in
  if negb (inum <? sb_ninodes sb) then panic "ialloc: no inodes"
  else
    let! bp := lbio (bread dev (iblock sb inum)) in
    let! b := lbio (getb bp) in
    let off := dinode_off inum in
    if get16 (b_data b) off =? 0 then
      let d := blit (b_data b) off (replicate 64 0) in
      lbio (bstore bp (set16 d off type)) ;;;
      lbio (brelse bp) ;;;
      let! ip := iget dev inum in
      ret (inr ip)
    else lbio (brelse bp) ;;; ret (inl (inum + 1)).

Definition ialloc (dev type : Z) : M (fs D) nat :=
  let! sb := getsb in
  loop (Z.to_nat (sb_ninodes sb) + 1) (ialloc_body dev type) 1.

(* ------------------------------------------------------------------ *)
(** ** Reading and writing *)

(** Delivery of a piece of a block. [None]: [copyout] failed. *)
Definition deliver (dst : rdst) (bs : list Z) : M (fs D) (option rdst) :=
  match dst with
  | DUser pagetable va =>
      let! r := lkm (copyout pagetable va bs) in
      if r <? 0 then ret None
      else ret (Some (DUser pagetable (u64 (va + Z.of_nat (length bs)))))
  | DPhys a =>
      lkm (upd_mem (fun m => store_bytes m a bs)) ;;;
      ret (Some (DPhys (u64 (a + Z.of_nat (length bs)))))
  | DLocal l => ret (Some (DLocal (l ++ bs)))
  end.

(** One round of the loop of [readi]; the loop variables are [tot], [off], [dst]. *)
Definition readi_body (ip : nat) (n : Z) (x : Z * Z * rdst)
    : M (fs D) (Z * Z * rdst + Z * rdst) :=
  let '(tot, off, dst) := x in
  if negb (tot <? n) then ret (inr (tot, dst))
  else
    let! blockno := bmap ip (off / BSIZE) in
    let! i := geti ip in
    let! bp := lbio (bread (i_dev i) blockno) in
    let m := BSIZE - off mod BSIZE in
    let m := if n - tot <? m then n - tot else m in
    let! b := lbio (getb bp) in
    let! r := deliver dst (slice (b_data b) (Z.to_nat (off mod BSIZE)) (Z.to_nat m)) in
    lbio (brelse bp) ;;;
    match r with
    | None => ret (inr (tot, dst))
    | Some dst => ret (inl (u32 (tot + m), u32 (off + m), dst))
    end.

(** [readi(ip, user_dst, dst, off, n)]: the count, and the destination advanced
    past the bytes delivered. *)
Definition readi (ip : nat) (dst : rdst) (off n : Z) : M (fs D) (Z * rdst) :=
  let! x := geti ip in
  if (i_size x <? off) || (u32 (off + n) <? off) then ret (0, dst)
  else
    let n := if i_size x <? u32 (off + n) then i_size x - off else n in
    let! r := loop (Z.to_nat (n / BSIZE) + 3) (readi_body ip n) (0, off, dst) in
    ret (s32 (fst r), snd r).

(** [readi(ip, 0, &local, off, n)]. *)
Definition readi_local (ip : nat) (off n : Z) : M (fs D) (Z * list Z) :=
  let! r := readi ip (DLocal []) off n in
  ret (fst r, match snd r with DLocal bs => bs | _ => [] end).

(** One round of the second loop of [writei]; the loop variables are [tot],
    [off] and the bytes [src] still to write. The result is the final [off]. *)
Definition writei_body (ip : nat) (n : Z) (x : Z * Z * list Z)
    : M (fs D) (Z * Z * list Z + Z) :=
  let '(tot, off, src) := x in
  if negb (tot <? n) then ret (inr off)
  else
    let! blockno := bmap ip (off / BSIZE) in
    let! i := geti ip in
    let! bp := lbio (bread (i_dev i) blockno) in
    let m := BSIZE - off mod BSIZE in
    let m := if n - tot <? m then n - tot else m in
    let! b := lbio (getb bp) in
    lbio (bstore bp
      (blit (b_data b) (Z.to_nat (off mod BSIZE)) (take (Z.to_nat m) src))) ;;;
    lbio (brelse bp) ;;;
    ret (inl (u32 (tot + m), u32 (off + m), drop (Z.to_nat m) src)).

(** One round of the zero fill of [writei], over the recursive call. *)
Definition writei_gap (writei : nat -> list Z -> Z -> M (fs D) Z) (ip : nat) (off : Z)
    (_ : unit) : M (fs D) (unit + bool) :=
  let! x := geti ip in
  if negb (i_size x <? off) then ret (inr true)
  else
    let gap := off - i_size x in
    let gap := if 128 <? gap then 128 else gap in
    let! r := writei ip (replicate (Z.to_nat gap) 0) (i_size x) in
    if negb (r =? gap) then ret (inr false) else ret (inl tt).

(** [writei(ip, user_src, src, off, n)] with [src] the [n] bytes to write; both
    values of [user_src] do the same. The recursion of the zero fill starts at
    the file's size, so two levels suffice. *)
Fixpoint writei_rec (depth : nat) (ip : nat) (src : list Z) (off : Z) : M (fs D) Z :=
  match depth with
  | O => stop_with NoFuel
  | S depth' =>
      let n := Z.of_nat (length src) in
      if u32 (off + n) <? off then ret (-1)
      else if MAXFILE * BSIZE <? u32 (off + n) then ret (-1)
      else if n =? 0 then ret 0
      else
        let! x := geti ip in
        let! ok :=
          (if i_size x <? off then
             loop (Z.to_nat ((off - i_size x) / 128) + 2)
               (writei_gap (writei_rec depth') ip off) tt
           else ret true) in
        if negb ok then ret (-1)
        else
          let! off := loop (Z.to_nat (n / BSIZE) + 3) (writei_body ip n) (0, off, src) in
          (let! x := geti ip in
           when ((0 <? n) && (i_size x <? off))
             (seti ip (inode_set_size off) ;;; iupdate ip)) ;;;
          ret (s32 n)
  end.
Definition writei : nat -> list Z -> Z -> M (fs D) Z := writei_rec 2.

(* ------------------------------------------------------------------ *)
(** ** Directories and paths *)

(** The comparison loop of [dirlookup]: [n] characters are left. *)
Fixpoint name_match (n : nat) (a b : list Z) : bool :=
  match n with
  | O => true
  | S n' =>
      if negb (chr a =? chr b) then false
      else if chr a =? 0 then true
      else name_match n' (tl a) (tl b)
  end.

(** One round of [dirlookup]; the result is the inode with the entry's offset. *)
Definition dirlookup_body (dp : nat) (name : list Z) (off : Z)
    : M (fs D) (Z + option (nat * Z)) :=
  let! x := geti dp in
  if negb (off <? i_size x) then ret (inr None)
  else
    let! r := readi_local dp off 16 in
    if negb (fst r =? 16) then panic "dirlookup: read error"
    else
      let de := dirent_of (snd r) in
      if de_inum de =? 0 then ret (inl (u32 (off + 16)))
      else if name_match DIRSIZ (de_name de) name then
        let! x := geti dp in
        let! ip := iget (i_dev x) (de_inum de) in
        ret (inr (Some (ip, off)))
      else ret (inl (u32 (off + 16))).

Definition dirlookup (dp : nat) (name : list Z) : M (fs D) (option (nat * Z)) :=
  let! x := geti dp in
  if negb (i_type x =? T_DIR) then panic "dirlookup: not a directory"
  else loop (Z.to_nat (i_size x / 16) + 2) (dirlookup_body dp name) 0.

(** The loops of [skipelem]: past the slashes, and to the next slash or NUL. *)
Fixpoint skip_slashes (path : list Z) : list Z :=
  match path with
  | c :: path' => if c =? 47 then skip_slashes path' else path
  | [] => []
  end.
Fixpoint span_elem (path : list Z) : list Z * list Z :=
  match path with
  | c :: path' =>
      if (c =? 47) || (c =? 0) then ([], path)
      else let '(s, rest) := span_elem path' in (c :: s, rest)
  | [] => ([], [])
  end.

(** [skipelem(path, name)]: the rest of the path and the array [name], or NULL. *)
Definition skipelem (path name : list Z) : option (list Z * list Z) :=
  let path := skip_slashes path in
  if chr path =? 0 then None
  else
    let '(s, path) := span_elem path in
    let len := length s in
    let name :=
      if (DIRSIZ <=? len)%nat then blit name 0 (take DIRSIZ s)
      else <[len := 0]> (blit name 0 s) in
    Some (skip_slashes path, name).

(** [myproc()->cwd] or the root. *)
Definition namei_start (cwd : option nat) (path : list Z) : M (fs D) nat :=
  if chr path =? 47 then iget ROOTDEV ROOTINO
  else match cwd with
       | None => iget ROOTDEV ROOTINO
       | Some ip => idup ip
       end.

(** One round of [namei]; the loop variables are [path], [name] and [ip]. *)
Definition namei_body (x : list Z * list Z * nat) : M (fs D) (list Z * list Z * nat + option nat) :=
  let '(path, name, ip) := x in
  match skipelem path name with
  | None => ret (inr (Some ip))
  | Some (path, name) =>
      ilock ip ;;;
      let! i := geti ip in
      if negb (i_type i =? T_DIR) then iunlockput ip ;;; ret (inr None)
      else
        let! r := dirlookup ip name in
        match r with
        | None => iunlockput ip ;;; ret (inr None)
        | Some (next, _) => iunlockput ip ;;; ret (inl (path, name, next))
        end
  end.

(** [namei(path)]; [cwd] is the process's, and the array [name] starts with
    whatever is on the stack. *)
Definition namei (cwd : option nat) (name path : list Z) : M (fs D) (option nat) :=
  let! ip := namei_start cwd path in
  loop (length path + 2) namei_body (path, name, ip).

(** [nameiparent(path, name)]: the directory and the array [name]. *)
Definition nameiparent_body (x : list Z * list Z * nat)
    : M (fs D) (list Z * list Z * nat + option nat * list Z) :=
  let '(path, name, ip) := x in
  match skipelem path name with
  | None => iput ip ;;; ret (inr (None, name))
  | Some (path, name) =>
      ilock ip ;;;
      let! i := geti ip in
      if negb (i_type i =? T_DIR) then iunlockput ip ;;; ret (inr (None, name))
      else if chr path =? 0 then iunlock ip ;;; ret (inr (Some ip, name))
      else
        let! r := dirlookup ip name in
        match r with
        | None => iunlockput ip ;;; ret (inr (None, name))
        | Some (next, _) => iunlockput ip ;;; ret (inl (path, name, next))
        end
  end.
Definition nameiparent (cwd : option nat) (path name : list Z)
    : M (fs D) (option nat * list Z) :=
  let! ip := namei_start cwd path in
  loop (length path + 2) nameiparent_body (path, name, ip).

(** The search for a free slot in [dirlink]. *)
Definition dirlink_slot (dp : nat) (off : Z) : M (fs D) (Z + Z) :=
  let! x := geti dp in
  if negb (off <? i_size x) then ret (inr off)
  else
    let! r := readi_local dp off 16 in
    if negb (fst r =? 16) then panic "dirlink: readi"
    else if de_inum (dirent_of (snd r)) =? 0 then ret (inr off)
    else ret (inl (u32 (off + 16))).

Definition dirlink (dp : nat) (name : list Z) (inum : Z) : M (fs D) Z :=
  let! r := dirlookup dp name in
  match r with
  | Some (ip, _) => iput ip ;;; ret (-1)
  | None =>
      let! x := geti dp in
      let! off := loop (Z.to_nat (i_size x / 16) + 2) (dirlink_slot dp) 0 in
      let de := Dirent (u16 inum)
        (safestrcpy (replicate DIRSIZ 0) name (Z.of_nat DIRSIZ)) in
      let! w := writei dp (dirent_bytes de) off in
      if negb (w =? 16) then ret (-1) else ret 0
  end.

(** The superblock is the first 32 bytes of block 1. *)
Definition superblock_of (d : list Z) : superblock :=
  SuperBlock (get32 d 0) (get32 d 4) (get32 d 8) (get32 d 12)
    (get32 d 16) (get32 d 20) (get32 d 24) (get32 d 28).

(** [fsinit(dev)]; [virtio_disk_init] changes nothing the file system sees. *)
Definition fsinit (dev : Z) : M (fs D) unit :=
  lbio binit ;;;
  let! bp := lbio (bread dev 1) in
  let! b := lbio (getb bp) in
  lbio (modify (fun s => Bio (bcache s) (bdisk s) (superblock_of (b_data b)) (bio_count s))) ;;;
  lbio (brelse bp) ;;;
  let! sb := getsb in
  if negb (sb_magic sb =? FSMAGIC) then panic "invalid file system"
  else for_range 0 NINODE (fun i =>
         seti i (fun x => inode_set_ref 0 (inode_set_valid 0 x))).

(** [stati(ip, st)]: the 56 bytes of [struct stat]. *)
Definition stat_bytes (x : inode) : list Z :=
  le_bytes 4 (i_dev x) ++ le_bytes 4 (i_inum x) ++ le_bytes 2 (i_type x) ++
  le_bytes 2 (i_nlink x) ++ replicate 4 0 ++ le_bytes 8 (i_size x) ++
  le_bytes 8 1 ++ le_bytes 8 1 ++ le_bytes 8 1 ++ le_bytes 4 0 ++ le_bytes 4 0.
Definition stati (ip : nat) : M (fs D) (list Z) :=
  let! x := geti ip in ret (stat_bytes x).
End fs.

(** The inode cache before [fsinit]: zeroed memory. *)
Definition inode0 : inode := Inode 0 0 0 0 0 0 0 0 0 (replicate 13 0).
