(* ===== verification/FsInode.v ===== *)
(** Inodes on disk and in memory: the codec of [struct dinode] and
    [struct dirent], the inode cache, and [ilock], [iupdate] of
    [kernel/fs/fs.c] over the block cache. *)

From S2P Require Import Prelude Memory Kalloc Vm Str Bio BioSpec Fs.

(* ------------------------------------------------------------------ *)
(** ** Fields of a block *)

Lemma slice_blit_inside d off src k n :
  (off + length src <= length d)%nat -> (k + n <= length src)%nat ->
  slice (blit d off src) (off + k) n = slice src k n.
Proof.
  intros Hle Hk. apply list_eq. intros i. rewrite !lookup_slice. case_decide; [|done].
  rewrite lookup_blit by done. rewrite decide_True by lia. f_equal. lia.
Qed.

(** Adjacent writes are one. *)
Lemma blit_app d off a b :
  (off + length (a ++ b) <= length d)%nat ->
  blit (blit d off a) (off + length a) b = blit d off (a ++ b).
Proof.
  rewrite length_app. intros Hl. assert (length (blit d off a) = length d) as Hb by (apply length_blit; lia).
  apply list_eq. intros i. rewrite lookup_blit by lia.
  rewrite (lookup_blit d off (a ++ b)) by (rewrite length_app; lia).
  rewrite length_app. rewrite (lookup_blit d off a) by lia.
  repeat case_decide; try lia; try done.
  - rewrite lookup_app_r by lia. f_equal. lia.
  - by rewrite lookup_app_l by lia.
Qed.

Lemma get16_blit d off src o :
  (off + length src <= length d)%nat -> (o + 2 <= off \/ off + length src <= o)%nat ->
  get16 (blit d off src) o = get16 d o.
Proof. intros Hl Hd. unfold get16. by rewrite slice_blit_disjoint. Qed.
Lemma get32_blit d off src o :
  (off + length src <= length d)%nat -> (o + 4 <= off \/ off + length src <= o)%nat ->
  get32 (blit d off src) o = get32 d o.
Proof. intros Hl Hd. unfold get32. by rewrite slice_blit_disjoint. Qed.

Lemma length_addrs_bytes l : length (addrs_bytes l) = (4 * length l)%nat.
Proof.
  unfold addrs_bytes. induction l as [|a l IH]; [done|].
  cbn [mbind list_bind]. rewrite length_app, length_le_bytes, IH. cbn. lia.
Qed.

Lemma slice_addrs_bytes l i a :
  l !! i = Some a -> slice (addrs_bytes l) (4 * i) 4 = le_bytes 4 a.
Proof.
  revert i. induction l as [|b l IH]; intros i Hi; [done|].
  change (addrs_bytes (b :: l)) with (le_bytes 4 b ++ addrs_bytes l).
  destruct i as [|i]; cbn in Hi.
  - injection Hi as ->. unfold slice. cbn [Nat.mul drop].
    apply take_app_length'. by rewrite length_le_bytes.
  - rewrite <- (IH i Hi). unfold slice.
    replace (4 * S i)%nat with (length (le_bytes 4 b) + 4 * i)%nat by (rewrite length_le_bytes; lia).
    by rewrite drop_app_add.
Qed.

Lemma get_addrs_blit d off l :
  length l = 13%nat -> (off + 52 <= length d)%nat -> Forall (fun a => 0 <= a < 4294967296) l ->
  get_addrs (blit d off (addrs_bytes l)) off = l.
Proof.
  intros Hl Hd Hr. unfold get_addrs. apply list_eq. intros i. rewrite list_lookup_fmap.
  assert (length (addrs_bytes l) = 52%nat) as Hb by (rewrite length_addrs_bytes; lia).
  destruct (decide (i < 13)%nat) as [Hi|Hi].
  - destruct (lookup_lt_is_Some_2 l i) as [a Ha]; [lia|].
    rewrite lookup_seq_lt by lia. cbn [fmap option_fmap option_map Nat.add]. rewrite Ha. f_equal.
    unfold get32. rewrite slice_blit_inside by lia. rewrite (slice_addrs_bytes l i a Ha), le_val_bytes.
    change (256 ^ Z.of_nat 4) with 4294967296. apply Z.mod_small. exact (Forall_lookup_1 _ _ _ _ Hr Ha).
  - rewrite lookup_seq_ge by lia. cbn. symmetry. apply lookup_ge_None. lia.
Qed.
Lemma get_addrs_disjoint d off src o :
  (off + length src <= length d)%nat -> (o + 52 <= off \/ off + length src <= o)%nat ->
  get_addrs (blit d off src) o = get_addrs d o.
Proof.
  intros Hl Hd. unfold get_addrs. apply list_fmap_ext. intros k i Hk.
  apply lookup_seq in Hk as [-> Hk]. apply get32_blit; [done|lia].
Qed.

(* ------------------------------------------------------------------ *)
(** ** The disk inode *)

(** The values the fields of [struct inode] can have. *)
Definition is_short (v : Z) : Prop := -32768 <= v < 32768.
Definition is_uint (v : Z) : Prop := 0 <= v < 4294967296.
Record inode_ok (x : inode) : Prop := {
  in_type : is_short (i_type x);
  in_major : is_short (i_major x);
  in_minor : is_short (i_minor x);
  in_nlink : is_short (i_nlink x);
  in_size : is_uint (i_size x);
  in_addrs : length (i_addrs x) = 13%nat;
  in_addr : Forall is_uint (i_addrs x);
}.

Lemma s16_u16 v : is_short v -> s16 (u16 v) = v.
Proof.
  unfold is_short, s16, u16. intros Hv. rewrite Z.mod_mod by done.
  destruct (Z.ltb_spec (v mod 65536) 32768); dlia.
Qed.

(** [y] with the fields the disk inode holds taken from [x]. *)
Definition with_disk_fields (x y : inode) : inode :=
  Inode (i_dev y) (i_inum y) (i_ref y) (i_valid y) (i_type x) (i_major x) (i_minor x)
    (i_nlink x) (i_size x) (i_addrs x).

(** The 64 bytes of [struct dinode]. *)
Definition dinode_bytes (x : inode) : list Z :=
  le_bytes 2 (i_type x) ++ le_bytes 2 (i_major x) ++ le_bytes 2 (i_minor x) ++
  le_bytes 2 (i_nlink x) ++ le_bytes 4 (i_size x) ++ addrs_bytes (i_addrs x).

Lemma length_dinode_bytes x : length (i_addrs x) = 13%nat -> length (dinode_bytes x) = 64%nat.
Proof.
  intros Ha. unfold dinode_bytes. rewrite !length_app, !length_le_bytes, length_addrs_bytes, Ha. done.
Qed.

Lemma dinode_store_blit d off x :
  (off + 64 <= length d)%nat -> length (i_addrs x) = 13%nat ->
  dinode_store d off x = blit d off (dinode_bytes x).
Proof.
  intros Hd Ha. pose proof (length_dinode_bytes x Ha) as Hb. unfold dinode_bytes in *.
  rewrite !length_app, !length_le_bytes in Hb. unfold dinode_store, set16, set32.
  rewrite !blit_app; rewrite ?length_app, ?length_le_bytes; [|lia..].
  replace (off + 2 + 2)%nat with (off + 4)%nat by lia. replace (off + 4 + 2)%nat with (off + 6)%nat by lia.
  replace (off + 6 + 2)%nat with (off + 8)%nat by lia. replace (off + 8 + 4)%nat with (off + 12)%nat by lia.
  done.
Qed.

Lemma slice_app_l (a b : list Z) n : length a = n -> slice (a ++ b) 0 n = a.
Proof. intros <-. unfold slice. cbn [drop]. apply take_app_length. Qed.
Lemma slice_app_r (a b : list Z) k n : (length a <= k)%nat -> slice (a ++ b) k n = slice b (k - length a) n.
Proof. intros Hk. unfold slice. by rewrite drop_app_ge by lia. Qed.

Lemma get_field16 d off src k a b v :
  (off + length src <= length d)%nat -> src = a ++ le_bytes 2 v ++ b -> length a = k ->
  get16 (blit d off src) (off + k) = u16 v.
Proof.
  intros Hl -> Hk. unfold get16. rewrite !length_app, length_le_bytes in Hl.
  rewrite slice_blit_inside by (rewrite !length_app, ?length_le_bytes; lia).
  rewrite slice_app_r, Hk, Nat.sub_diag by lia.
  rewrite slice_app_l by (by rewrite length_le_bytes). apply le_val_bytes.
Qed.
Lemma get_field32 d off src k a b v :
  (off + length src <= length d)%nat -> src = a ++ le_bytes 4 v ++ b -> length a = k ->
  get32 (blit d off src) (off + k) = u32 v.
Proof.
  intros Hl -> Hk. unfold get32. rewrite !length_app, length_le_bytes in Hl.
  rewrite slice_blit_inside by (rewrite !length_app, ?length_le_bytes; lia).
  rewrite slice_app_r, Hk, Nat.sub_diag by lia.
  rewrite slice_app_l by (by rewrite length_le_bytes). apply le_val_bytes.
Qed.

(** Loading what was stored gives the inode back. *)
Lemma dinode_load_store d off x y :
  (off + 64 <= length d)%nat -> inode_ok x ->
  dinode_load (dinode_store d off x) off y = with_disk_fields x y.
Proof.
  intros Hd [Ht Hma Hmi Hn Hs Ha Har]. rewrite dinode_store_blit by done.
  assert (off + length (dinode_bytes x) <= length d)%nat as Hl by (rewrite length_dinode_bytes; done).
  unfold dinode_load, with_disk_fields, is_uint in *. f_equal.
  - rewrite <- (Nat.add_0_r off) at 2. erewrite (get_field16 _ _ _ 0 []); [by apply s16_u16|done|done|done].
  - erewrite (get_field16 _ _ _ 2 (le_bytes 2 _)); [by apply s16_u16|done|done|done].
  - erewrite (get_field16 _ _ _ 4 (le_bytes 2 _ ++ le_bytes 2 _)); [by apply s16_u16|done|by rewrite <- app_assoc|done].
  - erewrite (get_field16 _ _ _ 6 (le_bytes 2 _ ++ le_bytes 2 _ ++ le_bytes 2 _));
      [by apply s16_u16|done|by rewrite <- !app_assoc|done].
  - erewrite (get_field32 _ _ _ 8 (le_bytes 2 _ ++ le_bytes 2 _ ++ le_bytes 2 _ ++ le_bytes 2 _));
      [by apply u32_id|done|by rewrite <- !app_assoc|done].
  - unfold dinode_bytes. rewrite !app_assoc, <- blit_app; rewrite !length_app, !length_le_bytes.
    + apply get_addrs_blit; [done| |done]. rewrite length_blit; rewrite ?length_app, ?length_le_bytes; lia.
    + rewrite length_addrs_bytes. lia.
Qed.

(** The other inodes of the block keep their place. *)
Lemma dinode_load_other d off x off' y :
  (off + 64 <= length d)%nat -> length (i_addrs x) = 13%nat ->
  (off' + 64 <= off \/ off + 64 <= off')%nat ->
  dinode_load (dinode_store d off x) off' y = dinode_load d off' y.
Proof.
  intros Hd Ha Hdis. rewrite dinode_store_blit by done. pose proof (length_dinode_bytes x Ha) as Hl.
  unfold dinode_load. rewrite !get16_blit, get32_blit, get_addrs_disjoint by (rewrite ?Hl; lia). done.
Qed.

(* ------------------------------------------------------------------ *)
(** ** ilock and iupdate *)

Section spec.
Context {D : Type} `{BlockDevOk D}.
Implicit Types s : fs D.

Lemma wp_lbio {A} (m : M (bio D) A) (Q : A -> fs D -> Prop) s :
  wp m (fun a b => Q a (Fs (f_km s) b (icache s))) (f_bio s) -> wp (lbio m) Q s.
Proof. exact (wp_zoom f_bio (fun b s => Fs (f_km s) b (icache s)) m Q s). Qed.
Lemma wp_geti ip (Q : inode -> fs D -> Prop) s x :
  icache s !! ip = Some x -> Q x s -> wp (geti ip) Q s.
Proof. intros Hx HQ. unfold wp, geti. by rewrite Hx. Qed.
Lemma wp_seti ip f (Q : unit -> fs D -> Prop) s x :
  icache s !! ip = Some x -> Q tt (Fs (f_km s) (f_bio s) (<[ip := f x]> (icache s))) -> wp (seti ip f) Q s.
Proof. intros Hx HQ. unfold wp, seti. by rewrite Hx. Qed.

(** The content of a block, through the cache or not. *)
Definition fblk s (k : Z) : list Z := dblk (f_bio s) k.
Definition fsb s : superblock := sb (f_bio s).

(** What no operation on blocks changes. *)
Record same_rest (s s' : fs D) : Prop := {
  sr_km : f_km s' = f_km s;
  sr_sb : fsb s' = fsb s;
}.
#[global] Instance same_rest_po : PreOrder same_rest.
Proof. split; [by split|]. intros a b c [? ?] [? ?]. split; congruence. Qed.

Lemma dinode_off_le inum : (dinode_off inum + 64 <= 1024)%nat.
Proof. unfold dinode_off, IPB. pose proof (Z.mod_pos_bound inum 16 ltac:(lia)). lia. Qed.

Lemma length_fblk s k : length (fblk s k) = 1024%nat.
Proof. apply (dblk_block (f_bio s) k). Qed.

(** The first half of [ilock]: an entry that is not valid is loaded. *)
Definition ilock_fill (ip : nat) : M (fs D) unit :=
  let! x := geti ip in
  when (i_valid x =? 0)
    (let! sb := getsb in
     let! bp := lbio (bread (i_dev x) (iblock sb (i_inum x))) in
     let! b := lbio (getb bp) in
     seti ip (dinode_load (b_data b) (dinode_off (i_inum x))) ;;;
     lbio (brelse bp) ;;;
     seti ip (inode_set_valid 1)).
Lemma ilock_eq ip :
  ilock ip = (ilock_fill ip ;;; let! x := geti ip in when (i_type x =? 0) (panic "ilock: no type")).
Proof. done. Qed.

Lemma ilock_fill_wp s held ip x :
  bio_ok (f_bio s) held -> (length held + 1 < NBUF)%nat ->
  icache s !! ip = Some x -> i_dev x = ROOTDEV -> i_valid x = 0 ->
  let k := iblock (fsb s) (i_inum x) in
  let x' := inode_set_valid 1 (dinode_load (fblk s k) (dinode_off (i_inum x)) x) in
  bno_ok k ->
  wp (ilock_fill ip) (fun _ s' => bio_ok (f_bio s') held /\ bdisk (f_bio s') = bdisk (f_bio s) /\
    same_rest s s' /\ icache s' = <[ip := x']> (icache s)) s.
Proof.
  intros Hok Hlen Hx Hdev Hv k x' Hk. unfold ilock_fill.
  assert (ip < length (icache s))%nat as Hlt by (by eapply lookup_lt_Some).
  apply wp_bind. eapply wp_geti; [exact Hx|]. rewrite Hv, Hdev. cbn [Z.eqb when].
  apply wp_bind, wp_gets. fold (fsb s). fold k.
  apply wp_bind, wp_lbio. eapply wp_mono; [apply (bread_wp _ held k Hok ltac:(lia) Hk)|].
  intros bp b1 (Hok1 & Hd1 & Hs1). cbn beta.
  destruct (bio_ok_buf _ _ bp k Hok1 ltac:(by left)) as (_ & _ & y & Hy & _ & _ & Hyd).
  apply wp_bind, wp_lbio. eapply wp_getb; [exact Hy|]. cbn [f_km f_bio icache].
  apply wp_bind. eapply wp_seti; [exact Hx|]. cbn [f_km f_bio icache].
  apply wp_bind, wp_lbio. eapply wp_mono; [apply (brelse_wp b1 held bp k Hok1 ltac:(lia))|].
  intros _ b2 (Hok2 & Hd2 & Hs2). cbn [f_km f_bio icache].
  eapply wp_seti; [cbn; by apply list_lookup_insert_eq|]. cbn [f_km f_bio icache].
  rewrite list_insert_insert_eq, Hyd, (dblk_disk _ b1) by done. fold (fblk s k). fold x'.
  split; [done|]. split; [congruence|]. split; [split; [done|exact (eq_trans Hs2 Hs1)]|done].
Qed.

(** [ilock] of an entry that is not valid loads it from its block. *)
Lemma ilock_load_wp s held ip x :
  bio_ok (f_bio s) held -> (length held + 1 < NBUF)%nat ->
  icache s !! ip = Some x -> i_dev x = ROOTDEV -> i_valid x = 0 ->
  let k := iblock (fsb s) (i_inum x) in
  let x' := inode_set_valid 1 (dinode_load (fblk s k) (dinode_off (i_inum x)) x) in
  bno_ok k -> i_type x' <> 0 ->
  wp (ilock ip) (fun _ s' => bio_ok (f_bio s') held /\ bdisk (f_bio s') = bdisk (f_bio s) /\
    same_rest s s' /\ icache s' = <[ip := x']> (icache s)) s.
Proof.
  intros Hok Hlen Hx Hdev Hv k x' Hk Ht. rewrite ilock_eq.
  apply wp_bind. eapply wp_mono; [by apply (ilock_fill_wp s held ip x)|].
  intros _ s' (Hok' & Hd' & Hr' & Hic). fold k x' in Hic.
  assert (ip < length (icache s))%nat as Hlt by (by eapply lookup_lt_Some).
  apply wp_bind. eapply wp_geti; [rewrite Hic; by apply list_lookup_insert_eq|].
  rewrite (proj2 (Z.eqb_neq (i_type x') 0)) by done. by apply wp_ret.
Qed.

(** A block read, changed, written back and released. *)
Lemma bread_store_wp s held k (f : list Z -> list Z) (Q : unit -> fs D -> Prop) :
  bio_ok (f_bio s) held -> (length held + 1 < NBUF)%nat -> bno_ok k -> is_block (f (fblk s k)) ->
  (forall b', bio_ok b' held -> sb b' = sb (f_bio s) ->
     (forall j, bno_ok j -> dblk b' j = if decide (j = k) then f (fblk s k) else fblk s j) ->
     Q tt (Fs (f_km s) b' (icache s))) ->
  wp (let! bp := lbio (bread ROOTDEV k) in
      let! b := lbio (getb bp) in
      lbio (bstore bp (f (b_data b))) ;;; lbio (brelse bp)) Q s.
Proof.
  intros Hok Hlen Hk Hf HQ. apply wp_bind, wp_lbio.
  eapply wp_mono; [apply (bread_wp _ held k Hok ltac:(lia) Hk)|].
  intros bp b1 (Hok1 & Hd1 & Hs1). cbn beta.
  destruct (bio_ok_buf _ _ bp k Hok1 ltac:(by left)) as (_ & _ & y & Hy & _ & _ & Hyd).
  assert (forall j, dblk b1 j = fblk s j) as Hblk by (intros j; by apply dblk_disk).
  apply wp_bind, wp_lbio. eapply wp_getb; [exact Hy|]. cbn [f_km f_bio icache].
  rewrite Hyd, Hblk.
  apply wp_bind, wp_lbio. eapply wp_mono; [apply (bstore_wp b1 _ bp k _ Hok1 ltac:(by left) Hf)|].
  intros _ b2 (Hok2 & Hs2 & Hb2). cbn [f_km f_bio icache].
  apply wp_lbio. eapply wp_mono; [apply (brelse_wp b2 held bp k Hok2 ltac:(lia))|].
  intros [] b3 (Hok3 & Hd3 & Hs3). cbn [f_km icache]. apply HQ; [done|congruence|].
  intros j Hj. rewrite (dblk_disk b2 b3), Hb2 by done. case_decide; [done|apply Hblk].
Qed.

Lemma is_block_blit d off src :
  is_block d -> (off + length src <= 1024)%nat -> Forall is_byte src -> is_block (blit d off src).
Proof.
  intros [Hl Hb] Ho Hs. assert (Z.to_nat BSIZE = 1024%nat) as HB by done. rewrite HB in Hl.
  split; [rewrite length_blit; lia|]. unfold blit.
  apply Forall_app. split; [by apply Forall_take|]. apply Forall_app. split; [done|by apply Forall_drop].
Qed.
Lemma addrs_bytes_byte l : Forall is_byte (addrs_bytes l).
Proof.
  unfold addrs_bytes. induction l as [|a l IH]; [constructor|].
  change (Forall is_byte (le_bytes 4 a ++ addrs_bytes l)).
  apply Forall_app. split; [apply le_bytes_byte|exact IH].
Qed.
Lemma dinode_bytes_byte x : Forall is_byte (dinode_bytes x).
Proof.
  unfold dinode_bytes. repeat (apply Forall_app; split); first [apply le_bytes_byte|apply addrs_bytes_byte].
Qed.

(** [iupdate] writes the inode to its place and nothing else. *)
Lemma iupdate_wp s held ip x :
  bio_ok (f_bio s) held -> (length held + 1 < NBUF)%nat ->
  icache s !! ip = Some x -> i_dev x = ROOTDEV -> length (i_addrs x) = 13%nat ->
  let k := iblock (fsb s) (i_inum x) in bno_ok k ->
  wp (iupdate ip) (fun _ s' => bio_ok (f_bio s') held /\ same_rest s s' /\ icache s' = icache s /\
    forall j, bno_ok j -> fblk s' j =
      if decide (j = k) then dinode_store (fblk s k) (dinode_off (i_inum x)) x else fblk s j) s.
Proof.
  intros Hok Hlen Hx Hdev Ha k Hk. unfold iupdate. apply wp_bind, wp_gets.
  apply wp_bind. eapply wp_geti; [exact Hx|]. rewrite Hdev. fold (fsb s). fold k.
  pose proof (dinode_off_le (i_inum x)) as Hoff. pose proof (length_fblk s k) as Hfl.
  eapply (bread_store_wp s held k (fun d => dinode_store d (dinode_off (i_inum x)) x)); try done.
  rewrite dinode_store_blit by (done || lia).
  apply is_block_blit; [apply dblk_block|rewrite length_dinode_bytes by done; lia|apply dinode_bytes_byte].
Qed.

(** Two inodes share a block only when they lie in different places of it. *)
Lemma iblock_disjoint sb i j :
  0 <= i -> 0 <= j -> i <> j -> bno_ok (sb_inodestart sb + i / IPB) ->
  bno_ok (sb_inodestart sb + j / IPB) -> iblock sb i = iblock sb j ->
  (dinode_off i + 64 <= dinode_off j \/ dinode_off j + 64 <= dinode_off i)%nat.
Proof.
  unfold bno_ok, iblock, dinode_off, IPB. intros Hi Hj Hne Hbi Hbj. rewrite !u32_id by lia.
  intros Heq. pose proof (Z.div_mod i 16 ltac:(lia)). pose proof (Z.div_mod j 16 ltac:(lia)).
  pose proof (Z.mod_pos_bound i 16 ltac:(lia)). pose proof (Z.mod_pos_bound j 16 ltac:(lia)). lia.
Qed.
Lemma bno_ok_iblock sb i : bno_ok (sb_inodestart sb + i / IPB) -> bno_ok (iblock sb i).
Proof. unfold bno_ok, iblock. intros Hb. by rewrite u32_id by lia. Qed.

(** The disk inode of [inum]. *)
Definition disk_inode s (inum : Z) (x : inode) : inode :=
  dinode_load (fblk s (iblock (fsb s) inum)) (dinode_off inum) x.

(** C17: an inode written by [iupdate] is what [ilock] loads again, whichever
    entry of the inode cache it is loaded into, and no other inode of the disk
    changes. *)
Theorem iupdate_durable s held ip x :
  bio_ok (f_bio s) held -> (length held + 1 < NBUF)%nat ->
  icache s !! ip = Some x -> i_dev x = ROOTDEV -> inode_ok x -> i_type x <> 0 ->
  0 <= i_inum x -> bno_ok (sb_inodestart (fsb s) + i_inum x / IPB) ->
  exists s', iupdate ip s = Ok tt s' /\ icache s' = icache s /\ fsb s' = fsb s /\
    (forall jp y, icache s' !! jp = Some y -> i_dev y = ROOTDEV -> i_inum y = i_inum x -> i_valid y = 0 ->
       exists s'', ilock jp s' = Ok tt s'' /\
         icache s'' = <[jp := inode_set_valid 1 (with_disk_fields x y)]> (icache s')) /\
    (forall j y, 0 <= j -> j <> i_inum x -> bno_ok (sb_inodestart (fsb s) + j / IPB) ->
       disk_inode s' j y = disk_inode s j y).
Proof.
  intros Hok Hlen Hx Hdev Hino Ht Hi Hb. pose proof (bno_ok_iblock _ _ Hb) as Hk.
  pose proof (dinode_off_le (i_inum x)) as Hoff.
  destruct (wp_inv _ _ _ (iupdate_wp s held ip x Hok Hlen Hx Hdev (in_addrs _ Hino) Hk))
    as ([] & s' & Heq & Hok' & Hsr & Hic & Hblk).
  exists s'. split; [exact Heq|]. split; [exact Hic|]. destruct Hsr as [_ Hsb]. split; [exact Hsb|].
  split.
  - intros jp y Hy Hdy Hny Hvy.
    assert (disk_inode s' (i_inum y) y = with_disk_fields x y) as Hload.
    { unfold disk_inode. rewrite Hsb, Hny, Hblk, decide_True by done.
      apply dinode_load_store; [by rewrite length_fblk|done]. }
    destruct (wp_inv _ _ _ (ilock_load_wp s' held jp y Hok' Hlen Hy Hdy Hvy
      ltac:(by rewrite Hsb, Hny) ltac:(change (i_type (disk_inode s' (i_inum y) y) <> 0); by rewrite Hload)))
      as ([] & s'' & Heq' & _ & _ & _ & Hic'').
    exists s''. split; [exact Heq'|]. rewrite Hic''. by rewrite <- Hload.
  - intros j y Hj Hne Hbj. unfold disk_inode. rewrite Hsb, Hblk by (by apply bno_ok_iblock).
    case_decide as Hd; [|done]. rewrite <- Hd. apply dinode_load_other; [by rewrite length_fblk|apply Hino|].
    apply (iblock_disjoint (fsb s)); done.
Qed.

(* ------------------------------------------------------------------ *)
(** ** Types *)

Lemma slice_val_bounds d off n : Forall is_byte d -> 0 <= le_val (slice d off n) < 256 ^ Z.of_nat n.
Proof.
  intros Hd. assert (Forall is_byte (slice d off n)) as Hs by (by apply Forall_take, Forall_drop).
  pose proof (le_val_bounds _ Hs) as Hb. split; [lia|].
  eapply Z.lt_le_trans; [apply Hb|]. apply Z.pow_le_mono_r; [lia|].
  unfold slice. rewrite length_take. lia.
Qed.
Lemma s16_short v : is_short (s16 v).
Proof. unfold is_short, s16, u16. destruct (Z.ltb_spec (v mod 65536) 32768); dlia. Qed.

(** Whatever bytes a block holds, the inode loaded from it has the types of
    [struct inode]. *)
Lemma dinode_load_ok d off x : Forall is_byte d -> inode_ok (dinode_load d off x).
Proof.
  intros Hd. constructor; cbn [dinode_load i_type i_major i_minor i_nlink i_size i_addrs]; try apply s16_short.
  - exact (slice_val_bounds d (off + 8) 4 Hd).
  - done.
  - unfold get_addrs. rewrite Forall_fmap. apply Forall_forall. intros i _. exact (slice_val_bounds d _ 4 Hd).
Qed.

(** The valid entries of the inode cache have the types of [struct inode]. *)
Definition icache_typed s : Prop :=
  forall i x, icache s !! i = Some x -> i_valid x <> 0 -> inode_ok x.

(** C35: [ilock] gives a typed inode: with a typed inode cache and any bytes on
    the disk, [ilock] of an entry either panics, exactly when the inode has no
    type, or returns with the entry valid, of a type other than 0 and with its
    fields in the ranges of [struct inode]; the cache stays typed and the disk
    as it was. *)
Theorem ilock_typed s held ip x :
  bio_ok (f_bio s) held -> (length held + 1 < NBUF)%nat -> icache_typed s ->
  icache s !! ip = Some x -> i_dev x = ROOTDEV -> bno_ok (iblock (fsb s) (i_inum x)) ->
  ilock ip s = Stop (Panic "ilock: no type") /\
    i_type (if i_valid x =? 0 then disk_inode s (i_inum x) x else x) = 0 \/
  exists s' y, ilock ip s = Ok tt s' /\ icache s' !! ip = Some y /\
    i_valid y <> 0 /\ i_type y <> 0 /\ inode_ok y /\ icache_typed s' /\
    bio_ok (f_bio s') held /\ bdisk (f_bio s') = bdisk (f_bio s).
Proof.
  intros Hok Hlen Htyped Hx Hdev Hk.
  assert (ip < length (icache s))%nat as Hlt by (by eapply lookup_lt_Some).
  assert (exists s1 y, ilock_fill ip s = Ok tt s1 /\ icache s1 !! ip = Some y /\ i_valid y <> 0 /\
    i_type y = i_type (if i_valid x =? 0 then disk_inode s (i_inum x) x else x) /\
    inode_ok y /\ icache_typed s1 /\ bio_ok (f_bio s1) held /\ bdisk (f_bio s1) = bdisk (f_bio s))
    as (s1 & y & Hfill & Hy & Hv & Hty & Hyok & Hty1 & Hok1 & Hd1).
  { destruct (Z.eqb_spec (i_valid x) 0) as [Hv|Hv].
    - destruct (wp_inv _ _ _ (ilock_fill_wp s held ip x Hok Hlen Hx Hdev Hv Hk))
        as ([] & s1 & Heq & Hok1 & Hd1 & _ & Hic).
      set (x' := inode_set_valid 1 _) in Hic.
      assert (inode_ok x') as Hx'.
      { assert (inode_ok (dinode_load (fblk s (iblock (fsb s) (i_inum x))) (dinode_off (i_inum x)) x)) as [].
        { apply dinode_load_ok. apply dev_block. }
        by constructor. }
      exists s1, x'. rewrite Hic. split_and!; try done.
      + by apply list_lookup_insert_eq.
      + intros i z. rewrite Hic. intros [(_ & <- & _)|[_ Hz]]%list_lookup_insert_Some; [done|].
        by apply Htyped with i.
    - exists s, x. split_and!; try done; [|by apply Htyped with ip].
      unfold ilock_fill. unfold bind, geti. rewrite Hx.
      by rewrite (proj2 (Z.eqb_neq _ 0)). }
  rewrite ilock_eq, (bind_ok _ _ _ _ _ Hfill). rewrite <- Hty.
  assert (geti ip s1 = Ok y s1) as Hg by (unfold geti; by rewrite Hy).
  rewrite (bind_ok _ _ _ _ _ Hg). destruct (Z.eqb_spec (i_type y) 0) as [Ht0|Ht0].
  - by left.
  - right. exists s1, y. done.
Qed.

(* ------------------------------------------------------------------ *)
(** ** The inode cache *)

(** An entry in use for an inode. *)
Definition live (dev inum : Z) (x : inode) : Prop := 0 < i_ref x /\ i_dev x = dev /\ i_inum x = inum.

(** Reference counts do not go below zero, and an inode has one entry. *)
Record icache_ok s : Prop := {
  ic_ref : forall i x, icache s !! i = Some x -> 0 <= i_ref x;
  ic_uniq : forall i j x y dev inum, icache s !! i = Some x -> icache s !! j = Some y ->
    live dev inum x -> live dev inum y -> i = j;
}.

Lemma live_test dev inum x :
  (0 <? i_ref x) && (i_dev x =? dev) && (i_inum x =? inum) = true <-> live dev inum x.
Proof. unfold live. rewrite !andb_true_iff, Z.ltb_lt, !Z.eqb_eq. tauto. Qed.

Lemma iget_scan_hit dev inum l i empty k :
  iget_scan dev inum l i empty = inl k ->
  exists j x, k = (i + j)%nat /\ l !! j = Some x /\ live dev inum x.
Proof.
  revert i empty. induction l as [|x l IH]; intros i empty; cbn [iget_scan]; [done|].
  destruct ((0 <? i_ref x) && (i_dev x =? dev) && (i_inum x =? inum)) eqn:Ht.
  - intros [= <-]. exists 0%nat, x. split; [lia|]. split; [done|]. by apply live_test.
  - intros Hs. destruct (IH _ _ Hs) as (j & y & -> & Hy & Hl). exists (S j), y. split; [lia|]. done.
Qed.

Lemma iget_scan_miss dev inum l i empty o :
  iget_scan dev inum l i empty = inr o ->
  (forall j x, l !! j = Some x -> ~ live dev inum x) /\
  match empty with
  | Some _ => o = empty
  | None => match o with
            | Some k => exists j x, k = (i + j)%nat /\ l !! j = Some x /\ i_ref x = 0
            | None => forall j x, l !! j = Some x -> i_ref x <> 0
            end
  end.
Proof.
  revert i empty. induction l as [|x l IH]; intros i empty; cbn [iget_scan].
  - intros [= <-]. split; [done|]. by destruct empty.
  - destruct ((0 <? i_ref x) && (i_dev x =? dev) && (i_inum x =? inum)) eqn:Ht; [done|].
    intros Hs. destruct (IH _ _ Hs) as [Hn Ho]. split.
    + intros [|j] y Hy; [|by apply (Hn j)]. injection Hy as <-. rewrite <- live_test. by rewrite Ht.
    + destruct empty as [e|]; [done|]. destruct (Z.eqb_spec (i_ref x) 0) as [Hz|Hz].
      * subst o. exists 0%nat, x. split; [lia|]. done.
      * destruct o as [k|].
        -- destruct Ho as (j & y & -> & Hy & Hr). exists (S j), y. split; [lia|]. done.
        -- intros [|j] y Hy; [by injection Hy as <-|]. by apply (Ho j).
Qed.

Lemma icache_ok_insert s ip x x' dev inum :
  icache_ok s -> icache s !! ip = Some x -> live dev inum x' ->
  (forall j y, icache s !! j = Some y -> live dev inum y -> j = ip) ->
  icache_ok (Fs (f_km s) (f_bio s) (<[ip := x']> (icache s))).
Proof.
  intros [Hr Hu] Hx Hl Hone. pose proof (lookup_lt_Some _ _ _ Hx) as Hlt. split; cbn [icache].
  - intros i y [(<- & <- & _)|[_ Hy]]%list_lookup_insert_Some; [unfold live in Hl; lia|by apply (Hr i)].
  - intros i j y z d n Hy Hz Hly Hlz.
    apply list_lookup_insert_Some in Hy as [(<- & <- & _)|[Hi Hy]];
      apply list_lookup_insert_Some in Hz as [(<- & <- & _)|[Hj Hz]]; try done.
    + symmetry. apply (Hone j z Hz). unfold live in *. intuition congruence.
    + apply (Hone i y Hy). unfold live in *. intuition congruence.
    + by apply (Hu i j y z d n).
Qed.

Lemma iget_cases s dev inum :
  icache_ok s -> (forall i x, icache s !! i = Some x -> i_ref x < 2147483647) ->
  match iget dev inum s with
  | Ok ip s' =>
      icache_ok s' /\ f_km s' = f_km s /\ f_bio s' = f_bio s /\
      exists x x', icache s !! ip = Some x /\ icache s' = <[ip := x']> (icache s) /\
        live dev inum x' /\
        (live dev inum x /\ x' = inode_set_ref (i_ref x + 1) x \/
         i_ref x = 0 /\ i_ref x' = 1 /\ i_valid x' = 0 /\ forall j y, icache s !! j = Some y -> ~ live dev inum y)
  | Sleep _ _ => False
  | Stop e => e = Panic "iget: no inodes" /\
      forall j y, icache s !! j = Some y -> i_ref y <> 0 /\ ~ live dev inum y
  end.
Proof.
  intros Hok Hmax. unfold iget, get, bind. destruct (iget_scan dev inum (icache s) 0 None) as [ip|o] eqn:Hs.
  - destruct (iget_scan_hit _ _ _ _ _ _ Hs) as (j & x & -> & Hx & Hl). cbn [Nat.add] in *.
    unfold seti. rewrite Hx. unfold ret.
    assert (s32 (i_ref x + 1) = i_ref x + 1) as Href.
    { apply s32_id. specialize (Hmax _ _ Hx). unfold live in Hl. lia. }
    rewrite Href. assert (live dev inum (inode_set_ref (i_ref x + 1) x)) as Hl' by (unfold live in *; cbn; intuition lia).
    split; [|split; [done|split; [done|]]].
    + apply (icache_ok_insert s j x _ dev inum Hok Hx Hl').
      intros k y Hy Hly. by apply (ic_uniq _ Hok k j y x dev inum).
    + exists x, (inode_set_ref (i_ref x + 1) x). split; [done|]. split; [done|]. split; [done|]. by left.
  - destruct (iget_scan_miss _ _ _ _ _ _ Hs) as [Hn Ho]. destruct o as [ip|].
    + destruct Ho as (j & x & -> & Hx & Hz). cbn [Nat.add] in *. unfold seti. rewrite Hx. unfold ret.
      match goal with |- context [<[j := ?y]> _] => set (x' := y) end.
      assert (live dev inum x') as Hl' by (unfold live; cbn; lia).
      split; [|split; [done|split; [done|]]].
      * apply (icache_ok_insert s j x x' dev inum Hok Hx Hl'). intros k y Hy Hly. by destruct (Hn k y Hy).
      * exists x, x'. split; [done|]. split; [done|]. split; [done|]. right. done.
    + unfold panic, stop_with. split; [done|]. intros j y Hy. split; [by apply (Ho j)|by apply (Hn j)].
Qed.

(** C18: [iget] keeps one entry per inode: it returns the entry in use for the
    inode with one more reference, or else takes an unused entry, which the
    next [ilock] will load; it panics exactly when every entry is in use for
    another inode. *)
Theorem iget_unique s dev inum :
  icache_ok s -> (forall i x, icache s !! i = Some x -> i_ref x < 2147483647) ->
  match iget dev inum s with
  | Ok ip s' =>
      icache_ok s' /\ f_km s' = f_km s /\ f_bio s' = f_bio s /\
      exists x x', icache s !! ip = Some x /\ icache s' = <[ip := x']> (icache s) /\
        live dev inum x' /\
        (live dev inum x /\ x' = inode_set_ref (i_ref x + 1) x \/
         i_ref x = 0 /\ i_ref x' = 1 /\ i_valid x' = 0 /\ forall j y, icache s !! j = Some y -> ~ live dev inum y)
  | Sleep _ _ => False
  | Stop e => e = Panic "iget: no inodes" /\
      forall j y, icache s !! j = Some y -> i_ref y <> 0 /\ ~ live dev inum y
  end.
Proof. exact (iget_cases s dev inum). Qed.
End spec.

(* ------------------------------------------------------------------ *)
(** ** A concrete inode cache *)

(** Inode 5 in entry 0, as an open file with two blocks, over [sample_bio]. *)
Definition sample_inode : inode :=
  Inode ROOTDEV 5 1 1 T_FILE 0 0 1 1500 ([45; 46] ++ replicate 11 0).
Definition sample_icache : list inode := <[0%nat := sample_inode]> (replicate NINODE inode0).
Definition sample_fs : fs memdisk := Fs (KMem ∅ 0) sample_bio sample_icache.

Lemma sample_inode_ok : inode_ok sample_inode.
Proof.
  split; try (unfold is_short, is_uint; cbn; lia); [done|].
  apply Forall_forall. intros a Ha. unfold is_uint.
  assert (forallb (fun a => (0 <=? a) && (a <? 4294967296)) (i_addrs sample_inode) = true) as Hall by reflexivity.
  pose proof (proj1 (forallb_forall _ _) Hall a ltac:(by apply list_elem_of_In)) as Hb. cbn beta in Hb. zbool. lia.
Qed.
Lemma sample_fs_bio : bio_ok (f_bio sample_fs) [] /\ fsb sample_fs = sample_sb.
Proof. destruct sample_bio_ok as (Hok & _ & Hs). exact (conj Hok Hs). Qed.

(** Entry 0 is inode 5 and the others are unused. *)
Lemma sample_icache_lookup i x :
  sample_icache !! i = Some x -> i = 0%nat /\ x = sample_inode \/ x = inode0.
Proof.
  unfold sample_icache. intros [(<- & <- & _)|[_ Hy]]%list_lookup_insert_Some; [by left|].
  right. by apply lookup_replicate in Hy as [-> _].
Qed.
Lemma sample_icache_ok : icache_ok sample_fs.
Proof.
  split; cbn [icache sample_fs].
  - intros i x [[_ ->]| ->]%sample_icache_lookup; cbn; lia.
  - intros i j x y dev inum [[-> ->]| ->]%sample_icache_lookup [[-> ->]| ->]%sample_icache_lookup;
      unfold live; cbn; [done|lia..].
Qed.
#[local] Opaque sample_bio.

Lemma iupdate_durable_witness :
  exists s', iupdate 0 sample_fs = Ok tt s' /\ icache s' = sample_icache /\ fsb s' = sample_sb.
Proof.
  destruct sample_fs_bio as [Hok Hs].
  destruct (iupdate_durable sample_fs [] 0 sample_inode Hok ltac:(cbn; unfold NBUF; lia) eq_refl eq_refl
    sample_inode_ok ltac:(done) ltac:(done) ltac:(rewrite Hs; split; [apply Z.leb_le|apply Z.ltb_lt]; reflexivity))
    as (s' & He & Hi & Hb & _).
  exists s'. split; [exact He|]. split; [exact Hi|]. exact (eq_trans Hb Hs).
Defined.

Lemma ilock_typed_witness :
  ilock 0 sample_fs = Stop (Panic "ilock: no type") /\ i_type sample_inode = 0 \/
  exists s' y, ilock 0 sample_fs = Ok tt s' /\ icache s' !! 0%nat = Some y /\ i_valid y <> 0 /\ inode_ok y.
Proof.
  destruct sample_fs_bio as [Hok Hs].
  assert (icache_typed sample_fs) as Hty.
  { intros i x [[_ ->]| ->]%sample_icache_lookup; [intros _; exact sample_inode_ok|intros Hv; exfalso; apply Hv; reflexivity]. }
  assert (bno_ok (iblock (fsb sample_fs) (i_inum sample_inode))) as Hb.
  { rewrite Hs. vm_compute. split; [discriminate|reflexivity]. }
  destruct (ilock_typed sample_fs [] 0 sample_inode Hok ltac:(cbn; unfold NBUF; lia) Hty eq_refl eq_refl
    Hb)
    as [H|(s' & y & He & Hy & Hv & _ & Hyok & _)]; [left; exact H|right].
  exists s', y. exact (conj He (conj Hy (conj Hv Hyok))).
Defined.

Lemma iget_unique_witness :
  icache_ok sample_fs /\
  match iget ROOTDEV 5 sample_fs with Ok ip s' => icache_ok s' | _ => False end.
Proof.
  split; [exact sample_icache_ok|].
  pose proof (iget_unique sample_fs ROOTDEV 5 sample_icache_ok
    ltac:(intros i x [[_ ->]| ->]%sample_icache_lookup; cbn; lia)) as H.
  destruct (iget ROOTDEV 5 sample_fs) as [ip s'|c s'|e]; [exact (proj1 H)|exact H|].
  destruct H as [_ H]. destruct (H 1%nat inode0 eq_refl) as [Hr _]. exact (Hr eq_refl).
Defined.
