(* ===== verification/FsFile.v ===== *)
(** The contents of files: [bmap], [readi] and [writei] of [kernel/fs/fs.c] on
    files whose blocks are mapped, against the file as a sequence of bytes. *)

From S2P Require Import Prelude Memory Kalloc Vm Str Bio BioSpec Fs FsInode.

Section spec.
Context {D : Type} `{BlockDevOk D}.
Implicit Types s : fs D.

(* ------------------------------------------------------------------ *)
(** ** The blocks of a file *)

(** Entry [k] of the index block [a]. *)
Definition ient s (a : Z) (k : Z) : Z := get32 (fblk s a) (4 * Z.to_nat k).

(** The address of block [bn] of the file with the addresses [l], and the index
    blocks on the way to it. *)
Definition faddr s (l : list Z) (bn : Z) : Z :=
  if bn <? 11 then zget l bn
  else if bn <? 267 then ient s (zget l 11) (bn - 11)
  else ient s (ient s (zget l 12) ((bn - 267) / 256)) ((bn - 267) mod 256).
Definition findex s (l : list Z) (bn : Z) : list Z :=
  if bn <? 11 then []
  else if bn <? 267 then [zget l 11]
  else [zget l 12; ient s (zget l 12) ((bn - 267) / 256)].

Definition data_ok (a : Z) : Prop := 0 < a < 2147483648.
Definition mapped s (l : list Z) (bn : Z) : Prop :=
  0 <= bn < 65803 /\ data_ok (faddr s l bn) /\ Forall data_ok (findex s l bn).

Lemma data_bno a : data_ok a -> bno_ok a.
Proof. unfold data_ok, bno_ok. lia. Qed.

(** What reading does not change: everything but the block cache. *)
Record quiet (held : list (nat * Z)) s s' : Prop := {
  q_ok : bio_ok (f_bio s') held;
  q_disk : bdisk (f_bio s') = bdisk (f_bio s);
  q_sb : sb (f_bio s') = sb (f_bio s);
  q_km : f_km s' = f_km s;
  q_ic : icache s' = icache s;
}.
Lemma quiet_refl held s : bio_ok (f_bio s) held -> quiet held s s.
Proof. by split. Qed.
Lemma quiet_trans held a b c : quiet held a b -> quiet held b c -> quiet held a c.
Proof. intros [] []. split; [done|congruence..]. Qed.
Lemma quiet_fblk held s s' k : quiet held s s' -> fblk s' k = fblk s k.
Proof. intros Hq. apply dblk_disk, Hq. Qed.
Lemma quiet_faddr held s s' l bn : quiet held s s' -> faddr s' l bn = faddr s l bn.
Proof. intros Hq. unfold faddr, ient. by rewrite !(quiet_fblk held s s'). Qed.
Lemma quiet_findex held s s' l bn : quiet held s s' -> findex s' l bn = findex s l bn.
Proof. intros Hq. unfold findex, ient. by rewrite !(quiet_fblk held s s'). Qed.
Lemma quiet_mapped held s s' l bn : quiet held s s' -> mapped s l bn -> mapped s' l bn.
Proof. intros Hq. unfold mapped. by rewrite (quiet_faddr held s s'), (quiet_findex held s s'). Qed.

(* ------------------------------------------------------------------ *)
(** ** bmap *)

Lemma bmap_addr_wp s ip x k (Q : Z -> fs D -> Prop) :
  icache s !! ip = Some x -> default 0 (i_addrs x !! k) <> 0 ->
  Q (default 0 (i_addrs x !! k)) s -> wp (bmap_addr ip k) Q s.
Proof.
  intros Hx Ha HQ. unfold bmap_addr. apply wp_bind. eapply wp_geti; [exact Hx|].
  rewrite (proj2 (Z.eqb_neq _ 0) Ha). by apply wp_ret.
Qed.

Lemma bmap_entry_wp s held a k (Q : Z -> fs D -> Prop) :
  bio_ok (f_bio s) held -> (length held + 1 < NBUF)%nat -> bno_ok a -> ient s a k <> 0 ->
  (forall s', quiet held s s' -> Q (ient s a k) s') ->
  wp (bmap_entry ROOTDEV a (Z.to_nat k)) Q s.
Proof.
  intros Hok Hlen Ha Hne HQ. unfold bmap_entry, ient in *.
  apply wp_bind, wp_lbio. eapply wp_mono; [apply (bread_wp _ held a Hok ltac:(lia) Ha)|].
  intros bp b1 (Hok1 & Hd1 & Hs1). cbn beta.
  destruct (bio_ok_buf _ _ bp a Hok1 ltac:(by left)) as (_ & _ & y & Hy & _ & _ & Hyd).
  rewrite (dblk_disk _ b1) in Hyd by done.
  apply wp_bind, wp_lbio. eapply wp_getb; [exact Hy|]. rewrite Hyd.
  change (dblk (f_bio s) a) with (fblk s a).
  rewrite (proj2 (Z.eqb_neq _ 0) Hne). apply wp_bind, wp_ret.
  apply wp_bind, wp_lbio. eapply wp_mono; [apply (brelse_wp b1 held bp a Hok1 ltac:(lia))|].
  intros _ b2 (Hok2 & Hd2 & Hs2). apply wp_ret, HQ. split; cbn; [done|congruence..|done|done].
Qed.

(** [bmap] of a mapped block finds its address and changes nothing. *)
Lemma bmap_wp s held ip x bn (Q : Z -> fs D -> Prop) :
  bio_ok (f_bio s) held -> (length held + 1 < NBUF)%nat ->
  icache s !! ip = Some x -> i_dev x = ROOTDEV -> mapped s (i_addrs x) bn ->
  (forall s', quiet held s s' -> Q (faddr s (i_addrs x) bn) s') -> wp (bmap ip bn) Q s.
Proof.
  intros Hok Hlen Hx Hdev (Hr & Ha & Hi) HQ. unfold bmap, faddr, findex in *.
  change (Z.of_nat NDIRECT) with 11. change (Z.of_nat NINDIRECT) with 256. change NDINDIRECT with 65536.
  destruct (Z.ltb_spec bn 11) as [H1|H1].
  { eapply bmap_addr_wp; [exact Hx|unfold data_ok, zget in Ha; lia|]. by apply HQ, quiet_refl. }
  destruct (Z.ltb_spec bn 267) as [H2|H2].
  - rewrite (proj2 (Z.ltb_lt (bn - 11) 256)) by lia. apply Forall_cons in Hi as [Hi _].
    apply wp_bind. eapply bmap_addr_wp; [exact Hx| |].
    { change NDIRECT with (Z.to_nat 11). change (default 0 (i_addrs x !! Z.to_nat 11)) with (zget (i_addrs x) 11).
      unfold data_ok in Hi. lia. }
    apply wp_bind. eapply wp_geti; [exact Hx|]. rewrite Hdev.
    apply (bmap_entry_wp _ held (zget (i_addrs x) 11)); [done|done|by apply data_bno|unfold data_ok in Ha; lia|].
    intros s' Hq. by apply HQ.
  - rewrite (proj2 (Z.ltb_ge (bn - 11) 256)), (proj2 (Z.ltb_lt _ 65536)) by lia.
    replace (bn - 11 - 256) with (bn - 267) by lia.
    apply Forall_cons in Hi as [Hi1 [Hi2 _]%Forall_cons].
    apply wp_bind. eapply bmap_addr_wp; [exact Hx| |].
    { change (NDIRECT + 1)%nat with (Z.to_nat 12).
      change (default 0 (i_addrs x !! Z.to_nat 12)) with (zget (i_addrs x) 12). unfold data_ok in Hi1. lia. }
    change (default 0 (i_addrs x !! (NDIRECT + 1)%nat)) with (zget (i_addrs x) 12).
    apply wp_bind. eapply wp_geti; [exact Hx|]. rewrite Hdev.
    apply wp_bind. apply (bmap_entry_wp _ held (zget (i_addrs x) 12)); [done|done|by apply data_bno|unfold data_ok in Hi2; lia|].
    intros s1 Hq1. apply (bmap_entry_wp _ held); [apply Hq1|done|by apply data_bno| |].
    { unfold ient at 1. rewrite (quiet_fblk held s s1) by done. unfold data_ok in Ha. unfold ient in Ha at 1. lia. }
    intros s2 Hq2. unfold ient at 1. rewrite (quiet_fblk held s s1) by done.
    apply HQ. by eapply quiet_trans.
Qed.

(* ------------------------------------------------------------------ *)
(** ** The file as bytes *)

Definition fbyte s (l : list Z) (p : Z) : Z := zget (fblk s (faddr s l (p / BSIZE))) (p mod BSIZE).
Definition fbytes s (l : list Z) (p : Z) (n : nat) : list Z := (fun i => fbyte s l (p + Z.of_nat i)) <$> seq 0 n.

(** The blocks that hold the [n] bytes at [p] are mapped. *)
Definition range_mapped s (l : list Z) (p n : Z) : Prop :=
  forall q, p <= q < p + n -> mapped s l (q / BSIZE).

Lemma length_fbytes s l p n : length (fbytes s l p n) = n.
Proof. unfold fbytes. by rewrite length_fmap, length_seq. Qed.
Lemma lookup_fbytes s l p n i : (i < n)%nat -> fbytes s l p n !! i = Some (fbyte s l (p + Z.of_nat i)).
Proof. intros Hi. unfold fbytes. rewrite list_lookup_fmap, lookup_seq_lt by done. done. Qed.
Lemma fbytes_app s l p n m : fbytes s l p (n + m) = fbytes s l p n ++ fbytes s l (p + Z.of_nat n) m.
Proof.
  apply list_eq. intros i. destruct (decide (i < n)%nat) as [Hi|Hi].
  - rewrite lookup_app_l, !lookup_fbytes by (rewrite ?length_fbytes; lia). done.
  - rewrite lookup_app_r; rewrite length_fbytes; [|lia]. destruct (decide (i < n + m)%nat) as [Hj|Hj].
    + rewrite !lookup_fbytes by lia. f_equal. f_equal. lia.
    + rewrite !(proj2 (lookup_ge_None _ _)) by (rewrite length_fbytes; lia). done.
Qed.

(** The position of byte [p + i] of a block. *)
Lemma pos_in_block p i : 0 <= i -> p mod BSIZE + i < BSIZE ->
  (p + i) / BSIZE = p / BSIZE /\ (p + i) mod BSIZE = p mod BSIZE + i.
Proof. unfold BSIZE. intros Hi Hp. split; dlia. Qed.

Lemma fbytes_block s l p m :
  p mod BSIZE + Z.of_nat m <= BSIZE ->
  fbytes s l p m = slice (fblk s (faddr s l (p / BSIZE))) (Z.to_nat (p mod BSIZE)) m.
Proof.
  intros Hp. apply list_eq. intros i. rewrite lookup_slice. case_decide as Hi.
  - rewrite lookup_fbytes by done. unfold fbyte.
    destruct (pos_in_block p (Z.of_nat i)) as [-> ->]; [lia..|].
    assert (0 <= p mod BSIZE < 1024) by (apply Z.mod_pos_bound; done).
    rewrite <- zget_lookup by (rewrite length_fblk; unfold BSIZE in *; lia). f_equal. lia.
  - apply lookup_ge_None. rewrite length_fbytes. lia.
Qed.

(** The bytes one round of [readi] or [writei] moves, and the rounds left. *)
Definition piece (n tot off : Z) : Z :=
  let m := BSIZE - off mod BSIZE in if n - tot <? m then n - tot else m.
Definition rounds (n tot off : Z) : nat :=
  if tot <? n then Z.to_nat ((off mod BSIZE + (n - tot) + 1023) / BSIZE) else 0.

Lemma piece_bounds n tot off : tot < n ->
  0 < piece n tot off <= n - tot /\ off mod BSIZE + piece n tot off <= BSIZE.
Proof.
  intros Ht. unfold piece, BSIZE. pose proof (Z.mod_pos_bound off 1024 ltac:(lia)).
  destruct (Z.ltb_spec (n - tot) (1024 - off mod 1024)); lia.
Qed.
Lemma rounds_next n tot off : tot < n ->
  (rounds n (tot + piece n tot off) (off + piece n tot off) < rounds n tot off)%nat.
Proof.
  intros Ht. unfold rounds, piece, BSIZE. pose proof (Z.mod_pos_bound off 1024 ltac:(lia)).
  rewrite (proj2 (Z.ltb_lt tot n)) by done.
  destruct (Z.ltb_spec (n - tot) (1024 - off mod 1024)).
  - rewrite (proj2 (Z.ltb_ge _ n)) by lia. dlia.
  - destruct (Z.ltb_spec (tot + (1024 - off mod 1024)) n); [|dlia].
    assert ((off + (1024 - off mod 1024)) mod 1024 = 0) as -> by dlia. dlia.
Qed.
Lemma rounds_fuel n off : 0 <= n -> (rounds n 0 off < Z.to_nat (n / BSIZE) + 3)%nat.
Proof.
  intros Hn. unfold rounds, BSIZE. pose proof (Z.mod_pos_bound off 1024 ltac:(lia)).
  destruct (Z.ltb_spec 0 n); dlia.
Qed.

(** A round of [readi] delivers the next piece of the file. *)
Lemma readi_body_wp s held ip x n tot off acc (Q : _ -> fs D -> Prop) :
  bio_ok (f_bio s) held -> (length held + 1 < NBUF)%nat ->
  icache s !! ip = Some x -> i_dev x = ROOTDEV ->
  0 <= tot < n -> 0 <= off -> off + (n - tot) < 4294967296 -> n < 4294967296 ->
  mapped s (i_addrs x) (off / BSIZE) ->
  (forall s', quiet held s s' -> let m := piece n tot off in
     Q (inl (tot + m, off + m, DLocal (acc ++ fbytes s (i_addrs x) off (Z.to_nat m)))) s') ->
  wp (readi_body ip n (tot, off, DLocal acc)) Q s.
Proof.
  intros Hok Hlen Hx Hdev Ht Ho Hmax Hn Hmap HQ. unfold readi_body.
  rewrite (proj2 (Z.ltb_lt tot n)) by lia. cbn [negb].
  fold (piece n tot off). destruct (piece_bounds n tot off) as [Hm Hb]; [lia|].
  apply wp_bind, (bmap_wp s held ip x); [done..|]. intros s1 Hq1.
  set (a := faddr s (i_addrs x) (off / BSIZE)) in *.
  assert (data_ok a) as Ha by apply Hmap.
  apply wp_bind. eapply wp_geti; [by rewrite (q_ic _ _ _ Hq1)|]. rewrite Hdev.
  apply wp_bind, wp_lbio. eapply wp_mono; [apply (bread_wp _ held a (q_ok _ _ _ Hq1) ltac:(lia) (data_bno _ Ha))|].
  intros bp b1 (Hok1 & Hd1 & Hs1). cbn beta.
  destruct (bio_ok_buf _ _ bp a Hok1 ltac:(by left)) as (_ & _ & y & Hy & _ & _ & Hyd).
  rewrite (dblk_disk _ b1 a Hd1) in Hyd. change (dblk (f_bio s1) a) with (fblk s1 a) in Hyd.
  rewrite (quiet_fblk _ s s1 a Hq1) in Hyd.
  apply wp_bind, wp_lbio. eapply wp_getb; [exact Hy|]. rewrite Hyd.
  apply wp_bind. cbn [deliver]. apply wp_ret.
  apply wp_bind, wp_lbio. eapply wp_mono; [apply (brelse_wp b1 held bp a Hok1 ltac:(lia))|].
  intros _ b2 (Hok2 & Hd2 & Hs2). apply wp_ret.
  rewrite !u32_id by lia. unfold a. rewrite <- fbytes_block by lia.
  apply HQ. eapply quiet_trans; [exact Hq1|]. split; cbn; [done|congruence..|done|done].
Qed.

(** How many bytes a read of [n] at [off] finds in a file of [size] bytes. *)
Definition read_len (size off n : Z) : Z :=
  if (size <? off) || (4294967296 <=? off + n) then 0 else Z.min n (size - off).

Lemma readi_loop_wp s held ip x n off (Q : _ -> fs D -> Prop) :
  bio_ok (f_bio s) held -> (length held + 1 < NBUF)%nat ->
  icache s !! ip = Some x -> i_dev x = ROOTDEV ->
  0 <= n < 2147483648 -> 0 <= off -> off + n < 4294967296 ->
  range_mapped s (i_addrs x) off n ->
  (forall s', quiet held s s' -> Q (n, DLocal (fbytes s (i_addrs x) off (Z.to_nat n))) s') ->
  wp (loop (Z.to_nat (n / BSIZE) + 3) (readi_body ip n) (0, off, DLocal [])) Q s.
Proof.
  intros Hok Hlen Hx Hdev Hn Ho Hmax Hmap HQ.
  apply (wp_loop _ _ (fun k y s1 => exists tot, k = rounds n tot (off + tot) /\ 0 <= tot <= n /\ quiet held s s1 /\
    y = (tot, off + tot, DLocal (fbytes s (i_addrs x) off (Z.to_nat tot)))) _ (rounds n 0 off)).
  - intros k y s1 (tot & -> & Ht & Hq & ->). destruct (decide (tot = n)) as [->|Hne].
    { unfold readi_body. rewrite Z.ltb_irrefl. cbn [negb]. by apply wp_ret, HQ. }
    apply (readi_body_wp s1 held ip x); [apply Hq|done|by rewrite (q_ic _ _ _ Hq)|done|lia..| |].
    + eapply quiet_mapped; [exact Hq|]. apply Hmap. lia.
    + intros s2 Hq2. destruct (piece_bounds n tot (off + tot)) as [Hm _]; [lia|].
      exists (rounds n (tot + piece n tot (off + tot)) (off + tot + piece n tot (off + tot))).
      split; [apply rounds_next; lia|]. exists (tot + piece n tot (off + tot)).
      split; [f_equal; lia|]. split; [lia|]. split; [by eapply quiet_trans|].
      replace (Z.to_nat (tot + piece n tot (off + tot))) with (Z.to_nat tot + Z.to_nat (piece n tot (off + tot)))%nat by lia.
      rewrite fbytes_app, Z2Nat.id by lia. f_equal; [f_equal; lia|]. do 2 f_equal.
      unfold fbytes. apply list_fmap_ext. intros _ i _. unfold fbyte.
      by rewrite (quiet_faddr held s s1), (quiet_fblk held s s1) by done.
  - exists 0. rewrite Z.add_0_r. split; [done|]. split; [lia|]. split; [by apply quiet_refl|]. done.
  - apply rounds_fuel. lia.
Qed.

Lemma readi_local_wp s held ip x off n :
  bio_ok (f_bio s) held -> (length held + 1 < NBUF)%nat ->
  icache s !! ip = Some x -> i_dev x = ROOTDEV -> 0 <= i_size x < 2147483648 ->
  0 <= off < 4294967296 -> 0 <= n < 4294967296 ->
  let k := read_len (i_size x) off n in
  range_mapped s (i_addrs x) off k ->
  wp (readi_local ip off n) (fun r s' =>
    r = (k, fbytes s (i_addrs x) off (Z.to_nat k)) /\ quiet held s s') s.
Proof.
  intros Hok Hlen Hx Hdev Hsz Ho Hn k Hmap.
  unfold readi_local, readi. apply wp_bind, wp_bind. eapply wp_geti; [exact Hx|].
  assert ((u32 (off + n) <? off) = (4294967296 <=? off + n)) as Hw.
  { unfold u32. destruct (Z.leb_spec 4294967296 (off + n)); [apply Z.ltb_lt|apply Z.ltb_ge]; dlia. }
  rewrite Hw. unfold k, read_len in *. destruct ((i_size x <? off) || (4294967296 <=? off + n)) eqn:He.
  - apply wp_ret. cbn. apply wp_ret. split; [done|]. by apply quiet_refl.
  - zbool. rewrite u32_id by lia.
    replace (if i_size x <? off + n then i_size x - off else n) with (Z.min n (i_size x - off))
      by (destruct (Z.ltb_spec (i_size x) (off + n)); lia).
    apply wp_bind. apply (readi_loop_wp s held ip x); [done|done|done|done|lia..|done|].
    intros s' Hq. cbn [fst snd]. apply wp_ret. apply wp_ret. cbn [fst snd]. rewrite s32_id by lia. done.
Qed.

(** [readi] returns the bytes of the file at [off]: as many as were asked
    for, or as many as the file has, and nothing when the range wraps around;
    it changes nothing but the block cache. *)
Theorem readi_reads s held ip x off n :
  bio_ok (f_bio s) held -> (length held + 1 < NBUF)%nat ->
  icache s !! ip = Some x -> i_dev x = ROOTDEV -> 0 <= i_size x < 2147483648 ->
  0 <= off < 4294967296 -> 0 <= n < 4294967296 ->
  let k := read_len (i_size x) off n in
  range_mapped s (i_addrs x) off k ->
  exists s', readi_local ip off n s = Ok (k, fbytes s (i_addrs x) off (Z.to_nat k)) s' /\ quiet held s s'.
Proof.
  intros Hok Hlen Hx Hdev Hsz Ho Hn k Hmap.
  destruct (wp_inv _ _ _ (readi_local_wp s held ip x off n Hok Hlen Hx Hdev Hsz Ho Hn Hmap)) as (r & s' & -> & -> & Hq).
  by exists s'.
Qed.

(* ------------------------------------------------------------------ *)
(** ** Writing *)

(** The blocks [B] of the file are mapped, at addresses of their own. *)
Record layout s (l : list Z) (inum : Z) (B : Z -> Prop) : Prop := {
  ly_map : forall bn, B bn -> mapped s l bn;
  ly_inj : forall bn bn', B bn -> B bn' -> faddr s l bn = faddr s l bn' -> bn = bn';
  ly_idx : forall bn bn', B bn -> B bn' -> faddr s l bn ∉ findex s l bn';
  ly_ino : forall bn, B bn -> iblock (fsb s) inum <> faddr s l bn /\ iblock (fsb s) inum ∉ findex s l bn;
}.

(** The disk after the bytes [src] were written at [p] of the file: those bytes
    are in place, the others are as they were, and so is every block that is
    not the file's ([except] apart). *)
Record wrote (B : Z -> Prop) (held : list (nat * Z)) s (l : list Z) (except : Z -> Prop) (p : Z) (src : list Z) s' : Prop := {
  w_ok : bio_ok (f_bio s') held;
  w_km : f_km s' = f_km s;
  w_sb : fsb s' = fsb s;
  w_byte : forall q, B (q / BSIZE) -> fbyte s' l q =
    if decide (p <= q < p + Z.of_nat (length src)) then zget src (q - p) else fbyte s l q;
  w_frame : forall j, bno_ok j -> ~ except j -> (forall bn, B bn -> j <> faddr s l bn) -> fblk s' j = fblk s j;
}.

Section wrote.
Context (B : Z -> Prop) (held : list (nat * Z)) (l : list Z) (inum : Z).
Let ino s (j : Z) : Prop := j = iblock (fsb s) inum.

(** A block of the index keeps its place. *)
Lemma frame_faddr s s' bn :
  layout s l inum B -> B bn ->
  (forall j, bno_ok j -> ~ ino s j -> (forall bn, B bn -> j <> faddr s l bn) -> fblk s' j = fblk s j) ->
  faddr s' l bn = faddr s l bn /\ findex s' l bn = findex s l bn.
Proof.
  intros Hl Hbn Hf.
  assert (forall a, a ∈ findex s l bn -> fblk s' a = fblk s a) as Hi.
  { intros a Ha. apply Hf.
    - apply data_bno. destruct (ly_map _ _ _ _ Hl _ Hbn) as (_ & _ & Hd).
      exact (proj1 (Forall_forall _ _) Hd a Ha).
    - intros ->. by apply (ly_ino _ _ _ _ Hl _ Hbn).
    - intros bn' Hbn' ->. by apply (ly_idx _ _ _ _ Hl bn' bn). }
  unfold faddr, findex, ient in *. destruct (bn <? 11); [done|]. destruct (bn <? 267).
  - by rewrite Hi by (by left).
  - rewrite (Hi (zget l 12)) by (by left). by rewrite Hi by (by right; left).
Qed.

Lemma wrote_faddr s ex p src s' bn :
  layout s l inum B -> (forall j, ex j -> ino s j) -> wrote B held s l ex p src s' -> B bn ->
  faddr s' l bn = faddr s l bn /\ findex s' l bn = findex s l bn.
Proof. intros Hl Hex Hw Hbn. apply frame_faddr; [done..|]. intros j Hj Hn. apply (w_frame _ _ _ _ _ _ _ _ Hw j Hj). auto. Qed.

Lemma wrote_layout s ex p src s' :
  layout s l inum B -> (forall j, ex j -> ino s j) -> wrote B held s l ex p src s' -> layout s' l inum B.
Proof.
  intros Hl Hex Hw. pose proof (fun bn => wrote_faddr s ex p src s' bn Hl Hex Hw) as Hf.
  split.
  - intros bn Hbn. unfold mapped. destruct (Hf bn Hbn) as [-> ->]. by apply (ly_map _ _ _ _ Hl).
  - intros bn bn' Hbn Hbn'. destruct (Hf bn Hbn) as [-> _], (Hf bn' Hbn') as [-> _]. by apply (ly_inj _ _ _ _ Hl).
  - intros bn bn' Hbn Hbn'. destruct (Hf bn Hbn) as [-> _], (Hf bn' Hbn') as [_ ->]. by apply (ly_idx _ _ _ _ Hl).
  - intros bn Hbn. destruct (Hf bn Hbn) as [-> ->]. rewrite (w_sb _ _ _ _ _ _ _ _ Hw). by apply (ly_ino _ _ _ _ Hl).
Qed.

Lemma wrote_nil s ex p : bio_ok (f_bio s) held -> wrote B held s l ex p [] s.
Proof. intros Hok. split; try done. intros q _. rewrite decide_False; [done|]. cbn. lia. Qed.

Lemma zget_app a b i : 0 <= i -> zget (a ++ b) i = if decide (i < Z.of_nat (length a)) then zget a i else zget b (i - Z.of_nat (length a)).
Proof.
  intros Hi. unfold zget. case_decide.
  - by rewrite lookup_app_l by lia.
  - rewrite lookup_app_r by lia. do 2 f_equal. lia.
Qed.

(** Two writes in a row are one. *)
Lemma wrote_app s ex p src1 src2 s1 s2 :
  layout s l inum B -> (forall j, ex j -> ino s j) ->
  wrote B held s l ex p src1 s1 -> wrote B held s1 l ex (p + Z.of_nat (length src1)) src2 s2 ->
  wrote B held s l ex p (src1 ++ src2) s2.
Proof.
  intros Hl Hex Hw1 Hw2. pose proof (fun bn => wrote_faddr s ex p src1 s1 bn Hl Hex Hw1) as Hf.
  destruct Hw1 as [Hok1 Hkm1 Hsb1 Hb1 Hf1], Hw2 as [Hok2 Hkm2 Hsb2 Hb2 Hf2].
  split; [done|congruence..| |].
  - intros q Hq. rewrite Hb2, Hb1 by done. rewrite length_app. repeat case_decide; try lia.
    + rewrite zget_app by lia. rewrite decide_False by lia. f_equal. lia.
    + rewrite zget_app by lia. by rewrite decide_True by lia.
  - intros j Hj Hn Hb. rewrite Hf2; [by apply Hf1|done|done|].
    intros bn Hbn. destruct (Hf bn Hbn) as [-> _]. by apply Hb.
Qed.

(** A write into the block of [p]. *)
Lemma wrote_block s p src s' :
  layout s l inum B -> B (p / BSIZE) -> p mod BSIZE + Z.of_nat (length src) <= BSIZE ->
  bio_ok (f_bio s') held -> f_km s' = f_km s -> fsb s' = fsb s ->
  let a := faddr s l (p / BSIZE) in
  (forall j, bno_ok j -> fblk s' j = if decide (j = a) then blit (fblk s a) (Z.to_nat (p mod BSIZE)) src else fblk s j) ->
  wrote B held s l (fun _ => False) p src s'.
Proof.
  intros Hl Hp Hfit Hok Hkm Hsb a Hblk.
  assert (forall j, bno_ok j -> (forall bn, B bn -> j <> faddr s l bn) -> fblk s' j = fblk s j) as Hframe.
  { intros j Hj Hb. rewrite Hblk, decide_False; [done|by apply Hb|done]. }
  split; [done..| |intros j Hj _; by apply Hframe].
  intros q Hq. destruct (frame_faddr s s' (q / BSIZE) Hl Hq) as [Hqa _].
  { intros j Hj _. by apply Hframe. }
  unfold fbyte. rewrite Hqa. pose proof (Z.mod_pos_bound p BSIZE ltac:(done)) as Hpm.
  pose proof (Z.mod_pos_bound q BSIZE ltac:(done)) as Hqm.
  pose proof (Z.div_mod p BSIZE ltac:(done)) as Hpd. pose proof (Z.div_mod q BSIZE ltac:(done)) as Hqd.
  assert (bno_ok (faddr s l (q / BSIZE))) as Hqk by (apply data_bno; by apply (ly_map _ _ _ _ Hl)).
  rewrite Hblk by done. destruct (decide (q / BSIZE = p / BSIZE)) as [Heq|Hne].
  - rewrite Heq in *. rewrite decide_True by done. unfold zget at 1.
    rewrite lookup_blit by (rewrite length_fblk; unfold BSIZE in *; lia). unfold zget.
    destruct (decide (p <= q < p + Z.of_nat (length src))).
    + rewrite decide_True by lia. do 2 f_equal. lia.
    + rewrite decide_False by lia. done.
  - rewrite decide_False by (intros Ha; apply Hne; by apply (ly_inj _ _ _ _ Hl)).
    rewrite decide_False; [done|]. unfold BSIZE in *. lia.
Qed.
End wrote.

(** A round of [writei] puts the next piece in place. *)
Lemma writei_body_wp s held ip x B n tot off src (Q : _ -> fs D -> Prop) :
  bio_ok (f_bio s) held -> (length held + 1 < NBUF)%nat ->
  icache s !! ip = Some x -> i_dev x = ROOTDEV ->
  layout s (i_addrs x) (i_inum x) B -> B (off / BSIZE) ->
  0 <= tot < n -> 0 <= off -> off + (n - tot) < 4294967296 -> n < 4294967296 ->
  Z.of_nat (length src) = n - tot -> Forall is_byte src ->
  let m := piece n tot off in
  (forall s', wrote B held s (i_addrs x) (fun _ => False) off (take (Z.to_nat m) src) s' -> icache s' = icache s ->
     Q (inl (tot + m, off + m, drop (Z.to_nat m) src)) s') ->
  wp (writei_body ip n (tot, off, src)) Q s.
Proof.
  intros Hok Hlen Hx Hdev Hl HB Ht Ho Hmax Hn Hsrc Hbytes m HQ. unfold writei_body.
  rewrite (proj2 (Z.ltb_lt tot n)) by lia. cbn [negb].
  fold (piece n tot off). fold m. destruct (piece_bounds n tot off) as [Hm Hb]; [lia|]. fold m in Hm, Hb.
  pose proof (ly_map _ _ _ _ Hl _ HB) as Hmap.
  apply wp_bind, (bmap_wp s held ip x); [done..|]. intros s1 Hq1.
  set (a := faddr s (i_addrs x) (off / BSIZE)) in *.
  assert (data_ok a) as Ha by apply Hmap. pose proof (data_bno _ Ha) as Hbno.
  apply wp_bind. eapply wp_geti; [by rewrite (q_ic _ _ _ Hq1)|]. rewrite Hdev.
  apply wp_bind, wp_lbio. eapply wp_mono; [apply (bread_wp _ held a (q_ok _ _ _ Hq1) ltac:(lia) Hbno)|].
  intros bp b1 (Hok1 & Hd1 & Hs1). cbn beta.
  destruct (bio_ok_buf _ _ bp a Hok1 ltac:(by left)) as (_ & _ & y & Hy & _ & _ & Hyd).
  assert (forall j, dblk b1 j = fblk s j) as Hblk.
  { intros j. rewrite (dblk_disk _ b1 j Hd1). by apply (quiet_fblk held). }
  rewrite Hblk in Hyd.
  apply wp_bind, wp_lbio. eapply wp_getb; [exact Hy|]. rewrite Hyd.
  set (d := blit _ _ _).
  assert (length (take (Z.to_nat m) src) = Z.to_nat m) as Hlm by (rewrite length_take; lia).
  pose proof (Z.mod_pos_bound off BSIZE ltac:(done)) as Hom.
  assert (is_block d) as Hd.
  { apply is_block_blit; [apply dblk_block|rewrite Hlm; unfold BSIZE in *; lia|by apply Forall_take]. }
  apply wp_bind, wp_lbio. eapply wp_mono; [apply (bstore_wp b1 _ bp a _ Hok1 ltac:(by left) Hd)|].
  intros _ b2 (Hok2 & Hs2 & Hb2). cbn beta.
  apply wp_bind, wp_lbio. eapply wp_mono; [apply (brelse_wp b2 held bp a Hok2 ltac:(lia))|].
  intros _ b3 (Hok3 & Hd3 & Hs3). apply wp_ret. rewrite !u32_id by lia.
  apply HQ; [|exact (q_ic _ _ _ Hq1)].
  apply (wrote_block _ _ _ (i_inum x)); [done|done|rewrite Hlm; lia|done|exact (q_km _ _ _ Hq1)| |].
  - unfold fsb. cbn. rewrite Hs3, Hs2, Hs1. apply Hq1.
  - intros j Hj. change (dblk b3 j = if decide (j = a) then d else fblk s j).
    rewrite (dblk_disk b2 b3), Hb2 by done. case_decide; [done|apply Hblk].
Qed.

Lemma writei_loop_wp s held ip x B off src (Q : Z -> fs D -> Prop) :
  let n := Z.of_nat (length src) in
  bio_ok (f_bio s) held -> (length held + 1 < NBUF)%nat ->
  icache s !! ip = Some x -> i_dev x = ROOTDEV ->
  layout s (i_addrs x) (i_inum x) B -> (forall q, off <= q < off + n -> B (q / BSIZE)) ->
  0 <= off -> off + n < 4294967296 -> Forall is_byte src ->
  (forall s', wrote B held s (i_addrs x) (fun _ => False) off src s' -> icache s' = icache s -> Q (off + n) s') ->
  wp (loop (Z.to_nat (n / BSIZE) + 3) (writei_body ip n) (0, off, src)) Q s.
Proof.
  intros n Hok Hlen Hx Hdev Hl HB Ho Hmax Hbytes HQ.
  apply (wp_loop _ _ (fun k y s1 => exists tot, k = rounds n tot (off + tot) /\ 0 <= tot <= n /\
    wrote B held s (i_addrs x) (fun _ => False) off (take (Z.to_nat tot) src) s1 /\ icache s1 = icache s /\
    y = (tot, off + tot, drop (Z.to_nat tot) src)) _ (rounds n 0 off)).
  - intros k y s1 (tot & -> & Ht & Hw & Hic & ->). destruct (decide (tot = n)) as [->|Hne].
    { unfold writei_body. rewrite Z.ltb_irrefl. cbn [negb]. apply wp_ret, HQ; [|done].
      rewrite take_ge in Hw by lia. exact Hw. }
    apply (writei_body_wp s1 held ip x B); [apply Hw|done|by rewrite Hic|done| | |lia..| | |].
    + eapply wrote_layout; [exact Hl| |exact Hw]. done.
    + apply HB. lia.
    + rewrite length_drop. lia.
    + by apply Forall_drop.
    + intros s2 Hw2 Hic2. destruct (piece_bounds n tot (off + tot)) as [Hm _]; [lia|].
      exists (rounds n (tot + piece n tot (off + tot)) (off + tot + piece n tot (off + tot))).
      split; [apply rounds_next; lia|]. exists (tot + piece n tot (off + tot)).
      split; [f_equal; lia|]. split; [lia|].
      replace (Z.to_nat (tot + piece n tot (off + tot))) with (Z.to_nat tot + Z.to_nat (piece n tot (off + tot)))%nat by lia.
      split; [|split; [by rewrite Hic2|rewrite drop_drop; f_equal; f_equal; lia]].
      rewrite <- take_take_drop. eapply (wrote_app _ _ _ (i_inum x)); [exact Hl|done|exact Hw|].
      by rewrite length_take, Nat.min_l, Z2Nat.id by lia.
  - exists 0. rewrite Z.add_0_r. cbn [Z.to_nat take drop]. split; [done|]. split; [lia|]. split; [by apply wrote_nil|]. done.
  - apply rounds_fuel. lia.
Qed.

(** The effect of a write on the inode and the disk: the size grows to hold
    the bytes, and the disk inode follows it. *)
Definition grown_to (e : Z) (x : inode) : inode := if i_size x <? e then inode_set_size e x else x.
Record writes (B : Z -> Prop) (held : list (nat * Z)) s (ip : nat) (x : inode) (p : Z) (src : list Z) s' : Prop := {
  wr_ic : icache s' = <[ip := grown_to (p + Z.of_nat (length src)) x]> (icache s);
  wr_data : wrote B held s (i_addrs x)
    (fun j => i_size x < p + Z.of_nat (length src) /\ j = iblock (fsb s) (i_inum x)) p src s';
  wr_disk : i_size x < p + Z.of_nat (length src) -> forall y,
    disk_inode s' (i_inum x) y = with_disk_fields (grown_to (p + Z.of_nat (length src)) x) y;
}.

Lemma inode_ok_grown e x : inode_ok x -> is_uint e -> inode_ok (grown_to e x).
Proof. intros [] He. unfold grown_to. by destruct (i_size x <? e). Qed.

(** [iupdate] after the bytes are in place. *)
Lemma writes_iupdate_wp s held ip x B p src s1 (Q : unit -> fs D -> Prop) :
  let e := p + Z.of_nat (length src) in
  (length held + 1 < NBUF)%nat -> icache s !! ip = Some x -> i_dev x = ROOTDEV -> inode_ok x ->
  layout s (i_addrs x) (i_inum x) B -> bno_ok (iblock (fsb s) (i_inum x)) ->
  is_uint e -> wrote B held s (i_addrs x) (fun _ => False) p src s1 -> icache s1 = icache s ->
  (forall s', writes B held s ip x p src s' -> Q tt s') ->
  wp (when (i_size x <? e) (seti ip (inode_set_size e) ;;; iupdate ip)) Q s1.
Proof.
  intros e Hlen Hx Hdev Hino Hl Hk He Hw Hic HQ.
  pose proof (lookup_lt_Some _ _ _ Hx) as Hlt. rewrite <- Hic in Hx. apply wp_when.
  - intros Hlt1. zbool. apply wp_bind. eapply wp_seti; [exact Hx|].
    set (s1' := Fs _ _ _). assert (grown_to e x = inode_set_size e x) as Hg by (unfold grown_to; by rewrite (proj2 (Z.ltb_lt _ _))).
    assert (icache s1' !! ip = Some (grown_to e x)) as Hx'
      by (cbn; rewrite Hg; rewrite <- Hic in Hlt; by apply list_lookup_insert_eq).
    pose proof (inode_ok_grown e x Hino He) as Hino'. set (x' := grown_to e x) in *.
    assert (i_inum x' = i_inum x /\ i_addrs x' = i_addrs x /\ i_dev x' = i_dev x) as (Hn & Ha & Hd) by (by rewrite Hg).
    assert (fsb s1' = fsb s) as Hsb1 by apply Hw. pose proof (dinode_off_le (i_inum x)) as Hoff.
    eapply wp_mono; [apply (iupdate_wp s1' held ip x'); [apply Hw|done|exact Hx'|congruence|apply Hino'|by rewrite Hn, Hsb1]|].
    cbn beta. rewrite Hn, Hsb1. intros [] s2 (Hok2 & [Hkm2 Hsb2] & Hic2 & Hblk). rewrite Hsb1 in Hsb2.
    assert (forall j, bno_ok j -> j <> iblock (fsb s) (i_inum x) -> fblk s2 j = fblk s1 j) as Hfr.
    { intros j Hj Hne. rewrite Hblk, decide_False by done. done. }
    apply HQ. split.
    + fold e. rewrite Hic2. cbn. by rewrite Hic, <- Hg.
    + split; [done|by rewrite Hkm2; apply Hw|done| |].
      * intros q Hq. rewrite <- (w_byte _ _ _ _ _ _ _ _ Hw q Hq). unfold fbyte.
        destruct (wrote_faddr B held _ (i_inum x) s (fun _ => False) p src s1 (q / BSIZE) Hl ltac:(done) Hw Hq) as [-> _].
        destruct (frame_faddr B (i_addrs x) (i_inum x) s s2 (q / BSIZE) Hl Hq) as [-> _].
        { intros j Hj Hne Hb. rewrite Hfr by done.
          exact (w_frame _ _ _ _ _ _ _ _ Hw j Hj (fun F => F) Hb). }
        rewrite Hfr; [done| |].
        -- apply data_bno, (ly_map _ _ _ _ Hl _ Hq).
        -- intros Heq. exact (proj1 (ly_ino _ _ _ _ Hl _ Hq) (eq_sym Heq)).
      * intros j Hj Hne Hb. rewrite Hfr; [exact (w_frame _ _ _ _ _ _ _ _ Hw j Hj (fun F => F) Hb)|done|].
        intros ->. by apply Hne.
    + intros _ y. unfold disk_inode. rewrite Hsb2, Hblk, decide_True by done.
      apply dinode_load_store; [by rewrite length_fblk|done].
  - intros Hge. apply HQ. zbool. assert (grown_to e x = x) as Hg by (unfold grown_to; by rewrite (proj2 (Z.ltb_ge _ _))).
    split.
    + fold e. rewrite Hg, Hic. symmetry. apply list_insert_id. by rewrite <- Hic.
    + destruct Hw as [? ? ? ? Hf]. split; [done..|]. intros j Hj _ Hb. exact (Hf j Hj (fun F => F) Hb).
    + fold e. lia.
Qed.

Section writei.
Context (held : list (nat * Z)).

Lemma max_bytes : MAXFILE * BSIZE = 67382272.
Proof. reflexivity. Qed.

(** What [writei] needs of the file: the blocks of [B] are its own, and the
    bytes from [p] to [e] lie in them. *)
Record writable s (ip : nat) (x : inode) (B : Z -> Prop) (p e : Z) : Prop := {
  wb_ok : bio_ok (f_bio s) held;
  wb_x : icache s !! ip = Some x;
  wb_dev : i_dev x = ROOTDEV;
  wb_ino : inode_ok x;
  wb_lay : layout s (i_addrs x) (i_inum x) B;
  wb_blk : bno_ok (iblock (fsb s) (i_inum x));
  wb_p : 0 <= p;
  wb_e : e <= MAXFILE * BSIZE;
  wb_B : forall q, p <= q < e -> B (q / BSIZE);
}.

Lemma writable_sub s ip x B p e p' e' :
  writable s ip x B p e -> p <= p' -> e' <= e -> writable s ip x B p' e'.
Proof. intros [] ??. split; try done; [lia..|]. intros q Hq. apply wb_B0. lia. Qed.

Lemma quiet_writable s s' ip x B p e : quiet held s s' -> writable s ip x B p e -> writable s' ip x B p e.
Proof.
  intros Hq [Hok Hx Hdev Hino [Hma Hin Hix Hio] Hb Hp He HB]. assert (fsb s' = fsb s) as Hsb by apply Hq.
  split; [apply Hq|by rewrite (q_ic _ _ _ Hq)|done|done| |by rewrite Hsb|done..].
  split; intros; rewrite ?Hsb, ?(quiet_faddr held s s'), ?(quiet_findex held s s') in * by done; eauto.
  eapply quiet_mapped; eauto.
Qed.

Lemma grown_to_fields e x : i_inum (grown_to e x) = i_inum x /\ i_addrs (grown_to e x) = i_addrs x /\
  i_dev (grown_to e x) = i_dev x /\ i_size (grown_to e x) = Z.max (i_size x) e.
Proof. unfold grown_to. destruct (Z.ltb_spec (i_size x) e); cbn; repeat split; lia. Qed.

(** After a write the file is as writable as before. *)
Lemma writes_writable s ip x B p e e' src s' :
  writable s ip x B p e' -> writes B held s ip x p src s' -> e = p + Z.of_nat (length src) -> e <= e' ->
  writable s' ip (grown_to e x) B p e'.
Proof.
  intros [Hok Hx Hdev Hino Hl Hk Hp He HB] [Hic Hw _] -> Hle.
  destruct (grown_to_fields (p + Z.of_nat (length src)) x) as (Hn & Ha & Hd & _).
  pose proof (w_sb _ _ _ _ _ _ _ _ Hw) as Hsb.
  split; rewrite ?Hn, ?Ha, ?Hd, ?Hsb; try done; try apply Hw.
  - rewrite Hic. apply list_lookup_insert_eq. by eapply lookup_lt_Some.
  - apply inode_ok_grown; [done|]. unfold is_uint. rewrite max_bytes in He. lia.
  - eapply (wrote_layout _ _ _ (i_inum x)); [exact Hl| |exact Hw]. by intros j [_ ->].
Qed.

(** Two writes in a row are one. *)
Lemma writes_app s ip x B p e src1 src2 s1 s2 :
  writable s ip x B p e -> p + Z.of_nat (length (src1 ++ src2)) <= e -> (0 < length src2)%nat ->
  let e1 := p + Z.of_nat (length src1) in
  writes B held s ip x p src1 s1 -> writes B held s1 ip (grown_to e1 x) e1 src2 s2 ->
  writes B held s ip x p (src1 ++ src2) s2.
Proof.
  intros Hwb He H2 e1 [Hic1 Hw1 Hd1] [Hic2 Hw2 Hd2]. rewrite length_app in He.
  destruct (grown_to_fields e1 x) as (Hn & Ha & _ & Hs). rewrite Hn, ?Ha, Hs in *.
  pose proof (w_sb _ _ _ _ _ _ _ _ Hw1) as Hsb. rewrite Hsb in Hw2.
  assert (p + Z.of_nat (length (src1 ++ src2)) = e1 + Z.of_nat (length src2)) as Hend by (rewrite length_app; lia).
  assert (grown_to (e1 + Z.of_nat (length src2)) (grown_to e1 x) = grown_to (e1 + Z.of_nat (length src2)) x) as Hg.
  { unfold grown_to at 1. rewrite Hs. unfold grown_to.
    destruct (Z.ltb_spec (i_size x) e1), (Z.ltb_spec (i_size x) (e1 + Z.of_nat (length src2))),
      (Z.ltb_spec (Z.max (i_size x) e1) (e1 + Z.of_nat (length src2))); try lia; done. }
  rewrite Hg in *. split; rewrite Hend.
  - rewrite Hic2, Hic1. apply list_insert_insert_eq.
  - eapply (wrote_app _ _ _ (i_inum x)); [apply Hwb|by intros j [_ ->]| |].
    + destruct Hw1. split; try done. intros j Hj Hne. apply w_frame0; [done|]. intros [? ->]. apply Hne. split; [lia|done].
    + destruct Hw2. split; try done. intros j Hj Hne. apply w_frame0; [done|]. intros [? ->]. apply Hne. split; [lia|done].
  - intros Hlt y. apply Hd2. lia.
Qed.

Context (Hlen : (length held + 1 < NBUF)%nat).

(** The second loop of [writei] and the update of the inode after it. *)
Lemma writei_tail_wp s ip x B off src (Q : Z -> fs D -> Prop) :
  let n := Z.of_nat (length src) in
  writable s ip x B off (off + n) -> 0 < n -> Forall is_byte src ->
  (forall s', writes B held s ip x off src s' -> Q n s') ->
  wp (let! off := loop (Z.to_nat (n / BSIZE) + 3) (writei_body ip n) (0, off, src) in
      (let! x := geti ip in
       when ((0 <? n) && (i_size x <? off)) (seti ip (inode_set_size off) ;;; iupdate ip)) ;;;
      ret (s32 n)) Q s.
Proof.
  intros n [Hok Hx Hdev Hino Hl Hk Hp He HB] Hn Hb HQ. rewrite max_bytes in He.
  apply wp_bind. apply (writei_loop_wp s held ip x B off src); [done|done|done|done|done|done|lia|fold n; lia|done|].
  intros s1 Hw Hic. fold n. apply wp_bind, wp_bind. eapply wp_geti; [by rewrite Hic|].
  rewrite (proj2 (Z.ltb_lt 0 n)) by lia. cbn [andb].
  eapply (writes_iupdate_wp s held ip x B off src); [done..|unfold is_uint; fold n; lia|done|done|].
  intros s' Hw'. apply wp_ret. rewrite s32_id by lia. by apply HQ.
Qed.

(** A write that does not start past the end of the file. *)
Lemma writei_nogap_wp d s ip x B off src (Q : Z -> fs D -> Prop) :
  let n := Z.of_nat (length src) in
  writable s ip x B off (off + n) -> off <= i_size x -> 0 < n -> Forall is_byte src ->
  (forall s', writes B held s ip x off src s' -> Q n s') -> wp (writei_rec (S d) ip src off) Q s.
Proof.
  intros n Hwb Hoff Hn Hb HQ. destruct (Hwb) as [Hok Hx Hdev Hino Hl Hk Hp He HB]. rewrite max_bytes in He.
  cbn [writei_rec]. fold n. rewrite !u32_id by lia.
  rewrite (proj2 (Z.ltb_ge _ off)) by lia. rewrite max_bytes, (proj2 (Z.ltb_ge 67382272 _)) by lia.
  rewrite (proj2 (Z.eqb_neq n 0)) by lia. apply wp_bind. eapply wp_geti; [exact Hx|].
  rewrite (proj2 (Z.ltb_ge (i_size x) off)) by lia. apply wp_bind, wp_ret. cbn [negb].
  by apply (writei_tail_wp s ip x B).
Qed.

Lemma zeros_byte n : Forall is_byte (replicate n 0).
Proof. apply Forall_replicate. unfold is_byte. lia. Qed.

(** The zero fill: after it the file ends at [off]. *)
Lemma writei_gap_wp d s ip x B off (Q : bool -> fs D -> Prop) :
  writable s ip x B (i_size x) off -> i_size x < off ->
  (forall s', writes B held s ip x (i_size x) (replicate (Z.to_nat (off - i_size x)) 0) s' -> Q true s') ->
  wp (loop (Z.to_nat ((off - i_size x) / 128) + 2) (writei_gap (writei_rec (S d)) ip off) tt) Q s.
Proof.
  intros Hwb Hlt HQ. set (z := i_size x).
  apply (wp_loop _ _ (fun k _ s1 => exists e, k = Z.to_nat ((off - e + 127) / 128) /\ z <= e <= off /\
    writes B held s ip x z (replicate (Z.to_nat (e - z)) 0) s1) _ (Z.to_nat ((off - z + 127) / 128))).
  - intros k [] s1 (e & -> & He & Hw).
    assert (writable s1 ip (grown_to e x) B e off) as Hwb1.
    { apply (writable_sub _ _ _ _ z off); [|lia..].
      eapply writes_writable; [exact Hwb|exact Hw|rewrite length_replicate; lia|lia]. }
    destruct (grown_to_fields e x) as (_ & _ & _ & Hs). fold z in Hs. rewrite Z.max_r in Hs by lia.
    unfold writei_gap. apply wp_bind. eapply wp_geti; [apply Hwb1|]. rewrite Hs.
    destruct (Z.ltb_spec e off) as [Hlo|Hhi]; cbn [negb].
    + set (g := if 128 <? off - e then 128 else off - e).
      assert (0 < g <= off - e /\ (g = 128 \/ g = off - e)) as [Hg Hg'] by (unfold g; destruct (Z.ltb_spec 128 (off - e)); lia).
      apply wp_bind. apply (writei_nogap_wp d s1 ip (grown_to e x) B); rewrite ?length_replicate, ?Z2Nat.id by lia;
        [apply (writable_sub _ _ _ _ e off); [done|lia..]|lia|lia|apply zeros_byte|].
      intros s2 Hw2. rewrite Z.eqb_refl. cbn [negb]. apply wp_ret.
      exists (Z.to_nat ((off - (e + g) + 127) / 128)). split; [dlia|]. exists (e + g). split; [done|]. split; [lia|].
      replace (Z.to_nat (e + g - z)) with (Z.to_nat (e - z) + Z.to_nat g)%nat by lia. rewrite replicate_add.
      assert (e = z + Z.of_nat (length (replicate (Z.to_nat (e - z)) 0))) as Hez by (rewrite length_replicate; lia).
      eapply (writes_app s ip x B z off); [exact Hwb|rewrite length_app, !length_replicate; lia|rewrite length_replicate; lia|exact Hw|].
      by rewrite <- Hez.
    + apply wp_ret, HQ. replace off with e by lia. exact Hw.
  - exists z. split; [done|]. split; [lia|]. rewrite Z.sub_diag. cbn [Z.to_nat replicate].
    assert (grown_to z x = x) as Hg by (unfold grown_to; by rewrite Z.ltb_irrefl).
    split; cbn [length]; rewrite ?Nat2Z.inj_0, ?Z.add_0_r.
    + rewrite Hg. symmetry. apply list_insert_id, Hwb.
    + apply wrote_nil, Hwb.
    + fold z. lia.
  - dlia.
Qed.

Lemma writei_wp s ip x B off src :
  let n := Z.of_nat (length src) in let p := Z.min (i_size x) off in
  writable s ip x B p (off + n) -> 0 <= off -> 0 < n -> Forall is_byte src ->
  wp (writei ip src off) (fun r s' => r = n /\
    writes B held s ip x p (replicate (Z.to_nat (off - p)) 0 ++ src) s') s.
Proof.
  intros n p Hwb Hoff Hn Hb.
  destruct (decide (i_size x < off)) as [Hgap|Hno].
  - pose proof (wb_e _ _ _ _ _ _ Hwb) as He. rewrite max_bytes in He.
    unfold writei. cbn [writei_rec]. fold n. rewrite !u32_id by lia.
    rewrite (proj2 (Z.ltb_ge _ off)) by lia. rewrite max_bytes, (proj2 (Z.ltb_ge 67382272 _)) by lia.
    rewrite (proj2 (Z.eqb_neq n 0)) by lia. apply wp_bind. eapply wp_geti; [apply Hwb|].
    rewrite (proj2 (Z.ltb_lt (i_size x) off)) by lia. assert (p = i_size x) as Hp by lia. rewrite Hp in *.
    apply wp_bind. apply (writei_gap_wp 0 s ip x B off); [apply (writable_sub _ _ _ _ (i_size x) (off + n)); [done|lia..]|done|].
    intros s1 Hw1. cbn [negb]. set (zs := replicate _ 0) in *.
    assert (i_size x + Z.of_nat (length zs) = off) as Hzs by (unfold zs; rewrite length_replicate; lia).
    pose proof (writes_writable s ip x B (i_size x) off (off + n) zs s1 Hwb Hw1 ltac:(lia) ltac:(lia)) as Hwb1.
    apply (writei_tail_wp s1 ip (grown_to off x) B); [apply (writable_sub _ _ _ _ (i_size x) (off + n)); [done|lia..]|done|done|].
    intros s3 Hw3. split; [done|].
    eapply (writes_app s ip x B (i_size x) (off + n)); [exact Hwb|rewrite length_app; lia|lia|exact Hw1|]. by rewrite Hzs.
  - assert (p = off) as Hp by lia. rewrite Hp in *. rewrite Z.sub_diag. cbn [Z.to_nat replicate app].
    apply (writei_nogap_wp 1 s ip x B off src); [done|lia|done|done|]. done.
Qed.

(** C14: [writei] into mapped blocks puts the bytes in place at [off], fills
    the gap with zeros when [off] is past the end of the file, leaves every
    other byte of the file and every other block of the disk alone, and keeps
    the size in the inode and in its disk inode equal to the end of the file. *)
Theorem writei_writes s ip x B off src :
  let n := Z.of_nat (length src) in let p := Z.min (i_size x) off in
  writable s ip x B p (off + n) -> 0 <= off -> 0 < n -> Forall is_byte src ->
  exists s', writei ip src off s = Ok n s' /\
    writes B held s ip x p (replicate (Z.to_nat (off - p)) 0 ++ src) s'.
Proof.
  intros n p Hwb Hoff Hn Hb.
  destruct (wp_inv _ _ _ (writei_wp s ip x B off src Hwb Hoff Hn Hb)) as (r & s' & Heq & -> & Hw). by exists s'.
Qed.

(** C15: what was written is what is read back. *)
Theorem writei_readi s ip x B off src :
  let n := Z.of_nat (length src) in
  writable s ip x B (Z.min (i_size x) off) (off + n) -> 0 <= off -> 0 < n -> Forall is_byte src ->
  i_size x <= MAXFILE * BSIZE ->
  exists s' s'', writei ip src off s = Ok n s' /\ readi_local ip off n s' = Ok (n, src) s''.
Proof.
  intros n Hwb Hoff Hn Hb Hsz. set (p := Z.min (i_size x) off) in *.
  destruct (wp_inv _ _ _ (writei_wp s ip x B off src Hwb Hoff Hn Hb)) as (r & s' & Heq & -> & Hw). fold n p in Heq, Hw.
  set (zs := replicate _ 0) in *. assert (p + Z.of_nat (length (zs ++ src)) = off + n) as Hend.
  { unfold zs. rewrite length_app, length_replicate. lia. }
  pose proof (writes_writable s ip x B p (off + n) (off + n) _ s' Hwb Hw ltac:(lia) ltac:(lia)) as Hwb'.
  destruct (grown_to_fields (off + n) x) as (_ & Ha & Hd & Hs). pose proof (in_size _ (wb_ino _ _ _ _ _ _ Hwb)) as Hu.
  pose proof (wb_e _ _ _ _ _ _ Hwb) as He. rewrite max_bytes in *. unfold is_uint in Hu.
  assert (read_len (i_size (grown_to (off + n) x)) off n = n) as Hk.
  { unfold read_len. rewrite Hs, (proj2 (Z.ltb_ge _ off)), (proj2 (Z.leb_gt 4294967296 _)) by lia. cbn [orb]. lia. }
  destruct (wp_inv _ _ _ (readi_local_wp s' held ip (grown_to (off + n) x) off n (wb_ok _ _ _ _ _ _ Hwb') Hlen
    (wb_x _ _ _ _ _ _ Hwb') (wb_dev _ _ _ _ _ _ Hwb') ltac:(lia) ltac:(lia) ltac:(lia)
    ltac:(rewrite Hk; intros q Hq; apply (ly_map _ _ _ _ (wb_lay _ _ _ _ _ _ Hwb')), (wb_B _ _ _ _ _ _ Hwb'); lia)))
    as (r2 & s'' & Heq2 & -> & _).
  exists s', s''. split; [exact Heq|]. rewrite Heq2, Hk. do 2 f_equal. rewrite Ha.
  apply list_eq. intros i. destruct (decide (i < length src)%nat) as [Hi|Hi].
  - rewrite lookup_fbytes by lia.
    rewrite (w_byte _ _ _ _ _ _ _ _ (wr_data _ _ _ _ _ _ _ _ Hw)) by (apply (wb_B _ _ _ _ _ _ Hwb); lia).
    rewrite decide_True by lia. rewrite zget_app by lia. unfold zs. rewrite length_replicate, decide_False by lia.
    rewrite <- zget_lookup by lia. f_equal. lia.
  - rewrite !(proj2 (lookup_ge_None _ _)); [done|lia|rewrite length_fbytes; lia].
Qed.

End writei.

(** [writei] refuses a range that wraps around or ends past the largest
    file ([MAXFILE] blocks), and then changes nothing. *)
Theorem writei_too_big s ip src off :
  let n := Z.of_nat (length src) in
  0 <= off < 4294967296 -> n < 4294967296 -> MAXFILE * BSIZE < off + n -> writei ip src off s = Ok (-1) s.
Proof.
  intros n Ho Hn Hbig. rewrite max_bytes in Hbig. unfold writei. cbn [writei_rec]. fold n.
  destruct (Z.ltb_spec (u32 (off + n)) off) as [Hw|Hw]; [done|]. rewrite max_bytes.
  rewrite (proj2 (Z.ltb_lt _ _)); [done|]. unfold u32 in *. dlia.
Qed.

End spec.

(* ------------------------------------------------------------------ *)
(** ** A concrete file *)

(** The two blocks of the file of [sample_fs]. *)
Definition sample_blocks (bn : Z) : Prop := bn = 0 \/ bn = 1.

Lemma sample_layout : layout sample_fs (i_addrs sample_inode) (i_inum sample_inode) sample_blocks.
Proof.
  destruct sample_fs_bio as [_ Hs]. split.
  - intros bn [-> | ->]; (split; [lia|split; [split; reflexivity|constructor]]).
  - intros bn bn' [-> | ->] [-> | ->]; intros Heq; (reflexivity || (vm_compute in Heq; discriminate)).
  - intros bn bn' _ [-> | ->]; apply not_elem_of_nil.
  - intros bn [-> | ->]; rewrite Hs; (split; [discriminate|apply not_elem_of_nil]).
Qed.
Lemma sample_writable p e : 0 <= p -> e <= 2048 -> writable [] sample_fs 0 sample_inode sample_blocks p e.
Proof.
  destruct sample_fs_bio as [Hok Hs]. intros Hp He. split.
  - exact Hok.
  - reflexivity.
  - reflexivity.
  - exact sample_inode_ok.
  - exact sample_layout.
  - rewrite Hs. split; [apply Z.leb_le|apply Z.ltb_lt]; reflexivity.
  - exact Hp.
  - rewrite max_bytes. lia.
  - intros q Hq. unfold sample_blocks, BSIZE. dlia.
Qed.
Lemma sample_held : (length (@nil (nat * Z)) + 1 < NBUF)%nat.
Proof. cbn. unfold NBUF. lia. Qed.
#[local] Opaque sample_fs.

Lemma sample_range : range_mapped sample_fs (i_addrs sample_inode) 1000 (read_len (i_size sample_inode) 1000 700).
Proof.
  change (read_len (i_size sample_inode) 1000 700) with 500. intros q Hq.
  apply (ly_map _ _ _ _ sample_layout), (wb_B _ _ _ _ _ _ _ (sample_writable 0 2048 ltac:(lia) ltac:(lia))). lia.
Qed.
Lemma readi_reads_witness : exists s' bs, readi_local 0 1000 700 sample_fs = Ok (500, bs) s' /\ length bs = 500%nat.
Proof.
  pose proof (sample_writable 0 2048 ltac:(lia) ltac:(lia)) as Hwb.
  destruct (readi_reads sample_fs [] 0 sample_inode 1000 700 (wb_ok _ _ _ _ _ _ _ Hwb) sample_held (wb_x _ _ _ _ _ _ _ Hwb)
    eq_refl ltac:(split; [discriminate|reflexivity]) ltac:(lia) ltac:(lia) sample_range) as (s' & Heq & _).
  eexists s', _. split; [exact Heq|]. by rewrite length_fbytes.
Defined.

Lemma writei_writes_witness :
  exists s', writei 0 (replicate 100 7) 1600 sample_fs = Ok 100 s' /\ length (icache s') = NINODE.
Proof.
  destruct (writei_writes [] sample_held sample_fs 0 sample_inode sample_blocks 1600 (replicate 100 7)
    ltac:(apply sample_writable; rewrite ?length_replicate; change (i_size sample_inode) with 1500; lia) ltac:(lia) ltac:(rewrite length_replicate; lia)
    ltac:(apply Forall_replicate; unfold is_byte; lia)) as (s' & Heq & Hw).
  exists s'. split; [exact Heq|]. rewrite (wr_ic _ _ _ _ _ _ _ _ Hw), length_insert. vm_compute. reflexivity.
Defined.

Lemma writei_readi_witness :
  exists s' s'', writei 0 (replicate 100 7) 1600 sample_fs = Ok 100 s' /\
    readi_local 0 1600 100 s' = Ok (100, replicate 100 7) s''.
Proof.
  exact (writei_readi [] sample_held sample_fs 0 sample_inode sample_blocks 1600 (replicate 100 7)
    ltac:(apply sample_writable; rewrite ?length_replicate; change (i_size sample_inode) with 1500; lia) ltac:(lia) ltac:(rewrite length_replicate; lia)
    ltac:(apply Forall_replicate; unfold is_byte; lia) ltac:(rewrite max_bytes; cbn; lia)).
Defined.

Lemma writei_too_big_witness : writei 0 [1; 2] 67382271 sample_fs = Ok (-1) sample_fs.
Proof. exact (writei_too_big sample_fs 0 [1; 2] 67382271 ltac:(lia) ltac:(cbn; lia) ltac:(rewrite max_bytes; cbn; lia)). Defined.
