(* ===== verification/FsDir.v ===== *)
(** Directories: [dirlookup] and [dirlink] of [kernel/fs/fs.c] against the
    directory as a list of entries. *)

From S2P Require Import Prelude Memory Kalloc Vm Str Bio BioSpec Fs FsInode FsFile.

(* ------------------------------------------------------------------ *)
(** ** Names *)

(** The name an entry or an argument stands for: at most fourteen characters. *)
Definition dname (a : list Z) : list Z := take DIRSIZ (cstr a).

Lemma name_match_spec n a b : name_match n a b = bool_decide (take n (cstr a) = take n (cstr b)).
Proof.
  revert a b. induction n as [|n IH]; intros a b; [done|]. cbn [name_match].
  rewrite (cstr_chr a), (cstr_chr b).
  destruct (Z.eqb_spec (chr a) (chr b)) as [Heq|Hne]; cbn [negb].
  - rewrite Heq. destruct (chr b =? 0) eqn:Hb; cbn [take]; [by rewrite bool_decide_eq_true_2|].
    rewrite IH. apply bool_decide_ext. split; [by intros ->|by intros [= ->]].
  - symmetry. apply bool_decide_eq_false_2.
    destruct (Z.eqb_spec (chr a) 0) as [Ha|Ha], (Z.eqb_spec (chr b) 0) as [Hb|Hb]; cbn [take]; try congruence; lia.
Qed.

(** The comparison written out in [dirlookup] accepts exactly the names
    for which [namecmp] returns 0. *)
Theorem name_match_namecmp a b : name_match DIRSIZ a b = (namecmp a b =? 0).
Proof.
  rewrite name_match_spec. unfold namecmp. destruct (Z.eqb_spec (strncmp a b DIRSIZ) 0) as [He|Hne].
  - by apply bool_decide_eq_true_2, strncmp_eq.
  - apply bool_decide_eq_false_2. by rewrite <- strncmp_eq.
Qed.

(** The fourteen bytes [dirlink] stores for a name. *)
Definition entry_name (name : list Z) : list Z := safestrcpy (replicate DIRSIZ 0) name (Z.of_nat DIRSIZ).

Lemma length_entry_name name : length (entry_name name) = DIRSIZ.
Proof. unfold entry_name. by rewrite length_safestrcpy, length_replicate. Qed.
Lemma dname_entry_name name : dname (entry_name name) = take 13 (cstr name).
Proof.
  unfold dname, entry_name. rewrite cstr_safestrcpy by (rewrite ?length_replicate; unfold DIRSIZ; lia).
  rewrite take_take. done.
Qed.

Lemma safestrcpy_byte s t n : Forall is_byte s -> Forall is_byte t -> Forall is_byte (safestrcpy s t n).
Proof.
  unfold safestrcpy. destruct (n <=? 0); [done|]. generalize (Z.to_nat n) 0%nat. clear n.
  assert (is_byte 0) as H0 by (unfold is_byte; lia).
  intros n. revert s t. induction n as [|n IH]; intros s t i Hs Ht; cbn [safestrcpy_loop].
  - by apply Forall_insert.
  - destruct n as [|n]; [by apply Forall_insert|].
    assert (is_byte (chr t)) as Hc by (destruct Ht; done).
    destruct (chr t =? 0); [by repeat apply Forall_insert|].
    apply IH; [by apply Forall_insert|]. by destruct Ht.
Qed.

(** Storing and loading an entry. *)
Lemma dirent_of_bytes de :
  0 <= de_inum de < 65536 -> length (de_name de) = DIRSIZ -> dirent_of (dirent_bytes de) = de.
Proof.
  intros Hi Hn. destruct de as [inum name]. cbn [de_inum de_name] in *. unfold dirent_of, dirent_bytes. cbn [de_inum de_name].
  f_equal.
  - unfold get16. rewrite slice_app_l by (by rewrite length_le_bytes). rewrite le_val_bytes. by apply Z.mod_small.
  - rewrite slice_app_r by (rewrite length_le_bytes; lia). rewrite length_le_bytes, Nat.sub_diag.
    unfold slice. cbn [drop]. apply take_ge. lia.
Qed.
Lemma length_dirent_bytes de : length (de_name de) = DIRSIZ -> length (dirent_bytes de) = 16%nat.
Proof. intros Hn. unfold dirent_bytes. by rewrite length_app, length_le_bytes, Hn. Qed.

Section spec.
Context {D : Type} `{BlockDevOk D}.
Implicit Types s : fs D.
Context (held : list (nat * Z)).

(* ------------------------------------------------------------------ *)
(** ** The directory as a list of entries *)

Definition entry s (l : list Z) (k : Z) : dirent := dirent_of (fbytes s l (16 * k) 16).

(** What the operations need of the directory [x] held by entry [dp] of the
    inode cache: whole entries, in mapped blocks. *)
Record dir_ok s (dp : nat) (x : inode) : Prop := {
  do_ok : bio_ok (f_bio s) held;
  do_x : icache s !! dp = Some x;
  do_dev : i_dev x = ROOTDEV;
  do_type : i_type x = T_DIR;
  do_size : 0 <= i_size x < 2147483648 /\ i_size x mod 16 = 0;
  do_map : range_mapped s (i_addrs x) 0 (i_size x);
}.

Lemma quiet_entry s s' l k : quiet held s s' -> entry s' l k = entry s l k.
Proof.
  intros Hq. unfold entry. f_equal. unfold fbytes. apply list_fmap_ext. intros _ i _. unfold fbyte.
  by rewrite (quiet_faddr held s s'), (quiet_fblk held s s') by done.
Qed.
Lemma quiet_dir s s' dp x : quiet held s s' -> dir_ok s dp x -> dir_ok s' dp x.
Proof.
  intros Hq []. split; try done; [apply Hq|by rewrite (q_ic _ _ _ Hq)|].
  intros q Hr. eapply quiet_mapped; [exact Hq|by apply do_map0].
Qed.

Context (Hlen : (length held + 1 < NBUF)%nat).

(** Reading one entry. *)
Lemma read_entry_wp s dp x k (Q : Z * list Z -> fs D -> Prop) :
  dir_ok s dp x -> 0 <= k -> 16 * k < i_size x ->
  (forall s', quiet held s s' -> forall bs, dirent_of bs = entry s (i_addrs x) k -> Q (16, bs) s') ->
  wp (readi_local dp (16 * k) 16) Q s.
Proof.
  intros [Hok Hx Hdev Ht [Hsz Hm] Hmap] Hk Hlt HQ.
  assert (read_len (i_size x) (16 * k) 16 = 16) as Hrl.
  { unfold read_len. rewrite (proj2 (Z.ltb_ge _ _)), (proj2 (Z.leb_gt 4294967296 _)) by lia. cbn [orb].
    apply Z.min_l. dlia. }
  eapply wp_mono; [apply (readi_local_wp s held dp x (16 * k) 16); try done; try lia|].
  - rewrite Hrl. intros q Hq. apply Hmap. dlia.
  - cbn beta. rewrite Hrl. intros r s' [-> Hq]. apply HQ; [done|]. done.
Qed.

(* ------------------------------------------------------------------ *)
(** ** dirlookup *)

(** Entry [k] is in use for the name. *)
Definition is_entry (name : list Z) (de : dirent) : Prop := de_inum de <> 0 /\ dname (de_name de) = dname name.
#[global] Instance is_entry_dec name de : Decision (is_entry name de).
Proof. unfold is_entry. apply _. Defined.

Lemma dirlookup_body_wp s dp x name k (Q : _ -> fs D -> Prop) :
  dir_ok s dp x -> 0 <= k -> 16 * k < i_size x ->
  (~ is_entry name (entry s (i_addrs x) k) -> forall s', quiet held s s' -> Q (inl (16 * (k + 1))) s') ->
  (is_entry name (entry s (i_addrs x) k) -> forall s', quiet held s s' ->
     wp (let! ip := iget ROOTDEV (de_inum (entry s (i_addrs x) k)) in ret (inr (Some (ip, 16 * k)))) Q s') ->
  wp (dirlookup_body dp name (16 * k)) Q s.
Proof.
  intros Hd Hk Hlt Hno Hyes. unfold dirlookup_body. pose proof (do_size _ _ _ Hd) as [Hsz _].
  apply wp_bind. eapply wp_geti; [apply Hd|]. rewrite (proj2 (Z.ltb_lt _ _)) by lia. cbn [negb].
  apply wp_bind. apply (read_entry_wp s dp x k); [done..|]. intros s' Hq bs Hbs. cbn [fst snd].
  rewrite Z.eqb_refl. cbn [negb]. rewrite Hbs. replace (u32 (16 * k + 16)) with (16 * (k + 1)) by (rewrite u32_id; lia).
  unfold is_entry in *. destruct (Z.eqb_spec (de_inum (entry s (i_addrs x) k)) 0) as [Hz|Hz].
  - apply wp_ret, Hno; [tauto|done].
  - rewrite name_match_spec. case_bool_decide as Hn.
    + apply wp_bind. eapply wp_geti; [by rewrite (q_ic _ _ _ Hq); apply Hd|]. rewrite (do_dev _ _ _ Hd). by apply Hyes.
    + apply wp_ret, Hno; [|done]. unfold dname. tauto.
Qed.

(** The entries before [k] are not for the name. *)
Definition none_before s (l : list Z) (name : list Z) (k : Z) : Prop :=
  forall j, 0 <= j < k -> ~ is_entry name (entry s l j).

Lemma dirlookup_wp s dp x name (Q : _ -> fs D -> Prop) :
  dir_ok s dp x ->
  (none_before s (i_addrs x) name (i_size x / 16) -> forall s', quiet held s s' -> Q None s') ->
  (forall k s', 0 <= k < i_size x / 16 -> none_before s (i_addrs x) name k -> is_entry name (entry s (i_addrs x) k) ->
     quiet held s s' -> wp (iget ROOTDEV (de_inum (entry s (i_addrs x) k))) (fun ip => Q (Some (ip, 16 * k))) s') ->
  wp (dirlookup dp name) Q s.
Proof.
  intros Hd Hnone Hsome. pose proof (do_size _ _ _ Hd) as [Hsz Hm].
  unfold dirlookup. apply wp_bind. eapply wp_geti; [apply Hd|]. rewrite (do_type _ _ _ Hd), Z.eqb_refl. cbn [negb].
  apply (wp_loop _ _ (fun n off s1 => exists k, n = Z.to_nat (i_size x / 16 - k) /\ off = 16 * k /\
    0 <= k <= i_size x / 16 /\ quiet held s s1 /\ none_before s (i_addrs x) name k) _ (Z.to_nat (i_size x / 16))).
  - intros n off s1 (k & -> & -> & Hk & Hq & Hnb). destruct (decide (k = i_size x / 16)) as [->|Hne].
    + unfold dirlookup_body. apply wp_bind. eapply wp_geti; [rewrite (q_ic _ _ _ Hq); apply Hd|].
      rewrite (proj2 (Z.ltb_ge _ _)) by dlia. cbn [negb]. by apply wp_ret, Hnone.
    + apply (dirlookup_body_wp s1 dp x); [by eapply quiet_dir|lia|dlia|..]; rewrite (quiet_entry s s1 _ k Hq).
      * intros Hno s2 Hq2. exists (Z.to_nat (i_size x / 16 - (k + 1))). split; [lia|]. exists (k + 1).
        split; [done|]. split; [done|]. split; [lia|]. split; [by eapply quiet_trans|].
        intros j Hj. destruct (decide (j = k)) as [->|]; [done|]. apply Hnb. lia.
      * intros Hyes s2 Hq2. apply wp_bind. eapply wp_mono.
        { apply (Hsome k s2); [lia|done|done|by eapply quiet_trans]. }
        cbn beta. intros ip s3 HQ. by apply wp_ret.
  - exists 0. split; [f_equal; lia|]. split; [done|]. split; [dlia|]. split; [by apply quiet_refl, Hd|].
    intros j Hj. lia.
  - dlia.
Qed.

(** An unused entry of the inode cache lets [iget] succeed. *)
Definition iget_room s : Prop :=
  icache_ok s /\ (forall i x, icache s !! i = Some x -> i_ref x < 2147483647) /\
  exists i x, icache s !! i = Some x /\ i_ref x = 0.

Lemma iget_live_wp s dev inum :
  iget_room s -> wp (iget dev inum) (fun ip s' => icache_ok s' /\
    exists x, icache s' !! ip = Some x /\ live dev inum x) s.
Proof.
  intros (Hok & Hmax & j & y & Hy & Hz). pose proof (iget_cases s dev inum Hok Hmax) as Hc. unfold wp.
  destruct (iget dev inum s) as [ip s'|c s'|e]; [|done|].
  - destruct Hc as (Hok' & _ & _ & x & x' & Hx & Hic & Hl & _). split; [done|]. exists x'. split; [|done].
    rewrite Hic. apply list_lookup_insert_eq. by eapply lookup_lt_Some.
  - destruct Hc as [_ Hc]. by destruct (Hc j y Hy).
Qed.
Lemma quiet_room s s' : quiet held s s' -> iget_room s -> iget_room s'.
Proof.
  intros Hq ([Hr Hu] & Hm & He). unfold iget_room. rewrite (q_ic _ _ _ Hq). split; [|done].
  split; rewrite (q_ic _ _ _ Hq); [done|exact Hu].
Qed.

(** [dirlookup] finds the first entry in use for the name and returns its
    inode with the offset of the entry; without one it returns 0 and changes
    nothing but the block cache. *)
Theorem dirlookup_first s dp x name :
  dir_ok s dp x -> iget_room s ->
  exists r s', dirlookup dp name s = Ok r s' /\
    match r with
    | None => none_before s (i_addrs x) name (i_size x / 16) /\ quiet held s s'
    | Some (ip, off) => exists k, off = 16 * k /\ 0 <= k < i_size x / 16 /\
        none_before s (i_addrs x) name k /\ is_entry name (entry s (i_addrs x) k) /\ icache_ok s' /\
        exists y, icache s' !! ip = Some y /\ live ROOTDEV (de_inum (entry s (i_addrs x) k)) y
    end.
Proof.
  intros Hd Hr. apply (wp_inv (dirlookup dp name)). apply (dirlookup_wp s dp x name); [done| |].
  - intros Hnb s' Hq. done.
  - intros k s' Hk Hnb Hy Hq. eapply wp_mono; [apply iget_live_wp; by eapply quiet_room|].
    cbn beta. intros ip s2 [Hok2 Hl]. by exists k.
Qed.

(* ------------------------------------------------------------------ *)
(** ** dirlink *)

(** Entry [k] is the first free one, or the place after the last. *)
Definition first_free s (l : list Z) (size k : Z) : Prop :=
  0 <= k <= size / 16 /\ (forall j, 0 <= j < k -> de_inum (entry s l j) <> 0) /\
  (k < size / 16 -> de_inum (entry s l k) = 0).

Lemma quiet_first_free s s' l size k : quiet held s s' -> first_free s' l size k -> first_free s l size k.
Proof.
  intros Hq (Hk & Hnz & Hz). split; [done|]. split.
  - intros j Hj. rewrite <- (quiet_entry s s') by done. by apply Hnz.
  - intros Hlt. rewrite <- (quiet_entry s s') by done. by apply Hz.
Qed.

Lemma dirlink_slot_wp s dp x (Q : Z -> fs D -> Prop) :
  dir_ok s dp x ->
  (forall k s', first_free s (i_addrs x) (i_size x) k -> quiet held s s' -> Q (16 * k) s') ->
  wp (loop (Z.to_nat (i_size x / 16) + 2) (dirlink_slot dp) 0) Q s.
Proof.
  intros Hd HQ. pose proof (do_size _ _ _ Hd) as [Hsz Hm].
  apply (wp_loop _ _ (fun n off s1 => exists k, n = Z.to_nat (i_size x / 16 - k) /\ off = 16 * k /\
    0 <= k <= i_size x / 16 /\ quiet held s s1 /\
    forall j, 0 <= j < k -> de_inum (entry s (i_addrs x) j) <> 0) _ (Z.to_nat (i_size x / 16))).
  - intros n off s1 (k & -> & -> & Hk & Hq & Hnb). unfold dirlink_slot.
    apply wp_bind. eapply wp_geti; [rewrite (q_ic _ _ _ Hq); apply Hd|].
    destruct (Z.ltb_spec (16 * k) (i_size x)) as [Hlt|Hge]; cbn [negb].
    + apply wp_bind. apply (read_entry_wp s1 dp x k); [by eapply quiet_dir|lia|lia|]. intros s2 Hq2 bs Hbs. cbn [fst snd].
      rewrite Z.eqb_refl, Hbs, (quiet_entry s s1 _ k Hq). cbn [negb].
      destruct (Z.eqb_spec (de_inum (entry s (i_addrs x) k)) 0) as [Hz|Hz]; apply wp_ret.
      * apply HQ; [|by eapply quiet_trans]. split; [lia|]. split; [done|]. done.
      * exists (Z.to_nat (i_size x / 16 - (k + 1))). split; [dlia|]. exists (k + 1).
        split; [done|]. split; [rewrite u32_id by lia; lia|]. split; [dlia|]. split; [by eapply quiet_trans|].
        intros j Hj. destruct (decide (j = k)) as [->|]; [done|]. apply Hnb. lia.
    + apply wp_ret, HQ; [|done]. split; [lia|]. split; [done|]. dlia.
  - exists 0. split; [f_equal; lia|]. split; [done|]. split; [dlia|]. split; [by apply quiet_refl, Hd|].
    intros j Hj. lia.
  - dlia.
Qed.

(** What [dirlink] leaves: the entry in the first free place, the other entries
    as they were. *)
Record linked s dp (x : inode) (name : list Z) (inum k : Z) s' : Prop := {
  ln_free : first_free s (i_addrs x) (i_size x) k;
  ln_dir : dir_ok s' dp (grown_to (16 * k + 16) x);
  ln_new : entry s' (i_addrs x) k = Dirent inum (entry_name name);
  ln_old : forall j, 0 <= j < i_size x / 16 -> j <> k -> entry s' (i_addrs x) j = entry s (i_addrs x) j;
  ln_ic : icache s' = <[dp := grown_to (16 * k + 16) x]> (icache s);
}.

(** The bytes of an entry after the write. *)
Lemma writes_entry s dp x B k j de s' :
  writes B held s dp x (16 * k) (dirent_bytes de) s' -> 0 <= j -> (forall q, 16 * j <= q < 16 * j + 16 -> B (q / BSIZE)) ->
  0 <= de_inum de < 65536 -> length (de_name de) = DIRSIZ ->
  entry s' (i_addrs x) j = if decide (j = k) then de else entry s (i_addrs x) j.
Proof.
  intros Hw Hj HB Hi Hn. pose proof (length_dirent_bytes de Hn) as Hl. unfold entry.
  pose proof (w_byte _ _ _ _ _ _ _ _ (wr_data _ _ _ _ _ _ _ _ Hw)) as Hb. rewrite Hl in Hb.
  case_decide as Hk.
  - subst j. rewrite <- (dirent_of_bytes de Hi Hn) at 1. f_equal. apply list_eq. intros i.
    destruct (decide (i < 16)%nat) as [Hi16|Hi16].
    + rewrite lookup_fbytes, Hb by (done || (apply HB; lia)). rewrite decide_True by lia.
      rewrite <- zget_lookup by lia. f_equal. lia.
    + rewrite !(proj2 (lookup_ge_None _ _)); [done|lia|rewrite length_fbytes; lia].
  - f_equal. unfold fbytes. apply list_fmap_ext. intros _ i [Hs Hlt]%list_elem_of_lookup_2%elem_of_seq.
    rewrite Hb by (apply HB; lia). rewrite decide_False by lia. done.
Qed.

Lemma dirlink_wp s dp x B name inum (Q : Z -> fs D -> Prop) :
  dir_ok s dp x -> none_before s (i_addrs x) name (i_size x / 16) ->
  writable held s dp x B 0 (i_size x + 16) -> 0 < inum < 65536 -> Forall is_byte name ->
  (forall k s', linked s dp x name inum k s' -> Q 0 s') -> wp (dirlink dp name inum) Q s.
Proof.
  intros Hd Hnb Hwb Hi Hby HQ. pose proof (do_size _ _ _ Hd) as [Hsz Hm]. unfold dirlink.
  apply wp_bind, (dirlookup_wp s dp x name); [done| |intros k s' Hk _ Hy; by destruct (Hnb k Hk)].
  intros _ s1 Hq1. pose proof (quiet_dir _ _ _ _ Hq1 Hd) as Hd1.
  apply wp_bind. eapply wp_geti; [apply Hd1|]. apply wp_bind, (dirlink_slot_wp s1 dp x); [done|].
  intros k s2 Hff Hq2. fold (entry_name name). rewrite u16_id by lia. set (de := Dirent inum (entry_name name)).
  pose proof (quiet_trans _ _ _ _ Hq1 Hq2) as Hq. pose proof (length_dirent_bytes de (length_entry_name name)) as Hl.
  pose proof (quiet_first_free _ _ _ _ _ Hq1 Hff) as Hff0. destruct (Hff0) as (Hk & Hnz & Hz).
  assert (16 * k <= i_size x) as Hkx by dlia.
  pose proof (quiet_writable held s s2 dp x B _ _ Hq Hwb) as Hwb2.
  apply wp_bind. eapply wp_mono.
  { apply (writei_wp held Hlen s2 dp x B (16 * k) (dirent_bytes de)); rewrite ?Hl; [|lia|lia|].
    - apply (writable_sub held s2 dp x B 0 (i_size x + 16)); [done|lia|lia].
    - apply Forall_app. split; [apply le_bytes_byte|]. apply safestrcpy_byte; [|done]. apply Forall_replicate. unfold is_byte. lia. }
  cbn beta. rewrite Hl, Z.min_r by lia. rewrite Z.sub_diag.
  intros r s3 [-> Hw]. change (replicate (Z.to_nat 0) 0 ++ dirent_bytes de) with (dirent_bytes de) in Hw. change (Z.of_nat 16 =? 16) with true. cbn [negb]. apply wp_ret. apply (HQ k s3).
  assert (forall j, 0 <= j <= i_size x / 16 -> entry s3 (i_addrs x) j = if decide (j = k) then de else entry s (i_addrs x) j) as He.
  { intros j Hj. rewrite (writes_entry s2 dp x B k j de s3 Hw); [by rewrite (quiet_entry s s2)|lia| |cbn; lia|apply length_entry_name].
    intros q Hqr. apply (wb_B _ _ _ _ _ _ _ Hwb). dlia. }
  pose proof (writes_writable held s2 dp x B (16 * k) (16 * k + 16) (i_size x + 16) (dirent_bytes de) s3
    (writable_sub held s2 dp x B 0 (i_size x + 16) (16 * k) (i_size x + 16) Hwb2 ltac:(lia) ltac:(lia)) Hw ltac:(rewrite Hl; lia) ltac:(lia)) as Hwb3.
  split; [done| |by rewrite He, decide_True by lia|intros j Hj Hne; by rewrite He, decide_False by lia|].
  - destruct (grown_to_fields (16 * k + 16) x) as (Hn & Ha & Hdv & Hs).
    split; [apply Hwb3|apply Hwb3|apply Hwb3| |rewrite Hs; split; [|destruct (Z.max_spec (i_size x) (16 * k + 16)) as [[_ ->]|[_ ->]]; dlia]|].
    + unfold grown_to. destruct (i_size x <? 16 * k + 16); apply Hd.
    + pose proof (wb_e _ _ _ _ _ _ _ Hwb) as Hmax. rewrite max_bytes in Hmax. lia.
    + rewrite Ha, Hs. intros q Hqr. apply (ly_map _ _ _ _ (ltac:(rewrite <- Ha; apply Hwb3) : layout s3 (i_addrs x) _ B)).
      apply (wb_B _ _ _ _ _ _ _ Hwb). lia.
  - by rewrite (wr_ic _ _ _ _ _ _ _ _ Hw), Hl, (q_ic _ _ _ Hq).
Qed.

(** [dirlink] leaves room in the inode cache. *)
Lemma linked_room s dp x name inum k s' :
  dir_ok s dp x -> linked s dp x name inum k s' -> iget_room s -> iget_room s'.
Proof.
  intros Hd Hl ([Hr Hu] & Hm & j & y & Hj & Hy). pose proof (ln_ic _ _ _ _ _ _ _ Hl) as Hic.
  set (x' := grown_to (16 * k + 16) x) in *.
  assert (i_ref x' = i_ref x /\ i_dev x' = i_dev x /\ i_inum x' = i_inum x) as (Hrx & Hdx & Hnx)
    by (unfold x', grown_to; by destruct (i_size x <? 16 * k + 16)).
  assert (forall i z, icache s' !! i = Some z -> exists z0, icache s !! i = Some z0 /\ i_ref z = i_ref z0 /\
    i_dev z = i_dev z0 /\ i_inum z = i_inum z0) as Hinv.
  { intros i z. rewrite Hic. intros [(<- & <- & _)|[_ Hz]]%list_lookup_insert_Some; [|by exists z].
    exists x. split; [apply Hd|done]. }
  split; [split|split].
  - intros i z (z0 & Hz & -> & _)%Hinv. by apply (Hr i).
  - intros i i2 z z2 d n (z0 & Hz & Hz1 & Hz2 & Hz3)%Hinv (w0 & Hw & Hw1 & Hw2 & Hw3)%Hinv Hlz Hlw.
    apply (Hu i i2 z0 w0 d n); [done|done|unfold live in *; lia|unfold live in *; lia].
  - intros i z (z0 & Hz & -> & _)%Hinv. by apply (Hm i).
  - destruct (decide (j = dp)) as [->|Hne].
    + exists dp, x'. rewrite Hic. split; [apply list_lookup_insert_eq; by eapply lookup_lt_Some|].
      rewrite (do_x _ _ _ Hd) in Hj. injection Hj as <-. congruence.
    + exists j, y. rewrite Hic, list_lookup_insert_ne by done. done.
Qed.

(** The entries [dirlink] leaves before and at the new one. *)
Lemma linked_entries s dp x name inum k s' j :
  dir_ok s dp x -> linked s dp x name inum k s' -> 0 <= j < i_size (grown_to (16 * k + 16) x) / 16 ->
  j = k \/ (0 <= j < i_size x / 16 /\ j <> k /\ entry s' (i_addrs x) j = entry s (i_addrs x) j).
Proof.
  intros Hd Hl Hj. destruct (do_size _ _ _ Hd) as [Hsz Hm]. destruct (ln_free _ _ _ _ _ _ _ Hl) as (Hk & _).
  destruct (decide (j = k)) as [->|Hne]; [by left|]. right.
  destruct (grown_to_fields (16 * k + 16) x) as (_ & _ & _ & Hs). rewrite Hs in Hj.
  assert (j < i_size x / 16) by dlia. split; [lia|]. split; [done|]. apply (ln_old _ _ _ _ _ _ _ Hl); [lia|done].
Qed.

(** C16: [dirlink] of a new name of at most thirteen characters puts the entry
    in the first free place (growing the directory when there is none), keeps
    the others, and [dirlookup] then finds the inode at that place. *)
Theorem dirlink_dirlookup s dp x B name inum :
  dir_ok s dp x -> iget_room s -> none_before s (i_addrs x) name (i_size x / 16) ->
  writable held s dp x B 0 (i_size x + 16) -> 0 < inum < 65536 -> Forall is_byte name ->
  (length (cstr name) <= 13)%nat ->
  exists k s', dirlink dp name inum s = Ok 0 s' /\ linked s dp x name inum k s' /\
    exists ip s'' y, dirlookup dp name s' = Ok (Some (ip, 16 * k)) s'' /\
      icache s'' !! ip = Some y /\ live ROOTDEV inum y.
Proof.
  intros Hd Hr Hnb Hwb Hi Hby Hlen13.
  destruct (wp_inv (dirlink dp name inum) (fun r s' => r = 0 /\ exists k, linked s dp x name inum k s') s)
    as (r & s' & Heq & -> & k & Hl).
  { apply (dirlink_wp s dp x B); try done. intros k s' Hl. split; [done|]. by exists k. }
  exists k, s'. split; [done|]. split; [done|].
  pose proof (ln_dir _ _ _ _ _ _ _ Hl) as Hd'. set (x' := grown_to (16 * k + 16) x) in *.
  assert (i_addrs x' = i_addrs x) as Ha by apply grown_to_fields.
  destruct (ln_free _ _ _ _ _ _ _ Hl) as (Hk & _).
  assert (k < i_size x' / 16) as Hkx.
  { unfold x'. destruct (grown_to_fields (16 * k + 16) x) as (_ & _ & _ & ->). dlia. }
  assert (is_entry name (entry s' (i_addrs x) k)) as Hent.
  { rewrite (ln_new _ _ _ _ _ _ _ Hl). split; cbn [de_inum de_name]; [lia|]. rewrite dname_entry_name.
    unfold dname. rewrite !take_ge by (unfold DIRSIZ; lia). done. }
  destruct (wp_inv (dirlookup dp name) (fun r s'' => exists ip y, r = Some (ip, 16 * k) /\
      icache s'' !! ip = Some y /\ live ROOTDEV inum y) s') as (r & s'' & Heq2 & ip & y & -> & Hy).
  { apply (dirlookup_wp s' dp x'); [done| |]; rewrite Ha.
    - intros Hno. destruct (Hno k); [lia|done].
    - intros j s2 Hj Hno Hyes Hq2. assert (j = k) as ->.
      { destruct (linked_entries s dp x name inum k s' j Hd Hl Hj) as [|(Hjx & _ & He)]; [done|].
        rewrite He in Hyes. by destruct (Hnb j). }
      rewrite (ln_new _ _ _ _ _ _ _ Hl). cbn [de_inum].
      eapply wp_mono; [apply iget_live_wp; eapply quiet_room; [exact Hq2|exact (linked_room s dp x name inum k s' Hd Hl Hr)]|].
      cbn beta. intros ip s3 (_ & y & Hy & Hlv). by exists ip, y. }
  by exists ip, s'', y.
Qed.

(** C40: an entry holds thirteen characters of a name: [dirlink] of a new name
    of fourteen characters succeeds, and [dirlookup] then does not find it. *)
Theorem dirlink_truncates s dp x B name inum :
  dir_ok s dp x -> none_before s (i_addrs x) name (i_size x / 16) ->
  writable held s dp x B 0 (i_size x + 16) -> 0 < inum < 65536 -> Forall is_byte name ->
  (14 <= length (cstr name))%nat ->
  exists s' s'', dirlink dp name inum s = Ok 0 s' /\ dirlookup dp name s' = Ok None s''.
Proof.
  intros Hd Hnb Hwb Hi Hby Hlen14.
  destruct (wp_inv (dirlink dp name inum) (fun r s' => r = 0 /\ exists k, linked s dp x name inum k s') s)
    as (r & s' & Heq & -> & k & Hl).
  { apply (dirlink_wp s dp x B); try done. intros k s' Hl. split; [done|]. by exists k. }
  pose proof (ln_dir _ _ _ _ _ _ _ Hl) as Hd'. set (x' := grown_to (16 * k + 16) x) in *.
  assert (i_addrs x' = i_addrs x) as Ha by apply grown_to_fields.
  destruct (wp_inv (dirlookup dp name) (fun r s'' => r = None) s') as (r & s'' & Heq2 & ->); [|by exists s', s''].
  apply (dirlookup_wp s' dp x'); [done|done|]. rewrite Ha. intros j s2 Hj _ Hyes Hq2.
  destruct (linked_entries s dp x name inum k s' j Hd Hl Hj) as [->|(Hjx & _ & He)].
  - rewrite (ln_new _ _ _ _ _ _ _ Hl) in Hyes. destruct Hyes as [_ Hn]. cbn [de_name] in Hn.
    rewrite dname_entry_name in Hn. apply (f_equal length) in Hn. unfold dname, DIRSIZ in Hn.
    rewrite !length_take in Hn. lia.
  - rewrite He in Hyes. by destruct (Hnb j).
Qed.
End spec.

(* ------------------------------------------------------------------ *)
(** ** A concrete directory *)

(** Directory 1 in entry 0, with two free entries in block 45. *)
Definition sample_dir : inode := Inode ROOTDEV 1 1 1 T_DIR 0 0 1 32 (45 :: replicate 12 0).
Definition sample_dirfs : fs memdisk := Fs (KMem ∅ 0) sample_bio (<[0%nat := sample_dir]> (replicate NINODE inode0)).
Definition sample_block0 (bn : Z) : Prop := bn = 0.
#[local] Opaque sample_bio.
(** "a" and a name of fourteen characters. *)
Definition short_name : list Z := [97; 0].
Definition long_name : list Z := replicate 14 97.

Lemma sample_dir_lookup i x :
  icache sample_dirfs !! i = Some x -> i = 0%nat /\ x = sample_dir \/ x = inode0.
Proof.
  cbn [icache sample_dirfs]. intros [(<- & <- & _)|[_ Hy]]%list_lookup_insert_Some; [by left|].
  right. by apply lookup_replicate in Hy as [-> _].
Qed.
Lemma sample_room : iget_room sample_dirfs.
Proof.
  split; [split|split].
  - intros i x [[_ ->]| ->]%sample_dir_lookup; cbn; lia.
  - intros i j x y dev inum [[-> ->]| ->]%sample_dir_lookup [[-> ->]| ->]%sample_dir_lookup;
      unfold live; cbn; [done|lia..].
  - intros i x [[_ ->]| ->]%sample_dir_lookup; cbn; lia.
  - exists 1%nat, inode0. split; reflexivity.
Qed.
Lemma sample_dirfs_bio : bio_ok (f_bio sample_dirfs) [] /\ fsb sample_dirfs = sample_sb.
Proof. destruct sample_bio_ok as (Hok & _ & Hs). exact (conj Hok Hs). Qed.
Lemma sample_dir_inode_ok : inode_ok sample_dir.
Proof.
  split; try (unfold is_short, is_uint; cbn; lia); [done|].
  constructor; [unfold is_uint; lia|]. apply Forall_replicate. unfold is_uint. lia.
Qed.
Lemma sample_dir_layout : layout sample_dirfs (i_addrs sample_dir) (i_inum sample_dir) sample_block0.
Proof.
  destruct sample_dirfs_bio as [_ Hs]. split.
  - intros bn ->. split; [lia|split; [split; reflexivity|constructor]].
  - intros bn bn' -> -> _. reflexivity.
  - intros bn bn' _ ->. apply not_elem_of_nil.
  - intros bn ->. rewrite Hs. split; [discriminate|apply not_elem_of_nil].
Qed.
Lemma sample_dir_writable : writable [] sample_dirfs 0 sample_dir sample_block0 0 (32 + 16).
Proof.
  destruct sample_dirfs_bio as [Hok Hs]. split.
  - exact Hok.
  - reflexivity.
  - reflexivity.
  - exact sample_dir_inode_ok.
  - exact sample_dir_layout.
  - rewrite Hs. split; [apply Z.leb_le|apply Z.ltb_lt]; reflexivity.
  - lia.
  - rewrite max_bytes. lia.
  - intros q Hq. unfold sample_block0, BSIZE. dlia.
Qed.
Lemma sample_dir_ok : dir_ok [] sample_dirfs 0 sample_dir.
Proof.
  pose proof sample_dir_writable as Hwb. split; [apply Hwb|reflexivity..| |].
  - split; [split; [discriminate|reflexivity]|reflexivity].
  - change (i_size sample_dir) with 32. intros q Hq.
    apply (ly_map _ _ _ _ sample_dir_layout), (wb_B _ _ _ _ _ _ _ Hwb). lia.
Qed.
Lemma sample_entries j : 0 <= j < 2 -> de_inum (entry sample_dirfs (i_addrs sample_dir) j) = 0.
Proof. intros Hj. assert (j = 0 \/ j = 1) as [-> | ->] by lia; vm_compute; reflexivity. Qed.
Lemma sample_none name : none_before sample_dirfs (i_addrs sample_dir) name (i_size sample_dir / 16).
Proof.
  change (i_size sample_dir / 16) with 2. intros j Hj [Hi _]. exact (Hi (sample_entries j Hj)).
Qed.
#[local] Opaque sample_dirfs.

Lemma dirlookup_first_witness : exists r s', dirlookup 0 short_name sample_dirfs = Ok r s'.
Proof.
  destruct (dirlookup_first [] sample_held sample_dirfs 0 sample_dir short_name sample_dir_ok sample_room)
    as (r & s' & Heq & _).
  exists r, s'. exact Heq.
Defined.

Lemma dirlink_dirlookup_witness :
  exists k s' ip s'', dirlink 0 short_name 7 sample_dirfs = Ok 0 s' /\
    dirlookup 0 short_name s' = Ok (Some (ip, 16 * k)) s''.
Proof.
  destruct (dirlink_dirlookup [] sample_held sample_dirfs 0 sample_dir sample_block0 short_name 7 sample_dir_ok sample_room
    (sample_none _) sample_dir_writable ltac:(lia) ltac:(repeat constructor; unfold is_byte; lia) ltac:(cbn; lia))
    as (k & s' & Heq & _ & ip & s'' & _ & Heq' & _).
  exists k, s', ip, s''. split; [exact Heq|exact Heq'].
Defined.

Lemma dirlink_truncates_witness :
  exists s' s'', dirlink 0 long_name 7 sample_dirfs = Ok 0 s' /\ dirlookup 0 long_name s' = Ok None s''.
Proof.
  exact (dirlink_truncates [] sample_held sample_dirfs 0 sample_dir sample_block0 long_name 7 sample_dir_ok
    (sample_none _) sample_dir_writable ltac:(lia)
    ltac:(apply Forall_replicate; unfold is_byte; lia) ltac:(cbn; lia)).
Defined.
