(* ===== verification/Path.v ===== *)
(** The textual working directory: [append_path_component],
    [pop_path_component] and [normalize_cwd_path] of
    [kernel/syscall/sysproc.c]. *)

From S2P Require Import Prelude Memory Kalloc Vm Str Bio Fs.

(** [dst + k] as the destination of [safestrcpy]. *)
Definition safestrcpy_at (k : nat) (dst t : list Z) (n : Z) : list Z :=
  take k dst ++ safestrcpy (drop k dst) t n.

(** [append_path_component(dst, cap, name)]: the result and the array. *)
Definition append_path_component (dst : list Z) (cap : Z) (name : list Z) : Z * list Z :=
  let len := strlen dst in
  let name_len := strlen name in
  if (name_len =? 0) || ((name_len =? 1) && (chr name =? 46)) then (0, dst)
  else if (len =? 1) && (chr dst =? 47) then
    if cap <=? name_len + 1 then (-1, dst)
    else (0, safestrcpy_at 1 dst name (cap - 1))
  else if cap <=? len + 1 + name_len then (-1, dst)
  else
    let dst := <[Z.to_nat len := 47]> dst in
    let len := len + 1 in
    (0, safestrcpy_at (Z.to_nat len) dst name (cap - len)).

(** The loops of [pop_path_component]: move [len] back while it is over 1 and
    the byte before it satisfies [f]. *)
Fixpoint back_while (f : Z -> bool) (path : list Z) (len : nat) : nat :=
  match len with
  | S (S k as len') =>
      if f (default 0 (path !! S k)) then back_while f path len' else len
  | _ => len
  end.

Definition pop_path_component (path : list Z) : list Z :=
  let len := Z.to_nat (strlen path) in
  if (len <=? 1)%nat then safestrcpy path [47] (Z.of_nat MAXPATH)
  else
    let len := back_while (fun c => c =? 47) path len in
    let len := back_while (fun c => negb (c =? 47)) path len in
    if (len <=? 1)%nat then safestrcpy path [47] (Z.of_nat MAXPATH)
    else <[(len - 1)%nat := 0]> path.

(** One round of the loop over the components of [s]. *)
Definition normalize_step (tmp : list Z) (cap : Z) (s out : list Z)
    : list Z * list Z + Z * list Z :=
  if chr s =? 0 then inr (0, out)
  else
    let s := skip_slashes s in
    if chr s =? 0 then inr (0, out)
    else
      let '(component, s) := span_elem s in
      if (DIRSIZ <? length component)%nat then inr (-1, out)
      else if decide (component = []) then inl (s, out)
      else if decide (component = [46]) then inl (s, out)
      else if decide (component = [46; 46]) then inl (s, pop_path_component out)
      else
        let tmp := safestrcpy tmp out (Z.of_nat MAXPATH) in
        let '(r, tmp) := append_path_component tmp (Z.of_nat MAXPATH) component in
        if r <? 0 then inr (-1, out) else inl (s, safestrcpy out tmp cap).

Fixpoint normalize_loop (fuel : nat) (tmp : list Z) (cap : Z) (s out : list Z)
    : option (Z * list Z) :=
  match fuel with
  | O => None
  | S f =>
      match normalize_step tmp cap s out with
      | inl (s, out) => normalize_loop f tmp cap s out
      | inr r => Some r
      end
  end.

(** [normalize_cwd_path(p, input, out, cap)] reads [p->cwd_path]; [tmp] is its
    local array. The result is the status with the contents of [out]; every
    round of the loop consumes a byte of [input]. *)
Definition normalize_cwd_path (tmp cwd_path input out : list Z) (cap : Z)
    : option (Z * list Z) :=
  if cap <=? 1 then Some (-1, out)
  else
    let out :=
      if chr input =? 47 then safestrcpy out [47] cap
      else safestrcpy out (if negb (chr cwd_path =? 0) then cwd_path else [47]) cap in
    normalize_loop (length input + 2) tmp cap input out.
