(* ===== verification/PathSpec.v ===== *)
(** Paths as lists of components: what [skipelem] of [kernel/fs/fs.c] and the
    working-directory functions of [kernel/syscall/sysproc.c] compute. *)

From S2P Require Import Prelude Memory Kalloc Vm Str Bio Fs Path.

(* ------------------------------------------------------------------ *)
(** ** Components *)

(** The pieces of a string between slashes, and the ones that are not empty. *)
Fixpoint split_slash (s : list Z) : list (list Z) :=
  match s with
  | [] => [[]]
  | c :: s' =>
      if c =? 47 then [] :: split_slash s'
      else match split_slash s' with
           | w :: ws => (c :: w) :: ws
           | [] => [[c]]
           end
  end.
Definition components (path : list Z) : list (list Z) :=
  filter (fun c => c <> []) (split_slash (cstr path)).

(** A name: no slash and no NUL in it. *)
Definition plain (c : list Z) : Prop := Forall (fun x => x <> 47 /\ x <> 0) c.

Lemma plain_nonzero c : plain c -> Forall (fun x => x <> 0) c.
Proof. intros Hp. apply (Forall_impl _ _ _ Hp). by intros x []. Qed.

Lemma split_plain c t : plain c ->
  split_slash (c ++ t) =
    match split_slash t with w :: ws => (c ++ w) :: ws | [] => [c] end.
Proof.
  induction 1 as [|x c [Hx _] _ IH]; cbn [app split_slash].
  - destruct t as [|y t]; cbn; [done|]. destruct (y =? 47); [done|]. by destruct (split_slash t).
  - rewrite (proj2 (Z.eqb_neq x 47)) by done. rewrite IH. by destruct (split_slash t).
Qed.

Lemma skip_slashes_cstr s : cstr (skip_slashes s) = skip_slashes (cstr s).
Proof.
  induction s as [|c s IH]; [done|]. cbn [skip_slashes]. destruct (Z.eqb_spec c 47) as [->|Hc]; [done|].
  cbn [cstr]. destruct (c =? 0); [done|]. cbn [skip_slashes].
  by rewrite (proj2 (Z.eqb_neq c 47)).
Qed.

Lemma components_slash s : components (47 :: s) = components s.
Proof. done. Qed.
Lemma components_skip s : components (skip_slashes s) = components s.
Proof.
  induction s as [|c s IH]; [done|]. cbn [skip_slashes].
  destruct (Z.eqb_spec c 47) as [->|Hc]; [|done]. by rewrite IH, components_slash.
Qed.
Lemma skip_slashes_chr s : chr (skip_slashes s) <> 47.
Proof.
  induction s as [|c s IH]; [done|]. cbn [skip_slashes].
  destruct (Z.eqb_spec c 47) as [->|Hc]; done.
Qed.
Lemma length_skip_slashes s : (length (skip_slashes s) <= length s)%nat.
Proof. induction s as [|c s IH]; [done|]. cbn. destruct (c =? 47); cbn; lia. Qed.

Lemma span_elem_spec s c r : span_elem s = (c, r) ->
  s = c ++ r /\ plain c /\ (chr r = 0 \/ chr r = 47).
Proof.
  revert c r. induction s as [|x s IH]; intros c r; cbn [span_elem].
  - intros [= <- <-]. split; [done|]. split; [constructor|by left].
  - destruct (Z.eqb_spec x 47) as [->|H47]; [intros [= <- <-]; repeat split; [constructor|by right]|].
    destruct (Z.eqb_spec x 0) as [->|H0]; [intros [= <- <-]; repeat split; [constructor|by left]|].
    cbn [orb]. destruct (span_elem s) as [c' r'] eqn:Hs. intros [= <- <-].
    destruct (IH _ _ eq_refl) as (-> & Hp & Hr). repeat split; [|done]. by constructor.
Qed.

Lemma cstr_plain_app c r : plain c -> cstr (c ++ r) = c ++ cstr r.
Proof.
  induction 1 as [|x c [_ Hx] _ IH]; cbn; [done|].
  rewrite (proj2 (Z.eqb_neq x 0)) by done. by rewrite IH.
Qed.

Lemma components_plain c r :
  plain c -> c <> [] -> (chr r = 0 \/ chr r = 47) -> components (c ++ r) = c :: components r.
Proof.
  intros Hp Hne Hr. unfold components. rewrite cstr_plain_app, split_plain by done.
  assert (exists ws, split_slash (cstr r) = [] :: ws) as [ws ->].
  { destruct r as [|x r]; [by exists []|]. cbn in Hr |- *. destruct Hr as [->| ->]; cbn; eauto. }
  rewrite app_nil_r, !filter_cons. rewrite decide_True by done. by rewrite decide_False by auto.
Qed.

(** One element: the first component, and a shorter rest. *)
Lemma components_step s :
  let s1 := skip_slashes s in
  if chr s1 =? 0 then components s = []
  else exists c r, span_elem s1 = (c, r) /\ components s = c :: components r /\
         c <> [] /\ plain c /\ (length r < length s)%nat.
Proof.
  cbn zeta. rewrite <- (components_skip s). pose proof (skip_slashes_chr s) as Hc.
  pose proof (length_skip_slashes s) as Hl. destruct (skip_slashes s) as [|x t] eqn:Hs; [done|].
  cbn [chr hd] in *. destruct (Z.eqb_spec x 0) as [->|H0]; [done|].
  destruct (span_elem (x :: t)) as [c r] eqn:He. exists c, r.
  destruct (span_elem_spec _ _ _ He) as (Heq & Hp & Hr).
  assert (c <> []) as Hne.
  { intros ->. cbn in Heq. subst r. cbn in Hr. lia. }
  split; [done|]. rewrite Heq. split; [by apply components_plain|]. split; [done|]. split; [done|].
  apply (f_equal length) in Heq. rewrite length_app in Heq. destruct c; [done|]. cbn in *. lia.
Qed.

Lemma components_plain_ok path : Forall (fun c => c <> [] /\ plain c) (components path).
Proof.
  remember (length path) as n eqn:Hn. assert (length path <= n)%nat as Hle by lia. clear Hn.
  revert path Hle. induction n as [|n IH]; intros path Hle.
  - destruct path; [constructor|cbn in Hle; lia].
  - pose proof (components_step path) as Hs. cbn zeta in Hs.
    destruct (chr (skip_slashes path) =? 0); [rewrite Hs; constructor|].
    destruct Hs as (c & r & _ & -> & Hne & Hp & Hl). constructor; [done|]. apply IH. lia.
Qed.

(* ------------------------------------------------------------------ *)
(** ** skipelem *)

Lemma name_copied name c :
  length name = DIRSIZ -> plain c ->
  let name' := if (DIRSIZ <=? length c)%nat then blit name 0 (take DIRSIZ c)
               else <[length c := 0]> (blit name 0 c) in
  length name' = DIRSIZ /\ cstr name' = take DIRSIZ c.
Proof.
  intros Hn Hp. cbn zeta. destruct (Nat.leb_spec DIRSIZ (length c)) as [Hl|Hl].
  - assert (length (take DIRSIZ c) = DIRSIZ) as Ht by (rewrite length_take; lia).
    assert (blit name 0 (take DIRSIZ c) = take DIRSIZ c) as ->.
    { unfold blit. rewrite Ht, Nat.add_0_l, drop_ge, app_nil_r by lia. done. }
    split; [done|]. apply cstr_id, plain_nonzero. by apply Forall_take.
  - split; [rewrite length_insert, length_blit by lia; done|].
    assert (<[length c := 0]> (blit name 0 c) = c ++ 0 :: drop (S (length c)) name) as ->.
    { change (blit name 0 c) with (c ++ drop (length c) name). rewrite insert_app_r_alt by lia. rewrite Nat.sub_diag.
      f_equal. destruct (lookup_lt_is_Some_2 name (length c)) as [x Hx]; [lia|].
      by rewrite (drop_S _ _ _ Hx). }
    rewrite cstr_app_zero by (by apply plain_nonzero). by rewrite take_ge by lia.
Qed.

(* ------------------------------------------------------------------ *)
(** ** The working directory's text *)

(** The absolute path of a list of components. *)
Definition render (cs : list (list Z)) : list Z :=
  match cs with [] => [47] | _ => concat (map (cons 47) cs) end.

(** Resolving components one by one: dots are dropped and dot-dots go up;
    [None] is a component longer than a directory entry holds, or a path that
    does not fit in an array of [MAXPATH] bytes. *)
Fixpoint resolve (cs : list (list Z)) (input : list (list Z)) : option (list (list Z)) :=
  match input with
  | [] => Some cs
  | c :: rest =>
      if (DIRSIZ <? length c)%nat then None
      else if decide (c = [46]) then resolve cs rest
      else if decide (c = [46; 46]) then resolve (removelast cs) rest
      else if (MAXPATH <=? length (render (cs ++ [c])))%nat then None
      else resolve (cs ++ [c]) rest
  end.

(** A component as it may stand in a normalised path. *)
Record normal (c : list Z) : Prop := {
  nm_ne : c <> [];
  nm_plain : plain c;
  nm_dot : c <> [46];
}.

Lemma concat_cons_snoc (cs : list (list Z)) c :
  concat (map (cons 47) (cs ++ [c])) = concat (map (cons 47) cs) ++ 47 :: c.
Proof. rewrite map_app, concat_app. cbn. by rewrite app_nil_r. Qed.

Lemma render_snoc cs c :
  render (cs ++ [c]) = (if decide (cs = []) then [] else render cs) ++ 47 :: c.
Proof.
  assert (render (cs ++ [c]) = concat (map (cons 47) (cs ++ [c]))) as -> by (by destruct cs).
  rewrite concat_cons_snoc. by destruct cs.
Qed.

Lemma render_one cs : render cs = [47] -> Forall normal cs -> cs = [].
Proof.
  destruct cs as [|c cs]; [done|]. cbn. intros Heq Hall. inversion_clear Hall as [|? ? [Hne _ _] _].
  destruct c; [done|]. discriminate Heq.
Qed.

Lemma length_render cs : (1 <= length (render cs))%nat.
Proof. destruct cs; cbn; lia. Qed.

Lemma render_chr cs : chr (render cs) = 47.
Proof. by destruct cs. Qed.

Lemma render_length_one cs : Forall normal cs -> length (render cs) = 1%nat -> cs = [].
Proof.
  intros Hall Hl. apply render_one; [|done]. pose proof (render_chr cs) as Hc.
  destruct (render cs) as [|x [|y t]]; try done. cbn in Hc. by rewrite Hc.
Qed.

Lemma chr_cstr a : chr (cstr a) = chr a.
Proof. destruct a as [|x a]; [done|]. cbn. by destruct (Z.eqb_spec x 0) as [->|]. Qed.

Lemma cstr_split a t : cstr a = t -> (length t < length a)%nat ->
  exists r, a = t ++ 0 :: r.
Proof.
  revert t. induction a as [|x a IH]; intros t; cbn [cstr length]; [cbn; lia|].
  destruct (Z.eqb_spec x 0) as [->|Hx].
  - intros <- _. by exists a.
  - intros <- Hl. destruct (IH _ eq_refl) as [r Hr]; [cbn in Hl; lia|]. exists r. cbn. by rewrite <- Hr.
Qed.

Lemma length_safestrcpy_at k dst t n : length (safestrcpy_at k dst t n) = length dst.
Proof.
  unfold safestrcpy_at. rewrite length_app, length_safestrcpy, length_take, length_drop. lia.
Qed.

(** Writing a name over the end of a string. *)
Lemma cstr_safestrcpy_at u r name n :
  Forall (fun c => c <> 0) u -> plain name -> (length name < Z.to_nat n)%nat ->
  n <= Z.of_nat (length r) ->
  cstr (safestrcpy_at (length u) (u ++ r) name n) = u ++ name.
Proof.
  intros Hu Hn Hlt Hle. unfold safestrcpy_at. rewrite take_app_length, drop_app_length.
  induction Hu as [|x u Hx Hu IH]; cbn [app].
  - rewrite cstr_safestrcpy by lia. rewrite cstr_id by (by apply plain_nonzero).
    by rewrite take_ge by lia.
  - cbn [cstr]. rewrite (proj2 (Z.eqb_neq x 0)) by done. by rewrite IH.
Qed.

(** The array [a] of [MAXPATH] bytes holds the path of [cs]. *)
Record holds (a : list Z) (cs : list (list Z)) : Prop := {
  h_len : length a = MAXPATH;
  h_str : cstr a = render cs;
  h_norm : Forall normal cs;
  h_fits : (length (render cs) < MAXPATH)%nat;
}.

Lemma holds_strlen a cs : holds a cs -> strlen a = Z.of_nat (length (render cs)).
Proof. intros [_ Hs _ _]. by rewrite strlen_cstr, Hs. Qed.
Lemma holds_chr a cs : holds a cs -> chr a = 47.
Proof. intros [_ Hs _ _]. by rewrite <- chr_cstr, Hs, render_chr. Qed.

Lemma normal_strlen c : normal c -> strlen c = Z.of_nat (length c).
Proof. intros [_ Hp _]. by rewrite strlen_cstr, cstr_id by (by apply plain_nonzero). Qed.

Lemma append_holds a cs c :
  holds a cs -> normal c ->
  if (MAXPATH <=? length (render (cs ++ [c])))%nat
  then append_path_component a (Z.of_nat MAXPATH) c = (-1, a)
  else exists a', append_path_component a (Z.of_nat MAXPATH) c = (0, a') /\ holds a' (cs ++ [c]).
Proof.
  intros Ha Hc. pose proof (holds_strlen _ _ Ha) as Hl. pose proof (holds_chr _ _ Ha) as Hch.
  pose proof (normal_strlen _ Hc) as Hcl. destruct Ha as [Hal Has Han Haf]. destruct (Hc) as [Hne Hp Hd].
  assert (Forall normal (cs ++ [c])) as Hn' by (apply Forall_app; auto).
  unfold append_path_component. rewrite Hl, Hcl, Hch.
  assert ((Z.of_nat (length c) =? 0) || (Z.of_nat (length c) =? 1) && (chr c =? 46) = false) as ->.
  { destruct c as [|x [|y c]]; [done| |].
    - cbn. by destruct (Z.eqb_spec x 46) as [->|].
    - cbn [length]. rewrite (proj2 (Z.eqb_neq _ 0)), (proj2 (Z.eqb_neq _ 1)) by lia. done. }
  rewrite render_snoc. destruct (decide (cs = [])) as [->|Hcs].
  - change (length (render [])) with 1%nat. cbn [Z.of_nat andb Z.eqb app length].
    change (Pos.of_succ_nat 0 =? 1)%positive with true. cbn [andb]. change (47 =? 47) with true. cbn [andb].
    destruct (Nat.leb_spec MAXPATH (S (length c))) as [Hle|Hle].
    + rewrite (proj2 (Z.leb_le _ _)) by lia. done.
    + rewrite (proj2 (Z.leb_gt _ _)) by lia. eexists. split; [done|].
      destruct (cstr_split a [47] Has) as [r ->]; [rewrite Hal; cbn; unfold MAXPATH; lia|]. split.
      * by rewrite length_safestrcpy_at.
      * rewrite length_app in Hal. cbn in Hal.
        replace (render [c]) with ([47] ++ c) by (cbn; by rewrite app_nil_r).
        apply (cstr_safestrcpy_at [47] (0 :: r) c); [by constructor|done|lia|cbn [length]; lia].
      * done.
      * cbn. rewrite app_nil_r. lia.
  - assert (length (render cs) <> 1)%nat as H1 by (intros E; by apply render_length_one in E).
    rewrite (proj2 (Z.eqb_neq _ 1)) by lia. cbn [andb]. rewrite length_app. cbn [length].
    destruct (Nat.leb_spec MAXPATH (length (render cs) + S (length c))) as [Hle|Hle].
    + rewrite (proj2 (Z.leb_le _ _)) by lia. done.
    + rewrite (proj2 (Z.leb_gt _ _)) by lia. eexists. split; [done|].
      destruct (cstr_split a _ Has) as [r ->]; [lia|].
      rewrite Nat2Z.id. rewrite insert_app_r_alt, Nat.sub_diag by lia. cbn [list_insert].
      replace (Z.to_nat (Z.of_nat (length (render cs)) + 1)) with (length (render cs ++ [47]))
        by (rewrite length_app; cbn; lia).
      rewrite length_app in Hal. cbn in Hal.
      replace (render cs ++ <[0%nat:=47]> (0 :: r)) with ((render cs ++ [47]) ++ r) by (by rewrite <- app_assoc).
      split.
      * rewrite length_safestrcpy_at, !length_app. cbn. lia.
      * rewrite render_snoc, decide_False by done.
        rewrite cstr_safestrcpy_at; [by rewrite <- app_assoc| |done|lia|lia].
        apply Forall_app. split; [|by constructor]. rewrite <- Has. apply cstr_nonzero.
      * done.
      * rewrite render_snoc, decide_False by done. rewrite length_app. cbn. lia.
Qed.

Lemma back_while_to f path k len :
  (1 <= k <= len)%nat ->
  (forall i, (k <= i < len)%nat -> f (default 0 (path !! i)) = true) ->
  (k = 1%nat \/ f (default 0 (path !! (k - 1)%nat)) = false) ->
  back_while f path len = k.
Proof.
  intros Hk Hall Hstop. induction len as [|len IH]; [lia|].
  destruct (decide (k = S len)) as [->|Hne].
  - destruct len as [|n]; [done|]. cbn [back_while]. replace (S (S n) - 1)%nat with (S n) in Hstop by lia.
    destruct Hstop as [?| ->]; [lia|done].
  - destruct len as [|n]; [lia|]. cbn [back_while]. rewrite (Hall (S n)) by lia.
    apply IH; [lia|]. intros i Hi. apply Hall. lia.
Qed.

Lemma root_holds a n :
  length a = MAXPATH -> n = Z.of_nat MAXPATH -> holds (safestrcpy a [47] n) [].
Proof.
  intros Ha ->. split; [by rewrite length_safestrcpy| |constructor|cbn; unfold MAXPATH; lia].
  rewrite cstr_safestrcpy by (unfold MAXPATH in *; lia). done.
Qed.

Lemma pop_holds a cs : holds a cs -> holds (pop_path_component a) (removelast cs).
Proof.
  intros Ha. pose proof (holds_strlen _ _ Ha) as Hl. destruct Ha as [Hal Has Han Haf].
  unfold pop_path_component. rewrite Hl, Nat2Z.id.
  destruct cs as [|c cs _] using rev_ind; [by apply root_holds|].
  rewrite removelast_last. apply Forall_app in Han as [Hn Hc]. inversion_clear Hc as [|? ? [Hne Hp _] _].
  rewrite render_snoc in *. set (pre := if decide (cs = []) then [] else render cs) in *.
  rewrite length_app in *. cbn [length] in *.
  assert (0 < length c)%nat as Hc0 by (destruct c; [done|cbn; lia]).
  rewrite (proj2 (Nat.leb_gt _ _)) by lia.
  destruct (cstr_split a _ Has) as [r ->]; [rewrite length_app; cbn; lia|].
  assert (forall i, (i < length c)%nat -> exists x,
    (((pre ++ 47 :: c) ++ 0 :: r) !! (length pre + 1 + i)%nat = Some x) /\ x <> 47) as Hat.
  { intros i Hi. destruct (lookup_lt_is_Some_2 c i Hi) as [x Hx]. exists x.
    split; [|by apply (Forall_lookup_1 _ _ _ _ Hp Hx)].
    rewrite <- app_assoc, lookup_app_r by lia. replace (length pre + 1 + i - length pre)%nat with (S i) by lia.
    cbn. by apply lookup_app_l_Some. }
  assert (((pre ++ 47 :: c) ++ 0 :: r) !! length pre = Some 47) as Hslash.
  { rewrite <- app_assoc. by apply (list_lookup_middle pre (c ++ 0 :: r)). }
  rewrite (back_while_to _ _ (length pre + S (length c)) (length pre + S (length c))).
  2: lia.
  2: intros; lia.
  2: { right. destruct (Hat (length c - 1)%nat) as (x & Hx & H47); [lia|].
       replace (length pre + 1 + (length c - 1))%nat with (length pre + S (length c) - 1)%nat in Hx by lia.
       rewrite Hx. by apply Z.eqb_neq. }
  rewrite (back_while_to _ _ (length pre + 1)).
  2: lia.
  2: { intros i Hi. destruct (Hat (i - length pre - 1)%nat) as (x & Hx & H47); [lia|].
       replace (length pre + 1 + (i - length pre - 1))%nat with i in Hx by lia.
       rewrite Hx. cbn. by apply negb_true_iff, Z.eqb_neq. }
  2: { right. replace (length pre + 1 - 1)%nat with (length pre) by lia. by rewrite Hslash. }
  rewrite length_app in Hal. cbn in Hal.
  destruct (decide (cs = [])) as [->|Hcs].
  - change (length pre) with 0%nat. apply root_holds; [|done]. rewrite length_app. cbn [length]. lia.
  - pose proof (length_render cs) as H1. unfold pre in *. clear pre.
    rewrite (proj2 (Nat.leb_gt _ _)) by lia. replace (length (render cs) + 1 - 1)%nat with (length (render cs)) by lia.
    split.
    + rewrite length_insert, length_app. cbn. lia.
    + rewrite <- app_assoc, insert_app_r_alt, Nat.sub_diag by lia. cbn.
      apply cstr_app_zero. assert (Forall (fun x => x <> 0) ((render cs ++ 47 :: c))) as Hz
        by (rewrite <- Has; apply cstr_nonzero). by apply Forall_app in Hz as [? _].
    + done.
    + lia.
Qed.

Lemma copy_holds a b cs : length a = MAXPATH -> holds b cs -> holds (safestrcpy a b (Z.of_nat MAXPATH)) cs.
Proof.
  intros Ha [Hl Hs Hn Hf]. split; [by rewrite length_safestrcpy| |done|done].
  rewrite cstr_safestrcpy, Hs by (unfold MAXPATH in *; lia). rewrite take_ge; [done|].
  unfold MAXPATH in *. lia.
Qed.

(** One round of the loop resolves one component. *)
Lemma normalize_step_holds tmp s out cs c r :
  length tmp = MAXPATH -> holds out cs -> chr (skip_slashes s) <> 0 ->
  span_elem (skip_slashes s) = (c, r) -> c <> [] -> plain c ->
  let step := normalize_step tmp (Z.of_nat MAXPATH) s out in
  if (DIRSIZ <? length c)%nat then step = inr (-1, out)
  else if decide (c = [46]) then step = inl (r, out)
  else if decide (c = [46; 46]) then exists out', step = inl (r, out') /\ holds out' (removelast cs)
  else if (MAXPATH <=? length (render (cs ++ [c])))%nat then step = inr (-1, out)
  else exists out', step = inl (r, out') /\ holds out' (cs ++ [c]).
Proof.
  intros Ht Ho Hc Hsp Hne Hp. cbn zeta. unfold normalize_step. rewrite Hsp.
  assert ((chr s =? 0) = false) as ->.
  { apply Z.eqb_neq. destruct s as [|x s]; [done|]. cbn in *. destruct (Z.eqb_spec x 47); [lia|done]. }
  rewrite (proj2 (Z.eqb_neq _ 0)) by done.
  destruct (DIRSIZ <? length c)%nat; [done|]. rewrite (decide_False (P := c = [])) by done.
  case_decide; [done|]. case_decide as Hdd; [eexists; split; [done|]; by apply pop_holds|].
  pose proof (append_holds _ _ c (copy_holds tmp out cs Ht Ho) ltac:(by split)) as Ha.
  destruct (MAXPATH <=? _)%nat; [by rewrite Ha|]. destruct Ha as (a' & -> & Ha').
  eexists. split; [done|]. apply copy_holds; [apply h_len with cs|]; done.
Qed.

Lemma normalize_loop_holds fuel tmp s out cs :
  (length s < fuel)%nat -> length tmp = MAXPATH -> holds out cs ->
  exists r out', normalize_loop fuel tmp (Z.of_nat MAXPATH) s out = Some (r, out') /\
    match resolve cs (components s) with
    | Some cs' => r = 0 /\ holds out' cs'
    | None => r = -1
    end.
Proof.
  revert s out cs. induction fuel as [|fuel IH]; intros s out cs Hf Ht Ho; [lia|]. cbn [normalize_loop].
  pose proof (components_step s) as Hs. cbn zeta in Hs.
  destruct (Z.eqb_spec (chr (skip_slashes s)) 0) as [Hz|Hnz].
  - rewrite Hs. cbn [resolve]. unfold normalize_step. rewrite (proj2 (Z.eqb_eq _ 0) Hz).
    destruct (chr s =? 0); exists 0, out; done.
  - destruct Hs as (c & r & Hsp & -> & Hne & Hp & Hl). cbn [resolve].
    pose proof (normalize_step_holds tmp s out cs c r Ht Ho Hnz Hsp Hne Hp) as Hstep. cbn zeta in Hstep.
    destruct (DIRSIZ <? length c)%nat; [rewrite Hstep; by exists (-1), out|].
    case_decide; [rewrite Hstep; apply IH; [lia|done..]|].
    case_decide; [destruct Hstep as (out' & -> & Ho'); apply IH; [lia|done..]|].
    destruct (MAXPATH <=? _)%nat; [rewrite Hstep; by exists (-1), out|].
    destruct Hstep as (out' & -> & Ho'). apply IH; [lia|done..].
Qed.

(* ------------------------------------------------------------------ *)
(** ** Properties *)

(** [skipelem] splits off the first component of a path, whatever slashes
    surround it: the array then holds its first fourteen bytes, the rest of the
    path has the other components, and NULL is returned when there is none. *)
Theorem skipelem_components path name :
  length name = DIRSIZ ->
  match components path with
  | [] => skipelem path name = None
  | c :: cs =>
      exists rest name', skipelem path name = Some (rest, name') /\
        components rest = cs /\ length name' = DIRSIZ /\ cstr name' = take DIRSIZ c /\
        (length rest < length path)%nat
  end.
Proof.
  intros Hn. pose proof (components_step path) as Hs. cbn zeta in Hs. unfold skipelem.
  destruct (chr (skip_slashes path) =? 0); [by rewrite Hs|].
  destruct Hs as (c & r & -> & -> & Hne & Hp & Hl).
  destruct (name_copied name c Hn Hp) as [Hl' Hc'].
  eexists _, _. split; [done|]. split; [apply components_skip|]. split; [exact Hl'|]. split; [exact Hc'|].
  pose proof (length_skip_slashes r). lia.
Qed.

(** C38: [normalize_cwd_path] always ends; from a well-formed working directory
    it leaves in [out] the NUL-terminated absolute path of the components of the
    input resolved one by one ([.] dropped, [..] going up, not above the root),
    and it returns -1 exactly when a component is longer than fourteen bytes or a
    path on the way does not fit. *)
Theorem normalize_cwd_path_resolves tmp cwd_path input out cs :
  length tmp = MAXPATH -> length out = MAXPATH -> holds cwd_path cs ->
  exists r out', normalize_cwd_path tmp cwd_path input out (Z.of_nat MAXPATH) = Some (r, out') /\
    match resolve (if chr input =? 47 then [] else cs) (components input) with
    | Some cs' => r = 0 /\ holds out' cs'
    | None => r = -1
    end.
Proof.
  intros Ht Ho Hc. unfold normalize_cwd_path.
  rewrite (proj2 (Z.leb_gt (Z.of_nat MAXPATH) 1)) by (unfold MAXPATH; lia).
  apply normalize_loop_holds; [lia|done|]. destruct (chr input =? 47); [by apply root_holds|].
  rewrite (holds_chr _ _ Hc). by apply copy_holds.
Qed.

(** ["//ab/c"] and the working directory ["/"]. *)
Definition sample_path : list Z := [47; 47; 97; 98; 47; 99; 0].
Lemma skipelem_components_witness :
  exists rest name', skipelem sample_path (replicate 14 0) = Some (rest, name') /\
    components rest = [[99]] /\ cstr name' = [97; 98].
Proof.
  destruct (skipelem_components sample_path (replicate 14 0) eq_refl)
    as (rest & name' & Hr & Hc & _ & Hn & _).
  exists rest, name'. split; [exact Hr|]. split; [exact Hc|exact Hn].
Defined.
Lemma normalize_cwd_path_resolves_witness :
  exists out', normalize_cwd_path (replicate MAXPATH 0) (safestrcpy (replicate MAXPATH 0) [47] 128)
      [97; 47; 46; 46; 47; 98] (replicate MAXPATH 0) 128 = Some (0, out') /\ cstr out' = [47; 98].
Proof.
  destruct (normalize_cwd_path_resolves (replicate MAXPATH 0) (safestrcpy (replicate MAXPATH 0) [47] 128)
    [97; 47; 46; 46; 47; 98] (replicate MAXPATH 0) [] eq_refl eq_refl) as (r & out' & Hr & -> & Ho).
  - apply root_holds; reflexivity.
  - exists out'. split; [exact Hr|exact (h_str _ _ Ho)].
Defined.
