(* ===== verification/Kernel.v ===== *)
(** The kernel's global state: the process table and the CPU of
    [kernel/include/proc.h], the file table of [kernel/fs/file.c], the console
    of [kernel/driver/console.c], over the file system's state. *)

From S2P Require Import Prelude Memory Kalloc Vm Str Bio Fs.

(* ------------------------------------------------------------------ *)
(** ** Data *)

(** [enum task_status] *)
Inductive task_status :=
| TASK_FREE | TASK_ALLOCATED | TASK_READY | TASK_RUNNING | TASK_SLEEPING | TASK_ZOMBIE.
#[global] Instance task_status_eq_dec : EqDecision task_status.
Proof. solve_decision. Defined.

(** [struct spinlock]; [lk_name] and [lk_cpu] are addresses. *)
Record spinlock := Spinlock { lk_locked : Z; lk_name : Z; lk_cpu : Z }.

(** What a process that is not running will do when it is switched to, the
    content of its kernel stack: enter user mode for the first time
    ([forkret]), return from the [yield] of a timer interrupt, or go on inside
    the system call that put it to sleep, with that call's local variables, or
    inside the disk driver ([KDiskFree] for descriptors, [KDiskWait] for the end
    of a request). *)
Inductive kont :=
| KNone
| KForkret
| KYield
| KConsRead (f : nat) (i n : Z) (user_addr : Z)
| KPipeRead (pi addr n : Z)
| KWrite (f : nat) (user_addr total left : Z) (buf : list Z) (i : Z)
| KWait (addr : Z)
| KDiskFree (b : nat) (write : bool)
| KDiskWait (b : nat) (i0 : Z).

(** [struct proc]; the saved context is its [ra] and [sp] and [p_kont]. *)
Record proc := Proc {
  p_lock : spinlock; p_status : task_status; p_pid : Z; p_pagetable : Z; p_trapframe : Z;
  p_ra : Z; p_sp : Z; p_kont : kont; p_kstack : Z; p_sz : Z; p_name : Z;
  p_parent : option nat; p_xstate : Z; p_chan : Z; p_killed : Z;
  p_ofile : list (option nat); p_cwd : option nat; p_cwd_path : list Z;
}.
Definition proc_set_lock (v : spinlock) (x : proc) : proc :=
  Proc v (p_status x) (p_pid x) (p_pagetable x) (p_trapframe x) (p_ra x) (p_sp x)
    (p_kont x) (p_kstack x) (p_sz x) (p_name x) (p_parent x) (p_xstate x) (p_chan x)
    (p_killed x) (p_ofile x) (p_cwd x) (p_cwd_path x).
Definition proc_set_status (v : task_status) (x : proc) : proc :=
  Proc (p_lock x) v (p_pid x) (p_pagetable x) (p_trapframe x) (p_ra x) (p_sp x)
    (p_kont x) (p_kstack x) (p_sz x) (p_name x) (p_parent x) (p_xstate x) (p_chan x)
    (p_killed x) (p_ofile x) (p_cwd x) (p_cwd_path x).
Definition proc_set_pid (v : Z) (x : proc) : proc :=
  Proc (p_lock x) (p_status x) v (p_pagetable x) (p_trapframe x) (p_ra x) (p_sp x)
    (p_kont x) (p_kstack x) (p_sz x) (p_name x) (p_parent x) (p_xstate x) (p_chan x)
    (p_killed x) (p_ofile x) (p_cwd x) (p_cwd_path x).
Definition proc_set_pagetable (v : Z) (x : proc) : proc :=
  Proc (p_lock x) (p_status x) (p_pid x) v (p_trapframe x) (p_ra x) (p_sp x) (p_kont x)
    (p_kstack x) (p_sz x) (p_name x) (p_parent x) (p_xstate x) (p_chan x) (p_killed x)
    (p_ofile x) (p_cwd x) (p_cwd_path x).
Definition proc_set_trapframe (v : Z) (x : proc) : proc :=
  Proc (p_lock x) (p_status x) (p_pid x) (p_pagetable x) v (p_ra x) (p_sp x) (p_kont x)
    (p_kstack x) (p_sz x) (p_name x) (p_parent x) (p_xstate x) (p_chan x) (p_killed x)
    (p_ofile x) (p_cwd x) (p_cwd_path x).
Definition proc_set_ra (v : Z) (x : proc) : proc :=
  Proc (p_lock x) (p_status x) (p_pid x) (p_pagetable x) (p_trapframe x) v (p_sp x)
    (p_kont x) (p_kstack x) (p_sz x) (p_name x) (p_parent x) (p_xstate x) (p_chan x)
    (p_killed x) (p_ofile x) (p_cwd x) (p_cwd_path x).
Definition proc_set_sp (v : Z) (x : proc) : proc :=
  Proc (p_lock x) (p_status x) (p_pid x) (p_pagetable x) (p_trapframe x) (p_ra x) v
    (p_kont x) (p_kstack x) (p_sz x) (p_name x) (p_parent x) (p_xstate x) (p_chan x)
    (p_killed x) (p_ofile x) (p_cwd x) (p_cwd_path x).
Definition proc_set_kont (v : kont) (x : proc) : proc :=
  Proc (p_lock x) (p_status x) (p_pid x) (p_pagetable x) (p_trapframe x) (p_ra x)
    (p_sp x) v (p_kstack x) (p_sz x) (p_name x) (p_parent x) (p_xstate x) (p_chan x)
    (p_killed x) (p_ofile x) (p_cwd x) (p_cwd_path x).
Definition proc_set_kstack (v : Z) (x : proc) : proc :=
  Proc (p_lock x) (p_status x) (p_pid x) (p_pagetable x) (p_trapframe x) (p_ra x)
    (p_sp x) (p_kont x) v (p_sz x) (p_name x) (p_parent x) (p_xstate x) (p_chan x)
    (p_killed x) (p_ofile x) (p_cwd x) (p_cwd_path x).
Definition proc_set_sz (v : Z) (x : proc) : proc :=
  Proc (p_lock x) (p_status x) (p_pid x) (p_pagetable x) (p_trapframe x) (p_ra x)
    (p_sp x) (p_kont x) (p_kstack x) v (p_name x) (p_parent x) (p_xstate x) (p_chan x)
    (p_killed x) (p_ofile x) (p_cwd x) (p_cwd_path x).
Definition proc_set_name (v : Z) (x : proc) : proc :=
  Proc (p_lock x) (p_status x) (p_pid x) (p_pagetable x) (p_trapframe x) (p_ra x)
    (p_sp x) (p_kont x) (p_kstack x) (p_sz x) v (p_parent x) (p_xstate x) (p_chan x)
    (p_killed x) (p_ofile x) (p_cwd x) (p_cwd_path x).
Definition proc_set_parent (v : option nat) (x : proc) : proc :=
  Proc (p_lock x) (p_status x) (p_pid x) (p_pagetable x) (p_trapframe x) (p_ra x)
    (p_sp x) (p_kont x) (p_kstack x) (p_sz x) (p_name x) v (p_xstate x) (p_chan x)
    (p_killed x) (p_ofile x) (p_cwd x) (p_cwd_path x).
Definition proc_set_xstate (v : Z) (x : proc) : proc :=
  Proc (p_lock x) (p_status x) (p_pid x) (p_pagetable x) (p_trapframe x) (p_ra x)
    (p_sp x) (p_kont x) (p_kstack x) (p_sz x) (p_name x) (p_parent x) v (p_chan x)
    (p_killed x) (p_ofile x) (p_cwd x) (p_cwd_path x).
Definition proc_set_chan (v : Z) (x : proc) : proc :=
  Proc (p_lock x) (p_status x) (p_pid x) (p_pagetable x) (p_trapframe x) (p_ra x)
    (p_sp x) (p_kont x) (p_kstack x) (p_sz x) (p_name x) (p_parent x) (p_xstate x) v
    (p_killed x) (p_ofile x) (p_cwd x) (p_cwd_path x).
Definition proc_set_killed (v : Z) (x : proc) : proc :=
  Proc (p_lock x) (p_status x) (p_pid x) (p_pagetable x) (p_trapframe x) (p_ra x)
    (p_sp x) (p_kont x) (p_kstack x) (p_sz x) (p_name x) (p_parent x) (p_xstate x)
    (p_chan x) v (p_ofile x) (p_cwd x) (p_cwd_path x).
Definition proc_set_ofile (v : list (option nat)) (x : proc) : proc :=
  Proc (p_lock x) (p_status x) (p_pid x) (p_pagetable x) (p_trapframe x) (p_ra x)
    (p_sp x) (p_kont x) (p_kstack x) (p_sz x) (p_name x) (p_parent x) (p_xstate x)
    (p_chan x) (p_killed x) v (p_cwd x) (p_cwd_path x).
Definition proc_set_cwd (v : option nat) (x : proc) : proc :=
  Proc (p_lock x) (p_status x) (p_pid x) (p_pagetable x) (p_trapframe x) (p_ra x)
    (p_sp x) (p_kont x) (p_kstack x) (p_sz x) (p_name x) (p_parent x) (p_xstate x)
    (p_chan x) (p_killed x) (p_ofile x) v (p_cwd_path x).
Definition proc_set_cwd_path (v : list Z) (x : proc) : proc :=
  Proc (p_lock x) (p_status x) (p_pid x) (p_pagetable x) (p_trapframe x) (p_ra x)
    (p_sp x) (p_kont x) (p_kstack x) (p_sz x) (p_name x) (p_parent x) (p_xstate x)
    (p_chan x) (p_killed x) (p_ofile x) (p_cwd x) v.

(** [struct file]; a file pointer is an index of [ftable.file]. *)
Definition FD_NONE : Z := 0.
Definition FD_PIPE : Z := 1.
Definition FD_INODE : Z := 2.
Definition FD_DEVICE : Z := 3.
Definition FD_CONSOLE : Z := 4.
Record file := File {
  f_type : Z; f_ref : Z; f_readable : Z; f_writable : Z; f_pipe : Z; f_ip : option nat; f_off : Z;
}.
Definition file_set_type (v : Z) (x : file) : file :=
  File v (f_ref x) (f_readable x) (f_writable x) (f_pipe x) (f_ip x) (f_off x).
Definition file_set_ref (v : Z) (x : file) : file :=
  File (f_type x) v (f_readable x) (f_writable x) (f_pipe x) (f_ip x) (f_off x).
Definition file_set_readable (v : Z) (x : file) : file :=
  File (f_type x) (f_ref x) v (f_writable x) (f_pipe x) (f_ip x) (f_off x).
Definition file_set_writable (v : Z) (x : file) : file :=
  File (f_type x) (f_ref x) (f_readable x) v (f_pipe x) (f_ip x) (f_off x).
Definition file_set_pipe (v : Z) (x : file) : file :=
  File (f_type x) (f_ref x) (f_readable x) (f_writable x) v (f_ip x) (f_off x).
Definition file_set_ip (v : option nat) (x : file) : file :=
  File (f_type x) (f_ref x) (f_readable x) (f_writable x) (f_pipe x) v (f_off x).
Definition file_set_off (v : Z) (x : file) : file :=
  File (f_type x) (f_ref x) (f_readable x) (f_writable x) (f_pipe x) (f_ip x) v.

(** [struct cpu], the interrupt-enable bit of [sstatus], and the process table
    pointer [cpu->proc] as an index. *)
Record cpu := Cpu { c_proc : option nat; c_noff : Z; c_intena : Z; c_sie : bool }.
Definition cpu_set_proc (v : option nat) (x : cpu) : cpu :=
  Cpu v (c_noff x) (c_intena x) (c_sie x).
Definition cpu_set_noff (v : Z) (x : cpu) : cpu :=
  Cpu (c_proc x) v (c_intena x) (c_sie x).
Definition cpu_set_intena (v : Z) (x : cpu) : cpu :=
  Cpu (c_proc x) (c_noff x) v (c_sie x).
Definition cpu_set_sie (v : bool) (x : cpu) : cpu :=
  Cpu (c_proc x) (c_noff x) (c_intena x) v.

(** The console: the ring buffer [cons_buffer] with its two indices, and the
    bytes given to the UART so far. *)
Record console := Console {
  cons_buffer : list Z; cons_head : Z; cons_tail : Z; uart_out : list Z;
}.
Definition console_set_buffer (v : list Z) (x : console) : console :=
  Console v (cons_head x) (cons_tail x) (uart_out x).
Definition console_set_head (v : Z) (x : console) : console :=
  Console (cons_buffer x) v (cons_tail x) (uart_out x).
Definition console_set_tail (v : Z) (x : console) : console :=
  Console (cons_buffer x) (cons_head x) v (uart_out x).
Definition console_set_out (v : list Z) (x : console) : console :=
  Console (cons_buffer x) (cons_head x) (cons_tail x) v.

Record kernel (D : Type) := Kernel {
  k_fs : fs D; k_ftable : list file; k_procs : list proc; k_cpu : cpu;
  k_nextpid : Z; k_cons : console; k_pagetable : Z;
}.
Arguments Kernel {D}.
Arguments k_fs {D}.
Arguments k_ftable {D}.
Arguments k_procs {D}.
Arguments k_cpu {D}.
Arguments k_nextpid {D}.
Arguments k_cons {D}.
Arguments k_pagetable {D}.

(** The words of [struct trapframe] the kernel's C code names. *)
Definition TF_kernel_satp : Z := 0.
Definition TF_kernel_sp : Z := 1.
Definition TF_kernel_trap : Z := 2.
Definition TF_epc : Z := 3.
Definition TF_ra : Z := 5.
Definition TF_sp : Z := 6.
Definition TF_a0 : Z := 14.
Definition TF_a1 : Z := 15.
Definition TF_a2 : Z := 16.
Definition TF_a7 : Z := 21.
(** [sizeof(struct trapframe)]: 36 words, 32 floating-point registers, [fcsr]. *)
Definition TF_size : Z := 69 * 8.

Section kernel.
Context `{Image} {D : Type} `{BlockDev D}.

Definition kernel_set_fs (v : fs D) (x : kernel D) : kernel D :=
  Kernel v (k_ftable x) (k_procs x) (k_cpu x) (k_nextpid x) (k_cons x) (k_pagetable x).
Definition kernel_set_ftable (v : list file) (x : kernel D) : kernel D :=
  Kernel (k_fs x) v (k_procs x) (k_cpu x) (k_nextpid x) (k_cons x) (k_pagetable x).
Definition kernel_set_procs (v : list proc) (x : kernel D) : kernel D :=
  Kernel (k_fs x) (k_ftable x) v (k_cpu x) (k_nextpid x) (k_cons x) (k_pagetable x).
Definition kernel_set_cpu (v : cpu) (x : kernel D) : kernel D :=
  Kernel (k_fs x) (k_ftable x) (k_procs x) v (k_nextpid x) (k_cons x) (k_pagetable x).
Definition kernel_set_nextpid (v : Z) (x : kernel D) : kernel D :=
  Kernel (k_fs x) (k_ftable x) (k_procs x) (k_cpu x) v (k_cons x) (k_pagetable x).
Definition kernel_set_cons (v : console) (x : kernel D) : kernel D :=
  Kernel (k_fs x) (k_ftable x) (k_procs x) (k_cpu x) (k_nextpid x) v (k_pagetable x).
Definition kernel_set_pagetable (v : Z) (x : kernel D) : kernel D :=
  Kernel (k_fs x) (k_ftable x) (k_procs x) (k_cpu x) (k_nextpid x) (k_cons x) v.

(* ------------------------------------------------------------------ *)
(** ** Access *)

(** [proc[i]] as a pointer, and the address of an optional process. *)
Definition proc_ptr (i : nat) : Z := proc_base + 480 * Z.of_nat i.
Definition proc_ptr_opt (p : option nat) : Z :=
  match p with Some i => proc_ptr i | None => 0 end.

Definition getp (i : nat) : M (kernel D) proc :=
  fun s => match k_procs s !! i with Some x => Ok x s | None => Stop (Fault "proc") end.
Definition setp (i : nat) (f : proc -> proc) : M (kernel D) unit :=
  fun s => match k_procs s !! i with
           | Some x => Ok tt (kernel_set_procs (<[i := f x]> (k_procs s)) s)
           | None => Stop (Fault "proc")
           end.
Definition getf (i : nat) : M (kernel D) file :=
  fun s => match k_ftable s !! i with Some x => Ok x s | None => Stop (Fault "file") end.
Definition setf (i : nat) (f : file -> file) : M (kernel D) unit :=
  fun s => match k_ftable s !! i with
           | Some x => Ok tt (kernel_set_ftable (<[i := f x]> (k_ftable s)) s)
           | None => Stop (Fault "file")
           end.
Definition getcpu : M (kernel D) cpu := gets k_cpu.
Definition setcpu (f : cpu -> cpu) : M (kernel D) unit :=
  modify (fun s => kernel_set_cpu (f (k_cpu s)) s).
Definition getcons : M (kernel D) console := gets k_cons.
Definition setcons (f : console -> console) : M (kernel D) unit :=
  modify (fun s => kernel_set_cons (f (k_cons s)) s).

(** [myproc()] dereferenced: a fault when no process runs. *)
Definition myproc : M (kernel D) nat :=
  fun s => match c_proc (k_cpu s) with
           | Some p => Ok p s
           | None => Stop (Fault "myproc")
           end.

(** Memory and page tables. *)
Definition lmem {A} (m : M kmem A) : M (kernel D) A :=
  zoom (fun s => f_km (k_fs s))
    (fun k s => kernel_set_fs (Fs k (f_bio (k_fs s)) (icache (k_fs s))) s) m.

(** A file-system operation called from kernel code. When it used the disk with
    a process running, [virtio_disk_rw] slept on the buffer: [sleep] needs that
    no lock was held ([sched]'s check), and leaves the process [RUNNING] with
    [chan] cleared when it returns. That this is what the driver's sleep comes to
    when no other process runs meanwhile is
    [VirtioSpec.virtio_disk_rw_for_process]; that others can run is not in the
    model of the file system. *)
Definition after_io (s0 s1 : kernel D) : M (kernel D) unit :=
  match c_proc (k_cpu s0) with
  | Some p =>
      if bio_count (f_bio (k_fs s0)) =? bio_count (f_bio (k_fs s1)) then ret tt
      else if negb (c_noff (k_cpu s0) =? 0) then panic "sched locks"
      else setp p (fun x => proc_set_chan 0 (proc_set_status TASK_RUNNING x))
  | None => ret tt
  end.
Definition lfs {A} (m : M (fs D) A) : M (kernel D) A :=
  let! s0 := get in
  let! a := zoom k_fs kernel_set_fs m in
  let! s1 := get in
  after_io s0 s1 ;;;
  ret a.

(** [p->trapframe->w] *)
Definition tf_ld (p : nat) (w : Z) : M (kernel D) Z :=
  let! x := getp p in lmem (ld64 (p_trapframe x + 8 * w)).
Definition tf_st (p : nat) (w v : Z) : M (kernel D) unit :=
  let! x := getp p in lmem (st64 (p_trapframe x + 8 * w) (u64 v)).
End kernel.

Definition spinlock0 : spinlock := Spinlock 0 0 0.
(** Zeroed entries of the static tables. *)
Definition proc0 : proc :=
  Proc spinlock0 TASK_FREE 0 0 0 0 0 KNone 0 0 0 None 0 0 0
    (replicate NOFILE None) None (replicate MAXPATH 0).
Definition file0 : file := File 0 0 0 0 0 None 0.
Definition cpu0 : cpu := Cpu None 0 0 false.
Definition console0 : console := Console (replicate (Z.to_nat 1024) 0) 0 0 [].
Definition kernel0 {D} (m : mem) (disk : D) : kernel D :=
  Kernel (Fs (KMem m 0) (bio0 disk (SuperBlock 0 0 0 0 0 0 0 0)) (replicate NINODE inode0))
    (replicate NFILE file0) (replicate NPROC proc0) cpu0 1 console0 0.
