(* ===== verification/Spinlock.v ===== *)
(** Spin locks and interrupt nesting, [kernel/proc/spinlock.c], on the single
    CPU the kernel is built for. *)

From S2P Require Import Prelude Memory Kalloc Vm Str Bio Fs Kernel.

(** The locks: [proc[i].lock], and the lock at the start of a pipe's page. *)
Inductive lockref := LkProc (i : nat) | LkPipe (pi : Z).
#[global] Instance lockref_eq_dec : EqDecision lockref.
Proof. solve_decision. Defined.

Section spinlock.
Context `{Image} {D : Type} `{BlockDev D}.

(** The fields [locked], [name] and [cpu] of a lock. *)
Definition get_lock (lk : lockref) : M (kernel D) spinlock :=
  match lk with
  | LkProc i => let! x := getp i in ret (p_lock x)
  | LkPipe pi =>
      let! l := lmem (ld32 pi) in
      let! n := lmem (ld64 (pi + 8)) in
      let! c := lmem (ld64 (pi + 16)) in
      ret (Spinlock l n c)
  end.
Definition set_locked (lk : lockref) (v : Z) : M (kernel D) unit :=
  match lk with
  | LkProc i => setp i (fun x => proc_set_lock
      (Spinlock v (lk_name (p_lock x)) (lk_cpu (p_lock x))) x)
  | LkPipe pi => lmem (st32 pi v)
  end.
Definition set_lkname (lk : lockref) (v : Z) : M (kernel D) unit :=
  match lk with
  | LkProc i => setp i (fun x => proc_set_lock
      (Spinlock (lk_locked (p_lock x)) v (lk_cpu (p_lock x))) x)
  | LkPipe pi => lmem (st64 (pi + 8) v)
  end.
Definition set_lkcpu (lk : lockref) (v : Z) : M (kernel D) unit :=
  match lk with
  | LkProc i => setp i (fun x => proc_set_lock
      (Spinlock (lk_locked (p_lock x)) (lk_name (p_lock x)) v) x)
  | LkPipe pi => lmem (st64 (pi + 16) v)
  end.

Definition initlock (lk : lockref) (name : Z) : M (kernel D) unit :=
  set_lkname lk name ;;;
  set_locked lk 0 ;;;
  set_lkcpu lk 0.

(** [intr_on], [intr_off] and [intr_get] of [riscv.h]. *)
Definition intr_on : M (kernel D) unit := setcpu (cpu_set_sie true).
Definition intr_off : M (kernel D) unit := setcpu (cpu_set_sie false).
Definition intr_get : M (kernel D) bool := let! c := getcpu in ret (c_sie c).

Definition push_off : M (kernel D) unit :=
  let! old := intr_get in
  intr_off ;;;
  (let! c := getcpu in
   when (c_noff c =? 0) (setcpu (cpu_set_intena (if old then 1 else 0)))) ;;;
  setcpu (fun c => cpu_set_noff (s32 (c_noff c + 1)) c).

Definition pop_off : M (kernel D) unit :=
  setcpu (fun c => cpu_set_noff (s32 (c_noff c - 1)) c) ;;;
  let! c := getcpu in
  when ((c_noff c =? 0) && negb (c_intena c =? 0)) intr_on.

(** [__sync_lock_test_and_set] on a lock that is taken never succeeds: the only
    CPU spins with interrupts off. *)
Definition acquire (lk : lockref) : M (kernel D) unit :=
  push_off ;;;
  let! l := get_lock lk in
  if negb (lk_locked l =? 0) then hang "acquire"
  else
    set_locked lk 1 ;;;
    set_lkcpu lk cpus_base.

Definition release (lk : lockref) : M (kernel D) unit :=
  set_lkcpu lk 0 ;;;
  set_locked lk 0 ;;;
  pop_off.

Definition holding (lk : lockref) : M (kernel D) bool :=
  let! l := get_lock lk in
  ret (negb (lk_locked l =? 0) && (lk_cpu l =? cpus_base)).
End spinlock.
