(* ===== verification/Proc.v ===== *)
(** Processes, [kernel/proc/proc.c] and [sleep] of [kernel/syscall/sysproc.c]:
    allocation, the scheduler's steps, giving up the CPU, sleeping and waking,
    and growing the address space. *)

From S2P Require Import Prelude Memory Kalloc Vm Str Bio Fs Kernel Spinlock.

Section proc.
Context `{Image} {D : Type} `{BlockDev D}.

Definition allocpid : M (kernel D) Z :=
  let! s := get in
  put (kernel_set_nextpid (s32 (k_nextpid s + 1)) s) ;;;
  ret (k_nextpid s).

Definition procinit : M (kernel D) unit :=
  for_range 0 NPROC (fun i =>
    setp i (proc_set_status TASK_FREE) ;;;
    initlock (LkProc i) (str_addr "proclock")).

(* ------------------------------------------------------------------ *)
(** ** Allocation *)

(** The scan of [allocproc] over [n] entries from [i]; the entry found is
    returned with its lock held. *)
Fixpoint allocproc_scan (i n : nat) : M (kernel D) (option nat) :=
  match n with
  | O => ret None
  | S n' =>
      acquire (LkProc i) ;;;
      let! x := getp i in
      if decide (p_status x = TASK_FREE) then ret (Some i)
      else release (LkProc i) ;;; allocproc_scan (S i) n'
  end.

Definition allocproc : M (kernel D) (option nat) :=
  let! r := allocproc_scan 0 NPROC in
  match r with
  | None => ret None
  | Some p =>
      let! pid := allocpid in
      setp p (proc_set_pid pid) ;;;
      setp p (proc_set_killed 0) ;;;
      setp p (proc_set_xstate 0) ;;;
      setp p (proc_set_chan 0) ;;;
      setp p (proc_set_parent None) ;;;
      setp p (proc_set_name 0) ;;;
      setp p (proc_set_sz 0) ;;;
      let! tf := lmem kalloc in
      setp p (proc_set_trapframe tf) ;;;
      if tf =? 0 then
        setp p (proc_set_status TASK_FREE) ;;;
        release (LkProc p) ;;;
        ret None
      else
        setp p (proc_set_status TASK_ALLOCATED) ;;;
        release (LkProc p) ;;;
        ret (Some p)
  end.

(* ------------------------------------------------------------------ *)
(** ** Scheduling *)

(** The body of the scheduler's inner loop up to [swtch]: whether process [i]
    was switched to. *)
Definition scheduler_dispatch (i : nat) : M (kernel D) bool :=
  acquire (LkProc i) ;;;
  let! x := getp i in
  if decide (p_status x = TASK_READY) then
    setp i (proc_set_status TASK_RUNNING) ;;;
    setcpu (cpu_set_proc (Some i)) ;;;
    ret true
  else release (LkProc i) ;;; ret false.

(** The rest of the body, when process [i] has switched back. *)
Definition scheduler_return (i : nat) : M (kernel D) unit :=
  setcpu (cpu_set_proc None) ;;;
  release (LkProc i).

(** The checks of [sched]. *)
Definition sched : M (kernel D) unit :=
  let! p := myproc in
  let! h := holding (LkProc p) in
  if negb h then panic "sched p->lock"
  else
    let! c := getcpu in
    if negb (c_noff c =? 1) then panic "sched locks"
    else
      let! x := getp p in
      if decide (p_status x = TASK_RUNNING) then panic "sched running"
      else
        let! i := intr_get in
        if i then panic "sched interruptible" else ret tt.

(** [swtch(&p->context, &mycpu()->context)]: the process saves where it goes on
    and the CPU goes back to the scheduler. *)
Definition swtch {A} (p : nat) (k : kont) : M (kernel D) A :=
  setp p (proc_set_kont k) ;;;
  fun s => Sleep (default 0 (p_chan <$> (k_procs s !! p))) s.

(** [yield] up to the switch, and what remains of it afterwards. *)
Definition yield {A} (k : kont) : M (kernel D) A :=
  let! p := myproc in
  acquire (LkProc p) ;;;
  setp p (proc_set_status TASK_READY) ;;;
  sched ;;;
  swtch p k.
Definition yield_resume : M (kernel D) unit :=
  let! p := myproc in release (LkProc p).

(* ------------------------------------------------------------------ *)
(** ** Sleep and wakeup *)

(** What [sleep(chan, lk)] does up to the switch, call by call. *)
Definition sleep_actions (p : nat) (chan : Z) (lk : lockref) : list (M (kernel D) unit) :=
  (if decide (lk = LkProc p) then [] else [acquire (LkProc p); release lk]) ++
  [setp p (proc_set_status TASK_SLEEPING);
   setp p (proc_set_chan chan);
   sched].
(** [sleep(chan, lk)] up to the switch; [k] holds the caller's locals. *)
Definition sleep {A} (chan : Z) (lk : lockref) (k : kont) : M (kernel D) A :=
  let! p := myproc in
  run_all (sleep_actions p chan lk) ;;;
  swtch p k.

(** What remains of [sleep] when the process runs again. *)
Definition sleep_resume (lk : lockref) : M (kernel D) unit :=
  let! p := myproc in
  setp p (proc_set_chan 0) ;;;
  when (negb (bool_decide (lk = LkProc p)))
    (release (LkProc p) ;;; acquire lk).

Definition wakeup (chan : Z) : M (kernel D) unit :=
  for_range 0 NPROC (fun i =>
    let! c := getcpu in
    when (negb (bool_decide (c_proc c = Some i)))
      (acquire (LkProc i) ;;;
       (let! x := getp i in
        when (bool_decide (p_status x = TASK_SLEEPING) && (p_chan x =? chan))
          (setp i (proc_set_status TASK_READY))) ;;;
       release (LkProc i))).

(* ------------------------------------------------------------------ *)
(** ** growproc *)

(** [growproc(n)] with [n] the [int] argument. *)
Definition growproc (n : Z) : M (kernel D) Z :=
  let! p := myproc in
  let! x := getp p in
  let sz := p_sz x in
  if 0 <? n then
    let! sz := lmem (uvmalloc (p_pagetable x) sz (u64 (sz + n))) in
    if sz =? 0 then ret (-1)
    else setp p (proc_set_sz sz) ;;; ret 0
  else
    let! sz :=
      (if n <? 0 then lmem (uvmdealloc (p_pagetable x) sz (u64 (sz + n))) else ret sz) in
    setp p (proc_set_sz sz) ;;;
    ret 0.
End proc.
