(* ===== verification/ProcSpec.v ===== *)
(** Properties of the spin locks and processes of [kernel/proc]: interrupt
    nesting, mutual exclusion, sleeping and waking, allocation and scheduling. *)

From S2P Require Import Prelude Memory Kalloc Vm Str Bio Fs Kernel Spinlock Proc.

(** [push_off] and [pop_off] as functions of the CPU's state. *)
Definition cpu_push (c : cpu) : cpu :=
  Cpu (c_proc c) (s32 (c_noff c + 1))
    (if c_noff c =? 0 then (if c_sie c then 1 else 0) else c_intena c) false.
Definition cpu_pop (c : cpu) : cpu :=
  Cpu (c_proc c) (s32 (c_noff c - 1)) (c_intena c)
    (if (s32 (c_noff c - 1) =? 0) && negb (c_intena c =? 0) then true else c_sie c).

(** The nesting count is in range, and inside a section interrupts are off. *)
Record irq_ok (c : cpu) : Prop := {
  irq_range : 0 <= c_noff c < 2147483646;
  irq_off : c_noff c <> 0 -> c_sie c = false;
}.

(** A section entered and left. Only the saved flag may change, and only
    outside every section, where it is not read. *)
Definition cpu_bal (c : cpu) : cpu :=
  if c_noff c =? 0 then cpu_set_intena (if c_sie c then 1 else 0) c else c.

Lemma cpu_pop_push c : irq_ok c -> cpu_pop (cpu_push c) = cpu_bal c.
Proof.
  destruct c as [p n i e]. intros [Hr Ho]. cbn in *. unfold cpu_pop, cpu_push, cpu_bal.
  cbn -[s32]. rewrite (s32_id (n + 1)) by lia. replace (n + 1 - 1) with n by lia.
  rewrite s32_id by lia. destruct (Z.eqb_spec n 0) as [->|Hn]; cbn; [by destruct e|].
  rewrite Ho by done. done.
Qed.

Lemma cpu_bal_bal c : cpu_bal (cpu_bal c) = cpu_bal c.
Proof. destruct c as [p n i e]. unfold cpu_bal. cbn. destruct (n =? 0) eqn:E; cbn; by rewrite E. Qed.
Lemma cpu_bal_noff c : c_noff (cpu_bal c) = c_noff c.
Proof. unfold cpu_bal. by destruct (_ =? 0). Qed.
Lemma cpu_bal_proc c : c_proc (cpu_bal c) = c_proc c.
Proof. unfold cpu_bal. by destruct (_ =? 0). Qed.
Lemma cpu_bal_sie c : c_sie (cpu_bal c) = c_sie c.
Proof. unfold cpu_bal. by destruct (_ =? 0). Qed.
Lemma irq_ok_bal c : irq_ok c -> irq_ok (cpu_bal c).
Proof. intros [? ?]. split; rewrite cpu_bal_noff, ?cpu_bal_sie; done. Qed.

Section spec.
Context `{Image} {D : Type} `{BlockDev D}.
Implicit Types s : kernel D.

Lemma push_off_eq s : push_off s = Ok tt (kernel_set_cpu (cpu_push (k_cpu s)) s).
Proof.
  destruct s as [f ft ps [p n i e] np co pt]. cbv -[s32 Z.eqb Z.add]. by destruct (n =? 0).
Qed.
Lemma pop_off_eq s : pop_off s = Ok tt (kernel_set_cpu (cpu_pop (k_cpu s)) s).
Proof.
  destruct s as [f ft ps [p n i e] np co pt]. cbv -[s32 Z.eqb Z.sub].
  by destruct (s32 (n - 1) =? 0), (i =? 0).
Qed.

(* ------------------------------------------------------------------ *)
(** ** Locks of processes *)

Definition lock_held (l : spinlock) : spinlock := Spinlock 1 (lk_name l) cpus_base.
Definition lock_free (l : spinlock) : spinlock := Spinlock 0 (lk_name l) 0.

Lemma getp_eq i s x : k_procs s !! i = Some x -> getp i s = Ok x s.
Proof. intros Hx. unfold getp. by rewrite Hx. Qed.
Lemma setp_eq i f s x :
  k_procs s !! i = Some x -> setp i f s = Ok tt (kernel_set_procs (<[i := f x]> (k_procs s)) s).
Proof. intros Hx. unfold setp. by rewrite Hx. Qed.

Lemma acquire_proc_eq i s x :
  k_procs s !! i = Some x -> lk_locked (p_lock x) = 0 ->
  acquire (LkProc i) s =
    Ok tt (kernel_set_procs (<[i := proc_set_lock (lock_held (p_lock x)) x]> (k_procs s))
            (kernel_set_cpu (cpu_push (k_cpu s)) s)).
Proof.
  intros Hx Hl. unfold acquire. rewrite (bind_ok _ _ _ _ _ (push_off_eq s)).
  unfold get_lock. rewrite bind_assoc. rewrite (bind_ok _ _ _ x (kernel_set_cpu (cpu_push (k_cpu s)) s)).
  2: { by apply getp_eq. }
  rewrite bind_ret_l, Hl. cbn [negb Z.eqb].
  unfold set_locked. erewrite (bind_ok (setp i _)); [|by apply setp_eq].
  unfold set_lkcpu. erewrite setp_eq.
  2: { cbn. apply list_lookup_insert_eq. by eapply lookup_lt_Some. }
  cbn. rewrite list_insert_insert_eq. done.
Qed.

Lemma acquire_proc_hang i s x :
  k_procs s !! i = Some x -> lk_locked (p_lock x) <> 0 ->
  acquire (LkProc i) s = Stop (Hang "acquire").
Proof.
  intros Hx Hl. unfold acquire. rewrite (bind_ok _ _ _ _ _ (push_off_eq s)).
  unfold get_lock. rewrite bind_assoc. rewrite (bind_ok _ _ _ x (kernel_set_cpu (cpu_push (k_cpu s)) s)).
  2: { by apply getp_eq. }
  rewrite bind_ret_l, (proj2 (Z.eqb_neq _ 0)) by done. done.
Qed.

Lemma release_proc_eq i s x :
  k_procs s !! i = Some x ->
  release (LkProc i) s =
    Ok tt (kernel_set_procs (<[i := proc_set_lock (lock_free (p_lock x)) x]> (k_procs s))
            (kernel_set_cpu (cpu_pop (k_cpu s)) s)).
Proof.
  intros Hx. unfold release, set_lkcpu, set_locked.
  erewrite bind_ok; [|by apply setp_eq].
  erewrite bind_ok; [|apply setp_eq; cbn; apply list_lookup_insert_eq; by eapply lookup_lt_Some].
  rewrite pop_off_eq. cbn. by rewrite list_insert_insert_eq.
Qed.

Lemma holding_proc_eq i s x :
  k_procs s !! i = Some x ->
  holding (LkProc i) s =
    Ok (negb (lk_locked (p_lock x) =? 0) && (lk_cpu (p_lock x) =? cpus_base)) s.
Proof.
  intros Hx. unfold holding, get_lock. rewrite bind_assoc.
  by rewrite (bind_ok _ _ _ x s) by (by apply getp_eq).
Qed.

(* ------------------------------------------------------------------ *)
(** ** Interrupt nesting *)

(** A sequence of [push_off] ([true]) and [pop_off] ([false]), and the depth it
    leaves from depth [d] ([None] when a [pop_off] has no [push_off]). *)
Fixpoint irq_run (ops : list bool) : M (kernel D) unit :=
  match ops with
  | [] => ret tt
  | o :: ops' => (if o then push_off else pop_off) ;;; irq_run ops'
  end.
Fixpoint nest (d : nat) (ops : list bool) : option nat :=
  match ops with
  | [] => Some d
  | true :: ops' => nest (S d) ops'
  | false :: ops' => match d with O => None | S d' => nest d' ops' end
  end.

Record nested (s0 s : kernel D) (d : nat) : Prop := {
  ns_noff : c_noff (k_cpu s) = Z.of_nat d;
  ns_sie : c_sie (k_cpu s) = match d with O => c_sie (k_cpu s0) | _ => false end;
  ns_intena : d <> O -> c_intena (k_cpu s) = if c_sie (k_cpu s0) then 1 else 0;
  ns_rest : exists c, c_proc c = c_proc (k_cpu s0) /\ s = kernel_set_cpu c s0;
}.

Lemma nested_push s0 s d : nested s0 s d -> Z.of_nat d < 2147483646 ->
  nested s0 (kernel_set_cpu (cpu_push (k_cpu s)) s) (S d).
Proof.
  intros [Hn Hs Hi (c & Hc & ->)] Hd. cbn in Hn, Hs, Hi. split; unfold cpu_push; cbn -[s32].
  - rewrite Hn, s32_id by lia. lia.
  - done.
  - intros _. rewrite Hn. destruct d; cbn; [by rewrite Hs|]. by apply Hi.
  - eexists. split; [|done]. cbn. done.
Qed.

Lemma nested_pop s0 s d : nested s0 s (S d) -> Z.of_nat d < 2147483646 ->
  nested s0 (kernel_set_cpu (cpu_pop (k_cpu s)) s) d.
Proof.
  intros [Hn Hs Hi (c & Hc & ->)] Hd. cbn in Hn, Hs, Hi. specialize (Hi ltac:(done)).
  split; unfold cpu_pop; cbn -[s32]; rewrite ?Hn, ?(s32_id (Z.of_nat (S d) - 1)) by lia.
  - lia.
  - rewrite Hi, Hs. destruct d as [|d]; [by destruct (c_sie (k_cpu s0))|].
    rewrite (proj2 (Z.eqb_neq _ 0)) by lia. done.
  - done.
  - eexists. split; [|done]. cbn. done.
Qed.

Lemma irq_run_nested s0 ops s d d' :
  nested s0 s d -> nest d ops = Some d' -> Z.of_nat (d + length ops) < 2147483646 ->
  exists s', irq_run ops s = Ok tt s' /\ nested s0 s' d'.
Proof.
  revert s d. induction ops as [|o ops IH]; intros s d Hs Hd Hl; cbn in *.
  - injection Hd as <-. by exists s.
  - destruct o.
    + rewrite (bind_ok _ _ _ _ _ (push_off_eq s)). apply (IH _ (S d)); [|done|lia].
      apply nested_push; [done|lia].
    + destruct d as [|d]; [done|]. rewrite (bind_ok _ _ _ _ _ (pop_off_eq s)).
      apply (IH _ d); [|done|lia]. apply nested_pop; [done|lia].
Qed.

(* ------------------------------------------------------------------ *)
(** ** wakeup *)

(** What [wakeup] by process [cur] does to entry [i]. *)
Definition woken (cur : option nat) (chan : Z) (i : nat) (x : proc) : proc :=
  if decide (cur = Some i) then x
  else
    let x := proc_set_lock (lock_free (p_lock x)) x in
    if bool_decide (p_status x = TASK_SLEEPING) && (p_chan x =? chan)
    then proc_set_status TASK_READY x else x.

(** No process but [cur] has its lock taken. *)
Definition others_unlocked s : Prop :=
  forall i x, k_procs s !! i = Some x -> c_proc (k_cpu s) <> Some i -> lk_locked (p_lock x) = 0.

Lemma wakeup_round chan i s x :
  irq_ok (k_cpu s) -> k_procs s !! i = Some x ->
  (c_proc (k_cpu s) <> Some i -> lk_locked (p_lock x) = 0) ->
  (let! c := getcpu in
   when (negb (bool_decide (c_proc c = Some i)))
     (acquire (LkProc i) ;;;
      (let! x := getp i in
       when (bool_decide (p_status x = TASK_SLEEPING) && (p_chan x =? chan))
         (setp i (proc_set_status TASK_READY))) ;;;
      release (LkProc i))) s =
  Ok tt (kernel_set_procs (<[i := woken (c_proc (k_cpu s)) chan i x]> (k_procs s))
    (kernel_set_cpu (if decide (c_proc (k_cpu s) = Some i) then k_cpu s else cpu_bal (k_cpu s)) s)).
Proof.
  intros Hc Hx Hl. rewrite (bind_ok _ _ s (k_cpu s) s) by done. unfold woken.
  destruct (decide (c_proc (k_cpu s) = Some i)) as [He|Hne].
  - rewrite bool_decide_true by done. cbn. rewrite list_insert_id by done. by destruct s.
  - rewrite bool_decide_false by done. cbn [negb when].
    rewrite (bind_ok _ _ _ _ _ (acquire_proc_eq i s x Hx (Hl Hne))).
    assert (i < length (k_procs s))%nat as Hi by (by eapply lookup_lt_Some).
    set (y := proc_set_lock (lock_held (p_lock x)) x). set (s1 := kernel_set_procs _ _).
    assert (k_procs s1 !! i = Some y) as Hy by (by apply list_lookup_insert_eq).
    rewrite <- cpu_pop_push by done.
    change (p_status (proc_set_lock (lock_free (p_lock x)) x)) with (p_status y).
    change (p_chan (proc_set_lock (lock_free (p_lock x)) x)) with (p_chan y).
    destruct (bool_decide (p_status y = TASK_SLEEPING) && (p_chan y =? chan)) eqn:E.
    + erewrite bind_ok; [|rewrite (bind_ok _ _ _ _ _ (getp_eq i s1 y Hy)), E; by apply setp_eq].
      erewrite release_proc_eq; [|cbn; apply list_lookup_insert_eq; by rewrite length_insert].
      unfold s1, y. destruct s, x. cbn. by rewrite !list_insert_insert_eq.
    + erewrite bind_ok; [|by rewrite (bind_ok _ _ _ _ _ (getp_eq i s1 y Hy)), E].
      rewrite (release_proc_eq i s1 y Hy). unfold s1, y. destruct s, x. cbn.
      by rewrite !list_insert_insert_eq.
Qed.

Lemma imap_id {A} (f : nat -> A -> A) l : (forall i x, f i x = x) -> imap f l = l.
Proof.
  intros Hf. apply list_eq. intros i. rewrite list_lookup_imap. destruct (l !! i); [|done].
  cbn. by rewrite Hf.
Qed.
Lemma set_procs_cpu l c l' c' s :
  kernel_set_procs l (kernel_set_cpu c (kernel_set_procs l' (kernel_set_cpu c' s))) =
  kernel_set_procs l (kernel_set_cpu c s).
Proof. done. Qed.

Lemma wakeup_wp chan s :
  length (k_procs s) = NPROC -> irq_ok (k_cpu s) -> others_unlocked s ->
  wp (wakeup chan) (fun _ s' =>
    s' = kernel_set_procs (imap (woken (c_proc (k_cpu s)) chan) (k_procs s))
           (kernel_set_cpu (k_cpu s') s) /\
    cpu_bal (k_cpu s') = cpu_bal (k_cpu s)) s.
Proof.
  intros Hlen Hc Hu. set (cur := c_proc (k_cpu s)).
  eapply wp_mono; [apply (wp_for_range _ (fun j s' =>
    s' = kernel_set_procs (imap (fun i x => if decide (i < j)%nat then woken cur chan i x else x) (k_procs s))
           (kernel_set_cpu (k_cpu s') s) /\
    (k_cpu s' = k_cpu s \/ k_cpu s' = cpu_bal (k_cpu s))))|].
  - intros j s1 Hj [Hs1 Hcpu].
    assert (irq_ok (k_cpu s1) /\ c_proc (k_cpu s1) = cur /\ cpu_bal (k_cpu s1) = cpu_bal (k_cpu s)) as (Hc1 & Hp1 & Hb1).
    { destruct Hcpu as [-> | ->]; [done|].
      split; [by apply irq_ok_bal|]. split; [by rewrite cpu_bal_proc|apply cpu_bal_bal]. }
    destruct (lookup_lt_is_Some_2 (k_procs s) j) as [x Hx]; [lia|].
    assert (k_procs s1 !! j = Some x) as Hx1.
    { rewrite Hs1. cbn. rewrite list_lookup_imap, Hx. cbn. by rewrite decide_False by lia. }
    eapply wp_of_eq; [apply wakeup_round; [exact Hc1|exact Hx1|rewrite Hp1; by apply Hu]|].
    split.
    + rewrite Hp1. generalize (if decide (cur = Some j) then k_cpu s1 else cpu_bal (k_cpu s1)).
      intros c'. change (k_cpu (kernel_set_procs _ (kernel_set_cpu c' s1))) with c'.
      rewrite Hs1, set_procs_cpu. f_equal. apply list_eq. intros i. cbn [k_procs kernel_set_procs].
      rewrite list_lookup_insert. rewrite !list_lookup_imap, length_imap.
      case_decide as Hji.
      * destruct Hji as [-> _]. rewrite Hx. cbn. rewrite decide_True by lia.
        done.
      * destruct (k_procs s !! i) as [y|] eqn:Hy; [|done]. cbn. f_equal.
        repeat case_decide; try done; try lia.
    + change (k_cpu (kernel_set_procs _ (kernel_set_cpu ?c _))) with c.
      destruct (decide _); [done|]. right. destruct Hcpu as [-> | ->]; [done|apply cpu_bal_bal].
  - split; [|by left]. rewrite imap_id; [by destruct s|]. intros i x. by rewrite decide_False by lia.
  - cbn beta. intros _ s' [Hs' Hcpu]. split.
    + rewrite Hs' at 1. f_equal. apply list_eq. intros i. rewrite !list_lookup_imap.
      destruct (k_procs s !! i) as [y|] eqn:Hy; [|done]. cbn. rewrite decide_True; [done|].
      apply lookup_lt_Some in Hy. lia.
    + destruct Hcpu as [-> | ->]; [done|apply cpu_bal_bal].
Qed.

(* ------------------------------------------------------------------ *)
(** ** allocproc *)

(** A lock nobody holds, as [initlock] and [release] leave it. *)
Definition idle (x : proc) : Prop := lk_locked (p_lock x) = 0 /\ lk_cpu (p_lock x) = 0.

Lemma idle_lock x : idle x -> proc_set_lock (lock_free (p_lock x)) x = x.
Proof. destruct x as [[l n c]]. intros [Hl Hc]. cbn in *. by subst. Qed.

Lemma lock_free_idle x : idle x -> lock_free (p_lock x) = p_lock x.
Proof. destruct x as [[l n c]]. intros [Hl Hc]. cbn in *. by subst. Qed.

Lemma acquire_release_eq i s x :
  k_procs s !! i = Some x -> idle x -> irq_ok (k_cpu s) ->
  bind (acquire (LkProc i)) (fun _ => release (LkProc i)) s =
    Ok tt (kernel_set_cpu (cpu_bal (k_cpu s)) s).
Proof.
  intros Hx Hid Hc. erewrite bind_ok; [|apply acquire_proc_eq; [exact Hx|apply Hid]].
  erewrite release_proc_eq; [|cbn; apply list_lookup_insert_eq; by eapply lookup_lt_Some].
  cbn. rewrite list_insert_insert_eq, <- cpu_pop_push by done.
  rewrite <- (idle_lock x Hid) in Hx. rewrite list_insert_id by (by destruct x). by destruct s.
Qed.

Lemma allocproc_scan_eq n i s :
  (i + n = length (k_procs s))%nat -> irq_ok (k_cpu s) -> Forall idle (k_procs s) ->
  exists c, irq_ok c /\ cpu_bal c = cpu_bal (k_cpu s) /\
  ((forall k x, (i <= k)%nat -> k_procs s !! k = Some x -> p_status x <> TASK_FREE) ->
     allocproc_scan i n s = Ok None (kernel_set_cpu c s)) /\
  (forall p x, (i <= p)%nat -> k_procs s !! p = Some x -> p_status x = TASK_FREE ->
     (forall k y, (i <= k < p)%nat -> k_procs s !! k = Some y -> p_status y <> TASK_FREE) ->
     exists c, irq_ok c /\ cpu_bal c = cpu_bal (k_cpu s) /\ allocproc_scan i n s = Ok (Some p)
       (kernel_set_procs (<[p := proc_set_lock (lock_held (p_lock x)) x]> (k_procs s))
          (kernel_set_cpu (cpu_push c) s))).
Proof.
  revert i s. induction n as [|n IH]; intros i s Hn Hc Hid.
  - exists (k_cpu s). split; [done|]. split; [done|]. split; [intros _; by destruct s|].
    intros p x Hp Hx. apply lookup_lt_Some in Hx. lia.
  - destruct (lookup_lt_is_Some_2 (k_procs s) i) as [x Hx]; [lia|].
    pose proof (Forall_lookup_1 _ _ _ _ Hid Hx) as Hix.
    assert (p_status x <> TASK_FREE -> allocproc_scan i (S n) s =
      allocproc_scan (S i) n (kernel_set_cpu (cpu_bal (k_cpu s)) s)) as Hskip.
    { intros Hf. cbn [allocproc_scan].
      rewrite (bind_ok _ _ _ _ _ (acquire_proc_eq i s x Hx (proj1 Hix))).
      erewrite bind_ok; [|apply getp_eq; cbn; apply list_lookup_insert_eq; by eapply lookup_lt_Some].
      change (p_status (proc_set_lock _ x)) with (p_status x). rewrite decide_False by done.
      pose proof (acquire_release_eq i s x Hx Hix Hc) as Hr.
      rewrite (bind_ok _ _ _ _ _ (acquire_proc_eq i s x Hx (proj1 Hix))) in Hr.
      by rewrite (bind_ok _ _ _ _ _ Hr). }
    destruct (IH (S i) (kernel_set_cpu (cpu_bal (k_cpu s)) s)) as (c & Hco & Hcb & Hnone & Hsome);
      [cbn; lia|by apply irq_ok_bal|done|].
    cbn in Hcb. rewrite cpu_bal_bal in Hcb. exists c. split; [done|]. split; [done|]. split.
    + intros Hall. rewrite Hskip by (by eapply Hall). rewrite Hnone; [done|].
      intros k y Hk. apply Hall. lia.
    + intros p y Hp Hy Hf Hbef. destruct (decide (p = i)) as [->|Hne].
      * rewrite Hx in Hy. injection Hy as <-. exists (k_cpu s). split; [done|]. split; [done|].
        cbn [allocproc_scan]. rewrite (bind_ok _ _ _ _ _ (acquire_proc_eq i s x Hx (proj1 Hix))).
        erewrite bind_ok; [|apply getp_eq; cbn; apply list_lookup_insert_eq; by eapply lookup_lt_Some].
        change (p_status (proc_set_lock _ x)) with (p_status x). by rewrite decide_True by done.
      * rewrite Hskip by (apply (Hbef i x); [lia|done]).
        destruct (Hsome p y) as (c' & Hc' & Hb' & ->); [lia|done|done|intros k z Hk; apply Hbef; lia|].
        exists c'. split; [done|]. split; [|done]. cbn in Hb'. by rewrite cpu_bal_bal in Hb'.
Qed.

(* ------------------------------------------------------------------ *)
(** ** Pipe locks, sched and sleep *)

Definition k_mem s : mem := km_mem (f_km (k_fs s)).
Definition set_mem (m : mem) s : kernel D :=
  kernel_set_fs (Fs (KMem m (free_mem_list (f_km (k_fs s)))) (f_bio (k_fs s)) (icache (k_fs s))) s.

Lemma acquire_pipe_eq pi s :
  rd32 (k_mem s) pi = 0 ->
  acquire (LkPipe pi) s =
    Ok tt (set_mem (wr64 (wr32 (k_mem s) pi 1) (pi + 16) cpus_base)
            (kernel_set_cpu (cpu_push (k_cpu s)) s)).
Proof.
  intros Hl. unfold acquire. rewrite (bind_ok _ _ _ _ _ (push_off_eq s)).
  assert (get_lock (LkPipe pi) (kernel_set_cpu (cpu_push (k_cpu s)) s) =
    Ok (Spinlock (rd32 (k_mem s) pi) (rd64 (k_mem s) (pi + 8)) (rd64 (k_mem s) (pi + 16)))
      (kernel_set_cpu (cpu_push (k_cpu s)) s)) as Hg by (by destruct s as [[[]]]).
  rewrite (bind_ok _ _ _ _ _ Hg). cbn [lk_locked]. rewrite Hl. by destruct s as [[[]]].
Qed.

Lemma release_pipe_eq pi s :
  release (LkPipe pi) s =
    Ok tt (set_mem (wr32 (wr64 (k_mem s) (pi + 16) 0) pi 0)
            (kernel_set_cpu (cpu_pop (k_cpu s)) s)).
Proof.
  unfold release. set (s1 := set_mem (wr32 (wr64 (k_mem s) (pi + 16) 0) pi 0) s).
  assert (bind (set_lkcpu (LkPipe pi) 0) (fun _ => set_locked (LkPipe pi) 0) s = Ok tt s1) as Hs
    by (by destruct s as [[[]]]).
  rewrite <- bind_assoc, (bind_ok _ _ _ _ _ Hs), pop_off_eq. by destruct s as [[[]]].
Qed.

Lemma sched_ok p s x :
  c_proc (k_cpu s) = Some p -> k_procs s !! p = Some x ->
  lk_locked (p_lock x) = 1 -> lk_cpu (p_lock x) = cpus_base ->
  c_noff (k_cpu s) = 1 -> c_sie (k_cpu s) = false -> p_status x <> TASK_RUNNING ->
  sched s = Ok tt s.
Proof.
  intros Hp Hx Hl Hc Hn Hi Hst. unfold sched.
  rewrite (bind_ok _ _ s p s) by (unfold myproc; by rewrite Hp).
  rewrite (bind_ok _ _ _ _ _ (holding_proc_eq p s x Hx)). rewrite Hl, Hc, Z.eqb_refl. cbn [negb andb Z.eqb].
  rewrite (bind_ok _ _ s (k_cpu s) s) by done. rewrite Hn.
  change (negb (1 =? 1)) with false. cbv iota.
  rewrite (bind_ok _ _ _ _ _ (getp_eq p s x Hx)). rewrite decide_False by done.
  rewrite (bind_ok _ _ s false s); [done|]. unfold intr_get. rewrite (bind_ok _ _ s (k_cpu s) s) by done.
  by rewrite Hi.
Qed.

(** A process that enters [sleep] with a pipe's lock. *)
Definition asleep (chan : Z) (k : kont) (x : proc) : proc :=
  proc_set_kont k (proc_set_chan chan (proc_set_status TASK_SLEEPING
    (proc_set_lock (lock_held (p_lock x)) x))).

(** [setp] on the running process, with one entry to follow. *)
Lemma setp_on p f s y ps m :
  (p < length ps)%nat ->
  setp p f (kernel_set_procs (<[p := y]> ps) (set_mem m s)) =
    Ok tt (kernel_set_procs (<[p := f y]> ps) (set_mem m s)).
Proof.
  intros Hlt. erewrite setp_eq by (cbn; by apply list_lookup_insert_eq). cbn [k_procs kernel_set_procs].
  by rewrite list_insert_insert_eq.
Qed.
Definition free_pipe_lock (m : mem) (pi : Z) : mem := wr32 (wr64 m (pi + 16) 0) pi 0.

(** The calls of [sleep] one by one: the states between them. *)
Lemma sleep_calls chan pi s p x :
  c_proc (k_cpu s) = Some p -> k_procs s !! p = Some x -> idle x ->
  c_noff (k_cpu s) = 1 -> c_sie (k_cpu s) = false ->
  let y := proc_set_lock (lock_held (p_lock x)) x in
  let at_ z := kernel_set_procs (<[p := z]> (k_procs s)) (set_mem (free_pipe_lock (k_mem s) pi) s) in
  let s1 := kernel_set_procs (<[p := y]> (k_procs s)) (kernel_set_cpu (cpu_push (k_cpu s)) s) in
  let z := proc_set_chan chan (proc_set_status TASK_SLEEPING y) in
  acquire (LkProc p) s = Ok tt s1 /\ release (LkPipe pi) s1 = Ok tt (at_ y) /\
  setp p (proc_set_status TASK_SLEEPING) (at_ y) = Ok tt (at_ (proc_set_status TASK_SLEEPING y)) /\
  setp p (proc_set_chan chan) (at_ (proc_set_status TASK_SLEEPING y)) = Ok tt (at_ z) /\
  sched (at_ z) = Ok tt (at_ z).
Proof.
  intros Hp Hx Hid Hn Hi y at_ s1 z. assert (p < length (k_procs s))%nat as Hlt by (by eapply lookup_lt_Some).
  split; [exact (acquire_proc_eq p s x Hx (proj1 Hid))|]. split; [|split; [|split]].
  - rewrite release_pipe_eq. unfold s1, at_, free_pipe_lock. destruct s as [[[]] ft ps [cp n i e] np co pt].
    cbn in Hn, Hi. subst. done.
  - by apply setp_on.
  - by apply setp_on.
  - apply (sched_ok p (at_ z) z); [done|by apply list_lookup_insert_eq|done..].
Qed.
Lemma sleep_pipe_eq {A} chan pi k s p x :
  c_proc (k_cpu s) = Some p -> k_procs s !! p = Some x -> idle x ->
  c_noff (k_cpu s) = 1 -> c_sie (k_cpu s) = false ->
  sleep (A := A) chan (LkPipe pi) k s =
    Sleep chan (kernel_set_procs (<[p := asleep chan k x]> (k_procs s))
      (set_mem (wr32 (wr64 (k_mem s) (pi + 16) 0) pi 0) s)).
Proof.
  intros Hp Hx Hid Hn Hi. assert (p < length (k_procs s))%nat as Hlt by (by eapply lookup_lt_Some).
  destruct (sleep_calls chan pi s p x Hp Hx Hid Hn Hi) as (E1 & E2 & E3 & E4 & E5).
  unfold sleep. rewrite (bind_ok _ _ s p s) by (unfold myproc; by rewrite Hp).
  unfold sleep_actions. rewrite decide_False by done. cbn [app run_all]. rewrite !bind_assoc.
  rewrite (bind_ok _ _ _ _ _ E1), bind_assoc, (bind_ok _ _ _ _ _ E2), bind_assoc, (bind_ok _ _ _ _ _ E3),
    bind_assoc, (bind_ok _ _ _ _ _ E4), bind_assoc, (bind_ok _ _ _ _ _ E5), bind_ret_l.
  unfold swtch. erewrite bind_ok; [|by apply setp_on].
  cbn [k_procs kernel_set_procs]. by rewrite list_lookup_insert_eq.
Qed.

(** [kalloc] from kernel code. *)
Lemma lmem_kalloc_cons `{!ImageOk} s q ps :
  kmem_inv (f_km (k_fs s)) (q :: ps) ->
  exists km', lmem kalloc s = Ok q (kernel_set_fs (Fs km' (f_bio (k_fs s)) (icache (k_fs s))) s) /\
    kmem_inv km' ps /\ km_mem km' = k_mem s /\ q <> 0.
Proof.
  intros Hinv. destruct (kalloc_spec_cons _ _ _ Hinv) as (km' & Hk & Hi & Hm & Hp & _).
  exists km'. split; [unfold lmem, zoom; by rewrite Hk|]. pose proof (page_ok_pos _ Hp).
  split; [done|]. split; [done|lia].
Qed.
Lemma lmem_kalloc_nil s : kmem_inv (f_km (k_fs s)) [] -> lmem kalloc s = Ok 0 s.
Proof.
  intros Hinv. unfold lmem, zoom. rewrite (kalloc_spec_nil _ Hinv). by destruct s as [[]].
Qed.

(** The entry [allocproc] hands out. *)
Definition fresh_proc (pid tf : Z) (x : proc) : proc :=
  Proc (lock_free (p_lock x)) TASK_ALLOCATED pid (p_pagetable x) tf (p_ra x) (p_sp x)
    (p_kont x) (p_kstack x) 0 0 None 0 0 0 (p_ofile x) (p_cwd x) (p_cwd_path x).
(** The entry it gives back when there is no page for the trap frame. *)
Definition failed_proc (pid : Z) (x : proc) : proc :=
  proc_set_status TASK_FREE (fresh_proc pid 0 x).

(** What follows the scan, from the entry [p] with its lock held. *)
Definition first_free s (p : nat) (x : proc) : Prop :=
  k_procs s !! p = Some x /\ p_status x = TASK_FREE /\
  forall k y, (k < p)%nat -> k_procs s !! k = Some y -> p_status y <> TASK_FREE.

Lemma allocproc_none s :
  length (k_procs s) = NPROC -> irq_ok (k_cpu s) -> Forall idle (k_procs s) ->
  (forall k x, k_procs s !! k = Some x -> p_status x <> TASK_FREE) ->
  exists c, allocproc s = Ok None (kernel_set_cpu c s) /\ cpu_bal c = cpu_bal (k_cpu s).
Proof.
  intros Hl Hc Hid Hall. destruct (allocproc_scan_eq NPROC 0 s) as (c & _ & Hb & Hn & _); [lia|done|done|].
  exists c. split; [|done]. unfold allocproc. rewrite (bind_ok _ _ _ _ _ (Hn ltac:(eauto))). done.
Qed.

Ltac setp_next := erewrite bind_ok; [|apply setp_eq; cbn; by apply list_lookup_insert_eq].

Lemma allocproc_some `{!ImageOk} s p x pages :
  length (k_procs s) = NPROC -> irq_ok (k_cpu s) -> Forall idle (k_procs s) ->
  first_free s p x -> kmem_inv (f_km (k_fs s)) pages ->
  exists c km', cpu_bal c = cpu_bal (k_cpu s) /\ km_mem km' = k_mem s /\ kmem_inv km' (tail pages) /\
  allocproc s =
    Ok (match pages with [] => None | _ => Some p end)
      (kernel_set_procs (<[p := match pages with
                                | [] => failed_proc (k_nextpid s) x
                                | tf :: _ => fresh_proc (k_nextpid s) tf x
                                end]> (k_procs s))
        (kernel_set_nextpid (s32 (k_nextpid s + 1)) (kernel_set_cpu c
          (kernel_set_fs (Fs km' (f_bio (k_fs s)) (icache (k_fs s))) s)))).
Proof.
  intros Hl Hc Hid (Hx & Hf & Hbef) Hpages.
  destruct (allocproc_scan_eq NPROC 0 s) as (_ & _ & _ & _ & Hsome); [lia|done|done|].
  destruct (Hsome p x) as (c & Hc' & Hb & Hscan); [lia|done|done|intros k y Hk; apply Hbef; lia|].
  assert (p < length (k_procs s))%nat as Hlt by (by eapply lookup_lt_Some).
  unfold allocproc. rewrite (bind_ok _ _ _ _ _ Hscan). set (s1 := kernel_set_procs _ _).
  rewrite (bind_ok _ _ s1 (k_nextpid s) (kernel_set_nextpid (s32 (k_nextpid s + 1)) s1)) by done.
  set (y := proc_set_lock (lock_held (p_lock x)) x) in *.
  erewrite bind_ok; [|apply setp_eq; cbn; by apply list_lookup_insert_eq].
  cbn [k_procs kernel_set_procs kernel_set_nextpid s1]. rewrite list_insert_insert_eq.
  do 6 (erewrite bind_ok; [|apply setp_eq; cbn; by apply list_lookup_insert_eq];
    cbn [k_procs kernel_set_procs]; rewrite list_insert_insert_eq).
  set (s2 := kernel_set_procs _ _).
  assert (f_km (k_fs s2) = f_km (k_fs s)) as Hkm by done.
  destruct pages as [|tf ps].
  - exists (cpu_bal c), (f_km (k_fs s)). rewrite cpu_bal_bal. split; [done|]. split; [done|]. split; [done|].
    rewrite (bind_ok _ _ s2 0 s2) by (apply lmem_kalloc_nil; by rewrite Hkm).
    unfold s2. setp_next. cbn [k_procs kernel_set_procs]. rewrite list_insert_insert_eq. cbn [Z.eqb].
    change (0 =? 0) with true. cbv iota.
    setp_next. cbn [k_procs kernel_set_procs]. rewrite list_insert_insert_eq.
    erewrite bind_ok; [|apply release_proc_eq; cbn; by apply list_lookup_insert_eq].
    cbn [k_procs kernel_set_procs]. rewrite list_insert_insert_eq.
    rewrite <- cpu_pop_push by done. unfold s1. by destruct s as [[] ? ? ? ? ? ?], x.
  - destruct (lmem_kalloc_cons s2 tf ps ltac:(by rewrite Hkm)) as (km' & Hk & Hi & Hm & H0').
    exists (cpu_bal c), km'. rewrite cpu_bal_bal. split; [done|]. split; [done|]. split; [done|].
    rewrite (bind_ok _ _ _ _ _ Hk). unfold s2. setp_next. cbn [k_procs kernel_set_procs kernel_set_fs].
    rewrite list_insert_insert_eq, (proj2 (Z.eqb_neq tf 0)) by done.
    setp_next. cbn [k_procs kernel_set_procs]. rewrite list_insert_insert_eq.
    erewrite bind_ok; [|apply release_proc_eq; cbn; by apply list_lookup_insert_eq].
    cbn [k_procs kernel_set_procs]. rewrite list_insert_insert_eq.
    rewrite <- cpu_pop_push by done. unfold s1. by destruct s as [[] ? ? ? ? ? ?], x.
Qed.

(* ------------------------------------------------------------------ *)
(** ** Yielding and dispatching *)

Lemma yield_eq {A} s p x k :
  c_proc (k_cpu s) = Some p -> k_procs s !! p = Some x -> idle x -> c_noff (k_cpu s) = 0 ->
  yield (A := A) k s = Sleep (p_chan x)
    (kernel_set_procs
      (<[p := proc_set_kont k (proc_set_status TASK_READY (proc_set_lock (lock_held (p_lock x)) x))]> (k_procs s))
      (kernel_set_cpu (cpu_push (k_cpu s)) s)).
Proof.
  intros Hp Hx Hix Hn. assert (p < length (k_procs s))%nat as Hlt by (by eapply lookup_lt_Some).
  unfold yield. rewrite (bind_ok _ _ s p s) by (unfold myproc; by rewrite Hp).
  rewrite (bind_ok _ _ _ _ _ (acquire_proc_eq p s x Hx (proj1 Hix))).
  erewrite bind_ok; [|apply setp_eq; cbn; by apply list_lookup_insert_eq].
  cbn [k_procs kernel_set_procs]. rewrite list_insert_insert_eq.
  erewrite bind_ok; [|eapply sched_ok; [exact Hp|cbn; by apply list_lookup_insert_eq|done|done
    |cbn -[s32]; by rewrite Hn|done|done]].
  unfold swtch. erewrite bind_ok; [|apply setp_eq; cbn; by apply list_lookup_insert_eq].
  cbn [k_procs kernel_set_procs]. by rewrite list_insert_insert_eq, list_lookup_insert_eq by done.
Qed.

Lemma scheduler_return_eq s p x :
  k_procs s !! p = Some x ->
  scheduler_return p s =
    Ok tt (kernel_set_procs (<[p := proc_set_lock (lock_free (p_lock x)) x]> (k_procs s))
      (kernel_set_cpu (cpu_pop (cpu_set_proc None (k_cpu s))) s)).
Proof.
  intros Hx. unfold scheduler_return.
  rewrite (bind_ok _ _ s tt (kernel_set_cpu (cpu_set_proc None (k_cpu s)) s)) by done.
  by erewrite release_proc_eq by done.
Qed.

Lemma dispatch_eq s p x :
  k_procs s !! p = Some x -> idle x -> irq_ok (k_cpu s) ->
  exists c, scheduler_dispatch p s =
    if decide (p_status x = TASK_READY) then
      Ok true (kernel_set_cpu (cpu_set_proc (Some p) (cpu_push (k_cpu s)))
        (kernel_set_procs (<[p := proc_set_status TASK_RUNNING
          (proc_set_lock (lock_held (p_lock x)) x)]> (k_procs s)) s))
    else Ok false (kernel_set_cpu c s).
Proof.
  intros Hx Hid Hc. exists (cpu_bal (k_cpu s)). unfold scheduler_dispatch.
  assert (p < length (k_procs s))%nat by (by eapply lookup_lt_Some).
  rewrite (bind_ok _ _ _ _ _ (acquire_proc_eq p s x Hx (proj1 Hid))).
  erewrite bind_ok; [|apply getp_eq; cbn; by apply list_lookup_insert_eq].
  change (p_status (proc_set_lock _ x)) with (p_status x). case_decide as Hst.
  - erewrite bind_ok; [|apply setp_eq; cbn; by apply list_lookup_insert_eq].
    cbn [k_procs kernel_set_procs]. by rewrite list_insert_insert_eq.
  - pose proof (acquire_release_eq p s x Hx Hid Hc) as Hr.
    rewrite (bind_ok _ _ _ _ _ (acquire_proc_eq p s x Hx (proj1 Hid))) in Hr.
    by rewrite (bind_ok _ _ _ _ _ Hr).
Qed.

(** Taking and freeing an idle lock leaves the entry as it was. *)
Lemma relock_kont k st x :
  idle x ->
  (let y := proc_set_kont k (proc_set_status st (proc_set_lock (lock_held (p_lock x)) x)) in
   proc_set_lock (lock_free (p_lock y)) y) = proc_set_kont k (proc_set_status st x).
Proof.
  intros Hix. pose proof (lock_free_idle x Hix) as El.
  unfold proc_set_kont, proc_set_status, proc_set_lock, lock_free in *. cbn. by rewrite El.
Qed.

(* ------------------------------------------------------------------ *)
(** ** Properties *)

(** Through every properly nested sequence of [push_off] and [pop_off] that
    starts outside a section, interrupts are off as long as a section is open,
    and at the end of the outermost one they are as they were before it; nothing
    else changes. *)
Theorem interrupt_nesting s ops d :
  c_noff (k_cpu s) = 0 -> nest 0 ops = Some d -> Z.of_nat (length ops) < 2147483646 ->
  exists s', irq_run ops s = Ok tt s' /\ c_noff (k_cpu s') = Z.of_nat d /\
    c_sie (k_cpu s') = (if decide (d = O) then c_sie (k_cpu s) else false) /\
    exists c, s' = kernel_set_cpu c s.
Proof.
  intros Hn Hd Hl. destruct (irq_run_nested s ops s 0 d) as (s' & Hrun & [Hn' Hs' _ (c & _ & Hc)]).
  - split; [done|done|done|]. exists (k_cpu s). by destruct s.
  - done.
  - done.
  - exists s'. split; [done|]. split; [done|]. split; [by destruct d|]. by exists c.
Qed.

(** A spin lock excludes: after [acquire] it is held by this CPU with
    interrupts off, a second [acquire] never returns, and [release] makes it free
    and restores the interrupt state; [acquire] of a lock already taken spins
    for ever. *)
Theorem spinlock_excludes s i x :
  k_procs s !! i = Some x -> irq_ok (k_cpu s) ->
  (lk_locked (p_lock x) = 0 ->
     exists s1 s2, acquire (LkProc i) s = Ok tt s1 /\ holding (LkProc i) s1 = Ok true s1 /\
       c_sie (k_cpu s1) = false /\ acquire (LkProc i) s1 = Stop (Hang "acquire") /\
       release (LkProc i) s1 = Ok tt s2 /\ holding (LkProc i) s2 = Ok false s2 /\
       k_procs s2 = <[i := proc_set_lock (lock_free (p_lock x)) x]> (k_procs s) /\
       c_noff (k_cpu s2) = c_noff (k_cpu s) /\ c_sie (k_cpu s2) = c_sie (k_cpu s)) /\
  (lk_locked (p_lock x) <> 0 -> acquire (LkProc i) s = Stop (Hang "acquire")).
Proof.
  intros Hx Hc. split; [|intros Hl; by apply acquire_proc_hang with x]. intros Hl.
  assert (i < length (k_procs s))%nat as Hlt by (by eapply lookup_lt_Some).
  eexists _, _. split; [by apply acquire_proc_eq|].
  split. { erewrite holding_proc_eq; [|cbn; by apply list_lookup_insert_eq]. cbn. by rewrite Z.eqb_refl. }
  split; [done|]. split. { eapply acquire_proc_hang; [cbn; by apply list_lookup_insert_eq|done]. }
  split. { apply release_proc_eq. cbn. by apply list_lookup_insert_eq. }
  split. { erewrite holding_proc_eq; [|cbn; apply list_lookup_insert_eq; by rewrite length_insert]. done. }
  cbn [k_procs k_cpu kernel_set_procs kernel_set_cpu]. rewrite list_insert_insert_eq, cpu_pop_push by done.
  split; [by destruct x|]. by rewrite cpu_bal_noff, cpu_bal_sie.
Qed.

(** [wakeup] makes ready exactly the processes that sleep on the channel,
    the caller excepted, and changes nothing else. *)
Theorem wakeup_exact chan s :
  length (k_procs s) = NPROC -> irq_ok (k_cpu s) ->
  (forall i x, k_procs s !! i = Some x -> c_proc (k_cpu s) <> Some i -> idle x) ->
  exists s', wakeup chan s = Ok tt s' /\
    k_procs s' = imap (fun i x =>
      if negb (bool_decide (c_proc (k_cpu s) = Some i)) &&
         bool_decide (p_status x = TASK_SLEEPING) && (p_chan x =? chan)
      then proc_set_status TASK_READY x else x) (k_procs s) /\
    s' = kernel_set_procs (k_procs s') (kernel_set_cpu (k_cpu s') s) /\
    c_proc (k_cpu s') = c_proc (k_cpu s) /\ c_noff (k_cpu s') = c_noff (k_cpu s) /\
    c_sie (k_cpu s') = c_sie (k_cpu s).
Proof.
  intros Hl Hc Hid.
  destruct (wp_inv _ _ _ (wakeup_wp chan s Hl Hc ltac:(intros i x Hx Hne; by apply (Hid i x))))
    as ([] & s' & Hrun & Hs' & Hb).
  exists s'. split; [done|]. split; [|split].
  - rewrite Hs'. cbn [k_procs kernel_set_procs]. apply list_eq. intros i. rewrite !list_lookup_imap.
    destruct (k_procs s !! i) as [x|] eqn:Hx; [|done]. cbn. unfold woken. f_equal.
    destruct (decide (c_proc (k_cpu s) = Some i)) as [He|Hne].
    + by rewrite (bool_decide_true (c_proc (k_cpu s) = Some i)) by done.
    + rewrite (bool_decide_false (c_proc (k_cpu s) = Some i)) by done. cbn [negb andb].
      by rewrite idle_lock by (by apply (Hid i x)).
  - rewrite Hs' at 1. by rewrite Hs' at 2.
  - rewrite <- (cpu_bal_proc (k_cpu s')), <- (cpu_bal_noff (k_cpu s')), <- (cpu_bal_sie (k_cpu s')), Hb.
    by rewrite cpu_bal_proc, cpu_bal_noff, cpu_bal_sie.
Qed.

(** [allocproc] gives out the first free entry, with a fresh pid, a page of
    its own for the trap frame, its other fields reset and its lock free, and
    changes no other entry; without a free entry or a page it returns NULL and
    every entry that was free stays free. *)
Theorem allocproc_first `{!ImageOk} s pages :
  length (k_procs s) = NPROC -> irq_ok (k_cpu s) -> Forall idle (k_procs s) ->
  kmem_inv (f_km (k_fs s)) pages ->
  (forall p x tf rest, first_free s p x -> pages = tf :: rest ->
     exists s', allocproc s = Ok (Some p) s' /\
       k_procs s' = <[p := fresh_proc (k_nextpid s) tf x]> (k_procs s) /\
       k_nextpid s' = s32 (k_nextpid s + 1) /\ kmem_inv (f_km (k_fs s')) rest) /\
  (forall p x, first_free s p x -> pages = [] ->
     exists s', allocproc s = Ok None s' /\ k_procs s' = <[p := failed_proc (k_nextpid s) x]> (k_procs s)) /\
  ((forall k x, k_procs s !! k = Some x -> p_status x <> TASK_FREE) ->
     exists s', allocproc s = Ok None s' /\ k_procs s' = k_procs s /\ k_nextpid s' = k_nextpid s).
Proof.
  intros Hl Hc Hid Hpages. split; [|split].
  - intros p x tf rest Hff ->.
    destruct (allocproc_some s p x _ Hl Hc Hid Hff Hpages) as (c & km' & _ & _ & Hi & Hrun).
    eexists. split; [exact Hrun|]. split; [done|]. split; [done|exact Hi].
  - intros p x Hff ->.
    destruct (allocproc_some s p x _ Hl Hc Hid Hff Hpages) as (c & km' & _ & _ & Hi & Hrun).
    eexists. split; [exact Hrun|]. done.
  - intros Hall. destruct (allocproc_none s Hl Hc Hid Hall) as (c & Hrun & _).
    eexists. split; [exact Hrun|]. done.
Qed.

(** On the way into [sleep] interrupts are off, and the pipe's lock or the
    process's own lock is held. *)
Lemma sleep_guarded chan pi s p x n :
  c_proc (k_cpu s) = Some p -> k_procs s !! p = Some x -> idle x ->
  c_noff (k_cpu s) = 1 -> c_sie (k_cpu s) = false -> rd32 (k_mem s) pi <> 0 ->
  exists t, run_all (take n (sleep_actions p chan (LkPipe pi))) s = Ok tt t /\ c_sie (k_cpu t) = false /\
    (rd32 (k_mem t) pi <> 0 \/ exists y, k_procs t !! p = Some y /\ lk_locked (p_lock y) <> 0).
Proof.
  intros Hp Hx Hid Hn Hi Hm. assert (p < length (k_procs s))%nat as Hlt by (by eapply lookup_lt_Some).
  destruct (sleep_calls chan pi s p x Hp Hx Hid Hn Hi) as (E1 & E2 & E3 & E4 & E5).
  unfold sleep_actions. rewrite decide_False by done. cbn [app].
  assert (forall y, lk_locked (p_lock y) <> 0 -> exists y', <[p := y]> (k_procs s) !! p = Some y' /\ lk_locked (p_lock y') <> 0) as Hown.
  { intros y Hy. exists y. by rewrite list_lookup_insert_eq. }
  destruct n as [|[|[|[|[|n]]]]]; cbn [take run_all]; rewrite ?(bind_ok _ _ _ _ _ E1), ?(bind_ok _ _ _ _ _ E2),
    ?(bind_ok _ _ _ _ _ E3), ?(bind_ok _ _ _ _ _ E4), ?take_nil, ?(bind_ok _ _ _ _ _ E5);
    eexists; (split; [reflexivity|]); (split; [done|]); try (by left); right; by apply Hown.
Qed.

(** C8: no wakeup is lost: a process that calls [sleep] with a pipe's lock held
    keeps interrupts off, and after every call [sleep] makes on the way it holds
    the pipe's lock or its own lock, which [wakeup] needs to see it: from the
    moment the pipe's lock is free no wakeup can come before it is asleep on the
    channel. It gives up the CPU asleep, with the pipe's lock free; the scheduler
    then runs without a process, and a [wakeup] of the channel from there makes
    the process ready to go on where it slept. *)
Theorem sleep_wakeup (A : Type) chan pi k s p x :
  length (k_procs s) = NPROC -> Forall idle (k_procs s) ->
  c_proc (k_cpu s) = Some p -> k_procs s !! p = Some x ->
  c_noff (k_cpu s) = 1 -> c_sie (k_cpu s) = false -> rd32 (k_mem s) pi <> 0 ->
  (forall n, exists t, run_all (take n (sleep_actions p chan (LkPipe pi))) s = Ok tt t /\ c_sie (k_cpu t) = false /\
    (rd32 (k_mem t) pi <> 0 \/ exists y, k_procs t !! p = Some y /\ lk_locked (p_lock y) <> 0)) /\
  exists s1 s2 s3, sleep (A := A) chan (LkPipe pi) k s = Sleep chan s1 /\ rd32 (k_mem s1) pi = 0 /\
    (exists y, k_procs s1 !! p = Some y /\ p_status y = TASK_SLEEPING /\ p_chan y = chan /\
       lk_locked (p_lock y) <> 0) /\
    scheduler_return p s1 = Ok tt s2 /\ c_proc (k_cpu s2) = None /\ c_noff (k_cpu s2) = 0 /\
    wakeup chan s2 = Ok tt s3 /\ Forall idle (k_procs s3) /\
    exists y, k_procs s3 !! p = Some y /\ p_status y = TASK_READY /\ p_kont y = k.
Proof.
  intros Hl Hid Hp Hx Hn Hi Hm. split; [intros n; exact (sleep_guarded chan pi s p x n Hp Hx (Forall_lookup_1 _ _ _ _ Hid Hx) Hn Hi Hm)|].
  clear Hm. revert Hl Hid Hp Hx Hn Hi.
  intros Hl Hid Hp Hx Hn Hi. pose proof (Forall_lookup_1 _ _ _ _ Hid Hx) as Hix.
  assert (p < length (k_procs s))%nat as Hlt by (by eapply lookup_lt_Some).
  set (s1 := kernel_set_procs (<[p := asleep chan k x]> (k_procs s))
    (set_mem (wr32 (wr64 (k_mem s) (pi + 16) 0) pi 0) s)).
  set (y := proc_set_lock (lock_free (p_lock x)) (asleep chan k x)).
  set (s2 := kernel_set_procs (<[p := y]> (k_procs s1))
    (kernel_set_cpu (cpu_pop (cpu_set_proc None (k_cpu s))) s1)).
  assert (scheduler_return p s1 = Ok tt s2) as Hret.
  { rewrite (scheduler_return_eq s1 p (asleep chan k x)); [done|]. by apply list_lookup_insert_eq. }
  assert (k_procs s2 = <[p := y]> (k_procs s)) as Hps by (unfold s2, s1; cbn; by rewrite list_insert_insert_eq).
  assert (Forall idle (k_procs s2)) as Hid2 by (rewrite Hps; apply Forall_insert; [done|by split]).
  assert (c_noff (k_cpu s2) = 0 /\ c_proc (k_cpu s2) = None) as [Hn2 Hp2].
  { unfold s2. cbn -[s32]. rewrite Hn. done. }
  destruct (wp_inv _ _ _ (wakeup_wp chan s2 ltac:(rewrite Hps, length_insert; done)
    ltac:(split; [by rewrite Hn2|by rewrite Hn2])
    ltac:(intros j z Hz _; by apply (Forall_lookup_1 _ _ _ _ Hid2 Hz)))) as ([] & s3 & Hrun & Hs3 & _).
  exists s1, s2, s3. split; [by apply sleep_pipe_eq|].
  split; [unfold s1; cbn [k_procs k_mem kernel_set_procs]; apply rd32_wr32_eq|].
  split; [eexists; split; [by apply list_lookup_insert_eq|done]|].
  split; [done|]. split; [done|]. split; [done|].
  split; [done|]. assert (k_procs s3 = imap (woken None chan) (<[p := y]> (k_procs s))) as Hp3.
  { rewrite Hs3. cbn [k_procs kernel_set_procs]. by rewrite Hp2, Hps. }
  split.
  - rewrite Hp3. rewrite <- Hps. apply Forall_lookup_2. intros j z. rewrite list_lookup_imap.
    destruct (k_procs s2 !! j) as [w|] eqn:Hw; [|done]. cbn. intros [= <-].
    unfold woken. rewrite decide_False by done. destruct (_ && _); by split.
  - exists (woken None chan p y). split; [rewrite Hp3, list_lookup_imap; by rewrite list_lookup_insert_eq|].
    unfold woken. rewrite decide_False by done. cbn. rewrite bool_decide_true, Z.eqb_refl by done. done.
Qed.

(** A process that yields is ready and off the CPU, with no interrupt
    section open, and when the scheduler dispatches it again it returns from
    [yield] running, with its lock free and everything it owned unchanged; the
    scheduler dispatches no process that is not ready. *)
Theorem yield_round_trip (A : Type) s p x k :
  c_proc (k_cpu s) = Some p -> k_procs s !! p = Some x -> idle x ->
  p_status x = TASK_RUNNING -> c_noff (k_cpu s) = 0 ->
  exists s1 s2 s3 s4, yield (A := A) k s = Sleep (p_chan x) s1 /\
    scheduler_return p s1 = Ok tt s2 /\ c_proc (k_cpu s2) = None /\ c_noff (k_cpu s2) = 0 /\
    k_procs s2 = <[p := proc_set_kont k (proc_set_status TASK_READY x)]> (k_procs s) /\
    scheduler_dispatch p s2 = Ok true s3 /\ yield_resume s3 = Ok tt s4 /\
    c_proc (k_cpu s4) = Some p /\ c_noff (k_cpu s4) = 0 /\
    k_procs s4 = <[p := proc_set_kont k x]> (k_procs s) /\
    (forall i y, k_procs s2 !! i = Some y -> idle y -> p_status y <> TASK_READY ->
       exists s5, scheduler_dispatch i s2 = Ok false s5 /\ k_procs s5 = k_procs s2).
Proof.
  intros Hp Hx Hix Hst Hn. assert (p < length (k_procs s))%nat as Hlt by (by eapply lookup_lt_Some).
  pose proof (yield_eq (A := A) s p x k Hp Hx Hix Hn) as Hy. set (s1 := kernel_set_procs _ _) in Hy.
  assert (k_procs s1 !! p = Some _) as Hx1 by (by apply list_lookup_insert_eq).
  pose proof (scheduler_return_eq s1 p _ Hx1) as Hret. rewrite relock_kont in Hret by done.
  set (x2 := proc_set_kont k (proc_set_status TASK_READY x)) in *.
  set (s2 := kernel_set_procs _ _) in Hret.
  assert (k_procs s2 = <[p := x2]> (k_procs s)) as Hps by (cbn; by rewrite list_insert_insert_eq).
  assert (c_noff (k_cpu s2) = 0) as Hn2 by (cbn -[s32]; by rewrite Hn).
  assert (irq_ok (k_cpu s2)) as Hc2 by (split; by rewrite Hn2).
  assert (k_procs s2 !! p = Some x2) as Hx2 by (rewrite Hps; by apply list_lookup_insert_eq).
  destruct (dispatch_eq s2 p x2 Hx2 Hix Hc2) as [c0 Hd]. rewrite decide_True in Hd by done.
  set (x3 := proc_set_status TASK_RUNNING _) in Hd. set (s3 := kernel_set_cpu _ _) in Hd.
  assert (k_procs s3 !! p = Some x3) as Hx3 by (apply list_lookup_insert_eq; by eapply lookup_lt_Some).
  eexists s1, s2, s3, _. split; [exact Hy|]. split; [exact Hret|]. do 3 (split; [done|]). split; [exact Hd|].
  split. { unfold yield_resume. rewrite (bind_ok _ _ s3 p s3) by done. by apply release_proc_eq. }
  cbn [k_cpu k_procs kernel_set_procs kernel_set_cpu]. split; [done|].
  split. { change (s32 (s32 (c_noff (k_cpu s2) + 1) - 1) = 0). by rewrite Hn2. }
  split.
  - unfold s3. cbn [k_procs kernel_set_procs kernel_set_cpu].
    rewrite list_insert_insert_eq, Hps, list_insert_insert_eq. f_equal.
    pose proof (lock_free_idle x Hix) as El. unfold x3, x2, proc_set_kont, proc_set_status, proc_set_lock, lock_free in *.
    cbn. by rewrite El, Hst.
  - intros i z Hz Hiz Hnr. destruct (dispatch_eq s2 i z Hz Hiz Hc2) as [c Hd2].
    rewrite decide_False in Hd2 by done. by eexists.
Qed.
End spec.

(* ------------------------------------------------------------------ *)
(** ** A concrete process table *)

Section witnesses.
#[local] Existing Instance sample_image.
#[local] Existing Instance sample_image_ok.

(** Entry 0 runs (inside one section), entry 1 sleeps on channel 77, one page is
    free. *)
Definition sample_procs : list proc :=
  <[0%nat := proc_set_status TASK_RUNNING proc0]>
    (<[1%nat := proc_set_chan 77 (proc_set_status TASK_SLEEPING proc0)]> (replicate NPROC proc0)).
Definition sample_kernel (noff : Z) : kernel memdisk :=
  let k := kernel0 (D := memdisk) ∅ ∅ in
  kernel_set_procs sample_procs (kernel_set_cpu (Cpu (Some 0%nat) noff 0 false)
    (kernel_set_fs (Fs (KMem ∅ (PHYSTOP - PGSIZE)) (f_bio (k_fs k)) (icache (k_fs k))) k)).

Lemma idle0 : idle proc0.
Proof. by split. Qed.
Lemma sample_procs_idle : Forall idle sample_procs.
Proof.
  unfold sample_procs. apply Forall_insert; [|exact idle0].
  apply Forall_insert; [|exact idle0]. apply Forall_replicate, idle0.
Qed.
Lemma sample_irq noff : 0 <= noff < 1000 -> irq_ok (k_cpu (sample_kernel noff)).
Proof. intros. split; cbn; [lia|done]. Qed.
Lemma sample_page : kmem_inv (KMem ∅ (PHYSTOP - PGSIZE)) [PHYSTOP - PGSIZE].
Proof.
  split; [split; [reflexivity|vm_compute; reflexivity]|apply NoDup_singleton|].
  constructor; [|constructor]. split; [reflexivity|split; vm_compute; discriminate].
Qed.

Lemma interrupt_nesting_witness :
  exists s', irq_run [true; true; false] (sample_kernel 0) = Ok tt s' /\ c_sie (k_cpu s') = false.
Proof.
  destruct (interrupt_nesting (sample_kernel 0) [true; true; false] 1 eq_refl eq_refl ltac:(cbn; lia))
    as (s' & Hrun & _ & Hs & _).
  exists s'. split; [exact Hrun|exact Hs].
Defined.

Lemma spinlock_excludes_witness :
  exists s1, acquire (LkProc 1) (sample_kernel 0) = Ok tt s1 /\
    acquire (LkProc 1) s1 = Stop (Hang "acquire").
Proof.
  destruct (proj1 (spinlock_excludes (sample_kernel 0) 1 _ eq_refl (sample_irq 0 ltac:(lia))) eq_refl)
    as (s1 & s2 & Hr & _ & _ & Hh & _).
  exists s1. split; [exact Hr|exact Hh].
Defined.

Lemma wakeup_exact_witness :
  exists s', wakeup 77 (sample_kernel 0) = Ok tt s' /\
    (p_status <$> k_procs s' !! 1%nat) = Some TASK_READY /\
    (p_status <$> k_procs s' !! 2%nat) = Some TASK_FREE.
Proof.
  destruct (wakeup_exact 77 (sample_kernel 0) eq_refl (sample_irq 0 ltac:(lia))
    ltac:(intros i x Hx _; exact (Forall_lookup_1 _ _ _ _ sample_procs_idle Hx)))
    as (s' & Hrun & Hp & _).
  exists s'. split; [exact Hrun|]. rewrite Hp. split; reflexivity.
Defined.

Lemma allocproc_first_witness :
  exists s', allocproc (sample_kernel 0) = Ok (Some 2%nat) s' /\
    k_procs s' = <[2%nat := fresh_proc 1 (PHYSTOP - PGSIZE) proc0]> sample_procs.
Proof.
  destruct (allocproc_first (sample_kernel 0) _ eq_refl (sample_irq 0 ltac:(lia))
    sample_procs_idle sample_page) as (Hok & _).
  destruct (Hok 2%nat proc0 (PHYSTOP - PGSIZE) []) as (s' & Hrun & Hp & _).
  - split; [reflexivity|]. split; [reflexivity|]. intros [|[|k]] y Hk Hy; [| |lia].
    + injection Hy as <-. discriminate.
    + injection Hy as <-. discriminate.
  - reflexivity.
  - exists s'. split; [exact Hrun|exact Hp].
Defined.

(** Process 0 with the lock of a pipe at 4096. *)
Definition locked_kernel := set_mem (wr32 ∅ 4096 1) (sample_kernel 1).
Lemma sleep_wakeup_witness :
  exists s1 s2 s3, sleep (A := unit) 99 (LkPipe 4096) KNone locked_kernel = Sleep 99 s1 /\ rd32 (k_mem s1) 4096 = 0 /\
    scheduler_return 0 s1 = Ok tt s2 /\ wakeup 99 s2 = Ok tt s3 /\
    (p_status <$> k_procs s3 !! 0%nat) = Some TASK_READY.
Proof.
  destruct (sleep_wakeup unit 99 4096 KNone locked_kernel 0 _ eq_refl sample_procs_idle
    eq_refl eq_refl eq_refl eq_refl ltac:(vm_compute; discriminate))
    as (_ & s1 & s2 & s3 & Hs & Hm & _ & Hr & _ & _ & Hw & _ & y & Hy & Hst & _).
  exists s1, s2, s3. split; [exact Hs|]. split; [exact Hm|]. split; [exact Hr|]. split; [exact Hw|].
  rewrite Hy. cbn. by rewrite Hst.
Defined.

Lemma yield_round_trip_witness :
  exists s1 s2, yield (A := unit) KYield (sample_kernel 0) = Sleep 0 s1 /\
    scheduler_return 0 s1 = Ok tt s2 /\ c_proc (k_cpu s2) = None.
Proof.
  destruct (yield_round_trip unit (sample_kernel 0) 0 _ KYield eq_refl eq_refl idle0 eq_refl eq_refl)
    as (s1 & s2 & _ & _ & Hy & Hr & Hc & _).
  exists s1, s2. split; [exact Hy|]. split; [exact Hr|exact Hc].
Defined.
End witnesses.
