(* ===== verification/WakeSpec.v ===== *)
(** What a sequence of [wakeup]s does to the kernel's state, in a form that
    composes: the processes asleep on one of a set of channels become ready and
    nothing else changes. The specifications of the console and of the disk
    driver are stated with it. *)

From S2P Require Import Prelude Memory Kalloc Vm Str Bio Fs Kernel Spinlock Proc ProcSpec.

(** The sleepers on the channels of [P], the running process [cur] excepted,
    made ready. *)
Definition wake_one (P : Z -> bool) (x : proc) : proc :=
  if bool_decide (p_status x = TASK_SLEEPING) && P (p_chan x)
  then proc_set_status TASK_READY x else x.
Definition wake_procs (P : Z -> bool) (cur : option nat) (l : list proc) : list proc :=
  imap (fun i x => if decide (cur = Some i) then x else wake_one P x) l.

Section wake.
Context `{Image} {D : Type} `{BlockDev D}.
Implicit Types s : kernel D.

(** A state in which [wakeup] can take the locks it needs. *)
Record ready s : Prop := {
  rdy_len : length (k_procs s) = NPROC;
  rdy_irq : irq_ok (k_cpu s);
  rdy_idle : forall i x, k_procs s !! i = Some x -> c_proc (k_cpu s) <> Some i -> idle x;
}.

(** Two CPU states that differ at most in the saved interrupt flag, outside
    every section. *)
Definition same_cpu (c c' : cpu) : Prop := cpu_bal c' = cpu_bal c.
#[global] Instance same_cpu_equiv : Equivalence same_cpu.
Proof. split; unfold same_cpu; [intros ?|intros ???|intros ?????]; congruence. Qed.

Lemma sc_proc c c' : same_cpu c c' -> c_proc c' = c_proc c.
Proof. intros E. by rewrite <- (cpu_bal_proc c'), E, cpu_bal_proc. Qed.
Lemma sc_noff c c' : same_cpu c c' -> c_noff c' = c_noff c.
Proof. intros E. by rewrite <- (cpu_bal_noff c'), E, cpu_bal_noff. Qed.
Lemma sc_sie c c' : same_cpu c c' -> c_sie c' = c_sie c.
Proof. intros E. by rewrite <- (cpu_bal_sie c'), E, cpu_bal_sie. Qed.
Lemma sc_irq c c' : same_cpu c c' -> irq_ok c -> irq_ok c'.
Proof. intros E [Hr Ho]. split; rewrite (sc_noff _ _ E), ?(sc_sie _ _ E); done. Qed.

(** A section entered, some balanced work, and the section left. *)
Lemma cpu_push_noff c : irq_ok c -> c_noff (cpu_push c) = c_noff c + 1.
Proof. intros [Hr _]. unfold cpu_push. cbn -[s32]. apply s32_id. lia. Qed.
Lemma cpu_bal_in c : c_noff c <> 0 -> cpu_bal c = c.
Proof. intros Hn. unfold cpu_bal. by rewrite (proj2 (Z.eqb_neq _ _)). Qed.
Lemma same_cpu_section c c' : irq_ok c -> same_cpu (cpu_push c) c' -> same_cpu c (cpu_pop c').
Proof.
  intros Hc E. assert (c_noff (cpu_push c) <> 0) as Hn by (destruct Hc; rewrite cpu_push_noff by done; lia).
  assert (c' = cpu_push c) as ->.
  { unfold same_cpu in E. rewrite !cpu_bal_in in E by (rewrite ?(sc_noff _ _ E); done). done. }
  unfold same_cpu. by rewrite cpu_pop_push, cpu_bal_bal.
Qed.
Lemma irq_ok_push c : irq_ok c -> c_noff c < 2147483645 -> irq_ok (cpu_push c).
Proof. intros Hc Hn. split; rewrite ?cpu_push_noff by done; [destruct Hc; lia|done]. Qed.

Record woke (P : Z -> bool) s s' : Prop := {
  wk_state : s' = kernel_set_procs (wake_procs P (c_proc (k_cpu s)) (k_procs s))
                    (kernel_set_cpu (k_cpu s') s);
  wk_cpu : same_cpu (k_cpu s) (k_cpu s');
}.

Lemma wake_procs_none cur l : wake_procs (fun _ => false) cur l = l.
Proof.
  apply imap_id. intros i x. unfold wake_one. rewrite andb_false_r. by destruct (decide _).
Qed.

Lemma wake_one_or P Q x : wake_one Q (wake_one P x) = wake_one (fun c => P c || Q c) x.
Proof.
  unfold wake_one. destruct (bool_decide (p_status x = TASK_SLEEPING)) eqn:Hs, (P (p_chan x)) eqn:HP;
    cbn; rewrite ?Hs; try done.
Qed.

Lemma wake_procs_or P Q cur l :
  wake_procs Q cur (wake_procs P cur l) = wake_procs (fun c => P c || Q c) cur l.
Proof.
  apply list_eq. intros i. unfold wake_procs. rewrite !list_lookup_imap.
  destruct (l !! i); [|done]. cbn. destruct (decide _); [done|]. by rewrite wake_one_or.
Qed.

Lemma wake_one_lock P x : p_lock (wake_one P x) = p_lock x.
Proof. unfold wake_one. by destruct (_ && _). Qed.

Lemma woke_refl s : woke (fun _ => false) s s.
Proof. split; [|done]. rewrite wake_procs_none. by destruct s. Qed.

Lemma woke_trans P Q s1 s2 s3 :
  woke P s1 s2 -> woke Q s2 s3 -> woke (fun c => P c || Q c) s1 s3.
Proof.
  intros [E1 C1] [E2 C2]. split; [|by transitivity (k_cpu s2)].
  rewrite E2 at 1. rewrite (sc_proc _ _ C1), <- wake_procs_or.
  rewrite E1. done.
Qed.

Lemma ready_woke P s s' : ready s -> woke P s s' -> ready s'.
Proof.
  intros [Hl Hc Hi] [E C]. split.
  - rewrite E. cbn. unfold wake_procs. by rewrite length_imap.
  - by apply sc_irq with (k_cpu s).
  - rewrite (sc_proc _ _ C). intros i x Hx Hne. rewrite E in Hx. cbn [k_procs kernel_set_procs] in Hx.
    unfold wake_procs in Hx. rewrite list_lookup_imap in Hx.
    destruct (k_procs s !! i) as [y|] eqn:Hy; [|done]. cbn in Hx. rewrite decide_False in Hx by done.
    injection Hx as <-. unfold idle. rewrite wake_one_lock. by apply (Hi i y Hy).
Qed.

(** A state with a section entered. *)
Definition pushed s : kernel D := kernel_set_cpu (cpu_push (k_cpu s)) s.
Definition popped s : kernel D := kernel_set_cpu (cpu_pop (k_cpu s)) s.
Lemma ready_pushed s : ready s -> c_noff (k_cpu s) < 2147483645 -> ready (pushed s).
Proof. intros [Hl Hc Hi] Hn. split; [done|by apply irq_ok_push|done]. Qed.
Lemma woke_section P s s' : irq_ok (k_cpu s) -> woke P (pushed s) s' -> woke P s (popped s').
Proof.
  intros Hc [E C]. split; [|by apply same_cpu_section]. unfold popped. by rewrite E.
Qed.

Lemma woke_ext P Q s s' : (forall c, P c = Q c) -> woke P s s' -> woke Q s s'.
Proof.
  intros HPQ [E C]. split; [|done]. rewrite E at 1. f_equal. apply imap_ext. intros i x _.
  unfold wake_one. by rewrite HPQ.
Qed.
Lemma woke_same P s1 s2 s3 : woke P s1 s2 -> woke P s2 s3 -> woke P s1 s3.
Proof.
  intros W1 W2. eapply woke_ext; [|exact (woke_trans _ _ _ _ _ W1 W2)].
  intros c. cbn. by rewrite orb_diag.
Qed.

(** A single [wakeup]. *)
Lemma wakeup_woke chan s :
  ready s -> exists s', wakeup chan s = Ok tt s' /\ woke (fun c => c =? chan) s s'.
Proof.
  intros [Hl Hc Hi].
  destruct (wp_inv _ _ _ (wakeup_wp chan s Hl Hc ltac:(intros i x Hx Hne; by apply (Hi i x))))
    as ([] & s' & Hrun & Hs' & Hb).
  exists s'. split; [done|]. split; [|exact Hb]. rewrite Hs' at 1. f_equal. apply imap_ext.
  intros i x Hx. unfold woken, wake_one. destruct (decide _) as [He|Hne]; [done|].
  cbn zeta. by rewrite idle_lock by (by apply (Hi i x)).
Qed.

(** The parts of the state no [wakeup] touches. *)
Lemma woke_fs P s s' : woke P s s' -> k_fs s' = k_fs s.
Proof. intros [-> _]. done. Qed.
Lemma woke_cons P s s' : woke P s s' -> k_cons s' = k_cons s.
Proof. intros [-> _]. done. Qed.
Lemma woke_procs P s s' :
  woke P s s' -> k_procs s' = wake_procs P (c_proc (k_cpu s)) (k_procs s).
Proof. intros [-> _]. done. Qed.

Lemma ready_set_fs f s : ready s -> ready (kernel_set_fs f s).
Proof. intros [? ? ?]. by split. Qed.
Lemma ready_set_cons f s : ready s -> ready (kernel_set_cons f s).
Proof. intros [? ? ?]. by split. Qed.

(** Work on the file system's state or the console commutes with waking. *)
Lemma woke_set_fs P f s s' :
  woke P (kernel_set_fs f s) s' -> exists t, woke P s t /\ s' = kernel_set_fs f t.
Proof.
  intros [E C]. exists (kernel_set_fs (k_fs s) s'). split; [split; [|exact C]|]; rewrite E; by destruct s.
Qed.
Lemma woke_set_cons P f s s' :
  woke P (kernel_set_cons f s) s' -> exists t, woke P s t /\ s' = kernel_set_cons f t.
Proof.
  intros [E C]. exists (kernel_set_cons (k_cons s) s'). split; [split; [|exact C]|]; rewrite E; by destruct s.
Qed.

(** A woken process was asleep on one of the channels. *)
Lemma wake_procs_lookup P cur l i x :
  l !! i = Some x -> cur <> Some i -> p_status x = TASK_SLEEPING -> P (p_chan x) = true ->
  wake_procs P cur l !! i = Some (proc_set_status TASK_READY x).
Proof.
  intros Hx Hne Hs HP. unfold wake_procs, wake_one. rewrite list_lookup_imap, Hx. cbn.
  by rewrite decide_False, bool_decide_true, HP by done.
Qed.

(** A loop over the process table whose body changes one entry at a time. *)
Lemma each_proc (body : nat -> M (kernel D) unit) (g : nat -> proc -> proc) s :
  length (k_procs s) = NPROC ->
  (forall i x s1, same_cpu (k_cpu s) (k_cpu s1) -> k_procs s !! i = Some x -> k_procs s1 !! i = Some x ->
     exists c, same_cpu (k_cpu s1) c /\
       body i s1 = Ok tt (kernel_set_procs (<[i := g i x]> (k_procs s1)) (kernel_set_cpu c s1))) ->
  exists c, same_cpu (k_cpu s) c /\
    for_range 0 NPROC body s = Ok tt (kernel_set_procs (imap g (k_procs s)) (kernel_set_cpu c s)).
Proof.
  intros Hlen Hbody.
  pose (I := fun (j : nat) s' => exists c, same_cpu (k_cpu s) c /\
    s' = kernel_set_procs (imap (fun i x => if decide (i < j)%nat then g i x else x) (k_procs s))
           (kernel_set_cpu c s)).
  assert (wp (for_range 0 NPROC body) (fun _ s' => I (0 + NPROC)%nat s') s) as Hwp.
  { apply (wp_for_range _ I).
    - intros j s1 Hj (c & Hc & ->).
      destruct (lookup_lt_is_Some_2 (k_procs s) j) as [x Hx]; [lia|].
      set (s1 := kernel_set_procs _ _).
      assert (k_procs s1 !! j = Some x) as Hx1.
      { unfold s1. cbn. rewrite list_lookup_imap, Hx. cbn. by rewrite decide_False by lia. }
      destruct (Hbody j x s1 Hc Hx Hx1) as (c' & Hc' & Hrun). eapply wp_of_eq; [exact Hrun|].
      exists c'. split; [by transitivity c|]. unfold s1. cbn [k_procs kernel_set_procs kernel_set_cpu].
      rewrite set_procs_cpu. f_equal. apply list_eq. intros i.
      rewrite list_lookup_insert, !list_lookup_imap, length_imap. case_decide as Hji.
      + destruct Hji as [-> _]. rewrite Hx. cbn. by rewrite decide_True by lia.
      + destruct (k_procs s !! i) as [y|] eqn:Hy; [|done]. apply lookup_lt_Some in Hy. cbn. f_equal.
        repeat case_decide; try done; lia.
    - exists (k_cpu s). split; [done|]. rewrite imap_id; [by destruct s|]. intros i x.
      by rewrite decide_False by lia. }
  destruct (wp_inv _ _ _ Hwp) as ([] & s' & Hrun & c & Hc & ->). exists c. split; [done|].
  rewrite Hrun. do 2 f_equal. apply imap_ext. intros i x Hx. apply lookup_lt_Some in Hx.
  by rewrite decide_True by lia.
Qed.
End wake.
