(* ===== verification/Pipe.v ===== *)
(** Pipes: [pipewrite], [piperead] and [pipeclose] of
    [kernel/syscall/sysfile.c]. A pipe lives in a page of its own, so its fields
    are words of memory. *)

From S2P Require Import Prelude Memory Kalloc Vm Str Bio Fs Kernel Spinlock Proc.

Definition PIPESIZE : Z := 512.
(** Offsets of the fields of [struct pipe] after its lock. *)
Definition PI_data : Z := 24.
Definition PI_nread : Z := 536.
Definition PI_nwrite : Z := 540.
Definition PI_readopen : Z := 544.
Definition PI_writeopen : Z := 548.

Section pipe.
Context `{Image} {D : Type} `{BlockDev D}.

Definition pi_ld (pi off : Z) : M (kernel D) Z := lmem (ld32 (pi + off)).
Definition pi_st (pi off v : Z) : M (kernel D) unit := lmem (st32 (pi + off) v).

(** [release(&pi->lock); return r] *)
Definition pipe_return {A} (pi r : Z) : M (kernel D) (A + Z) :=
  release (LkPipe pi) ;;; ret (inr r).

(** One round of the loop of [pipewrite]; the loop variable is [i]. When the
    pipe is full the process sleeps, to go on as [k i] says. *)
Definition pipewrite_body (k : Z -> kont) (pi : Z) (buf : list Z) (n : Z) (i : Z)
    : M (kernel D) (Z + Z) :=
  if negb (i <? n) then wakeup (pi + PI_nread) ;;; pipe_return pi i
  else
    let! p := myproc in
    let! x := getp p in
    if negb (p_killed x =? 0) then pipe_return pi (-1)
    else
      let! readopen := pi_ld pi PI_readopen in
      if readopen =? 0 then pipe_return pi (-1)
      else
        let! nwrite := pi_ld pi PI_nwrite in
        let! nread := pi_ld pi PI_nread in
        if u32 (nwrite - nread) =? PIPESIZE then
          wakeup (pi + PI_nread) ;;;
          sleep (pi + PI_nwrite) (LkPipe pi) (k i)
        else
          lmem (st8 (pi + PI_data + nwrite mod PIPESIZE) (zget buf i)) ;;;
          pi_st pi PI_nwrite (u32 (nwrite + 1)) ;;;
          ret (inl (i + 1)).

Definition pipewrite_loop (k : Z -> kont) (pi : Z) (buf : list Z) (n : Z) (i : Z)
    : M (kernel D) Z :=
  loop (Z.to_nat (n - i) + 1) (pipewrite_body k pi buf n) i.

Definition pipewrite (k : Z -> kont) (pi : Z) (buf : list Z) (n : Z) : M (kernel D) Z :=
  acquire (LkPipe pi) ;;;
  pipewrite_loop k pi buf n 0.

(** The process that slept at index [i] runs again. *)
Definition pipewrite_resume (k : Z -> kont) (pi : Z) (buf : list Z) (n : Z) (i : Z)
    : M (kernel D) Z :=
  sleep_resume (LkPipe pi) ;;;
  let! p := myproc in
  let! x := getp p in
  if negb (p_killed x =? 0) then release (LkPipe pi) ;;; ret (-1)
  else pipewrite_loop k pi buf n i.

(** One round of the copying loop of [piperead]; the loop variable is [i]. *)
Definition piperead_body (pi addr n : Z) (i : Z) : M (kernel D) (Z + Z) :=
  let! nwrite := pi_ld pi PI_nwrite in
  let! nread := pi_ld pi PI_nread in
  if negb ((i <? n) && negb (nwrite =? nread)) then
    wakeup (pi + PI_nwrite) ;;; pipe_return pi i
  else
    let! p := myproc in
    let! x := getp p in
    let va_page := PGROUNDDOWN (u64 (addr + i)) in
    let offset := u64 (addr + i) - va_page in
    let! pte := lmem (walk (p_pagetable x) va_page false) in
    if pte =? 0 then pipe_return pi (-1)
    else
      let! v := lmem (ld64 pte) in
      if negb (has v PTE_V) then pipe_return pi (-1)
      else
        let! c := lmem (ld8 (pi + PI_data + nread mod PIPESIZE)) in
        lmem (st8 (PTE2PA v + offset) c) ;;;
        (let! nread := pi_ld pi PI_nread in pi_st pi PI_nread (u32 (nread + 1))) ;;;
        ret (inl (i + 1)).

(** [piperead] with the lock held: wait while the pipe is empty, then copy. *)
Definition piperead_loop (pi addr n : Z) : M (kernel D) Z :=
  let! nwrite := pi_ld pi PI_nwrite in
  let! nread := pi_ld pi PI_nread in
  if nwrite =? nread then
    let! p := myproc in
    let! x := getp p in
    if negb (p_killed x =? 0) then release (LkPipe pi) ;;; ret (-1)
    else
      let! writeopen := pi_ld pi PI_writeopen in
      if writeopen =? 0 then release (LkPipe pi) ;;; ret 0
      else
        wakeup (pi + PI_nwrite) ;;;
        sleep (pi + PI_nread) (LkPipe pi) (KPipeRead pi addr n)
  else loop (Z.to_nat n + 1) (piperead_body pi addr n) 0.

Definition piperead (pi addr n : Z) : M (kernel D) Z :=
  acquire (LkPipe pi) ;;;
  piperead_loop pi addr n.

Definition piperead_resume (pi addr n : Z) : M (kernel D) Z :=
  sleep_resume (LkPipe pi) ;;;
  let! p := myproc in
  let! x := getp p in
  if negb (p_killed x =? 0) then release (LkPipe pi) ;;; ret (-1)
  else piperead_loop pi addr n.

Definition pipeclose (pi writable : Z) : M (kernel D) unit :=
  acquire (LkPipe pi) ;;;
  (if negb (writable =? 0) then
     pi_st pi PI_writeopen 0 ;;; wakeup (pi + PI_nread)
   else
     pi_st pi PI_readopen 0 ;;; wakeup (pi + PI_nwrite)) ;;;
  let! r := pi_ld pi PI_readopen in
  let! w := pi_ld pi PI_writeopen in
  if (r =? 0) && (w =? 0) then
    release (LkPipe pi) ;;;
    lmem (kfree pi)
  else release (LkPipe pi).
End pipe.
