(* ===== verification/PipeSpec.v ===== *)
(** Properties of the pipes of [kernel/syscall/sysfile.c]: the ring buffer in the
    pipe's page is a bounded queue of bytes. *)

From S2P Require Import Prelude Memory Kalloc Vm VmSpec VmKernel Str Bio Fs Kernel Spinlock Proc ProcSpec Pipe.

(* ------------------------------------------------------------------ *)
(** ** The queue *)

Definition nread (m : mem) (pi : Z) : Z := rd32 m (pi + PI_nread).
Definition nwrite (m : mem) (pi : Z) : Z := rd32 m (pi + PI_nwrite).
Definition pipe_count (m : mem) (pi : Z) : Z := u32 (nwrite m pi - nread m pi).
(** The byte [i] places after the next one to read. *)
Definition pipe_byte (m : mem) (pi : Z) (i : nat) : Z :=
  rd8 m (pi + PI_data + (nread m pi + Z.of_nat i) mod PIPESIZE).
Definition pipe_bytes (m : mem) (pi : Z) : list Z :=
  pipe_byte m pi <$> seq 0 (Z.to_nat (pipe_count m pi)).

(** Never more bytes than the ring holds. *)
Definition pipe_ok (m : mem) (pi : Z) : Prop := pipe_count m pi <= PIPESIZE.

Lemma length_pipe_bytes m pi : length (pipe_bytes m pi) = Z.to_nat (pipe_count m pi).
Proof. unfold pipe_bytes. by rewrite length_fmap, length_seq. Qed.
Lemma pipe_count_bounds m pi : 0 <= pipe_count m pi < 4294967296.
Proof. apply u32_bounds. Qed.
Lemma nwrite_bounds m pi : 0 <= nwrite m pi < 4294967296.
Proof. apply rd32_bounds. Qed.
Lemma nread_bounds m pi : 0 <= nread m pi < 4294967296.
Proof. apply rd32_bounds. Qed.

(** Changes outside the fields of the ring keep the queue. *)
Lemma pipe_frame m m' pi :
  (forall x, pi + PI_data <= x < pi + PI_nwrite + 4 -> rd8 m' x = rd8 m x) ->
  nread m' pi = nread m pi /\ nwrite m' pi = nwrite m pi /\ pipe_bytes m' pi = pipe_bytes m pi.
Proof.
  intros Hx. unfold PI_data, PI_nwrite in *.
  assert (nread m' pi = nread m pi) as Er.
  { unfold nread, PI_nread. apply rd32_ext. intros x Hr. apply Hx. lia. }
  assert (nwrite m' pi = nwrite m pi) as Ew.
  { unfold nwrite, PI_nwrite. apply rd32_ext. intros x Hr. apply Hx. lia. }
  split; [done|]. split; [done|]. unfold pipe_bytes, pipe_count. rewrite Er, Ew.
  apply list_fmap_ext. intros k i _. unfold pipe_byte, PI_data. rewrite Er. apply Hx.
  pose proof (Z.mod_pos_bound (nread m pi + Z.of_nat i) PIPESIZE). unfold PIPESIZE in *. lia.
Qed.

(** What the two loops do to memory for one byte. *)
Definition pipe_put (m : mem) (pi c : Z) : mem :=
  wr32 (wr8 m (pi + PI_data + nwrite m pi mod PIPESIZE) c) (pi + PI_nwrite) (u32 (nwrite m pi + 1)).
Definition pipe_get (m : mem) (pi : Z) : mem :=
  wr32 m (pi + PI_nread) (u32 (nread m pi + 1)).

Lemma pipe_put_words m pi c :
  nread (pipe_put m pi c) pi = nread m pi /\ nwrite (pipe_put m pi c) pi = u32 (nwrite m pi + 1).
Proof.
  pose proof (Z.mod_pos_bound (nwrite m pi) PIPESIZE ltac:(done)) as Hb.
  split.
  - unfold nread, pipe_put. rewrite rd32_wr32_ne by (unfold PI_nread, PI_nwrite; lia).
    apply rd32_ext. intros x Hx. rewrite rd8_wr8, decide_False; [done|]. unfold PI_nread, PI_data, PIPESIZE in *. lia.
  - unfold nwrite at 1, pipe_put. rewrite rd32_wr32_eq. apply u32_id, u32_bounds.
Qed.

Lemma u32_dvd x : u32 x mod PIPESIZE = x mod PIPESIZE.
Proof. unfold u32, PIPESIZE. dlia. Qed.

Lemma pipe_put_queue m pi c :
  pipe_count m pi < PIPESIZE ->
  pipe_bytes (pipe_put m pi c) pi = pipe_bytes m pi ++ [u8 c] /\
  pipe_count (pipe_put m pi c) pi = pipe_count m pi + 1.
Proof.
  intros Hc. destruct (pipe_put_words m pi c) as [Er Ew].
  pose proof (nwrite_bounds m pi) as Bw. pose proof (nread_bounds m pi) as Br.
  assert (pipe_count (pipe_put m pi c) pi = pipe_count m pi + 1) as Ec.
  { unfold pipe_count in *. rewrite Er, Ew. unfold PIPESIZE in Hc. unfold_width. dlia. }
  split; [|done]. unfold pipe_bytes. rewrite Ec.
  pose proof (pipe_count_bounds m pi) as Bc.
  replace (Z.to_nat (pipe_count m pi + 1)) with (S (Z.to_nat (pipe_count m pi))) by lia.
  rewrite seq_S, fmap_app. cbn [fmap list_fmap Nat.add]. f_equal.
  - apply list_fmap_ext. intros k i Hi. apply lookup_seq in Hi as [-> Hi].
    unfold pipe_byte. rewrite Er. cbn [Nat.add].
    pose proof (Z.mod_pos_bound (nread m pi + Z.of_nat k) PIPESIZE ltac:(done)) as Hb.
    unfold pipe_put. rewrite rd8_wr32_ne by (unfold PI_data, PI_nwrite, PIPESIZE in *; lia).
    rewrite rd8_wr8, decide_False; [done|]. intros E.
    assert ((nread m pi + Z.of_nat k) mod PIPESIZE = nwrite m pi mod PIPESIZE) as E2 by lia.
    unfold pipe_count, PIPESIZE in *. unfold u32 in *. clear -E2 Hi Hc Bw Br. dlia.
  - f_equal. unfold pipe_byte. rewrite Er.
    assert ((nread m pi + Z.of_nat (Z.to_nat (pipe_count m pi))) mod PIPESIZE = nwrite m pi mod PIPESIZE) as ->.
    { rewrite Z2Nat.id by lia. unfold pipe_count. rewrite Z.add_mod, u32_dvd, <- Z.add_mod by done. f_equal. lia. }
    pose proof (Z.mod_pos_bound (nwrite m pi) PIPESIZE ltac:(done)) as Hb.
    unfold pipe_put. rewrite rd8_wr32_ne by (unfold PI_data, PI_nwrite, PIPESIZE in *; lia).
    by rewrite rd8_wr8, decide_True by done.
Qed.

Lemma pipe_get_queue m pi :
  0 < pipe_count m pi ->
  pipe_bytes m pi = pipe_byte m pi 0 :: pipe_bytes (pipe_get m pi) pi /\
  pipe_count (pipe_get m pi) pi = pipe_count m pi - 1.
Proof.
  intros Hc. pose proof (nwrite_bounds m pi) as Bw. pose proof (nread_bounds m pi) as Br.
  assert (nwrite (pipe_get m pi) pi = nwrite m pi) as Ew.
  { unfold nwrite, pipe_get. rewrite rd32_wr32_ne; [done|]. unfold PI_nread, PI_nwrite. lia. }
  assert (nread (pipe_get m pi) pi = u32 (nread m pi + 1)) as Er.
  { unfold nread at 1, pipe_get. rewrite rd32_wr32_eq. apply u32_id, u32_bounds. }
  assert (pipe_count (pipe_get m pi) pi = pipe_count m pi - 1) as Ec.
  { unfold pipe_count in *. rewrite Er, Ew. unfold_width. dlia. }
  split; [|done]. unfold pipe_bytes. rewrite Ec.
  replace (Z.to_nat (pipe_count m pi)) with (S (Z.to_nat (pipe_count m pi - 1))) by lia.
  cbn [seq fmap list_fmap]. f_equal. rewrite <- fmap_S_seq, <- list_fmap_compose.
  apply list_fmap_ext. intros k i _. cbn. unfold pipe_byte. rewrite Er.
  rewrite (Z.add_mod (u32 (nread m pi + 1))), u32_dvd, <- Z.add_mod by done.
  replace (nread m pi + 1 + Z.of_nat i) with (nread m pi + Z.of_nat (S i)) by lia.
  pose proof (Z.mod_pos_bound (nread m pi + Z.of_nat (S i)) PIPESIZE ltac:(done)) as Hb.
  unfold pipe_get. rewrite rd8_wr32_ne; [done|]. unfold PI_data, PI_nread, PIPESIZE in *. lia.
Qed.

Definition put_all (m : mem) (pi : Z) (l : list Z) : mem := fold_left (fun m c => pipe_put m pi c) l m.

Lemma put_all_queue l m pi :
  pipe_count m pi + Z.of_nat (length l) <= PIPESIZE ->
  pipe_bytes (put_all m pi l) pi = pipe_bytes m pi ++ (u8 <$> l) /\
  pipe_count (put_all m pi l) pi = pipe_count m pi + Z.of_nat (length l).
Proof.
  revert m. induction l as [|c l IH]; intros m Hc; cbn [length] in Hc.
  - cbn. by rewrite app_nil_r, Z.add_0_r.
  - destruct (pipe_put_queue m pi c) as [Hb Hn]; [lia|].
    destruct (IH (pipe_put m pi c)) as [Hb' Hn']; [lia|].
    cbn [put_all fold_left]. unfold put_all in Hb', Hn'. rewrite Hb', Hn', Hb, Hn, <- app_assoc.
    split; [done|]. cbn [length]. lia.
Qed.

(** [pipe_put] writes the data and [nwrite] only. *)
Lemma pipe_put_frame m pi c x :
  x < pi + PI_data \/ pi + PI_nwrite + 4 <= x -> rd8 (pipe_put m pi c) x = rd8 m x.
Proof.
  intros Hx. pose proof (Z.mod_pos_bound (nwrite m pi) PIPESIZE ltac:(done)) as Hb.
  unfold pipe_put, PI_data, PI_nwrite, PIPESIZE in *.
  rewrite rd8_wr32_ne by lia. by rewrite rd8_wr8, decide_False by lia.
Qed.
Lemma put_all_frame l m pi x :
  x < pi + PI_data \/ pi + PI_nwrite + 4 <= x -> rd8 (put_all m pi l) x = rd8 m x.
Proof.
  intros Hx. revert m. induction l as [|c l IH]; intros m; [done|].
  cbn. unfold put_all in IH. rewrite IH. by apply pipe_put_frame.
Qed.

Section spec.
Context `{Image} {D : Type} `{BlockDev D}.
Implicit Types s : kernel D.

Lemma k_mem_set m s : k_mem (set_mem m s) = m.
Proof. done. Qed.
Lemma set_mem_set m m' s : set_mem m (set_mem m' s) = set_mem m s.
Proof. done. Qed.
Lemma pi_ld_eq pi off s : pi_ld pi off s = Ok (rd32 (k_mem s) (pi + off)) s.
Proof. by destruct s as [[[]]]. Qed.
Lemma pi_st_eq pi off v s : pi_st pi off v s = Ok tt (set_mem (wr32 (k_mem s) (pi + off) v) s).
Proof. by destruct s as [[[]]]. Qed.
Lemma lmem_st8_eq a v s : lmem (st8 a v) s = Ok tt (set_mem (wr8 (k_mem s) a v) s).
Proof. by destruct s as [[[]]]. Qed.

(** A process inside a pipe operation: it runs with the pipe's lock. *)
Record in_pipe s (p : nat) (x : proc) : Prop := {
  ip_cur : c_proc (k_cpu s) = Some p;
  ip_proc : k_procs s !! p = Some x;
  ip_killed : p_killed x = 0;
  ip_noff : c_noff (k_cpu s) = 1;
  ip_sie : c_sie (k_cpu s) = false;
  ip_len : length (k_procs s) = NPROC;
  ip_idle : Forall idle (k_procs s);
}.

Lemma in_pipe_mem m s p x : in_pipe s p x -> in_pipe (set_mem m s) p x.
Proof. by intros []. Qed.

Lemma myproc_eq s p : c_proc (k_cpu s) = Some p -> myproc s = Ok p s.
Proof. intros Hp. unfold myproc. by rewrite Hp. Qed.

(** The entries after a [wakeup] by [p]. *)
Definition wake_all (p : nat) (chan : Z) (l : list proc) : list proc := imap (woken (Some p) chan) l.

Lemma in_pipe_wakeup s p x chan :
  in_pipe s p x ->
  wakeup chan s = Ok tt (kernel_set_procs (wake_all p chan (k_procs s)) s) /\
  in_pipe (kernel_set_procs (wake_all p chan (k_procs s)) s) p x.
Proof.
  intros [Hp Hx Hk Hn Hi Hl Hid].
  destruct (wp_inv _ _ _ (wakeup_wp chan s Hl ltac:(split; [by rewrite Hn|done])
    ltac:(intros j z Hz _; by apply (Forall_lookup_1 _ _ _ _ Hid Hz)))) as ([] & s' & Hrun & Hs & Hb).
  rewrite Hp in Hs. fold (wake_all p chan (k_procs s)) in Hs.
  assert (k_cpu s' = k_cpu s) as Hc.
  { unfold cpu_bal in Hb. rewrite Hn in Hb. change (1 =? 0) with false in Hb. cbv iota in Hb.
    destruct (Z.eqb_spec (c_noff (k_cpu s')) 0) as [Hz|]; [|done].
    rewrite <- Hb in Hn. cbn in Hn. lia. }
  rewrite Hc in Hs. rewrite Hrun, Hs. split; [by destruct s|].
  split; cbn; try done.
  - unfold wake_all. rewrite list_lookup_imap, Hx. cbn. unfold woken. by rewrite decide_True.
  - unfold wake_all. by rewrite length_imap.
  - apply Forall_lookup_2. intros j z. unfold wake_all. rewrite list_lookup_imap.
    destruct (k_procs s !! j) as [w|] eqn:Hw; [|done]. cbn. intros [= <-].
    unfold woken. case_decide; [by apply (Forall_lookup_1 _ _ _ _ Hid Hw)|].
    destruct (_ && _); by split.
Qed.

(* ------------------------------------------------------------------ *)
(** ** pipewrite *)

Definition readopen (m : mem) (pi : Z) : Z := rd32 m (pi + PI_readopen).
Definition writeopen (m : mem) (pi : Z) : Z := rd32 m (pi + PI_writeopen).

Lemma put_all_open l m pi :
  readopen (put_all m pi l) pi = readopen m pi /\ writeopen (put_all m pi l) pi = writeopen m pi.
Proof.
  unfold readopen, writeopen, PI_readopen, PI_writeopen.
  split; apply rd32_ext; intros a Ha; apply put_all_frame; unfold PI_nwrite; lia.
Qed.

(** The start of a round: the process has not been killed and readers exist. *)
Lemma pipewrite_enter k pi buf n i s p x :
  in_pipe s p x -> readopen (k_mem s) pi <> 0 -> i < n ->
  pipewrite_body k pi buf n i s =
    (if pipe_count (k_mem s) pi =? PIPESIZE then
       wakeup (pi + PI_nread) ;;; sleep (pi + PI_nwrite) (LkPipe pi) (k i)
     else ret (inl (i + 1)))
      (if pipe_count (k_mem s) pi =? PIPESIZE then s
       else set_mem (pipe_put (k_mem s) pi (zget buf i)) s).
Proof.
  intros Hin Hro Hi. unfold pipewrite_body. rewrite (proj2 (Z.ltb_lt i n)) by done. cbn [negb].
  rewrite (bind_ok _ _ _ _ _ (myproc_eq s p (ip_cur _ _ _ Hin))).
  rewrite (bind_ok _ _ _ _ _ (getp_eq p s x (ip_proc _ _ _ Hin))), (ip_killed _ _ _ Hin). cbn [negb Z.eqb].
  rewrite (bind_ok _ _ _ _ _ (pi_ld_eq pi _ s)). fold (readopen (k_mem s) pi).
  rewrite (proj2 (Z.eqb_neq _ 0)) by done.
  rewrite !(bind_ok _ _ _ _ _ (pi_ld_eq pi _ s)).
  fold (nwrite (k_mem s) pi). fold (nread (k_mem s) pi). fold (pipe_count (k_mem s) pi).
  destruct (pipe_count (k_mem s) pi =? PIPESIZE); [done|].
  rewrite (bind_ok _ _ _ _ _ (lmem_st8_eq _ _ s)). rewrite (bind_ok _ _ _ _ _ (pi_st_eq _ _ _ _)).
  by rewrite k_mem_set, set_mem_set.
Qed.

(** The rounds that copy [l], the bytes of [buf] from [i]. *)
Lemma pipewrite_copies k pi buf n l fuel i s p x :
  in_pipe s p x -> readopen (k_mem s) pi <> 0 ->
  (forall j c, l !! j = Some c -> zget buf (i + Z.of_nat j) = c) ->
  i + Z.of_nat (length l) <= n -> pipe_count (k_mem s) pi + Z.of_nat (length l) <= PIPESIZE ->
  loop (length l + fuel) (pipewrite_body k pi buf n) i s =
    loop fuel (pipewrite_body k pi buf n) (i + Z.of_nat (length l)) (set_mem (put_all (k_mem s) pi l) s).
Proof.
  revert i s. induction l as [|c l IH]; intros i s Hin Hro Hl Hn Hc; cbn [length] in *.
  - rewrite Z.add_0_r. cbn [plus put_all fold_left]. f_equal. by destruct s as [[[]]].
  - cbn [plus]. erewrite loop_next.
    2: { rewrite (pipewrite_enter k pi buf n i s p x) by (done || lia).
         rewrite (proj2 (Z.eqb_neq _ PIPESIZE)) by lia. done. }
    assert (zget buf i = c) as -> by (rewrite <- (Hl 0%nat c) by done; f_equal; lia).
    destruct (pipe_put_queue (k_mem s) pi c) as [_ Hn']; [lia|].
    rewrite IH.
    + rewrite set_mem_set, k_mem_set. cbn [put_all fold_left]. f_equal. lia.
    + by apply in_pipe_mem.
    + change (readopen (put_all (k_mem s) pi [c]) pi <> 0).
      by rewrite (proj1 (put_all_open [c] (k_mem s) pi)).
    + intros j d Hj. rewrite <- (Hl (S j) d) by done. f_equal. lia.
    + lia.
    + rewrite k_mem_set, Hn'. lia.
Qed.

(** A process outside every lock, and a pipe whose lock is free. *)
Record at_pipe s (p : nat) (x : proc) (pi : Z) : Prop := {
  ap_cur : c_proc (k_cpu s) = Some p;
  ap_proc : k_procs s !! p = Some x;
  ap_killed : p_killed x = 0;
  ap_noff : c_noff (k_cpu s) = 0;
  ap_len : length (k_procs s) = NPROC;
  ap_idle : Forall idle (k_procs s);
  ap_lock : rd32 (k_mem s) pi = 0;
}.

Definition lock_mem (m : mem) (pi : Z) : mem := wr64 (wr32 m pi 1) (pi + 16) cpus_base.
Definition unlock_mem (m : mem) (pi : Z) : mem := wr32 (wr64 m (pi + 16) 0) pi 0.

Lemma lock_mem_frame m pi x : pi + PI_data <= x -> rd8 (lock_mem m pi) x = rd8 m x.
Proof.
  unfold PI_data. intros Hx. unfold lock_mem. rewrite rd8_wr64_ne by lia. by rewrite rd8_wr32_ne by lia.
Qed.
Lemma unlock_mem_frame m pi x : pi + PI_data <= x -> rd8 (unlock_mem m pi) x = rd8 m x.
Proof.
  unfold PI_data. intros Hx. unfold unlock_mem. rewrite rd8_wr32_ne by lia. by rewrite rd8_wr64_ne by lia.
Qed.
Lemma unlock_mem_lock m pi : rd32 (unlock_mem m pi) pi = 0.
Proof. unfold unlock_mem. by rewrite rd32_wr32_eq. Qed.

Lemma field_frame m m' pi off :
  PI_data <= off -> (forall x, pi + PI_data <= x -> rd8 m' x = rd8 m x) ->
  rd32 m' (pi + off) = rd32 m (pi + off).
Proof. intros Ho Hf. apply rd32_ext. intros x Hx. apply Hf. lia. Qed.

Lemma acquire_in_pipe s p x pi :
  at_pipe s p x pi ->
  exists s1, acquire (LkPipe pi) s = Ok tt s1 /\ in_pipe s1 p x /\
    s1 = set_mem (lock_mem (k_mem s) pi) (kernel_set_cpu (cpu_push (k_cpu s)) s).
Proof.
  intros [Hp Hx Hk Hn Hl Hid Hlk]. eexists. split; [by apply acquire_pipe_eq|]. split; [|done].
  split; try done. cbn -[s32]. by rewrite Hn.
Qed.

Lemma release_out s p x pi :
  in_pipe s p x -> exists s', release (LkPipe pi) s = Ok tt s' /\
    k_mem s' = unlock_mem (k_mem s) pi /\ k_procs s' = k_procs s /\
    c_proc (k_cpu s') = Some p /\ c_noff (k_cpu s') = 0.
Proof.
  intros [Hp Hx Hk Hn Hi Hl Hid]. eexists. split; [apply release_pipe_eq|].
  split; [done|]. split; [done|]. split; [done|]. cbn -[s32]. by rewrite Hn.
Qed.

Lemma pipewrite_end k pi buf n s p x :
  in_pipe s p x ->
  exists s', pipewrite_body k pi buf n n s = Ok (inr n) s' /\
    k_mem s' = unlock_mem (k_mem s) pi /\ k_procs s' = wake_all p (pi + PI_nread) (k_procs s) /\
    c_proc (k_cpu s') = Some p /\ c_noff (k_cpu s') = 0.
Proof.
  intros Hin. destruct (in_pipe_wakeup s p x (pi + PI_nread) Hin) as [Hw Hin'].
  destruct (release_out _ p x pi Hin') as (s' & Hr & Hm & Hps & Hc). exists s'.
  split; [|done]. unfold pipewrite_body. rewrite Z.ltb_irrefl. cbn [negb].
  rewrite (bind_ok _ _ _ _ _ Hw). unfold pipe_return. by rewrite (bind_ok _ _ _ _ _ Hr).
Qed.

Lemma pipewrite_sleeps k pi buf n i s p x :
  in_pipe s p x -> readopen (k_mem s) pi <> 0 -> i < n -> pipe_count (k_mem s) pi = PIPESIZE ->
  exists s', pipewrite_body k pi buf n i s = Sleep (pi + PI_nwrite) s' /\
    k_mem s' = unlock_mem (k_mem s) pi /\
    k_procs s' = <[p := asleep (pi + PI_nwrite) (k i) x]> (wake_all p (pi + PI_nread) (k_procs s)).
Proof.
  intros Hin Hro Hi Hc. destruct (in_pipe_wakeup s p x (pi + PI_nread) Hin) as [Hw Hin'].
  destruct Hin' as [Hp Hx Hk Hn Hs Hl Hid].
  pose proof (Forall_lookup_1 _ _ _ _ Hid Hx) as Hix.
  eexists. rewrite (pipewrite_enter k pi buf n i s p x) by done.
  rewrite (proj2 (Z.eqb_eq _ PIPESIZE)) by done. rewrite (bind_ok _ _ _ _ _ Hw).
  split; [by apply sleep_pipe_eq|]. by split.
Qed.

(* ------------------------------------------------------------------ *)
(** ** Properties of pipewrite *)

(** C6: While the pipe has a reader, [pipewrite] called by a process that is not
    killed appends the bytes to the pipe's queue in order. When they all fit it
    returns their number with the lock free again and the readers asleep on the
    pipe ready; otherwise it fills the ring, makes the readers ready, releases the
    lock and sleeps until there is room, remembering how far it came. *)
Theorem pipewrite_appends k s p x pi buf :
  at_pipe s p x pi -> pipe_ok (k_mem s) pi -> readopen (k_mem s) pi <> 0 ->
  let free := PIPESIZE - pipe_count (k_mem s) pi in
  let n := Z.of_nat (length buf) in
  (n <= free ->
     exists s', pipewrite k pi buf n s = Ok n s' /\
       pipe_bytes (k_mem s') pi = pipe_bytes (k_mem s) pi ++ (u8 <$> buf) /\
       rd32 (k_mem s') pi = 0 /\ k_procs s' = wake_all p (pi + PI_nread) (k_procs s) /\
       c_proc (k_cpu s') = Some p /\ c_noff (k_cpu s') = 0) /\
  (free < n ->
     exists s', pipewrite k pi buf n s = Sleep (pi + PI_nwrite) s' /\
       pipe_bytes (k_mem s') pi =
         pipe_bytes (k_mem s) pi ++ (u8 <$> take (Z.to_nat free) buf) /\
       rd32 (k_mem s') pi = 0 /\
       k_procs s' = <[p := asleep (pi + PI_nwrite) (k free) x]>
                      (wake_all p (pi + PI_nread) (k_procs s))).
Proof.
  intros Hat Hok Hro free n.
  destruct (acquire_in_pipe s p x pi Hat) as (s1 & Hacq & Hin & Hs1).
  assert (k_mem s1 = lock_mem (k_mem s) pi) as Hm1 by (by rewrite Hs1).
  assert (k_procs s1 = k_procs s) as Hp1 by (by rewrite Hs1).
  destruct (pipe_frame (k_mem s) (k_mem s1) pi) as (Er & Ew & Eb).
  { intros a Ha. rewrite Hm1. apply lock_mem_frame. lia. }
  assert (pipe_count (k_mem s1) pi = pipe_count (k_mem s) pi) as Ec by (unfold pipe_count; by rewrite Er, Ew).
  assert (readopen (k_mem s1) pi <> 0) as Hro1.
  { unfold readopen. rewrite Hm1, (field_frame (k_mem s)); [done|done|apply lock_mem_frame]. }
  unfold pipe_ok in Hok. pose proof (pipe_count_bounds (k_mem s) pi) as Hb.
  unfold pipewrite, pipewrite_loop. rewrite (bind_ok _ _ _ _ _ Hacq), Z.sub_0_r.
  set (l := take (Z.to_nat free) buf).
  assert (Z.of_nat (length l) = Z.min free n) as Hll by (unfold l; rewrite length_take; lia).
  assert (forall j c, l !! j = Some c -> zget buf (0 + Z.of_nat j) = c) as Hz.
  { intros j c Hj. unfold l in Hj. apply lookup_take_Some in Hj as [Hj _].
    unfold zget. by rewrite Z.add_0_l, Nat2Z.id, Hj. }
  destruct (put_all_queue l (k_mem s1) pi ltac:(lia)) as [Hq Hqc].
  set (s2 := set_mem (put_all (k_mem s1) pi l) s1).
  assert (in_pipe s2 p x) as Hin2 by (by apply in_pipe_mem).
  assert (forall s', k_mem s' = unlock_mem (k_mem s2) pi ->
    pipe_bytes (k_mem s') pi = pipe_bytes (k_mem s) pi ++ (u8 <$> l) /\ rd32 (k_mem s') pi = 0) as Hfin.
  { intros s' ->. split; [|apply unlock_mem_lock]. rewrite <- Eb, <- Hq. change (k_mem s2) with (put_all (k_mem s1) pi l).
    apply pipe_frame. intros a Ha. apply unlock_mem_frame. lia. }
  replace (Z.to_nat n + 1)%nat with (length l + S (Z.to_nat n - length l))%nat by lia.
  rewrite (pipewrite_copies k pi buf n l _ 0 s1 p x Hin Hro1 Hz) by lia. rewrite Z.add_0_l. fold s2.
  split; intros Hn.
  - rewrite Hll. replace (Z.min free n) with n by lia.
    destruct (pipewrite_end k pi buf n s2 p x Hin2) as (s' & Hr & Hm & Hps & Hc & Hno).
    exists s'. split; [by apply loop_last|]. destruct (Hfin s' Hm) as [-> ->].
    assert (l = buf) as -> by (unfold l; apply take_ge; lia).
    split; [done|]. split; [done|]. split; [|done]. rewrite Hps. unfold s2. cbn. by rewrite Hp1.
  - rewrite Hll. replace (Z.min free n) with free by lia.
    destruct (pipewrite_sleeps k pi buf n free s2 p x Hin2) as (s' & Hr & Hm & Hps).
    + unfold s2. rewrite k_mem_set. by rewrite (proj1 (put_all_open l (k_mem s1) pi)).
    + done.
    + unfold s2. rewrite k_mem_set, Hqc. lia.
    + exists s'. split; [by apply loop_sleep|]. destruct (Hfin s' Hm) as [-> ->].
      split; [done|]. split; [done|]. rewrite Hps. unfold s2. cbn. by rewrite Hp1.
Qed.

(* ------------------------------------------------------------------ *)
(** ** piperead *)

(** The reader's buffer: user addresses whose pages are neither the pipe's nor
    page tables; the page tables are not in the pipe's page. *)
Record reader (m : mem) (root : Z) (t : ptree) (pi addr n : Z) : Prop := {
  rd_wf : pt_wf m root t;
  rd_range : user_range m t addr n;
  rd_addr : 0 <= addr /\ addr + n <= MAXVA;
  rd_page : pi mod PGSIZE = 0;
  rd_apart : forall a, addr <= a < addr + n -> PTE2PA (pte_at m t a) <> pi;
  rd_tables : forall sl q, t sl = Some q -> q <> pi;
}.

Lemma upa_outside m root t pi addr n a x :
  reader m root t pi addr n -> addr <= a < addr + n -> pi <= x < pi + PGSIZE -> x <> upa m t a.
Proof.
  intros Hr Ha Hx E. pose proof (rd_apart _ _ _ _ _ _ Hr a Ha) as Hne. pose proof (rd_page _ _ _ _ _ _ Hr) as Hp.
  pose proof (PTE2PA_aligned (pte_at m t a)) as Hal. unfold upa in E. unfold PGSIZE in *. apply Hne. dlia.
Qed.

(** After [j] rounds. *)
Record rd_inv (m0 : mem) (t : ptree) (pi addr : Z) (j : nat) (m : mem) : Prop := {
  ri_read : nread m pi = u32 (nread m0 pi + Z.of_nat j);
  ri_out : forall x, ~ (pi + PI_nread <= x < pi + PI_nread + 4) ->
    (forall i, (i < j)%nat -> x <> upa m0 t (addr + Z.of_nat i)) -> rd8 m x = rd8 m0 x;
  ri_in : forall i, (i < j)%nat -> rd8 m (upa m0 t (addr + Z.of_nat i)) = pipe_byte m0 pi i;
}.

Lemma rd_inv_pipe m0 root t pi addr n j m :
  reader m0 root t pi addr n -> rd_inv m0 t pi addr j m -> Z.of_nat j <= n ->
  nwrite m pi = nwrite m0 pi /\ (forall k, pipe_byte m pi k = pipe_byte m0 pi (j + k)) /\
  (forall off, PI_readopen <= off -> off + 4 <= PGSIZE -> rd32 m (pi + off) = rd32 m0 (pi + off)).
Proof.
  intros Hr [Hn Ho _] Hj.
  assert (forall x, pi <= x < pi + PGSIZE -> ~ (pi + PI_nread <= x < pi + PI_nread + 4) -> rd8 m x = rd8 m0 x) as Hx.
  { intros x Hx Hnr. apply Ho; [done|]. intros i Hi. apply (upa_outside m0 root t pi addr n); [done|lia|done]. }
  unfold PGSIZE, PI_nread in Hx. split; [|split].
  - unfold nwrite, PI_nwrite. apply rd32_ext. intros x Hxr. apply Hx; lia.
  - intros k. unfold pipe_byte. rewrite Hn.
    assert ((u32 (nread m0 pi + Z.of_nat j) + Z.of_nat k) mod PIPESIZE =
      (nread m0 pi + Z.of_nat (j + k)) mod PIPESIZE) as ->.
    { rewrite Z.add_mod, u32_dvd, <- Z.add_mod by done. f_equal. lia. }
    pose proof (Z.mod_pos_bound (nread m0 pi + Z.of_nat (j + k)) PIPESIZE ltac:(done)) as Hb.
    unfold PI_data, PIPESIZE in *. apply Hx; lia.
  - intros off Hlo Hhi. unfold PI_readopen, PGSIZE in *. apply rd32_ext. intros x Hxr. apply Hx; lia.
Qed.

Lemma rd_inv_tables `{!ImageOk} m0 root t pi addr n j m :
  reader m0 root t pi addr n -> rd_inv m0 t pi addr j m -> Z.of_nat j <= n ->
  pt_wf m root t /\ forall va, pte_at m t va = pte_at m0 t va.
Proof.
  intros Hr [_ Ho _] Hj. destruct (Hr) as [W U [Ha Hm] Hp _ Htb].
  assert (forall sl q, t sl = Some q -> forall x, q <= x < q + PGSIZE -> rd8 m x = rd8 m0 x) as Hx.
  { intros sl q Hq x Hx. pose proof (wf_page _ _ _ W _ _ Hq) as (Hqal & _).
    pose proof (Htb _ _ Hq) as Hne. apply Ho.
    - destruct (page_disjoint q pi Hqal Hp Hne); unfold PI_nread, PGSIZE in *; lia.
    - intros i Hi E. pose proof (ur_apart _ _ _ _ U (addr + Z.of_nat i) sl q ltac:(lia) Hq) as Hap.
      pose proof (PTE2PA_aligned (pte_at m0 t (addr + Z.of_nat i))) as Hal. unfold upa in E. unfold PGSIZE in *.
      apply Hap. dlia. }
  split; [by apply (pt_wf_frame m0)|]. intros va. unfold pte_at. destruct (pte_addr t va) as [a|] eqn:Hpa; [|done].
  apply pte_addr_inv in Hpa as (q & Hq & ->). pose proof (PX_bounds 0 va ltac:(lia)).
  apply rd64_ext. intros x Hxr. apply (Hx _ _ Hq). unfold PGSIZE. lia.
Qed.

Lemma lmem_walk_eq `{!ImageOk} s root t va :
  pt_wf (k_mem s) root t -> va < MAXVA ->
  lmem (walk root va false) s = Ok (default 0 (pte_addr t va)) s.
Proof.
  intros W Hva. unfold lmem, zoom. rewrite (walk_noalloc _ root t va W Hva). by destruct s as [[]].
Qed.
Lemma lmem_ld64_eq a s : lmem (ld64 a) s = Ok (rd64 (k_mem s) a) s.
Proof. by destruct s as [[[]]]. Qed.
Lemma lmem_ld8_eq a s : lmem (ld8 a) s = Ok (rd8 (k_mem s) a) s.
Proof. by destruct s as [[[]]]. Qed.

(** One round of the copy. *)
Lemma rd_inv_step m0 root t pi addr n j m :
  reader m0 root t pi addr n -> rd_inv m0 t pi addr j m -> Z.of_nat j < n ->
  let m1 := wr8 m (upa m0 t (addr + Z.of_nat j)) (pipe_byte m pi 0) in
  rd_inv m0 t pi addr (S j) (wr32 m1 (pi + PI_nread) (u32 (rd32 m1 (pi + PI_nread) + 1))).
Proof.
  intros Hr Hi Hj m1. destruct (rd_inv_pipe _ _ _ _ _ _ _ _ Hr Hi ltac:(lia)) as (_ & Hb & _).
  destruct (Hi) as [Hn Ho Hin]. set (u := upa m0 t (addr + Z.of_nat j)) in *.
  assert (forall x, pi <= x < pi + PGSIZE -> x <> u) as Hu.
  { intros x Hx. apply (upa_outside m0 root t pi addr n); [done|lia|done]. }
  assert (rd32 m1 (pi + PI_nread) = nread m pi) as E1.
  { apply rd32_ext. intros x Hx. unfold m1. rewrite rd8_wr8, decide_False; [done|].
    apply Hu. unfold PI_nread, PGSIZE in *. lia. }
  rewrite E1. split.
  - unfold nread at 1. rewrite rd32_wr32_eq, Hn. unfold u32. rewrite Z.mod_mod, Z.add_mod_idemp_l by done. f_equal. lia.
  - intros x Hx Hne. rewrite rd8_wr32_ne by lia. unfold m1. rewrite rd8_wr8, decide_False by (apply Hne; lia).
    apply Ho; [done|]. intros i Hij. apply Hne. lia.
  - intros i Hij. rewrite rd8_wr32_ne.
    + unfold m1. rewrite rd8_wr8. destruct (decide (i = j)) as [->|Hne].
      * rewrite decide_True by done. rewrite Hb, Nat.add_0_r. apply u8_id, rd8_byte.
      * rewrite decide_False; [by apply Hin; lia|]. intros E.
        apply (upa_inj _ _ _ _ _ _ (rd_range _ _ _ _ _ _ Hr)) in E; try lia; apply (rd_addr _ _ _ _ _ _ Hr).
    + destruct (Z.le_gt_cases (pi + PI_nread) (upa m0 t (addr + Z.of_nat i))); [|lia].
      destruct (Z.le_gt_cases (pi + PI_nread + 4) (upa m0 t (addr + Z.of_nat i))); [lia|].
      exfalso. eapply (upa_outside m0 root t pi addr n (addr + Z.of_nat i)); [done|lia| |done].
      unfold PI_nread, PGSIZE in *. lia.
Qed.

Lemma piperead_copy `{!ImageOk} s p x t pi addr n m0 j :
  in_pipe s p x -> reader m0 (p_pagetable x) t pi addr n -> rd_inv m0 t pi addr j (k_mem s) ->
  Z.of_nat j < n -> Z.of_nat j < pipe_count m0 pi ->
  exists m', piperead_body pi addr n (Z.of_nat j) s = Ok (inl (Z.of_nat j + 1)) (set_mem m' s) /\
    rd_inv m0 t pi addr (S j) m'.
Proof.
  intros Hin Hr Hi Hj Hc. eexists. split; [|by eapply rd_inv_step].
  destruct (rd_inv_pipe _ _ _ _ _ _ _ _ Hr Hi ltac:(lia)) as (Hw & Hb & _).
  destruct (rd_inv_tables _ _ _ _ _ _ _ _ Hr Hi ltac:(lia)) as (W & Hpt).
  destruct (rd_addr _ _ _ _ _ _ Hr) as [Ha Hm]. assert (MAXVA = 274877906944) as EM by (vm_compute; done).
  pose proof (nwrite_bounds m0 pi) as Bw. pose proof (nread_bounds m0 pi) as Br.
  unfold piperead_body. rewrite !(bind_ok _ _ _ _ _ (pi_ld_eq _ _ _)).
  fold (nwrite (k_mem s) pi). fold (nread (k_mem s) pi).
  rewrite (proj2 (Z.ltb_lt _ n)) by done.
  rewrite (proj2 (Z.eqb_neq (nwrite (k_mem s) pi) _)).
  2: { rewrite Hw, (ri_read _ _ _ _ _ _ Hi). unfold pipe_count in Hc. unfold_width. dlia. }
  cbn [negb andb]. rewrite (bind_ok _ _ _ _ _ (myproc_eq s p (ip_cur _ _ _ Hin))).
  rewrite (bind_ok _ _ _ _ _ (getp_eq p s x (ip_proc _ _ _ Hin))).
  set (va := addr + Z.of_nat j) in *. rewrite (u64_id va) by lia.
  rewrite (PGROUNDDOWN_eq va) by lia.
  assert (pte_at (k_mem s) t (va - va mod 4096) = pte_at m0 t va) as Ept.
  { rewrite Hpt. apply pte_at_page; dlia. }
  pose proof (ur_acc _ _ _ _ (rd_range _ _ _ _ _ _ Hr) va ltac:(lia)) as Hacc.
  unfold uaccess in Hacc. apply andb_true_iff in Hacc as [HV _].
  rewrite (bind_ok _ _ _ _ _ (lmem_walk_eq s _ t (va - va mod 4096) W ltac:(dlia))).
  unfold pte_at in Ept at 1. destruct (pte_addr t (va - va mod 4096)) as [a|] eqn:Hpa.
  2: { rewrite <- Ept in HV. discriminate HV. }
  change (default 0 (Some a)) with a.
  assert (a <> 0) as Ha0.
  { apply pte_addr_inv in Hpa as (q & Hq & ->). pose proof (page_ok_pos _ (wf_page _ _ _ W _ _ Hq)).
    pose proof (PX_bounds 0 (va - va mod 4096) ltac:(lia)). lia. }
  rewrite (proj2 (Z.eqb_neq a 0)) by done. rewrite (bind_ok _ _ _ _ _ (lmem_ld64_eq a s)), Ept, HV.
  cbn [negb]. rewrite (bind_ok _ _ _ _ _ (lmem_ld8_eq _ s)).
  replace (PTE2PA (pte_at m0 t va) + (va - (va - va mod 4096))) with (upa m0 t va) by (unfold upa; lia).
  rewrite (bind_ok _ _ _ _ _ (lmem_st8_eq _ _ s)).
  rewrite bind_assoc, (bind_ok _ _ _ _ _ (pi_ld_eq _ _ _)), (bind_ok _ _ _ _ _ (pi_st_eq _ _ _ _)), k_mem_set, set_mem_set.
  unfold pipe_byte. rewrite Z.add_0_r. done.
Qed.

(** Writes to the pipe's page leave the reader's tables alone. *)
Lemma reader_frame m m' root t pi addr n :
  reader m root t pi addr n ->
  (forall x, x < pi \/ pi + PGSIZE <= x -> rd8 m' x = rd8 m x) ->
  reader m' root t pi addr n /\ forall va, pte_at m' t va = pte_at m t va.
Proof.
  intros [W [Ua Up Ui] Had Hp Hap Htb] Hx.
  assert (forall sl q, t sl = Some q -> forall x, q <= x < q + PGSIZE -> rd8 m' x = rd8 m x) as Hq.
  { intros sl q Hq x Hxq. pose proof (wf_page _ _ _ W _ _ Hq) as (Hqal & _).
    destruct (page_disjoint q pi Hqal Hp (Htb _ _ Hq)); apply Hx; lia. }
  assert (forall va, pte_at m' t va = pte_at m t va) as E.
  { intros va. unfold pte_at. destruct (pte_addr t va) as [a|] eqn:Hpa; [|done].
    apply pte_addr_inv in Hpa as (q & Hsl & ->). pose proof (PX_bounds 0 va ltac:(lia)).
    apply rd64_ext. intros x Hxr. apply (Hq _ _ Hsl). unfold PGSIZE. lia. }
  split; [|done]. split; try done.
  - by apply (pt_wf_frame m).
  - split.
    + intros a Ha. unfold uaccess. rewrite E. by apply Ua.
    + intros a sl q Ha Hsl. rewrite E. by eapply Up.
    + intros a b Ha Hb. rewrite !E. by apply Ui.
  - intros a Ha. rewrite E. by apply Hap.
Qed.

Lemma lock_mem_page m pi x : x < pi \/ pi + PGSIZE <= x -> rd8 (lock_mem m pi) x = rd8 m x.
Proof. unfold PGSIZE, lock_mem. intros Hx. rewrite rd8_wr64_ne by lia. by rewrite rd8_wr32_ne by lia. Qed.
Lemma unlock_mem_page m pi x : x < pi \/ pi + PGSIZE <= x -> rd8 (unlock_mem m pi) x = rd8 m x.
Proof. unfold PGSIZE, unlock_mem. intros Hx. rewrite rd8_wr32_ne by lia. by rewrite rd8_wr64_ne by lia. Qed.

(** [c] rounds, and the last one. *)
Lemma piperead_copies `{!ImageOk} c fuel s p x t pi addr n m0 j :
  in_pipe s p x -> reader m0 (p_pagetable x) t pi addr n -> rd_inv m0 t pi addr j (k_mem s) ->
  Z.of_nat (j + c) <= n -> Z.of_nat (j + c) <= pipe_count m0 pi ->
  exists m', loop (c + fuel) (piperead_body pi addr n) (Z.of_nat j) s =
      loop fuel (piperead_body pi addr n) (Z.of_nat (j + c)) (set_mem m' s) /\
    rd_inv m0 t pi addr (j + c) m'.
Proof.
  revert j s. induction c as [|c IH]; intros j s Hin Hr Hi Hn Hc.
  - rewrite Nat.add_0_r. exists (k_mem s). split; [f_equal; by destruct s as [[[]]]|done].
  - destruct (piperead_copy s p x t pi addr n m0 j Hin Hr Hi ltac:(lia) ltac:(lia)) as (m1 & Hb & Hi1).
    cbn [plus]. rewrite (loop_next _ _ _ _ _ _ Hb). replace (Z.of_nat j + 1) with (Z.of_nat (S j)) by lia.
    destruct (IH (S j) (set_mem m1 s)) as (m' & Hl & Hi'); [by apply in_pipe_mem|done|done|lia|lia|].
    exists m'. rewrite Hl, set_mem_set. by replace (j + S c)%nat with (S j + c)%nat by lia.
Qed.

Lemma piperead_end s p x pi addr n i :
  in_pipe s p x -> n <= i \/ nwrite (k_mem s) pi = nread (k_mem s) pi ->
  exists s', piperead_body pi addr n i s = Ok (inr i) s' /\
    k_mem s' = unlock_mem (k_mem s) pi /\ k_procs s' = wake_all p (pi + PI_nwrite) (k_procs s).
Proof.
  intros Hin Hend. destruct (in_pipe_wakeup s p x (pi + PI_nwrite) Hin) as [Hw Hin'].
  destruct (release_out _ p x pi Hin') as (s' & Hr & Hm & Hps & _). exists s'. split; [|done].
  unfold piperead_body. rewrite !(bind_ok _ _ _ _ _ (pi_ld_eq _ _ _)).
  fold (nwrite (k_mem s) pi). fold (nread (k_mem s) pi).
  assert ((i <? n) && negb (nwrite (k_mem s) pi =? nread (k_mem s) pi) = false) as ->.
  { destruct Hend as [?| ->]; [by rewrite (proj2 (Z.ltb_ge i n)) by lia|].
    rewrite Z.eqb_refl. apply andb_false_r. }
  cbn [negb]. rewrite (bind_ok _ _ _ _ _ Hw). unfold pipe_return. by rewrite (bind_ok _ _ _ _ _ Hr).
Qed.

Lemma pipe_count_zero m pi : pipe_count m pi = 0 <-> nwrite m pi = nread m pi.
Proof.
  unfold pipe_count. pose proof (nwrite_bounds m pi). pose proof (nread_bounds m pi). unfold_width.
  split; dlia.
Qed.

(** With the lock held and bytes in the pipe. *)
Lemma piperead_loop_some `{!ImageOk} s p x t pi addr n :
  in_pipe s p x -> reader (k_mem s) (p_pagetable x) t pi addr n -> 0 <= n ->
  0 < pipe_count (k_mem s) pi ->
  let c := Z.min n (pipe_count (k_mem s) pi) in
  exists s', piperead_loop pi addr n s = Ok c s' /\
    pipe_bytes (k_mem s') pi = drop (Z.to_nat c) (pipe_bytes (k_mem s) pi) /\
    (forall i, Z.of_nat i < c ->
       rd8 (k_mem s') (upa (k_mem s) t (addr + Z.of_nat i)) = pipe_byte (k_mem s) pi i) /\
    rd32 (k_mem s') pi = 0 /\ k_procs s' = wake_all p (pi + PI_nwrite) (k_procs s).
Proof.
  intros Hin Hr Hn Hc c. unfold piperead_loop. rewrite !(bind_ok _ _ _ _ _ (pi_ld_eq _ _ _)).
  fold (nwrite (k_mem s) pi). fold (nread (k_mem s) pi).
  rewrite (proj2 (Z.eqb_neq (nwrite (k_mem s) pi) _)) by (intros E; apply pipe_count_zero in E; lia).
  assert (rd_inv (k_mem s) t pi addr 0 (k_mem s)) as Hi0.
  { split; [|done|lia]. rewrite Z.add_0_r, u32_id; [done|apply nread_bounds]. }
  destruct (piperead_copies (Z.to_nat c) (S (Z.to_nat n - Z.to_nat c)) s p x t pi addr n (k_mem s) 0
    Hin Hr Hi0 ltac:(lia) ltac:(lia)) as (m' & Hl & Hi).
  replace (Z.to_nat n + 1)%nat with (Z.to_nat c + S (Z.to_nat n - Z.to_nat c))%nat by lia.
  change 0 with (Z.of_nat 0) at 1. rewrite Hl. cbn [plus].
  cbn [plus] in Hi. destruct (rd_inv_pipe _ _ _ _ _ _ _ _ Hr Hi ltac:(lia)) as (Hw & Hb & _).
  assert (pipe_count m' pi = pipe_count (k_mem s) pi - c) as Ec.
  { unfold pipe_count in *. rewrite Hw, (ri_read _ _ _ _ _ _ Hi).
    pose proof (nwrite_bounds (k_mem s) pi) as Bw. pose proof (nread_bounds (k_mem s) pi) as Br.
    rewrite Z2Nat.id by lia. unfold c, pipe_count in *. clear -Bw Br Hc Hn.
    generalize dependent (nwrite (k_mem s) pi). generalize dependent (nread (k_mem s) pi).
    intros r Br w Hc Bw. unfold_width. dlia. }
  destruct (piperead_end (set_mem m' s) p x pi addr n (Z.of_nat (Z.to_nat c))) as (s' & Hend & Hm & Hps).
  { by apply in_pipe_mem. }
  { rewrite k_mem_set. destruct (decide (n <= c)); [left; lia|right]. apply pipe_count_zero. lia. }
  exists s'. rewrite (loop_last _ _ _ _ _ _ Hend), Z2Nat.id by lia. split; [done|].
  rewrite Hm, k_mem_set in *. split; [|split; [|split; [apply unlock_mem_lock|done]]].
  - destruct (pipe_frame m' (unlock_mem m' pi) pi) as (_ & _ & ->).
    { intros a Ha. apply unlock_mem_frame. lia. }
    unfold pipe_bytes. rewrite Ec, <- fmap_drop, drop_seq. cbn [plus].
    apply list_eq. intros i. rewrite !list_lookup_fmap.
    replace (Z.to_nat (pipe_count (k_mem s) pi - c)) with (Z.to_nat (pipe_count (k_mem s) pi) - Z.to_nat c)%nat by lia.
    destruct (decide (i < Z.to_nat (pipe_count (k_mem s) pi) - Z.to_nat c)%nat).
    + rewrite !lookup_seq_lt by lia. cbn. by rewrite Hb.
    + rewrite !lookup_seq_ge by lia. done.
  - intros i Hic. rewrite unlock_mem_page; [by apply (ri_in _ _ _ _ _ _ Hi); lia|].
    destruct (Z.lt_ge_cases (upa (k_mem s) t (addr + Z.of_nat i)) pi); [by left|].
    destruct (Z.le_gt_cases (pi + PGSIZE) (upa (k_mem s) t (addr + Z.of_nat i))); [by right|].
    exfalso. eapply (upa_outside (k_mem s) _ _ _ _ _ (addr + Z.of_nat i)); [exact Hr|lia| |reflexivity]. lia.
Qed.

Lemma piperead_loop_empty s p x pi addr n :
  in_pipe s p x -> pipe_count (k_mem s) pi = 0 ->
  (writeopen (k_mem s) pi = 0 -> exists s', piperead_loop pi addr n s = Ok 0 s' /\
     k_mem s' = unlock_mem (k_mem s) pi /\ k_procs s' = k_procs s) /\
  (writeopen (k_mem s) pi <> 0 -> exists s', piperead_loop pi addr n s = Sleep (pi + PI_nread) s' /\
     k_mem s' = unlock_mem (k_mem s) pi /\
     k_procs s' = <[p := asleep (pi + PI_nread) (KPipeRead pi addr n) x]>
                    (wake_all p (pi + PI_nwrite) (k_procs s))).
Proof.
  intros Hin Hc. unfold piperead_loop. rewrite !(bind_ok _ _ _ _ _ (pi_ld_eq _ _ _)).
  fold (nwrite (k_mem s) pi). fold (nread (k_mem s) pi).
  rewrite (proj2 (Z.eqb_eq (nwrite (k_mem s) pi) _)) by (by apply pipe_count_zero).
  rewrite (bind_ok _ _ _ _ _ (myproc_eq s p (ip_cur _ _ _ Hin))).
  rewrite (bind_ok _ _ _ _ _ (getp_eq p s x (ip_proc _ _ _ Hin))), (ip_killed _ _ _ Hin). cbn [negb Z.eqb].
  rewrite (bind_ok _ _ _ _ _ (pi_ld_eq _ _ _)). fold (writeopen (k_mem s) pi). split; intros Hw.
  - rewrite Hw. cbn [Z.eqb]. destruct (release_out _ p x pi Hin) as (s' & Hr & Hm & Hps & _).
    exists s'. by rewrite (bind_ok _ _ _ _ _ Hr).
  - rewrite (proj2 (Z.eqb_neq _ 0)) by done.
    destruct (in_pipe_wakeup s p x (pi + PI_nwrite) Hin) as [Hwk [Hp Hx Hk Hn Hs Hl Hid]].
    pose proof (Forall_lookup_1 _ _ _ _ Hid Hx) as Hix.
    rewrite (bind_ok _ _ _ _ _ Hwk). eexists. split; [by apply sleep_pipe_eq|]. by split.
Qed.

(** C7: [piperead], called by a process that is not killed with a buffer all of
    whose pages are mapped, takes bytes from the front of the queue: with bytes
    in the pipe it returns the smaller of the count asked for and the count there,
    those bytes are at the user's addresses in order and the others stay in the
    queue, and sleeping writers are ready; an empty pipe gives 0 when no writer is
    left, and otherwise the process sleeps, the writers made ready, with the lock
    free. *)
Theorem piperead_takes `{!ImageOk} s p x t pi addr n :
  at_pipe s p x pi -> pipe_ok (k_mem s) pi -> reader (k_mem s) (p_pagetable x) t pi addr n -> 0 <= n ->
  let m := k_mem s in
  let c := Z.min n (pipe_count m pi) in
  (0 < pipe_count m pi ->
     exists s', piperead pi addr n s = Ok c s' /\
       pipe_bytes (k_mem s') pi = drop (Z.to_nat c) (pipe_bytes m pi) /\
       (forall i b, Z.of_nat i < c -> pipe_bytes m pi !! i = Some b ->
          rd8 (k_mem s') (upa m t (addr + Z.of_nat i)) = b) /\
       rd32 (k_mem s') pi = 0 /\ k_procs s' = wake_all p (pi + PI_nwrite) (k_procs s)) /\
  (pipe_count m pi = 0 -> writeopen m pi = 0 ->
     exists s', piperead pi addr n s = Ok 0 s' /\ pipe_bytes (k_mem s') pi = [] /\
       rd32 (k_mem s') pi = 0) /\
  (pipe_count m pi = 0 -> writeopen m pi <> 0 ->
     exists s', piperead pi addr n s = Sleep (pi + PI_nread) s' /\ rd32 (k_mem s') pi = 0 /\
       k_procs s' = <[p := asleep (pi + PI_nread) (KPipeRead pi addr n) x]>
                      (wake_all p (pi + PI_nwrite) (k_procs s))).
Proof.
  intros Hat Hok Hr Hn m c. destruct (acquire_in_pipe s p x pi Hat) as (s1 & Hacq & Hin & Hs1).
  assert (k_mem s1 = lock_mem m pi) as Hm1 by (by rewrite Hs1).
  assert (k_procs s1 = k_procs s) as Hp1 by (by rewrite Hs1).
  destruct (pipe_frame m (k_mem s1) pi) as (Er & Ew & Eb).
  { intros a Ha. rewrite Hm1. apply lock_mem_frame. lia. }
  assert (pipe_count (k_mem s1) pi = pipe_count m pi) as Ec by (unfold pipe_count; by rewrite Er, Ew).
  assert (writeopen (k_mem s1) pi = writeopen m pi) as Ewo.
  { unfold writeopen. rewrite Hm1. by apply (field_frame m); [|apply lock_mem_frame]. }
  destruct (reader_frame m (k_mem s1) _ t pi addr n Hr) as [Hr1 Ept].
  { intros a Ha. rewrite Hm1. by apply lock_mem_page. }
  unfold piperead. rewrite (bind_ok _ _ _ _ _ Hacq). split; [|split].
  - intros Hc. destruct (piperead_loop_some s1 p x t pi addr n Hin Hr1 Hn ltac:(by rewrite Ec))
      as (s' & Hl & Hq & Hb & Hlk & Hps). rewrite Ec in Hl, Hq, Hb. exists s'.
    rewrite Hps, Hp1, Hq, Eb. split; [done|]. split; [done|]. split; [|done].
    intros i b Hi Hlook. rewrite <- Eb in Hlook. unfold pipe_bytes in Hlook.
    apply list_lookup_fmap_Some in Hlook as (k & -> & Hk). apply lookup_seq in Hk as [-> _].
    change (0 + i)%nat with i. rewrite <- (Hb i Hi). f_equal. unfold upa. by rewrite Ept.
  - intros Hc Hw. destruct (piperead_loop_empty s1 p x pi addr n Hin ltac:(by rewrite Ec)) as [He _].
    destruct (He ltac:(by rewrite Ewo)) as (s' & Hl & Hm & _). exists s'. split; [done|].
    rewrite Hm. split; [|apply unlock_mem_lock].
    destruct (pipe_frame (k_mem s1) (unlock_mem (k_mem s1) pi) pi) as (_ & _ & ->).
    { intros a Ha. apply unlock_mem_frame. lia. }
    unfold pipe_bytes. by rewrite Ec, Hc.
  - intros Hc Hw. destruct (piperead_loop_empty s1 p x pi addr n Hin ltac:(by rewrite Ec)) as [_ He].
    destruct (He ltac:(by rewrite Ewo)) as (s' & Hl & Hm & Hps). exists s'.
    rewrite Hm, Hps, Hp1. split; [done|]. split; [apply unlock_mem_lock|done].
Qed.
End spec.

(* ------------------------------------------------------------------ *)
(** ** A concrete pipe *)

Section witnesses.
#[local] Existing Instance sample_image.
#[local] Existing Instance sample_image_ok.

(** An empty pipe at 8192 with a reader. *)
Definition sample_pipe : kernel memdisk :=
  set_mem (wr32 ∅ (8192 + PI_readopen) 1) (sample_kernel 0).

Lemma sample_at_pipe : at_pipe sample_pipe 0 (proc_set_status TASK_RUNNING proc0) 8192.
Proof. split; try reflexivity. exact sample_procs_idle. Qed.

Lemma pipewrite_appends_witness :
  exists s', pipewrite (fun _ => KNone) 8192 [65; 66] 2 sample_pipe = Ok 2 s' /\
    pipe_bytes (k_mem s') 8192 = [65; 66].
Proof.
  destruct (proj1 (pipewrite_appends (fun _ => KNone) sample_pipe 0 _ 8192 [65; 66] sample_at_pipe
    ltac:(apply Z.leb_le; vm_compute; reflexivity) ltac:(vm_compute; discriminate)))
    as (s' & Hr & Hb & _).
  - apply Z.leb_le. vm_compute. reflexivity.
  - exists s'. split; [exact Hr|]. rewrite Hb. vm_compute. reflexivity.
Defined.

(** A pipe at 8192 holding one byte, over the memory [m]. *)
Definition one_byte_pipe (m : mem) : mem :=
  pipe_put (wr32 (wr32 (wr32 m 8192 0) (8192 + PI_nread) 0) (8192 + PI_nwrite) 0) 8192 65.

Lemma one_byte_pipe_spec m :
  pipe_count (one_byte_pipe m) 8192 = 1 /\ rd32 (one_byte_pipe m) 8192 = 0 /\
  (forall x, x < 8192 \/ 8192 + PGSIZE <= x -> rd8 (one_byte_pipe m) x = rd8 m x).
Proof.
  unfold one_byte_pipe. set (m1 := wr32 (wr32 (wr32 m 8192 0) _ 0) _ 0).
  assert (forall x, x < 8192 \/ 8192 + PGSIZE <= x -> rd8 m1 x = rd8 m x) as Hx.
  { intros x Hx. unfold m1, PGSIZE, PI_nread, PI_nwrite in *. by rewrite !rd8_wr32_ne by lia. }
  assert (pipe_count m1 8192 = 0) as Hc.
  { unfold pipe_count, nwrite, nread, m1. rewrite rd32_wr32_eq.
    rewrite rd32_wr32_ne by (unfold PI_nread, PI_nwrite; lia). by rewrite rd32_wr32_eq. }
  split; [destruct (pipe_put_queue m1 8192 65) as [_ E]; rewrite ?E, Hc; done|]. split.
  - rewrite (rd32_ext _ m1).
    + unfold m1. rewrite !rd32_wr32_ne by (unfold PI_nread, PI_nwrite; lia). by rewrite rd32_wr32_eq.
    + intros x Hr. apply pipe_put_frame. unfold PI_data. lia.
  - intros x Hr. rewrite pipe_put_frame by (unfold PI_data, PI_nwrite, PGSIZE in *; lia). by apply Hx.
Qed.

Lemma piperead_takes_witness :
  exists s s' : kernel memdisk, piperead 8192 KERNBASE 2 s = Ok 1 s' /\ pipe_bytes (k_mem s') 8192 = [].
Proof.
  destruct sample_user_table as (km & ps & t & I & W & U & Hpa).
  set (x := proc_set_pagetable (PHYSTOP - PGSIZE) (proc_set_status TASK_RUNNING proc0)).
  set (s := set_mem (one_byte_pipe (km_mem km))
    (kernel_set_procs (<[0%nat := x]> sample_procs) (sample_kernel 0))).
  destruct (one_byte_pipe_spec (km_mem km)) as (Hc & Hl & Hx).
  assert (reader (km_mem km) (p_pagetable x) t 8192 KERNBASE 2) as Hr.
  { assert (MAXVA = 274877906944 /\ KERNBASE = 2147483648 /\ end_address = 2281177088) as (EM & EK & EE)
      by (vm_compute; tauto).
    split; [exact W|exact U|lia|reflexivity| |].
    - intros a Ha E. rewrite <- (pte_at_page _ _ KERNBASE a) in E by (rewrite ?EK in *; dlia).
      unfold upa in Hpa. rewrite E in Hpa. vm_compute in Hpa. discriminate Hpa.
    - intros sl q Hq E. destruct (wf_page _ _ _ W _ _ Hq) as (_ & Hlo & _). lia. }
  destruct (reader_frame _ (one_byte_pipe (km_mem km)) _ _ _ _ _ Hr Hx) as [Hr' _].
  assert (at_pipe s 0 x 8192) as Hat.
  { split; try reflexivity; [|exact Hl]. apply Forall_insert; [exact sample_procs_idle|exact idle0]. }
  destruct (proj1 (piperead_takes s 0 x t 8192 KERNBASE 2 Hat
    ltac:(unfold pipe_ok; change (k_mem s) with (one_byte_pipe (km_mem km)); rewrite Hc; apply Z.leb_le; reflexivity)
    Hr' ltac:(lia))) as (s' & Hrun & Hb & _).
  - change (k_mem s) with (one_byte_pipe (km_mem km)). lia.
  - exists s, s'. change (k_mem s) with (one_byte_pipe (km_mem km)) in *. rewrite Hc in *.
    split; [exact Hrun|]. rewrite Hb. apply length_zero_iff_nil. rewrite length_drop, length_pipe_bytes, Hc. reflexivity.
Defined.
End witnesses.
