(* ===== verification/File.v ===== *)
(** Open files, [kernel/fs/file.c]: the file table, its reference counts and
    the transfers between inodes and processes. *)

From S2P Require Import Prelude Memory Kalloc Vm Str Bio Fs Kernel Spinlock Proc Pipe.

(** The first entry that satisfies [f], from index [i]. *)
Fixpoint find_from {A} (f : A -> bool) (i : nat) (l : list A) : option nat :=
  match l with
  | [] => None
  | x :: l' => if f x then Some i else find_from f (S i) l'
  end.

Section file.
Context `{Image} {D : Type} `{BlockDev D}.

Definition filealloc : M (kernel D) (option nat) :=
  let! s := get in
  match find_from (fun f => f_ref f =? 0) 0 (k_ftable s) with
  | Some f => setf f (file_set_ref 1) ;;; ret (Some f)
  | None => ret None
  end.

(** [p->ofile[fd] = f] *)
Definition set_ofile (p : nat) (fd : nat) (f : option nat) : M (kernel D) unit :=
  setp p (fun x => proc_set_ofile (<[fd := f]> (p_ofile x)) x).

(** The descriptor, or -1 when the process has none left. *)
Definition fdalloc (f : nat) : M (kernel D) Z :=
  let! p := myproc in
  let! x := getp p in
  match find_from (fun o => match o with None => true | Some _ => false end) 0 (p_ofile x) with
  | Some fd => set_ofile p fd (Some f) ;;; ret (Z.of_nat fd)
  | None => ret (-1)
  end.

Definition filedup (f : nat) : M (kernel D) nat :=
  setf f (fun x => file_set_ref (s32 (f_ref x + 1)) x) ;;; ret f.

Definition fileclose (f : nat) : M (kernel D) unit :=
  let! f_copy := getf f in
  if f_ref f_copy <? 1 then panic "fileclose"
  else
    setf f (fun x => file_set_ref (s32 (f_ref x - 1)) x) ;;;
    let! x := getf f in
    if 0 <? f_ref x then ret tt
    else
      (if f_type x =? FD_INODE then
         match f_ip x with
         | Some ip => lfs (iput ip)
         | None => fault "iput(0)"
         end
       else if f_type x =? FD_CONSOLE then ret tt
       else if f_type f_copy =? FD_PIPE then pipeclose (f_pipe f_copy) (f_writable f_copy)
       else ret tt) ;;;
      setf f (file_set_type 0) ;;;
      setf f (file_set_ip None) ;;;
      setf f (file_set_off 0).

(** [f->ip] dereferenced. *)
Definition file_ip (f : nat) : M (kernel D) nat :=
  let! x := getf f in
  match f_ip x with Some ip => ret ip | None => fault "f->ip" end.

Definition fileread (f : nat) (n buf : Z) : M (kernel D) Z :=
  let! x := getf f in
  if f_readable x =? 0 then ret (-1)
  else
    let! ip := file_ip f in
    lfs (ilock ip) ;;;
    let! p := myproc in
    let! px := getp p in
    let! r := lfs (readi ip (DUser (p_pagetable px) buf) (f_off x) (u32 n)) in
    setf f (fun x => file_set_off (u32 (f_off x + fst r)) x) ;;;
    lfs (iunlock ip) ;;;
    ret (fst r).

(** [filewrite(f, addr, n)] with the [n] bytes at the kernel address [addr]. *)
Definition filewrite (f : nat) (src : list Z) : M (kernel D) Z :=
  let! x := getf f in
  if f_writable x =? 0 then ret (-1)
  else
    let! ip := file_ip f in
    lfs (ilock ip) ;;;
    let! r := lfs (writei ip src (f_off x)) in
    let! ret_ :=
      (if 0 <? r then
         setf f (fun x => file_set_off (u32 (f_off x + r)) x) ;;; ret r
       else ret (-1)) in
    lfs (iunlock ip) ;;;
    ret ret_.

Definition filestat (f : nat) (addr : Z) : M (kernel D) Z :=
  let! p := myproc in
  let! x := getf f in
  if (f_type x =? FD_INODE) || (f_type x =? FD_DEVICE) then
    let! ip := file_ip f in
    lfs (ilock ip) ;;;
    let! st := lfs (stati ip) in
    lfs (iunlock ip) ;;;
    let! px := getp p in
    let! r := lmem (copyout (p_pagetable px) addr st) in
    if r <? 0 then ret (-1) else ret 0
  else ret (-1).
End file.
