(* ===== verification/Console.v ===== *)
(** The console, [kernel/driver/console.c] and [kernel/driver/uart.c]: formatted
    output, the input ring buffer and the interrupt character. *)

From S2P Require Import Prelude Memory Kalloc Vm Str Bio Fs Kernel Spinlock Proc.

Definition CONS_BUF_SIZE : Z := 1024.

(** The bytes of a string literal. *)
Definition str (s : string) : list Z :=
  (fun a => Z.of_N (Ascii.N_of_ascii a)) <$> String.list_ascii_of_string s.

(** An argument of [printf]: an integer of any type, or a string ([None] NULL). *)
Inductive varg := VInt (v : Z) | VStr (s : option (list Z)).

Definition digits : list Z := str "0123456789abcdef".

(** The [do ... while] of [printint]: the digits of [x], the last one first. *)
Fixpoint printint_digits (fuel : nat) (x base : Z) : list Z :=
  match fuel with
  | O => []
  | S f =>
      zget digits (x mod base) ::
      (if x / base =? 0 then [] else printint_digits f (x / base) base)
  end.

(** The characters [printint(xx, base, sign)] prints; [buf] holds them reversed,
    and a [long] has at most 64 digits. *)
Definition printint_chars (xx base : Z) (sign : bool) : list Z :=
  let neg := sign && (xx <? 0) in
  let x := u64 (if neg then - xx else xx) in
  let buf := printint_digits 64 x base ++ (if neg then [45] else []) in
  reverse buf.

Section console.
Context `{Image} {D : Type} `{BlockDev D}.

(* ------------------------------------------------------------------ *)
(** ** Output *)

(** The store to the UART's data register. *)
Definition uart_putc (c : Z) : M (kernel D) unit :=
  setcons (fun x => console_set_out (uart_out x ++ [u8 c]) x).
Fixpoint uart_puts (s : list Z) : M (kernel D) unit :=
  match s with
  | [] => ret tt
  | c :: s' => if c =? 0 then ret tt else uart_putc c ;;; uart_puts s'
  end.
Definition consputc (c : Z) : M (kernel D) unit := uart_putc (u8 c).

(** The characters of [l], in order. *)
Fixpoint consput_all (l : list Z) : M (kernel D) unit :=
  match l with
  | [] => ret tt
  | c :: l' => consputc c ;;; consput_all l'
  end.

Definition printint (xx base : Z) (sign : bool) : M (kernel D) unit :=
  consput_all (printint_chars xx base sign).

(** The [switch] of [printf] on the conversion [c]; [k] goes on with the
    arguments that are left. *)
Definition printf_conv (is_long : bool) (c : Z) (ap : list varg)
    (k : list varg -> M (kernel D) unit) : M (kernel D) unit :=
  if c =? 100 (* d *) then
    match ap with
    | VInt v :: ap => printint (if is_long then s64 v else s32 v) 10 true ;;; k ap
    | _ => fault "va_arg"
    end
  else if c =? 117 (* u *) then
    match ap with
    | VInt v :: ap => printint (if is_long then s64 v else u32 v) 10 false ;;; k ap
    | _ => fault "va_arg"
    end
  else if c =? 120 (* x *) then
    match ap with
    | VInt v :: ap => printint (if is_long then s64 v else u32 v) 16 false ;;; k ap
    | _ => fault "va_arg"
    end
  else if c =? 112 (* p *) then
    match ap with
    | VInt v :: ap => printint (s64 v) 16 false ;;; k ap
    | _ => fault "va_arg"
    end
  else if c =? 115 (* s *) then
    match ap with
    | VStr s :: ap => consput_all (cstr (default (str "(null)") s)) ;;; k ap
    | _ => fault "va_arg"
    end
  else if c =? 99 (* c *) then
    match ap with
    | VInt v :: ap => consputc (s32 v) ;;; k ap
    | _ => fault "va_arg"
    end
  else if c =? 37 (* % *) then consputc 37 ;;; k ap
  else
    consputc 37 ;;;
    when is_long (consputc 108) ;;;
    consputc c ;;;
    k ap.

Fixpoint printf_loop (fmt : list Z) (ap : list varg) : M (kernel D) unit :=
  match fmt with
  | [] => ret tt
  | c :: fmt1 =>
      if c =? 0 then ret tt
      else if negb (c =? 37) then consputc c ;;; printf_loop fmt1 ap
      else
        match fmt1 with
        | [] => ret tt
        | c1 :: fmt2 =>
            if c1 =? 108 then
              match fmt2 with
              | [] => ret tt
              | c2 :: fmt3 =>
                  if c2 =? 0 then ret tt else printf_conv true c2 ap (printf_loop fmt3)
              end
            else if c1 =? 0 then ret tt
            else printf_conv false c1 ap (printf_loop fmt2)
        end
  end.

(** [printf(fmt, ...)]; [None] is a null [fmt]. *)
Definition printf (fmt : option (list Z)) (ap : list varg) : M (kernel D) unit :=
  match fmt with
  | None => ret tt
  | Some fmt => printf_loop fmt ap
  end.

Definition clear_screen : M (kernel D) unit :=
  printf (Some (27 :: str "[2J")) [] ;;;
  printf (Some (27 :: str "[H")) [].

(** What [panic(msg)] prints before it spins for ever. *)
Definition panic_prints (msg : list Z) : M (kernel D) unit :=
  printf (Some [10; 10]) [] ;;;
  printf (Some (str "!!! KERNEL PANIC !!!" ++ [10])) [] ;;;
  printf (Some (str "Reason: %s" ++ [10])) [VStr (Some msg)] ;;;
  printf (Some (str "System halted." ++ [10])) [].

Definition console_print_char (c : Z) : M (kernel D) unit :=
  if c =? 13 then consputc 13
  else if c =? 10 then consputc 13 ;;; consputc 10
  else if c =? 127 then consputc 8 ;;; consputc 32 ;;; consputc 8
  else consputc c.

Fixpoint console_print_all (l : list Z) : M (kernel D) unit :=
  match l with
  | [] => ret tt
  | c :: l' => console_print_char c ;;; console_print_all l'
  end.

(* ------------------------------------------------------------------ *)
(** ** Input *)

(** What control-C does to process [i]. *)
Definition cons_kill (i : nat) : M (kernel D) unit :=
  acquire (LkProc i) ;;;
  (let! x := getp i in
   when ((1 <? p_pid x) && negb (bool_decide (p_status x = TASK_FREE)) &&
         negb (bool_decide (p_status x = TASK_ZOMBIE)))
     (setp i (proc_set_killed 1) ;;;
      let! x := getp i in
      when (bool_decide (p_status x = TASK_SLEEPING)) (setp i (proc_set_status TASK_READY)))) ;;;
  release (LkProc i).

Definition consoleintr (c : Z) : M (kernel D) unit :=
  if c =? 3 then
    for_range 0 NPROC cons_kill ;;;
    wakeup cons_buffer_addr
  else
    let c := if c =? 13 then 10 else c in
    let! x := getcons in
    let next_tail := (cons_tail x + 1) mod CONS_BUF_SIZE in
    when (negb (next_tail =? cons_head x))
      (setcons (fun x => console_set_buffer (zset (cons_buffer x) (cons_tail x) (u8 c)) x) ;;;
       setcons (console_set_tail next_tail) ;;;
       wakeup cons_buffer_addr).

(** [consgetc()]: while the buffer is empty the process yields, to go on as [k]
    says and try again. *)
Definition consgetc (k : kont) : M (kernel D) Z :=
  let! x := getcons in
  let! s := getcpu in
  if cons_head x =? cons_tail x then
    match c_proc s with
    | Some p =>
        let! px := getp p in
        if negb (p_killed px =? 0) then ret (-1) else yield k
    | None => yield k
    end
  else
    let! killed :=
      (match c_proc s with
       | Some p => let! px := getp p in ret (negb (p_killed px =? 0))
       | None => ret false
       end) in
    if killed then ret (-1)
    else
      let c := zget (cons_buffer x) (cons_head x) in
      setcons (console_set_head ((cons_head x + 1) mod CONS_BUF_SIZE)) ;;;
      ret c.

Definition console_pending : M (kernel D) Z :=
  let! x := getcons in
  if cons_head x <=? cons_tail x then ret (cons_tail x - cons_head x)
  else ret (CONS_BUF_SIZE - cons_head x + cons_tail x).
End console.
