(* ===== verification/ConsoleSpec.v ===== *)
(** Properties of the console: its input ring is a bounded first-in first-out
    queue between the UART's interrupt and the readers, and control-C kills every
    process but the first. *)

From S2P Require Import Prelude Memory Kalloc Vm Str Bio Fs Kernel Spinlock Proc ProcSpec WakeSpec.
From S2P Require Import Console.

(* ------------------------------------------------------------------ *)
(** ** The ring and its contents *)

(** The bytes between the two indices, the oldest first. *)
Definition ring_len (x : console) : Z := (cons_tail x - cons_head x) mod CONS_BUF_SIZE.
Definition ring_byte (x : console) (j : Z) : Z :=
  zget (cons_buffer x) ((cons_head x + j) mod CONS_BUF_SIZE).
Definition contents (x : console) : list Z := ring_byte x <$> seqZ 0 (ring_len x).

Record cons_ok (x : console) : Prop := {
  co_len : Z.of_nat (length (cons_buffer x)) = CONS_BUF_SIZE;
  co_head : 0 <= cons_head x < CONS_BUF_SIZE;
  co_tail : 0 <= cons_tail x < CONS_BUF_SIZE;
}.

(** One slot stays empty. *)
Definition CONS_CAP : nat := 1023.

Lemma ring_len_bounds x : 0 <= ring_len x < CONS_BUF_SIZE.
Proof. apply Z.mod_pos_bound. done. Qed.
Lemma length_contents x : Z.of_nat (length (contents x)) = ring_len x.
Proof.
  unfold contents. rewrite length_fmap, length_seqZ. pose proof (ring_len_bounds x). lia.
Qed.

(** Index arithmetic modulo the size of the buffer. *)
Lemma ring_len_push x :
  cons_ok x -> ring_len x < 1023 -> (cons_tail x + 1) mod CONS_BUF_SIZE <> cons_head x /\
  ((cons_tail x + 1) mod CONS_BUF_SIZE - cons_head x) mod CONS_BUF_SIZE = ring_len x + 1.
Proof. intros [_ Hh Ht]. unfold ring_len, CONS_BUF_SIZE in *. dlia. Qed.
Lemma ring_full x :
  cons_ok x -> ring_len x = 1023 -> (cons_tail x + 1) mod CONS_BUF_SIZE = cons_head x.
Proof. intros [_ Hh Ht]. unfold ring_len, CONS_BUF_SIZE in *. dlia. Qed.
Lemma ring_slot x j :
  cons_ok x -> 0 <= j < ring_len x -> (cons_head x + j) mod CONS_BUF_SIZE <> cons_tail x.
Proof. intros [_ Hh Ht]. unfold ring_len, CONS_BUF_SIZE in *. dlia. Qed.
Lemma ring_end x : cons_ok x -> (cons_head x + ring_len x) mod CONS_BUF_SIZE = cons_tail x.
Proof. intros [_ Hh Ht]. unfold ring_len, CONS_BUF_SIZE in *. dlia. Qed.
Lemma ring_empty x : cons_ok x -> cons_head x = cons_tail x <-> ring_len x = 0.
Proof. intros [_ Hh Ht]. unfold ring_len, CONS_BUF_SIZE in *. dlia. Qed.
Lemma ring_len_pop x :
  cons_ok x -> 0 < ring_len x ->
  (cons_tail x - (cons_head x + 1) mod CONS_BUF_SIZE) mod CONS_BUF_SIZE = ring_len x - 1.
Proof. intros [_ Hh Ht]. unfold ring_len, CONS_BUF_SIZE in *. dlia. Qed.

(** The two index updates on the contents. *)
Definition ring_push (c : Z) (x : console) : console :=
  console_set_tail ((cons_tail x + 1) mod CONS_BUF_SIZE)
    (console_set_buffer (zset (cons_buffer x) (cons_tail x) c) x).
Definition ring_pop (x : console) : console :=
  console_set_head ((cons_head x + 1) mod CONS_BUF_SIZE) x.

Lemma ring_push_ok c x : cons_ok x -> cons_ok (ring_push c x).
Proof.
  intros [Hl Hh Ht]. split; cbn; [by rewrite length_zset|done|]. by apply Z.mod_pos_bound.
Qed.
Lemma ring_pop_ok x : cons_ok x -> cons_ok (ring_pop x).
Proof. intros [Hl Hh Ht]. split; cbn; [done| |done]. by apply Z.mod_pos_bound. Qed.

Lemma contents_push c x :
  cons_ok x -> ring_len x < 1023 -> contents (ring_push c x) = contents x ++ [c].
Proof.
  intros Hx Hl. pose proof (ring_len_bounds x) as Hb.
  assert (ring_len (ring_push c x) = ring_len x + 1) as Hlen by (exact (proj2 (ring_len_push x Hx Hl))).
  unfold contents. rewrite Hlen, seqZ_app by lia. rewrite fmap_app. f_equal.
  - apply list_fmap_ext. intros i j Hj. apply list_elem_of_lookup_2 in Hj. apply elem_of_seqZ in Hj.
    unfold ring_byte. cbn. apply zget_zset_ne.
    + apply (co_tail _ Hx).
    + by apply Z.mod_pos_bound.
    + intros E. symmetry in E. revert E. apply ring_slot; [done|lia].
  - rewrite seqZ_cons, (seqZ_nil _ (Z.pred 1)), Z.add_0_l by lia. cbn [fmap list_fmap]. f_equal.
    unfold ring_byte. cbn. rewrite ring_end by done. apply zget_zset_eq.
    rewrite (co_len _ Hx). apply (co_tail _ Hx).
Qed.

Lemma contents_cons x b q :
  cons_ok x -> contents x = b :: q ->
  ring_byte x 0 = b /\ contents (ring_pop x) = q /\ cons_head x <> cons_tail x.
Proof.
  intros Hx Hc. assert (0 < ring_len x) as Hl by (rewrite <- length_contents, Hc; cbn; lia).
  unfold contents in Hc. rewrite seqZ_cons in Hc by lia. injection Hc as Hb Hq. split; [done|]. split.
  - rewrite <- Hq. unfold contents.
    replace (ring_len (ring_pop x)) with (Z.pred (ring_len x)) by (unfold ring_pop; unfold ring_len at 2; cbn; rewrite ring_len_pop by done; lia).
    change (Z.succ 0) with (1 + 0). rewrite <- fmap_add_seqZ, <- list_fmap_compose.
    apply list_fmap_ext. intros i j Hj. unfold ring_byte. cbn [compose]. f_equal.
    unfold ring_pop. cbn [cons_head console_set_head]. rewrite Zplus_mod_idemp_l. f_equal. lia.
  - rewrite ring_empty by done. lia.
Qed.
Lemma contents_nil x : cons_ok x -> contents x = [] -> cons_head x = cons_tail x.
Proof. intros Hx Hc. apply ring_empty; [done|]. by rewrite <- length_contents, Hc. Qed.

(* ------------------------------------------------------------------ *)
(** ** The operations on the ring *)

(** A carriage return is stored as a line feed. *)
Definition cons_nl (c : Z) : Z := if c =? 13 then 10 else c.

Section ring.
Context `{Image} {D : Type} `{BlockDev D}.
Implicit Types s : kernel D.

Lemma consoleintr_stores c s :
  ready s -> cons_ok (k_cons s) -> c <> 3 -> ring_len (k_cons s) < 1023 ->
  exists t, consoleintr c s = Ok tt (kernel_set_cons (ring_push (u8 (cons_nl c)) (k_cons s)) t) /\
    woke (fun ch => ch =? cons_buffer_addr) s t.
Proof.
  intros Hr Hx Hc Hl. set (x' := ring_push (u8 (cons_nl c)) (k_cons s)).
  destruct (wakeup_woke cons_buffer_addr (kernel_set_cons x' s) (ready_set_cons _ _ Hr)) as (s' & Hs' & Hw).
  destruct (woke_set_cons _ _ _ _ Hw) as (t & Ht & ->). exists t. split; [|done].
  unfold consoleintr. rewrite (proj2 (Z.eqb_neq _ _)) by done. cbn zeta.
  rewrite (bind_ok _ _ s (k_cons s) s) by done.
  rewrite (proj2 (Z.eqb_neq _ _)) by (by apply ring_len_push). exact Hs'.
Qed.

Lemma consoleintr_full c s :
  cons_ok (k_cons s) -> c <> 3 -> ring_len (k_cons s) = 1023 -> consoleintr c s = Ok tt s.
Proof.
  intros Hx Hc Hl. unfold consoleintr. rewrite (proj2 (Z.eqb_neq _ _)) by done. cbn zeta.
  rewrite (bind_ok _ _ s (k_cons s) s) by done. by rewrite ring_full, Z.eqb_refl by done.
Qed.

Lemma consgetc_takes k p px b q s :
  c_proc (k_cpu s) = Some p -> k_procs s !! p = Some px -> p_killed px = 0 ->
  cons_ok (k_cons s) -> contents (k_cons s) = b :: q ->
  consgetc k s = Ok b (kernel_set_cons (ring_pop (k_cons s)) s).
Proof.
  intros Hp Hpx Hk Hx Hc. destruct (contents_cons _ _ _ Hx Hc) as (Hb & _ & Hne).
  unfold consgetc. rewrite (bind_ok _ _ s (k_cons s) s), (bind_ok _ _ s (k_cpu s) s) by done.
  rewrite (proj2 (Z.eqb_neq _ _)), Hp by done.
  rewrite bind_assoc, (bind_ok _ _ _ _ _ (getp_eq p s px Hpx)), Hk. cbn [Z.eqb negb].
  rewrite bind_ret_l. rewrite (bind_ok _ _ s tt (kernel_set_cons (ring_pop (k_cons s)) s)) by done.
  unfold ring_byte in Hb. rewrite Z.add_0_r, Z.mod_small in Hb by apply (co_head _ Hx). by rewrite Hb.
Qed.

Lemma consgetc_waits k p px s :
  c_proc (k_cpu s) = Some p -> k_procs s !! p = Some px -> p_killed px = 0 ->
  cons_ok (k_cons s) -> contents (k_cons s) = [] -> consgetc k s = yield k s.
Proof.
  intros Hp Hpx Hk Hx Hc. pose proof (contents_nil _ Hx Hc) as He.
  unfold consgetc. rewrite (bind_ok _ _ s (k_cons s) s), (bind_ok _ _ s (k_cpu s) s) by done.
  rewrite He, Z.eqb_refl, Hp. rewrite (bind_ok _ _ _ _ _ (getp_eq p s px Hpx)), Hk. done.
Qed.

(** A reader that was killed gets no byte. *)
Lemma consgetc_killed k p px s :
  c_proc (k_cpu s) = Some p -> k_procs s !! p = Some px -> p_killed px <> 0 ->
  consgetc k s = Ok (-1) s.
Proof.
  intros Hp Hpx Hk. unfold consgetc.
  rewrite (bind_ok _ _ s (k_cons s) s), (bind_ok _ _ s (k_cpu s) s), Hp by done.
  apply Z.eqb_neq in Hk. destruct (cons_head (k_cons s) =? cons_tail (k_cons s)).
  - rewrite (bind_ok _ _ _ _ _ (getp_eq p s px Hpx)), Hk. done.
  - rewrite bind_assoc, (bind_ok _ _ _ _ _ (getp_eq p s px Hpx)), Hk. done.
Qed.

Lemma console_pending_eq s :
  cons_ok (k_cons s) -> console_pending s = Ok (Z.of_nat (length (contents (k_cons s)))) s.
Proof.
  intros [Hl Hh Ht]. rewrite length_contents. unfold console_pending.
  rewrite (bind_ok _ _ s (k_cons s) s) by done. unfold ring_len, CONS_BUF_SIZE in *.
  destruct (Z.leb_spec (cons_head (k_cons s)) (cons_tail (k_cons s))); unfold ret; f_equal; dlia.
Qed.

(* ------------------------------------------------------------------ *)
(** ** Control-C *)

(** Every process but init dies when it next returns to user mode; a sleeper is
    made ready so that it gets there. *)
Definition ctrl_c (x : proc) : proc :=
  if (1 <? p_pid x) && negb (bool_decide (p_status x = TASK_FREE)) &&
     negb (bool_decide (p_status x = TASK_ZOMBIE))
  then
    let y := proc_set_killed 1 x in
    if bool_decide (p_status x = TASK_SLEEPING) then proc_set_status TASK_READY y else y
  else x.

Lemma ctrl_c_lock x : p_lock (ctrl_c x) = p_lock x.
Proof. unfold ctrl_c. destruct (_ && _); [|done]. cbn. by destruct (bool_decide _). Qed.

Lemma cons_kill_eq i x s :
  irq_ok (k_cpu s) -> k_procs s !! i = Some x -> idle x ->
  exists c, same_cpu (k_cpu s) c /\
    cons_kill i s = Ok tt (kernel_set_procs (<[i := ctrl_c x]> (k_procs s)) (kernel_set_cpu c s)).
Proof.
  intros Hc Hx Hid. exists (cpu_bal (k_cpu s)). split; [apply cpu_bal_bal|].
  assert (i < length (k_procs s))%nat as Hi by (by eapply lookup_lt_Some).
  assert (forall f : proc -> proc, (f = id \/ f = proc_set_killed 1 \/
      f = (fun x => proc_set_status TASK_READY (proc_set_killed 1 x))) ->
    proc_set_lock (lock_free (p_lock (f (proc_set_lock (lock_held (p_lock x)) x))))
      (f (proc_set_lock (lock_held (p_lock x)) x)) = f x) as Hrelock.
  { intros f Hf. destruct x as [[l n c]], Hid as [El Ec]. cbn in El, Ec. subst.
    destruct Hf as [->|[->| ->]]; done. }
  unfold cons_kill. rewrite (bind_ok _ _ _ _ _ (acquire_proc_eq i s x Hx (proj1 Hid))).
  set (y := proc_set_lock (lock_held (p_lock x)) x). set (s1 := kernel_set_procs _ _).
  assert (k_procs s1 !! i = Some y) as Hy by (by apply list_lookup_insert_eq).
  assert (forall l, release (LkProc i) (kernel_set_procs (<[i := l]> (k_procs s1)) s1) =
    Ok tt (kernel_set_procs (<[i := proc_set_lock (lock_free (p_lock l)) l]> (k_procs s))
      (kernel_set_cpu (cpu_bal (k_cpu s)) s))) as Hrel.
  { intros l. erewrite release_proc_eq by (cbn; apply list_lookup_insert_eq; by rewrite length_insert).
    unfold s1. cbn. by rewrite !list_insert_insert_eq, <- cpu_pop_push by done. }
  rewrite bind_assoc, (bind_ok _ _ _ _ _ (getp_eq i s1 y Hy)). unfold ctrl_c.
  change (p_pid y) with (p_pid x). change (p_status y) with (p_status x).
  destruct ((1 <? p_pid x) && _ && _); cbn [when].
  - rewrite bind_assoc. erewrite bind_ok; [|by apply setp_eq].
    rewrite bind_assoc. erewrite bind_ok; [|apply getp_eq; cbn; apply list_lookup_insert_eq; by rewrite length_insert].
    change (p_status (proc_set_killed 1 y)) with (p_status x).
    destruct (bool_decide (p_status x = TASK_SLEEPING)); cbn [when].
    + erewrite bind_ok; [|apply setp_eq; cbn; apply list_lookup_insert_eq; by rewrite length_insert].
      cbn [k_procs kernel_set_procs]. rewrite list_insert_insert_eq.
      etransitivity; [exact (Hrel _)|].
      unfold y. by rewrite (Hrelock (fun x => proc_set_status TASK_READY (proc_set_killed 1 x))) by auto.
    + rewrite bind_ret_l, Hrel. unfold y. by rewrite (Hrelock (proc_set_killed 1)) by auto.
  - rewrite bind_ret_l.
    pose proof (Hrel y) as Hr. rewrite list_insert_id in Hr by done.
    replace (kernel_set_procs (k_procs s1) s1) with s1 in Hr by (by destruct s).
    rewrite Hr. pose proof (Hrelock id ltac:(by left)) as E. cbn [id] in E. unfold y. by rewrite E.
Qed.

(** Control-C marks every process but init as killed, makes the sleeping ones
    ready, so that each reaches its exit, wakes the readers of the console, and
    changes nothing else. *)
Lemma consoleintr_ctrl_c s :
  length (k_procs s) = NPROC -> irq_ok (k_cpu s) -> Forall idle (k_procs s) ->
  exists s', consoleintr 3 s = Ok tt s' /\
    k_procs s' = wake_procs (fun ch => ch =? cons_buffer_addr) (c_proc (k_cpu s)) (ctrl_c <$> k_procs s) /\
    same_cpu (k_cpu s) (k_cpu s') /\
    s' = kernel_set_procs (k_procs s') (kernel_set_cpu (k_cpu s') s) /\
    forall i x y, k_procs s !! i = Some x -> k_procs s' !! i = Some y -> 1 < p_pid x ->
      p_status x <> TASK_FREE -> p_status x <> TASK_ZOMBIE ->
      p_killed y = 1 /\ p_status y <> TASK_SLEEPING.
Proof.
  intros Hl Hc Hid.
  destruct (each_proc cons_kill (fun _ => ctrl_c) s Hl) as (c & Hsc & Hrun).
  { intros i x s1 H1 Hx Hx1. apply cons_kill_eq; [by apply sc_irq with (k_cpu s)|done|].
    by apply (Forall_lookup_1 _ _ _ _ Hid Hx). }
  set (s1 := kernel_set_procs _ _) in Hrun.
  assert (k_procs s1 = ctrl_c <$> k_procs s) as Hp1.
  { unfold s1. cbn. apply list_eq. intros i. rewrite list_lookup_imap, list_lookup_fmap.
    by destruct (k_procs s !! i). }
  assert (ready s1) as Hr1.
  { split; [by rewrite Hp1, length_fmap|by apply sc_irq with (k_cpu s)|]. intros i x Hx _. rewrite Hp1 in Hx.
    rewrite list_lookup_fmap in Hx. destruct (k_procs s !! i) as [y|] eqn:Hy; [|done].
    injection Hx as <-. unfold idle. rewrite ctrl_c_lock. by apply (Forall_lookup_1 _ _ _ _ Hid Hy). }
  destruct (wakeup_woke cons_buffer_addr s1 Hr1) as (s' & Hw & [E C]).
  assert (k_procs s' = wake_procs (fun ch => ch =? cons_buffer_addr) (c_proc (k_cpu s)) (ctrl_c <$> k_procs s)) as Hps.
  { rewrite E. cbn [k_procs kernel_set_procs]. rewrite Hp1. f_equal. apply (sc_proc _ _ Hsc). }
  exists s'. split; [|split; [exact Hps|split; [by transitivity (k_cpu s1)|split]]].
  - unfold consoleintr. cbn [Z.eqb Pos.eqb]. change (3 =? 3) with true. cbv iota.
    by rewrite (bind_ok _ _ _ _ _ Hrun).
  - rewrite E at 1. rewrite Hps, Hp1. unfold s1. cbn [k_cpu kernel_set_procs kernel_set_cpu].
    rewrite (sc_proc _ _ Hsc). done.
  - intros i x y Hx Hy Hpid Hf Hz. rewrite Hps in Hy. unfold wake_procs in Hy.
    rewrite list_lookup_imap, list_lookup_fmap, Hx in Hy. cbn in Hy. injection Hy as <-.
    assert (p_killed (ctrl_c x) = 1 /\ p_status (ctrl_c x) <> TASK_SLEEPING) as [Hk Hs].
    { unfold ctrl_c. rewrite (proj2 (Z.ltb_lt _ _)), !bool_decide_false by done. cbn [negb andb].
      destruct (bool_decide _) eqn:E'; [done|]. cbn. by apply bool_decide_eq_false in E'. }
    destruct (decide _); [done|]. unfold wake_one. by rewrite bool_decide_false.
Qed.
(* ------------------------------------------------------------------ *)
(** ** The queue the ring implements *)

(** What happens at the console: the interrupt brings a byte, the running
    process takes one. *)
Inductive cons_ev := CIn (c : Z) | CGet.

(** The bytes read along a sequence of events on the kernel. *)
Fixpoint cons_run (k : kont) (evs : list cons_ev) : M (kernel D) (list Z) :=
  match evs with
  | [] => ret []
  | CIn c :: evs => consoleintr c ;;; cons_run k evs
  | CGet :: evs => let! b := consgetc k in let! bs := cons_run k evs in ret (b :: bs)
  end.
(** The same on a queue of at most [CONS_CAP] bytes, with what is known of the
    reader: [mortal] if it is not init, [killed] once it was killed. Control-C
    does not enter the queue; a killed reader gets -1, and the queue keeps its
    bytes. [None]: a reader that is not killed found the queue empty. *)
Fixpoint queue_run (mortal : bool) (evs : list cons_ev) (killed : bool) (q : list Z) : option (list Z * bool * list Z) :=
  match evs with
  | [] => Some ([], killed, q)
  | CIn c :: evs =>
      if decide (c = 3) then queue_run mortal evs (killed || mortal) q
      else queue_run mortal evs killed (if decide (length q < CONS_CAP)%nat then q ++ [u8 (cons_nl c)] else q)
  | CGet :: evs =>
      match killed, q with
      | true, _ => '(bs, killed, q) ← queue_run mortal evs killed q; Some (-1 :: bs, killed, q)
      | false, b :: q => '(bs, killed, q) ← queue_run mortal evs killed q; Some (b :: bs, killed, q)
      | false, [] => None
      end
  end.

(** The reader: the running process, with no interrupt section open. *)
Record reading s (p : nat) (px : proc) : Prop := {
  rg_ready : ready s;
  rg_cons : cons_ok (k_cons s);
  rg_proc : c_proc (k_cpu s) = Some p;
  rg_entry : k_procs s !! p = Some px;
  rg_running : p_status px = TASK_RUNNING;
  rg_idle : idle px;
  rg_noff : c_noff (k_cpu s) = 0;
}.
Definition is_killed (px : proc) : bool := negb (p_killed px =? 0).

Lemma reading_cons s p px x : reading s p px -> cons_ok x -> reading (kernel_set_cons x s) p px.
Proof. intros [Hr ? ? ? ? ? ?] Hx. split; try done. by apply ready_set_cons. Qed.
Lemma reading_woke P s t p px : reading s p px -> woke P s t -> reading t p px.
Proof.
  intros [Hr Hx Hp Hpx Hk Hi Hn] Hw. pose proof (wk_cpu _ _ _ Hw) as Hc. split.
  - by apply (ready_woke _ _ _ Hr Hw).
  - by rewrite (woke_cons _ _ _ Hw).
  - by rewrite (sc_proc _ _ Hc).
  - rewrite (woke_procs _ _ _ Hw). unfold wake_procs. rewrite list_lookup_imap, Hpx. cbn.
    by rewrite decide_True.
  - done.
  - done.
  - by rewrite (sc_noff _ _ Hc).
Qed.

(** One byte from the interrupt, on the queue. *)
Lemma consoleintr_queue c s p px :
  reading s p px -> c <> 3 ->
  exists s', consoleintr c s = Ok tt s' /\ reading s' p px /\
    contents (k_cons s') = if decide (length (contents (k_cons s)) < CONS_CAP)%nat
      then contents (k_cons s) ++ [u8 (cons_nl c)] else contents (k_cons s).
Proof.
  intros Hs Hc. pose proof (rg_cons _ _ _ Hs) as Hx. pose proof (ring_len_bounds (k_cons s)) as Hb.
  pose proof (length_contents (k_cons s)) as Hl. unfold CONS_CAP, CONS_BUF_SIZE in *. case_decide as Hd.
  - destruct (consoleintr_stores c s (rg_ready _ _ _ Hs) Hx Hc ltac:(lia)) as (t & Ht & Hw).
    eexists. split; [exact Ht|]. split; [|cbn; apply contents_push; [done|lia]].
    apply reading_cons; [by apply reading_woke with (1 := Hs) (2 := Hw)|by apply ring_push_ok].
  - exists s. split; [apply consoleintr_full; [done|done|lia]|]. done.
Qed.

(** Control-C kills the reader unless it is init; the ring stays. *)
Lemma consoleintr_kills s p px :
  reading s p px ->
  exists s', consoleintr 3 s = Ok tt s' /\ reading s' p (ctrl_c px) /\ contents (k_cons s') = contents (k_cons s).
Proof.
  intros [[Hlen Hirq Hidle] Hx Hp Hpx Hrun Hi Hn].
  destruct (consoleintr_ctrl_c s Hlen Hirq) as (s' & Hc & Hps & Hcpu & E & _).
  { apply Forall_lookup. intros i x Hx'. destruct (decide (i = p)) as [->|Hip].
    - rewrite Hpx in Hx'. by injection Hx' as <-.
    - apply (Hidle i x Hx'). congruence. }
  exists s'. split; [exact Hc|]. assert (k_cons s' = k_cons s) as Ec by (by rewrite E).
  split; [|by rewrite Ec]. split.
  - split.
    + rewrite Hps. unfold wake_procs. by rewrite length_imap, length_fmap.
    + by apply sc_irq with (k_cpu s).
    + rewrite (sc_proc _ _ Hcpu). intros i x Hx' Hne. rewrite Hps in Hx'. unfold wake_procs in Hx'.
      rewrite list_lookup_imap, list_lookup_fmap in Hx'. destruct (k_procs s !! i) as [y|] eqn:Hy; [|done].
      cbn in Hx'. rewrite decide_False in Hx' by done. injection Hx' as <-.
      unfold idle. rewrite wake_one_lock, ctrl_c_lock. by apply (Hidle i y Hy).
  - by rewrite Ec.
  - by rewrite (sc_proc _ _ Hcpu).
  - rewrite Hps. unfold wake_procs. rewrite list_lookup_imap, list_lookup_fmap, Hpx. cbn. by rewrite decide_True.
  - unfold ctrl_c. rewrite Hrun. by destruct (_ && _).
  - unfold idle. by rewrite ctrl_c_lock.
  - by rewrite (sc_noff _ _ Hcpu).
Qed.
Lemma ctrl_c_killed px :
  p_status px = TASK_RUNNING -> is_killed (ctrl_c px) = is_killed px || (1 <? p_pid px).
Proof. intros Hr. unfold is_killed, ctrl_c. rewrite Hr. destruct (1 <? p_pid px); cbn; by rewrite ?orb_true_r, ?orb_false_r. Qed.
Lemma ctrl_c_pid px : p_pid (ctrl_c px) = p_pid px.
Proof. unfold ctrl_c. destruct (_ && _); [|done]. cbn. by destruct (bool_decide _). Qed.

(** A read, on the queue. *)
Lemma consgetc_queue k s p px :
  reading s p px ->
  if is_killed px then consgetc k s = Ok (-1) s
  else match contents (k_cons s) with
  | [] => exists s', consgetc k s = Sleep (p_chan px) s' /\ contents (k_cons s') = [] /\
      exists px', k_procs s' !! p = Some px' /\ p_status px' = TASK_READY /\ p_kont px' = k
  | b :: q => consgetc k s = Ok b (kernel_set_cons (ring_pop (k_cons s)) s) /\
      reading (kernel_set_cons (ring_pop (k_cons s)) s) p px /\ contents (ring_pop (k_cons s)) = q
  end.
Proof.
  intros Hs. pose proof (rg_cons _ _ _ Hs) as Hx. unfold is_killed. destruct (Z.eqb_spec (p_killed px) 0) as [Hk|Hk]; cbn [negb].
  - destruct (contents (k_cons s)) as [|b q] eqn:Hc.
    + eexists. rewrite (consgetc_waits k p px s) by (try apply Hs; done). split; [by erewrite yield_eq by apply Hs|].
      cbn. split; [done|]. eexists. split; [apply list_lookup_insert_eq; eapply lookup_lt_Some, Hs|].
      split; reflexivity.
    + split; [by apply (consgetc_takes k p px b q s (rg_proc _ _ _ Hs) (rg_entry _ _ _ Hs) Hk Hx Hc)|].
      split; [apply reading_cons; [done|by apply ring_pop_ok]|]. by apply (contents_cons _ _ _ Hx Hc).
  - apply (consgetc_killed k p px s); [apply Hs|apply Hs|done].
Qed.

(** C12: The console's ring refines a queue of 1023 bytes. Along every sequence of
    interrupts and reads of the running process, up to the first read of a
    process that is not killed and finds the queue empty, the process gets the
    bytes the queue gives it, in the order they arrived; a byte that arrives when
    the queue is full is dropped. Control-C does not enter the queue: it kills
    the process, unless it is init, and every later read gives -1 and leaves the
    queue as it is. A read that finds the queue empty gives up the CPU: the
    process is ready again, to go on with the read, and the queue is still
    empty. *)
Theorem console_refines_queue k evs s p px :
  reading s p px ->
  match queue_run (1 <? p_pid px) evs (is_killed px) (contents (k_cons s)) with
  | Some (bs, killed, q) => exists s' px', cons_run k evs s = Ok bs s' /\ reading s' p px' /\
      contents (k_cons s') = q /\ is_killed px' = killed /\
      console_pending s' = Ok (Z.of_nat (length q)) s'
  | None => exists ch s' px', cons_run k evs s = Sleep ch s' /\ contents (k_cons s') = [] /\
      k_procs s' !! p = Some px' /\ p_status px' = TASK_READY /\ p_kont px' = k
  end.
Proof.
  revert s px. induction evs as [|e evs IH]; intros s px Hs; [|destruct e as [c|]; cbn [queue_run cons_run]].
  - exists s, px. split; [done|]. split; [done|]. split; [done|]. split; [done|].
    apply console_pending_eq, (rg_cons _ _ _ Hs).
  - assert (exists s1 px1, consoleintr c s = Ok tt s1 /\ reading s1 p px1 /\ p_pid px1 = p_pid px /\
      (if decide (c = 3) then queue_run (1 <? p_pid px) evs (is_killed px || (1 <? p_pid px)) (contents (k_cons s))
       else queue_run (1 <? p_pid px) evs (is_killed px)
         (if decide (length (contents (k_cons s)) < CONS_CAP)%nat then contents (k_cons s) ++ [u8 (cons_nl c)] else contents (k_cons s)))
      = queue_run (1 <? p_pid px1) evs (is_killed px1) (contents (k_cons s1))) as (s1 & px1 & Hrun & Hs1 & Hpid & ->).
    { case_decide as Hc3.
      - subst c. destruct (consoleintr_kills s p px Hs) as (s1 & Hrun & Hs1 & Ec).
        exists s1, (ctrl_c px). rewrite ctrl_c_killed by apply Hs. by rewrite ctrl_c_pid, Ec.
      - destruct (consoleintr_queue c s p px Hs Hc3) as (s1 & Hrun & Hs1 & Ec).
        exists s1, px. by rewrite Ec. }
    rewrite (bind_ok _ _ _ _ _ Hrun). by apply IH.
  - pose proof (consgetc_queue k s p px Hs) as Hget. destruct (is_killed px) eqn:Ek.
    + specialize (IH s px Hs). rewrite Ek in IH. rewrite (bind_ok _ _ _ _ _ Hget).
      destruct (queue_run _ evs true _) as [[[bs killed] q]|]; cbn.
      * destruct IH as (s' & px' & Hr & IH). exists s', px'. by rewrite (bind_ok _ _ _ _ _ Hr).
      * destruct IH as (ch & s' & px' & Hr & IH). exists ch, s', px'. unfold bind. by rewrite Hr.
    + destruct (contents (k_cons s)) as [|b q] eqn:Hc.
      * destruct Hget as (s' & Hr & He & px' & Hpx'). exists (p_chan px), s', px'. unfold bind at 1. by rewrite Hr.
      * destruct Hget as (Hr & Hs1 & Hq). specialize (IH _ px Hs1). rewrite Ek in IH.
        change (contents (k_cons (kernel_set_cons ?x s))) with (contents x) in IH. rewrite Hq in IH.
        rewrite (bind_ok _ _ _ _ _ Hr). destruct (queue_run _ evs false q) as [[[bs killed] q']|]; cbn.
        -- destruct IH as (s' & px' & Hr' & IH). exists s', px'. by rewrite (bind_ok _ _ _ _ _ Hr').
        -- destruct IH as (ch & s' & px' & Hr' & IH). exists ch, s', px'. unfold bind. by rewrite Hr'.
Qed.
End ring.

Section witnesses.
#[local] Existing Instance sample_image.

Lemma sample_kernel_ready : ready (sample_kernel 0).
Proof.
  split; [reflexivity|apply sample_irq; lia|]. intros i x Hx _.
  exact (Forall_lookup_1 _ _ _ _ sample_procs_idle Hx).
Qed.
Lemma sample_reading : reading (sample_kernel 0) 0 (proc_set_status TASK_RUNNING proc0).
Proof.
  split; try reflexivity; [exact sample_kernel_ready| |exact idle0].
  split; [reflexivity|cbn; unfold CONS_BUF_SIZE; lia..].
Qed.

(** A process that is not init reads, is killed by control-C, and reads again. *)
Definition mortal_proc : proc := proc_set_pid 5 (proc_set_status TASK_RUNNING proc0).
Definition mortal_kernel :=
  kernel_set_procs (<[0%nat := mortal_proc]> (k_procs (sample_kernel 0))) (sample_kernel 0).
Lemma mortal_reading : reading mortal_kernel 0 mortal_proc.
Proof.
  split; try reflexivity; [| |exact idle0].
  - split; [reflexivity|apply sample_irq; lia|]. intros i x Hx _. refine (Forall_lookup_1 _ _ _ _ _ Hx).
    apply Forall_insert; [exact sample_procs_idle|exact idle0].
  - split; [reflexivity|cbn; unfold CONS_BUF_SIZE; lia..].
Qed.
Lemma console_refines_queue_witness :
  (exists s', cons_run KNone [CIn 104; CIn 13; CGet; CIn 105; CGet] (sample_kernel 0) = Ok [104; 10] s' /\
    contents (k_cons s') = [105]) /\
  (exists s', cons_run KNone [CIn 104; CIn 105; CGet; CIn 3; CGet; CGet] mortal_kernel = Ok [104; -1; -1] s' /\
    contents (k_cons s') = [105]).
Proof.
  split.
  - destruct (console_refines_queue KNone [CIn 104; CIn 13; CGet; CIn 105; CGet] (sample_kernel 0) 0 _
      sample_reading) as (s' & px' & Hrun & _ & Hc & _).
    exists s'. split; [exact Hrun|exact Hc].
  - destruct (console_refines_queue KNone [CIn 104; CIn 105; CGet; CIn 3; CGet; CGet] mortal_kernel 0 _
      mortal_reading) as (s' & px' & Hrun & _ & Hc & _).
    exists s'. split; [exact Hrun|exact Hc].
Defined.

Lemma consoleintr_ctrl_c_witness :
  exists s', consoleintr 3 (sample_kernel 0) = Ok tt s' /\ k_cons s' = k_cons (sample_kernel 0).
Proof.
  destruct (consoleintr_ctrl_c (sample_kernel 0) eq_refl (sample_irq 0 ltac:(lia)) sample_procs_idle)
    as (s' & Hrun & _ & _ & E & _).
  exists s'. split; [exact Hrun|]. rewrite E. reflexivity.
Defined.
End witnesses.
