(* ===== verification/Syscall.v ===== *)
(** System call arguments and dispatch, [kernel/syscall/syscall.c]: registers
    and user memory as the kernel reads them. The table of [syscall] itself is
    in [Trap.v], after the calls. *)

From S2P Require Import Prelude Memory Kalloc Vm Str Bio Fs Kernel Spinlock Proc Pipe File.

Section syscall.
Context `{Image} {D : Type} `{BlockDev D}.

(** The saved argument register [n]. *)
Definition argraw (n : Z) : M (kernel D) Z :=
  let! p := myproc in
  if (0 <=? n) && (n <=? 5) then tf_ld p (TF_a0 + n) else panic "argraw".

Definition argint (n : Z) : M (kernel D) Z := let! v := argraw n in ret (s32 v).
Definition argaddr (n : Z) : M (kernel D) Z := argraw n.

(** [fd < 0 || fd >= NOFILE || (f = p->ofile[fd]) == 0]: [None], or the file. *)
Definition fd_file (fd : Z) : M (kernel D) (option nat) :=
  let! p := myproc in
  let! x := getp p in
  if (fd <? 0) || (Z.of_nat NOFILE <=? fd) then ret None
  else ret (default None (p_ofile x !! Z.to_nat fd)).

Definition argfd (n : Z) : M (kernel D) (option (Z * nat)) :=
  let! fd := argint n in
  let! f := fd_file fd in
  ret (match f with Some f => Some (fd, f) | None => None end).

(** [dst[i] = c], for a local array ([None], the bytes are collected) or a page
    of the kernel. *)
Definition put_byte (dst : option Z) (i c : Z) : M (kernel D) unit :=
  match dst with Some a => lmem (st8 (a + i) c) | None => ret tt end.

(** One round of [fetchstr]; the loop variables are [i] and the bytes so far. *)
Definition fetchstr_body (dst : option Z) (s max : Z) (x : Z * list Z)
    : M (kernel D) (Z * list Z + Z * list Z) :=
  let '(i, bs) := x in
  if negb (i <? max) then ret (inr (-1, bs))
  else
    let! p := myproc in
    let! px := getp p in
    let va := u64 (s + i) in
    let page_va := PGROUNDDOWN va in
    let offset := va - page_va in
    let! pte := lmem (walk (p_pagetable px) page_va false) in
    if pte =? 0 then ret (inr (-1, bs))
    else
      let! v := lmem (ld64 pte) in
      if negb (has v PTE_V) || negb (has v PTE_U) then ret (inr (-1, bs))
      else
        let! c := lmem (ld8 (PTE2PA v + offset)) in
        put_byte dst i c ;;;
        if c =? 0 then ret (inr (i, bs)) else ret (inl (i + 1, bs ++ [c])).

(** [fetchstr(s, dst, max)]: the length or -1, and the bytes before the NUL. *)
Definition fetchstr (dst : option Z) (s max : Z) : M (kernel D) (Z * list Z) :=
  loop (Z.to_nat max + 1) (fetchstr_body dst s max) (0, []).

(** [fetchaddr(addr, ip)]: [None] for -1. *)
Definition fetchaddr (addr : Z) : M (kernel D) (option Z) :=
  let! p := myproc in
  let! px := getp p in
  let va := PGROUNDDOWN addr in
  let offset := addr - va in
  if p_sz px <? u64 (addr + 8) then ret None
  else
    let! pte := lmem (walk (p_pagetable px) va false) in
    if pte =? 0 then ret None
    else
      let! v := lmem (ld64 pte) in
      if negb (has v PTE_V) || negb (has v PTE_U) then ret None
      else
        let! w := lmem (ld64 (PTE2PA v + offset)) in
        ret (Some w).

Definition argstr (n max : Z) : M (kernel D) (Z * list Z) :=
  let! addr := argaddr n in fetchstr None addr max.

(** [p->cwd], and the path operations of the running process. An uninitialised
    local [name] is written before it is read. *)
Definition uninit (n : nat) : list Z := replicate n 0.
Definition my_cwd : M (kernel D) (option nat) :=
  let! p := myproc in let! x := getp p in ret (p_cwd x).
Definition knamei (path : list Z) : M (kernel D) (option nat) :=
  let! cwd := my_cwd in lfs (namei cwd (uninit DIRSIZ) path).
Definition knameiparent (path : list Z) : M (kernel D) (option nat * list Z) :=
  let! cwd := my_cwd in lfs (nameiparent cwd path (uninit DIRSIZ)).
End syscall.
