(* ===== verification/Sysfile.v ===== *)
(** The file system calls of [kernel/syscall/sysfile.c] and
    [kernel/syscall/sysproc.c]: open, read, write, close, dup, pipe, lseek,
    ftruncate, fstat, ioctl, fcntl. Each returns the value the call leaves in
    [a0]; -1 stands for [(uint64)-1]. *)

From S2P Require Import Prelude Memory Kalloc Vm Str Bio Fs.
From S2P Require Import Kernel Spinlock Proc Pipe File Console Syscall.

Definition O_WRONLY : Z := 1.
Definition O_RDWR : Z := 2.
Definition O_CREAT : Z := 512.
Definition O_TRUNC : Z := 1024.
Definition O_EXCL : Z := 2048.
Definition O_APPEND : Z := 4096.
Definition TIOCINQ : Z := 21531.
Definition F_DUPFD : Z := 0.
Definition F_GETFD : Z := 1.
Definition F_SETFD : Z := 2.
Definition F_GETFL : Z := 3.
Definition F_SETFL : Z := 4.

(** A C condition as the value of an expression. *)
Definition b2z (b : bool) : Z := if b then 1 else 0.

Section sysfile.
Context `{Image} {D : Type} `{BlockDev D}.

Definition sys_ioctl : M (kernel D) Z :=
  let! p := myproc in
  let! fd := argint 0 in
  let! request := argint 1 in
  let! arg := argaddr 2 in
  let! f := fd_file fd in
  match f with
  | None => ret (-1)
  | Some f =>
      let! x := getf f in
      if (request =? TIOCINQ) && (f_type x =? FD_CONSOLE) then
        let! pending := console_pending in
        let! px := getp p in
        let! bad :=
          (if arg =? 0 then ret false
           else
             let! r := lmem (copyout (p_pagetable px) arg (le_bytes 4 pending)) in
             ret (r <? 0)) in
        if bad then ret (-1) else ret 0
      else ret (-1)
  end.

Definition sys_fcntl : M (kernel D) Z :=
  let! p := myproc in
  let! fd := argint 0 in
  let! cmd := argint 1 in
  let! arg := argint 2 in
  let! f := fd_file fd in
  match f with
  | None => ret (-1)
  | Some f =>
      if cmd =? F_DUPFD then
        if (arg <? 0) || (Z.of_nat NOFILE <=? arg) then ret (-1)
        else
          let! px := getp p in
          match find_from (fun o => match o with None => true | Some _ => false end)
                  (Z.to_nat arg) (drop (Z.to_nat arg) (p_ofile px)) with
          | Some newfd => set_ofile p newfd (Some f) ;;; filedup f ;;; ret (Z.of_nat newfd)
          | None => ret (-1)
          end
      else if cmd =? F_GETFD then ret 0
      else if cmd =? F_SETFD then ret 0
      else if cmd =? F_GETFL then
        let! x := getf f in
        if negb (f_readable x =? 0) && negb (f_writable x =? 0) then ret O_RDWR
        else if negb (f_writable x =? 0) then ret O_WRONLY
        else ret 0
      else if cmd =? F_SETFL then ret 0
      else ret (-1)
  end.

(* ------------------------------------------------------------------ *)
(** ** open and close *)

(** The inode type of [ip], and whether the flags ask for writing. *)
Definition wants_write (flags : Z) : bool := has flags (Z.lor O_WRONLY O_RDWR).
Definition itype (ip : nat) : M (kernel D) Z :=
  let! x := lfs (geti ip) in ret (i_type x).

(** The branch of [sys_open] for [O_CREAT]: the locked inode. *)
Definition open_create (path : list Z) (flags : Z) : M (kernel D) (option nat) :=
  let! '(dp, name) := knameiparent path in
  match dp with
  | None => ret None
  | Some dp =>
      lfs (ilock dp) ;;;
      let! r := lfs (dirlookup dp name) in
      match r with
      | None =>
          let! dx := lfs (geti dp) in
          let! ip := lfs (ialloc (i_dev dx) T_FILE) in
          lfs (ilock ip) ;;;
          lfs (seti ip (inode_set_nlink 1)) ;;;
          lfs (iupdate ip) ;;;
          let! x := lfs (geti ip) in
          let! r := lfs (dirlink dp name (i_inum x)) in
          if r <? 0 then lfs (iunlockput ip) ;;; lfs (iunlockput dp) ;;; ret None
          else lfs (iunlockput dp) ;;; ret (Some ip)
      | Some (ip, _) =>
          lfs (iunlockput dp) ;;;
          if has flags O_EXCL then lfs (iput ip) ;;; ret None
          else
            lfs (ilock ip) ;;;
            let! t := itype ip in
            if (t =? T_DIR) && wants_write flags then lfs (iunlockput ip) ;;; ret None
            else ret (Some ip)
      end
  end.

(** The branch without [O_CREAT]. *)
Definition open_existing (path : list Z) (flags : Z) : M (kernel D) (option nat) :=
  let! r := knamei path in
  match r with
  | None => ret None
  | Some ip =>
      lfs (ilock ip) ;;;
      let! t := itype ip in
      if (t =? T_DIR) && wants_write flags then lfs (iunlockput ip) ;;; ret None
      else ret (Some ip)
  end.

(** The rest of [sys_open], with the inode. *)
Definition open_file (ip : nat) (flags : Z) : M (kernel D) Z :=
  (let! t := itype ip in
   when (has flags O_TRUNC && (t =? T_FILE) && wants_write flags) (lfs (itrunc ip))) ;;;
  let! r := filealloc in
  match r with
  | None => lfs (iunlockput ip) ;;; ret (-1)
  | Some f =>
      let! fd := fdalloc f in
      if fd <? 0 then fileclose f ;;; lfs (iunlock ip) ;;; ret (-1)
      else
        setf f (file_set_type FD_INODE) ;;;
        setf f (file_set_ip (Some ip)) ;;;
        setf f (file_set_off 0) ;;;
        setf f (file_set_readable (b2z (negb (has flags O_WRONLY)))) ;;;
        setf f (file_set_writable (b2z (has flags O_WRONLY || has flags O_RDWR))) ;;;
        (let! x := lfs (geti ip) in
         when (has flags O_APPEND && (i_type x =? T_FILE)) (setf f (file_set_off (i_size x)))) ;;;
        lfs (iunlock ip) ;;;
        ret fd
  end.

Definition sys_open : M (kernel D) Z :=
  let! '(n, path) := argstr 0 (Z.of_nat MAXPATH) in
  if n <? 0 then ret (-1)
  else
    let! flags := argint 1 in
    let! r := (if has flags O_CREAT then open_create path flags
               else open_existing path flags) in
    match r with
    | None => ret (-1)
    | Some ip => open_file ip flags
    end.

Definition sys_close : M (kernel D) Z :=
  let! p := myproc in
  let! fd := argint 0 in
  let! f := fd_file fd in
  match f with
  | None => ret (-1)
  | Some f =>
      set_ofile p (Z.to_nat fd) None ;;;
      fileclose f ;;;
      ret 0
  end.

(* ------------------------------------------------------------------ *)
(** ** read *)

(** A user byte, reached through [walk] with only the valid bit checked: its
    physical address. *)
Definition user_byte (p : nat) (user_addr : Z) : M (kernel D) (option Z) :=
  let! px := getp p in
  let va_page := PGROUNDDOWN user_addr in
  let offset := user_addr - va_page in
  let! pte := lmem (walk (p_pagetable px) va_page false) in
  if pte =? 0 then ret None
  else
    let! v := lmem (ld64 pte) in
    if negb (has v PTE_V) then ret None else ret (Some (PTE2PA v + offset)).

(** One round of the console loop of [sys_read] after the [killed] test, with
    [getc] the call of [consgetc] or what remains of it; the loop variables are
    [i] and [user_addr]. *)
Definition cons_read_char (p : nat) (getc : M (kernel D) Z) (i user_addr : Z)
    : M (kernel D) (Z * Z + Z) :=
  let! c := getc in
  if c <? 0 then ret (inr i)
  else
    let! a := user_byte p user_addr in
    match a with
    | None => ret (inr (-1))
    | Some a =>
        lmem (st8 a c) ;;;
        if c =? 10 then ret (inr (i + 1)) else ret (inl (i + 1, u64 (user_addr + 1)))
    end.

Definition cons_read_body (f : nat) (n : Z) (x : Z * Z) : M (kernel D) (Z * Z + Z) :=
  let '(i, user_addr) := x in
  if negb (i <? n) then ret (inr i)
  else
    let! p := myproc in
    let! px := getp p in
    if negb (p_killed px =? 0) then ret (inr i)
    else cons_read_char p (consgetc (KConsRead f i n user_addr)) i user_addr.

Definition cons_read (f : nat) (n i user_addr : Z) : M (kernel D) Z :=
  loop (Z.to_nat (n - i) + 1) (cons_read_body f n) (i, user_addr).

(** The reader that yielded inside [consgetc] runs again. *)
Definition cons_read_resume (f : nat) (i n user_addr : Z) : M (kernel D) Z :=
  yield_resume ;;;
  let! p := myproc in
  let! r := cons_read_char p (consgetc (KConsRead f i n user_addr)) i user_addr in
  match r with
  | inr r => ret r
  | inl (i, user_addr) => cons_read f n i user_addr
  end.

Definition sys_read : M (kernel D) Z :=
  let! fd := argint 0 in
  let! n := argint 2 in
  let! addr := argaddr 1 in
  let! f := fd_file fd in
  match f with
  | None => ret (-1)
  | Some f =>
      let! x := getf f in
      if f_readable x =? 0 then ret (-1)
      else if f_type x =? FD_CONSOLE then cons_read f n 0 addr
      else if f_type x =? FD_INODE then fileread f n addr
      else if f_type x =? FD_PIPE then piperead (f_pipe x) addr n
      else ret (-1)
  end.

(* ------------------------------------------------------------------ *)
(** ** write *)

(** Fetch a chunk of [n] bytes from [user_addr]: [None] when a page is missing. *)
Fixpoint write_fetch (p : nat) (n : nat) (user_addr : Z) : M (kernel D) (option (list Z)) :=
  match n with
  | O => ret (Some [])
  | S n' =>
      let! a := user_byte p user_addr in
      match a with
      | None => ret None
      | Some a =>
          let! c := lmem (ld8 a) in
          let! r := write_fetch p n' (u64 (user_addr + 1)) in
          ret (match r with Some bs => Some (c :: bs) | None => None end)
      end
  end.

(** The end of a round of [sys_write] with [r] the count the chunk of [chunk]
    bytes wrote. *)
Definition write_account (user_addr total left_ chunk r : Z) : Z * Z * Z + Z :=
  if r <? 0 then inr (if 0 <? total then total else -1)
  else
    let total := s32 (total + r) in
    let left_ := s32 (left_ - r) in
    if r <? chunk then inr total else inl (user_addr, total, left_).

(** One round of the loop of [sys_write]; the loop variables are [user_addr],
    [total_written] and [left]. *)
Definition write_body (f : nat) (x : Z * Z * Z) : M (kernel D) (Z * Z * Z + Z) :=
  let '(user_addr, total, left_) := x in
  if negb (0 <? left_) then ret (inr total)
  else
    let! p := myproc in
    let chunk := if left_ <? 128 then left_ else 128 in
    let! bs := write_fetch p (Z.to_nat chunk) user_addr in
    let user_addr := u64 (user_addr + chunk) in
    match bs with
    | None => ret (inr (if 0 <? total then total else -1))
    | Some buf =>
        let! fx := getf f in
        if f_type fx =? FD_CONSOLE then
          console_print_all buf ;;; ret (write_account user_addr total left_ chunk chunk)
        else if f_type fx =? FD_INODE then
          let! r := filewrite f buf in ret (write_account user_addr total left_ chunk r)
        else if f_type fx =? FD_PIPE then
          let! r := pipewrite (KWrite f user_addr total left_ buf) (f_pipe fx) buf chunk in
          ret (write_account user_addr total left_ chunk r)
        else
          console_print_all (str "[Trace: UNKNOWN file type!]" ++ [10]) ;;;
          ret (inr (-1))
    end.

Definition write_loop (f : nat) (x : Z * Z * Z) : M (kernel D) Z :=
  loop (Z.to_nat (snd x / 128) + 2) (write_body f) x.

(** The writer that slept in [pipewrite] at index [i] of its chunk runs again. *)
Definition write_resume (f : nat) (user_addr total left_ : Z) (buf : list Z) (i : Z)
    : M (kernel D) Z :=
  let chunk := Z.of_nat (length buf) in
  let! fx := getf f in
  let! r := pipewrite_resume (KWrite f user_addr total left_ buf) (f_pipe fx) buf chunk i in
  match write_account user_addr total left_ chunk r with
  | inr r => ret r
  | inl x => write_loop f x
  end.

Definition sys_write : M (kernel D) Z :=
  let! fd := argint 0 in
  let! len := argint 2 in
  let! addr := argaddr 1 in
  let! f := fd_file fd in
  match f with
  | None => ret (-1)
  | Some f =>
      let! x := getf f in
      if f_writable x =? 0 then ret (-1) else write_loop f (addr, 0, len)
  end.

(* ------------------------------------------------------------------ *)
(** ** Descriptors *)

Definition sys_fstat : M (kernel D) Z :=
  let! fd := argint 0 in
  let! st := argaddr 1 in
  let! f := fd_file fd in
  match f with
  | None => ret (-1)
  | Some f => filestat f st
  end.

Definition sys_dup : M (kernel D) Z :=
  let! oldfd := argint 0 in
  let! f := fd_file oldfd in
  match f with
  | None => ret (-1)
  | Some f =>
      let! newfd := fdalloc f in
      if newfd <? 0 then ret (-1) else filedup f ;;; ret newfd
  end.

Definition sys_dup2 : M (kernel D) Z :=
  let! p := myproc in
  let! oldfd := argint 0 in
  let! newfd := argint 1 in
  if (oldfd <? 0) || (Z.of_nat NOFILE <=? oldfd) || (newfd <? 0) || (Z.of_nat NOFILE <=? newfd)
  then ret (-1)
  else
    let! f := fd_file oldfd in
    match f with
    | None => ret (-1)
    | Some f =>
        if oldfd =? newfd then ret newfd
        else
          (let! g := fd_file newfd in
           match g with
           | Some g => fileclose g ;;; set_ofile p (Z.to_nat newfd) None
           | None => ret tt
           end) ;;;
          set_ofile p (Z.to_nat newfd) (Some f) ;;;
          filedup f ;;;
          ret newfd
    end.

(** The loop of [sys_pipe] that stores the bytes of the two descriptors at
    [dst_va]: whether it got to the end. *)
Fixpoint pipe_put_fds (p : nat) (src : list Z) (dst_va : Z) : M (kernel D) bool :=
  match src with
  | [] => ret true
  | c :: src' =>
      let! a := user_byte p dst_va in
      match a with
      | None => ret false
      | Some a => lmem (st8 a c) ;;; pipe_put_fds p src' (u64 (dst_va + 1))
      end
  end.

(** The cleanup at [bad] of one end. *)
Definition pipe_undo (p : nat) (f : option nat) (fd : Z) : M (kernel D) unit :=
  match f with
  | None => ret tt
  | Some f =>
      when (0 <=? fd) (set_ofile p (Z.to_nat fd) None) ;;;
      fileclose f
  end.
Definition pipe_bad (p : nat) (pi : Z) (rf wf : option nat) (fd0 fd1 : Z) : M (kernel D) Z :=
  when (negb (pi =? 0)) (lmem (kfree pi)) ;;;
  pipe_undo p rf fd0 ;;;
  pipe_undo p wf fd1 ;;;
  ret (-1).

Definition pipe_end (f : nat) (readable writable pi : Z) : M (kernel D) unit :=
  setf f (file_set_type FD_PIPE) ;;;
  setf f (file_set_readable readable) ;;;
  setf f (file_set_writable writable) ;;;
  setf f (file_set_pipe pi).

Definition sys_pipe : M (kernel D) Z :=
  let! p := myproc in
  let! fdarray := argaddr 0 in
  let! pi := lmem kalloc in
  if pi =? 0 then pipe_bad p pi None None (-1) (-1)
  else
    initlock (LkPipe pi) (str_addr "pipe") ;;;
    pi_st pi PI_nread 0 ;;;
    pi_st pi PI_nwrite 0 ;;;
    pi_st pi PI_readopen 1 ;;;
    pi_st pi PI_writeopen 1 ;;;
    let! rf := filealloc in
    match rf with
    | None => pipe_bad p pi None None (-1) (-1)
    | Some r =>
        let! wf := filealloc in
        match wf with
        | None => pipe_bad p pi rf None (-1) (-1)
        | Some w =>
            pipe_end r 1 0 pi ;;;
            pipe_end w 0 1 pi ;;;
            let! fd0 := fdalloc r in
            if fd0 <? 0 then pipe_bad p pi rf wf fd0 (-1)
            else
              let! fd1 := fdalloc w in
              if fd1 <? 0 then pipe_bad p pi rf wf fd0 fd1
              else
                let! ok := pipe_put_fds p (le_bytes 4 fd0 ++ le_bytes 4 fd1) fdarray in
                if ok then ret 0 else pipe_bad p pi rf wf fd0 fd1
        end
    end.

Definition sys_lseek : M (kernel D) Z :=
  let! a := argfd 0 in
  match a with
  | None => ret (-1)
  | Some (_, f) =>
      let! offset := argint 1 in
      let! whence := argint 2 in
      if whence =? 0 then
        setf f (file_set_off (u32 offset)) ;;; (let! x := getf f in ret (f_off x))
      else if whence =? 1 then
        setf f (fun x => file_set_off (u32 (f_off x + offset)) x) ;;;
        (let! x := getf f in ret (f_off x))
      else if whence =? 2 then
        let! ip := file_ip f in
        let! i := lfs (geti ip) in
        setf f (file_set_off (u32 (i_size i + offset))) ;;;
        (let! x := getf f in ret (f_off x))
      else ret (-1)
  end.

(** The zero fill of [sys_ftruncate]: whether every [writei] wrote all. *)
Definition ftruncate_fill (ip : nat) (len : Z) (_ : unit) : M (kernel D) (unit + bool) :=
  let! x := lfs (geti ip) in
  if negb (s32 (i_size x) <? len) then ret (inr true)
  else
    let n := s32 (len - s32 (i_size x)) in
    let off := i_size x in
    let n := if 128 <? n then 128 else n in
    let! r := lfs (writei ip (replicate (Z.to_nat n) 0) off) in
    if negb (r =? n) then ret (inr false) else ret (inl tt).

Definition sys_ftruncate : M (kernel D) Z :=
  let! fd := argint 0 in
  let! length := argint 1 in
  let! f := fd_file fd in
  match f with
  | None => ret (-1)
  | Some f =>
      let! x := getf f in
      if negb (f_type x =? FD_INODE) || (f_writable x =? 0) || (length <? 0) then ret (-1)
      else
        let! ip := file_ip f in
        lfs (ilock ip) ;;;
        let! i := lfs (geti ip) in
        if negb (i_type i =? T_FILE) then lfs (iunlock ip) ;;; ret (-1)
        else
          let! ok :=
            (if length =? 0 then lfs (itrunc ip) ;;; ret true
             else if s32 (i_size i) <? length then
               loop (Z.to_nat ((length - s32 (i_size i)) / 128) + 2) (ftruncate_fill ip length) tt
             else
               lfs (seti ip (inode_set_size (u32 length))) ;;;
               lfs (iupdate ip) ;;;
               ret true) in
          if negb ok then lfs (iunlock ip) ;;; ret (-1)
          else
            (let! x := getf f in
             when (u32 length <? f_off x) (setf f (file_set_off (u32 length)))) ;;;
            lfs (iunlock ip) ;;;
            ret 0
  end.
End sysfile.
