(* ===== verification/Sysproc.v ===== *)
(** The process and directory calls of [kernel/syscall/sysproc.c]: exit, wait,
    fork, sbrk, mkdir, chdir, getcwd, unlink and rename. *)

From S2P Require Import Prelude Memory Kalloc Vm Str Bio Fs Path.
From S2P Require Import Kernel Spinlock Proc Pipe File Console Syscall.

Section sysproc.
Context `{Image} {D : Type} `{BlockDev D}.

Definition sys_getpid : M (kernel D) Z :=
  let! p := myproc in let! x := getp p in ret (p_pid x).

(* ------------------------------------------------------------------ *)
(** ** exit, wait, fork *)

(** [if (p->ofile[fd]) { fileclose(p->ofile[fd]); p->ofile[fd] = 0; }] *)
Definition exit_close (p fd : nat) : M (kernel D) unit :=
  let! x := getp p in
  match default None (p_ofile x !! fd) with
  | None => ret tt
  | Some f => fileclose f ;;; set_ofile p fd None
  end.

(** [proc_exit(status)]; the final [swtch] never comes back. *)
Definition proc_exit {A} (status : Z) : M (kernel D) A :=
  let! p := myproc in
  setp p (proc_set_xstate status) ;;;
  setp p (proc_set_status TASK_ZOMBIE) ;;;
  for_range 0 NOFILE (exit_close p) ;;;
  (let! x := getp p in
   match p_cwd x with
   | None => ret tt
   | Some ip => lfs (iput ip) ;;; setp p (proc_set_cwd None)
   end) ;;;
  (let! x := getp p in wakeup (proc_ptr_opt (p_parent x))) ;;;
  acquire (LkProc p) ;;;
  sched ;;;
  swtch p KNone.

Definition sys_exit : M (kernel D) Z :=
  let! status := argint 0 in proc_exit status.

(** The scan of [sys_wait] over [n] entries from [son]: the value to return, or
    whether there are children. *)
Fixpoint wait_scan (p : nat) (addr : Z) (son n : nat) (have_kids : bool)
    : M (kernel D) (Z + bool) :=
  match n with
  | O => ret (inr have_kids)
  | S n' =>
      let! x := getp son in
      if bool_decide (p_parent x = Some p) then
        acquire (LkProc son) ;;;
        let! x := getp son in
        if bool_decide (p_status x = TASK_ZOMBIE) then
          let pid := p_pid x in
          let! px := getp p in
          let! bad :=
            (if addr =? 0 then ret false
             else
               let! r := lmem (copyout (p_pagetable px) addr (le_bytes 4 (p_xstate x))) in
               ret (r <? 0)) in
          if bad then
            release (LkProc son) ;;; release (LkProc p) ;;; ret (inl (-1))
          else
            setp son (proc_set_status TASK_FREE) ;;;
            setp son (proc_set_pid 0) ;;;
            setp son (proc_set_parent None) ;;;
            setp son (proc_set_killed 0) ;;;
            setp son (proc_set_xstate 0) ;;;
            setp son (proc_set_chan 0) ;;;
            release (LkProc son) ;;;
            release (LkProc p) ;;;
            ret (inl pid)
        else
          release (LkProc son) ;;; wait_scan p addr (S son) n' true
      else wait_scan p addr (S son) n' have_kids
  end.

(** One round of the [for (;;)] of [sys_wait], with [p->lock] held. *)
Definition wait_round (addr : Z) : M (kernel D) Z :=
  let! p := myproc in
  let! r := wait_scan p addr 0 NPROC false in
  match r with
  | inl v => ret v
  | inr have_kids =>
      let! x := getp p in
      if negb have_kids || negb (p_killed x =? 0) then release (LkProc p) ;;; ret (-1)
      else sleep (proc_ptr p) (LkProc p) (KWait addr)
  end.

Definition sys_wait : M (kernel D) Z :=
  let! p := myproc in
  let! addr := argaddr 0 in
  acquire (LkProc p) ;;;
  wait_round addr.

Definition wait_resume (addr : Z) : M (kernel D) Z :=
  let! p := myproc in
  sleep_resume (LkProc p) ;;;
  wait_round addr.

(** [acquire(&np->lock); np->status = s; release(&np->lock)] *)
Definition fork_status (np : nat) (st : task_status) : M (kernel D) unit :=
  acquire (LkProc np) ;;;
  setp np (proc_set_status st) ;;;
  release (LkProc np).

(** [if (p->ofile[i]) { np->ofile[i] = p->ofile[i]; filedup(p->ofile[i]); }] *)
Definition fork_dup (p np i : nat) : M (kernel D) unit :=
  let! x := getp p in
  match default None (p_ofile x !! i) with
  | None => ret tt
  | Some f => set_ofile np i (Some f) ;;; filedup f ;;; ret tt
  end.

Definition sys_fork : M (kernel D) Z :=
  let! p := myproc in
  let! r := allocproc in
  match r with
  | None => ret (-1)
  | Some np =>
      let! ks := lmem kalloc in
      setp np (proc_set_kstack ks) ;;;
      let! nx := getp np in
      if ks =? 0 then
        lmem (kfree (p_trapframe nx)) ;;;
        fork_status np TASK_FREE ;;;
        ret (-1)
      else
        setp np (proc_set_sp (u64 (ks + PGSIZE))) ;;;
        setp np (proc_set_ra forkret_addr) ;;;
        setp np (proc_set_kont KForkret) ;;;
        let! pt := lmem (proc_pagetable (p_trapframe nx)) in
        setp np (proc_set_pagetable pt) ;;;
        if pt =? 0 then
          lmem (kfree ks) ;;;
          lmem (kfree (p_trapframe nx)) ;;;
          fork_status np TASK_FREE ;;;
          ret (-1)
        else
          let! px := getp p in
          lmem (upd_mem (fun m => memmove m (p_trapframe nx) (p_trapframe px) TF_size)) ;;;
          tf_st np TF_a0 0 ;;;
          let! r := lmem (uvmcopy (p_pagetable px) pt (p_sz px)) in
          if r <? 0 then ret (-1)
          else
            setp np (proc_set_sz (p_sz px)) ;;;
            for_range 0 NOFILE (fork_dup p np) ;;;
            setp np (proc_set_parent (Some p)) ;;;
            (match p_cwd px with
             | None => ret tt
             | Some ip => let! ip := lfs (idup ip) in setp np (proc_set_cwd (Some ip))
             end) ;;;
            setp np (fun nx => proc_set_cwd_path
              (safestrcpy (p_cwd_path nx)
                 (if negb (chr (p_cwd_path px) =? 0) then p_cwd_path px else [47])
                 (Z.of_nat MAXPATH)) nx) ;;;
            fork_status np TASK_READY ;;;
            let! nx := getp np in
            ret (p_pid nx)
  end.

Definition sys_sbrk : M (kernel D) Z :=
  let! n := argint 0 in
  let! p := myproc in
  let! x := getp p in
  let addr := s32 (p_sz x) in
  let! r := growproc n in
  if r <? 0 then ret (-1) else ret addr.

(* ------------------------------------------------------------------ *)
(** ** Directories *)

Definition sys_mkdir : M (kernel D) Z :=
  let! '(n, path) := argstr 0 (Z.of_nat MAXPATH) in
  if n <? 0 then ret (-1)
  else
    let! '(dp, name) := knameiparent path in
    match dp with
    | None => ret (-1)
    | Some dp =>
        lfs (ilock dp) ;;;
        let! r := lfs (dirlookup dp name) in
        match r with
        | Some (ip, _) =>
            lfs (iunlockput dp) ;;; lfs (ilock ip) ;;; lfs (iunlockput ip) ;;; ret (-1)
        | None =>
            let! dx := lfs (geti dp) in
            let! ip := lfs (ialloc (i_dev dx) T_DIR) in
            lfs (ilock ip) ;;;
            lfs (seti ip (inode_set_nlink 2)) ;;;
            let! ix := lfs (geti ip) in
            let! r1 := lfs (dirlink ip [46] (i_inum ix)) in
            let! bad :=
              (if r1 <? 0 then ret true
               else let! r2 := lfs (dirlink ip [46; 46] (i_inum dx)) in ret (r2 <? 0)) in
            if bad then lfs (iunlockput ip) ;;; lfs (iunlockput dp) ;;; ret (-1)
            else
              let! r := lfs (dirlink dp name (i_inum ix)) in
              if r <? 0 then lfs (iunlockput ip) ;;; lfs (iunlockput dp) ;;; ret (-1)
              else
                lfs (seti dp (fun x => inode_set_nlink (s16 (i_nlink x + 1)) x)) ;;;
                lfs (iupdate dp) ;;;
                lfs (iupdate ip) ;;;
                lfs (iunlockput dp) ;;;
                lfs (iunlockput ip) ;;;
                ret 0
        end
    end.

Definition sys_chdir : M (kernel D) Z :=
  let! p := myproc in
  let! '(n, path) := argstr 0 128 in
  if n <? 0 then ret (-1)
  else
    let! r := knamei path in
    match r with
    | None => ret (-1)
    | Some ip =>
        lfs (ilock ip) ;;;
        let! x := lfs (geti ip) in
        if negb (i_type x =? T_DIR) then lfs (iunlockput ip) ;;; ret (-1)
        else
          lfs (iunlock ip) ;;;
          let! px := getp p in
          match normalize_cwd_path (uninit MAXPATH) (p_cwd_path px) path (uninit MAXPATH)
                  (Z.of_nat MAXPATH) with
          | None => stop_with NoFuel
          | Some (r, next_path) =>
              if r <? 0 then lfs (iput ip) ;;; ret (-1)
              else
                match p_cwd px with
                | None => fault "iput(0)"
                | Some old => lfs (iput old)
                end ;;;
                setp p (proc_set_cwd (Some ip)) ;;;
                setp p (fun x => proc_set_cwd_path
                  (safestrcpy (p_cwd_path x) next_path (Z.of_nat MAXPATH)) x) ;;;
                ret 0
          end
    end.

Definition sys_getcwd : M (kernel D) Z :=
  let! p := myproc in
  let! px := getp p in
  let cwd := if negb (chr (p_cwd_path px) =? 0) then p_cwd_path px else [47] in
  let len := strlen cwd + 1 in
  let! addr := argaddr 0 in
  let! size := argint 1 in
  if (size <=? 0) || (size <? len) then ret 0
  else
    let! r := lmem (copyout (p_pagetable px) addr (cstr cwd ++ [0])) in
    if r <? 0 then ret 0 else ret addr.

(** An all-zero [struct dirent]. *)
Definition dirent0 : list Z := replicate 16 0.

Definition sys_unlink : M (kernel D) Z :=
  let! '(n, path) := argstr 0 (Z.of_nat MAXPATH) in
  if n <? 0 then ret (-1)
  else
    let! '(dp, name) := knameiparent path in
    match dp with
    | None => ret (-1)
    | Some dp =>
        lfs (ilock dp) ;;;
        if (namecmp name [46] =? 0) || (namecmp name [46; 46] =? 0) then
          lfs (iunlockput dp) ;;; ret (-1)
        else
          let! r := lfs (dirlookup dp name) in
          match r with
          | None => lfs (iunlockput dp) ;;; ret (-1)
          | Some (ip, offset) =>
              lfs (ilock ip) ;;;
              let! w := lfs (writei dp dirent0 offset) in
              if negb (w =? 16) then panic "unlink: writei"
              else
                (let! x := lfs (geti ip) in
                 when (i_type x =? T_DIR)
                   (lfs (seti dp (fun x => inode_set_nlink (s16 (i_nlink x - 1)) x)) ;;;
                    lfs (iupdate dp))) ;;;
                lfs (seti ip (fun x => inode_set_nlink (s16 (i_nlink x - 1)) x)) ;;;
                lfs (iupdate ip) ;;;
                lfs (iunlockput ip) ;;;
                lfs (iunlockput dp) ;;;
                ret 0
          end
    end.

(** The tails at [bad_new_dp] and [bad_ip] of [sys_rename]. *)
Definition rename_bad_ip (ip old_dp : nat) : M (kernel D) Z :=
  lfs (iunlockput ip) ;;; lfs (iunlockput old_dp) ;;; ret (-1).
Definition rename_bad_new (new_dp ip old_dp : nat) : M (kernel D) Z :=
  lfs (iunlockput new_dp) ;;; rename_bad_ip ip old_dp.

(** [sys_rename] from the existing target on: [true] when it was removed (or
    there was none), [false] at [bad_target]. *)
Definition rename_target (new_dp : nat) (new_name : list Z) : M (kernel D) bool :=
  let! r := lfs (dirlookup new_dp new_name) in
  match r with
  | None => ret true
  | Some (target, target_off) =>
      lfs (ilock target) ;;;
      let! x := lfs (geti target) in
      if negb (i_type x =? T_FILE) then lfs (iunlockput target) ;;; ret false
      else
        let! w := lfs (writei new_dp dirent0 target_off) in
        if negb (w =? 16) then panic "rename: unlink target"
        else
          lfs (seti target (fun x => inode_set_nlink (s16 (i_nlink x - 1)) x)) ;;;
          lfs (iupdate target) ;;;
          lfs (iunlockput target) ;;;
          ret true
  end.

Definition rename_move (old_dp ip new_dp : nat) (old_off : Z) (new_name : list Z)
    : M (kernel D) Z :=
  let! ok := rename_target new_dp new_name in
  if negb ok then rename_bad_new new_dp ip old_dp
  else
    let! ix := lfs (geti ip) in
    let! r := lfs (dirlink new_dp new_name (i_inum ix)) in
    if r <? 0 then rename_bad_new new_dp ip old_dp
    else
      let! w := lfs (writei old_dp dirent0 old_off) in
      if negb (w =? 16) then panic "rename: unlink old"
      else
        lfs (iunlockput new_dp) ;;;
        lfs (iunlockput ip) ;;;
        lfs (iunlockput old_dp) ;;;
        ret 0.

Definition sys_rename : M (kernel D) Z :=
  let! '(n1, old_path) := argstr 0 (Z.of_nat MAXPATH) in
  if n1 <? 0 then ret (-1)
  else
    let! '(n2, new_path) := argstr 1 (Z.of_nat MAXPATH) in
    if n2 <? 0 then ret (-1)
    else
      let! '(old_dp, old_name) := knameiparent old_path in
      match old_dp with
      | None => ret (-1)
      | Some old_dp =>
          lfs (ilock old_dp) ;;;
          if (namecmp old_name [46] =? 0) || (namecmp old_name [46; 46] =? 0) then
            lfs (iunlockput old_dp) ;;; ret (-1)
          else
            let! r := lfs (dirlookup old_dp old_name) in
            match r with
            | None => lfs (iunlockput old_dp) ;;; ret (-1)
            | Some (ip, old_off) =>
                lfs (ilock ip) ;;;
                let! x := lfs (geti ip) in
                if negb (i_type x =? T_FILE) then rename_bad_ip ip old_dp
                else
                  let! '(new_dp, new_name) := knameiparent new_path in
                  match new_dp with
                  | None => rename_bad_ip ip old_dp
                  | Some new_dp =>
                      lfs (ilock new_dp) ;;;
                      if (namecmp new_name [46] =? 0) || (namecmp new_name [46; 46] =? 0) then
                        rename_bad_new new_dp ip old_dp
                      else
                        let! ox := lfs (geti old_dp) in
                        let! nx := lfs (geti new_dp) in
                        if (i_dev ox =? i_dev nx) && (i_inum ox =? i_inum nx) &&
                           (namecmp old_name new_name =? 0) then
                          lfs (iunlockput new_dp) ;;;
                          lfs (iunlockput ip) ;;;
                          lfs (iunlockput old_dp) ;;;
                          ret 0
                        else rename_move old_dp ip new_dp old_off new_name
                  end
            end
      end.
End sysproc.
