(* ===== verification/Exec.v ===== *)
(** Program loading: [sys_exec] of [kernel/syscall/sysproc.c], with the ELF
    structures of [kernel/include/elf.h]. *)

From S2P Require Import Prelude Memory Kalloc Vm Str Bio Fs.
From S2P Require Import Kernel Spinlock Proc Pipe File Console Syscall.

Definition ELF_MAGIC : Z := 1179403647.
Definition ELF_PROG_LOAD : Z := 1.

(** The fields of [struct elfhdr] and [struct proghdr] the loader reads. *)
Record elfhdr := Elfhdr { e_magic : Z; e_entry : Z; e_phoff : Z; e_phnum : Z }.
Record proghdr := Proghdr {
  ph_type : Z; ph_off : Z; ph_vaddr : Z; ph_filesz : Z; ph_memsz : Z;
}.
Definition get64 (d : list Z) (off : nat) : Z := le_val (slice d off 8).
Definition elfhdr_of (b : list Z) : elfhdr :=
  Elfhdr (get32 b 0) (get64 b 24) (get64 b 32) (get16 b 56).
Definition proghdr_of (b : list Z) : proghdr :=
  Proghdr (get32 b 0) (get64 b 8) (get64 b 16) (get64 b 32) (get64 b 40).

Section exec.
Context `{Image} {D : Type} `{BlockDev D}.

Definition kprint (fmt : string) (ap : list varg) : M (kernel D) unit :=
  printf (Some (str fmt ++ [10])) ap.

(* ------------------------------------------------------------------ *)
(** ** Arguments *)

(** One round of the loops that fetch [argv] and [env]: the pages so far, in
    order. The result is whether the loop ended well. *)
Definition fetch_args_body (uargv : Z) (x : list Z) : M (kernel D) (list Z + bool * list Z) :=
  let argc := Z.of_nat (length x) in
  if negb (argc <? Z.of_nat MAXARG) then ret (inr (true, x))
  else
    let! r := fetchaddr (u64 (uargv + 8 * argc)) in
    match r with
    | None => ret (inr (false, x))
    | Some uarg =>
        if uarg =? 0 then ret (inr (true, x))
        else
          let! page := lmem kalloc in
          if page =? 0 then ret (inr (false, x))
          else
            let! '(r, _) := fetchstr (Some page) uarg PGSIZE in
            if r <? 0 then ret (inr (false, x ++ [page])) else ret (inl (x ++ [page]))
    end.
Definition fetch_args (uargv : Z) : M (kernel D) (bool * list Z) :=
  loop (MAXARG + 1) (fetch_args_body uargv) [].

(** The release of the argument pages, both at the end and at [bad]. *)
Definition free_args (argv env : list Z) : M (kernel D) unit :=
  for_range 0 MAXARG (fun i =>
    (match argv !! i with Some a => lmem (kfree a) | None => ret tt end) ;;;
    (match env !! i with Some a => lmem (kfree a) | None => ret tt end)).

(** [myproc()->trapframe], for the page table functions. *)
Definition my_trapframe : M (kernel D) Z :=
  let! p := myproc in let! x := getp p in ret (p_trapframe x).

(** The code at [bad]; [ip] is [None] when it is null. *)
Definition exec_bad (argv env : list Z) (new_pagetable : Z) (ip : option nat)
    : M (kernel D) Z :=
  free_args argv env ;;;
  when (negb (new_pagetable =? 0))
    (let! tf := my_trapframe in lmem (proc_freepagetable tf new_pagetable)) ;;;
  match ip with
  | Some ip => lfs (iunlockput ip) ;;; ret (-1)
  | None => ret (-1)
  end.
(** At [bad] before [namei] the local [ip] has no value yet, and [if (ip)] reads
    it. *)
Definition exec_bad_early (argv env : list Z) : M (kernel D) Z :=
  free_args argv env ;;;
  fault "exec: ip is not initialised".

(* ------------------------------------------------------------------ *)
(** ** Segments *)

(** Pages for [a .. va_end); the loop variable is [a]. *)
Definition exec_map_body (pagetable va_end perm : Z) (a : Z) : M (kernel D) (Z + bool) :=
  if negb (a <? va_end) then ret (inr true)
  else
    let! pa := lmem kalloc in
    if pa =? 0 then ret (inr false)
    else
      lmem (upd_mem (fun m => memset m pa 0 PGSIZE)) ;;;
      let! r := lmem (mappages pagetable pa a PGSIZE perm) in
      if r <? 0 then lmem (kfree pa) ;;; ret (inr false)
      else ret (inl (u64 (a + PGSIZE))).

Definition PTE_RWXU : Z := Z.lor (Z.lor (Z.lor PTE_R PTE_W) PTE_X) PTE_U.

(** The [while (file_sz > 0)] loop; the loop variables are [seg_va], [file_off]
    and [file_sz]. *)
Definition exec_read_body (ip : nat) (pagetable vaddr : Z) (x : Z * Z * Z)
    : M (kernel D) (Z * Z * Z + bool) :=
  let '(seg_va, file_off, file_sz) := x in
  if negb (0 <? file_sz) then ret (inr true)
  else
    let a := PGROUNDDOWN seg_va in
    let offset_in_page := seg_va - a in
    let n := PGSIZE - offset_in_page in
    let n := if file_sz <? n then file_sz else n in
    let! pte := lmem (walk pagetable a false) in
    if pte =? 0 then ret (inr false)
    else
      let! v := lmem (ld64 pte) in
      if negb (has v PTE_V) then ret (inr false)
      else
        let! r := lfs (readi ip (DPhys (PTE2PA v + offset_in_page)) (u32 file_off) (u32 n)) in
        let r := fst r in
        if negb (u64 r =? n) then
          printf (Some [10]) [] ;;;
          kprint "[EXEC FATAL] readi 翻车现场！" [] ;;;
          kprint " -> 当前 ELF 段 vaddr : 0x%lx" [VInt vaddr] ;;;
          kprint " -> 想要读取的字节数 n: %d" [VInt (s32 n)] ;;;
          kprint " -> 实际读到的字节数 r: %d" [VInt r] ;;;
          kprint " -> 翻车时的文件偏移 file_off: %d" [VInt (s32 file_off)] ;;;
          ret (inr false)
        else ret (inl (u64 (seg_va + n), u64 (file_off + n), file_sz - n)).

(** One loadable segment. *)
Definition exec_segment (ip : nat) (pagetable : Z) (ph : proghdr) : M (kernel D) bool :=
  let va_start := PGROUNDDOWN (ph_vaddr ph) in
  let va_end := PGROUNDUP (u64 (ph_vaddr ph + ph_memsz ph)) in
  let! ok := loop (Z.to_nat ((va_end - va_start) / PGSIZE) + 2)
               (exec_map_body pagetable va_end PTE_RWXU) va_start in
  if negb ok then ret false
  else loop (Z.to_nat (ph_filesz ph / PGSIZE) + 3)
         (exec_read_body ip pagetable (ph_vaddr ph)) (ph_vaddr ph, ph_off ph, ph_filesz ph).

(** One round of the loop over the program headers; the loop variables are [i],
    [off] and [sz]. *)
Definition exec_phdr_body (ip : nat) (pagetable phnum : Z) (x : Z * Z * Z)
    : M (kernel D) (Z * Z * Z + bool * Z) :=
  let '(i, off, sz) := x in
  if negb (i <? phnum) then ret (inr (true, sz))
  else
    let! '(r, b) := lfs (readi_local ip (u32 off) 56) in
    if negb (r =? 56) then ret (inr (false, sz))
    else
      let ph := proghdr_of b in
      let off := s32 (off + 56) in
      if negb (ph_type ph =? ELF_PROG_LOAD) then ret (inl (i + 1, off, sz))
      else if ph_memsz ph <? ph_filesz ph then ret (inr (false, sz))
      else if u64 (ph_vaddr ph + ph_memsz ph) <? ph_vaddr ph then ret (inr (false, sz))
      else
        let! ok := exec_segment ip pagetable ph in
        if negb ok then ret (inr (false, sz))
        else
          let top := u64 (ph_vaddr ph + ph_memsz ph) in
          ret (inl (i + 1, off, if sz <? top then top else sz)).

(* ------------------------------------------------------------------ *)
(** ** The stack *)

(** The stub a program that returns runs: [li a7, 2; li a0, 0; ecall]. *)
Definition exitcode : list Z := le_bytes 4 2099347 ++ le_bytes 4 1299 ++ le_bytes 4 115.

Definition exec_stub (pagetable exitstub : Z) : M (kernel D) bool :=
  let! pa := lmem kalloc in
  if pa =? 0 then ret false
  else
    lmem (upd_mem (fun m => memset m pa 0 PGSIZE)) ;;;
    lmem (upd_mem (fun m => store_bytes m pa exitcode)) ;;;
    let! r := lmem (mappages pagetable pa exitstub PGSIZE (Z.lor (Z.lor PTE_R PTE_X) PTE_U)) in
    if r <? 0 then lmem (kfree pa) ;;; ret false else ret true.

(** The loop that maps the stack pages from [sz] on; the loop variable is [i]. *)
Definition exec_stack_body (pagetable sz stack_pages : Z) (i : Z) : M (kernel D) (Z + bool) :=
  if negb (i <? stack_pages) then ret (inr true)
  else
    let! pa := lmem kalloc in
    if pa =? 0 then ret (inr false)
    else
      lmem (upd_mem (fun m => memset m pa 0 PGSIZE)) ;;;
      let! r := lmem (mappages pagetable pa (u64 (sz + i * PGSIZE)) PGSIZE
                        (Z.lor (Z.lor PTE_R PTE_W) PTE_U)) in
      if r <? 0 then lmem (kfree pa) ;;; ret (inr false) else ret (inl (i + 1)).

(** [sp -= len; sp -= sp % 16] *)
Definition stack_down (sp len : Z) : Z :=
  let sp := u64 (sp - len) in u64 (sp - sp mod 16).

(** The string in a kernel page ([fetchstr] put a NUL within it). *)
Definition page_str (a : Z) : M (kernel D) (list Z) :=
  lmem (gets (fun s => cstr (load_bytes (km_mem s) a (Z.to_nat PGSIZE)))).

(** The loops that push the strings of the pages [l]: the final [sp] and the
    addresses of the strings, or [None] at [bad]. *)
Fixpoint push_strings (pagetable stackbase : Z) (l : list Z) (sp : Z) (ustack : list Z)
    : M (kernel D) (option (Z * list Z)) :=
  match l with
  | [] => ret (Some (sp, ustack))
  | a :: l' =>
      let! s := page_str a in
      let sp := stack_down sp (strlen s + 1) in
      if sp <? stackbase then ret None
      else
        let! r := lmem (copyout pagetable sp (s ++ [0])) in
        if r <? 0 then ret None
        else push_strings pagetable stackbase l' sp (ustack ++ [sp])
  end.

(** Push an array of pointers and its null terminator: the new [sp]. *)
Definition push_vector (pagetable stackbase sp : Z) (ustack : list Z) : M (kernel D) (option Z) :=
  let sp := stack_down sp ((Z.of_nat (length ustack) + 1) * 8) in
  if sp <? stackbase then ret None
  else
    let! r := lmem (copyout pagetable sp ((ustack ++ [0]) ≫= le_bytes 8)) in
    if r <? 0 then ret None else ret (Some sp).

(** The whole of step 6: [sp], [argv_user] and [envp_user]. *)
Definition exec_stack (pagetable stackbase sp : Z) (argv env : list Z)
    : M (kernel D) (option (Z * Z * Z)) :=
  let! r := push_strings pagetable stackbase argv sp [] in
  match r with
  | None => ret None
  | Some (sp, ustack) =>
      let! r := push_strings pagetable stackbase env sp [] in
      match r with
      | None => ret None
      | Some (sp, envstack) =>
          let! r := push_vector pagetable stackbase sp envstack in
          match r with
          | None => ret None
          | Some envp_user =>
              let! r := push_vector pagetable stackbase envp_user ustack in
              match r with
              | None => ret None
              | Some argv_user => ret (Some (argv_user, argv_user, envp_user))
              end
          end
      end
  end.

(* ------------------------------------------------------------------ *)
(** ** sys_exec *)

(** Step 7: the process changes to the new address space. *)
Definition exec_commit (elf : elfhdr) (new_pagetable sz exitstub : Z) (argv env : list Z)
    (sp argv_user envp_user : Z) : M (kernel D) Z :=
  let! p := myproc in
  let! px := getp p in
  let old_pagetable := p_pagetable px in
  setp p (proc_set_pagetable new_pagetable) ;;;
  setp p (proc_set_sz sz) ;;;
  lmem (upd_mem (fun m => memset m (p_trapframe px) 0 PGSIZE)) ;;;
  tf_st p TF_epc (e_entry elf) ;;;
  tf_st p TF_ra exitstub ;;;
  tf_st p TF_sp sp ;;;
  tf_st p TF_a0 (Z.of_nat (length argv)) ;;;
  tf_st p TF_a1 argv_user ;;;
  tf_st p TF_a2 envp_user ;;;
  free_args argv env ;;;
  when (negb (old_pagetable =? 0))
    (lmem (proc_freepagetable (p_trapframe px) old_pagetable)) ;;;
  ret (Z.of_nat (length argv)).

(** From the end of loading on ([ip] is null by then). *)
Definition exec_finish (elf : elfhdr) (new_pagetable sz : Z) (argv env : list Z)
    : M (kernel D) Z :=
  let bad := exec_bad argv env new_pagetable None in
  let sz := PGROUNDUP sz in
  let exitstub := sz in
  let! ok := exec_stub new_pagetable exitstub in
  if negb ok then bad
  else
    let sz := u64 (sz + PGSIZE) in
    let stack_pages := 32 in
    let! ok := loop 33 (exec_stack_body new_pagetable sz stack_pages) 0 in
    if negb ok then bad
    else
      let stackbase := sz in
      let sp := u64 (sz + stack_pages * PGSIZE) in
      let sz := u64 (sz + stack_pages * PGSIZE) in
      let! r := exec_stack new_pagetable stackbase sp argv env in
      match r with
      | None => bad
      | Some (sp, argv_user, envp_user) =>
          exec_commit elf new_pagetable sz exitstub argv env sp argv_user envp_user
      end.

(** From the locked inode on. *)
Definition exec_load (ip : nat) (argv env : list Z) : M (kernel D) Z :=
  let bad := exec_bad argv env 0 (Some ip) in
  let! '(read_len, b) := lfs (readi_local ip 0 64) in
  if negb (read_len =? 64) then
    printf (Some [10]) [] ;;;
    kprint "[EXEC FATAL] ELF 头读取失败！只读到了 %d 字节（文件可能是空的）" [VInt read_len] ;;;
    bad
  else
    let elf := elfhdr_of b in
    if negb (e_magic elf =? ELF_MAGIC) then
      printf (Some [10]) [] ;;;
      kprint "[EXEC FATAL] ELF 格式损坏！" [] ;;;
      kprint " -> 期望的魔数 (ELF_MAGIC): 0x%lx" [VInt ELF_MAGIC] ;;;
      kprint " -> 实际读到的魔数: 0x%x" [VInt (e_magic elf)] ;;;
      bad
    else
      let! '(r, b) := lfs (readi_local ip 0 64) in
      if negb (r =? 64) then bad
      else
        let elf := elfhdr_of b in
        if negb (e_magic elf =? ELF_MAGIC) then bad
        else
          let! tf := my_trapframe in
          let! new_pagetable := lmem (proc_pagetable tf) in
          if new_pagetable =? 0 then bad
          else
            let! '(ok, sz) := loop (Z.to_nat (e_phnum elf) + 1)
              (exec_phdr_body ip new_pagetable (e_phnum elf)) (0, s32 (e_phoff elf), 0) in
            if negb ok then exec_bad argv env new_pagetable (Some ip)
            else
              lfs (iunlockput ip) ;;;
              exec_finish elf new_pagetable sz argv env.

Definition sys_exec : M (kernel D) Z :=
  let! '(n, path) := argstr 0 128 in
  if n <? 0 then ret (-1)
  else
    let! uargv := argaddr 1 in
    let! uenvp := argaddr 2 in
    let! '(ok, argv) := fetch_args uargv in
    if negb ok then exec_bad_early argv []
    else
      let! '(ok, env) := (if uenvp =? 0 then ret (true, []) else fetch_args uenvp) in
      if negb ok then exec_bad_early argv env
      else
        let! r := knamei path in
        match r with
        | None => exec_bad argv env 0 None
        | Some ip =>
            lfs (ilock ip) ;;;
            exec_load ip argv env
        end.
End exec.
