(* ===== verification/Machine.v ===== *)
(** The machine around the kernel: supervisor control registers, the interrupt
    controller, the UART's receive side and the virtio disk driver's state of
    [kernel/driver/virtio_disk.c]. *)

From S2P Require Import Prelude Memory Kalloc Vm Str Bio Fs Kernel Spinlock Proc.

(** [struct virtq_desc], [struct virtio_blk_req], an entry of [disk.info]. *)
Record vdesc := Vdesc { d_addr : Z; d_len : Z; d_flags : Z; d_next : Z }.
Record vreq := Vreq { rq_type : Z; rq_reserved : Z; rq_sector : Z }.
Record vinfo := Vinfo { in_b : option nat; in_status : Z }.

(** [disk] with the rings it points to and [disk_req]; [v_used_idx] and
    [v_used_ring] (of ids) are written by the device, [v_seen] is
    [disk.used_idx]. [v_reg] are the values the device's registers read as, and
    [v_mmio] the register writes so far. *)
Record vdisk := Vdisk {
  v_lock : spinlock; v_desc : list vdesc; v_avail_idx : Z; v_avail_ring : list Z;
  v_used_idx : Z; v_used_ring : list Z; v_free : list Z; v_seen : Z; v_info : list vinfo;
  v_req : list vreq; v_reg : Z -> Z; v_mmio : list (Z * Z);
}.
Definition vdisk_set_lock (v : spinlock) (x : vdisk) : vdisk :=
  Vdisk v (v_desc x) (v_avail_idx x) (v_avail_ring x) (v_used_idx x) (v_used_ring x)
    (v_free x) (v_seen x) (v_info x) (v_req x) (v_reg x) (v_mmio x).
Definition vdisk_set_desc (v : list vdesc) (x : vdisk) : vdisk :=
  Vdisk (v_lock x) v (v_avail_idx x) (v_avail_ring x) (v_used_idx x) (v_used_ring x)
    (v_free x) (v_seen x) (v_info x) (v_req x) (v_reg x) (v_mmio x).
Definition vdisk_set_avail_idx (v : Z) (x : vdisk) : vdisk :=
  Vdisk (v_lock x) (v_desc x) v (v_avail_ring x) (v_used_idx x) (v_used_ring x)
    (v_free x) (v_seen x) (v_info x) (v_req x) (v_reg x) (v_mmio x).
Definition vdisk_set_avail_ring (v : list Z) (x : vdisk) : vdisk :=
  Vdisk (v_lock x) (v_desc x) (v_avail_idx x) v (v_used_idx x) (v_used_ring x)
    (v_free x) (v_seen x) (v_info x) (v_req x) (v_reg x) (v_mmio x).
Definition vdisk_set_used_idx (v : Z) (x : vdisk) : vdisk :=
  Vdisk (v_lock x) (v_desc x) (v_avail_idx x) (v_avail_ring x) v (v_used_ring x)
    (v_free x) (v_seen x) (v_info x) (v_req x) (v_reg x) (v_mmio x).
Definition vdisk_set_used_ring (v : list Z) (x : vdisk) : vdisk :=
  Vdisk (v_lock x) (v_desc x) (v_avail_idx x) (v_avail_ring x) (v_used_idx x) v
    (v_free x) (v_seen x) (v_info x) (v_req x) (v_reg x) (v_mmio x).
Definition vdisk_set_free (v : list Z) (x : vdisk) : vdisk :=
  Vdisk (v_lock x) (v_desc x) (v_avail_idx x) (v_avail_ring x) (v_used_idx x)
    (v_used_ring x) v (v_seen x) (v_info x) (v_req x) (v_reg x) (v_mmio x).
Definition vdisk_set_seen (v : Z) (x : vdisk) : vdisk :=
  Vdisk (v_lock x) (v_desc x) (v_avail_idx x) (v_avail_ring x) (v_used_idx x)
    (v_used_ring x) (v_free x) v (v_info x) (v_req x) (v_reg x) (v_mmio x).
Definition vdisk_set_info (v : list vinfo) (x : vdisk) : vdisk :=
  Vdisk (v_lock x) (v_desc x) (v_avail_idx x) (v_avail_ring x) (v_used_idx x)
    (v_used_ring x) (v_free x) (v_seen x) v (v_req x) (v_reg x) (v_mmio x).
Definition vdisk_set_req (v : list vreq) (x : vdisk) : vdisk :=
  Vdisk (v_lock x) (v_desc x) (v_avail_idx x) (v_avail_ring x) (v_used_idx x)
    (v_used_ring x) (v_free x) (v_seen x) (v_info x) v (v_reg x) (v_mmio x).
Definition vdisk_set_reg (v : Z -> Z) (x : vdisk) : vdisk :=
  Vdisk (v_lock x) (v_desc x) (v_avail_idx x) (v_avail_ring x) (v_used_idx x)
    (v_used_ring x) (v_free x) (v_seen x) (v_info x) (v_req x) v (v_mmio x).
Definition vdisk_set_mmio (v : list (Z * Z)) (x : vdisk) : vdisk :=
  Vdisk (v_lock x) (v_desc x) (v_avail_idx x) (v_avail_ring x) (v_used_idx x)
    (v_used_ring x) (v_free x) (v_seen x) (v_info x) (v_req x) (v_reg x) v.

(** The supervisor registers; the SIE bit of [sstatus] is [c_sie] of the CPU. *)
Record csr := Csr {
  x_stvec : Z; x_sepc : Z; x_scause : Z; x_stval : Z; x_sstatus : Z; x_sip : Z; x_sscratch : Z;
}.
Definition csr_set_stvec (v : Z) (x : csr) : csr :=
  Csr v (x_sepc x) (x_scause x) (x_stval x) (x_sstatus x) (x_sip x) (x_sscratch x).
Definition csr_set_sepc (v : Z) (x : csr) : csr :=
  Csr (x_stvec x) v (x_scause x) (x_stval x) (x_sstatus x) (x_sip x) (x_sscratch x).
Definition csr_set_scause (v : Z) (x : csr) : csr :=
  Csr (x_stvec x) (x_sepc x) v (x_stval x) (x_sstatus x) (x_sip x) (x_sscratch x).
Definition csr_set_stval (v : Z) (x : csr) : csr :=
  Csr (x_stvec x) (x_sepc x) (x_scause x) v (x_sstatus x) (x_sip x) (x_sscratch x).
Definition csr_set_sstatus (v : Z) (x : csr) : csr :=
  Csr (x_stvec x) (x_sepc x) (x_scause x) (x_stval x) v (x_sip x) (x_sscratch x).
Definition csr_set_sip (v : Z) (x : csr) : csr :=
  Csr (x_stvec x) (x_sepc x) (x_scause x) (x_stval x) (x_sstatus x) v (x_sscratch x).
Definition csr_set_sscratch (v : Z) (x : csr) : csr :=
  Csr (x_stvec x) (x_sepc x) (x_scause x) (x_stval x) (x_sstatus x) (x_sip x) v.

(** [m_claim] is what the claim register of the PLIC reads as, [m_complete] the
    values written back to it, [m_rx] the bytes waiting in the UART and [m_plic]
    the other device writes of [plicinit]. *)
Record machine (D : Type) := Machine {
  m_k : kernel D; m_disk : vdisk; m_csr : csr; m_rx : list Z; m_claim : Z;
  m_complete : list Z; m_plic : list (Z * Z);
}.
Arguments Machine {D}.
Arguments m_k {D}.
Arguments m_disk {D}.
Arguments m_csr {D}.
Arguments m_rx {D}.
Arguments m_claim {D}.
Arguments m_complete {D}.
Arguments m_plic {D}.

Section machine.
Context `{Image} {D : Type} `{BlockDev D}.

Definition lk {A} (m : M (kernel D) A) : M (machine D) A :=
  zoom m_k (fun k s => Machine k (m_disk s) (m_csr s) (m_rx s) (m_claim s) (m_complete s)
                         (m_plic s)) m.
Definition getd : M (machine D) vdisk := gets m_disk.
Definition setd (f : vdisk -> vdisk) : M (machine D) unit :=
  modify (fun s => Machine (m_k s) (f (m_disk s)) (m_csr s) (m_rx s) (m_claim s)
                     (m_complete s) (m_plic s)).
Definition getx : M (machine D) csr := gets m_csr.
Definition setx (f : csr -> csr) : M (machine D) unit :=
  modify (fun s => Machine (m_k s) (m_disk s) (f (m_csr s)) (m_rx s) (m_claim s)
                     (m_complete s) (m_plic s)).
Definition set_rx (v : list Z) : M (machine D) unit :=
  modify (fun s => Machine (m_k s) (m_disk s) (m_csr s) v (m_claim s) (m_complete s) (m_plic s)).
Definition add_complete (v : Z) : M (machine D) unit :=
  modify (fun s => Machine (m_k s) (m_disk s) (m_csr s) (m_rx s) (m_claim s)
                     (m_complete s ++ [v]) (m_plic s)).
Definition add_plic (a v : Z) : M (machine D) unit :=
  modify (fun s => Machine (m_k s) (m_disk s) (m_csr s) (m_rx s) (m_claim s)
                     (m_complete s) (m_plic s ++ [(a, v)])).
End machine.
