(* ===== verification/Virtio.v ===== *)
(** The virtio block driver, [kernel/driver/virtio_disk.c]: descriptor
    allocation, the submission of a request, its completion and the interrupt
    handler. *)

From S2P Require Import Prelude Memory Kalloc Vm Str Bio Fs Kernel Spinlock Proc Machine.

Definition NUM : nat := 8.
Definition VRING_DESC_F_NEXT : Z := 1.
Definition VRING_DESC_F_WRITE : Z := 2.
Definition VIRTIO_BLK_T_IN : Z := 0.
Definition VIRTIO_BLK_T_OUT : Z := 1.

(** Addresses of the driver's static data: the ring memory, [disk_req], the
    status byte of a request, [disk.free], and the buffers of the cache. *)
Class DiskImage := {
  vring_mem : Z;
  disk_req_addr : Z -> Z;
  status_addr : Z -> Z;
  disk_free_addr : Z;
  buf_addr : nat -> Z;
  buf_data_addr : nat -> Z;
}.

Section virtio.
Context `{Image} `{DiskImage} {D : Type} `{BlockDev D}.

(** What the device does between two polls of the used ring: a request in
    flight may have completed. *)
Variable device : machine D -> machine D.

(** [*R(r) = v] and [*R(r)] *)
Definition wreg (r v : Z) : M (machine D) unit :=
  setd (fun d => vdisk_set_mmio (v_mmio d ++ [(r, u32 v)]) d).
Definition rreg (r : Z) : M (machine D) Z := let! d := getd in ret (v_reg d r).

(** [acquire] and [release] of [disk.vdisk_lock]. *)
Definition vacquire : M (machine D) unit :=
  lk push_off ;;;
  let! d := getd in
  if negb (lk_locked (v_lock d) =? 0) then hang "acquire"
  else setd (fun d => vdisk_set_lock (Spinlock 1 (lk_name (v_lock d)) cpus_base) d).
Definition vrelease : M (machine D) unit :=
  setd (fun d => vdisk_set_lock (Spinlock 0 (lk_name (v_lock d)) 0) d) ;;;
  lk pop_off.

Definition set_free (i : Z) (v : Z) : M (machine D) unit :=
  setd (fun d => vdisk_set_free (zset (v_free d) i v) d).
Definition set_desc (i : Z) (v : vdesc) : M (machine D) unit :=
  setd (fun d => vdisk_set_desc (<[Z.to_nat i := v]> (v_desc d)) d).
Definition desc0 : vdesc := Vdesc 0 0 0 0.
Definition get_desc (i : Z) : M (machine D) vdesc :=
  let! d := getd in ret (default desc0 (v_desc d !! Z.to_nat i)).

(* ------------------------------------------------------------------ *)
(** ** Initialisation *)

Definition virtio_disk_init : M (machine D) unit :=
  setd (fun d => vdisk_set_lock (Spinlock 0 (str_addr "virtio_disk") 0) d) ;;;
  let! magic := rreg 0 in
  let! version := rreg 4 in
  let! device_id := rreg 8 in
  let! vendor := rreg 12 in
  if negb (magic =? 1953655158) || negb (version =? 1) || negb (device_id =? 2) ||
     negb (vendor =? 1431127377)
  then lk (panic "could not find virtio disk")
  else
    let status := 1 in
    wreg 112 status ;;;
    let status := Z.lor status 2 in
    wreg 112 status ;;;
    let! features := rreg 16 in
    let clear := fun f b => Z.land f (Z.lnot (Z.shiftl 1 b)) in
    let features :=
      clear (clear (clear (clear (clear (clear (clear features 5) 7) 11) 12) 27) 29) 28 in
    wreg 32 features ;;;
    let status := Z.lor status 8 in
    wreg 112 status ;;;
    wreg 40 PGSIZE ;;;
    wreg 48 0 ;;;
    let! max := rreg 52 in
    if max =? 0 then lk (panic "virtio disk has no queue 0")
    else if max <? Z.of_nat NUM then lk (panic "virtio disk max queue too short")
    else
      setd (fun d => vdisk_set_desc (replicate NUM desc0)
        (vdisk_set_avail_idx 0 (vdisk_set_avail_ring (replicate NUM 0)
          (vdisk_set_used_idx 0 (vdisk_set_used_ring (replicate NUM 0) d))))) ;;;
      wreg 56 (Z.of_nat NUM) ;;;
      wreg 60 PGSIZE ;;;
      wreg 64 (Z.shiftr vring_mem 12) ;;;
      for_range 0 NUM (fun i => set_free (Z.of_nat i) 1) ;;;
      wreg 112 (Z.lor status 4).

(* ------------------------------------------------------------------ *)
(** ** Descriptors *)

(** The search of [alloc3_desc] for one descriptor, from [j] over [n]. *)
Fixpoint free_desc_scan (free : list Z) (j : Z) (n : nat) : option Z :=
  match n with
  | O => None
  | S n' => if negb (zget free j =? 0) then Some j else free_desc_scan free (j + 1) n'
  end.

(** [n] descriptors are still wanted; [idx] are the ones taken. *)
Fixpoint alloc_descs (n : nat) (idx : list Z) : M (machine D) (option (list Z)) :=
  match n with
  | O => ret (Some idx)
  | S n' =>
      let! d := getd in
      match free_desc_scan (v_free d) 0 NUM with
      | Some j => set_free j 0 ;;; alloc_descs n' (idx ++ [j])
      | None =>
          for_range 0 (length idx) (fun i => set_free (default 0 (idx !! i)) 1) ;;;
          ret None
      end
  end.
Definition alloc3_desc : M (machine D) (option (list Z)) := alloc_descs 3 [].

Definition free_desc (i : Z) : M (machine D) unit :=
  if Z.of_nat NUM <=? i then lk (panic "free_desc 1")
  else
    let! d := getd in
    if negb (zget (v_free d) i =? 0) then lk (panic "free_desc 2")
    else
      set_desc i desc0 ;;;
      set_free i 1 ;;;
      lk (wakeup disk_free_addr).

(** One round of [free_chain]; the loop variable is [i]. *)
Definition free_chain_body (i : Z) : M (machine D) (Z + unit) :=
  let! d := get_desc i in
  free_desc i ;;;
  if has (d_flags d) VRING_DESC_F_NEXT then ret (inl (d_next d)) else ret (inr tt).
(** A chain that did not end would free a descriptor twice, so [NUM] rounds are
    enough. *)
Definition free_chain (i : Z) : M (machine D) unit := loop (S NUM) free_chain_body i.

(* ------------------------------------------------------------------ *)
(** ** Interrupts *)

(** [b->disk = v] *)
Definition set_buf_disk (b : nat) (v : Z) : M (machine D) unit :=
  lk (zoom k_fs kernel_set_fs (lbio (setb b (buf_set_disk v)))).
Definition get_buf (b : nat) : M (machine D) buf :=
  lk (zoom k_fs kernel_set_fs (lbio (getb b))).

(** One round of the loop of [virtio_disk_intr]. *)
Definition intr_body (_ : unit) : M (machine D) (unit + unit) :=
  let! d := getd in
  if v_seen d =? v_used_idx d then ret (inr tt)
  else
    let id := zget (v_used_ring d) (v_seen d mod Z.of_nat NUM) in
    match v_info d !! Z.to_nat id with
    | None => lk (fault "disk.info")
    | Some info =>
        if negb (in_status info =? 0) then lk (panic "virtio_disk_intr status")
        else
          match in_b info with
          | None => lk (fault "disk.info.b")
          | Some b =>
              set_buf_disk b 0 ;;;
              lk (wakeup (buf_addr b)) ;;;
              setd (fun d => vdisk_set_seen (u16 (v_seen d + 1)) d) ;;;
              ret (inl tt)
          end
    end.

Definition virtio_disk_intr : M (machine D) unit :=
  vacquire ;;;
  (let! st := rreg 96 in wreg 100 (Z.land st 3)) ;;;
  let! d := getd in
  loop (Z.to_nat (u16 (v_used_idx d - v_seen d)) + 1) intr_body tt ;;;
  vrelease.

(* ------------------------------------------------------------------ *)
(** ** Requests *)

(** [sleep(chan, &disk.vdisk_lock)] up to the switch, call by call. *)
Definition vsleep_actions (p : nat) (chan : Z) : list (M (machine D) unit) :=
  [lk (acquire (LkProc p));
   vrelease;
   lk (setp p (proc_set_status TASK_SLEEPING));
   lk (setp p (proc_set_chan chan));
   lk sched].
Definition vsleep {A} (chan : Z) (k : kont) : M (machine D) A :=
  let! p := lk myproc in
  run_all (vsleep_actions p chan) ;;;
  lk (swtch p k).
(** What remains of it when the process runs again. *)
Definition vsleep_resume : M (machine D) unit :=
  let! p := lk myproc in
  lk (setp p (proc_set_chan 0)) ;;;
  lk (release (LkProc p)) ;;;
  vacquire.

(** [virtio_disk_rw] from the allocation to the notification, with the lock
    held: the head of the chain, or a sleep for free descriptors, after which
    the allocation is tried again ([virtio_disk_rw_resume]). *)
Definition rw_submit (b : nat) (write : bool) : M (machine D) Z :=
  let! x := get_buf b in
  let sector := u32 (b_blockno x * (BSIZE / 512)) in
  let! r := alloc3_desc in
  match r with
  | Some [i0; i1; i2] =>
      setd (fun d => vdisk_set_req (<[Z.to_nat i0 :=
        Vreq (if write then VIRTIO_BLK_T_OUT else VIRTIO_BLK_T_IN) 0 sector]> (v_req d)) d) ;;;
      set_desc i0 (Vdesc (disk_req_addr i0) 16 VRING_DESC_F_NEXT i1) ;;;
      set_desc i1 (Vdesc (buf_data_addr b) BSIZE
        (Z.lor (if write then 0 else VRING_DESC_F_WRITE) VRING_DESC_F_NEXT) i2) ;;;
      setd (fun d => vdisk_set_info (<[Z.to_nat i0 :=
        Vinfo (in_b (default (Vinfo None 0) (v_info d !! Z.to_nat i0))) 0]> (v_info d)) d) ;;;
      set_desc i2 (Vdesc (status_addr i0) 1 VRING_DESC_F_WRITE 0) ;;;
      set_buf_disk b 1 ;;;
      setd (fun d => vdisk_set_info (<[Z.to_nat i0 :=
        Vinfo (Some b) (in_status (default (Vinfo None 0) (v_info d !! Z.to_nat i0)))]>
        (v_info d)) d) ;;;
      setd (fun d => vdisk_set_avail_ring
        (zset (v_avail_ring d) (v_avail_idx d mod Z.of_nat NUM) i0) d) ;;;
      setd (fun d => vdisk_set_avail_idx (u16 (v_avail_idx d + 1)) d) ;;;
      wreg 80 0 ;;;
      ret i0
  | _ => vsleep disk_free_addr (KDiskFree b write)
  end.

(** One round of the wait [while (b->disk == 1)] for the request with the head
    [i0]: a process sleeps on the buffer; without one (at boot) the driver
    polls. *)
Definition rw_wait_body (b : nat) (i0 : Z) (_ : unit) : M (machine D) (unit + unit) :=
  let! x := get_buf b in
  if negb (b_disk x =? 1) then ret (inr tt)
  else
    let! c := lk getcpu in
    match c_proc c with
    | Some _ => vsleep (buf_addr b) (KDiskWait b i0)
    | None =>
        vrelease ;;;
        modify device ;;;
        virtio_disk_intr ;;;
        vacquire ;;;
        ret (inl tt)
    end.

(** The end of [virtio_disk_rw]. *)
Definition rw_finish (i0 : Z) : M (machine D) unit :=
  setd (fun d => vdisk_set_info (<[Z.to_nat i0 :=
    Vinfo None (in_status (default (Vinfo None 0) (v_info d !! Z.to_nat i0)))]> (v_info d)) d) ;;;
  free_chain i0 ;;;
  vrelease.

(** The wait and the end; [fuel] bounds the polls. *)
Definition rw_wait (fuel : nat) (b : nat) (i0 : Z) : M (machine D) unit :=
  loop fuel (rw_wait_body b i0) tt ;;;
  rw_finish i0.
(** From the allocation on, with the lock held. *)
Definition rw_locked (fuel : nat) (b : nat) (write : bool) : M (machine D) unit :=
  let! i0 := rw_submit b write in
  rw_wait fuel b i0.
(** [virtio_disk_rw(b, write)] up to its end or its first sleep. *)
Definition virtio_disk_rw (fuel : nat) (b : nat) (write : bool) : M (machine D) unit :=
  vacquire ;;;
  rw_locked fuel b write.
(** How it goes on when the process that slept in it runs again. *)
Definition virtio_disk_rw_resume (fuel : nat) (k : kont) : M (machine D) unit :=
  vsleep_resume ;;;
  match k with
  | KDiskFree b write => rw_locked fuel b write
  | KDiskWait b i0 => rw_wait fuel b i0
  | _ => lk (fault "virtio_disk_rw")
  end.
End virtio.
