(* ===== verification/VirtioSpec.v ===== *)
(** Properties of the disk driver: descriptors are given out to one request at a
    time, the chain the driver builds is the request the device must serve, the
    interrupt handler completes the requests the device put on the used ring, and
    the driver as a whole implements the block transfer the cache relies on. *)

From S2P Require Import Prelude Memory Kalloc Vm Str Bio Fs Kernel Spinlock Proc ProcSpec WakeSpec.
From S2P Require Import Machine Virtio.

(* ------------------------------------------------------------------ *)
(** ** The free table *)

(** [disk.free]: eight flags; the descriptors it says are free, in order. *)
Definition is_flag (x : Z) : Prop := x = 0 \/ x = 1.
Definition free_idx (t : list Z) : list Z :=
  filter (fun i => zget t i <> 0) (seqZ 0 (Z.of_nat NUM)).
(** The flags of [l] set to [v]. *)
Definition mark (v : Z) (l : list Z) (t : list Z) : list Z :=
  foldl (fun t i => zset t i v) t l.
Definition in_table (i : Z) : Prop := 0 <= i < Z.of_nat NUM.

Lemma elem_of_free_idx t i : i ∈ free_idx t <-> zget t i <> 0 /\ in_table i.
Proof. unfold free_idx, in_table. rewrite list_elem_of_filter, elem_of_seqZ. lia. Qed.
Lemma NoDup_free_idx t : NoDup (free_idx t).
Proof. apply NoDup_filter, NoDup_seqZ. Qed.

Lemma filter_ext_in {A} (P Q : A -> Prop) `{!forall x, Decision (P x), !forall x, Decision (Q x)} (l : list A) :
  (forall x, x ∈ l -> P x <-> Q x) -> filter P l = filter Q l.
Proof.
  induction l as [|x l IH]; intros HPQ; [done|].
  assert (filter P l = filter Q l) as IHl by (apply IH; intros; apply HPQ; by right).
  destruct (decide (P x)) as [HP|HP].
  - rewrite !filter_cons_True; [by rewrite IHl|apply HPQ; [left|done]|done].
  - rewrite !filter_cons_False; [done|rewrite <- HPQ; [done|left]|done].
Qed.

Lemma free_idx_clear t k l :
  length t = NUM -> free_idx t = k :: l -> free_idx (zset t k 0) = l.
Proof.
  intros Hlen Ht. assert (k ∈ free_idx t) as Hk by (rewrite Ht; left).
  apply elem_of_free_idx in Hk as [_ Hk]. unfold in_table in Hk.
  transitivity (filter (fun i => i <> k) (free_idx t)).
  - unfold free_idx. rewrite list_filter_filter. apply filter_ext_in.
    intros i Hi. apply elem_of_seqZ in Hi. destruct (decide (i = k)) as [->|Hne].
    + rewrite zget_zset_eq by lia. split; [done|by intros []].
    + rewrite zget_zset_ne by lia. tauto.
  - pose proof (NoDup_free_idx t) as Hnd. rewrite Ht in *. apply NoDup_cons in Hnd as [Hnin _].
    rewrite filter_cons_False by auto. clear Ht Hk.
    induction l as [|x l IH]; [done|]. apply not_elem_of_cons in Hnin as [Hne Hnin].
    rewrite filter_cons_True by done. f_equal. by apply IH.
Qed.

Lemma free_desc_scan_head t j n :
  free_desc_scan t j n = head (filter (fun i => zget t i <> 0) (seqZ j (Z.of_nat n))).
Proof.
  revert j. induction n as [|n IH]; intros j; [done|]. cbn [free_desc_scan].
  rewrite seqZ_cons by lia. replace (Z.pred (Z.of_nat (S n))) with (Z.of_nat n) by lia.
  destruct (Z.eqb_spec (zget t j) 0) as [Hz|Hz]; cbn [negb].
  - rewrite filter_cons_False by auto. apply IH.
  - by rewrite filter_cons_True by done.
Qed.

Lemma mark_nil v t : mark v [] t = t.
Proof. done. Qed.
Lemma length_mark v l t : length (mark v l t) = length t.
Proof.
  unfold mark. revert t. induction l as [|i l IH]; intros t; cbn; [done|].
  by rewrite IH, length_zset.
Qed.

Lemma zget_mark v l t i :
  length t = NUM -> Forall in_table l -> in_table i ->
  zget (mark v l t) i = if decide (i ∈ l) then v else zget t i.
Proof.
  unfold mark, in_table. intros Hlen Hl Hi. revert t Hlen.
  induction Hl as [|k l Hk Hl IH]; intros t Hlen; cbn.
  - by rewrite decide_False by (by apply not_elem_of_nil).
  - rewrite IH by (by rewrite length_zset). case_decide as Hin.
    + by rewrite decide_True by (by right).
    + destruct (decide (i = k)) as [->|Hne].
      * rewrite zget_zset_eq by lia. by rewrite decide_True by left.
      * rewrite zget_zset_ne by lia. rewrite decide_False; [done|]. rewrite elem_of_cons. tauto.
Qed.

Lemma zget_ext (t t' : list Z) :
  length t = NUM -> length t' = NUM -> (forall i, in_table i -> zget t i = zget t' i) -> t = t'.
Proof.
  intros Hl Hl' Hz. apply list_eq_same_length with NUM; [done|done|]. intros i x y Hi Hx Hy.
  specialize (Hz (Z.of_nat i)). unfold zget, in_table in Hz. rewrite !Nat2Z.id, Hx, Hy in Hz.
  apply Hz. lia.
Qed.

Lemma free_idx_range t : Forall in_table (free_idx t).
Proof. apply Forall_forall. intros i Hi. by apply elem_of_free_idx in Hi as [_ ?]. Qed.

Lemma is_flag_free t i : Forall is_flag t -> i ∈ free_idx t -> zget t i = 1.
Proof.
  intros Hf Hi. apply elem_of_free_idx in Hi as [Hne Hr]. unfold zget in *.
  destruct (t !! Z.to_nat i) as [x|] eqn:Hx; [|done]. cbn in *.
  destruct (Forall_lookup_1 _ _ _ _ Hf Hx) as [-> | ->]; done.
Qed.

(** Flags cleared and set again: the table is as it was. *)
Lemma mark_back t l :
  length t = NUM -> Forall is_flag t -> l ⊆ free_idx t -> mark 1 l (mark 0 l t) = t.
Proof.
  intros Hlen Hf Hsub.
  assert (Forall in_table l) as Hl.
  { apply Forall_forall. intros i Hi. apply Hsub in Hi. by apply elem_of_free_idx in Hi as [_ ?]. }
  apply zget_ext; [by rewrite !length_mark|done|].
  intros i Hi. rewrite zget_mark by (rewrite ?length_mark; done). case_decide as Hd.
  - symmetry. apply is_flag_free; [done|]. by apply Hsub.
  - rewrite zget_mark by done. by rewrite decide_False.
Qed.

Lemma mark_flags v l t : is_flag v -> Forall is_flag t -> Forall is_flag (mark v l t).
Proof.
  intros Hv. unfold mark. revert t. induction l as [|i l IH]; intros t Ht; cbn; [done|].
  apply IH. unfold zset. by apply Forall_insert.
Qed.

(* ------------------------------------------------------------------ *)
(** ** Requests in flight *)

(** A request: the buffer and its block's sector, the direction, and the three
    descriptors of its chain. *)
Record chain := Chain {
  ch_buf : nat; ch_write : bool; ch_sector : Z; ch0 : Z; ch1 : Z; ch2 : Z;
}.
Definition ch_ids (c : chain) : list Z := [ch0 c; ch1 c; ch2 c].

Section chains.
Context `{DiskImage}.

(** What the device finds when it follows the chain from its head: the request
    header, the buffer's data (device-writable for a read), the status byte. *)
Record chain_ok (d : vdisk) (c : chain) : Prop := {
  co_0 : v_desc d !! Z.to_nat (ch0 c) =
    Some (Vdesc (disk_req_addr (ch0 c)) 16 VRING_DESC_F_NEXT (ch1 c));
  co_1 : v_desc d !! Z.to_nat (ch1 c) =
    Some (Vdesc (buf_data_addr (ch_buf c)) BSIZE
      (Z.lor (if ch_write c then 0 else VRING_DESC_F_WRITE) VRING_DESC_F_NEXT) (ch2 c));
  co_2 : v_desc d !! Z.to_nat (ch2 c) =
    Some (Vdesc (status_addr (ch0 c)) 1 VRING_DESC_F_WRITE 0);
  co_req : v_req d !! Z.to_nat (ch0 c) =
    Some (Vreq (if ch_write c then VIRTIO_BLK_T_OUT else VIRTIO_BLK_T_IN) 0 (ch_sector c));
  co_info : exists st, v_info d !! Z.to_nat (ch0 c) = Some (Vinfo (Some (ch_buf c)) st);
}.

(** The driver's state with the requests [rs] in flight: every descriptor is
    free or in exactly one of the chains. *)
Record disk_ok (d : vdisk) (rs : list chain) : Prop := {
  dk_free : length (v_free d) = NUM;
  dk_desc : length (v_desc d) = NUM;
  dk_info : length (v_info d) = NUM;
  dk_req : length (v_req d) = NUM;
  dk_ring : length (v_avail_ring d) = NUM;
  dk_used : length (v_used_ring d) = NUM;
  dk_flags : Forall is_flag (v_free d);
  dk_part : free_idx (v_free d) ++ (rs ≫= ch_ids) ≡ₚ seqZ 0 (Z.of_nat NUM);
  dk_chains : Forall (chain_ok d) rs;
}.

Lemma disk_ok_perm d rs rs' : rs ≡ₚ rs' -> disk_ok d rs -> disk_ok d rs'.
Proof.
  intros Hp [? ? ? ? ? ? ? Hpart Hc]. split; [done..| |].
  - by rewrite <- Hp.
  - by rewrite <- Hp.
Qed.

Lemma disk_ok_ids d rs : disk_ok d rs -> NoDup (free_idx (v_free d) ++ (rs ≫= ch_ids)).
Proof. intros Hd. rewrite (dk_part _ _ Hd). apply NoDup_seqZ. Qed.

Lemma disk_ok_range d rs i :
  disk_ok d rs -> i ∈ free_idx (v_free d) ++ (rs ≫= ch_ids) -> in_table i.
Proof. intros Hd. rewrite (dk_part _ _ Hd). rewrite elem_of_seqZ. unfold in_table. lia. Qed.

Lemma elem_of_chain_ids rs c i : c ∈ rs -> i ∈ ch_ids c -> i ∈ rs ≫= ch_ids.
Proof. intros. apply list_elem_of_bind. eauto. Qed.

(** The descriptors of a request are taken. *)
Lemma disk_ok_taken d rs c i :
  disk_ok d rs -> c ∈ rs -> i ∈ ch_ids c -> zget (v_free d) i = 0 /\ in_table i.
Proof.
  intros Hd Hc Hi. pose proof (elem_of_chain_ids _ _ _ Hc Hi) as Hin.
  assert (in_table i) as Hr by (eapply disk_ok_range; [done|]; apply elem_of_app; by right).
  split; [|done]. destruct (decide (zget (v_free d) i = 0)) as [|Hne]; [done|exfalso].
  assert (i ∈ free_idx (v_free d)) as Hf by (by apply elem_of_free_idx).
  pose proof (disk_ok_ids _ _ Hd) as Hnd. apply NoDup_app in Hnd as (_ & Hdis & _).
  exact (Hdis i Hf Hin).
Qed.

(** A chain looks the same in a state that agrees on its descriptors, its header
    and its entry of [info]. *)
Lemma chain_ok_frame d d' c :
  chain_ok d c ->
  (forall i, i ∈ ch_ids c -> v_desc d' !! Z.to_nat i = v_desc d !! Z.to_nat i) ->
  v_req d' !! Z.to_nat (ch0 c) = v_req d !! Z.to_nat (ch0 c) ->
  (exists st, v_info d' !! Z.to_nat (ch0 c) = Some (Vinfo (Some (ch_buf c)) st)) ->
  chain_ok d' c.
Proof.
  intros [E0 E1 E2 Er Ei] Hd Hr Hi. split; rewrite ?Hr; try done;
    rewrite Hd by (unfold ch_ids; set_solver); done.
Qed.

(** Only the tables matter. *)
Lemma disk_ok_same d d' rs :
  v_free d' = v_free d -> v_desc d' = v_desc d -> v_info d' = v_info d -> v_req d' = v_req d ->
  v_avail_ring d' = v_avail_ring d -> length (v_used_ring d') = length (v_used_ring d) ->
  disk_ok d rs -> disk_ok d' rs.
Proof.
  intros E1 E2 E3 E4 E5 E6 [? ? ? ? ? ? ? ? Hc]. split; rewrite ?E1, ?E2, ?E3, ?E4, ?E5, ?E6; try done.
  eapply Forall_impl; [exact Hc|]. intros c Hok. eapply chain_ok_frame; [exact Hok| | |]; rewrite ?E2, ?E3, ?E4.
  - done.
  - done.
  - apply (co_info _ _ Hok).
Qed.
End chains.

(* ------------------------------------------------------------------ *)
(** ** The machine's parts *)

Section spec.
Context `{Image} `{DiskImage} {D : Type} `{BlockDev D}.
Implicit Types s : machine D.
Implicit Types k : kernel D.

Definition mset_k (k : kernel D) s : machine D :=
  Machine k (m_disk s) (m_csr s) (m_rx s) (m_claim s) (m_complete s) (m_plic s).
Definition mset_disk (d : vdisk) s : machine D :=
  Machine (m_k s) d (m_csr s) (m_rx s) (m_claim s) (m_complete s) (m_plic s).

Lemma lk_eq {A} (m : M (kernel D) A) s a k : m (m_k s) = Ok a k -> lk m s = Ok a (mset_k k s).
Proof. intros Hm. unfold lk, zoom. by rewrite Hm. Qed.
Lemma setd_eq f s : setd f s = Ok tt (mset_disk (f (m_disk s)) s).
Proof. done. Qed.
Lemma getd_eq s : getd s = Ok (m_disk s) s.
Proof. done. Qed.
Lemma bind_setd {A} f (m : M (machine D) A) s :
  bind (setd f) (fun _ => m) s = m (mset_disk (f (m_disk s)) s).
Proof. done. Qed.
Lemma bind_getd {A} (g : vdisk -> M (machine D) A) s : bind getd g s = g (m_disk s) s.
Proof. done. Qed.
Lemma mset_disk_id s : mset_disk (m_disk s) s = s.
Proof. by destruct s. Qed.
Lemma mset_k_id s : mset_k (m_k s) s = s.
Proof. by destruct s. Qed.

(** The free table replaced. *)
Definition with_free (t : list Z) s : machine D := mset_disk (vdisk_set_free t (m_disk s)) s.

Lemma set_free_eq i v s : set_free i v s = Ok tt (with_free (zset (v_free (m_disk s)) i v) s).
Proof. done. Qed.
Lemma with_free_id s : with_free (v_free (m_disk s)) s = s.
Proof. destruct s as [? [] ? ? ? ? ?]. done. Qed.

(** Returning the descriptors of [idx]. *)
Lemma give_back_eq (idx : list Z) j (l : list Z) s :
  (forall n, idx !! (j + n)%nat = l !! n) ->
  for_range j (length l) (fun i => set_free (default 0 (idx !! i)) 1) s =
    Ok tt (with_free (mark 1 l (v_free (m_disk s))) s).
Proof.
  revert j s. induction l as [|x l IH]; intros j s Hl; cbn [for_range length].
  - by rewrite mark_nil, with_free_id.
  - pose proof (Hl 0%nat) as H0'. rewrite Nat.add_0_r in H0'. cbn in H0'. rewrite H0'. cbn [default].
    rewrite (bind_ok _ _ _ _ _ (set_free_eq x 1 s)). rewrite IH; [done|].
    intros n. replace (S j + n)%nat with (j + S n)%nat by lia. by rewrite Hl.
Qed.

(** [n] more descriptors, or the ones taken so far given back. *)
Lemma alloc_descs_eq n idx s :
  length (v_free (m_disk s)) = NUM ->
  let t := v_free (m_disk s) in
  alloc_descs n idx s =
    if decide (n <= length (free_idx t))%nat
    then Ok (Some (idx ++ take n (free_idx t))) (with_free (mark 0 (take n (free_idx t)) t) s)
    else Ok None (with_free (mark 1 (idx ++ free_idx t) (mark 0 (free_idx t) t)) s).
Proof.
  revert idx s. induction n as [|n IH]; intros idx s Hlen; cbn [alloc_descs].
  - rewrite decide_True by lia. rewrite take_0, app_nil_r, mark_nil. by rewrite with_free_id.
  - rewrite bind_getd, free_desc_scan_head. fold (free_idx (v_free (m_disk s))).
    destruct (free_idx (v_free (m_disk s))) as [|j l] eqn:Hl; cbn [head length].
    + rewrite decide_False by lia. rewrite app_nil_r.
      erewrite bind_ok; [|by apply give_back_eq]. done.
    + rewrite (bind_ok _ _ _ _ _ (set_free_eq j 0 s)), IH by (cbn; by rewrite length_zset).
      cbn [v_free m_disk with_free mset_disk vdisk_set_free].
      rewrite (free_idx_clear _ _ _ Hlen Hl). destruct (decide (n <= length l)%nat).
      * rewrite decide_True by lia. cbn [take]. by rewrite <- app_assoc.
      * rewrite decide_False by lia. by rewrite <- app_assoc.
Qed.

(** [alloc3_desc] takes the three lowest free descriptors, or changes nothing. *)
Lemma alloc3_desc_eq s :
  length (v_free (m_disk s)) = NUM -> Forall is_flag (v_free (m_disk s)) ->
  alloc3_desc s =
    match free_idx (v_free (m_disk s)) with
    | i0 :: i1 :: i2 :: _ => Ok (Some [i0; i1; i2]) (with_free (mark 0 [i0; i1; i2] (v_free (m_disk s))) s)
    | _ => Ok None s
    end.
Proof.
  intros Hlen Hf. unfold alloc3_desc. rewrite alloc_descs_eq by done. cbn zeta.
  destruct (decide _) as [Hle|Hle].
  - destruct (free_idx _) as [|i0 [|i1 [|i2 l]]]; cbn in Hle; try lia. done.
  - rewrite app_nil_l, mark_back by done. rewrite with_free_id.
    destruct (free_idx _) as [|i0 [|i1 [|i2 l]]]; cbn in Hle; try lia; done.
Qed.

(* ------------------------------------------------------------------ *)
(** ** Buffers *)

(** The cache's buffers inside the machine. *)
Definition k_bufs k : list buf := bcache (f_bio (k_fs k)).
Definition kset_bufs (l : list buf) k : kernel D :=
  kernel_set_fs (Fs (f_km (k_fs k))
    (Bio l (bdisk (f_bio (k_fs k))) (sb (f_bio (k_fs k))) (bio_count (f_bio (k_fs k))))
    (icache (k_fs k))) k.
Definition with_bufs (l : list buf) s : machine D := mset_k (kset_bufs l (m_k s)) s.

Lemma woke_kset_bufs P l k k' :
  woke P (kset_bufs l k) k' -> exists t, woke P k t /\ k' = kset_bufs l t.
Proof.
  intros Hw. destruct (woke_set_fs _ _ _ _ Hw) as (t & Ht & ->). exists t. split; [done|].
  unfold kset_bufs. by rewrite (woke_fs _ _ _ Ht).
Qed.
Lemma ready_kset_bufs l k : ready k -> ready (kset_bufs l k).
Proof. apply ready_set_fs. Qed.

Lemma get_buf_eq b s x : k_bufs (m_k s) !! b = Some x -> get_buf b s = Ok x s.
Proof.
  intros Hx. unfold get_buf, lk, lbio, zoom, getb. unfold k_bufs in Hx. rewrite Hx.
  by destruct s as [[[] ? ? ? ? ? ?] ? ? ? ? ? ?].
Qed.
Lemma set_buf_disk_eq b v s x :
  k_bufs (m_k s) !! b = Some x ->
  set_buf_disk b v s = Ok tt (with_bufs (<[b := buf_set_disk v x]> (k_bufs (m_k s))) s).
Proof.
  intros Hx. unfold set_buf_disk, lk, lbio, zoom, setb. unfold k_bufs in Hx. by rewrite Hx.
Qed.

(* ------------------------------------------------------------------ *)
(** ** The driver's lock *)

Definition vlocked (d : vdisk) : vdisk :=
  vdisk_set_lock (Spinlock 1 (lk_name (v_lock d)) cpus_base) d.
Definition vunlocked (d : vdisk) : vdisk :=
  vdisk_set_lock (Spinlock 0 (lk_name (v_lock d)) 0) d.

Lemma vacquire_eq s :
  lk_locked (v_lock (m_disk s)) = 0 ->
  vacquire s = Ok tt (mset_k (pushed (m_k s)) (mset_disk (vlocked (m_disk s)) s)).
Proof.
  intros Hl. unfold vacquire. erewrite bind_ok; [|apply lk_eq, push_off_eq]. rewrite bind_getd.
  cbn [m_disk mset_k]. by rewrite Hl.
Qed.
Lemma vrelease_eq s :
  vrelease s = Ok tt (mset_k (popped (m_k s)) (mset_disk (vunlocked (m_disk s)) s)).
Proof. unfold vrelease. rewrite bind_setd. by erewrite lk_eq by apply pop_off_eq. Qed.

(* ------------------------------------------------------------------ *)
(** ** Sleeping in the driver *)

(** Process [p] runs in the driver, whose lock is the only one it holds. *)
Record in_driver s (p : nat) (x : proc) : Prop := {
  id_cur : c_proc (k_cpu (m_k s)) = Some p;
  id_proc : k_procs (m_k s) !! p = Some x;
  id_idle : idle x;
  id_noff : c_noff (k_cpu (m_k s)) = 1;
  id_sie : c_sie (k_cpu (m_k s)) = false;
}.
(** The machine with the driver's lock free and [z] the entry of [p]. *)
Definition left_driver (p : nat) (z : proc) s : machine D :=
  mset_k (kernel_set_procs (<[p := z]> (k_procs (m_k s))) (m_k s)) (mset_disk (vunlocked (m_disk s)) s).

Lemma left_setp p f z s :
  (p < length (k_procs (m_k s)))%nat -> lk (setp p f) (left_driver p z s) = Ok tt (left_driver p (f z) s).
Proof.
  intros Hlt. erewrite lk_eq by (apply setp_eq; cbn; by apply list_lookup_insert_eq).
  unfold left_driver. cbn [m_k mset_k k_procs kernel_set_procs]. by rewrite list_insert_insert_eq.
Qed.

Lemma vsleep_calls chan s p x :
  in_driver s p x ->
  let y := proc_set_lock (lock_held (p_lock x)) x in
  let s1 := mset_k (kernel_set_procs (<[p := y]> (k_procs (m_k s))) (kernel_set_cpu (cpu_push (k_cpu (m_k s))) (m_k s))) s in
  let z := proc_set_chan chan (proc_set_status TASK_SLEEPING y) in
  lk (acquire (LkProc p)) s = Ok tt s1 /\ vrelease s1 = Ok tt (left_driver p y s) /\
  lk (setp p (proc_set_status TASK_SLEEPING)) (left_driver p y s)
    = Ok tt (left_driver p (proc_set_status TASK_SLEEPING y) s) /\
  lk (setp p (proc_set_chan chan)) (left_driver p (proc_set_status TASK_SLEEPING y) s) = Ok tt (left_driver p z s) /\
  lk sched (left_driver p z s) = Ok tt (left_driver p z s).
Proof.
  intros [Hp Hx Hid Hn Hi] y s1 z. assert (p < length (k_procs (m_k s)))%nat as Hlt by (by eapply lookup_lt_Some).
  split; [exact (lk_eq _ _ _ _ (acquire_proc_eq p _ x Hx (proj1 Hid)))|]. split; [|split; [|split]].
  - rewrite vrelease_eq. unfold s1, left_driver. destruct s as [[fs ft ps [cp n i e] np co pt] d ? ? ? ? ?].
    cbn in Hn, Hi. subst. done.
  - by apply left_setp.
  - by apply left_setp.
  - rewrite (lk_eq _ (left_driver p z s) tt (m_k (left_driver p z s))); [by rewrite mset_k_id|].
    apply (sched_ok p _ z); [done|by apply list_lookup_insert_eq|done..].
Qed.

(** A sleep in the driver ends with the process asleep and the lock free. *)
Lemma vsleep_eq {A} chan kk s p x :
  in_driver s p x -> vsleep (A := A) chan kk s = Sleep chan (left_driver p (asleep chan kk x) s).
Proof.
  intros Hd. destruct (vsleep_calls chan s p x Hd) as (E1 & E2 & E3 & E4 & E5).
  destruct Hd as [Hp Hx Hid Hn Hi]. assert (p < length (k_procs (m_k s)))%nat as Hlt by (by eapply lookup_lt_Some).
  unfold vsleep. erewrite bind_ok; [|apply lk_eq; unfold myproc; by rewrite Hp]. rewrite mset_k_id.
  unfold vsleep_actions. cbn [run_all]. rewrite !bind_assoc.
  rewrite (bind_ok _ _ _ _ _ E1), bind_assoc, (bind_ok _ _ _ _ _ E2), bind_assoc, (bind_ok _ _ _ _ _ E3),
    bind_assoc, (bind_ok _ _ _ _ _ E4), bind_assoc, (bind_ok _ _ _ _ _ E5), bind_ret_l.
  set (z := proc_set_chan chan _). unfold swtch, lk, zoom. unfold bind.
  rewrite (setp_eq p _ _ z) by (cbn; by apply list_lookup_insert_eq).
  unfold left_driver, asleep. cbn [m_k mset_k k_procs kernel_set_procs].
  rewrite list_insert_insert_eq, list_lookup_insert_eq by done. done.
Qed.
(** On the way interrupts are off, and the driver's lock or the process's own
    lock is held. *)
Lemma vsleep_guarded chan s p x n :
  in_driver s p x -> lk_locked (v_lock (m_disk s)) <> 0 ->
  exists t, run_all (take n (vsleep_actions p chan)) s = Ok tt t /\ c_sie (k_cpu (m_k t)) = false /\
    (lk_locked (v_lock (m_disk t)) <> 0 \/ exists y, k_procs (m_k t) !! p = Some y /\ lk_locked (p_lock y) <> 0).
Proof.
  intros Hd Hl. destruct (vsleep_calls chan s p x Hd) as (E1 & E2 & E3 & E4 & E5).
  destruct Hd as [Hp Hx Hid Hn Hi]. assert (p < length (k_procs (m_k s)))%nat as Hlt by (by eapply lookup_lt_Some).
  assert (forall y, lk_locked (p_lock y) <> 0 ->
    exists y', <[p := y]> (k_procs (m_k s)) !! p = Some y' /\ lk_locked (p_lock y') <> 0) as Hown.
  { intros y Hy. exists y. by rewrite list_lookup_insert_eq. }
  unfold vsleep_actions.
  destruct n as [|[|[|[|[|n]]]]]; cbn [take run_all]; rewrite ?(bind_ok _ _ _ _ _ E1), ?(bind_ok _ _ _ _ _ E2),
    ?(bind_ok _ _ _ _ _ E3), ?(bind_ok _ _ _ _ _ E4), ?take_nil, ?(bind_ok _ _ _ _ _ E5);
    eexists; (split; [reflexivity|]); (split; [done|]); try (by left); right; by apply Hown.
Qed.

(** When the process runs again, with its own lock held, it takes the driver's
    lock back. *)
Lemma vsleep_resume_eq s p x :
  c_proc (k_cpu (m_k s)) = Some p -> k_procs (m_k s) !! p = Some x -> irq_ok (k_cpu (m_k s)) ->
  lk_locked (v_lock (m_disk s)) = 0 ->
  vsleep_resume s = Ok tt
    (mset_k (pushed (kernel_set_procs (<[p := proc_set_lock (lock_free (p_lock x)) (proc_set_chan 0 x)]> (k_procs (m_k s)))
      (popped (m_k s)))) (mset_disk (vlocked (m_disk s)) s)).
Proof.
  intros Hp Hx Hirq Hl. assert (p < length (k_procs (m_k s)))%nat as Hlt by (by eapply lookup_lt_Some).
  unfold vsleep_resume. erewrite bind_ok; [|apply lk_eq; unfold myproc; by rewrite Hp]. rewrite mset_k_id.
  erewrite bind_ok; [|apply lk_eq; by apply setp_eq].
  erewrite bind_ok; [|apply lk_eq; apply release_proc_eq; cbn; by apply list_lookup_insert_eq].
  rewrite vacquire_eq by done. cbn [k_procs kernel_set_procs m_k mset_k]. by rewrite list_insert_insert_eq.
Qed.

(* ------------------------------------------------------------------ *)
(** ** Submitting a request *)

(** The driver's state after the request [c] was put on the available ring. *)
Definition submitted (c : chain) (d : vdisk) : vdisk :=
  Vdisk (v_lock d)
    (<[Z.to_nat (ch2 c) := Vdesc (status_addr (ch0 c)) 1 VRING_DESC_F_WRITE 0]>
      (<[Z.to_nat (ch1 c) := Vdesc (buf_data_addr (ch_buf c)) BSIZE
           (Z.lor (if ch_write c then 0 else VRING_DESC_F_WRITE) VRING_DESC_F_NEXT) (ch2 c)]>
        (<[Z.to_nat (ch0 c) := Vdesc (disk_req_addr (ch0 c)) 16 VRING_DESC_F_NEXT (ch1 c)]>
          (v_desc d))))
    (u16 (v_avail_idx d + 1))
    (zset (v_avail_ring d) (v_avail_idx d mod Z.of_nat NUM) (ch0 c))
    (v_used_idx d) (v_used_ring d) (mark 0 (ch_ids c) (v_free d)) (v_seen d)
    (<[Z.to_nat (ch0 c) := Vinfo (Some (ch_buf c)) 0]> (v_info d))
    (<[Z.to_nat (ch0 c) := Vreq (if ch_write c then VIRTIO_BLK_T_OUT else VIRTIO_BLK_T_IN) 0
                             (ch_sector c)]> (v_req d))
    (v_reg d) (v_mmio d ++ [(80, 0)]).

(** One assignment to a field of [disk], on a state whose fields are named. *)
Ltac cbn_disk :=
  cbv [m_k m_disk m_csr m_rx m_claim m_complete m_plic mset_disk mset_k vdisk_set_req vdisk_set_desc
    vdisk_set_info vdisk_set_avail_ring vdisk_set_avail_idx vdisk_set_mmio vdisk_set_free v_lock v_desc
    v_avail_idx v_avail_ring v_used_idx v_used_ring v_free v_seen v_info v_req v_reg v_mmio].
Ltac setd_step := rewrite bind_setd; cbn_disk.

(** The sector [virtio_disk_rw] asks for. *)
Definition buf_sector (x : buf) : Z := u32 (b_blockno x * (BSIZE / 512)).

Lemma rw_submit_eq b w s x i0 i1 i2 l :
  length (v_free (m_disk s)) = NUM -> Forall is_flag (v_free (m_disk s)) ->
  length (v_info (m_disk s)) = NUM -> k_bufs (m_k s) !! b = Some x ->
  free_idx (v_free (m_disk s)) = i0 :: i1 :: i2 :: l ->
  rw_submit b w s =
    Ok i0 (with_bufs (<[b := buf_set_disk 1 x]> (k_bufs (m_k s)))
      (mset_disk (submitted (Chain b w (buf_sector x) i0 i1 i2) (m_disk s)) s)).
Proof.
  intros Hlen Hf Hinfo Hx Hfree. assert (in_table i0) as Hi.
  { assert (i0 ∈ free_idx (v_free (m_disk s))) as Hin by (rewrite Hfree; left).
    by apply elem_of_free_idx in Hin as [_ ?]. }
  unfold in_table in Hi. assert (Z.to_nat i0 < length (v_info (m_disk s)))%nat by lia.
  unfold rw_submit. rewrite (bind_ok _ _ _ _ _ (get_buf_eq b s x Hx)).
  pose proof (alloc3_desc_eq s Hlen Hf) as Ha. rewrite Hfree in Ha.
  rewrite (bind_ok _ _ _ _ _ Ha). cbv beta iota. unfold set_desc, wreg. clear Ha Hfree Hf Hlen.
  destruct s as [k [vl vd vai var vui vur vf vs vi vr vg vm] xc rx cl co pl].
  unfold with_free. cbn_disk. do 5 setd_step.
  erewrite bind_ok; [|apply set_buf_disk_eq; exact Hx].
  unfold with_bufs. do 4 setd_step.
  rewrite list_lookup_insert_eq by done. cbn [default in_b in_status].
  rewrite list_insert_insert_eq. reflexivity.
Qed.

(** With fewer than three descriptors free the caller takes none and sleeps. *)
Lemma rw_submit_sleeps b w s x :
  length (v_free (m_disk s)) = NUM -> Forall is_flag (v_free (m_disk s)) ->
  k_bufs (m_k s) !! b = Some x -> (length (free_idx (v_free (m_disk s))) < 3)%nat ->
  rw_submit b w s = vsleep disk_free_addr (KDiskFree b w) s.
Proof.
  intros Hlen Hf Hx Hfew. unfold rw_submit. rewrite (bind_ok _ _ _ _ _ (get_buf_eq b s x Hx)).
  pose proof (alloc3_desc_eq s Hlen Hf) as Ha.
  destruct (free_idx _) as [|i0 [|i1 [|i2 l]]]; cbn in Hfew; try lia; by rewrite (bind_ok _ _ _ _ _ Ha).
Qed.

Lemma free_idx_mark l t l' :
  length t = NUM -> free_idx t = l ++ l' -> free_idx (mark 0 l t) = l'.
Proof.
  unfold mark. revert t. induction l as [|i l IH]; intros t Hlen Ht; cbn; [done|].
  apply IH; [by rewrite length_zset|]. by apply free_idx_clear.
Qed.

(** The new request's chain is its own, and the others are as they were. *)
Lemma submitted_ok d rs c l :
  disk_ok d rs -> free_idx (v_free d) = ch_ids c ++ l -> disk_ok (submitted c d) (c :: rs).
Proof.
  intros Hd Hfree. pose proof (disk_ok_ids _ _ Hd) as Hnd. pose proof (dk_part _ _ Hd) as Hpart.
  rewrite Hfree in Hnd, Hpart. pose proof (dk_desc _ _ Hd) as Hdl. pose proof (dk_req _ _ Hd) as Hrl.
  pose proof (dk_info _ _ Hd) as Hil.
  assert (forall i, i ∈ ch_ids c -> in_table i) as Hrange.
  { intros i Hi. eapply disk_ok_range; [exact Hd|]. rewrite Hfree. set_solver. }
  assert (forall r i j, r ∈ rs -> i ∈ ch_ids r -> j ∈ ch_ids c -> Z.to_nat j <> Z.to_nat i) as Hne.
  { intros r i j Hr Hi Hj Heq. destruct (disk_ok_taken _ _ _ _ Hd Hr Hi) as [Hz Hri].
    specialize (Hrange j Hj). unfold in_table in *. assert (j = i) as -> by lia.
    assert (i ∈ free_idx (v_free d)) as Hif by (rewrite Hfree; set_solver).
    by apply elem_of_free_idx in Hif as [? _]. }
  assert (NoDup (ch_ids c)) as Hnc by (rewrite <- app_assoc in Hnd; by apply NoDup_app in Hnd as (? & _)).
  unfold ch_ids in Hnc. apply NoDup_cons in Hnc as [Hn0 Hnc]. apply NoDup_cons in Hnc as [Hn1 _].
  pose proof (Hrange (ch0 c) ltac:(left)) as R0. pose proof (Hrange (ch1 c) ltac:(right; left)) as R1.
  pose proof (Hrange (ch2 c) ltac:(right; right; left)) as R2. unfold in_table in R0, R1, R2.
  assert (ch0 c <> ch1 c /\ ch0 c <> ch2 c /\ ch1 c <> ch2 c) as (N01 & N02 & N12) by set_solver.
  change (Z.of_nat NUM) with 8 in *. unfold NUM in *.
  split; unfold submitted;
    cbn [v_lock v_desc v_avail_idx v_avail_ring v_used_idx v_used_ring v_free v_seen v_info v_req v_reg v_mmio].
  - by rewrite length_mark, (dk_free _ _ Hd).
  - by rewrite !length_insert.
  - by rewrite length_insert.
  - by rewrite length_insert.
  - by rewrite length_zset, (dk_ring _ _ Hd).
  - apply (dk_used _ _ Hd).
  - apply mark_flags; [by left|apply (dk_flags _ _ Hd)].
  - rewrite (free_idx_mark _ _ l) by (by rewrite ?(dk_free _ _ Hd)). rewrite bind_cons.
    rewrite <- Hpart. rewrite (Permutation_app_comm (ch_ids c) l). by rewrite <- app_assoc.
  - constructor.
    + split; cbn [v_desc v_info v_req].
      * by rewrite !list_lookup_insert_ne, list_lookup_insert_eq by lia.
      * by rewrite list_lookup_insert_ne, list_lookup_insert_eq by (rewrite ?length_insert; lia).
      * by rewrite list_lookup_insert_eq by (rewrite !length_insert; lia).
      * by rewrite list_lookup_insert_eq by lia.
      * eexists. by rewrite list_lookup_insert_eq by lia.
    + pose proof (dk_chains _ _ Hd) as Hc. rewrite Forall_forall in *. intros r Hr.
      eapply chain_ok_frame; [by apply Hc| | |]; cbn [v_desc v_info v_req].
      * intros i Hi. rewrite !list_lookup_insert_ne; [done|..]; eapply (Hne r); set_solver.
      * rewrite list_lookup_insert_ne; [done|]. eapply (Hne r); set_solver.
      * rewrite list_lookup_insert_ne; [apply (co_info _ _ (Hc r Hr))|]. eapply (Hne r); set_solver.
Qed.

(* ------------------------------------------------------------------ *)
(** ** Giving descriptors back *)

Definition freed_desc (i : Z) (d : vdisk) : vdisk :=
  vdisk_set_free (zset (v_free d) i 1) (vdisk_set_desc (<[Z.to_nat i := desc0]> (v_desc d)) d).

Lemma free_desc_eq i s :
  ready (m_k s) -> in_table i -> zget (v_free (m_disk s)) i = 0 ->
  exists k, free_desc i s = Ok tt (mset_k k (mset_disk (freed_desc i (m_disk s)) s)) /\
    woke (fun c => c =? disk_free_addr) (m_k s) k.
Proof.
  unfold in_table. intros Hr Hi Hz. destruct (wakeup_woke disk_free_addr (m_k s) Hr) as (k & Hk & Hw).
  exists k. split; [|done]. unfold free_desc. rewrite (proj2 (Z.leb_gt _ _)) by lia.
  rewrite bind_getd, Hz. change (negb (0 =? 0)) with false. cbv iota.
  unfold set_desc, set_free. rewrite !bind_setd. by erewrite lk_eq by exact Hk.
Qed.

(** One round of [free_chain]. *)
Lemma free_chain_round i x s :
  ready (m_k s) -> in_table i -> zget (v_free (m_disk s)) i = 0 ->
  v_desc (m_disk s) !! Z.to_nat i = Some x ->
  exists k, free_chain_body i s =
      Ok (if has (d_flags x) VRING_DESC_F_NEXT then inl (d_next x) else inr tt)
        (mset_k k (mset_disk (freed_desc i (m_disk s)) s)) /\
    woke (fun c => c =? disk_free_addr) (m_k s) k.
Proof.
  intros Hr Hi Hz Hx. destruct (free_desc_eq i s Hr Hi Hz) as (k & Hk & Hw). exists k. split; [|done].
  unfold free_chain_body, get_desc. rewrite bind_assoc, bind_getd, bind_ret_l, Hx. cbn [default].
  rewrite (bind_ok _ _ _ _ _ Hk). by destruct (has _ _).
Qed.

Definition freed (c : chain) (d : vdisk) : vdisk :=
  freed_desc (ch2 c) (freed_desc (ch1 c) (freed_desc (ch0 c) d)).

Lemma free_chain_eq d c rs s :
  ready (m_k s) -> disk_ok d (c :: rs) ->
  v_free (m_disk s) = v_free d -> v_desc (m_disk s) = v_desc d ->
  exists k, free_chain (ch0 c) s = Ok tt (mset_k k (mset_disk (freed c (m_disk s)) s)) /\
    woke (fun ch => ch =? disk_free_addr) (m_k s) k.
Proof.
  intros Hr Hd Ef Ed. pose proof (dk_chains _ _ Hd) as Hch. apply Forall_cons in Hch as [[E0 E1 E2 _ _] _].
  assert (c ∈ c :: rs) as Hc by left.
  destruct (disk_ok_taken _ _ _ (ch0 c) Hd Hc ltac:(left)) as [Z0 R0].
  destruct (disk_ok_taken _ _ _ (ch1 c) Hd Hc ltac:(right; left)) as [Z1 R1].
  destruct (disk_ok_taken _ _ _ (ch2 c) Hd Hc ltac:(right; right; left)) as [Z2 R2].
  pose proof (disk_ok_ids _ _ Hd) as Hnd. apply NoDup_app in Hnd as (_ & _ & Hnd).
  rewrite bind_cons in Hnd. apply NoDup_app in Hnd as (Hnd & _). unfold ch_ids in Hnd.
  apply NoDup_cons in Hnd as [Hn0 Hnd]. apply NoDup_cons in Hnd as [Hn1 _].
  assert (ch0 c <> ch1 c /\ ch0 c <> ch2 c /\ ch1 c <> ch2 c) as (N01 & N02 & N12) by set_solver.
  unfold in_table in R0, R1, R2. rewrite <- Ef in Z0, Z1, Z2. rewrite <- Ed in E0, E1, E2.
  destruct (free_chain_round (ch0 c) _ s Hr R0 Z0 E0) as (k1 & Hk1 & W1).
  set (s1 := mset_k k1 _) in Hk1.
  destruct (free_chain_round (ch1 c) _ s1 (ready_woke _ _ _ Hr W1) R1
    ltac:(unfold s1; cbn; by rewrite zget_zset_ne by lia)
    ltac:(unfold s1; cbn; rewrite list_lookup_insert_ne by lia; exact E1)) as (k2 & Hk2 & W2).
  set (s2 := mset_k k2 _) in Hk2.
  pose proof (ready_woke _ _ _ (ready_woke _ _ _ Hr W1) W2) as Hr2.
  destruct (free_chain_round (ch2 c) _ s2 Hr2
    R2 ltac:(unfold s2, s1; cbn; by rewrite !zget_zset_ne by lia)
    ltac:(unfold s2, s1; cbn; rewrite !list_lookup_insert_ne by lia; exact E2)) as (k3 & Hk3 & W3).
  exists k3. split.
  - unfold free_chain. change (S NUM) with (S (S (S 6))). cbn [d_flags d_next] in Hk1, Hk2, Hk3.
    assert (has (Z.lor (if ch_write c then 0 else VRING_DESC_F_WRITE) VRING_DESC_F_NEXT)
      VRING_DESC_F_NEXT = true) as Hn by (by destruct (ch_write c)).
    rewrite Hn in Hk2.
    rewrite (loop_next _ _ _ _ _ _ Hk1), (loop_next _ _ _ _ _ _ Hk2).
    rewrite (loop_last _ _ _ _ _ _ Hk3). done.
  - apply woke_same with k2; [|exact W3]. by apply woke_same with k1.
Qed.

(** What is left of a request after [rw_finish]. *)
Lemma disk_ok_freed d d' c rs :
  disk_ok d (c :: rs) ->
  v_free d' = mark 1 (ch_ids c) (v_free d) ->
  (forall j, (forall i, i ∈ ch_ids c -> Z.to_nat i <> j) -> v_desc d' !! j = v_desc d !! j) ->
  v_req d' = v_req d -> v_avail_ring d' = v_avail_ring d -> v_used_ring d' = v_used_ring d ->
  length (v_desc d') = length (v_desc d) -> length (v_info d') = length (v_info d) ->
  (forall j, j <> Z.to_nat (ch0 c) -> v_info d' !! j = v_info d !! j) ->
  disk_ok d' rs.
Proof.
  intros Hd Hf Hdesc Hreq Hring Hused Hdl Hil Hinfo.
  pose proof (disk_ok_ids _ _ Hd) as Hnd. pose proof (dk_part _ _ Hd) as Hpart.
  assert (Forall (fun i => in_table i /\ zget (v_free d) i = 0) (ch_ids c)) as Hids.
  { apply Forall_forall. intros i Hi. destruct (disk_ok_taken _ _ c i Hd ltac:(left) Hi). done. }
  assert (forall r i j, r ∈ rs -> i ∈ ch_ids r -> j ∈ ch_ids c -> Z.to_nat j <> Z.to_nat i) as Hne.
  { intros r i j Hr Hi Hj Heq.
    destruct (disk_ok_taken _ _ _ _ Hd ltac:(right; exact Hr) Hi) as [_ Ri].
    destruct (disk_ok_taken _ _ _ _ Hd ltac:(left) Hj) as [_ Rj].
    unfold in_table in Ri, Rj. assert (j = i) as -> by lia.
    apply NoDup_app in Hnd as (_ & _ & Hnd). rewrite bind_cons in Hnd.
    apply NoDup_app in Hnd as (_ & Hdis & _). apply (Hdis i Hj). by apply elem_of_chain_ids with r. }
  assert (free_idx (mark 1 (ch_ids c) (v_free d)) ≡ₚ ch_ids c ++ free_idx (v_free d)) as Hfree.
  { assert (NoDup (ch_ids c)) as Hnc.
    { apply NoDup_app in Hnd as (_ & _ & Hnd). rewrite bind_cons in Hnd. by apply NoDup_app in Hnd as (? & _). }
    pose proof (dk_free _ _ Hd) as Hlen. apply NoDup_Permutation.
    - apply NoDup_free_idx.
    - apply NoDup_app. split; [done|]. split; [|apply NoDup_free_idx].
      intros i Hi Hi'. apply elem_of_free_idx in Hi' as [Hi' _].
      rewrite Forall_forall in Hids. by destruct (Hids i Hi).
    - intros i. rewrite elem_of_app, !elem_of_free_idx.
      destruct (decide (in_table i)) as [Hi|Hi].
      + rewrite zget_mark; [|done|eapply Forall_impl; [exact Hids|]; by intros ? []|done].
        case_decide as Hin.
        { split; [by left|]. intros _. done. }
        split; [by right|]. by intros [|].
      + split; [by intros []|]. intros [Hin|[_ ?]]; [|done]. rewrite Forall_forall in Hids.
        by destruct (Hids i Hin). }
  split.
  - by rewrite Hf, length_mark, (dk_free _ _ Hd).
  - by rewrite Hdl, (dk_desc _ _ Hd).
  - by rewrite Hil, (dk_info _ _ Hd).
  - by rewrite Hreq, (dk_req _ _ Hd).
  - by rewrite Hring, (dk_ring _ _ Hd).
  - by rewrite Hused, (dk_used _ _ Hd).
  - rewrite Hf. apply mark_flags; [by right|apply (dk_flags _ _ Hd)].
  - rewrite Hf, Hfree, <- Hpart, bind_cons.
    by rewrite (Permutation_app_comm (ch_ids c)), <- app_assoc.
  - pose proof (dk_chains _ _ Hd) as Hc. apply Forall_cons in Hc as [_ Hc]. rewrite Forall_forall in *.
    intros r Hr. eapply chain_ok_frame; [by apply Hc| | |].
    + intros i Hi. apply Hdesc. intros j Hj. by eapply (Hne r).
    + by rewrite Hreq.
    + rewrite Hinfo; [apply (co_info _ _ (Hc r Hr))|]. intros Heq. symmetry in Heq. revert Heq. apply (Hne r); set_solver.
Qed.

(* ------------------------------------------------------------------ *)
(** ** The end of a request *)

Definition finished (c : chain) (d : vdisk) : vdisk :=
  vunlocked (freed c (vdisk_set_info (<[Z.to_nat (ch0 c) :=
    Vinfo None (in_status (default (Vinfo None 0) (v_info d !! Z.to_nat (ch0 c))))]> (v_info d)) d)).

Lemma finished_ok d c rs : disk_ok d (c :: rs) -> disk_ok (finished c d) rs.
Proof.
  intros Hd. eapply disk_ok_freed; [exact Hd|done| |done|done|done|cbn; by rewrite !length_insert
    |cbn; by rewrite length_insert|].
  - intros j Hj. cbn. rewrite !list_lookup_insert_ne by (apply Hj; unfold ch_ids; set_solver). done.
  - intros j Hj. cbn. by rewrite list_lookup_insert_ne.
Qed.

Lemma rw_finish_eq c rs s :
  ready (m_k s) -> disk_ok (m_disk s) (c :: rs) ->
  exists k, rw_finish (ch0 c) s = Ok tt (mset_k (popped k) (mset_disk (finished c (m_disk s)) s)) /\
    woke (fun ch => ch =? disk_free_addr) (m_k s) k.
Proof.
  intros Hr Hd. unfold rw_finish. rewrite bind_setd.
  set (s1 := mset_disk _ s).
  destruct (free_chain_eq (m_disk s) c rs s1 Hr Hd eq_refl eq_refl) as (k & Hk & Hw).
  exists k. split; [|exact Hw]. rewrite (bind_ok _ _ _ _ _ Hk), vrelease_eq. done.
Qed.

(* ------------------------------------------------------------------ *)
(** ** Interrupts *)

(** The requests [l] wait on the used ring, in this order. *)
Record used_by (d : vdisk) (l : list chain) : Prop := {
  us_idx : v_used_idx d = u16 (v_seen d + Z.of_nat (length l));
  us_seen : 0 <= v_seen d < 65536;
  us_len : (length l <= NUM)%nat;
  us_ring : forall n c, l !! n = Some c ->
    zget (v_used_ring d) ((v_seen d + Z.of_nat n) mod Z.of_nat NUM) = ch0 c;
  us_info : Forall (fun c => v_info d !! Z.to_nat (ch0 c) = Some (Vinfo (Some (ch_buf c)) 0)) l;
}.

(** The buffers after their requests completed, and the channels woken. *)
Definition bufs_done (l : list chain) (bs : list buf) : list buf :=
  foldl (fun bs c => alter (buf_set_disk 0) (ch_buf c) bs) bs l.
Definition chan_of (l : list chain) (ch : Z) : bool :=
  existsb (fun c => ch =? buf_addr (ch_buf c)) l.

Lemma insert_alter {A} (f : A -> A) (l : list A) i x : l !! i = Some x -> <[i := f x]> l = alter f i l.
Proof.
  intros Hx. apply list_eq. intros j. destruct (decide (i = j)) as [<-|Hne].
  - rewrite list_lookup_insert_eq by (by eapply lookup_lt_Some).
    by rewrite list_lookup_alter_eq, Hx.
  - by rewrite list_lookup_insert_ne, list_lookup_alter_ne.
Qed.

Lemma length_bufs_done l bs : length (bufs_done l bs) = length bs.
Proof.
  unfold bufs_done. revert bs. induction l as [|e l IH]; intros bs; cbn; [done|]. by rewrite IH, length_alter.
Qed.
Lemma bufs_done_keep l bs i y :
  bs !! i = Some y -> b_disk y = 0 -> exists z, bufs_done l bs !! i = Some z /\ b_disk z = 0.
Proof.
  unfold bufs_done. revert bs y. induction l as [|e l IH]; intros bs y Hy Hz; cbn; [by exists y|].
  destruct (decide (ch_buf e = i)) as [He|He].
  - eapply IH; [rewrite He, list_lookup_alter_eq, Hy; reflexivity|done].
  - eapply IH; [rewrite list_lookup_alter_ne by done; exact Hy|done].
Qed.
Lemma bufs_done_idle l bs c y :
  c ∈ l -> bufs_done l bs !! ch_buf c = Some y -> b_disk y = 0.
Proof.
  revert bs. induction l as [|e l IH]; intros bs Hc Hy; [by apply not_elem_of_nil in Hc|].
  apply elem_of_cons in Hc as [->|Hc]; [|by apply (IH (alter (buf_set_disk 0) (ch_buf e) bs))].
  destruct (bs !! ch_buf e) as [z|] eqn:Hz.
  - destruct (bufs_done_keep l (alter (buf_set_disk 0) (ch_buf e) bs) (ch_buf e) (buf_set_disk 0 z))
      as (z' & Hz' & Hd); [by rewrite list_lookup_alter_eq, Hz|done|].
    change (bufs_done (e :: l) bs) with (bufs_done l (alter (buf_set_disk 0) (ch_buf e) bs)) in Hy.
    rewrite Hz' in Hy. by injection Hy as <-.
  - apply lookup_ge_None in Hz. apply lookup_lt_Some in Hy. rewrite length_bufs_done in Hy. lia.
Qed.

Lemma u16_mod x : u16 x mod Z.of_nat NUM = x mod Z.of_nat NUM.
Proof. unfold u16, NUM. rewrite Z.mod_mod_divide; [done|]. by exists 8192. Qed.
Lemma u16_add x y : u16 (u16 x + y) = u16 (x + y).
Proof. unfold u16. by rewrite Zplus_mod_idemp_l. Qed.

Lemma used_by_next d c l :
  used_by d (c :: l) -> used_by (vdisk_set_seen (u16 (v_seen d + 1)) d) l.
Proof.
  intros [Hi Hs Hl Hr Hc]. cbn in Hi, Hl. apply Forall_cons in Hc as [_ Hc]. split; cbn.
  - rewrite Hi, u16_add. f_equal. lia.
  - apply u16_bounds.
  - lia.
  - intros n x Hx. rewrite <- (Hr (S n) x Hx). f_equal.
    rewrite <- Zplus_mod_idemp_l, u16_mod, Zplus_mod_idemp_l. f_equal. lia.
  - done.
Qed.

Lemma used_by_more d c l : used_by d (c :: l) -> v_seen d <> v_used_idx d.
Proof.
  intros [Hi Hs Hl _ _] He. rewrite He in Hi. cbn in Hl. rewrite He in Hs. unfold u16 in Hi.
  cbn [length] in Hi. unfold NUM in Hl. dlia.
Qed.
Lemma used_by_done d : used_by d [] -> v_seen d = v_used_idx d.
Proof. intros [Hi Hs _ _ _]. cbn in Hi. rewrite Hi, Z.add_0_r. symmetry. by apply u16_id. Qed.

Lemma intr_round c l s x :
  ready (m_k s) -> used_by (m_disk s) (c :: l) -> k_bufs (m_k s) !! ch_buf c = Some x ->
  exists k, intr_body tt s = Ok (inl tt)
    (mset_k (kset_bufs (alter (buf_set_disk 0) (ch_buf c) (k_bufs (m_k s))) k)
      (mset_disk (vdisk_set_seen (u16 (v_seen (m_disk s) + 1)) (m_disk s)) s)) /\
    woke (fun ch => ch =? buf_addr (ch_buf c)) (m_k s) k.
Proof.
  intros Hr Hu Hx. pose proof (used_by_more _ _ _ Hu) as Hne. destruct Hu as [_ _ _ Hring Hinfo].
  apply Forall_cons in Hinfo as [Hinfo _]. specialize (Hring 0%nat c eq_refl).
  rewrite Z.add_0_r in Hring.
  destruct (wakeup_woke (buf_addr (ch_buf c))
    (kset_bufs (alter (buf_set_disk 0) (ch_buf c) (k_bufs (m_k s))) (m_k s))
    (ready_kset_bufs _ _ Hr)) as (k' & Hk' & Hw).
  destruct (woke_kset_bufs _ _ _ _ Hw) as (t & Ht & ->). exists t. split; [|done].
  unfold intr_body. rewrite bind_getd, (proj2 (Z.eqb_neq _ _)) by done. cbn zeta. rewrite Hring, Hinfo.
  cbn [in_status in_b]. change (negb (0 =? 0)) with false. cbv iota.
  erewrite bind_ok; [|apply set_buf_disk_eq; exact Hx]. rewrite (insert_alter _ _ _ _ Hx).
  erewrite bind_ok; [|apply lk_eq; exact Hk']. by rewrite bind_setd.
Qed.

Lemma intr_loop l fuel s :
  ready (m_k s) -> used_by (m_disk s) l ->
  (forall c, c ∈ l -> (ch_buf c < length (k_bufs (m_k s)))%nat) -> (length l < fuel)%nat ->
  exists k, loop fuel intr_body tt s = Ok tt
    (mset_k (kset_bufs (bufs_done l (k_bufs (m_k s))) k)
      (mset_disk (vdisk_set_seen (v_used_idx (m_disk s)) (m_disk s)) s)) /\
    woke (chan_of l) (m_k s) k.
Proof.
  revert fuel s. induction l as [|c l IH]; intros fuel s Hr Hu Hb Hf;
    (destruct fuel as [|fuel]; [cbn in Hf; lia|]).
  - exists (m_k s). split; [|by apply woke_refl]. pose proof (used_by_done _ Hu) as Hd.
    erewrite loop_last; [|unfold intr_body; rewrite bind_getd, Hd, Z.eqb_refl; done].
    rewrite <- Hd. by destruct s as [[[? [] ?] ? ? ? ? ? ?] [] ? ? ? ? ?].
  - destruct (lookup_lt_is_Some_2 (k_bufs (m_k s)) (ch_buf c)) as [x Hx]; [apply Hb; left|].
    destruct (intr_round c l s x Hr Hu Hx) as (k & Hrun & Hw).
    rewrite (loop_next _ _ _ _ _ _ Hrun). set (s1 := mset_k _ _).
    destruct (IH fuel s1) as (k' & Hrun' & Hw'); [by apply ready_kset_bufs, (ready_woke _ _ _ Hr Hw)|by apply used_by_next with c| |cbn in Hf; lia|].
    { intros c' Hc'. unfold s1, kset_bufs, k_bufs. cbn. rewrite length_alter. apply Hb. by right. }
    destruct (woke_kset_bufs _ _ _ _ Hw') as (t & Ht & ->).
    exists t. split; [by rewrite Hrun'|].
    eapply woke_ext; [|exact (woke_trans _ _ _ _ _ Hw Ht)]. done.
Qed.

(** The handler's acknowledgement of the device. *)
Definition acked (d : vdisk) : vdisk :=
  vdisk_set_mmio (v_mmio d ++ [(100, u32 (Z.land (v_reg d 96) 3))]) d.

Lemma virtio_disk_intr_eq l s :
  ready (m_k s) -> c_noff (k_cpu (m_k s)) < 2147483645 -> lk_locked (v_lock (m_disk s)) = 0 ->
  used_by (m_disk s) l -> (forall c, c ∈ l -> (ch_buf c < length (k_bufs (m_k s)))%nat) ->
  exists k, virtio_disk_intr s = Ok tt
    (mset_k (kset_bufs (bufs_done l (k_bufs (m_k s))) k)
      (mset_disk (vunlocked (vdisk_set_seen (v_used_idx (m_disk s)) (acked (vlocked (m_disk s))))) s)) /\
    woke (chan_of l) (m_k s) k.
Proof.
  intros Hr Hn Hl Hu Hb. unfold virtio_disk_intr. rewrite (bind_ok _ _ _ _ _ (vacquire_eq s Hl)).
  set (s1 := mset_k _ _).
  rewrite (bind_ok _ _ s1 tt (mset_disk (acked (m_disk s1)) s1)) by done.
  set (s2 := mset_disk _ s1). rewrite bind_getd.
  assert (used_by (m_disk s2) l) as Hu2 by (by destruct Hu).
  pose proof (us_idx _ _ Hu2) as Hidx. pose proof (us_len _ _ Hu2) as Hlen.
  assert (u16 (v_used_idx (m_disk s2) - v_seen (m_disk s2)) = Z.of_nat (length l)) as Hcount.
  { rewrite Hidx. unfold u16. rewrite Zminus_mod_idemp_l. unfold NUM in Hlen.
    replace (_ + _ - _) with (Z.of_nat (length l)) by lia. apply Z.mod_small. lia. }
  rewrite Hcount.
  destruct (intr_loop l (Z.to_nat (Z.of_nat (length l)) + 1) s2) as (k & Hk & Hw);
    [by apply ready_pushed|done|exact Hb|lia|].
  exists (popped k). rewrite (bind_ok _ _ _ _ _ Hk), vrelease_eq. split; [done|].
  by apply woke_section; [apply (rdy_irq _ Hr)|].
Qed.

(* ------------------------------------------------------------------ *)
(** ** The device *)

(** The buffer cache replaced. *)
Definition kset_bio (B : bio D) k : kernel D :=
  kernel_set_fs (Fs (f_km (k_fs k)) B (icache (k_fs k))) k.
Definition k_bio k : bio D := f_bio (k_fs k).

Lemma woke_kset_bio P B k k' :
  woke P (kset_bio B k) k' -> exists t, woke P k t /\ k' = kset_bio B t.
Proof.
  intros Hw. destruct (woke_set_fs _ _ _ _ Hw) as (t & Ht & ->). exists t. split; [done|].
  unfold kset_bio. by rewrite (woke_fs _ _ _ Ht).
Qed.

(** The transfer the device makes for a request, between its disk and the
    buffer's data. *)
Definition transfer (c : chain) (x : buf) (B : bio D) : bio D :=
  if ch_write c
  then Bio (bcache B) (dev_write (bdisk B) (ch_sector c) (b_data x)) (sb B) (bio_count B)
  else Bio (<[ch_buf c := buf_set_data (dev_read (bdisk B) (ch_sector c)) x]> (bcache B))
         (bdisk B) (sb B) (bio_count B).

(** A request served: the transfer is made, the status byte is 0 and the head of
    the chain is on the used ring. *)
Definition served (c : chain) (x : buf) s : machine D :=
  mset_k (kset_bio (transfer c x (k_bio (m_k s))) (m_k s))
    (mset_disk (vdisk_set_used_ring
        (zset (v_used_ring (m_disk s)) (v_used_idx (m_disk s) mod Z.of_nat NUM) (ch0 c))
      (vdisk_set_used_idx (u16 (v_used_idx (m_disk s) + 1)) (m_disk s))) s).

(** The device serves the request whose head was put last on the available
    ring, when its chain is as the interface prescribes. *)
Definition device_serves (device : machine D -> machine D) : Prop :=
  forall s c x, chain_ok (m_disk s) c ->
    zget (v_avail_ring (m_disk s)) ((v_avail_idx (m_disk s) - 1) mod Z.of_nat NUM) = ch0 c ->
    v_info (m_disk s) !! Z.to_nat (ch0 c) = Some (Vinfo (Some (ch_buf c)) 0) ->
    k_bufs (m_k s) !! ch_buf c = Some x -> device s = served c x s.

(* ------------------------------------------------------------------ *)
(** ** Properties *)

Lemma length_ids rs : length (rs ≫= ch_ids) = (3 * length rs)%nat.
Proof. induction rs as [|c rs IH]; [done|]. rewrite bind_cons, length_app, IH. cbn. lia. Qed.
Lemma length_free d rs : disk_ok d rs -> (length (free_idx (v_free d)) + 3 * length rs = NUM)%nat.
Proof.
  intros Hd. pose proof (Permutation_length (dk_part _ _ Hd)) as Hl.
  rewrite length_app, length_ids, length_seqZ in Hl. unfold NUM in *. lia.
Qed.

(** [s'] is [s] with process [p] asleep in the driver, which it left unlocked and
    with its requests as they were. *)
Record parked (p : nat) (px : proc) (ch : Z) (kk : kont) (rs : list chain) s s' : Prop := {
  pk_entry : k_procs (m_k s') !! p = Some (asleep ch kk px);
  pk_lock : lk_locked (v_lock (m_disk s')) = 0;
  pk_disk : disk_ok (m_disk s') rs;
  pk_free : v_free (m_disk s') = v_free (m_disk s);
  pk_bufs : k_bufs (m_k s') = k_bufs (m_k s);
}.
Lemma left_parked p px ch kk rs s :
  disk_ok (m_disk s) rs -> k_procs (m_k s) !! p = Some px ->
  parked p px ch kk rs s (left_driver p (asleep ch kk px) s).
Proof.
  intros Hd Hx. split; try done.
  - cbn. apply list_lookup_insert_eq. by eapply lookup_lt_Some.
  - by apply disk_ok_same with (m_disk s).
Qed.

(** The process that slept in the driver has the driver's lock again. *)
Lemma resumed_in_driver p px rs s :
  ready (m_k s) -> c_proc (k_cpu (m_k s)) = Some p -> k_procs (m_k s) !! p = Some px ->
  c_noff (k_cpu (m_k s)) = 1 -> lk_locked (v_lock (m_disk s)) = 0 -> disk_ok (m_disk s) rs ->
  exists s', vsleep_resume s = Ok tt s' /\
    s' = mset_k (pushed (kernel_set_procs (<[p := proc_set_lock (lock_free (p_lock px)) (proc_set_chan 0 px)]>
           (k_procs (m_k s))) (popped (m_k s)))) (mset_disk (vlocked (m_disk s)) s) /\
    ready (m_k s') /\
    in_driver s' p (proc_set_lock (lock_free (p_lock px)) (proc_set_chan 0 px)) /\
    lk_locked (v_lock (m_disk s')) <> 0 /\ disk_ok (m_disk s') rs /\ k_bufs (m_k s') = k_bufs (m_k s).
Proof.
  intros Hr Hp Hx Hn Hl Hd. assert (p < length (k_procs (m_k s)))%nat as Hlt by (by eapply lookup_lt_Some).
  assert (c_noff (cpu_push (cpu_pop (k_cpu (m_k s)))) = 1) as Hn1 by (unfold cpu_push, cpu_pop; cbn -[s32]; by rewrite Hn).
  destruct Hr as [Hlen Hirq Hidle]. eexists. split; [by apply (vsleep_resume_eq s p px)|]. split; [done|].
  split; [|split; [|split; [|split]]].
  - split; [cbn; by rewrite length_insert| |].
    + split; [change (0 <= c_noff (cpu_push (cpu_pop (k_cpu (m_k s)))) < 2147483646); rewrite Hn1; lia|done].
    + cbn. intros i y Hy Hne. rewrite Hp in Hne. rewrite list_lookup_insert_ne in Hy by congruence.
      apply (Hidle i y Hy). congruence.
  - split; [exact Hp|cbn; by apply list_lookup_insert_eq|by split|exact Hn1|done].
  - done.
  - by apply disk_ok_same with (m_disk s).
  - done.
Qed.

(** C10: Every descriptor is free or in one request's chain, whatever the driver
    does. With at most one request in flight a new one gets three free
    descriptors, its chain is the transfer of the buffer's block, its head is the
    next entry of the available ring and the buffer is marked. With two, the
    process takes no descriptor and goes to sleep until descriptors are freed,
    and a process whose request is not done goes to sleep on the buffer: both
    leave the driver unlocked with its requests as they were, and after every
    call on the way to the sleep interrupts are off and the driver's lock or the
    process's own lock is held. A process that runs again takes the driver's lock
    and tries the allocation again, or looks at its request again. The end of any
    request frees exactly its three descriptors and makes the processes that wait
    for descriptors ready. *)
Theorem virtio_requests device fuel s rs b w x :
  ready (m_k s) -> disk_ok (m_disk s) rs -> k_bufs (m_k s) !! b = Some x ->
  ((length rs < 2)%nat -> exists c s', rw_submit b w s = Ok (ch0 c) s' /\
     ch_buf c = b /\ ch_write c = w /\ ch_sector c = buf_sector x /\
     disk_ok (m_disk s') (c :: rs) /\
     v_avail_idx (m_disk s') = u16 (v_avail_idx (m_disk s) + 1) /\
     zget (v_avail_ring (m_disk s')) (v_avail_idx (m_disk s) mod Z.of_nat NUM) = ch0 c /\
     k_bufs (m_k s') = <[b := buf_set_disk 1 x]> (k_bufs (m_k s))) /\
  (forall p px, in_driver s p px -> lk_locked (v_lock (m_disk s)) <> 0 ->
     ((2 <= length rs)%nat -> exists s', rw_submit b w s = Sleep disk_free_addr s' /\
        parked p px disk_free_addr (KDiskFree b w) rs s s') /\
     (forall i0, b_disk x = 1 -> exists s', rw_wait_body device b i0 tt s = Sleep (buf_addr b) s' /\
        parked p px (buf_addr b) (KDiskWait b i0) rs s s') /\
     (forall ch n, exists t, run_all (take n (vsleep_actions p ch)) s = Ok tt t /\ c_sie (k_cpu (m_k t)) = false /\
        (lk_locked (v_lock (m_disk t)) <> 0 \/
         exists y, k_procs (m_k t) !! p = Some y /\ lk_locked (p_lock y) <> 0))) /\
  (forall p px, c_proc (k_cpu (m_k s)) = Some p -> k_procs (m_k s) !! p = Some px ->
     c_noff (k_cpu (m_k s)) = 1 -> lk_locked (v_lock (m_disk s)) = 0 ->
     exists s', virtio_disk_rw_resume device fuel (KDiskFree b w) s = rw_locked device fuel b w s' /\
       (forall i0, virtio_disk_rw_resume device fuel (KDiskWait b i0) s = rw_wait device fuel b i0 s') /\
       ready (m_k s') /\ in_driver s' p (proc_set_lock (lock_free (p_lock px)) (proc_set_chan 0 px)) /\
       lk_locked (v_lock (m_disk s')) <> 0 /\ disk_ok (m_disk s') rs /\ k_bufs (m_k s') = k_bufs (m_k s)) /\
  (forall c rs', rs ≡ₚ c :: rs' -> exists s', rw_finish (ch0 c) s = Ok tt s' /\
     disk_ok (m_disk s') rs' /\ v_free (m_disk s') = mark 1 (ch_ids c) (v_free (m_disk s)) /\
     (forall i q, k_procs (m_k s) !! i = Some q -> c_proc (k_cpu (m_k s)) <> Some i ->
        p_status q = TASK_SLEEPING -> p_chan q = disk_free_addr ->
        k_procs (m_k s') !! i = Some (proc_set_status TASK_READY q))).
Proof.
  intros Hr Hd Hx. pose proof (length_free _ _ Hd) as Hlen.
  pose proof (dk_free _ _ Hd) as Hfl. pose proof (dk_flags _ _ Hd) as Hff.
  unfold NUM in Hlen. split; [|split; [|split]].
  - intros Hrs. destruct (free_idx (v_free (m_disk s))) as [|i0 [|i1 [|i2 l]]] eqn:Hfree;
      cbn [length] in Hlen; try lia.
    eexists (Chain b w (buf_sector x) i0 i1 i2), _.
    split; [eapply rw_submit_eq; eauto using dk_info|]. split; [done|]. split; [done|]. split; [done|].
    split; [by apply submitted_ok with l|]. split; [done|].
    split; [|done]. cbn [m_disk mset_disk with_bufs mset_k submitted v_avail_ring ch0].
    apply zget_zset_eq. rewrite (dk_ring _ _ Hd). unfold NUM. dlia.
  - intros p px Hin Hl. split; [|split].
    + intros Hrs. eexists. split; [|apply left_parked; [exact Hd|apply Hin]].
      rewrite (rw_submit_sleeps b w s x Hfl Hff Hx) by lia. by apply vsleep_eq.
    + intros i0 Hb. eexists. split; [|apply left_parked; [exact Hd|apply Hin]].
      unfold rw_wait_body. rewrite (bind_ok _ _ _ _ _ (get_buf_eq b s x Hx)), Hb.
      change (negb (1 =? 1)) with false. cbv iota.
      erewrite bind_ok; [|apply lk_eq; reflexivity]. rewrite mset_k_id, (id_cur _ _ _ Hin). by apply vsleep_eq.
    + intros ch n. exact (vsleep_guarded ch s p px n Hin Hl).
  - intros p px Hp Hpx Hn Hl.
    destruct (resumed_in_driver p px rs s Hr Hp Hpx Hn Hl Hd) as (s' & Hrun & _ & Hrest).
    exists s'. unfold virtio_disk_rw_resume. rewrite !(bind_ok _ _ _ _ _ Hrun).
    split; [done|]. split; [|exact Hrest]. intros i0. by rewrite (bind_ok _ _ _ _ _ Hrun).
  - intros c rs' Hp. pose proof (disk_ok_perm _ _ _ Hp Hd) as Hd'.
    destruct (rw_finish_eq c rs' s Hr Hd') as (k & Hk & Hw).
    eexists. split; [exact Hk|]. split; [by apply finished_ok|]. split; [done|].
    intros i q Hq Hne Hs Hch. cbn [m_k mset_k popped k_procs kernel_set_cpu].
    rewrite (woke_procs _ _ _ Hw). apply wake_procs_lookup; [done|done|done|].
    rewrite Hch. apply Z.eqb_refl.
Qed.

(** C11: The interrupt handler completes every request on the used ring: their
    buffers are marked idle, the processes asleep on them are ready to run, the
    driver has caught up with the device, and the requests' descriptors stay
    theirs. *)
Theorem virtio_disk_intr_completes s rs l :
  ready (m_k s) -> c_noff (k_cpu (m_k s)) < 2147483645 -> lk_locked (v_lock (m_disk s)) = 0 ->
  disk_ok (m_disk s) rs -> used_by (m_disk s) l ->
  (forall c, c ∈ l -> (ch_buf c < length (k_bufs (m_k s)))%nat) ->
  exists s', virtio_disk_intr s = Ok tt s' /\
    v_seen (m_disk s') = v_used_idx (m_disk s') /\ lk_locked (v_lock (m_disk s')) = 0 /\
    disk_ok (m_disk s') rs /\
    (forall c y, c ∈ l -> k_bufs (m_k s') !! ch_buf c = Some y -> b_disk y = 0) /\
    (forall c i p, c ∈ l -> k_procs (m_k s) !! i = Some p -> c_proc (k_cpu (m_k s)) <> Some i ->
       p_status p = TASK_SLEEPING -> p_chan p = buf_addr (ch_buf c) ->
       k_procs (m_k s') !! i = Some (proc_set_status TASK_READY p)).
Proof.
  intros Hr Hn Hl Hd Hu Hb. destruct (virtio_disk_intr_eq l s Hr Hn Hl Hu Hb) as (k & Hk & Hw).
  eexists. split; [exact Hk|]. split; [done|]. split; [done|].
  split; [by apply disk_ok_same with (m_disk s)|]. split.
  - cbn [m_k mset_k]. intros c y. change (k_bufs (kset_bufs ?l k)) with l.
    by apply bufs_done_idle.
  - intros c i p Hc Hp Hne Hs Hch. cbn [m_k mset_k kset_bufs k_procs kernel_set_fs].
    rewrite (woke_procs _ _ _ Hw). apply wake_procs_lookup; [done|done|done|].
    unfold chan_of. apply existsb_exists. exists c. split; [by apply list_elem_of_In|].
    rewrite Hch. apply Z.eqb_refl.
Qed.

(** The state the poll ends in, as the cache's model of a request has it, but for
    its count. *)
Definition transferred (b : nat) (w : bool) (x : buf) (B : bio D) : bio D :=
  let B' := transfer (Chain b w (buf_sector x) 0 0 0) x B in
  Bio (alter (buf_set_disk 0) b (bcache B')) (bdisk B') (sb B') (bio_count B').

(** The buffer is with the driver no more. *)
Lemma transferred_idle b w x B :
  bcache B !! b = Some x -> exists y, bcache (transferred b w x B) !! b = Some y /\ b_disk y = 0.
Proof.
  intros Hx. pose proof (lookup_lt_Some _ _ _ Hx). unfold transferred, transfer.
  destruct w; cbn [ch_write ch_buf bcache]; rewrite list_lookup_alter_eq.
  - rewrite Hx. by eexists.
  - rewrite list_lookup_insert_eq by done. by eexists.
Qed.

Lemma bio_virtio_disk_rw_eq b w x B :
  bcache B !! b = Some x ->
  Bio.virtio_disk_rw b w B =
    Ok tt (let B' := transferred b w x B in Bio (bcache B') (bdisk B') (sb B') (bio_count B' + 1)).
Proof.
  intros Hx. unfold Bio.virtio_disk_rw.
  rewrite (bind_ok _ _ B x B) by (unfold getb; by rewrite Hx).
  change (u32 (b_blockno x * (BSIZE / 512))) with (buf_sector x).
  set (B1 := transfer (Chain b w (buf_sector x) 0 0 0) x B).
  assert (forall y, bcache B1 !! b = Some y -> setb b (buf_set_disk 0) B1 =
    Ok tt (Bio (alter (buf_set_disk 0) b (bcache B1)) (bdisk B1) (sb B1) (bio_count B1))) as Hset.
  { intros y Hy. unfold setb. by rewrite Hy, (insert_alter _ _ _ _ Hy). }
  unfold transferred. destruct w; cbv zeta.
  - erewrite bind_ok; [|reflexivity]. erewrite bind_ok; [|by apply (Hset x)]. done.
  - rewrite bind_assoc. rewrite (bind_ok _ _ B B B) by done.
    rewrite (bind_ok _ _ B tt B1) by (unfold setb; by rewrite Hx).
    erewrite bind_ok; [|eapply Hset; cbn; apply list_lookup_insert_eq; by eapply lookup_lt_Some]. done.
Qed.

(** The buffer through a request: marked, transferred, marked idle again. *)
Lemma transfer_done c x B :
  bcache B !! ch_buf c = Some x ->
  let B1 := Bio (<[ch_buf c := buf_set_disk 1 x]> (bcache B)) (bdisk B) (sb B) (bio_count B) in
  let B2 := transfer c (buf_set_disk 1 x) B1 in
  Bio (bufs_done [c] (bcache B2)) (bdisk B2) (sb B2) (bio_count B2) =
    (let B' := transfer c x B in
     Bio (alter (buf_set_disk 0) (ch_buf c) (bcache B')) (bdisk B') (sb B') (bio_count B')).
Proof.
  intros Hx. assert (ch_buf c < length (bcache B))%nat as Hlt by (by eapply lookup_lt_Some).
  unfold transfer, bufs_done. destruct (ch_write c); cbn; f_equal.
  - erewrite <- !insert_alter; [|exact Hx|by apply list_lookup_insert_eq].
    by rewrite list_insert_insert_eq.
  - rewrite list_insert_insert_eq. erewrite <- !insert_alter; [|by apply list_lookup_insert_eq..].
    by rewrite !list_insert_insert_eq.
Qed.

(** The request [c], submitted by a driver with nothing waiting on the used ring,
    is what the device serves, and then the only one there. *)
Lemma served_used_by c x d rs s :
  m_disk s = submitted c d -> disk_ok (submitted c d) (c :: rs) -> used_by d [] ->
  used_by (m_disk (served c x s)) [c].
Proof.
  intros Hs Hd [Hi Hseen _ _ _]. cbn in Hi. rewrite Z.add_0_r in Hi.
  rewrite u16_id in Hi by done. pose proof (disk_ok_taken _ _ c (ch0 c) Hd ltac:(left) ltac:(left)) as [_ R0].
  pose proof (dk_used _ _ Hd) as Hul. pose proof (dk_info _ _ Hd) as Hil. unfold in_table in R0.
  unfold served. split; cbn [m_disk mset_k mset_disk v_used_idx v_seen v_used_ring v_info vdisk_set_used_ring
    vdisk_set_used_idx length]; rewrite ?Hs; cbn [v_used_idx v_seen v_used_ring v_info submitted] in *.
  - by rewrite Hi.
  - done.
  - unfold NUM. lia.
  - intros [|n] c' Hc'; [|done]. injection Hc' as <-. rewrite Z.add_0_r, Hi.
    apply zget_zset_eq. rewrite Hul. unfold NUM. dlia.
  - constructor; [|done]. rewrite length_insert in Hil.
    by rewrite list_lookup_insert_eq by lia.
Qed.

Lemma u16_succ_pred a : (u16 (a + 1) - 1) mod Z.of_nat NUM = a mod Z.of_nat NUM.
Proof. rewrite <- Zminus_mod_idemp_l, u16_mod, Zminus_mod_idemp_l. f_equal. lia. Qed.

(** The device serves the request while the driver is unlocked, and the interrupt
    handler completes it. *)
Lemma device_round device c x rs d s k :
  device_serves device -> ready k -> c_noff (k_cpu k) < 2147483645 ->
  disk_ok d rs -> used_by d [] -> disk_ok (submitted c (vlocked d)) (c :: rs) ->
  k_bufs k !! ch_buf c = Some (buf_set_disk 1 x) ->
  exists t d', virtio_disk_intr (device (mset_k k (mset_disk (vunlocked (submitted c (vlocked d))) s))) =
    Ok tt (mset_k (kset_bio (let B' := transfer c (buf_set_disk 1 x) (k_bio k) in
        Bio (bufs_done [c] (bcache B')) (bdisk B') (sb B') (bio_count B')) t) (mset_disk d' s)) /\
    woke (chan_of [c]) k t /\ used_by d' [] /\ disk_ok d' (c :: rs) /\
    v_free d' = v_free (submitted c (vlocked d)) /\ lk_locked (v_lock d') = 0.
Proof.
  intros Hdev Hr Hn Hd Hu Hok Hx. set (s2 := mset_k k _).
  assert (disk_ok (m_disk s2) (c :: rs)) as Hok2 by (by apply disk_ok_same with (submitted c (vlocked d))).
  assert (device s2 = served c (buf_set_disk 1 x) s2) as Hserved.
  { pose proof (dk_chains _ _ Hok2) as Hc2. apply Forall_cons in Hc2 as [Hc2 _].
    apply Hdev; [exact Hc2| |  |exact Hx].
    - unfold s2. cbn -[NUM]. rewrite u16_succ_pred. apply zget_zset_eq. rewrite (dk_ring _ _ Hd). unfold NUM. dlia.
    - destruct (disk_ok_taken _ _ c (ch0 c) Hok ltac:(left) ltac:(left)) as [_ R0]. unfold in_table in R0.
      unfold s2. cbn. rewrite list_lookup_insert_eq; [done|]. rewrite (dk_info _ _ Hd). lia. }
  rewrite Hserved. set (s3 := served c (buf_set_disk 1 x) s2) in *.
  assert (used_by (m_disk s3) [c]) as Hu3.
  { apply (served_used_by c (buf_set_disk 1 x) (vunlocked (vlocked d)) rs s2); [done|exact Hok2|by destruct Hu]. }
  assert (forall c', c' ∈ [c] -> (ch_buf c' < length (k_bufs (m_k s3)))%nat) as Hb3.
  { intros c' Hc'. apply list_elem_of_singleton in Hc' as ->. apply lookup_lt_Some in Hx.
    unfold s3, served, k_bufs, transfer. cbn. destruct (ch_write c); cbn; rewrite ?length_insert; done. }
  destruct (virtio_disk_intr_eq [c] s3) as (k4 & Hk4 & W4); [by destruct Hr|exact Hn|done|done|done|].
  destruct (woke_kset_bio _ _ _ _ W4) as (t & Wt & ->). eexists t, _. split; [exact Hk4|].
  split; [exact Wt|]. split; [|split; [|done]].
  - pose proof (us_idx _ _ Hu3) as Hi.
    assert (0 <= v_used_idx (m_disk s3) < 65536) as Hub by (rewrite Hi; apply u16_bounds).
    split; [|exact Hub|unfold NUM; cbn; lia|done|constructor].
    change (v_used_idx (m_disk s3) = u16 (v_used_idx (m_disk s3) + 0)). by rewrite Z.add_0_r, u16_id.
  - apply disk_ok_same with (submitted c (vlocked d)); [done..| |exact Hok]. cbn. by rewrite length_zset.
Qed.

(** One round of the boot-time wait: the device serves the request and the
    interrupt handler, called by hand, completes it. *)
Lemma rw_poll device c x rs d s i0 :
  device_serves device -> ready (m_k s) -> c_noff (k_cpu (m_k s)) < 2147483645 ->
  c_proc (k_cpu (m_k s)) = None ->
  disk_ok d rs -> used_by d [] -> disk_ok (submitted c (vlocked d)) (c :: rs) ->
  k_bufs (m_k s) !! ch_buf c = Some (buf_set_disk 1 x) ->
  exists t d', rw_wait_body device (ch_buf c) i0 tt
      (mset_k (pushed (m_k s)) (mset_disk (submitted c (vlocked d)) s)) =
    Ok (inl tt) (mset_k (pushed (kset_bio (let B' := transfer c (buf_set_disk 1 x) (k_bio (m_k s)) in
        Bio (bufs_done [c] (bcache B')) (bdisk B') (sb B') (bio_count B')) t)) (mset_disk d' s)) /\
    (exists P, woke P (m_k s) t) /\ used_by d' [] /\ disk_ok d' (c :: rs) /\
    v_free d' = v_free (submitted c (vlocked d)).
Proof.
  intros Hdev Hr Hn Hp Hd Hu Hok Hx. set (s1 := mset_k _ _). pose proof (rdy_irq _ Hr) as Hirq.
  assert (woke (fun _ => false) (m_k s) (popped (m_k s1))) as W1 by (apply woke_section; [done|apply woke_refl]).
  destruct (device_round device c x rs d s1 (popped (m_k s1))) as (t & d' & Hk4 & Wt & Hu' & Hd' & Hf' & Hl');
    [done|exact (ready_woke _ _ _ Hr W1)|by rewrite (sc_noff _ _ (wk_cpu _ _ _ W1))|done|done|done|exact Hx|].
  exists t, (vlocked d'). split; [|split; [|split; [|split]]].
  - unfold rw_wait_body. erewrite bind_ok; [|by apply get_buf_eq].
    change (negb (b_disk (buf_set_disk 1 x) =? 1)) with false. cbv iota.
    erewrite bind_ok; [|apply lk_eq; reflexivity]. unfold s1. cbn [m_k mset_k pushed k_cpu kernel_set_cpu].
    change (c_proc (cpu_push (k_cpu (m_k s)))) with (c_proc (k_cpu (m_k s))). rewrite Hp.
    rewrite (bind_ok _ _ _ _ _ (vrelease_eq _)). unfold modify at 1. erewrite bind_ok; [|reflexivity].
    rewrite (bind_ok _ _ _ _ _ Hk4). rewrite (bind_ok _ _ _ _ _ (vacquire_eq (mset_k _ (mset_disk d' s1)) Hl')). reflexivity.
  - eexists. exact (woke_trans _ _ _ _ _ W1 Wt).
  - by destruct Hu'.
  - by apply disk_ok_same with d'.
  - done.
Qed.

(** C9: The driver implements the block transfer: when no process runs, a
    request made through the rings ends with the cache, the block device and the
    buffer exactly as the cache's own model of [virtio_disk_rw] says, every
    descriptor that was free is free again, nothing waits on the used ring, the
    lock is free and no other kernel state has changed but for processes made
    ready. *)
Theorem virtio_disk_rw_refines device fuel b w x rs s B :
  device_serves device -> ready (m_k s) -> c_noff (k_cpu (m_k s)) < 2147483645 ->
  c_proc (k_cpu (m_k s)) = None -> lk_locked (v_lock (m_disk s)) = 0 ->
  disk_ok (m_disk s) rs -> (length rs < 2)%nat -> used_by (m_disk s) [] ->
  k_bufs (m_k s) !! b = Some x -> (2 <= fuel)%nat ->
  Bio.virtio_disk_rw b w (k_bio (m_k s)) = Ok tt B ->
  exists s' k, virtio_disk_rw device fuel b w s = Ok tt s' /\
    m_k s' = kset_bio (Bio (bcache B) (bdisk B) (sb B) (bio_count (k_bio (m_k s)))) k /\
    (exists P, woke P (m_k s) k) /\
    disk_ok (m_disk s') rs /\ v_free (m_disk s') = v_free (m_disk s) /\
    used_by (m_disk s') [] /\ lk_locked (v_lock (m_disk s')) = 0.
Proof.
  intros Hdev Hr Hn Hp Hl Hd Hrs Hu Hx Hfuel HB. pose proof (length_free _ _ Hd) as Hfree.
  rewrite (bio_virtio_disk_rw_eq b w x) in HB by exact Hx. injection HB as <-.
  destruct (free_idx (v_free (m_disk s))) as [|i0 [|i1 [|i2 l]]] eqn:Hi; cbn [length] in Hfree;
    unfold NUM in Hfree; try lia.
  set (c := Chain b w (buf_sector x) i0 i1 i2). set (d := m_disk s) in *.
  assert (disk_ok (vlocked d) rs) as Hdl by (by apply disk_ok_same with d).
  assert (disk_ok (submitted c (vlocked d)) (c :: rs)) as Hok by (by apply submitted_ok with l).
  set (s1 := mset_k (kset_bufs (<[b := buf_set_disk 1 x]> (k_bufs (m_k s))) (m_k s)) s).
  destruct (rw_poll device c x rs d s1 i0) as (t & d' & Hpoll & [P Ht] & Hu' & Hd' & Hf');
    [done|by apply ready_kset_bufs|done|done|done|done|done
    |cbn; apply list_lookup_insert_eq; by eapply lookup_lt_Some|].
  destruct (woke_kset_bufs _ _ _ _ Ht) as (t0 & Wt & ->).
  set (Bt := Bio _ _ _ _) in Hpoll.
  assert (Bt = transferred b w x (k_bio (m_k s))) as HBt by (by apply (transfer_done c x (k_bio (m_k s)))).
  destruct (transferred_idle b w x (k_bio (m_k s)) Hx) as (y & Hy & Hyd). rewrite <- HBt in Hy.
  set (s3 := mset_k (pushed (kset_bio Bt t0)) (mset_disk d' s)).
  assert (ready (m_k s3)) as Hr3.
  { apply ready_pushed; [apply (ready_set_fs _ t0), (ready_woke _ _ _ Hr Wt)|].
    change (c_noff (k_cpu t0) < 2147483645). by rewrite (sc_noff _ _ (wk_cpu _ _ _ Wt)). }
  destruct (rw_finish_eq c rs s3 Hr3 Hd') as (k & Hfin & Wk).
  destruct (woke_kset_bio _ Bt (pushed t0) _ Wk) as (t1 & W1 & ->).
  eexists _, (popped t1). split; [|split; [|split; [|split; [|split; [|split]]]]].
  - unfold virtio_disk_rw, rw_locked, rw_wait. rewrite (bind_ok _ _ _ _ _ (vacquire_eq s Hl)).
    erewrite bind_ok.
    2: { apply (rw_submit_eq b w _ x i0 i1 i2 l);
           [apply (dk_free _ _ Hd)|apply (dk_flags _ _ Hd)|apply (dk_info _ _ Hd)|exact Hx|exact Hi]. }
    destruct fuel as [|[|fuel]]; [lia|lia|].
    erewrite bind_ok; [exact Hfin|]. rewrite (loop_next _ _ _ _ tt s3) by exact Hpoll.
    apply loop_last. unfold rw_wait_body. rewrite (bind_ok _ _ _ _ _ (get_buf_eq b s3 y Hy)).
    by rewrite Hyd.
  - rewrite HBt. by destruct w.
  - eexists. eapply woke_trans; [exact Wt|]. eapply woke_section; [|exact W1].
    apply (sc_irq _ _ (wk_cpu _ _ _ Wt)), (rdy_irq _ Hr).
  - by apply finished_ok.
  - change (mark 1 (ch_ids c) (v_free d') = v_free d). rewrite Hf'.
    apply mark_back; [apply (dk_free _ _ Hd)|apply (dk_flags _ _ Hd)|].
    rewrite Hi. unfold ch_ids, c. cbn. intros i. set_solver.
  - by destruct Hu'.
  - done.
Qed.
(* ------------------------------------------------------------------ *)
(** ** A transfer with a process running *)

(** What a wakeup does to an entry. *)
Definition maybe_woken (q q' : proc) : Prop :=
  q' = q \/ p_status q = TASK_SLEEPING /\ q' = proc_set_status TASK_READY q.
Lemma maybe_woken_trans q1 q2 q3 : maybe_woken q1 q2 -> maybe_woken q2 q3 -> maybe_woken q1 q3.
Proof. intros [->|[H3 ->]] [->|[H4 ->]]; unfold maybe_woken; auto. Qed.
Lemma woke_entry P k k' i q :
  woke P k k' -> k_procs k !! i = Some q -> exists q', k_procs k' !! i = Some q' /\ maybe_woken q q'.
Proof.
  intros Hw Hq. rewrite (woke_procs _ _ _ Hw). unfold wake_procs. rewrite list_lookup_imap, Hq. cbn.
  eexists. split; [reflexivity|]. destruct (decide _); [by left|]. unfold wake_one.
  destruct (bool_decide _) eqn:E; cbn; [|by left]. destruct (P _); [|by left]. right.
  by apply bool_decide_eq_true in E.
Qed.

(** The kernel's state but for the processes, the CPU and the buffers. *)
Definition rest k := (f_km (k_fs k), icache (k_fs k), k_ftable k, k_nextpid k, k_cons k).
Lemma woke_rest P k k' : woke P k k' -> rest k' = rest k.
Proof. by intros [-> _]. Qed.

(** The way to the sleep on the buffer. *)
Lemma virtio_disk_rw_sleeps device fuel b w x rs s p px i0 i1 i2 l :
  c_proc (k_cpu (m_k s)) = Some p -> k_procs (m_k s) !! p = Some px -> idle px ->
  c_noff (k_cpu (m_k s)) = 0 -> lk_locked (v_lock (m_disk s)) = 0 -> disk_ok (m_disk s) rs ->
  k_bufs (m_k s) !! b = Some x -> free_idx (v_free (m_disk s)) = i0 :: i1 :: i2 :: l -> (1 <= fuel)%nat ->
  let c := Chain b w (buf_sector x) i0 i1 i2 in
  virtio_disk_rw device fuel b w s = Sleep (buf_addr b)
    (left_driver p (asleep (buf_addr b) (KDiskWait b i0) px)
      (mset_k (pushed (kset_bufs (<[b := buf_set_disk 1 x]> (k_bufs (m_k s))) (m_k s)))
        (mset_disk (submitted c (vlocked (m_disk s))) s))).
Proof.
  intros Hp Hpx Hid Hn Hl Hd Hx Hi Hfuel c. unfold virtio_disk_rw. rewrite (bind_ok _ _ _ _ _ (vacquire_eq s Hl)).
  unfold rw_locked. erewrite bind_ok.
  2: { apply (rw_submit_eq b w _ x i0 i1 i2 l);
         [apply (dk_free _ _ Hd)|apply (dk_flags _ _ Hd)|apply (dk_info _ _ Hd)|exact Hx|exact Hi]. }
  destruct fuel as [|fuel]; [lia|]. set (s1 := with_bufs _ _).
  assert (in_driver s1 p px) as Hin.
  { split; [exact Hp|exact Hpx|exact Hid| |done]. change (s32 (c_noff (k_cpu (m_k s)) + 1) = 1). by rewrite Hn. }
  assert (rw_wait_body device b i0 tt s1 = Sleep (buf_addr b) (left_driver p (asleep (buf_addr b) (KDiskWait b i0) px) s1)) as Hbody.
  { assert (b < length (k_bufs (m_k s)))%nat by (by eapply lookup_lt_Some).
    unfold rw_wait_body. erewrite bind_ok; [|apply get_buf_eq; cbn; by apply list_lookup_insert_eq].
    change (negb (b_disk (buf_set_disk 1 x) =? 1)) with false. cbv iota.
    erewrite bind_ok; [|apply lk_eq; reflexivity]. rewrite mset_k_id, (id_cur _ _ _ Hin). by apply vsleep_eq. }
  unfold rw_wait. unfold bind, loop. fold @loop. unfold bind. rewrite Hbody. reflexivity.
Qed.

(** The CPU given up by process [p], and given to it. *)
Lemma ready_switched_out p y l k :
  ready k -> c_proc (k_cpu k) = Some p -> c_noff (k_cpu k) = 0 -> idle y ->
  let k' := kernel_set_procs (<[p := y]> (k_procs k))
    (kernel_set_cpu (cpu_pop (cpu_set_proc None (cpu_push (k_cpu k)))) (kset_bufs l k)) in
  ready k' /\ c_noff (k_cpu k') = 0.
Proof.
  intros [Hlen Hirq Hidle] Hp Hn Hid k'.
  assert (c_noff (k_cpu k') = 0) as Hn' by (change (s32 (s32 (c_noff (k_cpu k) + 1) - 1) = 0); by rewrite Hn).
  split; [|done]. split.
  - cbn. by rewrite length_insert.
  - split; rewrite Hn'; [lia|done].
  - cbn. intros j q Hq _. apply list_lookup_insert_Some in Hq as [(_ & <- & _)|[Hne Hq]]; [done|].
    apply (Hidle j q Hq). congruence.
Qed.
Lemma ready_switched_in p e k :
  ready k -> c_proc (k_cpu k) = None -> c_noff (k_cpu k) = 0 ->
  let k' := kernel_set_cpu (cpu_set_proc (Some p) (cpu_push (k_cpu k))) (kernel_set_procs (<[p := e]> (k_procs k)) k) in
  ready k' /\ c_noff (k_cpu k') = 1.
Proof.
  intros [Hlen Hirq Hidle] Hp Hn k'.
  assert (c_noff (k_cpu k') = 1) as Hn' by (change (s32 (c_noff (k_cpu k) + 1) = 1); by rewrite Hn).
  split; [|done]. split.
  - cbn. by rewrite length_insert.
  - split; [rewrite Hn'; lia|done].
  - cbn. intros j q Hq Hne. rewrite list_lookup_insert_ne in Hq by congruence.
    apply (Hidle j q Hq). by rewrite Hp.
Qed.

(** The process switched to finds its request done and ends it. *)
Lemma rw_wait_resumes device fuel c rs s p px y :
  ready (m_k s) -> c_proc (k_cpu (m_k s)) = Some p -> k_procs (m_k s) !! p = Some px ->
  c_noff (k_cpu (m_k s)) = 1 -> lk_locked (v_lock (m_disk s)) = 0 -> disk_ok (m_disk s) (c :: rs) ->
  used_by (m_disk s) [] -> k_bufs (m_k s) !! ch_buf c = Some y -> b_disk y = 0 -> (1 <= fuel)%nat ->
  exists s', virtio_disk_rw_resume device fuel (KDiskWait (ch_buf c) (ch0 c)) s = Ok tt s' /\
    k_bio (m_k s') = k_bio (m_k s) /\
    k_procs (m_k s') !! p = Some (proc_set_lock (lock_free (p_lock px)) (proc_set_chan 0 px)) /\
    (forall i q, i <> p -> k_procs (m_k s) !! i = Some q ->
       exists q', k_procs (m_k s') !! i = Some q' /\ maybe_woken q q') /\
    rest (m_k s') = rest (m_k s) /\ c_proc (k_cpu (m_k s')) = Some p /\ c_noff (k_cpu (m_k s')) = 0 /\
    disk_ok (m_disk s') rs /\ v_free (m_disk s') = mark 1 (ch_ids c) (v_free (m_disk s)) /\
    used_by (m_disk s') [] /\ lk_locked (v_lock (m_disk s')) = 0.
Proof.
  intros Hr Hp Hpx Hn Hl Hd Hu Hy Hyd Hfuel.
  assert (p < length (k_procs (m_k s)))%nat as Hlt by (by eapply lookup_lt_Some).
  destruct (resumed_in_driver p px (c :: rs) s Hr Hp Hpx Hn Hl Hd) as (s5 & Hres & E5 & Hr5 & Hin5 & _ & Hd5 & Hb5).
  destruct (rw_finish_eq c rs s5 Hr5 Hd5) as (k6 & Hfin & W6).
  exists (mset_k (popped k6) (mset_disk (finished c (m_disk s5)) s5)). split.
  { unfold virtio_disk_rw_resume. rewrite (bind_ok _ _ _ _ _ Hres). unfold rw_wait.
    destruct fuel as [|fuel]; [lia|]. erewrite bind_ok; [exact Hfin|]. apply loop_last.
    unfold rw_wait_body. rewrite (bind_ok _ _ _ _ _ (get_buf_eq (ch_buf c) s5 y ltac:(rewrite Hb5; exact Hy))). by rewrite Hyd. }
  assert (k_procs (m_k s5) = <[p := proc_set_lock (lock_free (p_lock px)) (proc_set_chan 0 px)]> (k_procs (m_k s))) as Ep5 by (by rewrite E5).
  assert (m_disk s5 = vlocked (m_disk s)) as Ed5 by (by rewrite E5).
  assert (rest (m_k s5) = rest (m_k s) /\ k_bio (m_k s5) = k_bio (m_k s)) as [Er5 Eb5] by (by rewrite E5).
  clear E5 Hres Hfin. cbn [m_k mset_k m_disk mset_disk]. rewrite Ed5.
  split; [|split; [|split; [|split; [|split; [|split; [|split; [|split; [|split]]]]]]]].
  - unfold k_bio. change (k_fs (popped k6)) with (k_fs k6). rewrite (woke_fs _ _ _ W6). exact Eb5.
  - change (k_procs (popped k6)) with (k_procs k6). rewrite (woke_procs _ _ _ W6), (id_cur _ _ _ Hin5).
    unfold wake_procs. rewrite list_lookup_imap, Ep5, list_lookup_insert_eq by done. cbn [fmap option_fmap option_map].
    by rewrite decide_True.
  - intros i q Hip Hq. apply (woke_entry _ _ _ i q W6). by rewrite Ep5, list_lookup_insert_ne.
  - change (rest (popped k6)) with (rest k6). by rewrite (woke_rest _ _ _ W6).
  - change (c_proc (k_cpu k6) = Some p). rewrite (sc_proc _ _ (wk_cpu _ _ _ W6)). apply Hin5.
  - change (s32 (c_noff (k_cpu k6) - 1) = 0). by rewrite (sc_noff _ _ (wk_cpu _ _ _ W6)), (id_noff _ _ _ Hin5).
  - apply finished_ok. by apply disk_ok_same with (m_disk s).
  - done.
  - by destruct Hu.
  - done.
Qed.

(** The driver implements the block transfer for a process, too: the process sleeps
    on the buffer and the scheduler goes on without it; when the device has served
    the request the interrupt handler makes it ready, and when the scheduler has
    switched to it the driver ends with the cache, the block device and the buffer
    as the cache's own model of [virtio_disk_rw] says. If nothing else runs
    meanwhile, the process is left running with its channel cleared, as
    [Kernel.after_io] has it, every descriptor that was free is free again, and of
    the rest of the kernel only processes that were woken have changed. *)
Theorem virtio_disk_rw_for_process device fuel b w x rs s B p px :
  device_serves device -> ready (m_k s) -> c_proc (k_cpu (m_k s)) = Some p ->
  k_procs (m_k s) !! p = Some px -> idle px -> c_noff (k_cpu (m_k s)) = 0 ->
  lk_locked (v_lock (m_disk s)) = 0 -> disk_ok (m_disk s) rs -> (length rs < 2)%nat ->
  used_by (m_disk s) [] -> k_bufs (m_k s) !! b = Some x -> (1 <= fuel)%nat ->
  Bio.virtio_disk_rw b w (k_bio (m_k s)) = Ok tt B ->
  exists i0 s1 s2 s3 s4 s', virtio_disk_rw device fuel b w s = Sleep (buf_addr b) s1 /\
    lk (scheduler_return p) s1 = Ok tt s2 /\ c_proc (k_cpu (m_k s2)) = None /\
    virtio_disk_intr (device s2) = Ok tt s3 /\ lk (scheduler_dispatch p) s3 = Ok true s4 /\
    (p_kont <$> k_procs (m_k s4) !! p) = Some (KDiskWait b i0) /\
    virtio_disk_rw_resume device fuel (KDiskWait b i0) s4 = Ok tt s' /\
    k_bio (m_k s') = Bio (bcache B) (bdisk B) (sb B) (bio_count (k_bio (m_k s))) /\
    k_procs (m_k s') !! p = Some (proc_set_kont (KDiskWait b i0) (proc_set_chan 0 (proc_set_status TASK_RUNNING px))) /\
    (forall i q, i <> p -> k_procs (m_k s) !! i = Some q ->
       exists q', k_procs (m_k s') !! i = Some q' /\ maybe_woken q q') /\
    rest (m_k s') = rest (m_k s) /\ c_proc (k_cpu (m_k s')) = Some p /\ c_noff (k_cpu (m_k s')) = 0 /\
    disk_ok (m_disk s') rs /\ v_free (m_disk s') = v_free (m_disk s) /\ used_by (m_disk s') [] /\
    lk_locked (v_lock (m_disk s')) = 0.
Proof.
  intros Hdev Hr Hp Hpx Hid Hn Hl Hd Hrs Hu Hx Hfuel HB. pose proof (length_free _ _ Hd) as Hfree.
  rewrite (bio_virtio_disk_rw_eq b w x) in HB by exact Hx. injection HB as <-.
  destruct (free_idx (v_free (m_disk s))) as [|i0 [|i1 [|i2 l]]] eqn:Hi; cbn [length] in Hfree;
    unfold NUM in Hfree; try lia.
  set (c := Chain b w (buf_sector x) i0 i1 i2). set (d := m_disk s) in *. set (k := m_k s) in *.
  assert (disk_ok (vlocked d) rs) as Hdl by (by apply disk_ok_same with d).
  assert (disk_ok (submitted c (vlocked d)) (c :: rs)) as Hok by (by apply submitted_ok with l).
  assert (p < length (k_procs k))%nat as Hlt by (by eapply lookup_lt_Some).
  pose proof (virtio_disk_rw_sleeps device fuel b w x rs s p px i0 i1 i2 l Hp Hpx Hid Hn Hl Hd Hx Hi Hfuel) as Hsleep.
  cbv zeta in Hsleep. fold c d k in Hsleep.
  set (k1 := kset_bufs (<[b := buf_set_disk 1 x]> (k_bufs k)) k) in *.
  set (z := asleep (buf_addr b) (KDiskWait b i0) px) in *. set (s1 := left_driver p z _) in Hsleep.
  set (y := proc_set_lock (lock_free (p_lock z)) z).
  set (k2 := kernel_set_procs (<[p := y]> (k_procs k)) (kernel_set_cpu (cpu_pop (cpu_set_proc None (cpu_push (k_cpu k)))) k1)).
  set (s2 := mset_k k2 (mset_disk (vunlocked (submitted c (vlocked d))) s)).
  assert (lk (scheduler_return p) s1 = Ok tt s2) as Hret.
  { erewrite lk_eq; [|apply (scheduler_return_eq _ p z); cbn; by apply list_lookup_insert_eq].
    unfold s1, left_driver. cbn [k_procs m_k mset_k kernel_set_procs]. by rewrite list_insert_insert_eq. }
  destruct (ready_switched_out p y (<[b := buf_set_disk 1 x]> (k_bufs k)) k Hr Hp Hn ltac:(by split)) as [Hr2 Hn2]. fold k1 k2 in Hr2, Hn2.
  destruct (device_round device c x rs d s k2) as (t & d' & Hintr & Wt & Hu' & Hd' & Hf' & Hl');
    [done|done|rewrite Hn2; lia|done|done|done|cbn; apply list_lookup_insert_eq; by eapply lookup_lt_Some|].
  fold s2 in Hintr. set (Bt := Bio _ _ _ _) in Hintr.
  assert (Bt = transferred b w x (k_bio k)) as HBt by (by apply (transfer_done c x (k_bio k))).
  set (r := proc_set_status TASK_READY y).
  assert (k_procs t !! p = Some r) as Hpt.
  { rewrite (woke_procs _ _ _ Wt). apply wake_procs_lookup; [cbn; by apply list_lookup_insert_eq|done|done|].
    unfold chan_of. cbn. by rewrite Z.eqb_refl. }
  pose proof (ready_woke _ _ _ Hr2 Wt) as Hrt. pose proof (wk_cpu _ _ _ Wt) as Hct.
  destruct (dispatch_eq (kset_bio Bt t) p r) as (c0 & Hdis); [exact Hpt|by split|apply (rdy_irq _ Hrt)|].
  rewrite decide_True in Hdis by done. clear c0. set (k4 := kernel_set_cpu _ _) in Hdis.
  set (s3 := mset_k (kset_bio Bt t) _) in Hintr. set (s4 := mset_k k4 (mset_disk d' s)).
  assert (lk (scheduler_dispatch p) s3 = Ok true s4) as Hdisp by exact (lk_eq _ s3 true k4 Hdis).
  assert (p < length (k_procs t))%nat as Hltt by (by eapply lookup_lt_Some).
  set (r4 := proc_set_status TASK_RUNNING (proc_set_lock (lock_held (p_lock r)) r)).
  assert (k_procs k4 !! p = Some r4) as Hp4 by (cbn; by apply list_lookup_insert_eq).
  destruct (ready_switched_in p r4 (kset_bio Bt t)) as [Hr4 Hn4];
    [by apply (ready_set_fs _ t)|exact (sc_proc _ _ Hct)|by etransitivity; [exact (sc_noff _ _ Hct)|]|].
  destruct (transferred_idle b w x (k_bio k) Hx) as (yb & Hyb & Hybd). rewrite <- HBt in Hyb.
  destruct (rw_wait_resumes device fuel c rs s4 p r4 yb Hr4 eq_refl Hp4 Hn4 Hl' Hd' Hu' Hyb Hybd Hfuel)
    as (s' & Hrun & Eb & Ep & Eo & Er & Ec & En & Hds & Ef & Hus & Hls).
  exists i0, s1, s2, s3, s4, s'.
  split; [exact Hsleep|]. split; [exact Hret|]. split; [done|]. split; [exact Hintr|]. split; [exact Hdisp|].
  split; [change (m_k s4) with k4; by rewrite Hp4|]. split; [exact Hrun|].
  split; [rewrite Eb; change (k_bio (m_k s4)) with Bt; rewrite HBt; by destruct w|]. split.
  { rewrite Ep. f_equal. unfold r4, r, y, z, asleep. destruct px as [[lo nm cp]], Hid as [El Ecp].
    cbn in El, Ecp. subst. reflexivity. }
  split.
  { intros i q Hip Hq.
    destruct (woke_entry _ _ _ i q Wt) as (q1 & Hq1 & H3); [cbn; by rewrite list_lookup_insert_ne by done|].
    destruct (Eo i q1 Hip) as (q2 & Hq2 & H4); [cbn; by rewrite list_lookup_insert_ne by done|].
    exists q2. split; [exact Hq2|]. by eapply maybe_woken_trans. }
  split; [rewrite Er; change (rest (m_k s4)) with (rest t); by rewrite (woke_rest _ _ _ Wt)|].
  split; [done|]. split; [done|]. split; [done|]. split; [|done].
  rewrite Ef. change (mark 1 (ch_ids c) (v_free d') = v_free d). rewrite Hf'.
  apply mark_back; [apply (dk_free _ _ Hd)|apply (dk_flags _ _ Hd)|].
  rewrite Hi. unfold ch_ids, c. cbn. intros i. set_solver.
Qed.
End spec.

(* ------------------------------------------------------------------ *)
(** ** A concrete driver *)

Section witnesses.
#[local] Existing Instance sample_image.

Definition sample_disk_image : DiskImage := {|
  vring_mem := 2147491840; disk_req_addr := fun i => 2147500032 + 16 * i;
  status_addr := fun i => 2147504128 + 16 * i + 8; disk_free_addr := 2147504000;
  buf_addr := fun b => 2147508224 + 1064 * Z.of_nat b;
  buf_data_addr := fun b => 2147508264 + 1064 * Z.of_nat b;
|}.
#[local] Existing Instance sample_disk_image.

(** The driver's state after [virtio_disk_init], and a kernel without a running
    process. *)
Definition sample_vdisk : vdisk :=
  Vdisk spinlock0 (replicate NUM desc0) 0 (replicate NUM 0) 0 (replicate NUM 0) (replicate NUM 1) 0
    (replicate NUM (Vinfo None 0)) (replicate NUM (Vreq 0 0 0)) (fun _ => 0) [].
Definition sample_machine (d : vdisk) : machine memdisk :=
  Machine (kernel0 ∅ ∅) d (Csr 0 0 0 0 0 0 0) [] 0 [] [].

Lemma sample_machine_ready d : ready (m_k (sample_machine d)).
Proof.
  split; [reflexivity|split; cbn; [lia|done]|].
  intros i x Hx _. by apply lookup_replicate in Hx as [-> _].
Qed.
Lemma sample_vdisk_ok : disk_ok sample_vdisk [].
Proof.
  split; try reflexivity; [|constructor]. apply Forall_replicate. by right.
Qed.

(** A device that serves the last request on the available ring. *)
Definition sample_device (s : machine memdisk) : machine memdisk :=
  let d := m_disk s in
  let h := zget (v_avail_ring d) ((v_avail_idx d - 1) mod Z.of_nat NUM) in
  match v_info d !! Z.to_nat h, v_req d !! Z.to_nat h with
  | Some (Vinfo (Some b) _), Some q =>
      match k_bufs (m_k s) !! b with
      | Some x => served (Chain b (rq_type q =? VIRTIO_BLK_T_OUT) (rq_sector q) h 0 0) x s
      | None => s
      end
  | _, _ => s
  end.
Lemma sample_device_serves : device_serves sample_device.
Proof.
  intros s c x Hc Hh Hi Hx. unfold sample_device. rewrite Hh, Hi, (co_req _ _ Hc), Hx.
  unfold served, transfer. cbn. by destruct (ch_write c).
Qed.

(** Two requests in flight, and process 0 in the driver for a third. *)
Definition busy_vdisk : vdisk :=
  vlocked (submitted (Chain 4 false 8 3 4 5) (submitted (Chain 3 false 6 0 1 2) sample_vdisk)).
Definition busy_machine : machine memdisk :=
  Machine (sample_kernel 1) busy_vdisk (Csr 0 0 0 0 0 0 0) [] 0 [] [].
Lemma busy_ready : ready (m_k busy_machine).
Proof.
  split; [reflexivity|apply sample_irq; lia|]. intros i x Hx _.
  exact (Forall_lookup_1 _ _ _ _ sample_procs_idle Hx).
Qed.
Lemma busy_ok : disk_ok (m_disk busy_machine) [Chain 4 false 8 3 4 5; Chain 3 false 6 0 1 2].
Proof.
  apply disk_ok_same with (submitted (Chain 4 false 8 3 4 5) (submitted (Chain 3 false 6 0 1 2) sample_vdisk));
    try reflexivity.
  apply (submitted_ok _ _ (Chain 4 false 8 3 4 5) [6; 7]); [|reflexivity].
  apply (submitted_ok _ _ (Chain 3 false 6 0 1 2) [3; 4; 5; 6; 7] sample_vdisk_ok eq_refl).
Qed.

Lemma virtio_requests_witness :
  (exists c s', rw_submit 3 true (sample_machine sample_vdisk) = Ok (ch0 c) s' /\ disk_ok (m_disk s') [c]) /\
  (exists s', rw_submit 5 false busy_machine = Sleep disk_free_addr s' /\
    (p_kont <$> k_procs (m_k s') !! 0%nat) = Some (KDiskFree 5 false)).
Proof.
  split.
  - destruct (virtio_requests sample_device 2 (sample_machine sample_vdisk) [] 3 true _ (sample_machine_ready _)
      sample_vdisk_ok eq_refl) as (Hok & _).
    destruct (Hok ltac:(cbn; lia)) as (c & s' & Hrun & _ & _ & _ & Hd & _).
    exists c, s'. split; [exact Hrun|exact Hd].
  - destruct (virtio_requests sample_device 2 busy_machine _ 5 false _ busy_ready busy_ok eq_refl) as (_ & Hsl & _).
    destruct (Hsl 0%nat (proc_set_status TASK_RUNNING proc0)) as (Hsub & _);
      [split; try reflexivity; by split|discriminate|].
    destruct (Hsub ltac:(cbn; lia)) as (s' & Hrun & [He _ _ _ _]).
    exists s'. split; [exact Hrun|]. rewrite He. reflexivity.
Defined.

(** Process 0 writes buffer 3. *)
Definition running_machine : machine memdisk :=
  Machine (sample_kernel 0) sample_vdisk (Csr 0 0 0 0 0 0 0) [] 0 [] [].
Lemma running_ready : ready (m_k running_machine).
Proof.
  split; [reflexivity|apply sample_irq; lia|]. intros i x Hx _.
  exact (Forall_lookup_1 _ _ _ _ sample_procs_idle Hx).
Qed.
Lemma virtio_disk_rw_for_process_witness :
  exists i0 s1 s2 s3 s4 s', virtio_disk_rw sample_device 1 3 true running_machine = Sleep (buf_addr 3) s1 /\
    lk (scheduler_return 0) s1 = Ok tt s2 /\ virtio_disk_intr (sample_device s2) = Ok tt s3 /\
    lk (scheduler_dispatch 0) s3 = Ok true s4 /\
    virtio_disk_rw_resume sample_device 1 (KDiskWait 3 i0) s4 = Ok tt s' /\ disk_ok (m_disk s') [].
Proof.
  destruct (virtio_disk_rw_for_process sample_device 1 3 true _ [] running_machine _ 0 _
    sample_device_serves running_ready eq_refl eq_refl ltac:(by split) eq_refl eq_refl sample_vdisk_ok
    ltac:(cbn; lia) ltac:(split; [reflexivity|cbn; lia|cbn; lia|done|constructor])
    eq_refl ltac:(lia)
    (bio_virtio_disk_rw_eq 3 true _ (k_bio (m_k running_machine)) eq_refl))
    as (i0 & s1 & s2 & s3 & s4 & s' & E1 & E2 & _ & E3 & E4 & Ek & E5 & _ & _ & _ & _ & _ & _ & Hd & _).
  exists i0, s1, s2, s3, s4, s'. split; [exact E1|]. split; [exact E2|]. split; [exact E3|]. split; [exact E4|].
  split; [exact E5|exact Hd].
Defined.

(** The driver with a read of buffer 3 that the device has completed. *)
Definition sample_chain : chain := Chain 3 false 6 0 1 2.
Definition sample_done : vdisk :=
  vdisk_set_used_ring (zset (replicate NUM 0) 0 0)
    (vdisk_set_used_idx 1 (submitted sample_chain sample_vdisk)).
Lemma sample_done_ok : disk_ok sample_done [sample_chain].
Proof.
  apply disk_ok_same with (submitted sample_chain sample_vdisk); try reflexivity.
  apply (submitted_ok _ _ sample_chain [3; 4; 5; 6; 7] sample_vdisk_ok eq_refl).
Qed.
Lemma sample_done_used : used_by sample_done [sample_chain].
Proof.
  split; [reflexivity|cbn; lia|unfold NUM; cbn; lia| |by repeat constructor].
  intros [|n] c Hc; [|done]. by injection Hc as <-.
Qed.

Lemma virtio_disk_intr_completes_witness :
  exists s', virtio_disk_intr (sample_machine sample_done) = Ok tt s' /\
    v_seen (m_disk s') = v_used_idx (m_disk s').
Proof.
  destruct (virtio_disk_intr_completes (sample_machine sample_done) [sample_chain] [sample_chain]
    (sample_machine_ready _) ltac:(cbn; lia) eq_refl sample_done_ok sample_done_used
    ltac:(intros c Hc; apply list_elem_of_singleton in Hc as ->; vm_compute; lia)) as (s' & Hrun & Hl & _).
  exists s'. split; [exact Hrun|exact Hl].
Defined.

Lemma virtio_disk_rw_refines_witness :
  exists s', virtio_disk_rw sample_device 2 3 true (sample_machine sample_vdisk) = Ok tt s' /\
    disk_ok (m_disk s') [] /\ v_free (m_disk s') = replicate NUM 1.
Proof.
  destruct (virtio_disk_rw_refines sample_device 2 3 true _ [] (sample_machine sample_vdisk) _
    sample_device_serves (sample_machine_ready _) ltac:(cbn; lia) eq_refl eq_refl sample_vdisk_ok
    ltac:(cbn; lia) ltac:(split; [reflexivity|cbn; lia|cbn; lia|done|constructor])
    eq_refl ltac:(lia)
    (bio_virtio_disk_rw_eq 3 true _ (k_bio (m_k (sample_machine sample_vdisk))) eq_refl))
    as (s' & k & Hrun & _ & _ & Hd & Hf & _).
  exists s'. split; [exact Hrun|]. split; [exact Hd|exact Hf].
Defined.
End witnesses.
