(* ===== verification/Trap.v ===== *)
(** Traps and system call dispatch, [kernel/trap/trap.c],
    [kernel/trap/plic.c] and the table of [kernel/syscall/syscall.c], and how a
    process that gave up the CPU goes on. *)

From S2P Require Import Prelude Memory Kalloc Vm Str Bio Fs Kernel Spinlock Proc.
From S2P Require Import Pipe File Console Syscall Sysfile Sysproc Exec Machine Virtio.

Definition UART0_IRQ : Z := 10.
Definition VIRTIO0_IRQ : Z := 1.
Definition SSTATUS_SPP : Z := 256.
Definition SSTATUS_SPIE : Z := 32.
Definition SSTATUS_FS_DIRTY : Z := 24576.
Definition SCAUSE_IRQ : Z := 9223372036854775808.

Section trap.
Context `{Image} `{DiskImage} {D : Type} `{BlockDev D}.
(** The address of the assembler's kernel trap vector. *)
Variable sys_trap_vector : Z.

(* ------------------------------------------------------------------ *)
(** ** The system call table *)

(** [syscalls[num]()]; [None] is an empty slot of the table. *)
Definition syscalls (num : Z) : option (M (kernel D) Z) :=
  if num =? 1 then Some sys_fork
  else if num =? 2 then Some sys_exit
  else if num =? 3 then Some sys_wait
  else if num =? 11 then Some sys_getpid
  else if num =? 12 then Some sys_sbrk
  else if num =? 13 then Some sys_exec
  else if num =? 15 then Some sys_open
  else if num =? 16 then Some sys_write
  else if num =? 17 then Some sys_read
  else if num =? 18 then Some sys_close
  else if num =? 19 then Some sys_fstat
  else if num =? 20 then Some sys_mkdir
  else if num =? 21 then Some sys_chdir
  else if num =? 22 then Some sys_pipe
  else if num =? 23 then Some sys_dup
  else if num =? 24 then Some sys_unlink
  else if num =? 25 then Some sys_lseek
  else if num =? 26 then Some sys_ftruncate
  else if num =? 27 then Some sys_ioctl
  else if num =? 28 then Some sys_rename
  else if num =? 29 then Some sys_getcwd
  else if num =? 30 then Some sys_dup2
  else if num =? 31 then Some sys_fcntl
  else None.

(** [p->trapframe->a0 = r], also the last thing a call that slept does. *)
Definition syscall_done (r : Z) : M (kernel D) unit :=
  let! p := myproc in tf_st p TF_a0 r.

Definition syscall : M (kernel D) unit :=
  let! p := myproc in
  let! a7 := tf_ld p TF_a7 in
  let num := s32 a7 in
  if (1 <=? num) && (num <? 32) then
    match syscalls num with
    | Some f => let! r := f in syscall_done r
    | None => syscall_done (-1)
    end
  else syscall_done (-1).

(* ------------------------------------------------------------------ *)
(** ** Returning to user mode *)

Definition r_sstatus : M (machine D) Z :=
  let! x := getx in
  let! c := lk getcpu in
  ret (Z.lor (x_sstatus x) (if c_sie c then 2 else 0)).
(** [w_sstatus], which also sets the interrupt enable bit. *)
Definition w_sstatus (v : Z) : M (machine D) unit :=
  setx (csr_set_sstatus (Z.land v (Z.lnot 2))) ;;;
  lk (setcpu (cpu_set_sie (has v 2))).

(** The arguments of the final call [userret(trapframe, satp)]. *)
Definition usertrapret : M (machine D) (Z * Z) :=
  lk intr_off ;;;
  let! p := lk myproc in
  setx (csr_set_stvec uservec) ;;;
  let! px := lk (getp p) in
  lk (tf_st p TF_kernel_sp (p_kstack px + PGSIZE)) ;;;
  lk (tf_st p TF_kernel_trap usertrap_addr) ;;;
  let! s := get in
  lk (tf_st p TF_kernel_satp (MAKE_SATP (k_pagetable (m_k s)))) ;;;
  setx (csr_set_sscratch (p_trapframe px)) ;;;
  let! st := r_sstatus in
  w_sstatus (Z.lor (Z.lor (Z.land st (Z.lnot SSTATUS_SPP)) SSTATUS_SPIE) SSTATUS_FS_DIRTY) ;;;
  let! epc := lk (tf_ld p TF_epc) in
  setx (csr_set_sepc epc) ;;;
  ret (p_trapframe px, MAKE_SATP (p_pagetable px)).

Definition usertrap_finish : M (machine D) (Z * Z) :=
  let! c := lk getcpu in
  match c_proc c with
  | Some p =>
      let! px := lk (getp p) in
      if negb (p_killed px =? 0) then lk (proc_exit (-1)) else usertrapret
  | None => usertrapret
  end.

Definition forkret : M (machine D) (Z * Z) :=
  let! p := lk myproc in
  lk (release (LkProc p)) ;;;
  usertrapret.

(* ------------------------------------------------------------------ *)
(** ** Device interrupts *)

Definition plicinit : M (machine D) unit :=
  add_plic (PLIC + VIRTIO0_IRQ * 4) 1 ;;;
  add_plic (PLIC + UART0_IRQ * 4) 1 ;;;
  add_plic (UART0 + 1) 1.
(** On hart 0; the second store ors into the value of the first. *)
Definition plicinithart : M (machine D) unit :=
  add_plic (PLIC + 8320) (Z.shiftl 1 UART0_IRQ) ;;;
  add_plic (PLIC + 8320) (Z.lor (Z.shiftl 1 UART0_IRQ) (Z.shiftl 1 VIRTIO0_IRQ)) ;;;
  add_plic (PLIC + 2101248) 0.
Definition trapinithart : M (machine D) unit :=
  setx (csr_set_stvec sys_trap_vector) ;;;
  plicinit ;;;
  plicinithart.

(** [while (the UART has a byte) consoleintr(byte)]. *)
Fixpoint uart_drain (rx : list Z) : M (machine D) unit :=
  match rx with
  | [] => ret tt
  | c :: rx' => set_rx rx' ;;; lk (consoleintr (u8 c)) ;;; uart_drain rx'
  end.

(** The external interrupt branch both trap handlers share. *)
Definition external_irq : M (machine D) unit :=
  let! s := get in
  let irq := s32 (m_claim s) in
  (if irq =? UART0_IRQ then uart_drain (m_rx s)
   else if irq =? VIRTIO0_IRQ then virtio_disk_intr
   else when (negb (irq =? 0))
     (lk (printf (Some (str "Unexpected interrupt irq=%d" ++ [10])) [VInt irq]))) ;;;
  when (negb (irq =? 0)) (add_complete (u32 irq)).

(* ------------------------------------------------------------------ *)
(** ** Trap handlers *)

(** [sys_trap_handler]; [k] is the kernel code that was interrupted. *)
Definition sys_trap_handler (k : kont) : M (machine D) unit :=
  let! x := getx in
  let sepc := x_sepc x in
  let! sstatus := r_sstatus in
  let scause := x_scause x in
  if Z.land sstatus SSTATUS_SPP =? 0 then
    lk (panic "sys_trap_handler: not from supervisor mode")
  else
    let! i := lk intr_get in
    if i then lk (panic "sys_trap_handler: entered with interrupts enabled")
    else if negb (has scause SCAUSE_IRQ) then
      lk (printf (Some (str "sys_trap_handler: exception! scause=%ld, sepc=%p, stval=%p" ++ [10]))
        [VInt scause; VInt sepc; VInt (x_stval x)]) ;;;
      lk (panic "sys_trap_handler: unexpected exception")
    else
      let irq := Z.land scause 255 in
      (if irq =? 1 then
         setx (fun x => csr_set_sip (Z.land (x_sip x) (Z.lnot 2)) x) ;;;
         let! c := lk getcpu in
         match c_proc c with
         | Some p =>
             let! px := lk (getp p) in
             when (bool_decide (p_status px = TASK_RUNNING)) (lk (yield k))
         | None => ret tt
         end
       else if irq =? 9 then external_irq
       else
         lk (printf (Some (str "sys_trap_handler: unknown interrupt irq=%d" ++ [10]))
               [VInt irq])) ;;;
      setx (csr_set_sepc sepc) ;;;
      w_sstatus sstatus.

Definition uprint (fmt : list Z) (ap : list varg) : M (machine D) unit := lk (printf (Some fmt) ap).

(** The faults [usertrap] does not survive. *)
Definition usertrap_fault (cause : Z) : M (machine D) (Z * Z) :=
  let! x := getx in
  if cause =? 12 then
    let! p := lk myproc in
    let! px := lk (getp p) in
    uprint (10 :: str "PID = [%d]") [VInt (p_pid px)] ;;;
    uprint (10 :: str " 触发 Instruction Page Fault (cause = 12)" ++ [10]) [] ;;;
    uprint (str "出事地址 (sepc) : 0x%lx" ++ [10]) [VInt (x_sepc x)] ;;;
    uprint (str "失败地址 (stval): 0x%lx" ++ [10]) [VInt (x_stval x)] ;;;
    let! epc := lk (tf_ld p TF_epc) in
    uprint (str "预期的 initcode : 0x%lx" ++ [10]) [VInt epc] ;;;
    lk (panic "Instruction Page Fault")
  else if cause =? 15 then
    uprint (10 :: str "[FATAL] Store Page Fault!" ++ [10]) [] ;;;
    uprint (str "sepc  (报错指令) = %p" ++ [10]) [VInt (x_sepc x)] ;;;
    uprint (str "stval (报错地址) = %p" ++ [10]) [VInt (x_stval x)] ;;;
    lk (panic "scause 15")
  else
    uprint (10 :: str "[USERTRAP 绝密档案] scause: %d, sepc: 0x%lx, stval: 0x%lx" ++ [10])
      [VInt cause; VInt (x_sepc x); VInt (x_stval x)] ;;;
    lk (panic "usertrap").

Definition usertrap : M (machine D) (Z * Z) :=
  setx (csr_set_stvec sys_trap_vector) ;;;
  let! x := getx in
  let cause := x_scause x in
  if cause =? 8 then
    lk intr_on ;;;
    let! p := lk myproc in
    setx (csr_set_stvec sys_trap_vector) ;;;
    (let! epc := lk (tf_ld p TF_epc) in lk (tf_st p TF_epc (epc + 4))) ;;;
    lk intr_on ;;;
    lk syscall ;;;
    usertrap_finish
  else if cause =? SCAUSE_IRQ + 1 then
    setx (fun x => csr_set_sip (Z.land (x_sip x) (Z.lnot 2)) x) ;;;
    lk (yield (A := unit) KYield) ;;;
    usertrap_finish
  else if cause =? SCAUSE_IRQ + 9 then external_irq ;;; usertrap_finish
  else usertrap_fault cause.

(* ------------------------------------------------------------------ *)
(** ** Going on after a switch *)

(** What the process switched to does, by what its kernel stack holds. No process
    of the whole system stops inside the disk driver: there the file system calls
    the driver's contract [Bio.virtio_disk_rw], which does not give up the CPU;
    [Virtio.virtio_disk_rw_resume] has how the driver goes on. *)
Definition resume_call (m : M (kernel D) Z) : M (machine D) (Z * Z) :=
  lk (let! r := m in syscall_done r) ;;;
  usertrap_finish.
Definition resume (k : kont) : M (machine D) (Z * Z) :=
  match k with
  | KNone => lk (panic "exit reached unreachable code")
  | KForkret => forkret
  | KYield => lk yield_resume ;;; usertrap_finish
  | KConsRead f i n user_addr => resume_call (cons_read_resume f i n user_addr)
  | KPipeRead pi addr n => resume_call (piperead_resume pi addr n)
  | KWrite f user_addr total left_ buf i =>
      resume_call (write_resume f user_addr total left_ buf i)
  | KWait addr => resume_call (wait_resume addr)
  | KDiskFree _ _ | KDiskWait _ _ => lk (fault "virtio_disk_rw")
  end.
End trap.
