(* ===== verification/Boot.v ===== *)
(** Start-up: [userinit] of [kernel/proc/proc.c], [start_main] of
    [kernel/boot/main.c], [start] and [timerinit] of [kernel/boot/start.c], and
    the system as a transition relation over the scheduler's steps. *)

From S2P Require Import Prelude Memory Kalloc Vm Str Bio Fs Kernel Spinlock Proc.
From S2P Require Import Pipe File Console Syscall Sysfile Sysproc Exec Machine Virtio Trap.

(* ------------------------------------------------------------------ *)
(** ** Machine mode *)

(** The machine-mode registers [start] and [timerinit] touch, the timer's
    [mtimecmp] and [timer_scratch[0]]. *)
Record mmode := Mmode {
  mm_mstatus : Z; mm_mepc : Z; mm_pmpaddr0 : Z; mm_pmpcfg0 : Z; mm_medeleg : Z;
  mm_mideleg : Z; mm_sie : Z; mm_mscratch : Z; mm_mtvec : Z; mm_mie : Z; mm_tp : Z;
  mm_mtimecmp : Z; mm_scratch : list Z;
}.
Definition CLINT_MTIMECMP (hartid : Z) : Z := 33554432 + 16384 + 8 * hartid.

(** [timerinit()] on hart [hartid] at time [mtime]; [timervec] and [scratch] are
    the addresses of the assembler's handler and of [timer_scratch[hartid]]. *)
Definition timerinit (timervec scratch hartid mtime : Z) (s : mmode) : mmode :=
  let interval := 1000000 in
  Mmode (mm_mstatus s) (mm_mepc s) (mm_pmpaddr0 s) (mm_pmpcfg0 s) (mm_medeleg s)
    (mm_mideleg s) (mm_sie s) scratch timervec (Z.lor (mm_mie s) 128) (mm_tp s)
    (u64 (mtime + interval))
    (<[4%nat := interval]> (<[3%nat := CLINT_MTIMECMP hartid]> (mm_scratch s))).

(** [start()] up to [mret]. *)
Definition start (start_main timervec scratch hartid mtime : Z) (s : mmode) : mmode :=
  let x := mm_mstatus s in
  let x := Z.land x (Z.lnot 6144) in
  let x := Z.lor x 2048 in
  let s := Mmode x start_main 18014398509481983 15 65535 65535
    (Z.lor (mm_sie s) (Z.lor (Z.lor 512 32) 2)) (mm_mscratch s) (mm_mtvec s) (mm_mie s)
    (mm_tp s) (mm_mtimecmp s) (mm_scratch s) in
  let s := timerinit timervec scratch hartid mtime s in
  Mmode (mm_mstatus s) (mm_mepc s) (mm_pmpaddr0 s) (mm_pmpcfg0 s) (mm_medeleg s)
    (mm_mideleg s) (mm_sie s) (mm_mscratch s) (mm_mtvec s) (mm_mie s) hartid
    (mm_mtimecmp s) (mm_scratch s).

Section boot.
Context `{Image} {D : Type} `{BlockDev D}.
(** The first program, linked into the kernel. *)
Variable initcode : list Z.

(* ------------------------------------------------------------------ *)
(** ** userinit *)

(** One round of the loop that loads [initcode]; the loop variable is [off]. *)
Definition initcode_body (pagetable code_sz : Z) (off : Z) : M (kernel D) (Z + bool) :=
  if negb (off <? code_sz) then ret (inr true)
  else
    let! code_pa := lmem kalloc in
    if code_pa =? 0 then ret (inr false)
    else
      lmem (upd_mem (fun m => memset m code_pa 0 PGSIZE)) ;;;
      (let initcode_size := Z.of_nat (length initcode) in
       when (off <? initcode_size)
         (let n := initcode_size - off in
          let n := if PGSIZE <? n then PGSIZE else n in
          lmem (upd_mem (fun m =>
            store_bytes m code_pa (slice initcode (Z.to_nat off) (Z.to_nat n)))))) ;;;
      lmem (mappages pagetable code_pa off PGSIZE PTE_RWXU) ;;;
      ret (inl (off + PGSIZE)).

(** [f->type = FD_CONSOLE] and the modes of a standard stream; a null file is
    dereferenced. *)
Definition console_file (f : option nat) (readable writable : Z) : M (kernel D) nat :=
  match f with
  | None => fault "filealloc"
  | Some f =>
      setf f (file_set_type FD_CONSOLE) ;;;
      setf f (file_set_readable readable) ;;;
      setf f (file_set_writable writable) ;;;
      ret f
  end.

Definition userinit : M (kernel D) unit :=
  let! r := allocproc in
  match r with
  | None => fault "acquire(&p->lock)"
  | Some p =>
      acquire (LkProc p) ;;;
      let! ks := lmem kalloc in
      setp p (proc_set_kstack ks) ;;;
      if ks =? 0 then
        setp p (proc_set_status TASK_FREE) ;;; release (LkProc p)
      else
        let! px := getp p in
        let tf := p_trapframe px in
        let! pt := lmem (proc_pagetable tf) in
        setp p (proc_set_pagetable pt) ;;;
        setp p (proc_set_sp (u64 (ks + PGSIZE))) ;;;
        setp p (proc_set_ra forkret_addr) ;;;
        setp p (proc_set_kont KForkret) ;;;
        let code_sz := PGROUNDUP (Z.of_nat (length initcode)) in
        let! ok := loop (Z.to_nat (code_sz / PGSIZE) + 1) (initcode_body pt code_sz) 0 in
        if negb ok then
          setp p (proc_set_status TASK_FREE) ;;; release (LkProc p)
        else
          let! userstack_pa := lmem kalloc in
          lmem (upd_mem (fun m => memset m userstack_pa 0 PGSIZE)) ;;;
          lmem (mappages pt userstack_pa code_sz PGSIZE (Z.lor (Z.lor PTE_R PTE_W) PTE_U)) ;;;
          lmem (upd_mem (fun m => memset m tf 0 PGSIZE)) ;;;
          tf_st p TF_epc 0 ;;;
          tf_st p TF_sp (code_sz + PGSIZE) ;;;
          setp p (proc_set_sz (u64 (code_sz + PGSIZE))) ;;;
          let! f0 := filealloc in
          let! f1 := filealloc in
          let! f2 := filealloc in
          let! f0 := console_file f0 1 0 in
          let! f1 := console_file f1 0 1 in
          let! f2 := console_file f2 0 1 in
          set_ofile p 0 (Some f0) ;;;
          set_ofile p 1 (Some f1) ;;;
          set_ofile p 2 (Some f2) ;;;
          let! cwd := lfs (namei None (uninit DIRSIZ) [47]) in
          setp p (proc_set_cwd cwd) ;;;
          setp p (fun x => proc_set_cwd_path
            (safestrcpy (p_cwd_path x) [47] (Z.of_nat MAXPATH)) x) ;;;
          setp p (proc_set_name (str_addr "proczero")) ;;;
          setp p (proc_set_status TASK_READY) ;;;
          release (LkProc p)
  end.
End boot.

(* ------------------------------------------------------------------ *)
(** ** start_main *)

Section main.
Context `{Image} `{DiskImage} {D : Type} `{BlockDev D}.
Variable sys_trap_vector : Z.
Variable initcode : list Z.

(** [start_main()] up to the call of [scheduler]; [satp] is the value
    [kvminithart] writes. *)
Definition start_main : M (machine D) Z :=
  lk (lmem kinit) ;;;
  (let! kpt := lk (lmem kvmininit) in lk (modify (kernel_set_pagetable kpt))) ;;;
  let! s := get in
  let satp := kvminithart (k_pagetable (m_k s)) in
  trapinithart sys_trap_vector ;;;
  lk intr_on ;;;
  lk procinit ;;;
  virtio_disk_init ;;;
  lk (lfs (fsinit ROOTDEV)) ;;;
  lk (userinit initcode) ;;;
  ret satp.

(** What happens next on the CPU: in the scheduler, or in user mode of the
    running process, with the arguments of [userret]. *)
Inductive cpu_mode := InScheduler | InUser (trapframe satp : Z).

(** The steps of the system: the scheduler begins a round, looks at an entry of the
    table and passes over it or switches to its process, which goes on where it
    was; an interrupt is taken in the scheduler, where [sret] turns interrupts on
    again, or a trap in user mode. The
    process ends a step back in user mode, or gives up the CPU and the scheduler
    goes on. The registers of the trap and what the devices present are any, and
    the scheduler looks at the entries in any order. A step runs the kernel
    undisturbed: no interrupt is taken in a system call, so that no timer tick
    preempts one, and a process that waits for the disk keeps the CPU
    ([Kernel.after_io]). *)
Definition run_outcome (p : nat) (r : res (machine D) (Z * Z)) (s' : machine D) (m' : cpu_mode)
    : Prop :=
  match r with
  | Ok (tf, satp) s1 => s' = s1 /\ m' = InUser tf satp
  | Sleep _ s1 => lk (scheduler_return p) s1 = Ok tt s' /\ m' = InScheduler
  | Stop _ => False
  end.

(** Changes outside the kernel up to the start of a trap's handler: the trap cause
    and registers, the pending interrupts, interrupts off, and the words of memory
    the trap vector saves registers to. *)
Definition user_effect (s s' : machine D) : Prop :=
  k_procs (m_k s') = k_procs (m_k s) /\ k_ftable (m_k s') = k_ftable (m_k s) /\
  k_cpu (m_k s') = cpu_set_sie false (k_cpu (m_k s)) /\
  k_nextpid (m_k s') = k_nextpid (m_k s) /\ k_cons (m_k s') = k_cons (m_k s) /\
  f_bio (k_fs (m_k s')) = f_bio (k_fs (m_k s)) /\
  icache (k_fs (m_k s')) = icache (k_fs (m_k s)).

Inductive sys_step : machine D * cpu_mode -> machine D * cpu_mode -> Prop :=
| step_round s s' :
    lk intr_on s = Ok tt s' ->
    sys_step (s, InScheduler) (s', InScheduler)
| step_switch s i x s' m' :
    k_procs (m_k s) !! i = Some x ->
    forall s2, lk (scheduler_dispatch i) s = Ok true s2 ->
    run_outcome i (resume (p_kont x) s2) s' m' ->
    sys_step (s, InScheduler) (s', m')
| step_skip s i s' :
    lk (scheduler_dispatch i) s = Ok false s' ->
    sys_step (s, InScheduler) (s', InScheduler)
| step_irq s s1 s2 s' :
    c_sie (k_cpu (m_k s)) = true ->
    user_effect s s1 ->
    sys_trap_handler KNone s1 = Ok tt s2 ->
    lk intr_on s2 = Ok tt s' ->
    sys_step (s, InScheduler) (s', InScheduler)
| step_trap s p tf satp s1 s' m' :
    c_proc (k_cpu (m_k s)) = Some p ->
    user_effect s s1 ->
    run_outcome p (usertrap sys_trap_vector s1) s' m' ->
    sys_step (s, InUser tf satp) (s', m').
End main.
