(* ===== verification/Logic.v ===== *)
(** Partial-correctness judgements for kernel and machine code, and the induction
    principle for invariants of the whole system. A computation may return, give
    up the CPU or stop: the invariants say what holds in the first two cases. *)

From S2P Require Import Prelude Memory Kalloc Vm Str Bio Fs Kernel Spinlock Proc.
From S2P Require Import Pipe File Console Syscall Sysfile Sysproc Exec Machine Virtio Trap Boot.

(* ------------------------------------------------------------------ *)
(** ** Code that returns or gives up the CPU *)

Section judgement.
Context {S : Type}.
Implicit Types (I J : S -> Prop) (s : S).

(** If [m] returns from [s] then [Q] holds, if it gives up the CPU then [J]
    does. *)
Definition pwlp {A} J (m : M S A) (Q : A -> S -> Prop) s : Prop :=
  match m s with Ok a s' => Q a s' | Sleep _ s' => J s' | Stop _ => True end.

Lemma wlp_bind {A B} J (m : M S A) (k : A -> M S B) Q s :
  pwlp J m (fun a s' => pwlp J (k a) Q s') s -> pwlp J (bind m k) Q s.
Proof. unfold pwlp, bind. by destruct (m s). Qed.
Lemma wlp_ret {A} J (a : A) (Q : A -> S -> Prop) s : Q a s -> pwlp J (ret a) Q s.
Proof. done. Qed.
Lemma wlp_mono {A} J (m : M S A) (P Q : A -> S -> Prop) s :
  pwlp J m P s -> (forall a s', P a s' -> Q a s') -> pwlp J m Q s.
Proof. unfold pwlp. destruct (m s); auto. Qed.
Lemma wlp_of_eq {A} J (m : M S A) (Q : A -> S -> Prop) s a s' :
  m s = Ok a s' -> Q a s' -> pwlp J m Q s.
Proof. unfold pwlp. by intros ->. Qed.
Lemma wlp_stop {A} J e (Q : A -> S -> Prop) s : pwlp J (stop_with e) Q s.
Proof. done. Qed.
Lemma wlp_get J (Q : S -> S -> Prop) s : Q s s -> pwlp J get Q s.
Proof. done. Qed.

Lemma wlp_for_range J (body : nat -> M S unit) (Inv : nat -> S -> Prop) i n s :
  (forall j s, (i <= j < i + n)%nat -> Inv j s -> pwlp J (body j) (fun _ s' => Inv (Datatypes.S j) s') s) ->
  Inv i s -> pwlp J (for_range i n body) (fun _ s' => Inv (i + n)%nat s') s.
Proof.
  revert i s. induction n as [|n IH]; intros i s Hb HI; cbn [for_range].
  - apply wlp_ret. by rewrite Nat.add_0_r.
  - apply wlp_bind. eapply wlp_mono; [apply Hb; [lia|done]|]. cbn. intros _ s' HI'.
    replace (i + Datatypes.S n)%nat with (Datatypes.S i + n)%nat by lia. apply IH; [|done].
    intros j t Hj. apply Hb. lia.
Qed.
Lemma wlp_loop {X R} J fuel (body : X -> M S (X + R)) (Inv : X -> S -> Prop) (Q : R -> S -> Prop) x s :
  (forall x s, Inv x s -> pwlp J (body x) (fun r s' => match r with inl x' => Inv x' s' | inr b => Q b s' end) s) ->
  Inv x s -> pwlp J (loop fuel body x) Q s.
Proof.
  intros Hb. revert x s. induction fuel as [|fuel IH]; intros x s HI; [done|].
  change (pwlp J (bind (body x) (fun r => match r with inl x' => loop fuel body x' | inr b => ret b end)) Q s).
  apply wlp_bind. eapply wlp_mono; [by apply Hb|]. intros [x'|b] s' H; [by apply IH|done].
Qed.

(** The code that keeps [I], and gives up the CPU with [J]. *)
Definition preserves {A} I J (m : M S A) : Prop := forall s, I s -> pwlp J m (fun _ s' => I s') s.

Lemma preserves_bind {A B} I J (m : M S A) (k : A -> M S B) :
  preserves I J m -> (forall a, preserves I J (k a)) -> preserves I J (bind m k).
Proof. intros Hm Hk s Hs. apply wlp_bind. eapply wlp_mono; [by apply Hm|]. intros a s' Hs'. by apply Hk. Qed.
Lemma wlp_keep {A B} I J (m : M S A) (k : A -> M S B) Q s :
  preserves I J m -> I s -> (forall a s', I s' -> pwlp J (k a) Q s') -> pwlp J (bind m k) Q s.
Proof. intros Hm Hs Hk. apply wlp_bind. eapply wlp_mono; [by apply Hm|]. intros a s'. apply Hk. Qed.
Lemma preserves_ret {A} I J (a : A) : preserves I J (ret a).
Proof. by intros s Hs. Qed.
Lemma preserves_stop {A} I J e : preserves I J (stop_with (A := A) e).
Proof. done. Qed.
Lemma preserves_get I J : preserves I J get.
Proof. by intros s Hs. Qed.
Lemma preserves_gets {A} I J (f : S -> A) : preserves I J (gets f).
Proof. by intros s Hs. Qed.
Lemma preserves_modify I J f : (forall s, I s -> I (f s)) -> preserves I J (modify f).
Proof. intros Hf s Hs. by apply Hf. Qed.
Lemma preserves_loop {X R} I J fuel (body : X -> M S (X + R)) x :
  (forall x, preserves I J (body x)) -> preserves I J (loop fuel body x).
Proof.
  intros Hb s Hs. eapply (wlp_loop _ _ _ (fun _ => I)); [|done]. intros y t Ht.
  eapply wlp_mono; [by apply Hb|]. by intros [].
Qed.
Lemma preserves_for_range I J i n (body : nat -> M S unit) :
  (forall i, preserves I J (body i)) -> preserves I J (for_range i n body).
Proof. intros Hb s Hs. apply (wlp_for_range _ _ (fun _ => I)); [|done]. intros j t _. apply Hb. Qed.
Lemma preserves_when I J b (m : M S unit) : preserves I J m -> preserves I J (when b m).
Proof. destruct b; [done|]. intros _. apply preserves_ret. Qed.
End judgement.

(** The process that runs and the fields of a process. *)
Lemma wlp_myproc {D} (J : kernel D -> Prop) (Q : nat -> kernel D -> Prop) s :
  (forall p, c_proc (k_cpu s) = Some p -> Q p s) -> pwlp J myproc Q s.
Proof. intros HQ. unfold pwlp, myproc. destruct (c_proc (k_cpu s)); [by apply HQ|done]. Qed.
Lemma wlp_getp {D} (J : kernel D -> Prop) i (Q : proc -> kernel D -> Prop) s :
  (forall x, k_procs s !! i = Some x -> Q x s) -> pwlp J (getp i) Q s.
Proof. intros HQ. unfold pwlp, getp. destruct (k_procs s !! i); [by apply HQ|done]. Qed.

Create HintDb preserves discriminated.
#[export] Hint Resolve preserves_ret preserves_stop preserves_get preserves_gets : preserves.

Ltac head_of t := lazymatch t with ?f _ => head_of f | _ => t end.
(** The monad's rules, the lemmas of the database, what [leaf] proves, and
    otherwise the definition of the operation. *)
Ltac preserves_step leaf :=
  lazymatch goal with
  | |- forall _, _ => intro
  | |- preserves _ _ (bind _ _) => apply preserves_bind
  | |- preserves _ _ (loop _ _ _) => apply preserves_loop
  | |- preserves _ _ (for_range _ _ _) => apply preserves_for_range
  | |- preserves _ _ (when _ _) => apply preserves_when
  | |- preserves _ _ (match ?x with _ => _ end) => destruct x
  | |- preserves _ _ (let _ := _ in _) => cbv zeta
  | |- preserves _ _ ?m =>
      first [solve [auto with preserves nocore] | leaf () | let h := head_of m in unfold h]
  end.

(* ------------------------------------------------------------------ *)
(** ** The machine around the kernel *)

(** Machine code that keeps [I] of the kernel. *)
Abbreviation mpreserves I J := (preserves (fun s => I (m_k s)) (fun s => J (m_k s))).

Section machine.
Context `{Image} {D : Type} `{BlockDev D}.
Implicit Types (I J : kernel D -> Prop) (s : machine D).

Lemma mpreserves_lk {A} I J (m : M (kernel D) A) : preserves I J m -> mpreserves I J (lk m).
Proof.
  intros Hm s Hs. specialize (Hm _ Hs). unfold pwlp in *. unfold lk, zoom.
  by destruct (m (m_k s)) as [a k|c k|e].
Qed.
Lemma wlp_lk {A} J (m : M (kernel D) A) (Q : A -> machine D -> Prop) s :
  pwlp J m (fun a k => forall s', m_k s' = k -> Q a s') (m_k s) -> pwlp (fun s => J (m_k s)) (lk m) Q s.
Proof. unfold pwlp, lk, zoom. destruct (m (m_k s)); [|done|done]. intros HQ. by apply HQ. Qed.
Lemma mpreserves_modify I J f : (forall s, m_k (f s) = m_k s) -> mpreserves I J (modify f).
Proof. intros Hf. apply preserves_modify. intros s. by rewrite Hf. Qed.
Lemma lk_ok {A} J (m : M (kernel D) A) s a s' Q :
  pwlp J m Q (m_k s) -> lk m s = Ok a s' -> Q a (m_k s').
Proof. unfold pwlp, lk, zoom. destruct (m (m_k s)); [|done|done]. by intros HQ [= <- <-]. Qed.
End machine.

(** Machine code: [leaf] proves what kernel code keeps. *)
Ltac mpreserves_leaf leaf :=
  lazymatch goal with
  | |- preserves _ _ (modify _) => apply mpreserves_modify; intros []; reflexivity
  | |- preserves _ _ (lk _) => apply mpreserves_lk; solve [leaf ()]
  end.
Ltac mpreserves leaf := repeat preserves_step ltac:(fun _ => mpreserves_leaf leaf).

(* ------------------------------------------------------------------ *)
(** ** Invariants of the system *)

Section system.
Context `{Image} `{DiskImage} {D : Type} `{BlockDev D}.
Variable sys_trap_vector : Z.
Implicit Types s : machine D.
Implicit Types k : kernel D.

(** [K]: in the scheduler; [R p]: process [p] has just been switched to; [I p]:
    it runs; [J p]: it has given up the CPU. *)
Context (K : kernel D -> Prop) (R I J : nat -> kernel D -> Prop).
Context (K_on : forall k, K k -> pwlp K intr_on (fun _ k' => K k') k).
Context (K_irq : forall s s', user_effect s s' -> K (m_k s) ->
  pwlp (fun s' => K (m_k s')) (sys_trap_handler KNone) (fun _ s' => K (m_k s')) s').
Context (K_dispatch : forall i k, K k ->
  pwlp K (scheduler_dispatch i) (fun b k' => if b : bool then R i k' else K k') k).
Context (R_resume : forall p c s, R p (m_k s) ->
  pwlp (fun s' => J p (m_k s')) (resume c) (fun _ s' => I p (m_k s')) s).
Context (I_cur : forall p q k, I p k -> c_proc (k_cpu k) = Some q -> I q k).
Context (I_user : forall p s s', user_effect s s' -> I p (m_k s) -> I p (m_k s')).
Context (I_trap : forall p s, I p (m_k s) ->
  pwlp (fun s' => J p (m_k s')) (usertrap sys_trap_vector) (fun _ s' => I p (m_k s')) s).
Context (J_return : forall p k, J p k -> pwlp K (scheduler_return p) (fun _ k' => K k') k).

(** What holds of a state of the system. *)
Definition sys_holds (x : machine D * cpu_mode) : Prop :=
  match x.2 with
  | InScheduler => K (m_k x.1)
  | InUser _ _ => exists p, I p (m_k x.1)
  end.

Lemma run_outcome_holds p (m : M (machine D) (Z * Z)) s s' md :
  pwlp (fun s' => J p (m_k s')) m (fun _ s' => I p (m_k s')) s -> run_outcome p (m s) s' md -> sys_holds (s', md).
Proof.
  unfold pwlp, run_outcome. destruct (m s) as [[tf satp] s1|c s1|e]; [|intros Hj [Hr ->]|done].
  - intros Hi [-> ->]. by exists p.
  - apply (lk_ok K _ _ _ _ (fun _ k' => K k') (J_return p _ Hj) Hr).
Qed.

Lemma sys_step_holds x y : sys_step sys_trap_vector x y -> sys_holds x -> sys_holds y.
Proof.
  intros Hstep Hx.
  destruct Hstep as [s s' Hi|s i px s' md Hpx s2 Hd Hr|s i s' Hd|s s1 s2 s' _ Hu Hr Hi|s p tf satp s1 s' md Hc Hu Hr];
    unfold sys_holds in Hx; cbn [fst snd] in Hx.
  - exact (lk_ok K _ _ _ _ _ (K_on _ Hx) Hi).
  - pose proof (lk_ok K _ _ _ _ _ (K_dispatch i _ Hx) Hd) as H4.
    eapply run_outcome_holds; [|exact Hr]. by apply R_resume.
  - exact (lk_ok K _ _ _ _ _ (K_dispatch i _ Hx) Hd).
  - specialize (K_irq _ _ Hu Hx). unfold pwlp in K_irq. rewrite Hr in K_irq.
    exact (lk_ok K _ _ _ _ _ (K_on _ K_irq) Hi).
  - destruct Hx as [q Hq]. eapply run_outcome_holds; [|exact Hr]. apply I_trap. eapply I_user; [exact Hu|].
    by apply (I_cur q).
Qed.
Lemma sys_steps_hold x y : rtc (sys_step sys_trap_vector) x y -> sys_holds x -> sys_holds y.
Proof. intros Hxy. induction Hxy as [x|x y z Hxy _ IH]; [done|]. intros Hx. apply IH. by eapply sys_step_holds. Qed.
End system.
