(* ===== verification/NoSleep.v ===== *)
(** Kernel code that cannot give up the CPU: memory, the file system and the
    locks. *)

From S2P Require Import Prelude Memory Kalloc Vm Str Bio Fs Kernel Spinlock Proc Pipe File Logic.

(* ------------------------------------------------------------------ *)
(** ** Computations that do not sleep *)

Definition nosleep {S A} (m : M S A) : Prop := forall s c s', m s <> Sleep c s'.

Section nosleep.
Context {S : Type}.

Lemma nosleep_bind {A B} (m : M S A) (k : A -> M S B) :
  nosleep m -> (forall a, nosleep (k a)) -> nosleep (bind m k).
Proof. intros Hm Hk s c s'. unfold bind. destruct (m s) eqn:E; [apply Hk|by apply Hm in E|done]. Qed.
Lemma nosleep_ret {A} (a : A) : nosleep (S := S) (ret a).
Proof. done. Qed.
Lemma nosleep_stop {A} e : nosleep (S := S) (A := A) (stop_with e).
Proof. done. Qed.
Lemma nosleep_loop {X R} fuel (body : X -> M S (X + R)) x :
  (forall x, nosleep (body x)) -> nosleep (loop fuel body x).
Proof.
  intros Hb. revert x. induction fuel as [|fuel IH]; intros x; [done|].
  apply nosleep_bind; [done|]. intros [x'|r]; [apply IH|done].
Qed.
Lemma nosleep_for_range i n (body : nat -> M S unit) :
  (forall i, nosleep (body i)) -> nosleep (for_range i n body).
Proof.
  intros Hb. revert i. induction n as [|n IH]; intros i; [done|]. by apply nosleep_bind.
Qed.
Lemma nosleep_when b (m : M S unit) : nosleep m -> nosleep (when b m).
Proof. by destruct b. Qed.
Lemma nosleep_zoom {T A} (pi : S -> T) upd (m : M T A) : nosleep m -> nosleep (zoom pi upd m).
Proof. intros Hm s c s'. unfold zoom. destruct (m (pi s)) eqn:E; [done|by apply Hm in E|done]. Qed.
End nosleep.

Create HintDb nosleep discriminated.
#[export] Hint Resolve nosleep_ret nosleep_stop : nosleep.

(** The monad's rules, the lemmas of the database, and otherwise the definition
    of the operation. *)
Ltac nosleep_step :=
  lazymatch goal with
  | |- forall _, _ => intro
  | |- nosleep (bind _ _) => apply nosleep_bind
  | |- nosleep (loop _ _ _) => apply nosleep_loop
  | |- nosleep (for_range _ _ _) => apply nosleep_for_range
  | |- nosleep (when _ _) => apply nosleep_when
  | |- nosleep (zoom _ _ _) => apply nosleep_zoom
  | |- nosleep (match ?x with _ => _ end) => destruct x
  | |- nosleep (let _ := _ in _) => cbv zeta
  | |- nosleep ?m => first [solve [auto with nosleep nocore] | let h := head_of m in unfold h]
  end.
Ltac nosleep := repeat nosleep_step.
(** A primitive operation, by cases. *)
Ltac nosleep_prim h :=
  intros s c s'; cbv delta [h]; cbv beta;
  repeat match goal with |- context [match ?x with _ => _ end] => destruct x end; discriminate.

Section prim.
Context `{Image} {D : Type} `{BlockDev D}.

Lemma nosleep_get S : nosleep (S := S) get.
Proof. done. Qed.
Lemma nosleep_gets S A (f : S -> A) : nosleep (gets f).
Proof. done. Qed.
Lemma nosleep_put S (s : S) : nosleep (put s).
Proof. done. Qed.
Lemma nosleep_modify S (f : S -> S) : nosleep (modify f).
Proof. done. Qed.
Lemma nosleep_getb b : nosleep (getb (D := D) b).
Proof. nosleep_prim @getb. Qed.
Lemma nosleep_setb b f : nosleep (setb (D := D) b f).
Proof. nosleep_prim @setb. Qed.
Lemma nosleep_geti i : nosleep (geti (D := D) i).
Proof. nosleep_prim @geti. Qed.
Lemma nosleep_seti i f : nosleep (seti (D := D) i f).
Proof. nosleep_prim @seti. Qed.
Lemma nosleep_getp i : nosleep (getp (D := D) i).
Proof. nosleep_prim @getp. Qed.
Lemma nosleep_setp i f : nosleep (setp (D := D) i f).
Proof. nosleep_prim @setp. Qed.
Lemma nosleep_getf i : nosleep (getf (D := D) i).
Proof. nosleep_prim @getf. Qed.
Lemma nosleep_setf i f : nosleep (setf (D := D) i f).
Proof. nosleep_prim @setf. Qed.
Lemma nosleep_myproc : nosleep (myproc (D := D)).
Proof. nosleep_prim @myproc. Qed.
End prim.
#[export] Hint Resolve nosleep_get nosleep_gets nosleep_put nosleep_modify nosleep_getb nosleep_setb
  nosleep_geti nosleep_seti nosleep_getp nosleep_setp nosleep_getf nosleep_setf nosleep_myproc : nosleep.

Section nosleep_ops.
Context `{Image} {D : Type} `{BlockDev D}.

Lemma nosleep_bread dev bno : nosleep (bread (D := D) dev bno).
Proof. nosleep. Qed.
Lemma nosleep_brelse b : nosleep (brelse (D := D) b).
Proof. nosleep. Qed.
#[local] Hint Resolve nosleep_bread nosleep_brelse : nosleep.
Lemma nosleep_iput ip : nosleep (iput (D := D) ip).
Proof. nosleep. Qed.
Lemma nosleep_lfs {A} (m : M (fs D) A) : nosleep m -> nosleep (lfs m).
Proof. intros Hm. unfold lfs, after_io. nosleep. Qed.
Lemma nosleep_acquire lk : nosleep (acquire (D := D) lk).
Proof. nosleep. Qed.
Lemma nosleep_release lk : nosleep (release (D := D) lk).
Proof. nosleep. Qed.
#[local] Hint Resolve nosleep_acquire nosleep_release : nosleep.
Lemma nosleep_wakeup ch : nosleep (wakeup (D := D) ch).
Proof. nosleep. Qed.
#[local] Hint Resolve nosleep_wakeup : nosleep.
Lemma nosleep_pipeclose pi w : nosleep (pipeclose (D := D) pi w).
Proof. nosleep. Qed.
Lemma nosleep_sched : nosleep (sched (D := D)).
Proof. nosleep. Qed.
End nosleep_ops.
#[export] Hint Resolve nosleep_iput nosleep_acquire nosleep_release nosleep_wakeup nosleep_pipeclose
  nosleep_sched : nosleep.
#[export] Hint Extern 1 (nosleep (lfs _)) => apply nosleep_lfs : nosleep.

(* ------------------------------------------------------------------ *)
(** ** Memory and page tables *)

Section memory.
Context `{Image}.

Lemma nosleep_walk_level l pt va alloc : nosleep (walk_level l pt va alloc).
Proof. revert pt. induction l; intros pt; cbn [walk_level]; nosleep. Qed.
#[local] Hint Resolve nosleep_walk_level : nosleep.
Lemma nosleep_walk pt va alloc : nosleep (walk pt va alloc).
Proof. nosleep. Qed.
Lemma nosleep_kalloc : nosleep kalloc.
Proof. nosleep. Qed.
Lemma nosleep_kfree pa : nosleep (kfree pa).
Proof. nosleep. Qed.
#[local] Hint Resolve nosleep_walk nosleep_kalloc nosleep_kfree : nosleep.
Lemma nosleep_freewalk f pt : nosleep (freewalk f pt).
Proof. revert pt. induction f; intros pt; cbn [freewalk]; nosleep. Qed.
#[local] Hint Resolve nosleep_freewalk : nosleep.
Lemma nosleep_mappages pt pa va sz perm : nosleep (mappages pt pa va sz perm).
Proof. nosleep. Qed.
Lemma nosleep_copyout pt va s : nosleep (copyout pt va s).
Proof. nosleep. Qed.
Lemma nosleep_uvmunmap pt va n b : nosleep (uvmunmap pt va n b).
Proof. nosleep. Qed.
#[local] Hint Resolve nosleep_mappages nosleep_copyout nosleep_uvmunmap : nosleep.
Lemma nosleep_proc_pagetable tf : nosleep (proc_pagetable tf).
Proof. nosleep. Qed.
Lemma nosleep_proc_freepagetable pt sz : nosleep (proc_freepagetable pt sz).
Proof. nosleep. Qed.
Lemma nosleep_uvmcopy old new sz : nosleep (uvmcopy old new sz).
Proof. nosleep. Qed.
Lemma nosleep_uvmdealloc pt a b : nosleep (uvmdealloc pt a b).
Proof. nosleep. Qed.
#[local] Hint Resolve nosleep_uvmdealloc : nosleep.
Lemma nosleep_uvmalloc pt a b : nosleep (uvmalloc pt a b).
Proof. nosleep. Qed.
End memory.
#[export] Hint Resolve nosleep_walk nosleep_kalloc nosleep_kfree nosleep_mappages nosleep_copyout
  nosleep_proc_pagetable nosleep_proc_freepagetable nosleep_uvmcopy nosleep_uvmdealloc nosleep_uvmalloc
  nosleep_bread nosleep_brelse : nosleep.

(* ------------------------------------------------------------------ *)
(** ** The file system *)

Section files.
Context `{Image} {D : Type} `{BlockDev D}.

Lemma nosleep_bmap ip bn : nosleep (bmap (D := D) ip bn).
Proof. nosleep. Qed.
#[local] Hint Resolve nosleep_bmap : nosleep.
Lemma nosleep_idup ip : nosleep (idup (D := D) ip).
Proof. nosleep. Qed.
Lemma nosleep_iget dev inum : nosleep (iget (D := D) dev inum).
Proof. nosleep. Qed.
Lemma nosleep_ilock ip : nosleep (ilock (D := D) ip).
Proof. nosleep. Qed.
Lemma nosleep_iunlock ip : nosleep (iunlock (D := D) ip).
Proof. nosleep. Qed.
Lemma nosleep_iupdate ip : nosleep (iupdate (D := D) ip).
Proof. nosleep. Qed.
Lemma nosleep_itrunc ip : nosleep (itrunc (D := D) ip).
Proof. nosleep. Qed.
#[local] Hint Resolve nosleep_idup nosleep_iget nosleep_ilock nosleep_iunlock nosleep_iupdate nosleep_itrunc : nosleep.
Lemma nosleep_iunlockput ip : nosleep (iunlockput (D := D) ip).
Proof. nosleep. Qed.
Lemma nosleep_ialloc dev ty : nosleep (ialloc (D := D) dev ty).
Proof. nosleep. Qed.
Lemma nosleep_readi ip dst off n : nosleep (readi (D := D) ip dst off n).
Proof. nosleep. Qed.
#[local] Hint Resolve nosleep_iunlockput nosleep_readi : nosleep.
Lemma nosleep_readi_local ip off n : nosleep (readi_local (D := D) ip off n).
Proof. nosleep. Qed.
Lemma nosleep_writei_rec d ip src off : nosleep (writei_rec (D := D) d ip src off).
Proof. revert ip src off. induction d; intros ip src off; cbn [writei_rec]; nosleep. Qed.
#[local] Hint Resolve nosleep_readi_local nosleep_writei_rec : nosleep.
Lemma nosleep_writei ip src off : nosleep (writei (D := D) ip src off).
Proof. nosleep. Qed.
Lemma nosleep_dirlookup dp name : nosleep (dirlookup (D := D) dp name).
Proof. nosleep. Qed.
#[local] Hint Resolve nosleep_writei nosleep_dirlookup : nosleep.
Lemma nosleep_dirlink dp name inum : nosleep (dirlink (D := D) dp name inum).
Proof. nosleep. Qed.
Lemma nosleep_namei cwd name path : nosleep (namei (D := D) cwd name path).
Proof. nosleep. Qed.
Lemma nosleep_nameiparent cwd path name : nosleep (nameiparent (D := D) cwd path name).
Proof. nosleep. Qed.
Lemma nosleep_stati ip : nosleep (stati (D := D) ip).
Proof. nosleep. Qed.
End files.
#[export] Hint Resolve nosleep_bmap nosleep_idup nosleep_iget nosleep_ilock nosleep_iunlock nosleep_iupdate
  nosleep_itrunc nosleep_iunlockput nosleep_ialloc nosleep_readi nosleep_readi_local nosleep_writei
  nosleep_dirlookup nosleep_dirlink nosleep_namei nosleep_nameiparent nosleep_stati : nosleep.
