(* ===== verification/LockInv.v ===== *)
(** Locks, interrupt nesting and process states: what the running code holds at
    a point, the operations that change it, and the code that leaves it as it
    was. *)

From S2P Require Import Prelude Memory Kalloc Vm Str Bio Fs Kernel Spinlock Proc Pipe File Logic NoSleep.

Section view.
Context `{Image} {D : Type} `{BlockDev D}.
Implicit Types k : kernel D.

(** The CPU runs process [c], [n] sections deep, with the locks of the processes
    [L]; no other process is marked running, and the state of [c] is running or
    [x]. *)
Record at_cpu (c : option nat) (x : task_status) (n : Z) (L : list nat) k : Prop := {
  ac_cur : c_proc (k_cpu k) = c;
  ac_noff : c_noff (k_cpu k) = n;
  ac_len : Z.of_nat (length L) <= n;
  ac_nodup : NoDup L;
  ac_others : forall i y, k_procs k !! i = Some y -> p_status y = TASK_RUNNING -> c = Some i;
  ac_own : forall i y, k_procs k !! i = Some y -> c = Some i -> p_status y = TASK_RUNNING \/ p_status y = x;
  ac_locks : forall i y, k_procs k !! i = Some y -> lk_locked (p_lock y) <> 0 <-> i ∈ L;
}.

(** The process has given up the CPU: it holds its own lock and nothing else, and
    no process is marked running. *)
Definition off_cpu (p : nat) k : Prop :=
  exists x, at_cpu (Some p) x 1 [p] k /\ forall i y, k_procs k !! i = Some y -> p_status y <> TASK_RUNNING.

Lemma at_same c x n L k k' :
  k_procs k' = k_procs k -> c_proc (k_cpu k') = c_proc (k_cpu k) -> c_noff (k_cpu k') = c_noff (k_cpu k) ->
  at_cpu c x n L k -> at_cpu c x n L k'.
Proof. intros Ep Ec En [? ? ? ? ? ? ?]. split; rewrite ?Ep, ?Ec, ?En; done. Qed.

(** An entry changed. *)
Lemma at_setp c x n L i y y' k :
  k_procs k !! i = Some y -> p_lock y' = p_lock y ->
  (p_status y' = p_status y \/ c <> Some i /\ p_status y' <> TASK_RUNNING \/
   c = Some i /\ (p_status y' = TASK_RUNNING \/ p_status y' = x)) ->
  at_cpu c x n L k -> at_cpu c x n L (kernel_set_procs (<[i := y']> (k_procs k)) k).
Proof.
  intros Hy Hl Hst [H3 H4 H5 H6 H7 H8 H9]. split; try done; cbn; intros j z Hz;
    destruct (decide (i = j)) as [<-|Hne];
    try (rewrite list_lookup_insert_ne in Hz by done; by eauto);
    rewrite list_lookup_insert_eq in Hz by (by eapply lookup_lt_Some); injection Hz as <-.
  - intros Hr. destruct Hst as [E|[[Hc Hn]|[Hc _]]]; [apply (H7 i y Hy); congruence|done|done].
  - intros Hc. destruct Hst as [E|[[Hc' _]|[_ Hs]]]; [rewrite E; by apply (H8 i y)|done|done].
  - rewrite Hl. by apply H9.
Qed.

(** The CPU's nesting depth. *)
Lemma at_depth c x n n' L f k :
  at_cpu c x n L k -> c_proc (f (k_cpu k)) = c -> c_noff (f (k_cpu k)) = n' -> Z.of_nat (length L) <= n' ->
  at_cpu c x n' L (kernel_set_cpu (f (k_cpu k)) k).
Proof. intros [? ? ? ? ? ? ?] Hc Hn Hl. by split. Qed.

(* ------------------------------------------------------------------ *)
(** ** Locks *)

Context (J : kernel D -> Prop).

Lemma wlp_setp c x n L i f Q k :
  at_cpu c x n L k -> (forall y, p_lock (f y) = p_lock y) ->
  (forall y, k_procs k !! i = Some y ->
     p_status (f y) = p_status y \/ c <> Some i /\ p_status (f y) <> TASK_RUNNING \/
     c = Some i /\ (p_status (f y) = TASK_RUNNING \/ p_status (f y) = x)) ->
  (forall k', at_cpu c x n L k' -> Q tt k') -> pwlp J (setp i f) Q k.
Proof.
  intros Ha Hl Hst HQ. unfold pwlp, setp. destruct (k_procs k !! i) as [y|] eqn:Hy; [|done].
  apply HQ. apply (at_setp c x n L i y); auto.
Qed.
(** The state of the running process. *)
Lemma wlp_setp_own p x st n L f Q k :
  at_cpu (Some p) x n L k -> (forall y, p_lock (f y) = p_lock y) -> (forall y, p_status (f y) = st) ->
  (forall k', at_cpu (Some p) st n L k' -> Q tt k') -> pwlp J (setp p f) Q k.
Proof.
  intros [H3 H4 H5 H6 H7 H8 H9] Hl Hst HQ. unfold pwlp, setp.
  destruct (k_procs k !! p) as [y|] eqn:Hy; [|done].
  assert (forall i z, <[p := f y]> (k_procs k) !! i = Some z -> i = p /\ z = f y \/ i <> p /\ k_procs k !! i = Some z) as Hc.
  { intros i z Hz. apply list_lookup_insert_Some in Hz as [(<- & <- & _)|[Hn Hz]]; [by left|right; by split]. }
  apply HQ. split; try done; cbn.
  - intros i z [[-> ->]|[Hn Hz]]%Hc; [done|by apply H7].
  - intros i z Hz [= <-]. apply Hc in Hz as [[_ ->]|[Hn _]]; [right; apply Hst|done].
  - intros i z [[-> ->]|[Hn Hz]]%Hc; [rewrite Hl|]; by apply H9.
Qed.
Lemma wlp_lmem {A} c x n L (m : M kmem A) Q k :
  at_cpu c x n L k -> nosleep m -> (forall a k', at_cpu c x n L k' -> Q a k') -> pwlp J (lmem m) Q k.
Proof.
  intros Ha Hm HQ. unfold pwlp, lmem, zoom. destruct (m _) as [a t|w t|e] eqn:E; [|by apply Hm in E|done].
  apply HQ. by eapply at_same; [..|exact Ha].
Qed.

Lemma wlp_push_off c x n L Q k :
  at_cpu c x n L k -> n < 1000 -> (forall k', at_cpu c x (n + 1) L k' -> k_procs k' = k_procs k -> Q tt k') -> pwlp J push_off Q k.
Proof.
  intros Ha Hn HQ. pose proof (ac_noff _ _ _ _ _ Ha) as E. pose proof (ac_len _ _ _ _ _ Ha) as Hl.
  unfold push_off, intr_get, intr_off, getcpu, setcpu, pwlp, bind, ret, when. cbn -[s32].
  destruct (c_noff (k_cpu k) =? 0); unfold ret; cbn -[s32]; rewrite E, s32_id by lia; apply HQ; try done;
    destruct Ha; split; cbn; try done; lia.
Qed.
Lemma wlp_pop_off c x n L Q k :
  at_cpu c x n L k -> n < 1000 -> Z.of_nat (length L) <= n - 1 ->
  (forall k', at_cpu c x (n - 1) L k' -> k_procs k' = k_procs k -> Q tt k') -> pwlp J pop_off Q k.
Proof.
  intros Ha Hn Hl HQ. pose proof (ac_noff _ _ _ _ _ Ha) as E.
  unfold pop_off, intr_on, getcpu, setcpu, pwlp, bind, ret, when. cbn -[s32]. rewrite E, s32_id by lia.
  destruct (_ && _); unfold ret; apply HQ; try done; destruct Ha; split; cbn -[s32]; try done; rewrite E; apply s32_id; lia.
Qed.

(** The lock of a process taken or given up. *)
Lemma at_take c x n L i y v k :
  at_cpu c x n L k -> k_procs k !! i = Some y -> i ∉ L -> Z.of_nat (length L) <= n - 1 -> lk_locked v <> 0 ->
  at_cpu c x n (i :: L) (kernel_set_procs (<[i := proc_set_lock v y]> (k_procs k)) k).
Proof.
  intros [H3 H4 H5 H6 H7 H8 H9] Hy Hi Hl Hv. split; try done; cbn [k_procs kernel_set_procs].
  - cbn. lia.
  - by constructor.
  - intros j z Hz Hr. apply list_lookup_insert_Some in Hz as [(<- & <- & _)|[Hn Hz]]; [by apply (H7 i y)|by eapply H7].
  - intros j z Hz Hc. apply list_lookup_insert_Some in Hz as [(<- & <- & _)|[Hn Hz]]; [by apply (H8 i y)|by eapply H8].
  - intros j z Hz. apply list_lookup_insert_Some in Hz as [(<- & <- & _)|[Hn Hz]].
    + split; [by left|done].
    + rewrite (H9 j z Hz), elem_of_cons. split; [by right|by intros [?|?]].
Qed.
Lemma at_give c x n L i y v k :
  at_cpu c x n (i :: L) k -> k_procs k !! i = Some y -> lk_locked v = 0 ->
  at_cpu c x n L (kernel_set_procs (<[i := proc_set_lock v y]> (k_procs k)) k).
Proof.
  intros [H3 H4 H5 H6 H7 H8 H9] Hy Hv. apply NoDup_cons in H6 as [Hi H6]. split; try done; cbn [k_procs kernel_set_procs].
  - cbn in H5. lia.
  - intros j z Hz Hr. apply list_lookup_insert_Some in Hz as [(<- & <- & _)|[Hn Hz]]; [by apply (H7 i y)|by eapply H7].
  - intros j z Hz Hc. apply list_lookup_insert_Some in Hz as [(<- & <- & _)|[Hn Hz]]; [by apply (H8 i y)|by eapply H8].
  - intros j z Hz. apply list_lookup_insert_Some in Hz as [(<- & <- & _)|[Hn Hz]].
    + split; [done|]. intros Hin. done.
    + rewrite (H9 j z Hz), elem_of_cons. split; [by intros [?|?]|by right].
Qed.

Lemma wlp_acquire c x n L i Q k :
  at_cpu c x n L k -> n < 1000 ->
  (forall k', i ∉ L -> at_cpu c x (n + 1) (i :: L) k' -> Q tt k') -> pwlp J (acquire (LkProc i)) Q k.
Proof.
  intros Ha Hn HQ. unfold acquire. apply wlp_bind. eapply wlp_push_off; [exact Ha|done|]. intros k1 H1 _.
  pose proof (ac_len _ _ _ _ _ Ha) as Hl. clear Ha k.
  unfold get_lock. apply wlp_bind, wlp_bind, wlp_getp. intros y Hy. apply wlp_ret.
  destruct (Z.eqb_spec (lk_locked (p_lock y)) 0) as [E|E]; [|done]. cbn [negb].
  assert (i ∉ L) as Hi by (intros Hi; by apply (ac_locks _ _ _ _ _ H1 i y Hy) in Hi).
  unfold set_locked, set_lkcpu. apply wlp_bind. unfold pwlp at 1, setp. rewrite Hy.
  pose proof (at_take c x (n + 1) L i y (Spinlock 1 (lk_name (p_lock y)) (lk_cpu (p_lock y))) k1 H1 Hy Hi ltac:(lia) ltac:(done)) as H2.
  set (k2 := kernel_set_procs _ k1) in *. unfold pwlp, setp. destruct (k_procs k2 !! i) as [z|] eqn:Hz; [|done].
  apply HQ; [done|]. unfold k2 in Hz. cbn in Hz. rewrite list_lookup_insert_eq in Hz by (by eapply lookup_lt_Some).
  injection Hz as <-. unfold k2. cbn [k_procs kernel_set_procs]. rewrite list_insert_insert_eq.
  exact (at_take c x (n + 1) L i y (Spinlock 1 (lk_name (p_lock y)) cpus_base) k1 H1 Hy Hi ltac:(lia) ltac:(done)).
Qed.
Lemma wlp_acquire_pipe c x n L pi Q k :
  at_cpu c x n L k -> n < 1000 ->
  (forall k', at_cpu c x (n + 1) L k' -> Q tt k') -> pwlp J (acquire (LkPipe pi)) Q k.
Proof.
  intros Ha Hn HQ. unfold acquire. apply wlp_bind. eapply wlp_push_off; [exact Ha|done|]. intros k1 H1 _.
  unfold get_lock, set_locked, set_lkcpu. apply wlp_bind.
  do 3 (apply wlp_bind; eapply wlp_lmem; [eassumption|nosleep|]; intros ? ? ?). apply wlp_ret.
  destruct (negb _); [done|]. apply wlp_bind.
  eapply wlp_lmem; [eassumption|nosleep|]. intros [] k2 Hk2. eapply wlp_lmem; [exact Hk2|nosleep|]. by intros [] k3 Hk3; apply HQ.
Qed.

Lemma wlp_release c x n L i Q k :
  at_cpu c x n (i :: L) k -> n < 1000 ->
  (forall k', at_cpu c x (n - 1) L k' -> Q tt k') -> pwlp J (release (LkProc i)) Q k.
Proof.
  intros Ha Hn HQ. pose proof (ac_len _ _ _ _ _ Ha) as Hl. cbn in Hl.
  unfold release, set_lkcpu, set_locked. apply wlp_bind. unfold pwlp at 1, setp at 1.
  destruct (k_procs k !! i) as [y|] eqn:Hy; [|done]. apply wlp_bind. set (y1 := proc_set_lock _ y).
  unfold pwlp at 1, setp at 1. cbn [k_procs kernel_set_procs].
  rewrite list_lookup_insert_eq by (by eapply lookup_lt_Some). rewrite list_insert_insert_eq.
  eapply (wlp_pop_off c x n L).
  - exact (at_give c x n L i y (Spinlock 0 (lk_name (p_lock y)) 0) k Ha Hy ltac:(done)).
  - done.
  - lia.
  - intros k' Hk' _. by apply HQ.
Qed.
Lemma wlp_release_pipe c x n L pi Q k :
  at_cpu c x n L k -> n < 1000 -> Z.of_nat (length L) <= n - 1 ->
  (forall k', at_cpu c x (n - 1) L k' -> Q tt k') -> pwlp J (release (LkPipe pi)) Q k.
Proof.
  intros Ha Hn Hl HQ. unfold release, set_lkcpu, set_locked.
  do 2 (apply wlp_bind; eapply wlp_lmem; [eassumption|nosleep|]; intros [] ? ?).
  eapply (wlp_pop_off c x n L); [eassumption|done|done|]. intros ? ? _. by apply HQ.
Qed.
End view.

(* ------------------------------------------------------------------ *)
(** ** Code that leaves the locks as they were *)

(** The states a process has while kernel code runs in it. *)
Definition proper (x : task_status) : Prop := x = TASK_RUNNING \/ x = TASK_ZOMBIE.

Section steady.
Context `{Image} {D : Type} `{BlockDev D}.
Implicit Types k : kernel D.

(** Code that can be called with any locks held. *)
Definition steady {A} (m : M (kernel D) A) : Prop :=
  forall p x n L, proper x -> n < 50 -> preserves (at_cpu (Some p) x n L) (off_cpu p) m.
(** Code that can be called without a process as well, as interrupt handlers are
    in the scheduler; it does not give up the CPU. *)
Definition evenly {A} (m : M (kernel D) A) : Prop :=
  forall c x n L J, proper x -> n < 50 -> preserves (at_cpu c x n L) J m.
Lemma evenly_steady {A} (m : M (kernel D) A) : evenly m -> steady m.
Proof. intros Hm p x n L. apply Hm. Qed.

Context (c : option nat) (x : task_status) (n : Z) (L : list nat) (J : kernel D -> Prop).
#[local] Notation pres := (preserves (at_cpu (D := D) c x n L) J).

Lemma pres_same {A} (m : M (kernel D) A) :
  (forall k, match m k with
     | Ok _ k' => k_procs k' = k_procs k /\ c_proc (k_cpu k') = c_proc (k_cpu k) /\ c_noff (k_cpu k') = c_noff (k_cpu k)
     | Sleep _ _ => False
     | Stop _ => True
     end) -> pres m.
Proof.
  intros Hm k Hk. specialize (Hm k). unfold pwlp. destruct (m k) as [a k'|w k'|e]; [|done|done].
  destruct Hm as (E1 & E2 & E3). by eapply at_same.
Qed.
Lemma pres_getp i : pres (getp i).
Proof. apply pres_same. intros k. unfold getp. by destruct (_ !! i). Qed.
Lemma pres_getf i : pres (getf i).
Proof. apply pres_same. intros k. unfold getf. by destruct (_ !! i). Qed.
Lemma pres_setf i f : pres (setf i f).
Proof. apply pres_same. intros k. unfold setf. by destruct (_ !! i). Qed.
Lemma pres_myproc : pres myproc.
Proof. apply pres_same. intros k. unfold myproc. destruct (c_proc (k_cpu k)) eqn:E; [rewrite E|]; auto. Qed.
Lemma pres_setcons f : pres (setcons f).
Proof. by apply pres_same. Qed.
Lemma pres_setcpu f :
  (forall c, c_proc (f c) = c_proc c) -> (forall c, c_noff (f c) = c_noff c) -> pres (setcpu f).
Proof. intros Hp Hn. apply pres_same. intros k. cbn. by rewrite Hp, Hn. Qed.
Lemma pres_allocpid : pres allocpid.
Proof. by apply pres_same. Qed.
Lemma pres_lmem {A} (m : M kmem A) : nosleep m -> pres (lmem m).
Proof. intros Hm k Hk. by eapply wlp_lmem. Qed.
Lemma pres_fs {A} (m : M (fs D) A) : nosleep m -> pres (zoom k_fs kernel_set_fs m).
Proof.
  intros Hm. apply pres_same. intros k. unfold zoom. destruct (m _) as [a t|w t|e] eqn:E; [done|by apply Hm in E|done].
Qed.
Lemma pres_setp i f :
  (forall y, p_lock (f y) = p_lock y) -> (forall y, p_status (f y) = p_status y) -> pres (setp i f).
Proof. intros Hl Hs k Hk. eapply wlp_setp; [exact Hk|done| |done]. intros y _. left. apply Hs. Qed.
(** The state of another process. *)
Lemma pres_setp_other i f :
  c <> Some i -> (forall y, p_lock (f y) = p_lock y) -> (forall y, p_status (f y) <> TASK_RUNNING) -> pres (setp i f).
Proof.
  intros Hi Hl Hs k Hk. eapply wlp_setp; [exact Hk|done| |done]. intros y _. right; left. split; [done|apply Hs].
Qed.
Lemma pres_lfs {A} (m : M (fs D) A) : nosleep m -> pres (lfs m).
Proof.
  intros Hm k Hk. unfold lfs. apply wlp_bind, wlp_get, wlp_bind. eapply wlp_mono; [by apply pres_fs|].
  intros a k1 H1. apply wlp_bind, wlp_get, wlp_bind. unfold after_io. rewrite (ac_cur _ _ _ _ _ Hk).
  destruct c as [p|]; [|done]. destruct (_ =? _); [done|]. destruct (negb _); [done|].
  eapply wlp_setp; [exact H1|by intros []| |done]. intros y _. right; right. split; [done|left; by destruct y].
Qed.
End steady.

Create HintDb steady discriminated.
Create HintDb evenly discriminated.
#[export] Hint Resolve evenly_steady : steady.
#[export] Hint Resolve pres_getp pres_getf pres_setf pres_myproc pres_setcons pres_allocpid : preserves.
Ltac steady_side := intros []; reflexivity.
(** What is left is a primitive operation, or code known to be steady. *)
Ltac steady_leaf :=
  lazymatch goal with
  | |- preserves _ _ (lmem _) => apply pres_lmem; solve [nosleep]
  | |- preserves _ _ (lfs _) => apply pres_lfs; solve [nosleep]
  | |- preserves _ _ (zoom k_fs kernel_set_fs _) => apply pres_fs; solve [nosleep]
  | |- preserves _ _ (setp _ _) =>
      first [ apply pres_setp; steady_side
            | apply pres_setp_other; [congruence|steady_side|intros []; discriminate] ]
  | |- preserves _ _ (setcpu _) => apply pres_setcpu; steady_side
  | |- preserves (at_cpu (Some ?p) ?x ?n ?L) _ ?m =>
      let Hm := fresh in
      assert (steady m) as Hm by solve [auto with steady nocore];
      apply (Hm p x n L); [assumption|lia]
  | |- preserves (at_cpu ?c ?x ?n ?L) ?J ?m =>
      let Hm := fresh in
      assert (evenly m) as Hm by solve [auto with evenly nocore];
      apply (Hm c x n L J); [assumption|lia]
  end.
Ltac pres := repeat preserves_step ltac:(fun _ => steady_leaf).
(** The rest of the code leaves the locks as they are in [Hk]. *)
Ltac rest Hk :=
  cbn beta in Hk;
  lazymatch type of Hk with at_cpu ?c ?x ?n ?L ?k =>
    lazymatch goal with |- pwlp ?J ?m _ _ => refine ((_ : preserves (at_cpu c x n L) J m) k Hk) end
  end; pres.
Ltac steady := intros ? ? ? ? ? ?; pres.

(* ------------------------------------------------------------------ *)
(** ** Giving up the CPU *)

Section switch.
Context `{Image} {D : Type} `{BlockDev D}.
Implicit Types k : kernel D.

Lemma proper_ready x : proper x -> x <> TASK_FREE /\ x <> TASK_SLEEPING.
Proof. by intros [-> | ->]. Qed.

(** The checks of [sched] leave a process that holds its own lock only. *)
Lemma wlp_sched_swtch A p x n L kk (Q : A -> kernel D -> Prop) k :
  at_cpu (Some p) x n L k -> pwlp (off_cpu p) (sched ;;; swtch p kk) Q k.
Proof.
  intros Ha. unfold sched, myproc. apply wlp_bind, wlp_bind. unfold pwlp at 1. rewrite (ac_cur _ _ _ _ _ Ha).
  unfold holding, get_lock. apply wlp_bind, wlp_bind, wlp_bind, wlp_getp. intros y Hy. apply wlp_ret, wlp_ret.
  destruct (Z.eqb_spec (lk_locked (p_lock y)) 0) as [E|E]; [done|].
  apply (ac_locks _ _ _ _ _ Ha p y Hy) in E. cbn [negb andb]. destruct (negb _); [done|].
  apply wlp_bind. unfold getcpu. unfold pwlp at 1, gets at 1. rewrite (ac_noff _ _ _ _ _ Ha).
  destruct (Z.eqb_spec n 1) as [->|]; [|done]. cbn [negb].
  apply wlp_bind, wlp_getp. intros y' Hy'. destruct (decide _) as [|Hst]; [done|].
  assert (forall i w, k_procs k !! i = Some w -> p_status w <> TASK_RUNNING) as Hno.
  { intros i w Hw Hr. pose proof (ac_others _ _ _ _ _ Ha i w Hw Hr) as [= <-]. congruence. }
  assert (L = [p]) as ->.
  { pose proof (ac_len _ _ _ _ _ Ha) as Hl. destruct L as [|q [|r L]]; cbn in Hl; [by apply not_elem_of_nil in E| |lia].
    by apply list_elem_of_singleton in E as ->. }
  apply wlp_bind. unfold intr_get, getcpu. apply wlp_bind. unfold pwlp at 1, gets at 1. apply wlp_ret.
  destruct (c_sie _); [done|]. apply wlp_ret. unfold swtch. apply wlp_bind. unfold pwlp at 1, setp.
  destruct (k_procs k !! p) as [z|] eqn:Hz; [|done]. unfold pwlp. exists x. split.
  - apply (at_setp _ _ _ _ p z); [done|done|by left|done].
  - cbn. intros i w Hw. apply list_lookup_insert_Some in Hw as [(<- & <- & _)|[_ Hw]]; [by apply (Hno p z)|by apply (Hno i)].
Qed.

Lemma steady_yield A kk : steady (yield (D := D) (A := A) kk).
Proof.
  intros p x n L _ Hn k Hk. unfold yield, myproc. apply wlp_bind. unfold pwlp at 1. rewrite (ac_cur _ _ _ _ _ Hk).
  apply wlp_bind. eapply wlp_acquire; [exact Hk|lia|]. intros k1 _ H1. apply wlp_bind.
  eapply (wlp_setp_own _ p _ TASK_READY); [exact H1|by intros []|by intros []|]. intros k2 H2.
  by eapply wlp_sched_swtch.
Qed.

(** [sleep] with the lock of a pipe, and with the process's own. *)
Lemma wlp_sleep_tail A p x n L ch kk (Q : A -> kernel D -> Prop) k :
  at_cpu (Some p) x n L k ->
  pwlp (off_cpu p) (run_all [setp p (proc_set_status TASK_SLEEPING); setp p (proc_set_chan ch); sched])
    (fun _ => pwlp (off_cpu p) (swtch p kk) Q) k.
Proof.
  intros Hk. cbn [run_all]. apply wlp_bind.
  eapply (wlp_setp_own _ p _ TASK_SLEEPING); [exact Hk|by intros []|by intros []|].
  intros k2 H2. eapply wlp_keep; [|exact H2|]; [apply pres_setp; steady_side|]. intros _ k3 Hk3.
  apply wlp_bind. pose proof (wlp_sched_swtch A p _ n L kk Q k3 Hk3) as Hs.
  unfold pwlp, bind in Hs |- *. by destruct (sched k3) as [[] ? | |].
Qed.
Lemma wlp_sleep_pipe A p x n L ch pi kk (Q : A -> kernel D -> Prop) k :
  at_cpu (Some p) x n L k -> Z.of_nat (length L) <= n - 1 -> n < 100 ->
  pwlp (off_cpu p) (sleep ch (LkPipe pi) kk) Q k.
Proof.
  intros Hk Hl Hn. unfold sleep, myproc. apply wlp_bind. unfold pwlp at 1. rewrite (ac_cur _ _ _ _ _ Hk).
  unfold sleep_actions. rewrite decide_False by done. apply wlp_bind. cbn [app]. cbn [run_all]. apply wlp_bind.
  eapply wlp_acquire; [exact Hk|lia|]. intros k1 _ H1.
  apply wlp_bind. eapply wlp_release_pipe; [exact H1|lia|cbn; lia|]. intros k2 H2. by eapply wlp_sleep_tail.
Qed.
Lemma wlp_sleep_own A p x n L ch kk (Q : A -> kernel D -> Prop) k :
  at_cpu (Some p) x n L k -> pwlp (off_cpu p) (sleep ch (LkProc p) kk) Q k.
Proof.
  intros Hk. unfold sleep, myproc. apply wlp_bind. unfold pwlp at 1. rewrite (ac_cur _ _ _ _ _ Hk).
  unfold sleep_actions. rewrite decide_True by done. apply wlp_bind. by eapply wlp_sleep_tail.
Qed.

(** [acquire(&proc[i].lock)], code that keeps the locks, and the release. *)
Lemma steady_section i (m : M (kernel D) unit) c x n L J k :
  at_cpu c x n L k -> n < 100 ->
  (i ∉ L -> preserves (at_cpu c x (n + 1) (i :: L)) J m) ->
  pwlp J (acquire (LkProc i) ;;; m ;;; release (LkProc i)) (fun _ k' => at_cpu c x n L k') k.
Proof.
  intros Hk Hn Hm. apply wlp_bind. eapply wlp_acquire; [exact Hk|lia|]. intros k1 Hi H1. apply wlp_bind.
  eapply wlp_mono; [by apply Hm|]. intros [] k2 H2. eapply wlp_release; [exact H2|lia|]. intros k3 Hk3.
  by replace (n + 1 - 1) with n in Hk3 by lia.
Qed.

Lemma pres_wakeup ch c x n L J :
  n < 100 -> preserves (at_cpu (D := D) c x n L) J (wakeup ch).
Proof.
  intros Hn. unfold wakeup. apply preserves_for_range. intros i k Hk. apply wlp_bind.
  unfold getcpu. unfold pwlp at 1, gets at 1. rewrite (ac_cur _ _ _ _ _ Hk).
  case_bool_decide as Hi; cbn [negb when]; [by apply wlp_ret|]. apply steady_section; [done|done|]. intros _.
  pres.
Qed.
Lemma evenly_wakeup ch : evenly (wakeup (D := D) ch).
Proof. intros c x n L J _ Hn. apply pres_wakeup. lia. Qed.

(** What a process that slept goes on with: it holds its own lock. *)
Lemma wlp_resume_pipe p x n L pi (Q : unit -> kernel D -> Prop) k :
  at_cpu (Some p) x n (p :: L) k -> n < 100 -> (forall k', at_cpu (Some p) x n L k' -> Q tt k') ->
  pwlp (off_cpu p) (sleep_resume (LkPipe pi)) Q k.
Proof.
  intros Hk Hn HQ. unfold sleep_resume, myproc. apply wlp_bind. unfold pwlp at 1. rewrite (ac_cur _ _ _ _ _ Hk).
  apply wlp_bind. eapply wlp_mono; [apply (pres_setp (Some p) x n (p :: L)); [steady_side|steady_side|exact Hk]|]. intros [] k1 H1.
  rewrite bool_decide_false by done. cbn [negb when]. apply wlp_bind.
  eapply wlp_release; [exact H1|lia|]. intros k2 H2. eapply wlp_acquire_pipe; [exact H2|lia|]. intros k3 Hk3.
  apply HQ. by replace (n - 1 + 1) with n in Hk3 by lia.
Qed.
Lemma wlp_yield_resume p x n L (Q : unit -> kernel D -> Prop) k :
  at_cpu (Some p) x n (p :: L) k -> n < 100 -> (forall k', at_cpu (Some p) x (n - 1) L k' -> Q tt k') ->
  pwlp (off_cpu p) yield_resume Q k.
Proof.
  intros Hk Hn HQ. unfold yield_resume, myproc. apply wlp_bind. unfold pwlp at 1. rewrite (ac_cur _ _ _ _ _ Hk).
  eapply wlp_release; [exact Hk|lia|]. intros k1 H1. by apply HQ.
Qed.
End switch.
#[export] Hint Resolve steady_yield : steady.
#[export] Hint Resolve evenly_wakeup : steady evenly.
(** [wakeup] is also called in sections. *)
#[export] Hint Extern 1 (preserves _ _ (wakeup _)) => apply pres_wakeup; lia : preserves.

(* ------------------------------------------------------------------ *)
(** ** Processes and pipes *)

Section procs.
Context `{Image} {D : Type} `{BlockDev D}.
Implicit Types k : kernel D.

(** An entry [allocproc] returns is not that of the running process. *)
Lemma wlp_allocproc_scan i m p x n L k :
  proper x -> at_cpu (Some p) x n L k -> n < 50 ->
  pwlp (off_cpu p) (allocproc_scan i m) (fun r k' =>
    match r with
    | Some np => p <> np /\ at_cpu (Some p) x (n + 1) (np :: L) k'
    | None => at_cpu (Some p) x n L k'
    end) k.
Proof.
  intros Hx. revert i k. induction m as [|m IH]; intros i k Hk Hn; cbn [allocproc_scan]; [by apply wlp_ret|].
  apply wlp_bind. eapply wlp_acquire; [exact Hk|lia|]. intros k1 Hi H1. apply wlp_bind, wlp_getp. intros y Hy.
  destruct (decide _) as [Hf|Hf].
  - apply wlp_ret. split; [|done]. intros <-. destruct (ac_own _ _ _ _ _ H1 p y Hy eq_refl) as [E|E]; [congruence|].
    destruct Hx; congruence.
  - apply wlp_bind. eapply wlp_release; [exact H1|lia|]. intros k2 H2. replace (n + 1 - 1) with n in H2 by lia. by apply IH.
Qed.
Lemma wlp_allocproc p x n L k :
  proper x -> at_cpu (Some p) x n L k -> n < 50 ->
  pwlp (off_cpu p) allocproc (fun r k' => (forall np, r = Some np -> p <> np) /\ at_cpu (Some p) x n L k') k.
Proof.
  intros Hx Hk Hn. unfold allocproc. apply wlp_bind. eapply wlp_mono; [apply wlp_allocproc_scan; [done|exact Hk|lia]|].
  cbn beta. intros [np|] k1; [|by intros H1; apply wlp_ret]. intros [Hne H1].
  do 8 (eapply wlp_keep; [|exact H1|]; [pres|]; clear dependent k1; intros ? k1 H1).
  eapply wlp_keep; [|exact H1|]; [pres|]. clear dependent k1. intros tf k1 H1.
  eapply wlp_keep; [|exact H1|]; [pres|]. clear dependent k1. intros _ k1 H1. destruct (tf =? 0).
  all: eapply wlp_keep; [|exact H1|]; [pres|]; intros [] k2 H2; apply wlp_bind;
    (eapply wlp_release; [exact H2|lia|]); intros k3 Hk3; apply wlp_ret; split;
    [try (intros ? [= <-]); done|by replace (n + 1 - 1) with n in Hk3 by lia].
Qed.

Lemma wlp_pipe_return {A} p x n L pi r (Q : A + Z -> kernel D -> Prop) k :
  at_cpu (Some p) x (n + 1) L k -> n < 50 -> Z.of_nat (length L) <= n ->
  (forall k', at_cpu (Some p) x n L k' -> Q (inr r) k') -> pwlp (off_cpu p) (pipe_return pi r) Q k.
Proof.
  intros Hk Hn Hl HQ. unfold pipe_return. apply wlp_bind. eapply wlp_release_pipe; [exact Hk|lia|lia|]. intros k1 H1.
  apply wlp_ret, HQ. by replace (n + 1 - 1) with n in H1 by lia.
Qed.

Lemma wlp_pipewrite_loop kk pi buf m i p x n L k :
  proper x -> at_cpu (Some p) x (n + 1) L k -> n < 50 -> Z.of_nat (length L) <= n ->
  pwlp (off_cpu p) (pipewrite_loop kk pi buf m i) (fun _ k' => at_cpu (Some p) x n L k') k.
Proof.
  intros Hx Hk Hn Hl. unfold pipewrite_loop.
  eapply (wlp_loop _ _ _ (fun _ k' => at_cpu (Some p) x (n + 1) L k')); [|exact Hk]. clear k Hk. intros j k Hk.
  unfold pipewrite_body. destruct (negb _).
  { eapply wlp_keep; [|exact Hk|]; [pres|]. intros _ k1 H1. by eapply wlp_pipe_return. }
  do 2 (eapply wlp_keep; [|exact Hk|]; [pres|]; clear k Hk; intros ? k Hk).
  destruct (negb _); [by eapply wlp_pipe_return|].
  eapply wlp_keep; [|exact Hk|]; [pres|]. clear k Hk. intros ro k Hk.
  destruct (ro =? 0); [by eapply wlp_pipe_return|].
  eapply wlp_keep; [|exact Hk|]; [pres|]. clear k Hk. intros nw k Hk.
  eapply wlp_keep; [|exact Hk|]; [pres|]. clear k Hk. intros nr k Hk. destruct (_ =? PIPESIZE).
  - eapply wlp_keep; [|exact Hk|]; [pres|]. clear k Hk. intros _ k Hk. eapply wlp_sleep_pipe; [exact Hk|lia|lia].
  - do 2 (eapply wlp_keep; [|exact Hk|]; [pres|]; clear k Hk; intros ? k Hk). by apply wlp_ret.
Qed.

Lemma steady_pipewrite kk pi buf m : steady (pipewrite (D := D) kk pi buf m).
Proof.
  intros p x n L Hx Hn k Hk. unfold pipewrite. apply wlp_bind. eapply wlp_acquire_pipe; [exact Hk|lia|].
  intros k1 H1. apply wlp_pipewrite_loop; [done|done|lia|apply (ac_len _ _ _ _ _ Hk)].
Qed.

Lemma wlp_piperead_loop pi addr m p x n L k :
  proper x -> at_cpu (Some p) x (n + 1) L k -> n < 50 -> Z.of_nat (length L) <= n ->
  pwlp (off_cpu p) (piperead_loop pi addr m) (fun _ k' => at_cpu (Some p) x n L k') k.
Proof.
  intros Hx Hk Hn Hl. unfold piperead_loop.
  assert (forall (r : Z) k, at_cpu (Some p) x (n + 1) L k ->
    pwlp (off_cpu p) (release (LkPipe pi) ;;; ret r) (fun _ k' => at_cpu (Some p) x n L k') k) as Hend.
  { clear k Hk. intros r k Hk. apply wlp_bind. eapply wlp_release_pipe; [exact Hk|lia|lia|]. intros k1 H1. apply wlp_ret.
    by replace (n + 1 - 1) with n in H1 by lia. }
  do 2 (eapply wlp_keep; [|exact Hk|]; [pres|]; clear k Hk; intros ? k Hk). destruct (_ =? _).
  - do 2 (eapply wlp_keep; [|exact Hk|]; [pres|]; clear k Hk; intros ? k Hk). destruct (negb _); [by apply Hend|].
    eapply wlp_keep; [|exact Hk|]; [pres|]. clear k Hk. intros wo k Hk. destruct (wo =? 0); [by apply Hend|].
    eapply wlp_keep; [|exact Hk|]; [pres|]. clear k Hk. intros _ k Hk. eapply wlp_sleep_pipe; [exact Hk|lia|lia].
  - eapply (wlp_loop _ _ _ (fun _ k' => at_cpu (Some p) x (n + 1) L k')); [|exact Hk]. clear k Hk. intros j k Hk.
    unfold piperead_body. do 2 (eapply wlp_keep; [|exact Hk|]; [pres|]; clear k Hk; intros ? k Hk). destruct (negb _).
    { eapply wlp_keep; [|exact Hk|]; [pres|]. intros _ k1 H1. by eapply wlp_pipe_return. }
    do 2 (eapply wlp_keep; [|exact Hk|]; [pres|]; clear k Hk; intros ? k Hk). cbv zeta.
    eapply wlp_keep; [|exact Hk|]; [pres|]. clear k Hk. intros pte k Hk. destruct (pte =? 0); [by eapply wlp_pipe_return|].
    eapply wlp_keep; [|exact Hk|]; [pres|]. clear k Hk. intros v k Hk. destruct (negb _); [by eapply wlp_pipe_return|].
    do 3 (eapply wlp_keep; [|exact Hk|]; [pres|]; clear k Hk; intros ? k Hk). by apply wlp_ret.
Qed.
Lemma steady_piperead pi addr m : steady (piperead (D := D) pi addr m).
Proof.
  intros p x n L Hx Hn k Hk. unfold piperead. apply wlp_bind. eapply wlp_acquire_pipe; [exact Hk|lia|].
  intros k1 H1. apply wlp_piperead_loop; [done|done|lia|apply (ac_len _ _ _ _ _ Hk)].
Qed.
Lemma steady_pipeclose pi w : steady (pipeclose (D := D) pi w).
Proof.
  intros p x n L Hx Hn k Hk. pose proof (ac_len _ _ _ _ _ Hk) as Hl. unfold pipeclose. apply wlp_bind.
  eapply wlp_acquire_pipe; [exact Hk|lia|]. clear k Hk. intros k Hk.
  do 3 (eapply wlp_keep; [|exact Hk|]; [pres|]; clear k Hk; intros ? k Hk). destruct (_ && _).
  - apply wlp_bind. eapply wlp_release_pipe; [exact Hk|lia|lia|]. intros k1 H1. replace (n + 1 - 1) with n in H1 by lia.
    by apply pres_lmem; [nosleep|].
  - eapply wlp_release_pipe; [exact Hk|lia|lia|]. intros k1 H1. by replace (n + 1 - 1) with n in H1 by lia.
Qed.
End procs.
#[export] Hint Resolve steady_pipewrite steady_piperead steady_pipeclose : steady.
