(* ===== verification/LockCalls.v ===== *)
(** Every system call returns with the locks and the nesting depth it was called
    with, or gives up the CPU holding the process's own lock only. *)

From S2P Require Import Prelude Memory Kalloc Vm Str Bio Fs Kernel Spinlock Proc Pipe File Logic NoSleep LockInv.
From S2P Require Import Path Console Syscall Sysfile Sysproc Exec Trap.

Section calls.
Context `{Image} {D : Type} `{BlockDev D}.
Implicit Types k : kernel D.

(* ------------------------------------------------------------------ *)
(** ** The console *)

Ltac evenly := intros ? ? ? ? ? ? ?; pres.
Lemma evenly_consput_all l : evenly (consput_all (D := D) l).
Proof. intros c x n L J Hx Hn. induction l; pres. Qed.
Lemma evenly_printint v b g : evenly (printint (D := D) v b g).
Proof. apply evenly_consput_all. Qed.
#[local] Hint Resolve evenly_consput_all evenly_printint : steady evenly.
Lemma evenly_printf_conv lg c ap (kk : list varg -> M (kernel D) unit) :
  (forall ap, evenly (kk ap)) -> evenly (printf_conv lg c ap kk).
Proof. intros Hk p x n L J Hx Hn. unfold printf_conv. pres; by apply Hk. Qed.
Lemma evenly_printf_loop fmt ap : evenly (printf_loop (D := D) fmt ap).
Proof.
  revert ap. induction fmt as [fmt IH] using (well_founded_induction (well_founded_ltof _ length)).
  intros ap p x n L J Hx Hn. destruct fmt as [|c [|c1 [|c2 fmt]]]; cbn [printf_loop]; pres;
    try (apply IH; [unfold ltof; cbn; lia|done|done]);
    apply evenly_printf_conv; try done; intros; apply IH; unfold ltof; cbn; lia.
Qed.
#[local] Hint Resolve evenly_printf_loop : steady evenly.
Lemma evenly_printf fmt ap : evenly (Console.printf (D := D) fmt ap).
Proof. evenly. Qed.
Lemma steady_console_print_all l : steady (console_print_all (D := D) l).
Proof. intros p x n L Hx Hn. induction l; pres. Qed.
#[local] Hint Resolve evenly_printf steady_console_print_all : steady evenly.

Lemma evenly_cons_kill i : evenly (cons_kill (D := D) i).
Proof.
  intros c x n L J Hx Hn k Hk. unfold cons_kill. apply steady_section; [done|lia|]. intros _.
  apply preserves_bind; [pres|]. intros y. apply preserves_when, preserves_bind; [pres|]. intros _ k1 H1.
  apply wlp_bind, wlp_getp. intros z Hz. case_bool_decide as Hs; [|by apply wlp_ret]. cbn [when].
  eapply wlp_setp; [exact H1|by intros []| |done]. intros w Hw. right.
  destruct (decide (c = Some i)) as [->|Hne]; [|left; split; [congruence|by destruct w]].
  destruct (ac_own _ _ _ _ _ H1 i z Hz eq_refl) as [E|E]; [congruence|]. destruct Hx; congruence.
Qed.
#[local] Hint Resolve evenly_cons_kill : steady evenly.
Lemma evenly_consoleintr c : evenly (consoleintr (D := D) c).
Proof. evenly. Qed.

(* ------------------------------------------------------------------ *)
(** ** Calls that take no process lock of their own *)

Lemma steady_argraw m : steady (argraw (D := D) m).
Proof. steady. Qed.
Lemma steady_fd_file fd : steady (fd_file (D := D) fd).
Proof. steady. Qed.
Lemma steady_fetchstr dst a max : steady (fetchstr (D := D) dst a max).
Proof. steady. Qed.
Lemma steady_user_byte q a : steady (user_byte (D := D) q a).
Proof. steady. Qed.
#[local] Hint Resolve steady_argraw steady_fd_file steady_fetchstr steady_user_byte : steady.
Lemma steady_write_fetch q m a : steady (write_fetch (D := D) q m a).
Proof. intros p x n L Hx Hn. revert a. induction m; intros a; pres. Qed.
Lemma steady_pipe_put_fds q src a : steady (pipe_put_fds (D := D) q src a).
Proof. intros p x n L Hx Hn. revert a. induction src; intros dst; pres. Qed.
Lemma steady_push_strings pt b l sp u : steady (push_strings (D := D) pt b l sp u).
Proof. intros p x n L Hx Hn. revert sp u. induction l; intros sp u; pres. Qed.
#[local] Hint Resolve steady_write_fetch steady_pipe_put_fds steady_push_strings : steady.
Lemma steady_filealloc : steady (filealloc (D := D)).
Proof. steady. Qed.
Lemma steady_filedup f : steady (filedup (D := D) f).
Proof. steady. Qed.
Lemma steady_fileclose f : steady (fileclose (D := D) f).
Proof. steady. Qed.
Lemma steady_fdalloc f : steady (fdalloc (D := D) f).
Proof. steady. Qed.
#[local] Hint Resolve steady_filealloc steady_filedup steady_fileclose steady_fdalloc : steady.

Lemma steady_sys_getpid : steady (sys_getpid (D := D)).
Proof. steady. Qed.
Lemma steady_sys_sbrk : steady (sys_sbrk (D := D)).
Proof. steady. Qed.
Lemma steady_sys_read : steady (sys_read (D := D)).
Proof. steady. Qed.
Lemma steady_sys_write : steady (sys_write (D := D)).
Proof. steady. Qed.
Lemma steady_sys_fstat : steady (sys_fstat (D := D)).
Proof. steady. Qed.
Lemma steady_sys_mkdir : steady (sys_mkdir (D := D)).
Proof. steady. Qed.
Lemma steady_sys_chdir : steady (sys_chdir (D := D)).
Proof. steady. Qed.
Lemma steady_sys_unlink : steady (sys_unlink (D := D)).
Proof. steady. Qed.
Lemma steady_sys_lseek : steady (sys_lseek (D := D)).
Proof. steady. Qed.
Lemma steady_sys_ftruncate : steady (sys_ftruncate (D := D)).
Proof. steady. Qed.
Lemma steady_sys_ioctl : steady (sys_ioctl (D := D)).
Proof. steady. Qed.
Lemma steady_sys_rename : steady (sys_rename (D := D)).
Proof. steady. Qed.
Lemma steady_sys_getcwd : steady (sys_getcwd (D := D)).
Proof. steady. Qed.
Lemma steady_sys_exec : steady (sys_exec (D := D)).
Proof. steady. Qed.
Lemma steady_sys_open : steady (sys_open (D := D)).
Proof. steady. Qed.
Lemma steady_sys_close : steady (sys_close (D := D)).
Proof. steady. Qed.
Lemma steady_sys_dup : steady (sys_dup (D := D)).
Proof. steady. Qed.
Lemma steady_sys_dup2 : steady (sys_dup2 (D := D)).
Proof. steady. Qed.
Lemma steady_sys_fcntl : steady (sys_fcntl (D := D)).
Proof. steady. Qed.
Lemma steady_sys_pipe : steady (sys_pipe (D := D)).
Proof. steady. Qed.
#[local] Hint Resolve steady_sys_getpid steady_sys_sbrk steady_sys_read steady_sys_write steady_sys_fstat
  steady_sys_mkdir steady_sys_chdir steady_sys_unlink steady_sys_lseek steady_sys_ftruncate steady_sys_ioctl
  steady_sys_rename steady_sys_getcwd steady_sys_exec steady_sys_open steady_sys_close steady_sys_dup
  steady_sys_dup2 steady_sys_fcntl steady_sys_pipe : steady.

(* ------------------------------------------------------------------ *)
(** ** fork, exit and wait *)

Lemma pres_fork_status np st p x n L :
  p <> np -> st <> TASK_RUNNING -> n < 50 ->
  preserves (at_cpu (D := D) (Some p) x n L) (off_cpu p) (fork_status np st).
Proof.
  intros Hne Hst Hn k Hk. unfold fork_status. apply steady_section; [done|lia|]. intros _.
  apply pres_setp_other; [congruence|steady_side|by intros []].
Qed.
#[local] Hint Extern 1 (preserves _ _ (fork_status _ _)) => apply pres_fork_status; [done|done|lia] : preserves.

Lemma steady_fork_dup q np i : steady (fork_dup (D := D) q np i).
Proof. steady. Qed.
#[local] Hint Resolve steady_fork_dup : steady.
Lemma pres_sys_fork p x L : proper x -> preserves (at_cpu (D := D) (Some p) x 0 L) (off_cpu p) sys_fork.
Proof.
  intros Hx k Hk. unfold sys_fork. eapply wlp_keep; [|exact Hk|]; [pres|]. clear k Hk. intros q k Hk.
  apply wlp_bind. eapply wlp_mono; [apply wlp_allocproc; [done|exact Hk|lia]|].
  intros [np|] k1 [Hne H1]; [|by apply wlp_ret]. specialize (Hne np eq_refl).
  eapply (preserves_bind _ _ (lmem kalloc)); [pres| |exact H1]. pres.
Qed.

Lemma at_proc_exit A st p x L (Q : A -> kernel D -> Prop) k :
  at_cpu (Some p) x 0 L k -> pwlp (off_cpu p) (proc_exit st) Q k.
Proof.
  intros Hk. unfold proc_exit, myproc. apply wlp_bind. unfold pwlp at 1. rewrite (ac_cur _ _ _ _ _ Hk).
  apply wlp_bind. eapply wlp_mono; [apply pres_setp; [steady_side|steady_side|exact Hk]|]. clear k Hk. intros [] k Hk.
  apply wlp_bind. eapply (wlp_setp_own _ p _ TASK_ZOMBIE); [exact Hk|by intros []|by intros []|]. clear k Hk. intros k Hk.
  assert (proper TASK_ZOMBIE) as Hz by (by right).
  eapply wlp_keep; [|exact Hk|]; [unfold exit_close; pres|]. clear k Hk. intros _ k Hk.
  do 2 (eapply wlp_keep; [|exact Hk|]; [pres|]; clear k Hk; intros ? k Hk).
  apply wlp_bind. eapply wlp_acquire; [exact Hk|lia|]. clear k Hk. intros k _ Hk.
  by eapply wlp_sched_swtch.
Qed.

(** The scan of [wait] holds the parent's lock [p] and takes each child's; a child
    cannot be the process itself, whose lock is taken. *)
Lemma wlp_wait_scan addr son m hk p x n L k :
  proper x -> at_cpu (Some p) x (n + 1) (p :: L) k -> n < 40 ->
  pwlp (off_cpu p) (wait_scan p addr son m hk) (fun r k' =>
    match r with
    | inl _ => at_cpu (Some p) x n L k'
    | inr _ => at_cpu (Some p) x (n + 1) (p :: L) k'
    end) k.
Proof.
  intros Hx Hk Hn. revert son hk k Hk. induction m as [|m IH]; intros son hk k Hk; cbn [wait_scan]; [by apply wlp_ret|].
  eapply wlp_keep; [|exact Hk|]; [pres|]. clear k Hk. intros y k Hk. destruct (bool_decide _); [|by apply IH].
  apply wlp_bind. eapply wlp_acquire; [exact Hk|lia|]. clear k Hk. intros k Hson Hk.
  assert (p <> son) as Hne by (intros <-; apply Hson; left).
  eapply wlp_keep; [|exact Hk|]; [pres|]. clear k Hk. intros z k Hk. destruct (bool_decide _).
  - do 2 (eapply wlp_keep; [|exact Hk|]; [pres|]; clear k Hk; intros ? k Hk).
    assert (forall (r : Z) k, at_cpu (Some p) x (n + 1 + 1) (son :: p :: L) k ->
      pwlp (off_cpu p) (release (LkProc son) ;;; release (LkProc p) ;;; ret (inl (B := bool) r))
        (fun r k' => match r with
           | inl _ => at_cpu (Some p) x n L k'
           | inr _ => at_cpu (Some p) x (n + 1) (p :: L) k'
           end) k) as Hend.
    { clear k Hk. intros r k Hk. apply wlp_bind. eapply wlp_release; [exact Hk|lia|]. clear k Hk. intros k Hk.
      apply wlp_bind. eapply wlp_release; [exact Hk|lia|]. clear k Hk. intros k Hk. apply wlp_ret.
      by replace (n + 1 + 1 - 1 - 1) with n in Hk by lia. }
    destruct a0; [by apply Hend|].
    do 6 (eapply wlp_keep; [|exact Hk|]; [pres|]; clear k Hk; intros ? k Hk). by apply Hend.
  - apply wlp_bind. eapply wlp_release; [exact Hk|lia|]. clear k Hk. intros k Hk.
    replace (n + 1 + 1 - 1) with (n + 1) in Hk by lia. by apply IH.
Qed.
Lemma wlp_wait_round addr p x n L k :
  proper x -> at_cpu (Some p) x (n + 1) (p :: L) k -> n < 40 ->
  pwlp (off_cpu p) (wait_round addr) (fun _ k' => at_cpu (Some p) x n L k') k.
Proof.
  intros Hx Hk Hn. unfold wait_round, myproc. apply wlp_bind. unfold pwlp at 1. rewrite (ac_cur _ _ _ _ _ Hk).
  apply wlp_bind. eapply wlp_mono; [by apply wlp_wait_scan|]. intros [v|hk'] k1 H1; [by apply wlp_ret|].
  eapply wlp_keep; [|exact H1|]; [pres|]. clear dependent k. clear k1 H1. intros y k Hk. destruct (_ || _).
  - apply wlp_bind. eapply wlp_release; [exact Hk|lia|]. clear k Hk. intros k Hk. apply wlp_ret.
    by replace (n + 1 - 1) with n in Hk by lia.
  - by eapply wlp_sleep_own.
Qed.
Lemma pres_sys_wait p x L : proper x -> preserves (at_cpu (D := D) (Some p) x 0 L) (off_cpu p) sys_wait.
Proof.
  intros Hx k Hk. unfold sys_wait, myproc. apply wlp_bind. unfold pwlp at 1. rewrite (ac_cur _ _ _ _ _ Hk).
  eapply wlp_keep; [|exact Hk|]; [unfold argaddr; pres|]. clear k Hk. intros addr k Hk.
  apply wlp_bind. eapply wlp_acquire; [exact Hk|lia|]. clear k Hk. intros k _ Hk. by apply wlp_wait_round.
Qed.

(* ------------------------------------------------------------------ *)
(** ** Going on, with the process's lock held *)

Lemma resume_cons_read f i m a p x n L k :
  proper x -> at_cpu (Some p) x (n + 1) (p :: L) k -> n < 40 ->
  pwlp (off_cpu p) (cons_read_resume f i m a) (fun _ k' => at_cpu (Some p) x n L k') k.
Proof.
  intros Hx Hk Hn. unfold cons_read_resume. apply wlp_bind. eapply wlp_yield_resume; [exact Hk|lia|].
  clear k Hk. intros k Hk. replace (n + 1 - 1) with n in Hk by lia. rest Hk.
Qed.
Lemma resume_piperead pi a m p x n L k :
  proper x -> at_cpu (Some p) x (n + 1) (p :: L) k -> n < 40 ->
  pwlp (off_cpu p) (piperead_resume pi a m) (fun _ k' => at_cpu (Some p) x n L k') k.
Proof.
  intros Hx Hk Hn. pose proof (ac_len _ _ _ _ _ Hk) as Hl. cbn in Hl.
  unfold piperead_resume. apply wlp_bind. eapply wlp_resume_pipe; [exact Hk|lia|]. clear k Hk. intros k Hk.
  do 2 (eapply wlp_keep; [|exact Hk|]; [pres|]; clear k Hk; intros ? k Hk). destruct (negb _).
  - apply wlp_bind. eapply wlp_release_pipe; [exact Hk|lia|lia|]. clear k Hk. intros k Hk. apply wlp_ret.
    by replace (n + 1 - 1) with n in Hk by lia.
  - apply wlp_piperead_loop; [done|done|lia|lia].
Qed.
Lemma resume_pipewrite kk pi buf m i p x n L k :
  proper x -> at_cpu (Some p) x (n + 1) (p :: L) k -> n < 40 ->
  pwlp (off_cpu p) (pipewrite_resume kk pi buf m i) (fun _ k' => at_cpu (Some p) x n L k') k.
Proof.
  intros Hx Hk Hn. pose proof (ac_len _ _ _ _ _ Hk) as Hl. cbn in Hl.
  unfold pipewrite_resume. apply wlp_bind. eapply wlp_resume_pipe; [exact Hk|lia|]. clear k Hk. intros k Hk.
  do 2 (eapply wlp_keep; [|exact Hk|]; [pres|]; clear k Hk; intros ? k Hk). destruct (negb _).
  - apply wlp_bind. eapply wlp_release_pipe; [exact Hk|lia|lia|]. clear k Hk. intros k Hk. apply wlp_ret.
    by replace (n + 1 - 1) with n in Hk by lia.
  - apply wlp_pipewrite_loop; [done|done|lia|lia].
Qed.
Lemma resume_write f a t l b i p x n L k :
  proper x -> at_cpu (Some p) x (n + 1) (p :: L) k -> n < 40 ->
  pwlp (off_cpu p) (write_resume f a t l b i) (fun _ k' => at_cpu (Some p) x n L k') k.
Proof.
  intros Hx Hk Hn. unfold write_resume. cbv zeta. eapply wlp_keep; [|exact Hk|]; [pres|]. clear k Hk. intros fx k Hk.
  apply wlp_bind. eapply wlp_mono; [by apply resume_pipewrite|]. intros r k1 H1. rest H1.
Qed.
Lemma resume_wait a p x n L k :
  proper x -> at_cpu (Some p) x (n + 1) (p :: L) k -> n < 40 ->
  pwlp (off_cpu p) (wait_resume a) (fun _ k' => at_cpu (Some p) x n L k') k.
Proof.
  intros Hx Hk Hn. unfold wait_resume, sleep_resume, myproc. apply wlp_bind. unfold pwlp at 1.
  rewrite (ac_cur _ _ _ _ _ Hk). apply wlp_bind, wlp_bind. unfold pwlp at 1. rewrite (ac_cur _ _ _ _ _ Hk).
  eapply wlp_keep; [|exact Hk|]; [apply pres_setp; steady_side|]. clear k Hk. intros _ k Hk.
  rewrite bool_decide_true by done. cbn [negb when]. apply wlp_ret. by apply wlp_wait_round.
Qed.

(* ------------------------------------------------------------------ *)
(** ** The system call table *)

Lemma pres_syscalls num m p :
  syscalls (D := D) num = Some m -> preserves (at_cpu (Some p) TASK_RUNNING 0 []) (off_cpu p) m.
Proof.
  assert (proper TASK_RUNNING) as Hx by (by left). unfold syscalls. intros Hm.
  repeat (destruct (num =? _) in Hm;
    [injection Hm as <-;
     first [ by apply pres_sys_fork | by apply pres_sys_wait
           | unfold sys_exit; apply preserves_bind; [unfold argint; pres|]; intros st k Hk; by eapply at_proc_exit
           | pres ]|]).
  done.
Qed.
Lemma pres_syscall p : preserves (at_cpu (D := D) (Some p) TASK_RUNNING 0 []) (off_cpu p) syscall.
Proof.
  assert (proper TASK_RUNNING) as Hx by (by left). unfold syscall.
  apply preserves_bind; [pres|]. intros q. apply preserves_bind; [pres|]. intros a7. cbv zeta.
  destruct (_ && _); [|pres]. destruct (syscalls _) as [m|] eqn:Hm; [|pres].
  apply preserves_bind; [by apply (pres_syscalls _ _ p Hm)|]. intros r. pres.
Qed.
End calls.
#[export] Hint Resolve evenly_printf evenly_consoleintr : steady evenly.
