(* ===== verification/FdInv.v ===== *)
(** Descriptors and reference counts: the part of the kernel's state they live
    in, a judgement for the code that leaves it alone, and one for the code that
    takes or drops a reference. *)

From S2P Require Import Prelude Memory Kalloc Vm Str Bio Fs Kernel Spinlock Proc Pipe File Logic NoSleep.

(* ------------------------------------------------------------------ *)
(** ** The tables the descriptors live in *)

Section view.
Context `{Image} {D : Type} `{BlockDev D}.
Implicit Types s : kernel D.

(** The descriptor tables of all processes, and the reference counts. *)
Definition ofiles s : list (list (option nat)) := p_ofile <$> k_procs s.
Definition refs s : list Z := f_ref <$> k_ftable s.

(** An entry of the process table no program runs in. *)
Definition dead (x : proc) : Prop :=
  p_status x = TASK_FREE \/ p_status x = TASK_ALLOCATED \/ p_status x = TASK_ZOMBIE.

(** Steps that change neither: at most an entry stops being dead. *)
Record quiet s s' : Prop := {
  qt_of : ofiles s' = ofiles s;
  qt_refs : refs s' = refs s;
  qt_cur : c_proc (k_cpu s') = c_proc (k_cpu s);
  qt_dead : forall i x', k_procs s' !! i = Some x' -> dead x' ->
    exists x, k_procs s !! i = Some x /\ dead x;
}.
#[global] Instance quiet_preorder : PreOrder quiet.
Proof.
  split.
  - intros s. split; eauto.
  - intros s1 s2 s3 [E1 E2 E3 E4] [F1 F2 F3 F4]. split; [congruence..|].
    intros i x Hx Hd. destruct (F4 i x Hx Hd) as (y & Hy & Hdy). eauto.
Qed.

Lemma quiet_same s : quiet s s.
Proof. reflexivity. Qed.

(** The code that keeps them, whether it returns or gives up the CPU. *)
Definition keeps {A} (m : M (kernel D) A) : Prop :=
  forall s, match m s with Ok _ s' | Sleep _ s' => quiet s s' | Stop _ => True end.

Lemma keeps_bind {A B} (m : M (kernel D) A) (k : A -> M (kernel D) B) :
  keeps m -> (forall a, keeps (k a)) -> keeps (bind m k).
Proof.
  intros Hm Hk s. unfold bind. specialize (Hm s). destruct (m s) as [a s1|c s1|e]; [|done|done].
  specialize (Hk a s1). destruct (k a s1); [by transitivity s1|by transitivity s1|done].
Qed.
Lemma keeps_ret {A} (a : A) : keeps (ret a).
Proof. intros s. exact (quiet_same s). Qed.
Lemma keeps_stop {A} e : keeps (stop_with (A := A) e).
Proof. done. Qed.
Lemma keeps_get : keeps get.
Proof. intros s. exact (quiet_same s). Qed.
Lemma keeps_gets {A} (f : kernel D -> A) : keeps (gets f).
Proof. intros s. exact (quiet_same s). Qed.
Lemma keeps_loop {X R} fuel (body : X -> M (kernel D) (X + R)) x :
  (forall x, keeps (body x)) -> keeps (loop fuel body x).
Proof.
  intros Hb. revert x. induction fuel as [|fuel IH]; intros x; [done|].
  apply keeps_bind; [done|]. intros [x'|r]; [apply IH|apply keeps_ret].
Qed.
Lemma keeps_for_range i n (body : nat -> M (kernel D) unit) :
  (forall i, keeps (body i)) -> keeps (for_range i n body).
Proof.
  intros Hb. revert i. induction n as [|n IH]; intros i; [apply keeps_ret|]. by apply keeps_bind.
Qed.
Lemma keeps_when b (m : M (kernel D) unit) : keeps m -> keeps (when b m).
Proof. destruct b; [done|]. intros _. apply keeps_ret. Qed.

(** A new file-system state, console or CPU that runs the same process. *)
Lemma keeps_zoom_fs {T A} (pi : kernel D -> T) upd (m : M T A) :
  (forall t s, exists f, upd t s = kernel_set_fs f s) -> keeps (zoom pi upd m).
Proof.
  intros Hu s. unfold zoom. destruct (m (pi s)) as [a t|c t|e]; [| |done];
    destruct (Hu t s) as [f ->]; split; eauto.
Qed.
Lemma keeps_lmem {A} (m : M kmem A) : keeps (lmem m).
Proof. apply keeps_zoom_fs. intros. by eexists. Qed.
Lemma keeps_setcons f : keeps (setcons f).
Proof. intros s. cbn. split; eauto. Qed.
Lemma keeps_setcpu f : (forall c, c_proc (f c) = c_proc c) -> keeps (setcpu f).
Proof. intros Hf s. cbn. split; try done; [apply Hf|eauto]. Qed.
Lemma keeps_getp i : keeps (getp i).
Proof. intros s. unfold getp. destruct (_ !! i); done. Qed.
Lemma keeps_getf i : keeps (getf i).
Proof. intros s. unfold getf. destruct (_ !! i); done. Qed.
Lemma keeps_myproc : keeps myproc.
Proof. intros s. unfold myproc. destruct (c_proc _); done. Qed.

Lemma quiet_setp s i x f :
  k_procs s !! i = Some x -> p_ofile (f x) = p_ofile x -> (dead (f x) -> dead x) ->
  quiet s (kernel_set_procs (<[i := f x]> (k_procs s)) s).
Proof.
  intros Hx Ho Hd. split; [|done|done|].
  - unfold ofiles. cbn. rewrite list_fmap_insert. apply list_insert_id.
    by rewrite list_lookup_fmap, Hx, Ho.
  - cbn. intros j y Hy Hdy. destruct (decide (i = j)) as [<-|Hne].
    + rewrite list_lookup_insert_eq in Hy by (by eapply lookup_lt_Some). injection Hy as <-. eauto.
    + rewrite list_lookup_insert_ne in Hy by done. eauto.
Qed.
Lemma keeps_setp i f :
  (forall x, p_ofile (f x) = p_ofile x) -> (forall x, dead (f x) -> dead x) -> keeps (setp i f).
Proof.
  intros Ho Hd s. unfold setp. destruct (k_procs s !! i) as [x|] eqn:Hx; [|done].
  apply quiet_setp; auto.
Qed.
Lemma quiet_setf s i x f :
  k_ftable s !! i = Some x -> f_ref (f x) = f_ref x ->
  quiet s (kernel_set_ftable (<[i := f x]> (k_ftable s)) s).
Proof.
  intros Hx Ho. split; [done| |done|eauto]. unfold refs. cbn. rewrite list_fmap_insert.
  apply list_insert_id. by rewrite list_lookup_fmap, Hx, Ho.
Qed.
Lemma keeps_setf i f : (forall x, f_ref (f x) = f_ref x) -> keeps (setf i f).
Proof.
  intros Ho s. unfold setf. destruct (k_ftable s !! i) as [x|] eqn:Hx; [|done].
  apply quiet_setf; auto.
Qed.
Lemma keeps_sleep {A} (f : kernel D -> Z) : keeps (A := A) (fun s => Sleep (f s) s).
Proof. intros s. exact (quiet_same s). Qed.
End view.

Create HintDb keeps discriminated.
#[export] Hint Resolve keeps_ret keeps_stop keeps_get keeps_gets keeps_lmem keeps_setcons keeps_getp
  keeps_getf keeps_myproc keeps_sleep : keeps.

(** Side conditions on the updates of an entry. *)
Ltac keeps_side :=
  solve [ intros []; reflexivity
        | intros []; intros Hd; exact Hd
        | intros [] [Hd|[Hd|Hd]]; discriminate Hd ].
Ltac keeps_step :=
  lazymatch goal with
  | |- forall _, _ => intro
  | |- keeps (bind _ _) => apply keeps_bind
  | |- keeps (loop _ _ _) => apply keeps_loop
  | |- keeps (for_range _ _ _) => apply keeps_for_range
  | |- keeps (when _ _) => apply keeps_when
  | |- keeps (match ?x with _ => _ end) => destruct x
  | |- keeps (let _ := _ in _) => cbv zeta
  | |- keeps (setp _ _) => apply keeps_setp; keeps_side
  | |- keeps (setf _ _) => apply keeps_setf; keeps_side
  | |- keeps (setcpu _) => apply keeps_setcpu; keeps_side
  | |- keeps ?m => first [solve [auto with keeps nocore] | let h := head_of m in unfold h]
  end.
Ltac keeps := repeat keeps_step.

Section keeps_ops.
Context `{Image} {D : Type} `{BlockDev D}.

Lemma keeps_lfs {A} (m : M (fs D) A) : keeps (lfs m).
Proof.
  unfold lfs. apply keeps_bind; [apply keeps_get|]. intros s0. apply keeps_bind.
  - apply keeps_zoom_fs. intros. by eexists.
  - intros a. unfold after_io. keeps.
Qed.
Lemma keeps_acquire lk : keeps (acquire (D := D) lk).
Proof. keeps. Qed.
Lemma keeps_release lk : keeps (release (D := D) lk).
Proof. keeps. Qed.
End keeps_ops.
#[export] Hint Resolve keeps_lfs keeps_acquire keeps_release : keeps.
Section keeps_ops2.
Context `{Image} {D : Type} `{BlockDev D}.
Lemma keeps_wakeup ch : keeps (wakeup (D := D) ch).
Proof. keeps. Qed.
Lemma keeps_sched : keeps (sched (D := D)).
Proof. keeps. Qed.
Lemma keeps_swtch A p k : keeps (swtch (D := D) (A := A) p k).
Proof. keeps. Qed.
#[local] Hint Resolve keeps_wakeup keeps_sched keeps_swtch : keeps.
Lemma keeps_run_all (l : list (M (kernel D) unit)) : Forall (fun m => keeps m) l -> keeps (run_all l).
Proof. induction 1 as [|m l Hm Hl IH]; cbn [run_all]; [keeps|]. apply keeps_bind; [done|]. by intros []. Qed.
Lemma keeps_sleep_call A ch lk k : keeps (sleep (D := D) (A := A) ch lk k).
Proof.
  unfold sleep. apply keeps_bind; [keeps|]. intros p. apply keeps_bind; [|intros []; keeps].
  apply keeps_run_all, Forall_app. split; [destruct (decide _)|]; repeat constructor; keeps.
Qed.
Lemma keeps_yield A k : keeps (yield (D := D) (A := A) k).
Proof. keeps. Qed.
#[local] Hint Resolve keeps_sleep_call keeps_yield : keeps.
Lemma keeps_pipewrite k pi buf n : keeps (pipewrite (D := D) k pi buf n).
Proof. keeps. Qed.
Lemma keeps_pipeclose pi w : keeps (pipeclose (D := D) pi w).
Proof. keeps. Qed.
Lemma keeps_piperead_loop pi addr n : keeps (piperead_loop (D := D) pi addr n).
Proof. keeps. Qed.
Lemma keeps_fileread f n buf : keeps (fileread (D := D) f n buf).
Proof. keeps. Qed.
Lemma keeps_filewrite f src : keeps (filewrite (D := D) f src).
Proof. keeps. Qed.
Lemma keeps_filestat f addr : keeps (filestat (D := D) f addr).
Proof. keeps. Qed.
End keeps_ops2.
#[export] Hint Resolve keeps_wakeup keeps_sched keeps_swtch keeps_sleep_call keeps_yield keeps_pipewrite
  keeps_pipeclose keeps_piperead_loop keeps_fileread keeps_filewrite keeps_filestat : keeps.

(* ------------------------------------------------------------------ *)
(** ** Counting the descriptors of a file *)

Definition hits (f : nat) (o : option nat) : Z := if decide (o = Some f) then 1 else 0.
Definition fd_count (f : nat) (P : list (list (option nat))) : nat :=
  length (filter (fun o => o = Some f) (mjoin P)).

Lemma join_cons {A} (l : list A) P : mjoin (l :: P) = l ++ mjoin P.
Proof. done. Qed.
Lemma length_filter_cons f o (l : list (option nat)) :
  Z.of_nat (length (filter (fun o => o = Some f) (o :: l))) =
  hits f o + Z.of_nat (length (filter (fun o => o = Some f) l)).
Proof.
  unfold hits. case_decide.
  - rewrite filter_cons_True by done. cbn. lia.
  - by rewrite filter_cons_False.
Qed.
Lemma length_filter_insert f j o o' (l : list (option nat)) :
  l !! j = Some o ->
  Z.of_nat (length (filter (fun o => o = Some f) (<[j := o']> l))) =
  Z.of_nat (length (filter (fun o => o = Some f) l)) - hits f o + hits f o'.
Proof.
  intros Hj. rewrite <- (take_drop_middle _ _ _ Hj) at 2.
  rewrite insert_take_drop by (by eapply lookup_lt_Some).
  rewrite !filter_app, !length_app, !Nat2Z.inj_add, !length_filter_cons. lia.
Qed.
Lemma fd_count_insert f i j l o o' (P : list (list (option nat))) :
  P !! i = Some l -> l !! j = Some o ->
  Z.of_nat (fd_count f (<[i := <[j := o']> l]> P)) =
  Z.of_nat (fd_count f P) - hits f o + hits f o'.
Proof.
  intros Hi Hj. unfold fd_count. rewrite <- (take_drop_middle _ _ _ Hi) at 2.
  rewrite insert_take_drop by (by eapply lookup_lt_Some).
  rewrite !join_app, !join_cons, !filter_app, !length_app, !Nat2Z.inj_add.
  rewrite (length_filter_insert f j o o' l Hj). lia.
Qed.
Lemma fd_count_pos f i j l (P : list (list (option nat))) :
  P !! i = Some l -> l !! j = Some (Some f) -> (0 < fd_count f P)%nat.
Proof.
  intros Hi Hj. unfold fd_count. destruct (filter _ _) as [|o r] eqn:E; [|cbn; lia].
  assert (Some f ∈ filter (fun o => o = Some f) (mjoin P)) as Hin.
  { apply list_elem_of_filter. split; [done|]. apply list_elem_of_join. exists l.
    split; by eapply list_elem_of_lookup_2. }
  rewrite E in Hin. by apply not_elem_of_nil in Hin.
Qed.
Lemma fd_count_bound f (P : list (list (option nat))) n :
  Forall (fun l => length l = n) P -> (fd_count f P <= length P * n)%nat.
Proof.
  intros HP. unfold fd_count. etransitivity; [apply length_filter|].
  induction HP as [|l P Hl HP IH]; [done|]. rewrite join_cons, length_app. cbn. lia.
Qed.

(* ------------------------------------------------------------------ *)
(** ** The invariant *)

Section inv.
Context `{Image} {D : Type} `{BlockDev D}.
Implicit Types s : kernel D.

(** The reference count of every file is the number of descriptors that refer to
    it, plus the [d] references the running code holds besides; every
    descriptor refers to an entry of the file table; and the entries of the
    process table no program runs in ([X] apart) have no descriptors. *)
Record fdinv (X : option nat) (d : nat -> Z) s : Prop := {
  fi_procs : length (k_procs s) = NPROC;
  fi_len : Forall (fun l => length l = NOFILE) (ofiles s);
  fi_refs : forall f v, refs s !! f = Some v -> v = Z.of_nat (fd_count f (ofiles s)) + d f;
  fi_valid : forall f, (0 < fd_count f (ofiles s))%nat -> (f < length (refs s))%nat;
  fi_clean : forall i x, X <> Some i -> k_procs s !! i = Some x -> dead x ->
    Forall (fun o => o = None) (p_ofile x);
}.
Definition none : nat -> Z := fun _ => 0.
Definition dadd (f : nat) (k : Z) (d : nat -> Z) : nat -> Z :=
  fun g => d g + if decide (f = g) then k else 0.
Definition fd_ok s : Prop := fdinv None none s.
(** The running process is in no dead entry. *)
Definition alive s : Prop :=
  forall p x, c_proc (k_cpu s) = Some p -> k_procs s !! p = Some x -> ~ dead x.

Lemma fdinv_ext X d d' s : (forall f, d f = d' f) -> fdinv X d s -> fdinv X d' s.
Proof.
  intros Hd [? ? Hr ? ?]. split; [done|done| |done|done]. intros f v Hv. rewrite <- Hd. by apply Hr.
Qed.

Lemma quiet_ofile s s' i x' :
  quiet s s' -> k_procs s' !! i = Some x' -> exists x, k_procs s !! i = Some x /\ p_ofile x = p_ofile x'.
Proof.
  intros Hq Hx'. assert (ofiles s' !! i = Some (p_ofile x')) as Ho.
  { unfold ofiles. by rewrite list_lookup_fmap, Hx'. }
  rewrite (qt_of _ _ Hq) in Ho. unfold ofiles in Ho. rewrite list_lookup_fmap in Ho.
  destruct (k_procs s !! i) as [x|]; [|done]. injection Ho as Ho. by exists x.
Qed.

Lemma fdinv_quiet X d s s' : quiet s s' -> fdinv X d s -> fdinv X d s'.
Proof.
  intros Hq [Hp Hl Hr Hv Hc]. split.
  - rewrite <- Hp. pose proof (f_equal length (qt_of _ _ Hq)) as E. unfold ofiles in E.
    by rewrite !length_fmap in E.
  - by rewrite (qt_of _ _ Hq).
  - rewrite (qt_of _ _ Hq), (qt_refs _ _ Hq). done.
  - rewrite (qt_of _ _ Hq), (qt_refs _ _ Hq). done.
  - intros i x' Hx Hi Hd. destruct (quiet_ofile _ _ _ _ Hq Hi) as (x & Hxi & <-).
    destruct (qt_dead _ _ Hq i x' Hi Hd) as (y & Hy & Hdy). simplify_eq. by eapply Hc.
Qed.
Lemma alive_quiet s s' : quiet s s' -> alive s -> alive s'.
Proof.
  intros Hq Ha p x Hp Hx Hd. rewrite (qt_cur _ _ Hq) in Hp.
  destruct (qt_dead _ _ Hq p x Hx Hd) as (y & Hy & Hdy). by apply (Ha p y).
Qed.

Lemma refs_small X d s f v :
  fdinv X d s -> refs s !! f = Some v -> -1000 <= d f <= 1000 -> -1000 <= v <= 3000.
Proof.
  intros Hi Hv Hd. rewrite (fi_refs _ _ _ Hi f v Hv).
  pose proof (fd_count_bound f (ofiles s) NOFILE (fi_len _ _ _ Hi)) as Hb.
  assert (length (ofiles s) = NPROC) as E by (unfold ofiles; rewrite length_fmap; apply (fi_procs _ _ _ Hi)).
  rewrite E in Hb. unfold NPROC, NOFILE in Hb. lia.
Qed.

(** The whole invariant between two calls. *)
Definition fd_run s : Prop := fd_ok s /\ alive s.
End inv.
Abbreviation wlp := (pwlp fd_ok).
Abbreviation maintains := (preserves fd_run fd_ok).

(* ------------------------------------------------------------------ *)
(** ** Code that gives up the CPU with the invariant *)

Section maintain.
Context `{Image} {D : Type} `{BlockDev D}.
Implicit Types s : kernel D.

(** Code that keeps the tables: in a good state it may give up the CPU. *)
Lemma wlp_keeps {A} (m : M (kernel D) A) (Q : A -> kernel D -> Prop) s :
  keeps m -> fd_ok s -> (forall a s', quiet s s' -> Q a s') -> wlp m Q s.
Proof.
  intros Hk Hok HQ. specialize (Hk s). unfold pwlp. destruct (m s) as [a s'|c s'|e]; [by apply HQ| |done].
  by apply (fdinv_quiet _ _ s).
Qed.
Lemma wlp_still {A} (m : M (kernel D) A) (Q : A -> kernel D -> Prop) s :
  keeps m -> nosleep m -> (forall a s', quiet s s' -> Q a s') -> wlp m Q s.
Proof.
  intros Hk Hn HQ. specialize (Hk s). unfold pwlp.
  destruct (m s) as [a s'|c s'|e] eqn:E; [by apply HQ|by apply Hn in E|done].
Qed.

Lemma fd_run_quiet s s' : quiet s s' -> fd_run s -> fd_run s'.
Proof. intros Hq [Hi Ha]. split; [by apply (fdinv_quiet _ _ s)|by apply (alive_quiet s)]. Qed.
Lemma maintains_keeps {A} (m : M (kernel D) A) : keeps m -> maintains m.
Proof.
  intros Hk s Hs. apply wlp_keeps; [done|apply Hs|]. intros _ s' Hq. by apply (fd_run_quiet s).
Qed.
(* ------------------------------------------------------------------ *)
(** ** The operations on the tables *)

Lemma ofiles_lookup s i x : k_procs s !! i = Some x -> ofiles s !! i = Some (p_ofile x).
Proof. intros Hx. unfold ofiles. by rewrite list_lookup_fmap, Hx. Qed.
Lemma ofiles_inv s i l : ofiles s !! i = Some l -> exists x, k_procs s !! i = Some x /\ p_ofile x = l.
Proof.
  unfold ofiles. rewrite list_lookup_fmap. destruct (k_procs s !! i) as [x|]; [|done].
  cbn. intros [= <-]. by exists x.
Qed.

(** What assigning [o] to descriptor [fd] of process [p] leaves. *)
Record assigned (p fd : nat) (o : option nat) s s' : Prop := {
  as_of : ofiles s' = alter (fun l => <[fd := o]> l) p (ofiles s);
  as_refs : refs s' = refs s;
  as_cur : c_proc (k_cpu s') = c_proc (k_cpu s);
  as_dead : forall i x', k_procs s' !! i = Some x' -> dead x' -> exists x, k_procs s !! i = Some x /\ dead x;
}.

Lemma alter_insert {A} (f : A -> A) (l : list A) i x : l !! i = Some x -> alter f i l = <[i := f x]> l.
Proof.
  intros Hx. apply list_eq. intros j. destruct (decide (i = j)) as [<-|Hne].
  - rewrite list_lookup_insert_eq by (by eapply lookup_lt_Some).
    by rewrite list_lookup_alter_eq, Hx.
  - by rewrite list_lookup_insert_ne, list_lookup_alter_ne.
Qed.

Lemma wlp_set_ofile p fd o l Q s :
  ofiles s !! p = Some l ->
  (forall s', assigned p fd o s s' -> Q tt s') -> wlp (set_ofile p fd o) Q s.
Proof.
  intros Hl HQ. destruct (ofiles_inv _ _ _ Hl) as (x & Hx & <-).
  unfold set_ofile, wlp, setp. rewrite Hx. apply HQ. split; [|done|done|].
  - rewrite (alter_insert _ _ _ _ Hl). unfold ofiles. cbn. by rewrite list_fmap_insert.
  - cbn. intros j y Hy Hd. destruct (decide (p = j)) as [<-|Hne].
    + rewrite list_lookup_insert_eq in Hy by (by eapply lookup_lt_Some). injection Hy as <-. eauto.
    + rewrite list_lookup_insert_ne in Hy by done. eauto.
Qed.

(** The reference moves between the table and the code. *)
Lemma fdinv_assigned X d p fd o o' l s s' :
  fdinv X d s -> assigned p fd o' s s' -> ofiles s !! p = Some l -> l !! fd = Some o ->
  (forall f, o' = Some f -> (f < length (refs s))%nat) ->
  (o' = None \/ X = Some p \/ forall x, k_procs s !! p = Some x -> ~ dead x) ->
  fdinv X (fun f => d f + hits f o - hits f o') s'.
Proof.
  intros [Hp Hl Hr Hv Hc] [Eo Er Ec Ed] Hlp Hfd Hvalid Hx.
  rewrite (alter_insert _ _ _ _ Hlp) in Eo. split.
  - rewrite <- Hp. pose proof (f_equal length Eo) as E. rewrite length_insert in E. unfold ofiles in E.
    by rewrite !length_fmap in E.
  - rewrite Eo. apply Forall_insert; [done|]. rewrite length_insert. by apply (Forall_lookup_1 _ _ _ _ Hl Hlp).
  - intros f v Hf. rewrite Er in Hf. rewrite Eo. rewrite (fd_count_insert f p fd l o o') by done.
    rewrite (Hr f v Hf). lia.
  - intros f Hf. rewrite Er. rewrite Eo in Hf. pose proof (fd_count_insert f p fd l o o' _ Hlp Hfd) as E.
    destruct (decide (o' = Some f)) as [->|Hne]; [by apply Hvalid|].
    apply Hv. unfold hits in E. rewrite (decide_False (P := o' = Some f)) in E by done. case_decide; lia.
  - intros i x' Hi Hx' Hd. destruct (Ed i x' Hx' Hd) as (x & Hxi & Hdx).
    pose proof (Hc i x Hi Hxi Hdx) as Hnone. pose proof (ofiles_lookup _ _ _ Hx') as Ho'. rewrite Eo in Ho'.
    destruct (decide (p = i)) as [<-|Hne].
    + rewrite list_lookup_insert_eq in Ho' by (by eapply lookup_lt_Some). injection Ho' as <-.
      pose proof (ofiles_lookup _ _ _ Hxi) as Ho. rewrite Hlp in Ho. injection Ho as ->.
      destruct Hx as [->|[->|Hx]]; [by apply Forall_insert|done|by apply Hx in Hdx].
    + rewrite list_lookup_insert_ne in Ho' by done.
      pose proof (ofiles_lookup _ _ _ Hxi) as Ho. rewrite Ho in Ho'. by injection Ho' as <-.
Qed.

(** The running process and the dead entries. *)
Record calm s s' : Prop := {
  cm_cur : c_proc (k_cpu s') = c_proc (k_cpu s);
  cm_dead : forall i x', k_procs s' !! i = Some x' -> dead x' -> exists x, k_procs s !! i = Some x /\ dead x;
}.
Lemma calm_quiet s s' : quiet s s' -> calm s s'.
Proof. intros [? ? ? ?]. by split. Qed.
Lemma calm_assigned p fd o s s' : assigned p fd o s s' -> calm s s'.
Proof. intros [? ? ? ?]. by split. Qed.
Lemma calm_trans s1 s2 s3 : calm s1 s2 -> calm s2 s3 -> calm s1 s3.
Proof.
  intros [E1 E2] [F1 F2]. split; [congruence|]. intros i x Hx Hd.
  destruct (F2 i x Hx Hd) as (y & Hy & Hdy). eauto.
Qed.
Lemma alive_calm s s' : calm s s' -> alive s -> alive s'.
Proof.
  intros Hq Ha p x Hp Hx Hd. rewrite (cm_cur _ _ Hq) in Hp.
  destruct (cm_dead _ _ Hq p x Hx Hd) as (y & Hy & Hdy). by apply (Ha p y).
Qed.

(** A change of one reference count. *)
Record counted (f : nat) (k : Z) s s' : Prop := {
  ct_of : ofiles s' = ofiles s;
  ct_refs : exists v, refs s !! f = Some v /\ refs s' = <[f := v + k]> (refs s);
  ct_calm : calm s s';
}.
Lemma counted_len f k s s' : counted f k s s' -> length (refs s') = length (refs s).
Proof. intros [_ (v & _ & ->) _]. by rewrite length_insert. Qed.
Lemma counted_valid f k s s' : counted f k s s' -> (f < length (refs s))%nat.
Proof. intros [_ (v & Hv & _) _]. by eapply lookup_lt_Some. Qed.

Lemma fdinv_counted X d f k s s' : fdinv X d s -> counted f k s s' -> fdinv X (dadd f k d) s'.
Proof.
  intros [Hp Hl Hr Hv Hc] [Eo (v & Hf & Er) [_ Ed]]. split.
  - rewrite <- Hp. pose proof (f_equal length Eo) as E. unfold ofiles in E. by rewrite !length_fmap in E.
  - by rewrite Eo.
  - intros g w Hg. rewrite Eo. unfold dadd. rewrite Er in Hg.
    destruct (decide (f = g)) as [<-|Hne].
    + rewrite list_lookup_insert_eq in Hg by (by eapply lookup_lt_Some). injection Hg as <-.
      rewrite (Hr f v Hf). lia.
    + rewrite list_lookup_insert_ne in Hg by done. rewrite (Hr g w Hg). lia.
  - intros g Hg. rewrite Eo in Hg. rewrite Er, length_insert. by apply Hv.
  - intros i x' Hi Hx' Hd. destruct (Ed i x' Hx' Hd) as (x & Hxi & Hdx).
    pose proof (Hc i x Hi Hxi Hdx) as Hnone. pose proof (ofiles_lookup _ _ _ Hx') as Ho'. rewrite Eo in Ho'.
    rewrite (ofiles_lookup _ _ _ Hxi) in Ho'. by injection Ho' as <-.
Qed.

Lemma counted_setf f x v s :
  k_ftable s !! f = Some x ->
  counted f (v - f_ref x) s (kernel_set_ftable (<[f := file_set_ref v x]> (k_ftable s)) s).
Proof.
  intros Hx. split; [done| |split; [done|eauto]]. exists (f_ref x). unfold refs. cbn.
  rewrite list_lookup_fmap, Hx, list_fmap_insert. split; [done|]. f_equal. cbn. lia.
Qed.
Lemma counted_quiet f k s s1 s' : counted f k s s1 -> quiet s1 s' -> counted f k s s'.
Proof.
  intros [Eo (v & Hv & Er) Ec] Hq. split.
  - by rewrite (qt_of _ _ Hq).
  - exists v. by rewrite (qt_refs _ _ Hq).
  - eapply calm_trans; [exact Ec|by apply calm_quiet].
Qed.

Lemma wlp_filedup X d f Q s :
  fdinv X d s -> -1000 <= d f <= 1000 ->
  (forall s', counted f 1 s s' -> Q f s') -> wlp (filedup f) Q s.
Proof.
  intros Hi Hd HQ. unfold filedup, wlp, bind, setf. destruct (k_ftable s !! f) as [x|] eqn:Hx; [|done].
  assert (refs s !! f = Some (f_ref x)) as Hr by (unfold refs; by rewrite list_lookup_fmap, Hx).
  pose proof (refs_small _ _ _ _ _ Hi Hr Hd) as Hb. apply HQ. rewrite s32_id by lia.
  replace 1 with (f_ref x + 1 - f_ref x) at 1 by lia. by apply counted_setf.
Qed.

Lemma wlp_fileclose X d f Q s :
  fdinv X d s -> -1000 <= d f <= 1000 ->
  (forall s', counted f (-1) s s' -> Q tt s') -> wlp (fileclose f) Q s.
Proof.
  intros Hi Hd HQ. unfold fileclose. unfold pwlp, bind at 1, getf at 1.
  destruct (k_ftable s !! f) as [x|] eqn:Hx; [|done]. destruct (f_ref x <? 1) eqn:Hlt; [done|].
  assert (refs s !! f = Some (f_ref x)) as Hr by (unfold refs; by rewrite list_lookup_fmap, Hx).
  pose proof (refs_small _ _ _ _ _ Hi Hr Hd) as Hb.
  apply wlp_bind. eapply wlp_of_eq; [unfold setf; by rewrite Hx|].
  apply wlp_still; [keeps|nosleep|]. intros [] s' Hq. apply HQ.
  eapply counted_quiet; [|exact Hq]. rewrite s32_id by lia.
  replace (-1) with (f_ref x - 1 - f_ref x) by lia. by apply counted_setf.
Qed.
End maintain.

(** The first entry that satisfies a test. *)
Lemma find_from_some {A} (f : A -> bool) i l k :
  find_from f i l = Some k ->
  exists x, (i <= k)%nat /\ l !! (k - i)%nat = Some x /\ f x = true /\
    forall j y, (i <= j < k)%nat -> l !! (j - i)%nat = Some y -> f y = false.
Proof.
  revert i. induction l as [|x l IH]; intros i; cbn; [done|]. destruct (f x) eqn:Hf.
  - intros [= ->]. exists x. rewrite Nat.sub_diag. split; [lia|]. split; [done|]. split; [done|]. intros; lia.
  - intros Hk. destruct (IH _ Hk) as (y & Hle & Hy & Hfy & Hbef).
    assert (forall j, (S i <= j)%nat -> (x :: l) !! (j - i)%nat = l !! (j - S i)%nat) as Hs.
    { intros j Hj. by replace (j - i)%nat with (S (j - S i)) by lia. }
    exists y. split; [lia|]. split; [by rewrite Hs|]. split; [done|]. intros j z Hj Hz.
    destruct (decide (j = i)) as [->|Hne]; [rewrite Nat.sub_diag in Hz; cbn in Hz; congruence|].
    rewrite Hs in Hz by lia. apply (Hbef j z); [lia|done].
Qed.
Lemma find_from_none {A} (f : A -> bool) i l : find_from f i l = None -> Forall (fun x => f x = false) l.
Proof.
  revert i. induction l as [|x l IH]; intros i; cbn; [by constructor|]. destruct (f x) eqn:Hf; [done|].
  intros Hn. constructor; [done|]. by apply (IH (S i)).
Qed.

Section alloc.
Context `{Image} {D : Type} `{BlockDev D}.
Implicit Types s : kernel D.

Lemma wlp_filealloc Q s :
  Q None s -> (forall f s', counted f 1 s s' -> Q (Some f) s') -> wlp filealloc Q s.
Proof.
  intros Hn Hs. unfold filealloc. apply wlp_bind. eapply wlp_of_eq; [done|].
  destruct (find_from _ 0 (k_ftable s)) as [f|] eqn:Hf; [|done].
  apply find_from_some in Hf as (x & _ & Hx & Hr & _). rewrite Nat.sub_0_r in Hx. apply Z.eqb_eq in Hr.
  apply wlp_bind. eapply wlp_of_eq; [unfold setf; by rewrite Hx|]. apply wlp_ret, Hs.
  replace 1 with (1 - f_ref x) at 1 by lia. by apply counted_setf.
Qed.

Lemma wlp_fdalloc X d f p Q s :
  fdinv X d s -> alive s -> c_proc (k_cpu s) = Some p -> (f < length (refs s))%nat ->
  Q (-1) s ->
  (forall fd l s', ofiles s !! p = Some l -> l !! fd = Some None -> assigned p fd (Some f) s s' ->
     fdinv X (dadd f (-1) d) s' -> Q (Z.of_nat fd) s') ->
  wlp (fdalloc f) Q s.
Proof.
  intros Hi Ha Hp Hf Hn Hs. unfold fdalloc. apply wlp_bind.
  eapply wlp_of_eq; [unfold myproc; by rewrite Hp|]. apply wlp_bind. unfold pwlp, getp.
  destruct (k_procs s !! p) as [x|] eqn:Hx; [|done].
  destruct (find_from _ 0 (p_ofile x)) as [fd|] eqn:Hfd; [|done].
  apply find_from_some in Hfd as (o & _ & Ho & Hnone & _). rewrite Nat.sub_0_r in Ho.
  destruct o as [g|]; [done|]. pose proof (ofiles_lookup _ _ _ Hx) as Hl.
  apply wlp_bind. eapply wlp_set_ofile; [exact Hl|]. intros s' Has. apply wlp_ret.
  eapply Hs; [exact Hl|exact Ho|exact Has|].
  eapply fdinv_ext; [|eapply (fdinv_assigned X d p fd None (Some f)); try done].
  - intros g. unfold dadd, hits. rewrite decide_False by done. repeat case_decide; simplify_eq; lia.
  - intros g [= <-]. done.
  - right; right. intros y Hy. by apply (Ha p).
Qed.
End alloc.
