(* ===== verification/FdCalls.v ===== *)
(** The system calls on descriptors and reference counts: most leave them alone,
    and those that change them keep every count equal to the number of
    descriptors. *)

From S2P Require Import Prelude Memory Kalloc Vm Str Bio Fs Kernel Spinlock Proc Pipe File Logic NoSleep FdInv.
From S2P Require Import Path Console Syscall Sysfile Sysproc Exec.

Section keeps.
Context `{Image} {D : Type} `{BlockDev D}.
Implicit Types s : kernel D.

(* ------------------------------------------------------------------ *)
(** ** Calls that leave the tables alone *)

Lemma keeps_consput_all l : keeps (consput_all (D := D) l).
Proof. induction l; keeps. Qed.
Lemma keeps_printint x b g : keeps (printint (D := D) x b g).
Proof. apply keeps_consput_all. Qed.
#[local] Hint Resolve keeps_consput_all keeps_printint : keeps.
Lemma keeps_printf_conv lg c ap k :
  (forall ap, keeps (k ap)) -> keeps (printf_conv (D := D) lg c ap k).
Proof. intros Hk. unfold printf_conv. keeps; apply Hk. Qed.
Lemma keeps_printf_loop fmt ap : keeps (printf_loop (D := D) fmt ap).
Proof.
  revert ap. induction fmt as [fmt IH] using (well_founded_induction (well_founded_ltof _ length)).
  intros ap. destruct fmt as [|c [|c1 [|c2 fmt]]]; cbn [printf_loop]; keeps;
    try (apply IH; unfold ltof; cbn; lia); apply keeps_printf_conv; intros; apply IH; unfold ltof; cbn; lia.
Qed.
#[local] Hint Resolve keeps_printf_loop : keeps.
Lemma keeps_printf fmt ap : keeps (Console.printf (D := D) fmt ap).
Proof. keeps. Qed.
Lemma keeps_console_print_all l : keeps (console_print_all (D := D) l).
Proof. induction l; keeps. Qed.
#[local] Hint Resolve keeps_printf keeps_console_print_all : keeps.
Lemma keeps_consoleintr c : keeps (consoleintr (D := D) c).
Proof. keeps. Qed.
Lemma keeps_argraw n : keeps (argraw (D := D) n).
Proof. keeps. Qed.
Lemma keeps_fd_file fd : keeps (fd_file (D := D) fd).
Proof. keeps. Qed.
Lemma keeps_fetchstr dst a max : keeps (fetchstr (D := D) dst a max).
Proof. keeps. Qed.
Lemma keeps_user_byte p a : keeps (user_byte (D := D) p a).
Proof. keeps. Qed.
#[local] Hint Resolve keeps_argraw keeps_fd_file keeps_fetchstr keeps_user_byte : keeps.
Lemma keeps_write_fetch p n a : keeps (write_fetch (D := D) p n a).
Proof. revert a. induction n; keeps. Qed.
Lemma keeps_pipe_put_fds p src a : keeps (pipe_put_fds (D := D) p src a).
Proof. revert a. induction src; keeps. Qed.
Lemma keeps_push_strings pt b l sp u : keeps (push_strings (D := D) pt b l sp u).
Proof. revert sp u. induction l; keeps. Qed.
#[local] Hint Resolve keeps_write_fetch keeps_pipe_put_fds keeps_push_strings : keeps.

Lemma keeps_sys_getpid : keeps (sys_getpid (D := D)).
Proof. keeps. Qed.
Lemma keeps_sys_sbrk : keeps (sys_sbrk (D := D)).
Proof. keeps. Qed.
Lemma keeps_sys_read : keeps (sys_read (D := D)).
Proof. keeps. Qed.
Lemma keeps_sys_write : keeps (sys_write (D := D)).
Proof. keeps. Qed.
Lemma keeps_sys_fstat : keeps (sys_fstat (D := D)).
Proof. keeps. Qed.
Lemma keeps_sys_mkdir : keeps (sys_mkdir (D := D)).
Proof. keeps. Qed.
Lemma keeps_sys_chdir : keeps (sys_chdir (D := D)).
Proof. keeps. Qed.
Lemma keeps_sys_unlink : keeps (sys_unlink (D := D)).
Proof. keeps. Qed.
Lemma keeps_sys_lseek : keeps (sys_lseek (D := D)).
Proof. keeps. Qed.
Lemma keeps_sys_ftruncate : keeps (sys_ftruncate (D := D)).
Proof. keeps. Qed.
Lemma keeps_sys_ioctl : keeps (sys_ioctl (D := D)).
Proof. keeps. Qed.
Lemma keeps_sys_rename : keeps (sys_rename (D := D)).
Proof. keeps. Qed.
Lemma keeps_sys_getcwd : keeps (sys_getcwd (D := D)).
Proof. keeps. Qed.
Lemma keeps_sys_exec : keeps (sys_exec (D := D)).
Proof. keeps. Qed.
End keeps.
#[export] Hint Resolve keeps_argraw keeps_fd_file keeps_fetchstr keeps_user_byte keeps_printf
  keeps_consoleintr keeps_pipe_put_fds keeps_write_fetch keeps_console_print_all : keeps.

Section calls.
Context `{Image} {D : Type} `{BlockDev D}.
Implicit Types s : kernel D.

(* ------------------------------------------------------------------ *)
(** ** Entries of the process table reused *)

(** A step that keeps the tables, with what it is known to leave. *)
Definition kept {A} (m : M (kernel D) A) (Q : A -> kernel D -> Prop) s : Prop :=
  match m s with
  | Ok a s' => quiet s s' /\ Q a s'
  | Sleep _ s' => quiet s s'
  | Stop _ => True
  end.
Lemma kept_bind {A B} (m : M (kernel D) A) (k : A -> M (kernel D) B) Q s :
  kept m (fun a s' => kept (k a) Q s') s -> kept (bind m k) Q s.
Proof.
  unfold kept, bind. destruct (m s) as [a s1|c s1|e]; [|done|done]. intros [Hq Hk].
  destruct (k a s1) as [b s2|c s2|e]; [destruct Hk; split; [by transitivity s1|done]|by transitivity s1|done].
Qed.
Lemma kept_keeps {A} (m : M (kernel D) A) Q s :
  keeps m -> (forall a s', quiet s s' -> Q a s') -> kept m Q s.
Proof. intros Hk HQ. specialize (Hk s). unfold kept. destruct (m s); auto. Qed.
Lemma kept_ret {A} (a : A) (Q : A -> kernel D -> Prop) s : Q a s -> kept (ret a) Q s.
Proof. intros HQ. split; [reflexivity|done]. Qed.
Lemma kept_of_eq {A} (m : M (kernel D) A) Q s a s' : m s = Ok a s' -> quiet s s' -> Q a s' -> kept m Q s.
Proof. unfold kept. by intros ->. Qed.
Lemma kept_mono {A} (m : M (kernel D) A) (P Q : A -> kernel D -> Prop) s :
  kept m P s -> (forall a s', P a s' -> Q a s') -> kept m Q s.
Proof. unfold kept. destruct (m s); [|done|done]. intros [? ?]. auto. Qed.
Lemma kept_getp i (Q : proc -> kernel D -> Prop) s :
  (forall x, k_procs s !! i = Some x -> Q x s) -> kept (getp i) Q s.
Proof. intros HQ. unfold kept, getp. destruct (k_procs s !! i); [|done]. split; [reflexivity|by apply HQ]. Qed.
Lemma kept_setp i f x (Q : unit -> kernel D -> Prop) s :
  k_procs s !! i = Some x -> p_ofile (f x) = p_ofile x -> (dead (f x) -> dead x) ->
  (forall s', k_procs s' !! i = Some (f x) -> Q tt s') -> kept (setp i f) Q s.
Proof.
  intros Hx Ho Hd HQ. unfold kept, setp. rewrite Hx. split; [by apply quiet_setp|]. apply HQ.
  cbn. apply list_lookup_insert_eq. by eapply lookup_lt_Some.
Qed.
(** The same, with only the new status known. *)
Lemma kept_setp_st i f x st (Q : unit -> kernel D -> Prop) s :
  k_procs s !! i = Some x -> dead x -> p_ofile (f x) = p_ofile x -> p_status (f x) = st ->
  (forall y s', k_procs s' !! i = Some y -> p_status y = st -> Q tt s') -> kept (setp i f) Q s.
Proof. intros Hx Hd Ho Hst HQ. eapply kept_setp; [exact Hx|done|done|]. eauto. Qed.
Lemma kept_lmem {A} (m : M kmem A) Q s :
  (forall a s', k_procs s' = k_procs s -> Q a s') -> kept (lmem m) Q s.
Proof.
  intros HQ. pose proof (keeps_lmem m s) as Hk. unfold kept, lmem, zoom in *.
  destruct (m _) as [a t|c t|e]; [split; [done|by apply HQ]|done|done].
Qed.
Lemma keeps_of_kept {A} (m : M (kernel D) A) : (forall s, kept m (fun _ _ => True) s) -> keeps m.
Proof. intros Hm s. specialize (Hm s). unfold kept in Hm. destruct (m s); [apply Hm|done|done]. Qed.

Lemma wait_scan_kept p addr son n hk s :
  kept (wait_scan p addr son n hk) (fun _ _ => True) s.
Proof.
  revert son hk s. induction n as [|n IH]; intros son hk s; cbn [wait_scan]; [by apply kept_ret|].
  apply kept_bind, kept_getp. intros x Hx. destruct (bool_decide _); [|apply IH].
  apply kept_bind, kept_keeps; [auto with keeps|]. intros [] s1 _.
  apply kept_bind, kept_getp. intros y Hy. destruct (bool_decide (p_status y = TASK_ZOMBIE)) eqn:Hz.
  - apply bool_decide_eq_true in Hz. cbv zeta. apply kept_bind, kept_getp. intros px _.
    assert (dead y) as Hdead by (right; by right).
    apply kept_bind. eapply (kept_mono _ (fun _ s' => k_procs s' = k_procs s1)).
    { destruct (addr =? 0); [by apply kept_ret|]. apply kept_bind, kept_lmem. intros r s2 Hs2. by apply kept_ret. }
    intros bad s2 Hs2. destruct bad.
    { apply kept_keeps; [keeps|done]. }
    rewrite <- Hs2 in Hy. apply kept_bind. eapply kept_setp; [exact Hy|done|done|]. intros s3 _.
    apply kept_keeps; [keeps|done].
  - apply kept_bind, kept_keeps; [auto with keeps|]. intros [] s2 _. apply IH.
Qed.
Lemma keeps_wait_scan p addr son n hk : keeps (wait_scan (D := D) p addr son n hk).
Proof. apply keeps_of_kept. intros s. apply wait_scan_kept. Qed.
#[local] Hint Resolve keeps_wait_scan : keeps.
Lemma keeps_sys_wait : keeps (sys_wait (D := D)).
Proof. keeps. Qed.

(** [allocproc] takes an entry that is dead and leaves it so. *)
Lemma release_kept i x (Q : unit -> kernel D -> Prop) s :
  k_procs s !! i = Some x ->
  (forall y s', k_procs s' !! i = Some y -> p_status y = p_status x -> Q tt s') -> kept (release (LkProc i)) Q s.
Proof.
  intros Hx HQ. unfold release, set_lkcpu, set_locked. apply kept_bind.
  eapply kept_setp; [exact Hx|done|done|]. intros s1 H1. apply kept_bind.
  eapply kept_setp; [exact H1|done|done|]. intros s2 H2.
  unfold pop_off. apply kept_bind. eapply kept_of_eq; [done|by apply keeps_setcpu with (s := s2)|].
  apply kept_bind. eapply kept_of_eq; [done|reflexivity|].
  destruct (_ && _); cbn [when].
  - eapply kept_of_eq; [done| |].
    + apply (keeps_setcpu (cpu_set_sie true)). done.
    + by eapply HQ.
  - apply kept_ret. by eapply HQ.
Qed.

Lemma allocproc_scan_kept i n s :
  kept (allocproc_scan i n) (fun r s' => forall p, r = Some p ->
    exists x, k_procs s' !! p = Some x /\ p_status x = TASK_FREE) s.
Proof.
  revert i s. induction n as [|n IH]; intros i s; cbn [allocproc_scan]; [by apply kept_ret|].
  apply kept_bind, kept_keeps; [auto with keeps|]. intros [] s1 _. apply kept_bind, kept_getp. intros x Hx.
  destruct (decide _) as [Hf|Hf]; [apply kept_ret; intros p [= <-]; eauto|].
  apply kept_bind, kept_keeps; [auto with keeps|]. intros [] s2 _. apply IH.
Qed.

Lemma allocproc_kept s :
  kept allocproc (fun r s' => forall p, r = Some p -> exists x, k_procs s' !! p = Some x /\ dead x) s.
Proof.
  unfold allocproc. apply kept_bind. eapply kept_mono; [apply allocproc_scan_kept|]. cbn beta.
  intros [p|] s1 Hp; [|by apply kept_ret]. destruct (Hp p eq_refl) as (x & Hx & Hf). clear Hp.
  unfold allocpid. apply kept_bind. eapply (kept_mono _ (fun _ s' => k_procs s' = k_procs s1)).
  { split; [split; [done|done|done|eauto]|done]. }
  intros pid s2 E. rewrite <- E in Hx. clear E s1.
  do 7 (apply kept_bind; eapply (kept_setp_st p _ x TASK_FREE); [exact Hx|by left|done|exact Hf|];
    clear dependent x; clear s2; intros x s2 Hx Hf).
  apply kept_bind, kept_lmem. intros tf s3 E. rewrite <- E in Hx.
  apply kept_bind. eapply (kept_setp_st p _ x TASK_FREE); [exact Hx|by left|done|exact Hf|].
  clear dependent x. intros x s4 Hx Hf. destruct (tf =? 0).
  - apply kept_bind. eapply (kept_setp_st p _ x TASK_FREE); [exact Hx|by left|done|done|]. intros y s5 _ _.
    apply kept_bind, kept_keeps; [auto with keeps|]. intros [] s6 _. by apply kept_ret.
  - apply kept_bind. eapply (kept_setp_st p _ x TASK_ALLOCATED); [exact Hx|by left|done|done|].
    intros y s5 Hy Hst. apply kept_bind. eapply release_kept; [exact Hy|]. intros z s6 Hz Hz'. apply kept_ret.
    intros q [= <-]. exists z. split; [done|]. right; left. congruence.
Qed.

(* ------------------------------------------------------------------ *)
(** ** dup, close, dup2, fcntl *)

(** Descriptor [fd] of the running process is [f]. *)
Definition my_fd (fd : nat) (f : nat) s : Prop :=
  exists p l, c_proc (k_cpu s) = Some p /\ ofiles s !! p = Some l /\ l !! fd = Some (Some f).

Lemma my_fd_valid fd f s : fd_ok s -> my_fd fd f s -> (f < length (refs s))%nat.
Proof. intros Hok (p & l & _ & Hl & Hf). apply (fi_valid _ _ _ Hok). by apply (fd_count_pos f p fd l). Qed.

Lemma wlp_fd_file fd (Q : option nat -> kernel D -> Prop) s :
  ((0 <= fd < Z.of_nat NOFILE -> forall p l, c_proc (k_cpu s) = Some p -> ofiles s !! p = Some l ->
      default None (l !! Z.to_nat fd) = None) -> Q None s) ->
  (forall f, 0 <= fd < Z.of_nat NOFILE -> my_fd (Z.to_nat fd) f s -> Q (Some f) s) ->
  wlp (fd_file fd) Q s.
Proof.
  intros Hn Hs. unfold fd_file, wlp, bind, myproc, getp. destruct (c_proc (k_cpu s)) as [p|] eqn:Hp; [|done].
  destruct (k_procs s !! p) as [x|] eqn:Hx; [|done]. destruct (_ || _) eqn:E; zbool.
  { apply Hn. intros Hr. exfalso. apply orb_true_iff in E as [E|E]; zbool; lia. }
  unfold ret. destruct (p_ofile x !! Z.to_nat fd) as [[f|]|] eqn:Hf; cbn.
  - apply Hs; [done|]. exists p, (p_ofile x). split; [done|]. split; [by apply ofiles_lookup|done].
  - apply Hn. intros _ p' l [= <-] Hl. rewrite (ofiles_lookup _ _ _ Hx) in Hl. injection Hl as <-. by rewrite Hf.
  - apply Hn. intros _ p' l [= <-] Hl. rewrite (ofiles_lookup _ _ _ Hx) in Hl. injection Hl as <-. by rewrite Hf.
Qed.

(** Reading the arguments, with the good state it leaves. *)
Lemma wlp_read {A B} (m : M (kernel D) A) (k : A -> M (kernel D) B) Q s :
  keeps m -> fd_run s -> (forall a s', fd_run s' -> wlp (k a) Q s') -> wlp (bind m k) Q s.
Proof.
  intros Hm Hs Hk. apply wlp_bind. apply wlp_keeps; [done|apply Hs|]. intros a s' Hq.
  by apply Hk, (fd_run_quiet s).
Qed.

(** The last step of a call: the code holds no reference. *)
Lemma fd_run_end d s0 s : fdinv None d s -> (forall f, d f = 0) -> calm s0 s -> alive s0 -> fd_run s.
Proof. intros Hi Hd Hc Ha. split; [by apply (fdinv_ext _ d)|by apply (alive_calm s0)]. Qed.
Ltac no_refs := intros; unfold dadd, none; repeat case_decide; simplify_eq; lia.

Lemma maintains_sys_dup : maintains (sys_dup (D := D)).
Proof.
  intros s Hs. unfold sys_dup. apply wlp_read; [unfold argint; keeps|done|]. clear s Hs. intros fd s Hs.
  apply wlp_bind, wlp_fd_file; [by intros; apply wlp_ret|]. intros f _ Hf.
  pose proof (my_fd_valid _ _ _ (proj1 Hs) Hf) as Hv. destruct Hf as (p & l & Hp & _).
  apply wlp_bind. eapply (wlp_fdalloc None none f p); [apply Hs|apply Hs|done|done|by apply wlp_ret|].
  intros n l' s1 _ _ Has Hi. rewrite (proj2 (Z.ltb_ge _ 0)) by lia. apply wlp_bind.
  eapply wlp_filedup; [exact Hi|unfold dadd, none; case_decide; lia|]. intros s2 Hc. apply wlp_ret.
  eapply fd_run_end; [by eapply fdinv_counted|no_refs| |apply Hs].
  eapply calm_trans; [by eapply calm_assigned|apply Hc].
Qed.

(** A descriptor of the running process cleared. *)
Lemma wlp_clear_fd X d p fd f l Q s :
  fdinv X d s -> ofiles s !! p = Some l -> l !! fd = Some (Some f) ->
  (forall s', assigned p fd None s s' -> fdinv X (dadd f 1 d) s' -> Q tt s') ->
  wlp (set_ofile p fd None) Q s.
Proof.
  intros Hi Hl Hf HQ. eapply wlp_set_ofile; [exact Hl|]. intros s' Has. apply HQ; [done|].
  eapply fdinv_ext; [|eapply (fdinv_assigned X d p fd (Some f) None); try done; by left].
  intros g. unfold dadd, hits. repeat case_decide; simplify_eq; lia.
Qed.

(** A descriptor of the running process set. *)
Lemma wlp_give_fd X d p fd f l Q s :
  fdinv X d s -> ofiles s !! p = Some l -> l !! fd = Some None -> (f < length (refs s))%nat ->
  (X = Some p \/ c_proc (k_cpu s) = Some p /\ alive s) ->
  (forall s', assigned p fd (Some f) s s' -> fdinv X (dadd f (-1) d) s' -> Q tt s') ->
  wlp (set_ofile p fd (Some f)) Q s.
Proof.
  intros Hi Hl Hf Hv Hx HQ. eapply wlp_set_ofile; [exact Hl|]. intros s' Has. apply HQ; [done|].
  eapply fdinv_ext; [|eapply (fdinv_assigned X d p fd None (Some f)); try done].
  - intros g. unfold dadd, hits. rewrite decide_False by done. repeat case_decide; simplify_eq; lia.
  - by intros g [= <-].
  - right. destruct Hx as [Hx|[Hp Ha]]; [by left|right]. intros x Hxp. by apply (Ha p).
Qed.


Lemma maintains_sys_close : maintains (sys_close (D := D)).
Proof.
  intros s Hs. unfold sys_close. apply wlp_bind, wlp_myproc. intros p Hp.
  apply wlp_bind. apply wlp_keeps; [unfold argint; keeps|apply Hs|]. intros fd s1 Hq.
  rewrite <- (qt_cur _ _ Hq) in Hp. apply (fd_run_quiet _ _ Hq) in Hs. clear s Hq.
  apply wlp_bind, wlp_fd_file; [by intros; apply wlp_ret|]. intros f _ (p' & l & Hp' & Hl & Hf).
  rewrite Hp in Hp'. injection Hp' as <-.
  apply wlp_bind. eapply wlp_clear_fd; [apply Hs|exact Hl|exact Hf|]. intros s2 Has Hi.
  apply wlp_bind. eapply wlp_fileclose; [exact Hi|unfold dadd, none; case_decide; lia|].
  intros s3 Hc. apply wlp_ret. eapply fd_run_end; [by eapply fdinv_counted|no_refs| |apply Hs].
  eapply calm_trans; [by eapply calm_assigned|apply Hc].
Qed.

(** [set_ofile p fd (Some f); filedup f], as [dup2] and [F_DUPFD] end. *)
Lemma wlp_give_dup p fd f l (r : Z) s0 s :
  fdinv None none s -> calm s0 s -> alive s0 -> c_proc (k_cpu s) = Some p ->
  ofiles s !! p = Some l -> l !! fd = Some None -> (f < length (refs s))%nat ->
  wlp (set_ofile p fd (Some f) ;;; filedup f ;;; ret r) (fun _ s' => fd_run s') s.
Proof.
  intros Hi Hc0 Ha Hp Hl Hf Hv. apply wlp_bind.
  eapply wlp_give_fd; [exact Hi|exact Hl|exact Hf|exact Hv|right; split; [done|by apply (alive_calm s0)]|].
  intros s1 Has Hi1. apply wlp_bind.
  eapply wlp_filedup; [exact Hi1|unfold dadd, none; case_decide; lia|]. intros s2 Hc. apply wlp_ret.
  eapply fd_run_end; [by eapply fdinv_counted|no_refs| |exact Ha].
  eapply calm_trans; [exact Hc0|]. eapply calm_trans; [by eapply calm_assigned|apply Hc].
Qed.

Lemma maintains_sys_dup2 : maintains (sys_dup2 (D := D)).
Proof.
  intros s Hs. unfold sys_dup2. apply wlp_bind, wlp_myproc. intros p Hp.
  apply wlp_bind. apply wlp_keeps; [unfold argint; keeps|apply Hs|]. intros oldfd s1 Hq1.
  rewrite <- (qt_cur _ _ Hq1) in Hp. apply (fd_run_quiet _ _ Hq1) in Hs. clear s Hq1.
  apply wlp_bind. apply wlp_keeps; [unfold argint; keeps|apply Hs|]. intros newfd s Hq1.
  rewrite <- (qt_cur _ _ Hq1) in Hp. apply (fd_run_quiet _ _ Hq1) in Hs. clear s1 Hq1.
  destruct (_ || _) eqn:E; [by apply wlp_ret|]. zbool.
  apply wlp_bind, wlp_fd_file; [by intros; apply wlp_ret|]. intros f _ Hf.
  pose proof (my_fd_valid _ _ _ (proj1 Hs) Hf) as Hv.
  destruct (oldfd =? newfd); [by apply wlp_ret|]. apply wlp_bind, wlp_bind.
  destruct (ofiles s !! p) as [l|] eqn:Hl.
  2: { destruct Hf as (p' & l & Hp' & Hl' & _). rewrite Hp in Hp'. injection Hp' as <-. congruence. }
  pose proof (Forall_lookup_1 _ _ _ _ (fi_len _ _ _ (proj1 Hs)) Hl) as Hlen. cbn in Hlen.
  destruct (lookup_lt_is_Some_2 l (Z.to_nat newfd)) as [o Ho]; [lia|].
  apply wlp_fd_file.
  - intros Hnone. apply wlp_ret. specialize (Hnone ltac:(lia) p l Hp Hl). rewrite Ho in Hnone. cbn in Hnone.
    subst o. eapply (wlp_give_dup p _ f l newfd s); [apply Hs|by apply calm_quiet|apply Hs|done|done|done|done].
  - intros g _ (p' & l' & Hp' & Hl' & Hg). rewrite Hp in Hp'. injection Hp' as <-.
    rewrite Hl in Hl'. injection Hl' as <-. apply wlp_bind.
    eapply wlp_fileclose; [apply Hs|unfold none; lia|]. intros s1 Hc. pose proof Hc as [Eo _ Ecalm].
    eapply wlp_clear_fd; [by eapply fdinv_counted; [apply Hs|]|by rewrite Eo|exact Hg|]. intros s2 Has Hi.
    eapply (wlp_give_dup p _ f (<[Z.to_nat newfd := None]> l) newfd s).
    + apply (fdinv_ext _ _ none) in Hi; [exact Hi|no_refs].
    + eapply calm_trans; [exact Ecalm|by eapply calm_assigned].
    + apply Hs.
    + by rewrite (as_cur _ _ _ _ _ Has), (cm_cur _ _ Ecalm).
    + rewrite (as_of _ _ _ _ _ Has), Eo. by rewrite list_lookup_alter_eq, Hl.
    + apply list_lookup_insert_eq. by eapply lookup_lt_Some.
    + by rewrite (as_refs _ _ _ _ _ Has), (counted_len _ _ _ _ Hc).
Qed.

Lemma maintains_sys_fcntl : maintains (sys_fcntl (D := D)).
Proof.
  intros s Hs. unfold sys_fcntl. apply wlp_bind, wlp_myproc. intros p Hp.
  do 3 (apply wlp_bind; apply wlp_keeps; [unfold argint; keeps|apply Hs|]; intros ? s1 Hq;
    rewrite <- (qt_cur _ _ Hq) in Hp; apply (fd_run_quiet _ _ Hq) in Hs; clear s Hq; rename s1 into s).
  apply wlp_bind, wlp_fd_file; [by intros; apply wlp_ret|]. intros f _ Hf.
  pose proof (my_fd_valid _ _ _ (proj1 Hs) Hf) as Hv.
  destruct (_ =? F_DUPFD); [|by apply maintains_keeps; [keeps|]].
  destruct (_ || _) eqn:E; [by apply wlp_ret|]. apply wlp_bind, wlp_getp. intros x Hx.
  destruct (find_from _ _ _) as [n|] eqn:Hn; [|by apply wlp_ret].
  apply find_from_some in Hn as (o & Hle & Ho & Hnone & _). rewrite lookup_drop in Ho. destruct o; [done|].
  replace (_ + (n - _))%nat with n in Ho by lia.
  eapply (wlp_give_dup p _ f (p_ofile x) _ s); try done; [apply Hs|by apply calm_quiet|apply Hs|by apply ofiles_lookup].
Qed.

(* ------------------------------------------------------------------ *)
(** ** open *)

Lemma maintains_open_file ip flags : maintains (open_file (D := D) ip flags).
Proof.
  intros s Hs. unfold open_file. apply wlp_read; [unfold itype; keeps|done|]. clear s Hs. intros _ s Hs.
  apply wlp_bind, wlp_filealloc; [by apply maintains_keeps; [keeps|]|]. intros f s1 Hc.
  pose proof (fdinv_counted _ _ _ _ _ _ (proj1 Hs) Hc) as Hi.
  pose proof (alive_calm _ _ (ct_calm _ _ _ _ Hc) (proj2 Hs)) as Ha.
  assert (f < length (refs s1))%nat as Hv by (rewrite (counted_len _ _ _ _ Hc); by eapply counted_valid).
  apply wlp_bind. destruct (c_proc (k_cpu s1)) as [p|] eqn:Hp.
  2: { unfold fdalloc, wlp, bind, myproc. by rewrite Hp. }
  eapply wlp_fdalloc; [exact Hi|exact Ha|exact Hp|exact Hv| |].
  - change (-1 <? 0) with true. cbv iota. apply wlp_bind.
    eapply wlp_fileclose; [exact Hi|unfold dadd, none; case_decide; lia|]. intros s2 Hc2.
    apply maintains_keeps; [keeps|]. eapply fd_run_end; [by eapply fdinv_counted|no_refs|apply Hc2|exact Ha].
  - intros fd l s2 _ _ Has Hi2. rewrite (proj2 (Z.ltb_ge _ 0)) by lia.
    apply maintains_keeps; [keeps|]. eapply fd_run_end; [exact Hi2|no_refs|by eapply calm_assigned|exact Ha].
Qed.

Lemma maintains_sys_open : maintains (sys_open (D := D)).
Proof.
  unfold sys_open. apply preserves_bind; [apply maintains_keeps; unfold argstr; keeps|].
  intros [n path]. destruct (n <? 0); [by apply maintains_keeps; keeps|].
  apply preserves_bind; [apply maintains_keeps; unfold argint; keeps|]. intros flags.
  apply preserves_bind; [apply maintains_keeps; keeps|]. intros [ip|]; [apply maintains_open_file|].
  by apply maintains_keeps; keeps.
Qed.

(* ------------------------------------------------------------------ *)
(** ** pipe *)

Definition has_fd (p : nat) (fd : Z) (f : nat) s : Prop :=
  exists l, ofiles s !! p = Some l /\ l !! Z.to_nat fd = Some (Some f).
(** An end of the pipe not in a descriptor yet is owned by the code. *)
Definition own (fd : Z) : Z := if fd <? 0 then 1 else 0.

Lemma has_fd_quiet p fd f s s' : quiet s s' -> has_fd p fd f s -> has_fd p fd f s'.
Proof. intros Hq (l & Hl & Hf). exists l. by rewrite (qt_of _ _ Hq). Qed.
Lemma has_fd_assigned p fd f fd' o s s' :
  assigned p fd' o s s' -> Z.to_nat fd <> fd' -> has_fd p fd f s -> has_fd p fd f s'.
Proof.
  intros Has Hne (l & Hl & Hf). exists (<[fd' := o]> l). rewrite (as_of _ _ _ _ _ Has).
  rewrite list_lookup_alter_eq, Hl. split; [done|]. by rewrite list_lookup_insert_ne.
Qed.

Lemma wlp_pipe_undo d p f fd Q s :
  fdinv None (dadd f (own fd) d) s -> (0 <= fd -> has_fd p fd f s) -> (forall g, -100 <= d g <= 100) ->
  (forall s', fdinv None d s' -> calm s s' ->
     (forall fd' g, Z.to_nat fd <> Z.to_nat fd' \/ fd < 0 -> has_fd p fd' g s -> has_fd p fd' g s') -> Q tt s') ->
  wlp (pipe_undo p (Some f) fd) Q s.
Proof.
  intros Hi Hf Hd HQ. unfold pipe_undo, own in *. destruct (Z.ltb_spec fd 0) as [Hlt|Hge].
  - rewrite (proj2 (Z.leb_gt 0 fd)) by lia. cbn [when]. apply wlp_bind, wlp_ret.
    eapply wlp_fileclose; [exact Hi|specialize (Hd f); unfold dadd; case_decide; lia|]. intros s' Hc. apply HQ.
    + eapply fdinv_ext; [|by eapply fdinv_counted]. no_refs.
    + apply Hc.
    + intros fd' g _ (l & Hl & Hg). exists l. by rewrite (ct_of _ _ _ _ Hc).
  - rewrite (proj2 (Z.leb_le 0 fd)) by lia. cbn [when]. destruct (Hf Hge) as (l & Hl & Hlf).
    apply wlp_bind. eapply wlp_clear_fd; [exact Hi|exact Hl|exact Hlf|]. intros s1 Has Hi1.
    eapply wlp_fileclose; [exact Hi1|specialize (Hd f); unfold dadd; case_decide; lia|]. intros s' Hc. apply HQ.
    + eapply fdinv_ext; [|by eapply fdinv_counted]. no_refs.
    + eapply calm_trans; [by eapply calm_assigned|apply Hc].
    + intros fd' g Hne Hg. assert (Z.to_nat fd' <> Z.to_nat fd) as Hn by lia.
      destruct (has_fd_assigned _ _ _ _ _ _ _ Has Hn Hg) as (l' & Hl' & Hg').
      exists l'. by rewrite (ct_of _ _ _ _ Hc).
Qed.

(** The cleanup from any point of the call. *)
Lemma wlp_pipe_bad p pi r w fd0 fd1 s0 s :
  fdinv None (dadd r (own fd0) (dadd w (own fd1) none)) s -> calm s0 s -> alive s0 ->
  (0 <= fd0 -> has_fd p fd0 r s) -> (0 <= fd1 -> has_fd p fd1 w s) ->
  (0 <= fd0 -> 0 <= fd1 -> fd0 <> fd1) ->
  wlp (pipe_bad p pi (Some r) (Some w) fd0 fd1) (fun _ s' => fd_run s') s.
Proof.
  intros Hi Hc Ha H0' H1' Hne. unfold pipe_bad. apply wlp_bind.
  apply wlp_still; [keeps|nosleep|]. intros [] s1 Hq. apply (fdinv_quiet _ _ _ _ Hq) in Hi.
  apply wlp_bind. eapply wlp_pipe_undo; [exact Hi|intros; by eapply has_fd_quiet; [|apply H0']|unfold own; destruct (fd1 <? 0); no_refs|].
  intros s2 Hi2 Hc2 Hkeep. apply wlp_bind. eapply wlp_pipe_undo; [exact Hi2| |unfold none; lia|].
  - intros Hge. apply Hkeep; [|by eapply has_fd_quiet; [|apply H1']]. destruct (decide (fd0 < 0)); [by right|left].
    specialize (Hne ltac:(lia) Hge). lia.
  - intros s3 Hi3 Hc3 _. apply wlp_ret. eapply fd_run_end; [exact Hi3|done| |exact Ha].
    eapply calm_trans; [exact Hc|]. eapply calm_trans; [by apply calm_quiet|]. by eapply calm_trans.
Qed.

(** The rest of [sys_pipe], with both ends. *)
Lemma wlp_pipe_fds p pi r w fdarray s0 s :
  fdinv None (dadd r 1 (dadd w 1 none)) s -> calm s0 s -> alive s0 -> c_proc (k_cpu s) = Some p ->
  (r < length (refs s))%nat -> (w < length (refs s))%nat ->
  wlp (let! fd0 := fdalloc r in
       if fd0 <? 0 then pipe_bad p pi (Some r) (Some w) fd0 (-1)
       else
         let! fd1 := fdalloc w in
         if fd1 <? 0 then pipe_bad p pi (Some r) (Some w) fd0 fd1
         else
           let! ok := pipe_put_fds p (le_bytes 4 fd0 ++ le_bytes 4 fd1) fdarray in
           if ok then ret 0 else pipe_bad p pi (Some r) (Some w) fd0 fd1)
    (fun _ s' => fd_run s') s.
Proof.
  intros Hi Hc Ha Hp Hr Hw. pose proof (alive_calm _ _ Hc Ha) as Ha1.
  apply wlp_bind. eapply wlp_fdalloc; [exact Hi|exact Ha1|exact Hp|exact Hr|by apply wlp_pipe_bad with s0|].
  intros fd0 l s1 Hl Hfd0 Has Hi1. rewrite (proj2 (Z.ltb_ge _ 0)) by lia.
  pose proof (calm_assigned _ _ _ _ _ Has) as Hc1. pose proof (calm_trans _ _ _ Hc Hc1) as Hc01.
  assert (has_fd p (Z.of_nat fd0) r s1) as Hh0.
  { exists (<[fd0 := Some r]> l). rewrite (as_of _ _ _ _ _ Has), list_lookup_alter_eq, Hl, Nat2Z.id.
    split; [done|]. apply list_lookup_insert_eq. by eapply lookup_lt_Some. }
  apply (fdinv_ext _ _ (dadd w 1 none)) in Hi1; [|no_refs].
  assert (forall fd, 0 <= fd -> own fd = 0) as Hown by (intros; unfold own; by rewrite (proj2 (Z.ltb_ge _ _))).
  apply wlp_bind. eapply wlp_fdalloc; [exact Hi1|by apply (alive_calm _ _ Hc01)| | | |].
  - by rewrite (cm_cur _ _ Hc1).
  - by rewrite (as_refs _ _ _ _ _ Has).
  - eapply wlp_pipe_bad; [|exact Hc01|exact Ha|done|done|done].
    eapply fdinv_ext; [|exact Hi1]. intros g. rewrite Hown by lia. change (own (-1)) with 1. no_refs.
  - intros fd1 l1 s2 Hl1 Hfd1 Has2 Hi2. rewrite (proj2 (Z.ltb_ge _ 0)) by lia.
    pose proof (calm_trans _ _ _ Hc01 (calm_assigned _ _ _ _ _ Has2)) as Hc02.
    apply (fdinv_ext _ _ none) in Hi2; [|no_refs].
    assert (fd0 <> fd1) as Hne.
    { intros ->. destruct Hh0 as (l' & Hl' & Hf'). rewrite Nat2Z.id in Hf'. congruence. }
    assert (has_fd p (Z.of_nat fd0) r s2) as Hh0' by (eapply has_fd_assigned; [exact Has2|lia|exact Hh0]).
    assert (has_fd p (Z.of_nat fd1) w s2) as Hh1.
    { exists (<[fd1 := Some w]> l1). rewrite (as_of _ _ _ _ _ Has2), list_lookup_alter_eq, Hl1, Nat2Z.id.
      split; [done|]. apply list_lookup_insert_eq. by eapply lookup_lt_Some. }
    apply wlp_bind. apply wlp_keeps; [auto with keeps|exact Hi2|]. intros ok s3 Hq.
    apply (fdinv_quiet _ _ _ _ Hq) in Hi2. pose proof (calm_trans _ _ _ Hc02 (calm_quiet _ _ Hq)) as Hc03.
    destruct ok; [apply wlp_ret; by apply (fd_run_end none s0)|].
    eapply wlp_pipe_bad; [|exact Hc03|exact Ha|by intros; eapply has_fd_quiet|by intros; eapply has_fd_quiet|lia].
    eapply fdinv_ext; [|exact Hi2]. intros g. rewrite !Hown by lia. no_refs.
Qed.

Lemma maintains_sys_pipe : maintains (sys_pipe (D := D)).
Proof.
  intros s Hs. unfold sys_pipe. apply wlp_bind, wlp_myproc. intros p Hp.
  apply wlp_bind. apply wlp_keeps; [unfold argaddr; keeps|apply Hs|]. intros fdarray s1 Hq.
  rewrite <- (qt_cur _ _ Hq) in Hp. apply (fd_run_quiet _ _ Hq) in Hs. clear s Hq.
  apply wlp_bind. apply wlp_keeps; [auto with keeps|apply Hs|]. intros pi s Hq.
  rewrite <- (qt_cur _ _ Hq) in Hp. apply (fd_run_quiet _ _ Hq) in Hs. clear s1 Hq.
  destruct (pi =? 0); [by apply maintains_keeps; [keeps|]|].
  do 5 (apply wlp_bind; apply wlp_keeps; [keeps|apply Hs|]; intros [] s1 Hq;
    rewrite <- (qt_cur _ _ Hq) in Hp; apply (fd_run_quiet _ _ Hq) in Hs; clear s Hq; rename s1 into s).
  apply wlp_bind, wlp_filealloc; [by apply maintains_keeps; [keeps|]|]. intros r s1 Hc1.
  pose proof (fdinv_counted _ _ _ _ _ _ (proj1 Hs) Hc1) as Hi1.
  apply wlp_bind, wlp_filealloc.
  - unfold pipe_bad. apply wlp_bind. apply wlp_still; [keeps|nosleep|]. intros [] s2 Hq.
    apply (fdinv_quiet _ _ _ _ Hq) in Hi1.
    apply wlp_bind. eapply (wlp_pipe_undo none); [exact Hi1|lia|unfold none; lia|]. intros s3 Hi3 Hc3 _.
    apply wlp_bind, wlp_ret, wlp_ret. eapply fd_run_end; [exact Hi3|done| |apply Hs].
    eapply calm_trans; [apply Hc1|]. eapply calm_trans; [by apply calm_quiet|exact Hc3].
  - intros w s2 Hc2. pose proof (fdinv_counted _ _ _ _ _ _ Hi1 Hc2) as Hi2.
    pose proof (calm_trans _ _ _ (ct_calm _ _ _ _ Hc1) (ct_calm _ _ _ _ Hc2)) as Hc.
    assert (r < length (refs s2))%nat as Hr.
    { rewrite (counted_len _ _ _ _ Hc2), (counted_len _ _ _ _ Hc1). by eapply counted_valid. }
    assert (w < length (refs s2))%nat as Hw.
    { rewrite (counted_len _ _ _ _ Hc2). by eapply counted_valid. }
    assert (c_proc (k_cpu s2) = Some p) as Hp2 by (by rewrite (cm_cur _ _ Hc)).
    clear Hi1. do 2 (apply wlp_bind; apply wlp_still; [keeps|nosleep|]; intros [] s3 Hq;
      rewrite <- (qt_cur _ _ Hq) in Hp2; rewrite <- (qt_refs _ _ Hq) in Hr, Hw;
      apply (fdinv_quiet _ _ _ _ Hq) in Hi2;
      pose proof (calm_trans _ _ _ Hc (calm_quiet _ _ Hq)) as Hc'; clear Hc Hq; rename Hc' into Hc;
      try clear Hc2; clear s2; rename s3 into s2).
    eapply wlp_pipe_fds; [|exact Hc|apply Hs|exact Hp2|exact Hr|exact Hw].
    eapply fdinv_ext; [|exact Hi2]. no_refs.
Qed.

(* ------------------------------------------------------------------ *)
(** ** fork and exit *)

(** An entry that does not run and has no descriptor. *)
Definition spare (i : nat) s : Prop :=
  c_proc (k_cpu s) <> Some i /\ exists l, ofiles s !! i = Some l /\ Forall (fun o => o = None) l.
Lemma spare_quiet i s s' : quiet s s' -> spare i s -> spare i s'.
Proof. intros Hq [Hc (l & Hl & Hn)]. split; [by rewrite (qt_cur _ _ Hq)|]. exists l. by rewrite (qt_of _ _ Hq). Qed.

Lemma wlp_kept {A} (m : M (kernel D) A) P Q s :
  kept m P s -> fd_ok s -> (forall a s', quiet s s' -> P a s' -> Q a s') -> wlp m Q s.
Proof.
  unfold kept, wlp. intros Hk Hok HQ. destruct (m s) as [a s'|c s'|e]; [apply HQ; apply Hk| |done].
  by apply (fdinv_quiet _ _ s).
Qed.

(** A spare entry may be marked dead. *)
Lemma wlp_set_dead i f Q s :
  fd_run s -> spare i s -> (forall x, p_ofile (f x) = p_ofile x) ->
  (forall s', fd_run s' -> Q tt s') -> wlp (setp i f) Q s.
Proof.
  intros [Hi Ha] [Hc (l & Hl & Hn)] Ho HQ. unfold pwlp, setp. destruct (k_procs s !! i) as [x|] eqn:Hx; [|done].
  rewrite (ofiles_lookup _ _ _ Hx) in Hl. injection Hl as <-.
  assert (ofiles (kernel_set_procs (<[i := f x]> (k_procs s)) s) = ofiles s) as Eo.
  { unfold ofiles. cbn. rewrite list_fmap_insert. apply list_insert_id. by rewrite list_lookup_fmap, Hx, Ho. }
  apply HQ. split.
  - destruct Hi as [H1 H2 H3 H4 H5]. split; rewrite ?Eo; try done; [cbn; by rewrite length_insert|].
    cbn. intros j y _ Hy Hd. destruct (decide (i = j)) as [<-|Hne].
    + rewrite list_lookup_insert_eq in Hy by (by eapply lookup_lt_Some). injection Hy as <-. by rewrite Ho.
    + rewrite list_lookup_insert_ne in Hy by done. by eapply H5.
  - intros p y Hp Hy Hd. cbn in Hp, Hy. rewrite list_lookup_insert_ne in Hy by congruence. by eapply Ha.
Qed.

(** The failing exits of [fork]. *)
Lemma wlp_fork_free np s :
  fd_run s -> spare np s -> wlp (fork_status np TASK_FREE ;;; ret (-1)) (fun _ s' => fd_run s') s.
Proof.
  intros Hs Hsp. apply wlp_bind. unfold fork_status. apply wlp_bind.
  apply wlp_keeps; [auto with keeps|apply Hs|]. intros [] s1 Hq.
  apply wlp_bind. eapply (wlp_set_dead np); [by eapply fd_run_quiet|by eapply spare_quiet|by intros []|].
  intros s2 Hs2. by apply maintains_keeps; [keeps|].
Qed.

(** One descriptor inherited. *)
Definition inheriting (p np : nat) (i : nat) s : Prop :=
  fdinv (Some np) none s /\ alive s /\ c_proc (k_cpu s) = Some p /\ p <> np /\
  exists l, ofiles s !! np = Some l /\ forall j, (i <= j < NOFILE)%nat -> l !! j = Some None.

Lemma wlp_fork_dup p np i s :
  (i < NOFILE)%nat -> inheriting p np i s -> wlp (fork_dup p np i) (fun _ s' => inheriting p np (S i) s') s.
Proof.
  intros Hlt (Hi & Ha & Hp & Hne & l & Hl & Hn). unfold fork_dup.
  apply wlp_bind, wlp_getp. intros x Hx. destruct (default None (p_ofile x !! i)) as [f|] eqn:Hf.
  - destruct (p_ofile x !! i) as [o|] eqn:Ho; [|done]. cbn in Hf. subst o.
    pose proof (Hn i ltac:(lia)) as Hni.
    apply wlp_bind. eapply wlp_give_fd; [exact Hi|exact Hl|exact Hni| |by left|].
    { apply (fi_valid _ _ _ Hi). eapply (fd_count_pos f p i); [by apply ofiles_lookup|exact Ho]. }
    intros s1 Has Hi1. apply wlp_bind.
    eapply wlp_filedup; [exact Hi1|unfold dadd, none; case_decide; lia|]. intros s2 Hc. apply wlp_ret.
    pose proof (calm_trans _ _ _ (calm_assigned _ _ _ _ _ Has) (ct_calm _ _ _ _ Hc)) as Hcalm.
    split; [eapply fdinv_ext; [|by eapply fdinv_counted]; no_refs|].
    split; [by apply (alive_calm s)|]. split; [by rewrite (cm_cur _ _ Hcalm)|]. split; [done|].
    exists (<[i := Some f]> l). rewrite (ct_of _ _ _ _ Hc), (as_of _ _ _ _ _ Has), list_lookup_alter_eq, Hl.
    split; [done|]. intros j Hj. rewrite list_lookup_insert_ne by lia. apply Hn. lia.
  - apply wlp_ret. split; [done|]. split; [done|]. split; [done|]. split; [done|]. exists l. split; [done|].
    intros j Hj. apply Hn. lia.
Qed.

(** From the copied descriptors on: the child becomes ready. *)
Lemma wlp_fork_ready np st s :
  fdinv (Some np) none s -> alive s -> c_proc (k_cpu s) <> Some np ->
  ~ dead (proc_set_status st proc0) ->
  wlp (fork_status np st) (fun _ s' => fd_run s') s.
Proof.
  intros Hi Ha Hc Hst. unfold fork_status. apply wlp_bind. apply wlp_still; [keeps|nosleep|]. intros [] s1 Hq.
  apply (fdinv_quiet _ _ _ _ Hq) in Hi. apply (alive_quiet _ _ Hq) in Ha. rewrite <- (qt_cur _ _ Hq) in Hc.
  apply wlp_bind. unfold pwlp, setp. destruct (k_procs s1 !! np) as [x|] eqn:Hx; [|done].
  assert (~ dead (proc_set_status st x)) as Hnd by (by destruct x).
  pose proof (quiet_setp s1 np x (proc_set_status st) Hx eq_refl ltac:(done)) as Hq1.
  set (s2 := kernel_set_procs _ s1) in *.
  change (wlp (release (LkProc np)) (fun _ s' => fd_run s') s2).
  apply maintains_keeps; [auto with keeps|]. split; [|by apply (alive_quiet s1)].
  apply (fdinv_quiet _ _ _ _ Hq1) in Hi. destruct Hi as [? ? ? ? Hclean]. split; try done.
  intros i y _ Hy Hd. apply (Hclean i); [|done|done]. intros [= <-].
  unfold s2 in Hy. cbn in Hy. rewrite list_lookup_insert_eq in Hy by (by eapply lookup_lt_Some).
  injection Hy as <-. done.
Qed.

Lemma maintains_sys_fork : maintains (sys_fork (D := D)).
Proof.
  intros s Hs. unfold sys_fork. apply wlp_bind, wlp_myproc. intros p Hp.
  apply wlp_bind. eapply wlp_kept; [apply allocproc_kept|apply Hs|]. intros r s1 Hq Hr.
  rewrite <- (qt_cur _ _ Hq) in Hp. apply (fd_run_quiet _ _ Hq) in Hs. clear s Hq.
  destruct r as [np|]; [|by apply wlp_ret]. destruct (Hr np eq_refl) as (x & Hx & Hd). clear Hr.
  assert (p <> np) as Hne by (intros <-; by apply (proj2 Hs p x)).
  assert (spare np s1) as Hsp.
  { split; [congruence|]. exists (p_ofile x). split; [by apply ofiles_lookup|].
    by apply (fi_clean _ _ _ (proj1 Hs) np). }
  clear x Hx Hd. rename s1 into s.
  assert (forall A B (m : M (kernel D) A) (k : A -> M (kernel D) B) (Q : B -> kernel D -> Prop) s,
    keeps m -> fd_run s -> spare np s -> c_proc (k_cpu s) = Some p ->
    (forall a s', fd_run s' -> spare np s' -> c_proc (k_cpu s') = Some p -> wlp (k a) Q s') ->
    wlp (bind m k) Q s) as Hstep.
  { clear. intros A B m k Q s Hm Hs Hsp Hp Hk. apply wlp_bind. apply wlp_keeps; [done|apply Hs|].
    intros a s' Hq. apply Hk; [by eapply fd_run_quiet|by eapply spare_quiet|by rewrite (qt_cur _ _ Hq)]. }
  apply Hstep; [auto with keeps|done..|]. clear dependent s. intros ks s Hs Hsp Hp.
  apply Hstep; [keeps|done..|]. clear dependent s. intros _ s Hs Hsp Hp.
  apply Hstep; [keeps|done..|]. clear dependent s. intros nx s Hs Hsp Hp.
  destruct (ks =? 0).
  { apply Hstep; [auto with keeps|done..|]. intros _ s' Hs' Hsp' _. by apply wlp_fork_free. }
  do 3 (apply Hstep; [keeps|done..|]; clear dependent s; intros _ s Hs Hsp Hp).
  apply Hstep; [keeps|done..|]. clear dependent s. intros pt s Hs Hsp Hp.
  apply Hstep; [keeps|done..|]. clear dependent s. intros _ s Hs Hsp Hp.
  destruct (pt =? 0).
  { do 2 (apply Hstep; [auto with keeps|done..|]; clear dependent s; intros _ s Hs Hsp Hp). by apply wlp_fork_free. }
  apply Hstep; [keeps|done..|]. clear dependent s. intros px s Hs Hsp Hp.
  do 2 (apply Hstep; [keeps|done..|]; clear dependent s; intros _ s Hs Hsp Hp).
  apply Hstep; [keeps|done..|]. clear dependent s. intros r s Hs Hsp Hp.
  destruct (r <? 0); [by apply wlp_ret|].
  apply Hstep; [keeps|done..|]. clear dependent s. intros _ s Hs Hsp Hp.
  apply wlp_bind. eapply wlp_mono; [apply (wlp_for_range _ _ (inheriting p np) 0 NOFILE)|].
  - intros j t Hj Ht. apply wlp_fork_dup; [lia|done].
  - destruct Hs as [[H1 H2 H3 H4 H5] Ha]. destruct Hsp as [_ (l & Hl & Hn)].
    split; [by split; eauto|]. split; [done|]. split; [done|]. split; [done|]. exists l. split; [done|].
    intros j Hj. pose proof (Forall_lookup_1 _ _ _ _ H2 Hl) as Hlen. cbn in Hlen.
    destruct (lookup_lt_is_Some_2 l j) as [o Ho]; [lia|]. rewrite Ho. f_equal. apply (Forall_lookup_1 _ _ _ _ Hn Ho).
  - intros [] t (Hi & Ha & Hpt & _ & _). assert (c_proc (k_cpu t) <> Some np) as Hct by congruence.
    clear dependent s. clear Hpt.
    assert (forall A B (m : M (kernel D) A) (k : A -> M (kernel D) B) (Q : B -> kernel D -> Prop) s,
      keeps m -> nosleep m -> fdinv (Some np) none s -> alive s -> c_proc (k_cpu s) <> Some np ->
      (forall a s', fdinv (Some np) none s' -> alive s' -> c_proc (k_cpu s') <> Some np -> wlp (k a) Q s') ->
      wlp (bind m k) Q s) as Hstill.
    { clear. intros A B m k Q s Hm Hn Hi Ha Hc Hk. apply wlp_bind. apply wlp_still; [done|done|].
      intros a s' Hq. apply Hk; [by eapply fdinv_quiet|by eapply alive_quiet|by rewrite (qt_cur _ _ Hq)]. }
    apply Hstill; [keeps|nosleep|done..|]. clear dependent t. intros _ t Hi Ha Hct.
    apply Hstill; [keeps|unfold idup; nosleep|done..|]. clear dependent t. intros _ t Hi Ha Hct.
    apply Hstill; [keeps|nosleep|done..|]. clear dependent t. intros _ t Hi Ha Hct.
    apply wlp_bind. eapply wlp_mono; [apply wlp_fork_ready; [done|done|done|by intros [Hd|[Hd|Hd]]]|].
    intros [] s' Hs'. by apply maintains_keeps; [keeps|].
Qed.
(** The loop of [exit] over the descriptors, and what it leaves. *)
Definition exiting (p : nat) (i : nat) s : Prop :=
  fdinv (Some p) none s /\
  exists l, ofiles s !! p = Some l /\ forall j, (j < i)%nat -> default None (l !! j) = None.

Lemma wlp_exit_close p i s :
  exiting p i s -> wlp (exit_close p i) (fun _ s' => exiting p (S i) s') s.
Proof.
  intros (Hi & l & Hl & Hn). unfold exit_close. apply wlp_bind, wlp_getp. intros x Hx.
  rewrite (ofiles_lookup _ _ _ Hx) in Hl. injection Hl as <-.
  destruct (default None (p_ofile x !! i)) as [f|] eqn:Hf.
  - destruct (p_ofile x !! i) as [o|] eqn:Ho; [|done]. cbn in Hf. subst o. apply wlp_bind.
    eapply wlp_fileclose; [exact Hi|unfold none; lia|]. intros s1 Hc.
    pose proof (fdinv_counted _ _ _ _ _ _ Hi Hc) as Hi1.
    assert (ofiles s1 !! p = Some (p_ofile x)) as Hl1 by (rewrite (ct_of _ _ _ _ Hc); by apply ofiles_lookup).
    eapply wlp_clear_fd; [exact Hi1|exact Hl1|exact Ho|]. intros s2 Has Hi2.
    split; [eapply fdinv_ext; [|exact Hi2]; no_refs|].
    exists (<[i := None]> (p_ofile x)). rewrite (as_of _ _ _ _ _ Has), list_lookup_alter_eq, Hl1.
    split; [done|]. intros j Hj. destruct (decide (i = j)) as [<-|Hne].
    + by rewrite list_lookup_insert_eq by (by eapply lookup_lt_Some).
    + rewrite list_lookup_insert_ne by done. apply Hn. lia.
  - apply wlp_ret. split; [done|]. exists (p_ofile x). split; [by apply ofiles_lookup|]. intros j Hj.
    destruct (decide (i = j)) as [<-|Hne]; [done|apply Hn; lia].
Qed.

(** Code that never returns. *)
Definition never {A} (m : M (kernel D) A) : Prop := forall s a s', m s <> Ok a s'.
Lemma never_bind {A B} (m : M (kernel D) A) (k : A -> M (kernel D) B) :
  (forall a, never (k a)) -> never (bind m k).
Proof. intros Hk s b s'. unfold bind. destruct (m s); [apply Hk|done|done]. Qed.
Lemma wlp_never {A} (m : M (kernel D) A) Q s : keeps m -> never m -> fd_ok s -> wlp m Q s.
Proof.
  intros Hk Hn Hok. specialize (Hk s). unfold pwlp. destruct (m s) as [a s'|c s'|e] eqn:E; [by apply Hn in E| |done].
  by apply (fdinv_quiet _ _ s).
Qed.

(** [exit] gives up the CPU with the invariant and never returns. *)
Lemma wlp_proc_exit A status Q s : fd_run s -> wlp (proc_exit (A := A) status) Q s.
Proof.
  intros Hs. unfold proc_exit. apply wlp_bind, wlp_myproc. intros p Hp.
  apply wlp_bind. apply wlp_keeps; [keeps|apply Hs|]. intros [] s1 Hq.
  rewrite <- (qt_cur _ _ Hq) in Hp. apply (fd_run_quiet _ _ Hq) in Hs. clear s Hq.
  apply wlp_bind. unfold pwlp at 1, setp at 1. destruct (k_procs s1 !! p) as [x|] eqn:Hx; [|done].
  set (s2 := kernel_set_procs _ s1).
  assert (exiting p 0 s2) as Hex.
  { assert (ofiles s2 = ofiles s1) as Eo.
    { unfold ofiles, s2. cbn. rewrite list_fmap_insert. apply list_insert_id. by rewrite list_lookup_fmap, Hx. }
    split; [|exists (p_ofile x); rewrite Eo; split; [by apply ofiles_lookup|lia]].
    destruct Hs as [[H1 H2 H3 H4 H5] _]. split; rewrite ?Eo; try done.
    - unfold s2. cbn. by rewrite length_insert.
    - intros i y Hne Hy Hd. unfold s2 in Hy. cbn in Hy. rewrite list_lookup_insert_ne in Hy by congruence.
      by eapply H5. }
  clearbody s2. clear dependent s1. clear x.
  apply wlp_bind. eapply wlp_mono; [apply (wlp_for_range _ _ (exiting p) 0 NOFILE)|].
  - intros j t _ Ht. by apply wlp_exit_close.
  - exact Hex.
  - clear dependent s2. intros [] s (Hi & l & Hl & Hn). cbn [Nat.add] in Hn.
    assert (fd_ok s) as Hok.
    { destruct Hi as [H1 H2 H3 H4 H5]. split; try done. intros i x _ Hx Hd.
      destruct (decide (p = i)) as [<-|Hne]; [|apply (H5 i); congruence].
      rewrite (ofiles_lookup _ _ _ Hx) in Hl. injection Hl as <-.
      pose proof (Forall_lookup_1 _ _ _ _ H2 (ofiles_lookup _ _ _ Hx)) as Hlen. cbn in Hlen.
      apply Forall_lookup_2. intros j o Ho. pose proof (lookup_lt_Some _ _ _ Ho).
      specialize (Hn j ltac:(lia)). by rewrite Ho in Hn. }
    apply wlp_never; [keeps| |done]. repeat (apply never_bind; intros ?). done.
Qed.

Lemma maintains_sys_exit : maintains (sys_exit (D := D)).
Proof.
  intros s Hs. unfold sys_exit. apply wlp_read; [unfold argint; keeps|done|]. clear s Hs.
  intros st s Hs. by apply wlp_proc_exit.
Qed.

(** What a process that slept goes on with. *)
Lemma keeps_cons_read_resume f i n a : keeps (cons_read_resume (D := D) f i n a).
Proof. keeps. Qed.
Lemma keeps_piperead_resume pi a n : keeps (piperead_resume (D := D) pi a n).
Proof. keeps. Qed.
Lemma keeps_write_resume f a t l b i : keeps (write_resume (D := D) f a t l b i).
Proof. keeps. Qed.
Lemma keeps_wait_resume a : keeps (wait_resume (D := D) a).
Proof. keeps. Qed.
Lemma keeps_yield_resume : keeps (yield_resume (D := D)).
Proof. keeps. Qed.
End calls.
