(* ===== verification/FdSpec.v ===== *)
(** The whole kernel keeps its reference counts: system calls, traps, the
    scheduler's switches and start-up, on top of the calls of [FdCalls.v]. *)

From S2P Require Import Prelude Memory Kalloc Vm Str Bio Fs Kernel Spinlock Proc Pipe File Logic NoSleep FdInv FdCalls.
From S2P Require Import Console Syscall Sysfile Sysproc Exec Machine Virtio Trap Boot.
From S2P Require Import VmSpec ProcSpec VirtioSpec.

Section syscalls.
Context `{Image} {D : Type} `{BlockDev D}.

Lemma keeps_tf_ld p f : keeps (tf_ld (D := D) p f).
Proof. keeps. Qed.
Lemma keeps_tf_st p f v : keeps (tf_st (D := D) p f v).
Proof. keeps. Qed.
#[local] Hint Resolve keeps_tf_ld keeps_tf_st : keeps.
Lemma keeps_syscall_done r : keeps (syscall_done (D := D) r).
Proof. keeps. Qed.

(** Every entry of the system call table. *)
Lemma maintains_syscalls num m : syscalls (D := D) num = Some m -> maintains m.
Proof.
  unfold syscalls. intros Hm.
  repeat (destruct (num =? _) in Hm;
    [injection Hm as <-;
     solve [ apply maintains_sys_fork | apply maintains_sys_exit | apply maintains_sys_open
           | apply maintains_sys_close | apply maintains_sys_pipe | apply maintains_sys_dup
           | apply maintains_sys_dup2 | apply maintains_sys_fcntl
           | apply maintains_keeps; first
             [ apply keeps_sys_wait | apply keeps_sys_getpid | apply keeps_sys_sbrk | apply keeps_sys_exec
             | apply keeps_sys_write | apply keeps_sys_read | apply keeps_sys_fstat | apply keeps_sys_mkdir
             | apply keeps_sys_chdir | apply keeps_sys_unlink | apply keeps_sys_lseek
             | apply keeps_sys_ftruncate | apply keeps_sys_ioctl | apply keeps_sys_rename
             | apply keeps_sys_getcwd ] ]|]).
  done.
Qed.

Lemma maintains_syscall : maintains (syscall (D := D)).
Proof.
  unfold syscall. apply preserves_bind; [apply maintains_keeps; keeps|]. intros p.
  apply preserves_bind; [apply maintains_keeps; keeps|]. intros a7. cbv zeta.
  destruct (_ && _); [|apply maintains_keeps, keeps_syscall_done].
  destruct (syscalls _) as [m|] eqn:Hm; [|apply maintains_keeps, keeps_syscall_done].
  apply preserves_bind; [by apply maintains_syscalls in Hm|]. intros r. apply maintains_keeps, keeps_syscall_done.
Qed.
End syscalls.
#[export] Hint Resolve keeps_tf_ld keeps_tf_st keeps_syscall_done : keeps.

(* ------------------------------------------------------------------ *)
(** ** The machine around the kernel *)

Section machine.
Context `{Image} {D : Type} `{BlockDev D}.

Lemma maintains_exit {A} st : maintains (proc_exit (D := D) (A := A) st).
Proof. intros s Hs. by apply wlp_proc_exit. Qed.
Lemma maintains_fs {A} (m : M (fs D) A) : maintains (zoom k_fs kernel_set_fs m).
Proof. apply maintains_keeps, keeps_zoom_fs. intros. by eexists. Qed.
End machine.
#[export] Hint Resolve maintains_exit maintains_fs maintains_syscall : preserves.

Abbreviation mmaintains := (mpreserves fd_run fd_ok).
Ltac mm := mpreserves ltac:(fun _ => first [solve [auto with preserves nocore] | apply maintains_keeps; solve [keeps]]).

Section traps.
Context `{Image} `{DiskImage} {D : Type} `{BlockDev D}.
Variable sys_trap_vector : Z.

Lemma mm_uart_drain rx : mmaintains (uart_drain (D := D) rx).
Proof. induction rx; mm. Qed.
#[local] Hint Resolve mm_uart_drain : preserves.
Lemma mm_virtio_disk_intr : mmaintains (virtio_disk_intr (D := D)).
Proof. mm. Qed.
#[local] Hint Resolve mm_virtio_disk_intr : preserves.
Lemma mm_external_irq : mmaintains (external_irq (D := D)).
Proof. mm. Qed.
Lemma mm_usertrapret : mmaintains (usertrapret (D := D)).
Proof. mm. Qed.
#[local] Hint Resolve mm_external_irq mm_usertrapret : preserves.
Lemma mm_usertrap_finish : mmaintains (usertrap_finish (D := D)).
Proof. mm. Qed.
Lemma mm_forkret : mmaintains (forkret (D := D)).
Proof. mm. Qed.
#[local] Hint Resolve mm_usertrap_finish mm_forkret : preserves.
Lemma mm_usertrap_fault c : mmaintains (usertrap_fault (D := D) c).
Proof. mm. Qed.
#[local] Hint Resolve mm_usertrap_fault : preserves.
Lemma mm_usertrap : mmaintains (usertrap (D := D) sys_trap_vector).
Proof. mm. Qed.
Lemma mm_sys_trap_handler k : mmaintains (sys_trap_handler (D := D) k).
Proof. mm. Qed.

(** The same in the scheduler. *)
Lemma ok_keeps {A} (m : M (kernel D) A) : keeps m -> preserves fd_ok fd_ok m.
Proof. intros Hk s Hs. apply wlp_keeps; [done|done|]. intros _ s' Hq. by eapply fdinv_quiet. Qed.
Lemma ok_fs {A} (m : M (fs D) A) : preserves fd_ok fd_ok (zoom k_fs kernel_set_fs m).
Proof. apply ok_keeps, keeps_zoom_fs. intros. by eexists. Qed.
#[local] Hint Resolve ok_fs : preserves.
#[local] Ltac idle := mpreserves ltac:(fun _ => first [solve [auto with preserves nocore] | apply ok_keeps; solve [keeps]]).
Lemma idle_uart_drain rx : mpreserves fd_ok fd_ok (uart_drain (D := D) rx).
Proof. induction rx; idle. Qed.
#[local] Hint Resolve idle_uart_drain : preserves.
Lemma idle_trap_fd k : mpreserves fd_ok fd_ok (sys_trap_handler (D := D) k).
Proof. idle. Qed.

Lemma mm_resume_call m : keeps m -> mmaintains (resume_call (D := D) m).
Proof.
  intros Hm. unfold resume_call. apply preserves_bind; [|intros; apply mm_usertrap_finish].
  apply mpreserves_lk, maintains_keeps, keeps_bind; [done|]. intros. apply keeps_syscall_done.
Qed.
Lemma mm_resume k : mmaintains (resume (D := D) k).
Proof.
  destruct k; cbn [resume]; [mm|mm| |..].
  - apply preserves_bind; [|intros; apply mm_usertrap_finish]. apply mpreserves_lk, maintains_keeps, keeps_yield_resume.
  - apply mm_resume_call, keeps_cons_read_resume.
  - apply mm_resume_call, keeps_piperead_resume.
  - apply mm_resume_call, keeps_write_resume.
  - apply mm_resume_call, keeps_wait_resume.
  - mm.
  - mm.
Qed.
End traps.

(* ------------------------------------------------------------------ *)
(** ** The steps of the system *)

Section system.
Context `{Image} `{DiskImage} {D : Type} `{BlockDev D}.
Variable sys_trap_vector : Z.
Implicit Types s : machine D.
Implicit Types k : kernel D.

Lemma fdinv_tables X d k k' :
  k_procs k' = k_procs k -> k_ftable k' = k_ftable k -> fdinv X d k -> fdinv X d k'.
Proof.
  intros Ep Ef [H3 H4 H5 H6 H7]. assert (ofiles k' = ofiles k) as Eo by (unfold ofiles; by rewrite Ep).
  assert (refs k' = refs k) as Er by (unfold refs; by rewrite Ef). split; rewrite ?Eo, ?Er, ?Ep; done.
Qed.

Lemma scheduler_dispatch_fd i k :
  fd_ok k -> wlp (scheduler_dispatch i) (fun b k' => if b : bool then fd_run k' else fd_ok k') k.
Proof.
  intros Hk. unfold scheduler_dispatch. apply wlp_bind, wlp_keeps; [auto with keeps|done|]. intros [] k1 Hq.
  apply (fdinv_quiet _ _ _ _ Hq) in Hk. clear Hq k. apply wlp_bind, wlp_getp. intros x Hx.
  destruct (decide _) as [Hr|Hr].
  - apply wlp_bind. unfold pwlp at 1, setp. rewrite Hx. set (k2 := kernel_set_procs _ k1).
    assert (quiet k1 k2) as Hq.
    { apply (quiet_setp k1 i x (proc_set_status TASK_RUNNING)); [done|done|]. intros [Hd|[Hd|Hd]]; discriminate Hd. }
    apply (fdinv_quiet _ _ _ _ Hq) in Hk. clear Hq. split; [by eapply fdinv_tables; [| |exact Hk]|].
    intros p y [= <-] Hy Hd. unfold k2 in Hy. cbn in Hy.
    rewrite list_lookup_insert_eq in Hy by (by eapply lookup_lt_Some). injection Hy as <-.
    destruct Hd as [Hd|[Hd|Hd]]; discriminate Hd.
  - apply wlp_bind, wlp_keeps; [auto with keeps|done|]. intros [] k2 Hq.
    apply wlp_ret. by eapply fdinv_quiet.
Qed.

Lemma scheduler_return_fd i k : fd_ok k -> wlp (scheduler_return i) (fun _ k' => fd_ok k') k.
Proof.
  intros Hk. unfold scheduler_return. apply wlp_bind. unfold pwlp at 1, setcpu, modify.
  apply wlp_keeps; [auto with keeps|by eapply fdinv_tables; [| |exact Hk]|].
  intros [] k' Hq. by eapply fdinv_quiet; [exact Hq|eapply fdinv_tables; [| |exact Hk]].
Qed.

Lemma fd_ok_user s s' : user_effect s s' -> fd_run (m_k s) -> fd_run (m_k s').
Proof.
  intros (Ep & Ef & Ec & _) [Hok Ha]. split; [by eapply fdinv_tables; [exact Ep|exact Ef|]|].
  intros q y Hq Hy. rewrite Ec in Hq. rewrite Ep in Hy. by apply (Ha q y).
Qed.

Lemma sys_steps_fd x y :
  rtc (sys_step sys_trap_vector) x y -> sys_holds fd_ok (fun _ => fd_run) x -> sys_holds fd_ok (fun _ => fd_run) y.
Proof.
  apply sys_steps_hold with (R := fun _ => fd_run) (J := fun _ => fd_ok).
  - intros k Hk. apply wlp_keeps; [keeps|done|]. intros [] k' Hq. by eapply fdinv_quiet.
  - intros s s' (Ep & Ef & _) Hk. apply idle_trap_fd. by eapply fdinv_tables; [exact Ep|exact Ef|].
  - intros i k Hk. by apply scheduler_dispatch_fd.
  - intros _ c s Hs. by apply mm_resume.
  - done.
  - intros _ s s'. apply fd_ok_user.
  - intros _ s Hs. by apply mm_usertrap.
  - intros i k Hk. by apply scheduler_return_fd.
Qed.

(** The number of descriptors, in all processes, that refer to file [f]. *)
Definition descriptors k (f : nat) : Z :=
  Z.of_nat (length (filter (fun o => o = Some f) (mjoin (p_ofile <$> k_procs k)))).

(** The count of every file is its number of descriptors, no descriptor refers
    to a free file, and a process that is not there has none. *)
Record files_counted k : Prop := {
  fc_count : forall f x, k_ftable k !! f = Some x -> f_ref x = descriptors k f;
  fc_used : forall i x fd f, k_procs k !! i = Some x -> p_ofile x !! fd = Some (Some f) ->
    exists y, k_ftable k !! f = Some y /\ 1 <= f_ref y;
  fc_dead : forall i x, k_procs k !! i = Some x ->
    p_status x = TASK_FREE \/ p_status x = TASK_ALLOCATED \/ p_status x = TASK_ZOMBIE ->
    Forall (fun o => o = None) (p_ofile x);
}.
Lemma fd_ok_counted k : fd_ok k -> files_counted k.
Proof.
  intros [H3 H4 H5 H6 H7].
  assert (forall f x, k_ftable k !! f = Some x -> f_ref x = descriptors k f) as Hc.
  { intros f x Hx. rewrite (H5 f (f_ref x)); [unfold none; apply Z.add_0_r|].
    unfold refs. by rewrite list_lookup_fmap, Hx. }
  split; [done| |intros i x Hx Hd; by eapply H7].
  intros i x fd f Hx Hf. pose proof (fd_count_pos f i fd _ _ (ofiles_lookup _ _ _ Hx) Hf) as Hpos.
  pose proof (H6 f Hpos) as Hlt. unfold refs in Hlt. rewrite length_fmap in Hlt.
  destruct (lookup_lt_is_Some_2 (k_ftable k) f Hlt) as [y Hy]. exists y. split; [done|].
  rewrite (Hc f y Hy). unfold descriptors, fd_count in *. fold (ofiles k). lia.
Qed.

(** The tables have the sizes the kernel was built with. *)
Definition tables_sized k : Prop :=
  length (k_procs k) = NPROC /\ Forall (fun x => length (p_ofile x) = NOFILE) (k_procs k).
Lemma counted_fd_ok k : tables_sized k -> files_counted k -> fd_ok k.
Proof.
  intros [Hp Hl] [Hc Hu Hd]. split; [done| | | |].
  - unfold ofiles. by apply Forall_fmap.
  - intros f v Hv. unfold refs in Hv. rewrite list_lookup_fmap in Hv.
    destruct (k_ftable k !! f) as [x|] eqn:Hx; [|done]. injection Hv as <-.
    rewrite (Hc f x Hx). unfold none. rewrite Z.add_0_r. reflexivity.
  - intros f Hf. unfold fd_count in Hf.
    destruct (filter (fun o => o = Some f) (mjoin (ofiles k))) as [|o r] eqn:E; [cbn in Hf; lia|].
    assert (o ∈ filter (fun o => o = Some f) (mjoin (ofiles k))) as Ho by (rewrite E; left).
    apply list_elem_of_filter in Ho as [-> Ho]. apply list_elem_of_join in Ho as (l & Hin & Hl').
    apply list_elem_of_lookup in Hin as [fd Hfd]. apply list_elem_of_lookup in Hl' as [i Hi].
    destruct (ofiles_inv _ _ _ Hi) as (x & Hx & <-). destruct (Hu i x fd f Hx Hfd) as (y & Hy & _).
    unfold refs. rewrite length_fmap. by eapply lookup_lt_Some.
  - intros i x _ Hx Hdx. by apply (Hd i x).
Qed.

(** C1: No path of a system call, a fault, an interrupt or an exit loses or forgets
    a reference to an open file, in the executions in which kernel code runs
    undisturbed. A step of [sys_step] is a round of the scheduler, an interrupt
    taken in the scheduler, or a trap or a switch run to its end: to user mode, to the exit, or to where the process gives
    up the CPU in a pipe, in [wait], at the console or at a timer tick in user
    mode. From tables in which the count of each file is the number of descriptors
    that refer to it, after any sequence of such steps, with any system calls and
    arguments, the count of each file is the number of its descriptors, no
    descriptor refers to a file the table holds as free, and an entry of the
    process table without a process has no descriptors. Nothing is claimed of the
    states inside a step, nor of executions in which the timer preempts kernel
    code or another process runs while one waits for the disk: there it is false
    of the code, which closes a file before it clears the descriptor ([sys_dup2],
    [proc_exit]) and counts references without a lock. *)
Theorem reference_counts s0 s m :
  tables_sized (m_k s0) -> files_counted (m_k s0) ->
  rtc (sys_step sys_trap_vector) (s0, InScheduler) (s, m) ->
  files_counted (m_k s).
Proof.
  intros Ht Hc Hsteps. pose proof (sys_steps_fd _ _ Hsteps (counted_fd_ok _ Ht Hc)) as Hx.
  apply fd_ok_counted. destruct m as [|tf satp]; [exact Hx|]. destruct Hx as [p Hx]. apply Hx.
Qed.
End system.

(* ------------------------------------------------------------------ *)
(** ** Start-up *)

Section startup.
Context `{Image} `{DiskImage} {D : Type} `{BlockDev D}.
Implicit Types k : kernel D.

(** What holds where a computation returns. *)
Definition ends {S A} (m : M S A) (Q : A -> S -> Prop) s : Prop :=
  match m s with Ok a s' => Q a s' | _ => True end.
Lemma ends_bind {S A B} (m : M S A) (k : A -> M S B) Q s :
  ends m (fun a s' => ends (k a) Q s') s -> ends (bind m k) Q s.
Proof. unfold ends, bind. by destruct (m s). Qed.
Lemma ends_keeps {A} (m : M (kernel D) A) (Q : A -> kernel D -> Prop) k :
  keeps m -> (forall a k', quiet k k' -> Q a k') -> ends m Q k.
Proof. intros Hm HQ. specialize (Hm k). unfold ends. destruct (m k); [by apply HQ|done|done]. Qed.
Lemma ends_wlp {A} (m : M (kernel D) A) (Q : A -> kernel D -> Prop) k : wlp m Q k -> ends m Q k.
Proof. unfold pwlp, ends. by destruct (m k). Qed.

(** Tables without a descriptor, and no process running. *)
Record fresh k : Prop := {
  fr_of : ofiles k = replicate NPROC (replicate NOFILE None);
  fr_refs : refs k = replicate NFILE 0;
  fr_cur : c_proc (k_cpu k) = None;
}.
Lemma fresh_quiet k k' : quiet k k' -> fresh k -> fresh k'.
Proof. intros [E1 E2 E3 _] [H3 H4 H5]. split; congruence. Qed.
Lemma fresh_ok k : fresh k -> fd_run k.
Proof.
  intros [Eo Er Ec]. assert (forall f, fd_count f (replicate NPROC (replicate NOFILE None)) = 0%nat) as Hz.
  { intros f. reflexivity. }
  split; [split|].
  - pose proof (f_equal length Eo) as E. unfold ofiles in E. by rewrite length_fmap, length_replicate in E.
  - rewrite Eo. by apply Forall_replicate.
  - intros f v Hv. rewrite Er in Hv. apply lookup_replicate in Hv as [-> _]. by rewrite Eo, Hz.
  - intros f Hf. rewrite Eo, Hz in Hf. lia.
  - intros i x _ Hx _. apply ofiles_lookup in Hx. rewrite Eo in Hx. apply lookup_replicate in Hx as [-> _].
    by apply Forall_replicate.
  - intros p x Hp. congruence.
Qed.

Lemma procinit_fresh k : fresh k -> ends procinit (fun _ k' => fresh k') k.
Proof.
  unfold procinit. revert k. generalize 0%nat. induction NPROC as [|n IH]; intros i k Hk; [done|].
  cbn [for_range]. apply ends_bind, ends_bind. unfold ends at 1, setp at 1.
  destruct (k_procs k !! i) as [x|] eqn:Hx; [|done]. apply ends_keeps; [keeps|]. intros [] k' Hq.
  apply IH, (fresh_quiet _ _ Hq). destruct Hk as [Eo Er Ec]. split; [|exact Er|exact Ec].
  rewrite <- Eo. unfold ofiles. cbn. rewrite list_fmap_insert. apply list_insert_id.
  by rewrite list_lookup_fmap, Hx.
Qed.

(** The entry [userinit] fills in: nothing refers to it yet. *)
Lemma ends_spare {A B} (m : M (kernel D) A) (c : A -> M (kernel D) B) (Q : B -> kernel D -> Prop) p k :
  keeps m -> fd_run k /\ spare p k ->
  (forall a k', fd_run k' /\ spare p k' -> ends (c a) Q k') -> ends (bind m c) Q k.
Proof.
  intros Hm [Hk Hp] Hc. apply ends_bind, ends_keeps; [done|]. intros a k' Hq.
  apply Hc. split; [by eapply fd_run_quiet|by eapply spare_quiet].
Qed.
Lemma userinit_free p k :
  fd_run k /\ spare p k ->
  ends (setp p (proc_set_status TASK_FREE) ;;; release (LkProc p)) (fun _ k' => fd_ok k') k.
Proof.
  intros [Hk Hp]. apply ends_wlp, wlp_bind. eapply (wlp_set_dead p); [exact Hk|exact Hp|by intros []|].
  intros k' Hk'. apply wlp_keeps; [auto with keeps|apply Hk'|]. intros [] k'' Hq. eapply fdinv_quiet; [exact Hq|apply Hk'].
Qed.

(** With descriptors being filled in. *)
Definition filling (p : nat) (d : nat -> Z) (i : nat) k : Prop :=
  fdinv (Some p) d k /\
  exists l, ofiles k !! p = Some l /\ forall j, (i <= j < NOFILE)%nat -> l !! j = Some None.
Lemma filling_quiet p d i k k' : quiet k k' -> filling p d i k -> filling p d i k'.
Proof. intros Hq [Hi (l & Hl & Hn)]. split; [by eapply fdinv_quiet|]. exists l. by rewrite (qt_of _ _ Hq). Qed.
Lemma ends_filling {A B} (m : M (kernel D) A) (c : A -> M (kernel D) B) (Q : B -> kernel D -> Prop) p d i k :
  keeps m -> filling p d i k ->
  (forall a k', filling p d i k' -> ends (c a) Q k') -> ends (bind m c) Q k.
Proof.
  intros Hm Hk Hc. apply ends_bind, ends_keeps; [done|]. intros a k' Hq. by eapply Hc, filling_quiet.
Qed.
Definition dopt (o : option nat) (d : nat -> Z) : nat -> Z :=
  match o with Some f => dadd f 1 d | None => d end.
Lemma ends_filealloc {B} (c : option nat -> M (kernel D) B) (Q : B -> kernel D -> Prop) p d i n k :
  filling p d i k -> length (refs k) = n ->
  (forall o k', (forall f, o = Some f -> (f < n)%nat) -> length (refs k') = n ->
     filling p (dopt o d) i k' -> ends (c o) Q k') ->
  ends (bind filealloc c) Q k.
Proof.
  intros Hk <- Hs. apply ends_bind, ends_wlp, wlp_filealloc; [by apply Hs|]. intros f k' Hc.
  apply Hs; [intros g [= <-]; by eapply counted_valid|by eapply counted_len|].
  destruct Hk as [Hi (l & Hl & Hfr)]. split; [by eapply fdinv_counted|]. exists l. by rewrite (ct_of _ _ _ _ Hc).
Qed.
Lemma ends_give {B} (c : unit -> M (kernel D) B) (Q : B -> kernel D -> Prop) p d i f n k :
  filling p d i k -> length (refs k) = n -> (i < NOFILE)%nat -> (f < n)%nat ->
  (forall k', length (refs k') = n -> filling p (dadd f (-1) d) (S i) k' -> ends (c tt) Q k') ->
  ends (bind (set_ofile p i (Some f)) c) Q k.
Proof.
  intros [Hi (l & Hl & Hn)] <- Hlt Hf Hs. apply ends_bind, ends_wlp.
  eapply wlp_give_fd; [exact Hi|exact Hl|apply Hn; lia|exact Hf|by left|]. intros k' Has Hi'.
  apply Hs; [by rewrite (as_refs _ _ _ _ _ Has)|]. split; [done|]. exists (<[i := Some f]> l).
  rewrite (as_of _ _ _ _ _ Has), list_lookup_alter_eq, Hl. split; [done|].
  intros j Hj. rewrite list_lookup_insert_ne by lia. apply Hn. lia.
Qed.

Variable initcode : list Z.

Lemma keeps_initcode_body pt sz off : keeps (initcode_body (D := D) initcode pt sz off).
Proof. keeps. Qed.
Lemma keeps_console_file f r w : keeps (console_file (D := D) f r w).
Proof. keeps. Qed.
#[local] Hint Resolve keeps_initcode_body keeps_console_file : keeps.

Lemma userinit_ready p i k :
  filling p none i k ->
  ends (setp p (proc_set_status TASK_READY) ;;; release (LkProc p)) (fun _ k' => fd_ok k') k.
Proof.
  intros [Hi _]. apply ends_bind. unfold ends at 1, setp at 1.
  destruct (k_procs k !! p) as [x|] eqn:Hx; [|done].
  assert (~ dead (proc_set_status TASK_READY x)) as Hnd by (intros [Hd|[Hd|Hd]]; discriminate Hd).
  pose proof (quiet_setp k p x (proc_set_status TASK_READY) Hx eq_refl ltac:(done)) as Hq.
  apply ends_keeps; [auto with keeps|]. intros [] k' Hq'. apply (fdinv_quiet _ _ _ _ Hq').
  apply (fdinv_quiet _ _ _ _ Hq) in Hi. destruct Hi as [? ? ? ? Hclean]. split; try done.
  intros j y _ Hy Hd. apply (Hclean j); [|done|done]. intros [= <-].
  cbn in Hy. rewrite list_lookup_insert_eq in Hy by (by eapply lookup_lt_Some). injection Hy as <-. done.
Qed.

Lemma ends_console_file {B} (c : nat -> M (kernel D) B) (Q : B -> kernel D -> Prop) f r w p d i n k :
  filling p d i k -> length (refs k) = n ->
  (forall k', length (refs k') = n -> filling p d i k' -> ends (c f) Q k') ->
  ends (bind (console_file (Some f) r w) c) Q k.
Proof.
  intros Hk <- Hc. apply ends_bind. unfold console_file.
  do 3 (apply ends_bind, ends_keeps; [keeps|]; intros [] ? ?).
  apply Hc; [by do 3 (erewrite qt_refs by eassumption)|]. by do 3 (eapply filling_quiet; [eassumption|]).
Qed.

(** The three standard streams. *)
Lemma userinit_files p k :
  fd_run k /\ spare p k ->
  ends (let! f0 := filealloc in
        let! f1 := filealloc in
        let! f2 := filealloc in
        let! f0 := console_file f0 1 0 in
        let! f1 := console_file f1 0 1 in
        let! f2 := console_file f2 0 1 in
        set_ofile p 0 (Some f0) ;;;
        set_ofile p 1 (Some f1) ;;;
        set_ofile p 2 (Some f2) ;;;
        let! cwd := lfs (namei None (uninit DIRSIZ) [47]) in
        setp p (proc_set_cwd cwd) ;;;
        setp p (fun x => proc_set_cwd_path
          (safestrcpy (p_cwd_path x) [47] (Z.of_nat MAXPATH)) x) ;;;
        setp p (proc_set_name (str_addr "proczero")) ;;;
        setp p (proc_set_status TASK_READY) ;;;
        release (LkProc p)) (fun _ k' => fd_ok k') k.
Proof.
  intros [[Hi _] [_ (l & Hl & Hn)]].
  assert (filling p none 0 k) as Hf.
  { pose proof (Forall_lookup_1 _ _ _ _ (fi_len _ _ _ Hi) Hl) as Hlen. cbn in Hlen.
    split; [destruct Hi as [? ? ? ? Hc]; split; eauto|]. exists l. split; [done|]. intros j Hj.
    destruct (lookup_lt_is_Some_2 l j) as [o Ho]; [lia|]. rewrite Ho. f_equal. apply (Forall_lookup_1 _ _ _ _ Hn Ho). }
  clear Hi l Hl Hn. remember (length (refs k)) as n eqn:En. symmetry in En.
  do 3 (eapply ends_filealloc; [exact Hf|exact En|]; clear dependent k; intros ? k ? En Hf).
  destruct o as [f0|]; [|done]. eapply ends_console_file; [exact Hf|exact En|]. clear dependent k. intros k En Hf.
  destruct o0 as [f1|]; [|done]. eapply ends_console_file; [exact Hf|exact En|]. clear dependent k. intros k En Hf.
  destruct o1 as [f2|]; [|done]. eapply ends_console_file; [exact Hf|exact En|]. clear dependent k. intros k En Hf.
  do 3 (eapply ends_give; [exact Hf|exact En|unfold NOFILE; lia|by auto|]; clear dependent k; intros k En Hf).
  do 4 (eapply ends_filling; [keeps|exact Hf|]; clear dependent k; intros ? k Hf).
  eapply (userinit_ready p 3). destruct Hf as [Hi Hl]. split; [|exact Hl].
  eapply fdinv_ext; [|exact Hi]. intros g. cbn [dopt]. unfold dadd, none. repeat case_decide; lia.
Qed.

Lemma userinit_counted k : fd_run k -> ends (userinit initcode) (fun _ k' => fd_ok k') k.
Proof.
  intros Hk. unfold userinit. apply ends_bind.
  pose proof (allocproc_kept k) as Hp. unfold kept in Hp. unfold ends at 1.
  destruct (allocproc k) as [[p|] k1|c k1|e]; [|done..]. destruct Hp as [Hq Hp].
  destruct (Hp p eq_refl) as (x & Hx & Hd). clear Hp. 
  assert (fd_run k1) as Hr by (by eapply fd_run_quiet).
  assert (fd_run k1 /\ spare p k1) as Hs.
  { split; [done|]. split; [intros Hc; by apply (proj2 Hr p x)|]. exists (p_ofile x).
    split; [by apply ofiles_lookup|]. by apply (fi_clean _ _ _ (proj1 Hr) p). }
  clear dependent x. clear dependent k. clear Hr. rename k1 into k.
  do 3 (eapply ends_spare; [keeps|exact Hs|]; clear dependent k; intros ? k Hs).
  destruct (_ =? 0); [by apply userinit_free|].
  do 7 (eapply ends_spare; [keeps|exact Hs|]; clear dependent k; intros ? k Hs).
  destruct (negb _); [by apply userinit_free|].
  do 7 (eapply ends_spare; [keeps|exact Hs|]; clear dependent k; intros ? k Hs).
  by apply userinit_files.
Qed.

(** Driver code that leaves the kernel's tables alone. *)
Definition mstill {A} (m : M (machine D) A) : Prop :=
  forall s, match m s with Ok _ s' => m_k s' = m_k s | _ => True end.
Lemma mstill_bind {A B} (m : M (machine D) A) (c : A -> M (machine D) B) :
  mstill m -> (forall a, mstill (c a)) -> mstill (bind m c).
Proof.
  intros Hm Hc s. specialize (Hm s). unfold bind. destruct (m s) as [a s1|x s1|e]; [|done|done].
  specialize (Hc a s1). destruct (c a s1); [congruence|done|done].
Qed.
Lemma mstill_for_range i n (body : nat -> M (machine D) unit) :
  (forall i, mstill (body i)) -> mstill (for_range i n body).
Proof. intros Hb. revert i. induction n as [|n IH]; intros i; [done|]. by apply mstill_bind. Qed.
Ltac mstill_step :=
  lazymatch goal with
  | |- mstill (bind _ _) => apply mstill_bind; [|intros ?]
  | |- mstill (for_range _ _ _) => apply mstill_for_range; intros ?
  | |- mstill (modify _) => intros []; reflexivity
  | |- mstill (gets _) => intros ?; reflexivity
  | |- mstill (ret _) => intros ?; reflexivity
  | |- mstill (lk (panic _)) => intros ?; exact I
  | |- mstill (let _ := _ in _) => cbv zeta
  | |- mstill (match ?x with _ => _ end) => destruct x
  | |- mstill ?m => let h := head_of m in unfold h
  end.
Lemma mstill_virtio_disk_init : mstill (virtio_disk_init (D := D)).
Proof. repeat mstill_step. Qed.
Lemma mstill_trapinithart stv : mstill (trapinithart (D := D) stv).
Proof. repeat mstill_step. Qed.
Lemma ends_mstill {A} (m : M (machine D) A) (Q : A -> machine D -> Prop) s :
  mstill m -> (forall a s', m_k s' = m_k s -> Q a s') -> ends m Q s.
Proof. intros Hm HQ. specialize (Hm s). unfold ends. destruct (m s); [by apply HQ|done|done]. Qed.
Lemma ends_lk {A} (m : M (kernel D) A) (Q : A -> machine D -> Prop) s :
  ends m (fun a k => forall s', m_k s' = k -> Q a s') (m_k s) -> ends (lk m) Q s.
Proof. unfold ends, lk, zoom. destruct (m (m_k s)); [|done|done]. intros HQ. by apply HQ. Qed.

Lemma keeps_set_pagetable pt : keeps (modify (kernel_set_pagetable (D := D) pt)).
Proof. intros []. split; eauto. Qed.
#[local] Hint Resolve keeps_set_pagetable : keeps.
Lemma ends_fresh {A B} (m : M (kernel D) A) (c : A -> M (machine D) B) (Q : B -> machine D -> Prop) s :
  keeps m -> fresh (m_k s) -> (forall a s', fresh (m_k s') -> ends (c a) Q s') -> ends (bind (lk m) c) Q s.
Proof.
  intros Hm Hs Hc. apply ends_bind, ends_lk, ends_keeps; [done|]. intros a k Hq s' <-.
  by eapply Hc, fresh_quiet.
Qed.

(** [start_main] up to the call of [scheduler], from the tables the loader
    zeroed, leaves tables the invariant holds of. *)
Lemma start_main_counted stv (s : machine D) :
  fresh (m_k s) ->
  ends (start_main stv initcode)
    (fun _ s' => tables_sized (m_k s') /\ files_counted (m_k s')) s.
Proof.
  intros Hs. unfold start_main. eapply ends_fresh; [keeps|exact Hs|]. clear s Hs. intros _ s Hs.
  apply ends_bind. eapply ends_fresh; [keeps|exact Hs|]. clear s Hs. intros kpt s Hs.
  apply ends_lk, ends_keeps; [keeps|]. intros _ k Hq s' <-. apply (fresh_quiet _ _ Hq) in Hs. clear s Hq.
  rename s' into s. apply ends_bind. unfold ends at 1, get. apply ends_bind, ends_mstill; [apply mstill_trapinithart|].
  intros _ s1 E. rewrite <- E in Hs. set (satp := kvminithart _). clearbody satp. clear s E.
  eapply ends_fresh; [keeps|exact Hs|]. clear s1 Hs. intros _ s Hs.
  apply ends_bind, ends_lk. pose proof (procinit_fresh _ Hs) as Hp. unfold ends in Hp |- *.
  destruct (procinit (m_k s)) as [[] k|c k|e]; [|done|done]. intros s1 <-. clear s Hs.
  change (ends (virtio_disk_init ;;; lk (lfs (fsinit ROOTDEV)) ;;; lk (userinit initcode) ;;; ret satp)
    (fun _ s' => tables_sized (m_k s') /\ files_counted (m_k s')) s1).
  apply ends_bind, ends_mstill; [apply mstill_virtio_disk_init|]. intros _ s E. rewrite <- E in Hp. clear s1 E.
  eapply ends_fresh; [keeps|exact Hp|]. clear s Hp. intros _ s Hs. apply ends_bind, ends_lk.
  pose proof (userinit_counted (m_k s) (fresh_ok _ Hs)) as Hu. unfold ends in Hu |- *.
  destruct (userinit initcode (m_k s)) as [[] k|c k|e]; [|done|done]. intros s1 <-. cbn.
  split; [split; [apply Hu|]|by apply fd_ok_counted]. pose proof (fi_len _ _ _ Hu) as Hl.
  unfold ofiles in Hl. by apply Forall_fmap in Hl.
Qed.
End startup.

(* ------------------------------------------------------------------ *)
(** ** A concrete run: the first process duplicates a descriptor *)

Section witnesses.
#[local] Existing Instance sample_image.
#[local] Existing Instance sample_disk_image.

Definition sample_tf : Z := PHYSTOP - PGSIZE.
Definition sample_ready_proc : proc :=
  proc_set_ofile (<[0%nat := Some 0%nat]> (p_ofile proc0))
    (proc_set_trapframe sample_tf (proc_set_kont KForkret (proc_set_status TASK_READY proc0))).
Definition sample_system : machine memdisk :=
  let k := kernel0 ∅ ∅ in
  Machine (kernel_set_procs (<[0%nat := sample_ready_proc]> (k_procs k))
      (kernel_set_ftable (<[0%nat := file_set_ref 1 file0]> (k_ftable k)) k))
    sample_vdisk (Csr 0 0 0 0 0 0 0) [] 0 [] [].

Definition state_of {S A} (m : res S A) (s : S) : S :=
  match m with Ok _ s' | Sleep _ s' => s' | Stop _ => s end.
Definition returns {S A} (m : res S A) (a : A) : Prop := match m with Ok b _ => a = b | _ => False end.
Lemma returns_ok {S A} (m : res S A) a s : returns m a -> m = Ok a (state_of m s).
Proof. unfold returns. destruct m; [by intros ->|done|done]. Qed.

Lemma outcome_returns p (r : res (machine memdisk) (Z * Z)) tf satp s :
  returns r (tf, satp) -> run_outcome p r (state_of r s) (InUser tf satp).
Proof. unfold returns. destruct r as [[tf' satp'] s1|c s1|e]; [|done|done]. by intros [= -> ->]. Qed.

(** Switched to, then back in the kernel with the number of [dup] in [a7]. *)
Definition sample_on : machine memdisk := state_of (lk intr_on sample_system) sample_system.
(** A timer tick in the scheduler. *)
Definition tick (s : machine memdisk) : machine memdisk :=
  Machine (kernel_set_cpu (cpu_set_sie false (k_cpu (m_k s))) (m_k s)) (m_disk s)
    (csr_set_sstatus SSTATUS_SPP (csr_set_scause (SCAUSE_IRQ + 1) (m_csr s))) [] 0 [] [].
Lemma tick_effect s : user_effect s (tick s).
Proof. destruct s as [[] ? ? ? ? ? ?]. repeat split. Qed.
Definition sample_ticked : machine memdisk := state_of (sys_trap_handler KNone (tick sample_on)) (tick sample_on).
Definition sample_idle : machine memdisk := state_of (lk intr_on sample_ticked) sample_ticked.
Definition sample_chosen : machine memdisk := state_of (lk (scheduler_dispatch 0) sample_idle) sample_idle.
Definition sample_user : machine memdisk := state_of (resume KForkret sample_chosen) sample_chosen.
Definition ecall (num : Z) (s : machine memdisk) : machine memdisk :=
  let k := m_k s in
  let f := k_fs k in
  Machine (kernel_set_cpu (cpu_set_sie false (k_cpu k))
      (kernel_set_fs (Fs (KMem (wr64 (km_mem (f_km f)) (sample_tf + 8 * TF_a7) num) (free_mem_list (f_km f)))
         (f_bio f) (icache f)) k))
    (m_disk s) (csr_set_scause 8 (m_csr s)) [] 0 [] [].
Lemma ecall_effect num s : user_effect s (ecall num s).
Proof. destruct s as [[] ? ? ? ? ? ?]. repeat split. Qed.
Definition sample_ecall : machine memdisk := ecall 23 sample_user.
Definition sample_back : machine memdisk := state_of (usertrap 0 sample_ecall) sample_ecall.

Lemma sample_steps :
  rtc (sys_step 0) (sample_system, InScheduler) (sample_back, InUser sample_tf (MAKE_SATP 0)).
Proof.
  eapply rtc_l; [|eapply rtc_l; [|eapply rtc_l; [|apply rtc_once]]].
  - apply (step_round 0 sample_system sample_on). apply returns_ok. vm_compute. reflexivity.
  - apply (step_irq 0 sample_on (tick sample_on) sample_ticked sample_idle).
    + vm_compute. reflexivity.
    + apply tick_effect.
    + apply returns_ok. vm_compute. reflexivity.
    + apply returns_ok. vm_compute. reflexivity.
  - eapply (step_switch 0 sample_idle 0 sample_ready_proc sample_user
      (InUser sample_tf (MAKE_SATP 0))) with (s2 := sample_chosen).
    + vm_compute. reflexivity.
    + apply returns_ok. vm_compute. reflexivity.
    + change (p_kont sample_ready_proc) with KForkret. unfold sample_user.
      apply outcome_returns. vm_compute. reflexivity.
  - apply (step_trap 0 sample_user 0 sample_tf (MAKE_SATP 0) sample_ecall).
    + vm_compute. reflexivity.
    + apply ecall_effect.
    + unfold sample_back. apply outcome_returns. vm_compute. reflexivity.
Qed.

Lemma sample_sized : tables_sized (m_k sample_system).
Proof. split; [reflexivity|]. repeat constructor. Qed.
Lemma sample_descriptors f : descriptors (m_k sample_system) f = hits f (Some 0%nat).
Proof.
  pose proof (fd_count_insert f 0 0 (replicate NOFILE None) None (Some 0%nat)
    (replicate NPROC (replicate NOFILE None)) eq_refl eq_refl) as E.
  change (replicate NPROC (replicate NOFILE None)) with (p_ofile <$> replicate NPROC proc0) in E at 2.
  unfold descriptors. etransitivity; [exact E|]. reflexivity.
Qed.
Lemma sample_procs_lookup i x :
  k_procs (m_k sample_system) !! i = Some x -> i = 0%nat /\ x = sample_ready_proc \/ x = proc0.
Proof.
  change (k_procs (m_k sample_system)) with (<[0%nat := sample_ready_proc]> (replicate NPROC proc0)).
  intros Hx. apply list_lookup_insert_Some in Hx as [(-> & <- & _)|[_ Hx]]; [by left|right].
  by apply lookup_replicate in Hx as [-> _].
Qed.
Lemma sample_counted : files_counted (m_k sample_system).
Proof.
  assert (k_ftable (m_k sample_system) = <[0%nat := file_set_ref 1 file0]> (replicate NFILE file0)) as Ef
    by reflexivity.
  split.
  - intros f x Hx. rewrite sample_descriptors. rewrite Ef in Hx.
    apply list_lookup_insert_Some in Hx as [(<- & <- & _)|[Hne Hx]]; [reflexivity|].
    apply lookup_replicate in Hx as [-> _]. unfold hits. rewrite decide_False by congruence. reflexivity.
  - intros i x fd f Hx Hf. apply sample_procs_lookup in Hx as [[-> ->]| ->].
    + change (p_ofile sample_ready_proc) with (<[0%nat := Some 0%nat]> (replicate NOFILE (@None nat))) in Hf.
      apply list_lookup_insert_Some in Hf as [(<- & [= <-] & _)|[_ Hf]].
      * exists (file_set_ref 1 file0). split; [reflexivity|cbn; lia].
      * by apply lookup_replicate in Hf as [? _].
    + change (p_ofile proc0) with (replicate NOFILE (@None nat)) in Hf. by apply lookup_replicate in Hf as [? _].
  - intros i x Hx Hd. apply sample_procs_lookup in Hx as [[-> ->]| ->].
    + destruct Hd as [Hd|[Hd|Hd]]; discriminate Hd.
    + change (p_ofile proc0) with (replicate NOFILE (@None nat)). by apply Forall_replicate.
Qed.

Lemma reference_counts_witness :
  exists s m, rtc (sys_step 0) (sample_system, InScheduler) (s, m) /\ files_counted (m_k s) /\
    f_ref <$> k_ftable (m_k s) !! 0%nat = Some 2.
Proof.
  exists sample_back, (InUser sample_tf (MAKE_SATP 0)). split; [exact sample_steps|]. split.
  - exact (reference_counts 0 sample_system sample_back _ sample_sized sample_counted sample_steps).
  - vm_compute. reflexivity.
Defined.
End witnesses.
