(* ===== verification/LockSpec.v ===== *)
(** No path of the kernel leaks a lock: traps, interrupts and switches on top of
    the calls of [LockCalls.v], and what every reachable state of the system
    looks like. *)

From S2P Require Import Prelude Memory Kalloc Vm Str Bio Fs Kernel Spinlock Proc Pipe File Logic NoSleep LockInv LockCalls.
From S2P Require Import Console Syscall Sysfile Sysproc Exec Machine Virtio Trap Boot VmSpec ProcSpec VirtioSpec FdSpec.

(* ------------------------------------------------------------------ *)
(** ** Traps and interrupts *)

Section machine.
Context `{Image} `{DiskImage} {D : Type} `{BlockDev D}.
Implicit Types s : machine D.

Lemma proper_running : proper TASK_RUNNING.
Proof. by left. Qed.
#[local] Ltac mpres := pose proof proper_running; mpreserves ltac:(fun _ => pres).

(** Device interrupts, with or without a process on the CPU. *)
Section interrupts.
Context (c : option nat) (J : kernel D -> Prop).
#[local] Notation mpres_on := (mpreserves (at_cpu (D := D) c TASK_RUNNING 0 []) J).
Lemma mp_uart_drain rx : mpres_on (uart_drain rx).
Proof. induction rx; mpres. Qed.

(** The disk's interrupt handler runs inside its own lock. *)
Lemma mp_virtio_disk_intr : mpres_on virtio_disk_intr.
Proof.
  pose proof proper_running as Hx. intros s Hs. unfold virtio_disk_intr, vacquire, vrelease.
  set (I := fun k : kernel D => at_cpu c TASK_RUNNING 1 [] k).
  apply wlp_bind, wlp_bind, wlp_lk. eapply wlp_push_off; [exact Hs|lia|]. intros k Hk _ s1 <-.
  eapply wlp_mono; [refine ((_ : mpreserves I J _) s1 Hk); unfold I; mpreserves ltac:(fun _ => pres)|].
  clear s Hs Hk. intros [] s Hs. unfold I in Hs.
  do 3 (eapply (wlp_keep (fun s => at_cpu c TASK_RUNNING 1 [] (m_k s))); [|exact Hs|];
    [mpreserves ltac:(fun _ => pres)|]; clear s Hs; intros ? s Hs).
  eapply (wlp_keep (fun s => at_cpu c TASK_RUNNING 1 [] (m_k s))); [|exact Hs|].
  { mpreserves ltac:(fun _ => pres). }
  clear s1 Hs. intros _ s2 Hs. apply wlp_lk. eapply wlp_pop_off; [exact Hs|lia|cbn; lia|].
  intros k1 Hk1 _ s3 <-. exact Hk1.
Qed.
#[local] Hint Resolve mp_uart_drain mp_virtio_disk_intr : preserves.
Lemma mp_external_irq : mpres_on external_irq.
Proof. mpres. Qed.
End interrupts.

Lemma idle_yield {A} J k : preserves (at_cpu (D := D) None TASK_RUNNING 0 []) J (yield (A := A) k).
Proof. intros s Hs. unfold yield, myproc. apply wlp_bind. unfold pwlp. by rewrite (ac_cur _ _ _ _ _ Hs). Qed.
(** The handler of kernel traps, in the scheduler: a timer tick finds no process
    to preempt. *)
Lemma mp_idle_trap J k :
  mpreserves (at_cpu (D := D) None TASK_RUNNING 0 []) J (sys_trap_handler k).
Proof.
  pose proof proper_running as Hx. pose proof mp_external_irq as Hirq. unfold sys_trap_handler.
  repeat preserves_step ltac:(fun _ => first [apply Hirq | apply mpreserves_lk, idle_yield | mpreserves_leaf ltac:(fun _ => pres)]).
Qed.

Variable p : nat.
#[local] Notation running := (at_cpu (D := D) (Some p) TASK_RUNNING 0 []).
#[local] Notation mpres := (mpreserves running (off_cpu p)).
#[local] Hint Resolve pres_syscall : preserves.
#[local] Hint Resolve mp_external_irq : preserves.
Lemma mp_usertrapret : mpres usertrapret.
Proof. mpres. Qed.
#[local] Hint Resolve mp_usertrapret : preserves.
Lemma mp_exit {A} st : mpres (lk (proc_exit (A := A) st)).
Proof. apply mpreserves_lk. intros k Hk. by eapply at_proc_exit. Qed.
#[local] Hint Resolve mp_exit : preserves.
Lemma mp_usertrap_finish : mpres usertrap_finish.
Proof. mpres. Qed.
#[local] Hint Resolve mp_usertrap_finish : preserves.
Lemma mp_usertrap_fault c : mpres (usertrap_fault c).
Proof. mpres. Qed.
#[local] Hint Resolve mp_usertrap_fault : preserves.
Lemma mp_usertrap stv : mpres (usertrap stv).
Proof. mpres. Qed.

(** The process switched to holds its own lock. *)
Definition switched s : Prop := at_cpu (Some p) TASK_RUNNING 1 [p] (m_k s).
Lemma wlp_resume_call m s :
  pwlp (off_cpu p) m (fun _ k => running k) (m_k s) ->
  pwlp (fun s => off_cpu p (m_k s)) (resume_call m) (fun _ s' => running (m_k s')) s.
Proof.
  intros Hm. unfold resume_call. apply wlp_bind, wlp_lk, wlp_bind. eapply wlp_mono; [exact Hm|]. intros r k Hk.
  pose proof proper_running. eapply wlp_mono; [refine ((_ : preserves running (off_cpu p) _) k Hk); pres|].
  intros [] k1 H3 s' <-. by apply mp_usertrap_finish.
Qed.
Lemma resume_running c s :
  switched s -> pwlp (fun s => off_cpu p (m_k s)) (resume c) (fun _ s' => running (m_k s')) s.
Proof.
  pose proof proper_running as Hx. unfold switched. intros Hs. destruct c; cbn [resume]; [done| | |..].
  - unfold forkret, myproc. apply wlp_bind, wlp_lk. unfold pwlp at 1. rewrite (ac_cur _ _ _ _ _ Hs).
    intros s1 E. rewrite <- E in Hs. apply wlp_bind, wlp_lk. eapply wlp_release; [exact Hs|lia|].
    intros k H3 s2 <-. by apply mp_usertrapret.
  - apply wlp_bind, wlp_lk. eapply wlp_yield_resume; [exact Hs|lia|]. intros k H3 s2 <-. by apply mp_usertrap_finish.
  - apply wlp_resume_call. apply resume_cons_read; [done|exact Hs|lia].
  - apply wlp_resume_call. apply resume_piperead; [done|exact Hs|lia].
  - apply wlp_resume_call. apply resume_write; [done|exact Hs|lia].
  - apply wlp_resume_call. apply resume_wait; [done|exact Hs|lia].
  - done.
  - done.
Qed.
End machine.

(* ------------------------------------------------------------------ *)
(** ** Every reachable state *)

Section system.
Context `{Image} `{DiskImage} {D : Type} `{BlockDev D}.
Variable sys_trap_vector : Z.
Implicit Types k : kernel D.

(** No process's lock is taken and the CPU is in no section. *)
Definition no_locks k : Prop :=
  c_noff (k_cpu k) = 0 /\ forall i y, k_procs k !! i = Some y -> lk_locked (p_lock y) = 0.
(** In the scheduler no process runs. *)
Definition nobody_runs k : Prop :=
  c_proc (k_cpu k) = None /\ forall i y, k_procs k !! i = Some y -> p_status y <> TASK_RUNNING.
(** In user mode only the CPU's process does. *)
Definition one_runs k : Prop :=
  exists p, c_proc (k_cpu k) = Some p /\
    forall i y, k_procs k !! i = Some y -> p_status y = TASK_RUNNING <-> i = p.

Lemma at_idle k : no_locks k -> nobody_runs k -> at_cpu None TASK_RUNNING 0 [] k.
Proof.
  intros [Hn Hl] [Hc Hr]. split; try done; [constructor|..].
  - intros i y Hy E. by apply Hr in Hy.
  - intros i y Hy. rewrite (Hl i y Hy). split; [done|]. by intros ?%not_elem_of_nil.
Qed.
Lemma at_no_locks c x k : at_cpu c x 0 [] k -> no_locks k.
Proof.
  intros Ha. split; [apply (ac_noff _ _ _ _ _ Ha)|]. intros i y Hy.
  destruct (decide (lk_locked (p_lock y) = 0)) as [E|E]; [done|].
  apply (ac_locks _ _ _ _ _ Ha i y Hy) in E. by apply not_elem_of_nil in E.
Qed.

Lemma dispatch_switched i k :
  at_cpu None TASK_RUNNING 0 [] k ->
  pwlp (at_cpu None TASK_RUNNING 0 []) (scheduler_dispatch i)
    (fun b k' => if b : bool then at_cpu (Some i) TASK_RUNNING 1 [i] k' else at_cpu None TASK_RUNNING 0 [] k') k.
Proof.
  intros Hk. unfold scheduler_dispatch. apply wlp_bind. eapply wlp_acquire; [exact Hk|lia|]. clear k Hk. intros k _ Hk.
  apply wlp_bind, wlp_getp. intros y Hy. destruct (decide _) as [Hr|Hr].
  - apply wlp_bind. unfold pwlp at 1, setp. rewrite Hy. unfold setcpu, modify, pwlp, bind, ret.
    destruct Hk as [H3 H4 H5 H6 H7 H8 H9]. split; cbn; try done.
    + intros j z Hz Hst. apply list_lookup_insert_Some in Hz as [(<- & _)|[_ Hz]]; [done|]. by apply H7 in Hz.
    + intros j z Hz [= <-]. apply list_lookup_insert_Some in Hz as [(_ & <- & _)|[Hne _]]; [by left|done].
    + intros j z Hz. apply list_lookup_insert_Some in Hz as [(<- & <- & _)|[_ Hz]]; [by apply (H9 i y)|by apply H9].
  - apply wlp_bind. eapply wlp_release; [exact Hk|lia|]. clear k Hk Hy. intros k Hk. by apply wlp_ret.
Qed.
Lemma return_idle p k :
  off_cpu p k -> pwlp (at_cpu None TASK_RUNNING 0 []) (scheduler_return p) (fun _ k' => at_cpu None TASK_RUNNING 0 [] k') k.
Proof.
  intros (x & [H3 H4 H5 H6 H7 H8 H9] & Hno). unfold scheduler_return. apply wlp_bind.
  unfold pwlp at 1, setcpu, modify. eapply (wlp_release _ None TASK_RUNNING 1 []); [|lia|by intros k']. split; cbn; try done.
  intros i y Hy Hr. by apply Hno in Hy.
Qed.

Lemma sys_steps_locks x y :
  rtc (sys_step sys_trap_vector) x y ->
  sys_holds (at_cpu None TASK_RUNNING 0 []) (fun p => at_cpu (Some p) TASK_RUNNING 0 []) x ->
  sys_holds (at_cpu None TASK_RUNNING 0 []) (fun p => at_cpu (Some p) TASK_RUNNING 0 []) y.
Proof.
  apply sys_steps_hold with (R := fun p => at_cpu (Some p) TASK_RUNNING 1 [p]) (J := off_cpu).
  - intros k Hk. unfold intr_on, setcpu, modify, pwlp. by eapply at_same; [..|exact Hk].
  - intros s s' (Ep & _ & Ec & _) Hk. apply mp_idle_trap.
    eapply at_same; [exact Ep|by rewrite Ec|by rewrite Ec|exact Hk].
  - intros i k Hk. by apply dispatch_switched.
  - intros p c s Hs. by apply resume_running.
  - intros p q k Hk Hq. rewrite (ac_cur _ _ _ _ _ Hk) in Hq. by injection Hq as ->.
  - intros p s s' (Ep & _ & Ec & _) Hk. eapply at_same; [exact Ep|by rewrite Ec|by rewrite Ec|exact Hk].
  - intros p s Hs. by apply mp_usertrap.
  - intros p k Hk. by apply return_idle.
Qed.

(** C2: Locks and process states are right in every reachable state. Whatever the processes do,
    whenever the CPU is back in user mode or in the scheduler - after every path of every
    system call, trap, exit, sleep or switch, the failing ones included - no
    process's lock is taken and every section is left; in the scheduler no
    process is marked running, and in user mode the process on the CPU and no
    other is. *)
Theorem locks_released s0 s m :
  no_locks (m_k s0) -> nobody_runs (m_k s0) ->
  rtc (sys_step sys_trap_vector) (s0, InScheduler) (s, m) ->
  no_locks (m_k s) /\ match m with InScheduler => nobody_runs (m_k s) | InUser _ _ => one_runs (m_k s) end.
Proof.
  intros Hn Hr Hsteps. pose proof (sys_steps_locks _ _ Hsteps (at_idle _ Hn Hr)) as Hx.
  unfold sys_holds in Hx. cbn [fst snd] in Hx. destruct m as [|tf satp].
  - split; [by apply at_no_locks in Hx|]. split; [apply (ac_cur _ _ _ _ _ Hx)|]. intros i y Hy E.
    by apply (ac_others _ _ _ _ _ Hx i y Hy) in E.
  - destruct Hx as [p Hp]. split; [by apply at_no_locks in Hp|]. exists p. split; [apply (ac_cur _ _ _ _ _ Hp)|].
    intros i y Hy. split.
    + intros E. pose proof (ac_others _ _ _ _ _ Hp i y Hy E). congruence.
    + intros ->. by destruct (ac_own _ _ _ _ _ Hp p y Hy eq_refl).
Qed.
End system.

(** The run of [FdSpec.v], in which the first process duplicates a descriptor. *)
Section witnesses.
#[local] Existing Instance sample_image.
#[local] Existing Instance sample_disk_image.

Lemma sample_system_idle : no_locks (m_k sample_system) /\ nobody_runs (m_k sample_system).
Proof.
  split; split; try reflexivity; intros i y [[-> ->]| ->]%sample_procs_lookup; cbn; done.
Qed.
Lemma locks_released_witness :
  exists s m, rtc (sys_step 0) (sample_system, InScheduler) (s, m) /\ no_locks (m_k s) /\ one_runs (m_k s).
Proof.
  exists sample_back, (InUser sample_tf (MAKE_SATP 0)). split; [exact sample_steps|].
  exact (locks_released 0 sample_system sample_back (InUser sample_tf (MAKE_SATP 0))
    (proj1 sample_system_idle) (proj2 sample_system_idle) sample_steps).
Defined.
End witnesses.
