(* ===== verification/Mkfs.v ===== *)
(** The builder of the disk image, [src/mkfs.c]: directories and files of the
    host laid out in the format the kernel's file system reads.

    The image file is a byte-addressed memory whose absent bytes are 0; the
    files of the host are a parameter. *)

From S2P Require Import Prelude Memory Kalloc Vm Str Bio Fs.

Definition FS_SIZE : Z := 16384.
Definition NINODES : Z := 512.
Definition NLOG : Z := 30.
Definition LOG_START : Z := 2.
Definition INODE_START : Z := 32.
Definition INODE_BLOCKS : Z := (NINODES + IPB - 1) / IPB.
Definition BMAP_START : Z := INODE_START + INODE_BLOCKS.
Definition BMAP_BLOCKS : Z := (FS_SIZE + BPB - 1) / BPB.
Definition ROOT_BLOCK : Z := BMAP_START + BMAP_BLOCKS.
Definition FIRST_DATA_BLOCK : Z := ROOT_BLOCK + 1.
Definition MAX_IMAGE_PATH : nat := 128.
Definition MAX_DIRS : nat := 32.
Definition MAX_DIRENTS : nat := 64.
Definition MAX_PACKED_FILES : nat := 512.

(** [struct dinode] *)
Record dinode := Dinode {
  d_type : Z; d_major : Z; d_minor : Z; d_nlink : Z; d_size : Z; d_addrs : list Z;
}.
Definition dinode0 : dinode := Dinode 0 0 0 0 0 (replicate 13 0).
Definition dinode_set_type v d := Dinode v (d_major d) (d_minor d) (d_nlink d) (d_size d) (d_addrs d).
Definition dinode_set_nlink v d := Dinode (d_type d) (d_major d) (d_minor d) v (d_size d) (d_addrs d).
Definition dinode_set_size v d := Dinode (d_type d) (d_major d) (d_minor d) (d_nlink d) v (d_addrs d).
Definition dinode_set_addr (i : nat) (v : Z) d :=
  Dinode (d_type d) (d_major d) (d_minor d) (d_nlink d) (d_size d) (<[i := v]> (d_addrs d)).
Definition dinode_image (d : dinode) : list Z :=
  le_bytes 2 (d_type d) ++ le_bytes 2 (d_major d) ++ le_bytes 2 (d_minor d) ++
  le_bytes 2 (d_nlink d) ++ le_bytes 4 (d_size d) ++ addrs_bytes (d_addrs d).

(** [struct image_dir]; [g_entries] are the [nentry] entries in use. *)
Record image_dir := ImageDir {
  g_path : list Z; g_inum : Z; g_parent_inum : Z; g_blockno : Z; g_inode : dinode;
  g_entries : list dirent;
}.
Definition dir_set_inode f g :=
  ImageDir (g_path g) (g_inum g) (g_parent_inum g) (g_blockno g) (f (g_inode g)) (g_entries g).
Definition dir_set_entries l g :=
  ImageDir (g_path g) (g_inum g) (g_parent_inum g) (g_blockno g) (g_inode g) l.

(** [struct image_file] *)
Record image_file := ImageFile { m_src : list Z; m_inum : Z; m_inode : dinode }.
Definition file_set_nlink f := ImageFile (m_src f) (m_inum f) (dinode_set_nlink (s16 (d_nlink (m_inode f) + 1)) (m_inode f)).

(** The globals of the program; [dirs] and [files] are the [ndirs] and [nfiles]
    elements in use. *)
Record mk := Mk {
  img : mem; freeinode : Z; freeblock : Z; dirs : list image_dir; files : list image_file;
}.
Definition mk0 : mk := Mk ∅ (ROOTINO + 1) FIRST_DATA_BLOCK [] [].

Definition die {A} (msg : string) : M mk A := panic msg.

(** [lseek] and [write] at byte [off] of the image. *)
Definition write_at (off : Z) (buf : list Z) : M mk unit :=
  modify (fun s => Mk (store_bytes (img s) off buf) (freeinode s) (freeblock s) (dirs s) (files s)).
Definition set_dirs (f : list image_dir -> list image_dir) : M mk unit :=
  modify (fun s => Mk (img s) (freeinode s) (freeblock s) (f (dirs s)) (files s)).
Definition set_files (f : list image_file -> list image_file) : M mk unit :=
  modify (fun s => Mk (img s) (freeinode s) (freeblock s) (dirs s) (f (files s))).

Definition write_block (blockno : Z) (buf : list Z) : M mk unit := write_at (blockno * BSIZE) buf.
Definition zero_block (blockno : Z) : M mk unit := write_block blockno (replicate 1024 0).

Definition alloc_inode : M mk Z :=
  let! s := get in
  if NINODES <=? freeinode s then die "out of inodes"
  else
    put (Mk (img s) (freeinode s + 1) (freeblock s) (dirs s) (files s)) ;;;
    ret (freeinode s).

Definition alloc_block : M mk Z :=
  let! b := gets freeblock in
  if FS_SIZE <=? b then die "out of blocks"
  else
    zero_block b ;;;
    modify (fun s => Mk (img s) (freeinode s) (freeblock s + 1) (dirs s) (files s)) ;;;
    ret b.

Definition write_inode (inum : Z) (inode : dinode) : M mk unit :=
  write_at (INODE_START * BSIZE + inum * 64) (dinode_image inode).

(** The [FS_SIZE] blocks of zeroes are the absent bytes of the image. *)
Definition init_fs_image : M mk unit :=
  write_at BSIZE
    (addrs_bytes [FSMAGIC; FS_SIZE; FS_SIZE - FIRST_DATA_BLOCK + 1; NINODES; NLOG; LOG_START; INODE_START; BMAP_START]).

(* ------------------------------------------------------------------ *)
(** ** Directories *)

Definition check_component_name (name : list Z) : M mk unit :=
  let len := strlen name in
  if len =? 0 then die "empty path component"
  else if Z.of_nat DIRSIZ <=? len then die "path component is too long for DIRSIZ"
  else ret tt.

(** [memset] and [strncpy] of the name field. *)
Definition pad_name (name : list Z) : list Z :=
  take DIRSIZ (take DIRSIZ (cstr name) ++ replicate DIRSIZ 0).

Definition getdir (d : nat) : M mk image_dir :=
  fun s => match dirs s !! d with Some g => Ok g s | None => Stop (Fault "dirs") end.
Definition setdir (d : nat) (f : image_dir -> image_dir) : M mk unit :=
  set_dirs (alter f d).

Definition dir_add (d : nat) (name : list Z) (inum : Z) : M mk unit :=
  let! g := getdir d in
  if (MAX_DIRENTS <=? length (g_entries g))%nat then die "directory has too many entries"
  else if existsb (fun e => strncmp (de_name e) name DIRSIZ =? 0) (g_entries g) then
    die "duplicate directory entry"
  else setdir d (fun g => dir_set_entries (g_entries g ++ [Dirent (u16 inum) (pad_name name)]) g).

(** [strcmp(a, b) == 0] *)
Definition streq (a b : list Z) : bool := bool_decide (cstr a = cstr b).

Fixpoint find_index {A} (f : A -> bool) (i : nat) (l : list A) : option nat :=
  match l with
  | [] => None
  | x :: l' => if f x then Some i else find_index f (S i) l'
  end.
Definition find_dir (path : list Z) : M mk (option nat) :=
  gets (fun s => find_index (fun g => streq (g_path g) path) 0 (dirs s)).
Definition find_file (src : list Z) : M mk (option nat) :=
  gets (fun s => find_index (fun f => streq (m_src f) src) 0 (files s)).

Definition new_dir (path : list Z) (parent_inum : Z) : M mk nat :=
  let! s := get in
  let d := length (dirs s) in
  if (MAX_DIRS <=? d)%nat then die "too many directories"
  else
    set_dirs (fun l => l ++ [ImageDir (take (MAX_IMAGE_PATH - 1) (cstr path)) 0 0 0 dinode0 []]) ;;;
    let! inum := (if (d + 1 =? 1)%nat then ret ROOTINO else alloc_inode) in
    let! blockno := (if inum =? ROOTINO then ret ROOT_BLOCK else alloc_block) in
    setdir d (fun g => ImageDir (g_path g) inum parent_inum blockno
      (dinode_set_addr 0 blockno (dinode_set_nlink 2 (dinode_set_type T_DIR (g_inode g)))) (g_entries g)) ;;;
    dir_add d [46] inum ;;;
    dir_add d [46; 46] parent_inum ;;;
    ret d.

Definition append_component (path name : list Z) : M mk (list Z) :=
  let path := if streq path [47] then cstr path else cstr path ++ [47] in
  if (MAX_IMAGE_PATH <=? length path + length (cstr name))%nat then die "image path is too long"
  else ret (path ++ cstr name).

Fixpoint skip_slash (p : list Z) : list Z :=
  match p with
  | c :: p' => if c =? 47 then skip_slash p' else p
  | [] => []
  end.
(** The characters up to the next slash or NUL. *)
Fixpoint component_of (p : list Z) : list Z :=
  match p with
  | c :: p' => if (c =? 47) || (c =? 0) then [] else c :: component_of p'
  | [] => []
  end.

(** One round of [ensure_dir]; the loop variables are [p], [current], [dir]. *)
Definition ensure_dir_body (x : list Z * list Z * nat) : M mk (list Z * list Z * nat + nat) :=
  let '(p, current, dir) := x in
  if chr p =? 0 then ret (inr dir)
  else
    let component := component_of p in
    if (DIRSIZ <=? length component)%nat then die "path component is too long for DIRSIZ"
    else
      check_component_name component ;;;
      let! current := append_component current component in
      let! next := find_dir current in
      let! next :=
        match next with
        | Some next => ret next
        | None =>
            let! g := getdir dir in
            let! next := new_dir current (g_inum g) in
            let! h := getdir next in
            dir_add dir component (g_inum h) ;;;
            setdir dir (dir_set_inode (fun d => dinode_set_nlink (s16 (d_nlink d + 1)) d)) ;;;
            ret next
        end in
      ret (inl (skip_slash (drop (length component) p), current, next)).

Definition ensure_dir (path : list Z) : M mk nat :=
  if negb (chr path =? 47) then die "internal error: non-absolute directory path"
  else
    let! dir := find_dir [47] in
    match dir with
    | None => fault "ensure_dir"
    | Some dir =>
        if streq path [47] then ret dir
        else loop (length path + 1) ensure_dir_body (skip_slash path, [47], dir)
    end.

Definition init_root_dir : M mk unit :=
  zero_block ROOT_BLOCK ;;;
  new_dir [47] ROOTINO ;;;
  ret tt.
(** "/bin", "/lib", "/include", "/src" and "/tmp" *)
Definition standard_dirs : list (list Z) :=
  [[47; 98; 105; 110]; [47; 108; 105; 98]; [47; 105; 110; 99; 108; 117; 100; 101];
   [47; 115; 114; 99]; [47; 116; 109; 112]].
Fixpoint ensure_dirs (l : list (list Z)) : M mk unit :=
  match l with
  | [] => ret tt
  | p :: l' => ensure_dir p ;;; ensure_dirs l'
  end.
Definition init_standard_dirs : M mk unit := ensure_dirs standard_dirs.

(* ------------------------------------------------------------------ *)
(** ** Paths *)

(** The text before and after the last slash. *)
Fixpoint last_slash (p : list Z) : option (list Z * list Z) :=
  match p with
  | [] => None
  | c :: p' =>
      match last_slash p' with
      | Some (a, b) => Some (c :: a, b)
      | None => if c =? 47 then Some ([], p') else None
      end
  end.

(** [parent_and_name(path, parent, name)]: the two arrays. *)
Definition parent_and_name (path : list Z) : M mk (list Z * list Z) :=
  let path := cstr path in
  let base := match last_slash path with Some (_, b) => b | None => path end in
  if (length base =? 0)%nat || (DIRSIZ <=? length base)%nat then
    die "path component is too long for DIRSIZ"
  else
    match last_slash path with
    | None | Some ([], _) => ret ([47], base)
    | Some (a, _) =>
        if (MAX_IMAGE_PATH <=? length a)%nat then die "parent path is too long" else ret (a, base)
    end.

(** The copying loop of [normalize_dest_path]; [out] is what is written so far. *)
Fixpoint normalize_loop (input out : list Z) : list Z :=
  match input with
  | [] => out
  | c :: input' =>
      if (c =? 0) || (MAX_IMAGE_PATH - 1 <=? length out)%nat then out
      else if (c =? 47) && (1 <? length out)%nat && (List.last out 0 =? 47) then normalize_loop input' out
      else normalize_loop input' (out ++ [c])
  end.
(** [while (n > 1 && out[n - 1] == '/') n--], on [out] backwards. *)
Fixpoint trim_slashes (rout : list Z) : list Z :=
  match rout with
  | c :: ((_ :: _) as rest) => if c =? 47 then trim_slashes rest else rout
  | _ => rout
  end.
Definition normalize_dest_path (input : list Z) : M mk (list Z) :=
  let out := if chr input =? 47 then [] else [47] in
  let out := reverse (trim_slashes (reverse (normalize_loop input out))) in
  if (length out =? 0)%nat || streq out [47] then die "destination path must name a file"
  else ret out.

Definition host_basename (path : list Z) : list Z :=
  match last_slash (cstr path) with Some (_, b) => b | None => cstr path end.

(** The text before and after the first '='. *)
Fixpoint first_eq (p : list Z) : option (list Z * list Z) :=
  match p with
  | [] => None
  | c :: p' =>
      if c =? 61 then Some ([], p')
      else match first_eq p' with Some (a, b) => Some (c :: a, b) | None => None end
  end.

(** [parse_mapping(arg, src, dst)]: the two arrays. *)
Definition parse_mapping (arg : list Z) : M mk (list Z * list Z) :=
  match first_eq (cstr arg) with
  | Some (src, rest) =>
      if (length src =? 0)%nat || (MAX_IMAGE_PATH <=? length src)%nat then
        die "invalid source path in mapping"
      else let! dst := normalize_dest_path rest in ret (src, dst)
  | None =>
      if (MAX_IMAGE_PATH <=? length (cstr arg))%nat then die "source path is too long"
      else ret (cstr arg, take (MAX_IMAGE_PATH - 1) (47 :: host_basename arg))
  end.

(* ------------------------------------------------------------------ *)
(** ** Files *)

(** The locals of [add_file_data] that the loop changes. *)
Record packing := Packing {
  k_inode : dinode; k_indirect : list Z; k_dindirect : list Z; k_second : list Z;
  k_index : Z; k_current : Z;
}.

(** The place of the block [data_block] in the inode and the index arrays. *)
Definition place_block (x : packing) (data_block : Z) : M mk packing :=
  let i := k_index x in
  if i <? Z.of_nat NDIRECT then
    ret (Packing (dinode_set_addr (Z.to_nat i) data_block (k_inode x)) (k_indirect x) (k_dindirect x)
      (k_second x) i (k_current x))
  else if i <? Z.of_nat NDIRECT + Z.of_nat NINDIRECT then
    ret (Packing (k_inode x) (zset (k_indirect x) (i - Z.of_nat NDIRECT) data_block) (k_dindirect x)
      (k_second x) i (k_current x))
  else
    let rel := i - Z.of_nat NDIRECT - Z.of_nat NINDIRECT in
    let outer := rel / Z.of_nat NINDIRECT in
    let inner := rel mod Z.of_nat NINDIRECT in
    let! inode :=
      (if default 0 (d_addrs (k_inode x) !! (NDIRECT + 1)%nat) =? 0 then
         let! a := alloc_block in ret (dinode_set_addr (NDIRECT + 1) a (k_inode x))
       else ret (k_inode x)) in
    let! x :=
      (if negb (outer =? k_current x) then
         when (0 <=? k_current x)
           (write_block (zget (k_dindirect x) (k_current x)) (addrs_bytes (k_second x))) ;;;
         let! a := alloc_block in
         ret (Packing inode (k_indirect x) (zset (k_dindirect x) outer a) (replicate NINDIRECT 0) i outer)
       else ret (Packing inode (k_indirect x) (k_dindirect x) (k_second x) i (k_current x))) in
    ret (Packing (k_inode x) (k_indirect x) (k_dindirect x) (zset (k_second x) inner data_block) i (k_current x)).

(** One round of the loop, on the bytes [chunk] that [read] returned. *)
Definition pack_chunk (x : packing) (chunk : list Z) : M mk packing :=
  if Z.of_nat NDIRECT + Z.of_nat NINDIRECT + NDINDIRECT <=? k_index x then die "file too large"
  else
    let! x :=
      (if k_index x =? Z.of_nat NDIRECT then
         let! a := alloc_block in
         ret (Packing (dinode_set_addr NDIRECT a (k_inode x)) (k_indirect x) (k_dindirect x) (k_second x)
           (k_index x) (k_current x))
       else ret x) in
    let! data_block := alloc_block in
    write_block data_block (chunk ++ replicate (1024 - length chunk) 0) ;;;
    let! x := place_block x data_block in
    ret (Packing (dinode_set_size (u32 (d_size (k_inode x) + Z.of_nat (length chunk))) (k_inode x))
      (k_indirect x) (k_dindirect x) (k_second x) (k_index x + 1) (k_current x)).

Fixpoint pack_chunks (x : packing) (chunks : list (list Z)) : M mk packing :=
  match chunks with
  | [] => ret x
  | c :: chunks' => let! x := pack_chunk x c in pack_chunks x chunks'
  end.

(** [add_file_data(hostfd, inode, src)]: [chunks] are the results of the reads
    up to the end of the file, or up to an error when [ok] is false. *)
Definition add_file_data (chunks : list (list Z)) (ok : bool) (inode : dinode) : M mk dinode :=
  let zeros := replicate NINDIRECT 0 in
  let! x := pack_chunks (Packing inode zeros zeros zeros 0 (-1)) chunks in
  if negb ok then die "read failed"
  else
    let indirect := default 0 (d_addrs (k_inode x) !! NDIRECT) in
    let dindirect := default 0 (d_addrs (k_inode x) !! (NDIRECT + 1)%nat) in
    when (negb (indirect =? 0)) (write_block indirect (addrs_bytes (k_indirect x))) ;;;
    when (0 <=? k_current x)
      (write_block (zget (k_dindirect x) (k_current x)) (addrs_bytes (k_second x))) ;;;
    when (negb (dindirect =? 0)) (write_block dindirect (addrs_bytes (k_dindirect x))) ;;;
    ret (k_inode x).

Section host.
(** The files of the host: the results of [read] after [open], and whether the
    last one was the end of the file. *)
Variable host : list Z -> option (list (list Z) * bool).

Definition add_file (src dst : list Z) : M mk unit :=
  let! pn := parent_and_name dst in
  let '(parent, name) := pn in
  check_component_name name ;;;
  let! dir := ensure_dir parent in
  let! existing := find_file src in
  match existing with
  | Some f =>
      set_files (alter file_set_nlink f) ;;;
      let! s := get in
      match files s !! f with
      | Some x => write_inode (m_inum x) (m_inode x) ;;; dir_add dir name (m_inum x)
      | None => fault "files"
      end
  | None =>
      match host src with
      | None => die "cannot open"
      | Some (chunks, ok) =>
          let! inum := alloc_inode in
          let! inode := add_file_data chunks ok (dinode_set_nlink 1 (dinode_set_type T_FILE dinode0)) in
          let! s := get in
          if (MAX_PACKED_FILES <=? length (files s))%nat then die "too many packed files"
          else
            set_files (fun l => l ++ [ImageFile (take (MAX_IMAGE_PATH - 1) (cstr src)) inum inode]) ;;;
            write_inode inum inode ;;;
            dir_add dir name inum
      end
  end.

Definition flush_dir (d : nat) : M mk unit :=
  setdir d (fun g => dir_set_inode (dinode_set_size (Z.of_nat (length (g_entries g)) * 16)) g) ;;;
  let! g := getdir d in
  let bytes := g_entries g ≫= dirent_bytes in
  write_block (g_blockno g) (bytes ++ replicate (1024 - length bytes) 0) ;;;
  write_inode (g_inum g) (g_inode g).
Definition flush_dirs : M mk unit :=
  let! s := get in for_range 0 (length (dirs s)) flush_dir.

(** The bytes of one bitmap block: the bits of the blocks from [start] to [end]. *)
Fixpoint bitmap_bytes (n : nat) (i : Z) (bmap : list Z) : list Z :=
  match n with
  | O => bmap
  | S n' => bitmap_bytes n' (i + 1) (zset bmap (i / 8) (u8 (Z.lor (zget bmap (i / 8)) (Z.shiftl 1 (i mod 8)))))
  end.
Definition write_bitmap : M mk unit :=
  for_range 0 (Z.to_nat BMAP_BLOCKS) (fun block =>
    let! fb := gets freeblock in
    let start := Z.of_nat block * BPB in
    let end_ := if fb <? start + BPB then fb else start + BPB in
    write_block (BMAP_START + Z.of_nat block)
      (bitmap_bytes (Z.to_nat (end_ - start)) 0 (replicate 1024 0))).

Fixpoint add_files (args : list (list Z)) : M mk unit :=
  match args with
  | [] => ret tt
  | a :: args' =>
      let! sd := parse_mapping a in
      add_file (fst sd) (snd sd) ;;;
      add_files args'
  end.

(** [main] after the image file is open; [args] are [argv[2..]]. *)
Definition mkfs (args : list (list Z)) : M mk unit :=
  init_fs_image ;;;
  init_root_dir ;;;
  init_standard_dirs ;;;
  add_files args ;;;
  flush_dirs ;;;
  write_bitmap.
End host.
