(* ===== verification/MkfsSpec.v ===== *)
(** The image that [mkfs] builds is the file system the kernel reads: the
    bitmap marks exactly the blocks given out, and a packed file has, for the
    kernel's block map, the bytes of the host file. *)

From S2P Require Import Prelude Memory Kalloc Vm Str Bio BioSpec Fs FsInode FsFile Mkfs.

(* ------------------------------------------------------------------ *)
(** ** Blocks of the image *)

Definition img_block (m : mem) (b : Z) : list Z := load_bytes m (b * BSIZE) 1024.

Lemma img_block_same m b d :
  length d = 1024%nat -> Forall is_byte d -> img_block (store_bytes m (b * BSIZE) d) b = d.
Proof. intros Hl Hd. unfold img_block. rewrite <- Hl. by apply load_store_same. Qed.
Lemma img_block_other m a b d :
  (length d <= 1024)%nat -> a <> b -> img_block (store_bytes m (a * BSIZE) d) b = img_block m b.
Proof. intros Hl Hne. unfold img_block. apply load_store_disjoint. unfold BSIZE. lia. Qed.

Lemma wp_write_block b d (Q : unit -> mk -> Prop) s :
  Q tt (Mk (store_bytes (img s) (b * BSIZE) d) (freeinode s) (freeblock s) (dirs s) (files s)) ->
  wp (write_block b d) Q s.
Proof. intros HQ. unfold write_block, write_at. by apply wp_modify. Qed.

(* ------------------------------------------------------------------ *)
(** ** The bitmap *)

Lemma bitmap_bytes_spec n i bm :
  is_block bm -> 0 <= i -> i + Z.of_nat n <= BPB ->
  is_block (bitmap_bytes n i bm) /\
  forall j, 0 <= j < BPB -> bit (bitmap_bytes n i bm) j = bit bm j || ((i <=? j) && (j <? i + Z.of_nat n)).
Proof.
  revert i bm. induction n as [|n IH]; intros i bm Hbm Hi Hn; cbn [bitmap_bytes].
  - split; [done|]. intros j Hj. replace (i + Z.of_nat 0) with i by lia.
    destruct (Z.leb_spec i j), (Z.ltb_spec j i); try lia; cbn; by rewrite orb_false_r.
  - assert (is_block (zset bm (i / 8) (u8 (Z.lor (zget bm (i / 8)) (Z.shiftl 1 (i mod 8)))))) as Hbm'.
    { apply is_block_upd; [done|]. unfold is_byte. apply u8_bounds. }
    destruct (IH (i + 1) _ Hbm' ltac:(lia) ltac:(lia)) as [Hb Hj]. split; [done|].
    intros j Hjr. rewrite Hj, bit_set by (done || lia). rewrite <- orb_assoc. f_equal.
    destruct (Z.eqb_spec j i), (Z.leb_spec (i + 1) j), (Z.leb_spec i j), (Z.ltb_spec j (i + 1 + Z.of_nat n)),
      (Z.ltb_spec j (i + Z.of_nat (S n))); cbn; try done; lia.
Qed.

Lemma zero_image_block : is_block (replicate 1024 0).
Proof. exact zero_block_ok. Qed.
Lemma bit_zero j : bit (replicate 1024 0) j = false.
Proof.
  unfold bit, zget. destruct (replicate 1024 0 !! Z.to_nat (j / 8)) as [v|] eqn:E; cbn; [|by rewrite Z.testbit_0_l].
  apply lookup_replicate in E as [-> _]. by rewrite Z.testbit_0_l.
Qed.

Lemma bmap_blocks : BMAP_BLOCKS = 2 /\ BMAP_START = 64 /\ ROOT_BLOCK = 66 /\ FIRST_DATA_BLOCK = 67.
Proof. vm_compute. tauto. Qed.

Lemma write_bitmap_wp s :
  0 <= freeblock s <= FS_SIZE ->
  wp write_bitmap (fun _ s' => freeblock s' = freeblock s /\
    (forall b, 0 <= b < FS_SIZE -> bit (img_block (img s') (BMAP_START + b / BPB)) (b mod BPB) = (b <? freeblock s)) /\
    (forall b, ~ (BMAP_START <= b < ROOT_BLOCK) -> img_block (img s') b = img_block (img s) b)) s.
Proof.
  intros Hfb. destruct bmap_blocks as (HB & HS & HR & _). unfold FS_SIZE, BPB, BSIZE in *.
  unfold write_bitmap. rewrite HB, HS, HR. eapply wp_mono.
  { apply (wp_for_range _ (fun k s' => freeblock s' = freeblock s /\
      (forall b, 0 <= b < Z.of_nat k * 8192 -> bit (img_block (img s') (64 + b / 8192)) (b mod 8192) = (b <? freeblock s)) /\
      (forall b, ~ (64 <= b < 66) -> img_block (img s') b = img_block (img s) b))).
    - intros k s1 Hk (Hf & Hb & Ho). apply wp_bind, wp_gets. rewrite Hf. apply wp_write_block. cbn [freeblock img].
      unfold BPB, BSIZE. set (n := Z.to_nat _).
      assert (Z.of_nat n = Z.max 0 (Z.min 8192 (freeblock s - Z.of_nat k * 8192))) as Hn.
      { unfold n. destruct (Z.ltb_spec (freeblock s) (Z.of_nat k * (1024 * 8) + 1024 * 8)); lia. }
      destruct (bitmap_bytes_spec n 0 (replicate 1024 0) zero_image_block ltac:(lia) ltac:(unfold BPB, BSIZE; lia)) as [[Hl Hby] Hbit].
      change (Z.to_nat BSIZE) with 1024%nat in Hl. change 1024 with BSIZE. split; [done|]. split.
      + intros b Hbr. destruct (decide (b < Z.of_nat k * 8192)) as [Hlt|Hge].
        * rewrite img_block_other by (rewrite ?Hl; lia || dlia). apply Hb. lia.
        * replace (64 + b / 8192) with (64 + Z.of_nat k) by dlia. rewrite img_block_same by done.
          rewrite Hbit, bit_zero by (unfold BPB, BSIZE; dlia). cbn [orb].
          rewrite (proj2 (Z.leb_le 0 _)) by dlia. cbn [andb].
          destruct (Z.ltb_spec (b mod 8192) (0 + Z.of_nat n)), (Z.ltb_spec b (freeblock s)); try done; dlia.
      + intros b Hbr. rewrite img_block_other by (rewrite ?Hl; lia). by apply Ho.
    - split; [done|]. split; [intros b Hb; lia|done]. }
  cbn beta. intros _ s' (Hf & Hb & Ho). split; [done|]. split; [|done]. intros b Hbr. apply Hb. cbn. lia.
Qed.

(** The superblock [init_fs_image] writes. *)
Definition mkfs_sb : superblock :=
  SuperBlock FSMAGIC FS_SIZE (FS_SIZE - FIRST_DATA_BLOCK + 1) NINODES NLOG LOG_START INODE_START BMAP_START.

(** After [write_bitmap] the kernel's allocator sees as used exactly the
    blocks [mkfs] gave out, and no block outside the bitmap changed. *)
Theorem mkfs_bitmap {D} `{BlockDev D} s (k : bio D) :
  0 <= freeblock s <= FS_SIZE -> sb k = mkfs_sb ->
  exists s', write_bitmap s = Ok tt s' /\
    (forall b, ~ (BMAP_START <= b < ROOT_BLOCK) -> img_block (img s') b = img_block (img s) b) /\
    ((forall b, BMAP_START <= b < ROOT_BLOCK -> dblk k b = img_block (img s') b) ->
     forall b, 0 <= b < FS_SIZE -> used k b = (b <? freeblock s)).
Proof.
  intros Hfb Hsb. destruct (wp_inv _ _ _ (write_bitmap_wp s Hfb)) as ([] & s' & Heq & _ & Hb & Ho).
  exists s'. split; [done|]. split; [done|]. intros Hd b Hbr. unfold used, bmapb, BMAP_BLOCK. rewrite Hsb.
  destruct bmap_blocks as (_ & HS & HR & _). cbn [sb_bmapstart mkfs_sb]. rewrite HS, HR in *.
  unfold FS_SIZE, BPB, BSIZE in *. rewrite u32_id by dlia. rewrite Hd by dlia.
  replace (b / (1024 * 8) + 64) with (64 + b / (1024 * 8)) by lia. by apply Hb.
Qed.

(* ------------------------------------------------------------------ *)
(** ** The blocks of a packed file *)

Lemma alloc_block_wp s (Q : Z -> mk -> Prop) :
  freeblock s < FS_SIZE ->
  Q (freeblock s) (Mk (store_bytes (img s) (freeblock s * BSIZE) (replicate 1024 0)) (freeinode s)
    (freeblock s + 1) (dirs s) (files s)) ->
  wp alloc_block Q s.
Proof.
  intros Hlt HQ. unfold alloc_block. apply wp_bind, wp_gets. rewrite (proj2 (Z.leb_gt FS_SIZE _)) by done.
  unfold zero_block. apply wp_bind, wp_write_block, wp_bind, wp_modify, wp_ret. exact HQ.
Qed.

(** The 256 words of an index block for the addresses of [al] from [from] on. *)
Definition window (al : list Z) (from : nat) : list Z := (fun k => default 0 (al !! (from + k)%nat)) <$> seq 0 256.

Lemma length_window al from : length (window al from) = 256%nat.
Proof. unfold window. by rewrite length_fmap, length_seq. Qed.
Lemma lookup_window al from k : (k < 256)%nat -> window al from !! k = Some (default 0 (al !! (from + k)%nat)).
Proof. intros Hk. unfold window. rewrite list_lookup_fmap, lookup_seq_lt by done. done. Qed.
Lemma window_ext al al' from :
  (forall k, (k < 256)%nat -> al !! (from + k)%nat = al' !! (from + k)%nat) -> window al from = window al' from.
Proof.
  intros Heq. apply list_eq. intros k. destruct (decide (k < 256)%nat).
  - by rewrite !lookup_window, Heq by done.
  - by rewrite !(proj2 (lookup_ge_None _ _)) by (rewrite length_window; lia).
Qed.
Lemma window_nil al from : (length al <= from)%nat -> window al from = replicate NINDIRECT 0.
Proof.
  intros Hl. apply list_eq. intros k. destruct (decide (k < 256)%nat) as [Hk|Hk].
  - rewrite lookup_window by done. rewrite (proj2 (lookup_ge_None al _)) by lia.
    rewrite lookup_replicate_2; [done|]. unfold NINDIRECT. lia.
  - by rewrite !(proj2 (lookup_ge_None _ _)) by (rewrite ?length_window, ?length_replicate; unfold NINDIRECT; lia).
Qed.
Lemma window_snoc al a from :
  (from <= length al < from + 256)%nat ->
  zset (window al from) (Z.of_nat (length al - from)) a = window (al ++ [a]) from.
Proof.
  intros Hl. unfold zset. rewrite Nat2Z.id. apply list_eq. intros k. destruct (decide (k < 256)%nat) as [Hk|Hk].
  - rewrite lookup_window by done. destruct (decide (k = length al - from)%nat) as [->|Hne].
    + rewrite list_lookup_insert_eq by (rewrite length_window; lia).
      replace (from + (length al - from))%nat with (length al) by lia. by rewrite list_lookup_middle.
    + rewrite list_lookup_insert_ne, lookup_window by lia. f_equal. f_equal.
      destruct (decide (from + k < length al)%nat); [by rewrite lookup_app_l|].
      rewrite !(proj2 (lookup_ge_None _ _)); [done|rewrite length_app; cbn; lia|lia].
  - by rewrite !(proj2 (lookup_ge_None _ _)) by (rewrite ?length_insert, ?length_window; lia).
Qed.
Lemma window_snoc_out al a from :
  (length al < from \/ from + 256 <= length al)%nat -> window (al ++ [a]) from = window al from.
Proof.
  intros Hl. apply window_ext. intros k Hk. destruct Hl.
  - rewrite !(proj2 (lookup_ge_None _ _)); [done|lia|rewrite length_app; cbn; lia].
  - by rewrite lookup_app_l by lia.
Qed.

(** A chunk of the host file as the block that holds it. *)
Definition pad (c : list Z) : list Z := c ++ replicate (1024 - length c) 0.
Definition chunk_ok (c : list Z) : Prop := (0 < length c <= 1024)%nat /\ Forall is_byte c.

Lemma pad_block c : chunk_ok c -> length (pad c) = 1024%nat /\ Forall is_byte (pad c).
Proof.
  intros [Hl Hb]. unfold pad. split; [rewrite length_app, length_replicate; lia|].
  apply Forall_app. split; [done|]. apply Forall_replicate. unfold is_byte. lia.
Qed.

(** The allocation so far: [al] the data blocks of the chunks [cs], [ml] the
    index blocks, all of them different and taken in order. *)
Record stored (s0 : mk) (cs : list (list Z)) (al ml : list Z) (s : mk) : Prop := {
  st_len : length al = length cs;
  st_rng : Forall (fun a => freeblock s0 <= a < freeblock s) (al ++ ml);
  st_nodup : NoDup (al ++ ml);
  st_fb : freeblock s = freeblock s0 + Z.of_nat (length al + length ml);
  st_data : forall k a c, al !! k = Some a -> cs !! k = Some c -> img_block (img s) a = pad c;
  st_frame : forall b, b < freeblock s0 -> img_block (img s) b = img_block (img s0) b;
  st_rest : freeinode s = freeinode s0 /\ dirs s = dirs s0 /\ files s = files s0;
}.

Lemma stored_fresh s0 cs al ml s a : stored s0 cs al ml s -> a ∈ al ++ ml -> freeblock s0 <= a < freeblock s.
Proof. intros Hs Ha. by apply (proj1 (Forall_forall _ _) (st_rng _ _ _ _ _ Hs)). Qed.

(** Taking the next block for the index. *)
Lemma stored_meta s0 cs al ml s :
  stored s0 cs al ml s ->
  stored s0 cs al (ml ++ [freeblock s]) (Mk (store_bytes (img s) (freeblock s * BSIZE) (replicate 1024 0)) (freeinode s)
    (freeblock s + 1) (dirs s) (files s)).
Proof.
  intros Hs. assert (freeblock s0 <= freeblock s) as Hge by (rewrite (st_fb _ _ _ _ _ Hs); lia).
  assert (freeblock s ∉ al ++ ml) as Hni by (intros Hin; pose proof (stored_fresh _ _ _ _ _ _ Hs Hin); lia).
  assert (forall b, b <> freeblock s -> img_block (store_bytes (img s) (freeblock s * BSIZE) (replicate 1024 0)) b = img_block (img s) b) as Ho.
  { intros b Hb. apply img_block_other; [by rewrite length_replicate|done]. }
  destruct Hs as [Hl Hr Hn Hf Hd Hfr Hre]. split; cbn [freeblock img freeinode dirs files].
  - done.
  - rewrite app_assoc. apply Forall_app. split; [|constructor; [lia|constructor]].
    eapply Forall_impl; [exact Hr|]. cbn. lia.
  - rewrite app_assoc. apply NoDup_app. split; [done|]. split; [|by apply NoDup_singleton].
    intros x Hx ->%list_elem_of_singleton. done.
  - rewrite length_app. cbn [length]. lia.
  - intros k a c Ha Hc. rewrite Ho by (intros ->; apply Hni, elem_of_app; left; by eapply list_elem_of_lookup_2). by eapply Hd.
  - intros b Hb. rewrite Ho by lia. by apply Hfr.
  - done.
Qed.

(** Writing to a block of the index. *)
Lemma stored_write s0 cs al ml s a d :
  stored s0 cs al ml s -> a ∈ ml -> (length d <= 1024)%nat ->
  stored s0 cs al ml (Mk (store_bytes (img s) (a * BSIZE) d) (freeinode s) (freeblock s) (dirs s) (files s)).
Proof.
  intros Hs Ha Hld. pose proof (stored_fresh _ _ _ _ _ a Hs ltac:(apply elem_of_app; by right)) as Hf.
  pose proof (st_nodup _ _ _ _ _ Hs) as (_ & Hdis & _)%NoDup_app.
  destruct Hs as [Hl Hr Hn Hfb Hd Hfr Hre]. split; cbn [freeblock img freeinode dirs files]; try done.
  - intros k b c Hb Hc. rewrite img_block_other; [by eapply Hd|done|]. intros ->.
    apply (Hdis b); [by eapply list_elem_of_lookup_2|done].
  - intros b Hb. rewrite img_block_other; [by apply Hfr|done|lia].
Qed.

(** Taking the next block for data and writing the chunk to it. *)
Lemma stored_data s0 cs al ml s c :
  stored s0 cs al ml s -> chunk_ok c ->
  let s1 := Mk (store_bytes (img s) (freeblock s * BSIZE) (replicate 1024 0)) (freeinode s)
    (freeblock s + 1) (dirs s) (files s) in
  stored s0 (cs ++ [c]) (al ++ [freeblock s]) ml
    (Mk (store_bytes (img s1) (freeblock s * BSIZE) (pad c)) (freeinode s1) (freeblock s1) (dirs s1) (files s1)).
Proof.
  intros Hs Hc s1. destruct (pad_block c Hc) as [Hpl Hpb].
  assert (freeblock s0 <= freeblock s) as Hge by (rewrite (st_fb _ _ _ _ _ Hs); lia).
  assert (freeblock s ∉ al ++ ml) as Hni by (intros Hin; pose proof (stored_fresh _ _ _ _ _ _ Hs Hin); lia).
  assert (forall b, b <> freeblock s -> img_block (store_bytes (img s1) (freeblock s * BSIZE) (pad c)) b = img_block (img s) b) as Ho.
  { intros b Hb. rewrite img_block_other by lia. apply img_block_other; [by rewrite length_replicate|done]. }
  destruct Hs as [Hl Hr Hn Hf Hd Hfr Hre]. split; cbn [freeblock img freeinode dirs files s1].
  - rewrite !length_app. cbn [length]. lia.
  - rewrite <- app_assoc. apply Forall_app in Hr as [Hr1 Hr2].
    apply Forall_app. split; [eapply Forall_impl; [exact Hr1|]; cbn; lia|].
    constructor; [lia|]. eapply Forall_impl; [exact Hr2|]. cbn. lia.
  - rewrite <- app_assoc. cbn [app]. apply NoDup_Permutation_proper with (freeblock s :: (al ++ ml)).
    + symmetry. apply Permutation_middle.
    + by constructor.
  - rewrite !length_app. cbn [length]. lia.
  - intros k a c' Ha Hc'. apply lookup_app_Some in Ha as [Ha|[Hk Ha]].
    + rewrite lookup_app_l in Hc' by (rewrite <- Hl; by eapply lookup_lt_Some).
      rewrite Ho by (intros ->; apply Hni, elem_of_app; left; by eapply list_elem_of_lookup_2). by eapply Hd.
    + apply list_lookup_singleton_Some in Ha as [Hk0 <-]. rewrite lookup_app_r in Hc' by lia.
      rewrite <- Hl, Hk0 in Hc'. injection Hc' as <-. by apply img_block_same.
  - intros b Hb. rewrite Ho by lia. by apply Hfr.
  - done.
Qed.

(** The number of index blocks of a file of [n] blocks. *)
Definition nmeta (n : nat) : nat :=
  if (n <=? 11)%nat then 0 else if (n <=? 267)%nat then 1 else 3 + (n - 268) / 256.
(** The second-level block being filled, and the first file block it covers. *)
Definition cur (ml : list Z) : Z := if (length ml <? 3)%nat then -1 else Z.of_nat (length ml) - 3.
Definition secbase (ml : list Z) : nat := 267 + 256 * (length ml - 3).

(** The locals of [add_file_data] hold the addresses of [al] and [ml]. *)
Record arrays (ino : dinode) (al ml : list Z) (x : packing) : Prop := {
  ar_ind : k_indirect x = window al 11;
  ar_dind : k_dindirect x = window ml 2;
  ar_cur : k_current x = cur ml;
  ar_second : k_second x = window al (secbase ml);
  ar_len : length (d_addrs (k_inode x)) = 13%nat;
  ar_dir : forall k, (k < 11)%nat -> d_addrs (k_inode x) !! k = Some (default 0 (al !! k));
  ar_11 : d_addrs (k_inode x) !! 11%nat = Some (default 0 (ml !! 0%nat));
  ar_12 : d_addrs (k_inode x) !! 12%nat = Some (default 0 (ml !! 1%nat));
  ar_ino : d_type (k_inode x) = d_type ino /\ d_nlink (k_inode x) = d_nlink ino;
}.

(** The finished second-level blocks are on the disk. *)
Definition seconds (al ml : list Z) (m : mem) : Prop :=
  forall o a, (o + 3 < length ml)%nat -> ml !! (2 + o)%nat = Some a ->
    img_block m a = addrs_bytes (window al (267 + 256 * o)).

Section pack.
Context (s0 : mk) (ino : dinode) (Hfb0 : 0 < freeblock s0).

(** The first index block, when the direct addresses are used up. *)
Lemma arrays_meta0 al m0 x :
  (length al <= 11)%nat -> arrays ino al [] x ->
  arrays ino al [m0] (Packing (dinode_set_addr NDIRECT m0 (k_inode x)) (k_indirect x) (k_dindirect x) (k_second x)
    (k_index x) (k_current x)).
Proof.
  intros Hl [Hi Hd Hc Hs Hln Hdir H11 H12 Hino]. unfold NDIRECT. split; cbn [k_indirect k_dindirect k_second k_current k_inode d_addrs dinode_set_addr d_type d_nlink].
  - done.
  - rewrite Hd, !window_nil; [done|cbn; lia|cbn; lia].
  - done.
  - done.
  - by rewrite length_insert.
  - intros k Hk. rewrite list_lookup_insert_ne by lia. by apply Hdir.
  - by rewrite list_lookup_insert_eq by lia.
  - by rewrite list_lookup_insert_ne by lia.
  - done.
Qed.
(** The index block of index blocks. *)
Lemma arrays_meta1 al m0 m1 x i :
  arrays ino al [m0] x ->
  arrays ino al [m0; m1] (Packing (dinode_set_addr (NDIRECT + 1) m1 (k_inode x)) (k_indirect x) (k_dindirect x) (k_second x)
    i (k_current x)).
Proof.
  intros [Hi Hd Hc Hs Hln Hdir H11 H12 Hino]. change (NDIRECT + 1)%nat with 12%nat. split; cbn [k_indirect k_dindirect k_second k_current k_inode d_addrs dinode_set_addr d_type d_nlink].
  - done.
  - rewrite Hd, !window_nil; [done|cbn; lia|cbn; lia].
  - done.
  - done.
  - by rewrite length_insert.
  - intros k Hk. rewrite list_lookup_insert_ne by lia. by apply Hdir.
  - by rewrite list_lookup_insert_ne by lia.
  - by rewrite list_lookup_insert_eq by lia.
  - done.
Qed.

(** A data block among the direct addresses or in the first index block. *)
Lemma arrays_direct al a x i :
  (length al < 11)%nat -> arrays ino al [] x ->
  arrays ino (al ++ [a]) [] (Packing (dinode_set_addr (length al) a (k_inode x)) (k_indirect x) (k_dindirect x)
    (k_second x) i (k_current x)).
Proof.
  intros Hl [Hi Hd Hc Hs Hln Hdir H11 H12 Hino]. split; cbn [k_indirect k_dindirect k_second k_current k_inode d_addrs dinode_set_addr d_type d_nlink].
  - by rewrite window_snoc_out by lia.
  - done.
  - done.
  - rewrite window_snoc_out by (cbn; lia). done.
  - by rewrite length_insert.
  - intros k Hk. destruct (decide (k = length al)) as [->|Hne].
    + rewrite list_lookup_insert_eq by lia. by rewrite list_lookup_middle.
    + rewrite list_lookup_insert_ne, Hdir by lia. f_equal. f_equal.
      destruct (decide (k < length al)%nat); [by rewrite lookup_app_l|].
      rewrite !(proj2 (lookup_ge_None _ _)); [done|rewrite length_app; cbn; lia|lia].
  - by rewrite list_lookup_insert_ne by lia.
  - by rewrite list_lookup_insert_ne by lia.
  - done.
Qed.
Lemma arrays_indirect al m0 a x i :
  (11 <= length al < 267)%nat -> arrays ino al [m0] x ->
  arrays ino (al ++ [a]) [m0] (Packing (k_inode x) (zset (k_indirect x) (Z.of_nat (length al) - 11) a) (k_dindirect x)
    (k_second x) i (k_current x)).
Proof.
  intros Hl [Hi Hd Hc Hs Hln Hdir H11 H12 Hino]. split; cbn [k_indirect k_dindirect k_second k_current k_inode]; try done.
  - rewrite Hi. replace (Z.of_nat (length al) - 11) with (Z.of_nat (length al - 11)) by lia. apply window_snoc. lia.
  - rewrite window_snoc_out by (cbn; lia). done.
  - intros k Hk. rewrite lookup_app_l by lia. by apply Hdir.
Qed.
(** A data block in the second-level block being filled. *)
Lemma arrays_second al ml a x i :
  (secbase ml <= length al < secbase ml + 256)%nat -> arrays ino al ml x ->
  arrays ino (al ++ [a]) ml (Packing (k_inode x) (k_indirect x) (k_dindirect x)
    (zset (k_second x) (Z.of_nat (length al - secbase ml)) a) i (k_current x)).
Proof.
  intros Hl [Hi Hd Hc Hs Hln Hdir H11 H12 Hino]. assert (267 <= secbase ml)%nat by (unfold secbase; lia).
  split; cbn [k_indirect k_dindirect k_second k_current k_inode]; try done.
  - by rewrite window_snoc_out by lia.
  - rewrite Hs. by apply window_snoc.
  - intros k Hk. rewrite lookup_app_l by lia. by apply Hdir.
Qed.
(** A new second-level block. *)
Lemma arrays_new_second al ml a x i :
  (2 <= length ml < 258)%nat -> (length al <= 267 + 256 * (length ml - 2))%nat -> arrays ino al ml x ->
  arrays ino al (ml ++ [a]) (Packing (k_inode x) (k_indirect x) (zset (k_dindirect x) (Z.of_nat (length ml - 2)) a)
    (replicate NINDIRECT 0) i (Z.of_nat (length ml - 2))).
Proof.
  intros Hm Hl [Hi Hd Hc Hs Hln Hdir H11 H12 Hino]. split; cbn [k_indirect k_dindirect k_second k_current k_inode]; try done.
  - rewrite Hd. apply window_snoc. lia.
  - unfold cur. rewrite length_app. cbn [length]. rewrite (proj2 (Nat.ltb_ge _ _)) by lia. lia.
  - rewrite window_nil; [done|]. unfold secbase. rewrite length_app. cbn [length]. lia.
  - by rewrite lookup_app_l by lia.
  - by rewrite lookup_app_l by lia.
Qed.

(** The index blocks there are when block [n] comes to its place. *)
Definition premeta (n : nat) : nat :=
  if (n <? 11)%nat then 0 else if (n <=? 267)%nat then 1 else 3 + (n - 268) / 256.

Lemma seconds_frame al ml m m' :
  (forall b, b ∈ ml -> img_block m' b = img_block m b) -> seconds al ml m -> seconds al ml m'.
Proof. intros Hf Hs o b Ho Hb. rewrite Hf by (by eapply list_elem_of_lookup_2). by apply Hs. Qed.

(** The bound of the disk for an allocation. *)
Lemma stored_room cs al ml s n :
  stored s0 cs al ml s -> freeblock s0 + Z.of_nat n <= FS_SIZE -> (length al + length ml < n)%nat -> freeblock s < FS_SIZE.
Proof. intros Hs Hr Hn. rewrite (st_fb _ _ _ _ _ Hs). lia. Qed.

(** The first part of the last branch of [place_block]: a new second-level
    block when the one being filled is full. *)
Lemma new_second_wp cs al ml s x i (Q : packing -> mk -> Prop) :
  (2 <= length ml < 258)%nat -> length al = (267 + 256 * (length ml - 2))%nat ->
  freeblock s < FS_SIZE -> (exists a, stored s0 cs (al ++ [a]) ml s) -> arrays ino al ml x -> seconds al ml (img s) ->
  (forall s' m, (exists a, stored s0 cs (al ++ [a]) (ml ++ [m]) s' /\ stored s0 cs (al ++ [a]) ml s) -> seconds al (ml ++ [m]) (img s') ->
     (forall cs' al', stored s0 cs' al' ml s -> stored s0 cs' al' (ml ++ [m]) s') ->
     Q (Packing (k_inode x) (k_indirect x) (zset (k_dindirect x) (Z.of_nat (length ml - 2)) m) (replicate NINDIRECT 0) i
          (Z.of_nat (length ml - 2))) s') ->
  wp (when (0 <=? k_current x) (write_block (zget (k_dindirect x) (k_current x)) (addrs_bytes (k_second x))) ;;;
      let! a := alloc_block in
      ret (Packing (k_inode x) (k_indirect x) (zset (k_dindirect x) (Z.of_nat (length ml - 2)) a) (replicate NINDIRECT 0) i
        (Z.of_nat (length ml - 2)))) Q s.
Proof.
  intros Hm Hl Hroom [a0 Hst] Har Hsec HQ.
  assert (forall s1, freeblock s1 = freeblock s ->
    (forall cs' al', stored s0 cs' al' ml s -> stored s0 cs' al' ml s1) ->
    (forall o a, (o + 3 < length ml + 1)%nat -> ml !! (2 + o)%nat = Some a -> img_block (img s1) a = addrs_bytes (window al (267 + 256 * o))) ->
    wp (let! a := alloc_block in
      ret (Packing (k_inode x) (k_indirect x) (zset (k_dindirect x) (Z.of_nat (length ml - 2)) a) (replicate NINDIRECT 0) i
        (Z.of_nat (length ml - 2)))) Q s1) as Htail.
  { intros s1 Hf1 Hst1 Hsec1. apply wp_bind, alloc_block_wp; [by rewrite Hf1|]. apply wp_ret. apply HQ.
    - exists a0. split; [|done]. by apply stored_meta, Hst1.
    - pose proof (Hst1 _ _ Hst) as Hst1'. intros o b Ho Hb. rewrite length_app in Ho. cbn [length] in Ho.
      rewrite lookup_app_l in Hb by lia. cbn [img]. rewrite img_block_other.
      + apply Hsec1; [lia|done].
      + by rewrite length_replicate.
      + intros <-. pose proof (stored_fresh _ _ _ _ _ (freeblock s1) Hst1' ltac:(apply elem_of_app; right; by eapply list_elem_of_lookup_2)). lia.
    - intros cs' al' Hst'. by apply stored_meta, Hst1. }
  pose proof (ar_cur _ _ _ _ Har) as Hcur. unfold cur in Hcur. apply wp_bind.
  destruct (Nat.ltb_spec (length ml) 3) as [H3|H3]; rewrite Hcur.
  - change (0 <=? -1) with false. apply wp_ret. apply Htail; [done|done|]. intros o a Ho Ha. apply Hsec; [|done].
    apply lookup_lt_Some in Ha. lia.
  - rewrite (proj2 (Z.leb_le 0 _)) by lia. cbn [when]. apply wp_write_block.
    set (k := (length ml - 3)%nat). destruct (lookup_lt_is_Some_2 ml (2 + k)) as [b Hb]; [unfold k; lia|].
    assert (zget (k_dindirect x) (Z.of_nat (length ml) - 3) = b) as ->.
    { rewrite (ar_dind _ _ _ _ Har). unfold zget. replace (Z.to_nat (Z.of_nat (length ml) - 3)) with k by (unfold k; lia).
      rewrite lookup_window by (unfold k; lia). by rewrite Hb. }
    assert (length (addrs_bytes (k_second x)) = 1024%nat) as Hlb.
    { by rewrite length_addrs_bytes, (ar_second _ _ _ _ Har), length_window. }
    assert (b ∈ ml) as Hbm by (by eapply list_elem_of_lookup_2).
    apply Htail; [done|intros cs' al' Hst'; apply stored_write; [done|done|by rewrite Hlb]|].
    intros o a Ho Ha. cbn [img]. destruct (decide (o = k)) as [->|Hne].
    + rewrite Hb in Ha. injection Ha as <-. rewrite img_block_same by (done || apply addrs_bytes_byte).
      rewrite (ar_second _ _ _ _ Har). unfold secbase. done.
    + rewrite img_block_other; [apply Hsec; [unfold k in Hne; lia|done]|by rewrite Hlb|].
      intros <-. pose proof (st_nodup _ _ _ _ _ Hst) as (_ & _ & Hnd)%NoDup_app.
      pose proof (NoDup_lookup ml _ _ _ Hnd Ha Hb). lia.
Qed.

(** The last two assignments of [place_block]. *)
Lemma place_second_wp cs al ml s x a i inner (Q : packing -> mk -> Prop) :
  (secbase ml <= length al < secbase ml + 256)%nat -> inner = Z.of_nat (length al - secbase ml) ->
  arrays ino al ml x -> stored s0 cs (al ++ [a]) ml s -> seconds al ml (img s) -> (3 <= length ml)%nat ->
  (forall x', arrays ino (al ++ [a]) ml x' -> seconds (al ++ [a]) ml (img s) -> k_index x' = i ->
     d_size (k_inode x') = d_size (k_inode x) -> Q x' s) ->
  wp (ret (Packing (k_inode x) (k_indirect x) (k_dindirect x) (zset (k_second x) inner a) i (k_current x))) Q s.
Proof.
  intros Hl -> Har Hst Hsec H3 HQ. apply wp_ret, HQ; [by apply arrays_second| |done|done].
  intros o b Ho Hb. rewrite window_snoc_out by (unfold secbase in Hl; lia). by apply Hsec.
Qed.

Lemma place_block_wp cs al ml s x a (Q : packing -> mk -> Prop) :
  let n := length al in
  stored s0 cs (al ++ [a]) ml s -> arrays ino al ml x -> seconds al ml (img s) -> k_index x = Z.of_nat n ->
  length ml = premeta n -> freeblock s0 + Z.of_nat (n + 1 + nmeta (n + 1)) <= FS_SIZE ->
  (forall s' x' ml', stored s0 cs (al ++ [a]) ml' s' -> arrays ino (al ++ [a]) ml' x' -> seconds (al ++ [a]) ml' (img s') ->
     length ml' = nmeta (n + 1) -> k_index x' = Z.of_nat n -> d_size (k_inode x') = d_size (k_inode x) -> Q x' s') ->
  wp (place_block x a) Q s.
Proof.
  intros n Hst Har Hsec Hidx Hml Hroom HQ. unfold place_block. rewrite Hidx.
  change (Z.of_nat NDIRECT) with 11. change (Z.of_nat NINDIRECT) with 256.
  unfold premeta, nmeta in *. destruct (Nat.ltb_spec n 11) as [H11|H11].
  { rewrite (proj2 (Z.ltb_lt _ 11)) by lia. rewrite Nat2Z.id. destruct ml; [|done].
    rewrite (proj2 (Nat.leb_le (n + 1) 11)) in * by lia. apply wp_ret, (HQ s _ []); try done.
    by apply arrays_direct. }
  rewrite (proj2 (Z.ltb_ge _ 11)) by lia. rewrite (proj2 (Nat.leb_gt (n + 1) 11)) in * by lia.
  destruct (Nat.ltb_spec n 267) as [H267|H267].
  { rewrite (proj2 (Nat.leb_le n 267)) in Hml by lia. destruct ml as [|m0 [|]]; [done| |done].
    rewrite (proj2 (Z.ltb_lt _ (11 + 256))) by lia. rewrite (proj2 (Nat.leb_le (n + 1) 267)) in * by lia.
    apply wp_ret, (HQ s _ [m0]); try done. by apply arrays_indirect. }
  rewrite (proj2 (Z.ltb_ge _ (11 + 256))) by lia. rewrite (proj2 (Nat.leb_gt (n + 1) 267)) in * by lia.
  replace (Z.of_nat n - 11 - 256) with (Z.of_nat (n - 267)) by lia.
  replace (n + 1 - 268)%nat with (n - 267)%nat in * by lia.
  pose proof (Nat2Z.inj_div (n - 267) 256) as Hd1. pose proof (Nat2Z.inj_div (n - 268) 256) as Hd2.
  change (Z.of_nat 256) with 256 in Hd1, Hd2.
  assert (forall ml1 x1 s1, length ml1 = (2 + (n - 267) / 256)%nat -> length al = (267 + 256 * ((n - 267) / 256))%nat ->
    stored s0 cs (al ++ [a]) ml1 s1 -> arrays ino al ml1 x1 -> seconds al ml1 (img s1) -> d_size (k_inode x1) = d_size (k_inode x) ->
    wp (let! x := when (0 <=? k_current x1) (write_block (zget (k_dindirect x1) (k_current x1)) (addrs_bytes (k_second x1))) ;;;
          let! a := alloc_block in
          ret (Packing (k_inode x1) (k_indirect x1) (zset (k_dindirect x1) (Z.of_nat (n - 267) / 256) a) (replicate NINDIRECT 0)
            (Z.of_nat n) (Z.of_nat (n - 267) / 256)) in
        ret (Packing (k_inode x) (k_indirect x) (k_dindirect x) (zset (k_second x) (Z.of_nat (n - 267) mod 256) a)
          (Z.of_nat n) (k_current x))) Q s1) as Hnew.
  { intros ml1 x1 s1 Hm1 Hl1 Hst1 Har1 Hsec1 Hsz. replace (Z.of_nat (n - 267) / 256) with (Z.of_nat (length ml1 - 2)) by (rewrite Hm1; dlia).
    apply wp_bind. apply (new_second_wp cs al ml1 s1); [unfold FS_SIZE in Hroom; rewrite Hm1; dlia|lia| |by exists a|done|done|].
    { eapply stored_room; [exact Hst1|exact Hroom|]. rewrite length_app. cbn [length]. lia. }
    intros s' m _ Hsec' Hst'. set (x2 := Packing (k_inode x1) _ _ _ _ _).
    assert (secbase (ml1 ++ [m]) = length al) as Hsb by (unfold secbase; rewrite length_app; cbn [length]; lia).
    apply (place_second_wp cs al (ml1 ++ [m]) s' x2 a); rewrite ?Hsb; [lia|dlia| |by apply Hst'|done|rewrite length_app; cbn; lia|].
    - apply arrays_new_second; [unfold FS_SIZE in Hroom; rewrite Hm1; dlia|lia|done].
    - intros x' Hx' Hsx Hix Hsz'. apply (HQ s' x' (ml1 ++ [m])); [by apply Hst'|done|done| |done|by rewrite Hsz', <- Hsz].
      rewrite length_app. cbn [length]. lia. }
  pose proof (ar_12 _ _ _ _ Har) as H12. pose proof (ar_cur _ _ _ _ Har) as Hcur. change (NDIRECT + 1)%nat with 12%nat. rewrite H12.
  cbn [default from_option id]. destruct (Nat.leb_spec n 267) as [Heq|Hgt].
  - destruct ml as [|m0 [|]]; [done| |done]. change (default 0 ([m0] !! 1%nat) =? 0) with true. cbn beta iota.
    apply wp_bind, wp_bind, alloc_block_wp.
    { eapply stored_room; [exact Hst|exact Hroom|]. rewrite length_app. cbn [length]. lia. }
    apply wp_ret. change (cur [m0]) with (-1) in Hcur.
    rewrite (proj2 (Z.eqb_neq (Z.of_nat (n - 267) / 256) (k_current x))) by (rewrite Hcur; dlia). cbn [negb].
    apply (Hnew [m0; freeblock s] (Packing (dinode_set_addr 12 (freeblock s) (k_inode x)) (k_indirect x)
      (k_dindirect x) (k_second x) (Z.of_nat n) (k_current x))); [replace (n - 267)%nat with 0%nat by lia; reflexivity|fold n; replace (n - 267)%nat with 0%nat by lia; cbn; lia|exact (stored_meta _ _ _ _ _ Hst)| | |done].
    + by apply arrays_meta1.
    + intros o b Ho. cbn in Ho. lia.
  - destruct (lookup_lt_is_Some_2 ml 1) as [m1 Hm1]; [lia|]. rewrite Hm1. cbn [default from_option id].
    pose proof (stored_fresh _ _ _ _ _ m1 Hst ltac:(apply elem_of_app; right; by eapply list_elem_of_lookup_2)) as Hm1r.
    change (id m1) with m1. rewrite (proj2 (Z.eqb_neq m1 0)) by lia. apply wp_bind, wp_ret.
    rewrite Hcur. unfold cur. rewrite (proj2 (Nat.ltb_ge _ 3)) by lia.
    destruct (Z.eqb_spec (Z.of_nat (n - 267) / 256) (Z.of_nat (length ml) - 3)) as [He|Hne]; cbn [negb].
    + apply wp_bind, wp_ret. assert (secbase ml = 267 + 256 * ((n - 267) / 256))%nat as Hsb by (unfold secbase; dlia).
      set (x1 := Packing (k_inode x) _ _ (k_second x) _ _).
      apply (place_second_wp cs al ml s x1 a); [rewrite Hsb; dlia|rewrite Hsb; dlia| |done|done|lia|].
      * destruct Har. split; try done. unfold x1. cbn [k_current]. unfold cur. by rewrite (proj2 (Nat.ltb_ge _ 3)) by lia.
      * intros x' Hx' Hsx Hix Hsz. apply (HQ s x' ml); [done|done|done|dlia|done|done].
    + replace (Z.of_nat (length ml) - 3) with (k_current x) by (rewrite Hcur; unfold cur; by rewrite (proj2 (Nat.ltb_ge _ 3)) by lia).
      apply (Hnew ml (Packing (k_inode x) (k_indirect x) (k_dindirect x) (k_second x) (Z.of_nat n) (k_current x)));
        [dlia|dlia|done| |done|done].
      destruct Har. by split.
Qed.

(** The state of the loop of [add_file_data] after the chunks [cs]. *)
Record packed (cs : list (list Z)) (x : packing) (s : mk) (al ml : list Z) : Prop := {
  pk_stored : stored s0 cs al ml s;
  pk_arrays : arrays ino al ml x;
  pk_seconds : seconds al ml (img s);
  pk_meta : length ml = nmeta (length al);
  pk_index : k_index x = Z.of_nat (length al);
  pk_size : d_size (k_inode x) = Z.of_nat (length (concat cs));
}.

Lemma nmeta_mono n k : (n <= k)%nat -> (nmeta n <= nmeta k)%nat.
Proof.
  intros Hnk. unfold nmeta. pose proof (Nat.Div0.div_le_mono (n - 268) (k - 268) 256 ltac:(lia)).
  destruct (Nat.leb_spec n 11), (Nat.leb_spec k 11), (Nat.leb_spec n 267), (Nat.leb_spec k 267); lia.
Qed.
Lemma length_concat_chunks cs : Forall chunk_ok cs -> (length (concat cs) <= 1024 * length cs)%nat.
Proof.
  induction 1 as [|c cs [Hc _] Hcs IH]; [cbn; lia|]. cbn [concat]. rewrite length_app. cbn [length]. lia.
Qed.

Lemma pack_chunk_wp cs x s al ml c (Q : packing -> mk -> Prop) :
  packed cs x s al ml -> Forall chunk_ok (cs ++ [c]) ->
  freeblock s0 + Z.of_nat (length cs + 1 + nmeta (length cs + 1)) <= FS_SIZE ->
  (forall x' s' al' ml', packed (cs ++ [c]) x' s' al' ml' -> Q x' s') -> wp (pack_chunk x c) Q s.
Proof.
  intros [Hst Har Hsec Hml Hix Hsz] Hall Hroom HQ. pose proof (st_len _ _ _ _ _ Hst) as Hlen. rewrite <- Hlen in Hroom.
  set (n := length al) in *. pose proof (proj1 (Forall_app _ _ _) Hall) as [_ [Hc _]%Forall_cons].
  pose proof (length_concat_chunks _ Hall) as Hcl. rewrite concat_app, !length_app in Hcl. cbn [concat length] in Hcl.
  rewrite app_nil_r in Hcl. unfold pack_chunk. rewrite Hix.
  assert (Z.of_nat NDIRECT + Z.of_nat NINDIRECT + NDINDIRECT = 65803) as -> by reflexivity.
  assert (Z.of_nat NDIRECT = 11) as -> by reflexivity.
  unfold FS_SIZE in Hroom. rewrite (proj2 (Z.leb_gt 65803 _)) by lia. apply wp_bind.
  assert (forall ml1 x1 s1, stored s0 cs al ml1 s1 -> arrays ino al ml1 x1 -> seconds al ml1 (img s1) ->
    length ml1 = premeta n -> k_index x1 = Z.of_nat n -> d_size (k_inode x1) = d_size (k_inode x) ->
    wp (let! data_block := alloc_block in
      write_block data_block (c ++ replicate (1024 - length c) 0) ;;;
      let! x := place_block x1 data_block in
      ret (Packing (dinode_set_size (u32 (d_size (k_inode x) + Z.of_nat (length c))) (k_inode x))
        (k_indirect x) (k_dindirect x) (k_second x) (k_index x + 1) (k_current x))) Q s1) as Htail.
  { intros ml1 x1 s1 Hst1 Har1 Hsec1 Hm1 Hix1 Hsz1. assert (length ml1 <= nmeta (n + 1))%nat as Hmn.
    { rewrite Hm1. unfold premeta, nmeta. pose proof (Nat.Div0.div_le_mono (n - 268) (n + 1 - 268) 256 ltac:(lia)).
      destruct (Nat.ltb_spec n 11), (Nat.leb_spec n 267), (Nat.leb_spec (n + 1) 11), (Nat.leb_spec (n + 1) 267); lia. }
    apply wp_bind, alloc_block_wp; [rewrite (st_fb _ _ _ _ _ Hst1); unfold FS_SIZE; fold n; lia|].
    apply wp_bind, wp_write_block. set (a := freeblock s1).
    pose proof (stored_data _ _ _ _ _ _ Hst1 Hc) as Hst2. cbn zeta in Hst2. fold a in Hst2. set (s2 := Mk _ _ _ _ _) in Hst2.
    apply wp_bind. apply (place_block_wp (cs ++ [c]) al ml1 s2 x1 a); [exact Hst2|done| |done|done|unfold FS_SIZE; fold n; lia|].
    - apply (seconds_frame _ _ (img s1)); [|done]. intros b Hb.
      pose proof (stored_fresh _ _ _ _ _ b Hst1 ltac:(apply elem_of_app; by right)) as Hbr.
      destruct (pad_block c Hc) as [Hpl _]. cbn [s2 img]. rewrite img_block_other by (rewrite ?Hpl; unfold a; lia).
      apply img_block_other; [by rewrite length_replicate|unfold a; lia].
    - intros s' x' ml' Hst' Har' Hsec' Hml' Hix' Hsz'. apply wp_ret, (HQ _ _ (al ++ [a]) ml'). fold n in Hml', Hix'. split.
      + done.
      + destruct Har'. by split.
      + done.
      + rewrite length_app. cbn [length]. done.
      + cbn [k_index]. rewrite length_app, Hix'. cbn [length]. fold n. lia.
      + cbn [k_inode d_size dinode_set_size]. rewrite Hsz', Hsz1, Hsz, concat_app, length_app. cbn [concat]. rewrite app_nil_r.
        rewrite u32_id; lia. }
  destruct (Z.eqb_spec (Z.of_nat n) 11) as [H11|H11].
  - assert (n = 11%nat) as Hn by lia. rewrite Hn in Hml. destruct ml; [|done].
    apply wp_bind, alloc_block_wp; [rewrite (st_fb _ _ _ _ _ Hst); unfold FS_SIZE; fold n; cbn [length]; lia|]. apply wp_ret.
    apply (Htail [freeblock s]); [exact (stored_meta _ _ _ _ _ Hst)|rewrite <- Hix; apply arrays_meta0; [fold n; lia|done]| |by rewrite Hn|done|done].
    intros o b Ho. cbn in Ho. lia.
  - apply wp_ret. apply (Htail ml); try done. rewrite Hml. unfold premeta, nmeta.
    destruct (Nat.leb_spec n 11), (Nat.ltb_spec n 11); try lia; done.
Qed.

Lemma pack_chunks_wp rest cs x s al ml (Q : packing -> mk -> Prop) :
  packed cs x s al ml -> Forall chunk_ok (cs ++ rest) ->
  freeblock s0 + Z.of_nat (length (cs ++ rest) + nmeta (length (cs ++ rest))) <= FS_SIZE ->
  (forall x' s' al' ml', packed (cs ++ rest) x' s' al' ml' -> Q x' s') -> wp (pack_chunks x rest) Q s.
Proof.
  revert cs x s al ml. induction rest as [|c rest IH]; intros cs x s al ml Hp Hall Hroom HQ; cbn [pack_chunks].
  - apply wp_ret. rewrite app_nil_r in HQ. by eapply HQ.
  - assert (cs ++ c :: rest = (cs ++ [c]) ++ rest) as Happ by (by rewrite <- app_assoc). rewrite Happ in *.
    apply wp_bind. apply (pack_chunk_wp cs x s al ml c); [done|by apply Forall_app in Hall as [? _]| |].
    + pose proof (nmeta_mono (length cs + 1) (length ((cs ++ [c]) ++ rest))) as Hm. rewrite !length_app in *. cbn [length] in *. lia.
    + intros x' s' al' ml' Hp'. by apply (IH (cs ++ [c]) x' s' al' ml').
Qed.

(** The file on the disk: data, index blocks and inode. *)
Record file_on_disk (cs : list (list Z)) (ino' : dinode) (s : mk) (al ml : list Z) : Prop := {
  fd_stored : stored s0 cs al ml s;
  fd_meta : length ml = nmeta (length al);
  fd_dir : forall k, (k < 11)%nat -> d_addrs ino' !! k = Some (default 0 (al !! k));
  fd_11 : d_addrs ino' !! 11%nat = Some (default 0 (ml !! 0%nat));
  fd_12 : d_addrs ino' !! 12%nat = Some (default 0 (ml !! 1%nat));
  fd_ind : forall a, ml !! 0%nat = Some a -> img_block (img s) a = addrs_bytes (window al 11);
  fd_dind : forall a, ml !! 1%nat = Some a -> img_block (img s) a = addrs_bytes (window ml 2);
  fd_sec : forall o a, ml !! (2 + o)%nat = Some a -> img_block (img s) a = addrs_bytes (window al (267 + 256 * o));
  fd_size : d_size ino' = Z.of_nat (length (concat cs));
  fd_ino : d_type ino' = d_type ino /\ d_nlink ino' = d_nlink ino /\ length (d_addrs ino') = 13%nat;
}.

(** Writing index block [i]. *)
Lemma index_write_wp cs al ml s i a d (Q : unit -> mk -> Prop) :
  stored s0 cs al ml s -> ml !! i = Some a -> length d = 256%nat ->
  (forall s', stored s0 cs al ml s' -> img_block (img s') a = addrs_bytes d ->
     (forall j b, ml !! j = Some b -> j <> i -> img_block (img s') b = img_block (img s) b) -> Q tt s') ->
  wp (write_block a (addrs_bytes d)) Q s.
Proof.
  intros Hst Ha Hd HQ. assert (length (addrs_bytes d) = 1024%nat) as Hl by (rewrite length_addrs_bytes, Hd; done).
  apply wp_write_block, HQ.
  - apply stored_write; [done|by eapply list_elem_of_lookup_2|lia].
  - cbn [img]. apply img_block_same; [done|apply addrs_bytes_byte].
  - intros j b Hb Hne. cbn [img]. apply img_block_other; [lia|]. intros <-.
    pose proof (st_nodup _ _ _ _ _ Hst) as (_ & _ & Hnd)%NoDup_app. by pose proof (NoDup_lookup ml _ _ _ Hnd Hb Ha).
Qed.

Lemma meta_pos cs al ml s i a : stored s0 cs al ml s -> ml !! i = Some a -> (a =? 0) = false.
Proof.
  intros Hst Ha. pose proof (stored_fresh _ _ _ _ _ a Hst ltac:(apply elem_of_app; right; by eapply list_elem_of_lookup_2)).
  apply Z.eqb_neq. lia.
Qed.

Context (Hino : d_addrs ino = replicate 13 0) (Hsize : d_size ino = 0).

Lemma packed_start : packed [] (Packing ino (replicate NINDIRECT 0) (replicate NINDIRECT 0) (replicate NINDIRECT 0) 0 (-1)) s0 [] [].
Proof.
  split; try done.
  - split; try done; [cbn; apply NoDup_nil_2|cbn; lia].
  - split; cbn [k_indirect k_dindirect k_second k_current k_inode]; rewrite ?Hino; rewrite ?window_nil by (cbn; lia); try done.
    intros k Hk. rewrite lookup_replicate_2 by lia. done.
Qed.

Lemma add_file_data_wp cs (Q : dinode -> mk -> Prop) :
  Forall chunk_ok cs -> freeblock s0 + Z.of_nat (length cs + nmeta (length cs)) <= FS_SIZE ->
  (forall ino' s' al ml, file_on_disk cs ino' s' al ml -> Q ino' s') -> wp (add_file_data cs true ino) Q s0.
Proof.
  intros Hall Hroom HQ. unfold add_file_data. apply wp_bind.
  apply (pack_chunks_wp cs [] _ s0 [] []); [exact packed_start|done|done|]. cbn [app].
  intros x s1 al ml [Hst Har Hsec Hml Hix Hsz]. cbn [negb].
  change NDIRECT with 11%nat. change (11 + 1)%nat with 12%nat. rewrite (ar_11 _ _ _ _ Har), (ar_12 _ _ _ _ Har).
  assert (file_on_disk cs (k_inode x) s1 al ml -> Q (k_inode x) s1) as Hdone by apply HQ.
  destruct (Har) as [Hi Hd Hc Hs2 Hln Hdir H11 H12 Hin].
  assert (forall s2, stored s0 cs al ml s2 ->
    (forall a, ml !! 0%nat = Some a -> img_block (img s2) a = addrs_bytes (window al 11)) ->
    (forall a, ml !! 1%nat = Some a -> img_block (img s2) a = addrs_bytes (window ml 2)) ->
    (forall o a, ml !! (2 + o)%nat = Some a -> img_block (img s2) a = addrs_bytes (window al (267 + 256 * o))) ->
    Q (k_inode x) s2) as Hend.
  { intros s2 Hst2 H0 H1 H2. apply (HQ _ _ al ml). split; try done. by destruct Hin. }
  destruct ml as [|m0 ml].
  { cbn [lookup list_lookup default from_option id when negb]. rewrite Hc. apply wp_bind, wp_ret, wp_bind, wp_ret, wp_bind, wp_ret, wp_ret.
    by apply Hend. }
  change ((m0 :: ml) !! 0%nat) with (Some m0). cbn [default from_option]. unfold id.
  rewrite (meta_pos cs al (m0 :: ml) s1 0 m0 Hst eq_refl). cbn [negb when]. apply wp_bind. rewrite Hi.
  apply (index_write_wp cs al (m0 :: ml) s1 0); [done|done|apply length_window|]. intros s2 Hst2 Hb0 Ho2.
  destruct ml as [|m1 ml].
  { rewrite Hc. cbn [lookup list_lookup default from_option when negb]. apply wp_bind, wp_ret, wp_bind, wp_ret, wp_ret.
    apply Hend; try done. by intros a [= <-]. }
  change ((m0 :: m1 :: ml) !! 1%nat) with (Some m1). cbn [default from_option]. unfold id.
  rewrite (meta_pos cs al (m0 :: m1 :: ml) s1 1 m1 Hst eq_refl). cbn [negb]. rewrite Hd, Hs2, Hc.
  assert (exists k, length ml = S k) as [k Hk].
  { destruct ml as [|m2 ml]; [|by exists (length ml)]. exfalso. cbn in Hml. unfold nmeta in Hml.
    destruct (length al <=? 11)%nat, (length al <=? 267)%nat; lia. }
  unfold cur. cbn [length]. rewrite Hk, (proj2 (Nat.ltb_ge _ 3)), (proj2 (Z.leb_le 0 _)) by lia. cbn [when].
  destruct (lookup_lt_is_Some_2 ml k) as [mk Hmk]; [lia|].
  replace (Z.of_nat (S (S (S k))) - 3) with (Z.of_nat k) by lia. unfold zget at 1. rewrite Nat2Z.id.
  rewrite lookup_window by (unfold FS_SIZE in Hroom; rewrite (st_len _ _ _ _ _ Hst) in Hml; unfold nmeta in Hml, Hroom; cbn [length] in Hml;
    pose proof (Nat2Z.inj_div (length cs - 268) 256) as Hdv; change (Z.of_nat 256) with 256 in Hdv;
    destruct (length cs <=? 11)%nat, (length cs <=? 267)%nat; dlia).
  change ((m0 :: m1 :: ml) !! (2 + k)%nat) with (ml !! k). rewrite Hmk. cbn [default from_option]. unfold id.
  apply wp_bind. apply (index_write_wp cs al (m0 :: m1 :: ml) s2 (2 + k)); [done|done|apply length_window|]. intros s3 Hst3 Hbk Ho3.
  apply wp_bind. apply (index_write_wp cs al (m0 :: m1 :: ml) s3 1); [done|done|apply length_window|]. intros s4 Hst4 Hb1 Ho4.
  apply wp_ret, Hend; [done| |by intros a [= <-]|].
  - intros a [= <-]. rewrite (Ho4 0%nat), (Ho3 0%nat) by done. done.
  - intros o a Ha. rewrite (Ho4 (2 + o)%nat) by done. destruct (decide (o = k)) as [->|Hne].
    + change (ml !! k = Some a) in Ha. rewrite Hmk in Ha. injection Ha as <-. rewrite Hbk. unfold secbase. cbn [length]. rewrite Hk.
      do 2 f_equal. lia.
    + rewrite (Ho3 (2 + o)%nat), (Ho2 (2 + o)%nat) by (done || lia). apply Hsec; [|done]. cbn [length]. apply lookup_lt_Some in Ha. cbn [length] in Ha. lia.
Qed.
End pack.

(* ------------------------------------------------------------------ *)
(** ** The file as the kernel reads it *)

Lemma get32_addrs l k v : l !! k = Some v -> 0 <= v < 4294967296 -> get32 (addrs_bytes l) (4 * k) = v.
Proof.
  intros Hk Hv. unfold get32. rewrite (slice_addrs_bytes l k v Hk), le_val_bytes.
  change (256 ^ Z.of_nat 4) with 4294967296. by apply Z.mod_small.
Qed.

(** The reads of a regular file: only the last one returns fewer bytes. *)
Definition full_reads (cs : list (list Z)) : Prop :=
  forall k c, cs !! k = Some c -> (S k < length cs)%nat -> length c = 1024%nat.

Lemma concat_lookup cs p :
  Forall chunk_ok cs -> full_reads cs -> (p < length (concat cs))%nat ->
  exists c, cs !! (p / 1024)%nat = Some c /\ (p mod 1024 < length c)%nat /\ concat cs !! p = c !! (p mod 1024)%nat.
Proof.
  intros Hall. revert p. induction Hall as [|c cs [Hc _] Hall IH]; intros p Hf Hp; [cbn in Hp; lia|].
  cbn [concat] in *. rewrite length_app in Hp. destruct (decide (p < length c)%nat) as [Hlt|Hge].
  - exists c. rewrite Nat.div_small, Nat.mod_small by lia. split; [done|]. split; [done|]. by rewrite lookup_app_l.
  - assert (length c = 1024%nat) as Hl.
    { apply (Hf 0%nat c eq_refl). destruct cs; [cbn in Hp; lia|]. cbn. lia. }
    destruct (IH (p - 1024)%nat) as (c' & Hc' & Hm & He).
    { intros k d Hk Hkl. apply (Hf (S k) d Hk). cbn. lia. }
    { lia. }
    assert (p = (p - 1024) + 1 * 1024)%nat as Hpe by lia.
    exists c'. rewrite Hpe, Nat.div_add, Nat.Div0.mod_add by lia. rewrite Nat.add_1_r. split; [done|]. split; [done|].
    rewrite lookup_app_r by lia. rewrite <- He. f_equal. lia.
Qed.

Section view.
Context {D : Type} `{BlockDevOk D} (s0 : mk) (ino ino' : dinode) (cs : list (list Z)) (s' : mk) (al ml : list Z) (k : fs D).
Context (Hfb0 : 0 < freeblock s0) (Hmax : freeblock s' <= FS_SIZE).
Context (Hf : file_on_disk s0 ino cs ino' s' al ml).
Context (Hd : forall b, freeblock s0 <= b < freeblock s' -> fblk k b = img_block (img s') b).

Lemma view_in a : a ∈ al ++ ml -> data_ok a /\ fblk k a = img_block (img s') a.
Proof.
  intros Ha. pose proof (stored_fresh _ _ _ _ _ _ (fd_stored _ _ _ _ _ _ _ Hf) Ha) as Hr. unfold FS_SIZE in Hmax.
  split; [unfold data_ok; lia|by apply Hd].
Qed.
Lemma view_al i a : al !! i = Some a -> data_ok a /\ fblk k a = img_block (img s') a.
Proof. intros Ha. apply view_in, elem_of_app. left. by eapply list_elem_of_lookup_2. Qed.
Lemma view_ml i a : ml !! i = Some a -> data_ok a /\ fblk k a = img_block (img s') a.
Proof. intros Ha. apply view_in, elem_of_app. right. by eapply list_elem_of_lookup_2. Qed.

(** An entry of an index block. *)
Lemma view_ient a l from i v :
  fblk k a = addrs_bytes (window l from) -> (i < 256)%nat -> l !! (from + i)%nat = Some v -> data_ok v -> ient k a (Z.of_nat i) = v.
Proof.
  intros Ha Hi Hv Hok. unfold ient. rewrite Ha, Nat2Z.id. apply get32_addrs; [|unfold data_ok in Hok; lia].
  by rewrite lookup_window, Hv.
Qed.

(** The first index block, and the second-level block of block [bn]. *)
Lemma view_first bn :
  (11 <= bn < length al)%nat ->
  exists m0, zget (d_addrs ino') 11 = m0 /\ data_ok m0 /\ fblk k m0 = addrs_bytes (window al 11).
Proof.
  intros Hbn. pose proof (fd_meta _ _ _ _ _ _ _ Hf) as Hml. unfold nmeta in Hml.
  rewrite (proj2 (Nat.leb_gt (length al) 11)) in Hml by lia.
  destruct (lookup_lt_is_Some_2 ml 0) as [m0 Hm0]; [destruct (length al <=? 267)%nat; lia|].
  exists m0. destruct (view_ml _ _ Hm0) as [Hok Hb]. split; [|split; [done|rewrite Hb; by apply (fd_ind _ _ _ _ _ _ _ Hf)]].
  unfold zget. change (Z.to_nat 11) with 11%nat. rewrite (fd_11 _ _ _ _ _ _ _ Hf). by rewrite Hm0.
Qed.
Lemma view_second bn :
  (267 <= bn < length al)%nat -> Z.of_nat bn < 16384 ->
  exists m1 m2, zget (d_addrs ino') 12 = m1 /\ data_ok m1 /\ ient k m1 (Z.of_nat ((bn - 267) / 256)) = m2 /\ data_ok m2 /\
    fblk k m2 = addrs_bytes (window al (267 + 256 * ((bn - 267) / 256))).
Proof.
  intros Hbn Hmx. pose proof (fd_meta _ _ _ _ _ _ _ Hf) as Hml. unfold nmeta in Hml.
  rewrite (proj2 (Nat.leb_gt (length al) 11)), (proj2 (Nat.leb_gt (length al) 267)) in Hml by lia.
  pose proof (Nat.Div0.div_le_mono (bn - 267) (length al - 268) 256 ltac:(lia)) as Hol.
  pose proof (Nat.Div0.mul_div_le (bn - 267) 256) as Hom. set (o := ((bn - 267) / 256)%nat) in *.
  destruct (lookup_lt_is_Some_2 ml 1) as [m1 Hm1]; [lia|]. destruct (lookup_lt_is_Some_2 ml (2 + o)) as [m2 Hm2]; [lia|].
  destruct (view_ml _ _ Hm1) as [Hok1 Hb1], (view_ml _ _ Hm2) as [Hok2 Hb2]. exists m1, m2.
  split; [unfold zget; change (Z.to_nat 12) with 12%nat; rewrite (fd_12 _ _ _ _ _ _ _ Hf); by rewrite Hm1|]. split; [done|].
  split; [|split; [done|rewrite Hb2; by apply (fd_sec _ _ _ _ _ _ _ Hf)]].
  apply (view_ient m1 ml 2 o m2); [|lia|done|done]. rewrite Hb1. by apply (fd_dind _ _ _ _ _ _ _ Hf).
Qed.

(** The kernel maps block [bn] of the file to its address. *)
Lemma view_mapped bn a :
  al !! bn = Some a -> Z.of_nat bn < 16384 -> mapped k (d_addrs ino') (Z.of_nat bn) /\ faddr k (d_addrs ino') (Z.of_nat bn) = a.
Proof.
  intros Ha Hbn. pose proof (lookup_lt_Some _ _ _ Ha) as Hlt. destruct (view_al _ _ Ha) as [Hok _].
  assert (faddr k (d_addrs ino') (Z.of_nat bn) = a /\ Forall data_ok (findex k (d_addrs ino') (Z.of_nat bn))) as [Hg Hi].
  2: { split; [|done]. unfold mapped. rewrite Hg. split; [lia|done]. }
  unfold faddr, findex. destruct (Z.ltb_spec (Z.of_nat bn) 11) as [H11|H11].
  { unfold zget. rewrite Nat2Z.id, (fd_dir _ _ _ _ _ _ _ Hf) by lia. rewrite Ha. by split. }
  destruct (Z.ltb_spec (Z.of_nat bn) 267) as [H267|H267].
  - destruct (view_first bn) as (m0 & -> & Hok0 & Hb0); [lia|].
    split; [|by apply Forall_singleton].
    replace (Z.of_nat bn - 11) with (Z.of_nat (bn - 11)) by lia.
    apply (view_ient m0 al 11); [done|lia|by replace (11 + (bn - 11))%nat with bn by lia|done].
  - destruct (view_second bn) as (m1 & m2 & -> & Hok1 & Hm2 & Hok2 & Hb2); [lia|lia|].
    pose proof (Nat2Z.inj_div (bn - 267) 256) as Hv1. pose proof (Nat2Z.inj_mod (bn - 267) 256) as Hv2.
    change (Z.of_nat 256) with 256 in Hv1, Hv2. replace (Z.of_nat bn - 267) with (Z.of_nat (bn - 267)) by lia.
    rewrite <- Hv1, <- Hv2, Hm2. split; [|apply Forall_cons; split; [done|by apply Forall_singleton]].
    pose proof (Nat.Div0.div_mod (bn - 267) 256) as Hdm. pose proof (Nat.mod_upper_bound (bn - 267) 256 ltac:(lia)) as Hil.
    apply (view_ient m2 al (267 + 256 * ((bn - 267) / 256))); [done|lia| |done].
    by replace (267 + 256 * ((bn - 267) / 256) + (bn - 267) mod 256)%nat with bn by lia.
Qed.

Context (Hall : Forall chunk_ok cs) (Hfull : full_reads cs).

(** Byte [p] of the file is byte [p] of the host file. *)
Lemma view_byte p :
  (p < length (concat cs))%nat -> mapped k (d_addrs ino') (Z.of_nat p / BSIZE) /\
  concat cs !! p = Some (fbyte k (d_addrs ino') (Z.of_nat p)).
Proof.
  intros Hp. destruct (concat_lookup cs p Hall Hfull Hp) as (c & Hc & Hm & ->).
  pose proof (lookup_lt_Some _ _ _ Hc) as Hcl. rewrite <- (st_len _ _ _ _ _ (fd_stored _ _ _ _ _ _ _ Hf)) in Hcl.
  destruct (lookup_lt_is_Some_2 al _ Hcl) as [a Ha]. destruct (view_al _ _ Ha) as [_ Hb].
  pose proof (Nat2Z.inj_div p 1024) as Hv1. pose proof (Nat2Z.inj_mod p 1024) as Hv2.
  change (Z.of_nat 1024) with 1024 in Hv1, Hv2. change BSIZE with 1024 in *.
  pose proof (st_fb _ _ _ _ _ (fd_stored _ _ _ _ _ _ _ Hf)) as Hfbs. unfold FS_SIZE in Hmax.
  destruct (view_mapped (p / 1024) a Ha ltac:(lia)) as [Hmap Hfa]. rewrite <- Hv1. split; [done|].
  unfold fbyte. change BSIZE with 1024. rewrite <- Hv1, <- Hv2, Hfa, Hb.
  rewrite (st_data _ _ _ _ _ (fd_stored _ _ _ _ _ _ _ Hf) _ _ _ Ha Hc). unfold zget, pad. rewrite Nat2Z.id, lookup_app_l by done.
  by destruct (lookup_lt_is_Some_2 c _ Hm) as [v ->].
Qed.
End view.

(** C36: a file that [mkfs] packs is the file the kernel reads. When the blocks
    [add_file_data] wrote are on the kernel's disk and an inode of the cache
    carries the addresses and size it computed, [readi] returns the bytes of the
    host file, through direct, indirect and doubly indirect blocks alike. *)
Theorem mkfs_readi {D} `{BlockDevOk D} s0 cs :
  let ino := dinode_set_nlink 1 (dinode_set_type T_FILE dinode0) in
  0 < freeblock s0 -> Forall chunk_ok cs -> full_reads cs ->
  freeblock s0 + Z.of_nat (length cs + nmeta (length cs)) <= FS_SIZE ->
  exists ino' s', add_file_data cs true ino s0 = Ok ino' s' /\ d_size ino' = Z.of_nat (length (concat cs)) /\
    forall (k : fs D) ip x off n, bio_ok (f_bio k) [] -> icache k !! ip = Some x -> i_dev x = ROOTDEV ->
      i_addrs x = d_addrs ino' -> i_size x = d_size ino' ->
      (forall b, freeblock s0 <= b < freeblock s' -> fblk k b = img_block (img s') b) ->
      0 <= off < 4294967296 -> 0 <= n < 4294967296 ->
      let len := read_len (i_size x) off n in
      exists k', readi_local ip off n k = Ok (len, slice (concat cs) (Z.to_nat off) (Z.to_nat len)) k'.
Proof.
  intros ino Hfb Hall Hfull Hroom.
  destruct (wp_inv (add_file_data cs true ino) (fun ino' s' => exists al ml, file_on_disk s0 ino cs ino' s' al ml) s0)
    as (ino' & s' & Heq & al & ml & Hf).
  { apply (add_file_data_wp s0 ino Hfb eq_refl eq_refl cs); [done|done|]. intros ino' s' al ml Hf. by exists al, ml. }
  exists ino', s'. split; [done|]. split; [apply Hf|]. intros k ip x off n Hok Hx Hdev Ha Hs Hd Ho Hn len.
  pose proof (fd_size _ _ _ _ _ _ _ Hf) as Hsz. pose proof (length_concat_chunks cs Hall) as Hcl.
  pose proof (fd_stored _ _ _ _ _ _ _ Hf) as Hst. pose proof (st_len _ _ _ _ _ Hst) as Hlen.
  assert (freeblock s' <= FS_SIZE) as Hmax by (rewrite (st_fb _ _ _ _ _ Hst), (fd_meta _ _ _ _ _ _ _ Hf), Hlen; lia).
  assert (0 <= len /\ (0 < len -> off + len <= i_size x)) as [Hl0 Hle].
  { unfold len, read_len. destruct (Z.ltb_spec (i_size x) off), (Z.leb_spec 4294967296 (off + n)); cbn [orb]; lia. }
  assert (i_size x < 2147483648) as Hsm by (unfold FS_SIZE in *; lia).
  destruct (wp_inv _ _ _ (readi_local_wp k [] ip x off n Hok ltac:(cbn; unfold NBUF; lia) Hx Hdev ltac:(lia) Ho Hn
    ltac:(fold len; rewrite Ha; intros q Hq; rewrite <- (Z2Nat.id q) by lia;
          apply (view_byte s0 ino ino' cs s' al ml k Hfb Hmax Hf Hd Hall Hfull); lia))) as (r & k' & Hr & -> & _).
  exists k'. rewrite Hr. fold len. do 2 f_equal. apply list_eq. intros i. rewrite lookup_slice. case_decide as Hi.
  - rewrite lookup_fbytes, Ha by done.
    destruct (view_byte s0 ino ino' cs s' al ml k Hfb Hmax Hf Hd Hall Hfull (Z.to_nat off + i)) as [_ ->]; [lia|].
    do 2 f_equal. lia.
  - apply lookup_ge_None. rewrite length_fbytes. lia.
Qed.

(* ------------------------------------------------------------------ *)
(** ** A concrete file *)

Definition sample_chunks : list (list Z) := [replicate 1024 7; [1; 2; 3]].
(** A kernel that mounts the image. *)
Definition sample_mounted : bio memdisk := bio0 ∅ mkfs_sb.

Lemma sample_chunks_ok : Forall chunk_ok sample_chunks /\ full_reads sample_chunks.
Proof.
  split.
  - constructor; [|constructor; [|constructor]].
    + split; [rewrite length_replicate; lia|]. apply Forall_replicate. unfold is_byte. lia.
    + split; [cbn; lia|]. repeat constructor; unfold is_byte; lia.
  - intros [|[|k]] c Hc Hk; [|cbn in Hk; lia..]. inversion Hc. reflexivity.
Qed.

Lemma mkfs_bitmap_witness :
  exists s', write_bitmap mk0 = Ok tt s' /\ img_block (img s') 1 = img_block (img mk0) 1.
Proof.
  destruct (mkfs_bitmap mk0 sample_mounted ltac:(vm_compute; split; discriminate) eq_refl) as (s' & Heq & Ho & _).
  exists s'. split; [exact Heq|]. apply Ho. vm_compute. tauto.
Defined.

Lemma mkfs_readi_witness :
  exists ino' s', add_file_data sample_chunks true (dinode_set_nlink 1 (dinode_set_type T_FILE dinode0)) mk0 = Ok ino' s' /\
    d_size ino' = 1027.
Proof.
  destruct sample_chunks_ok as [Hall Hfull].
  destruct (mkfs_readi (D := memdisk) mk0 sample_chunks ltac:(reflexivity) Hall Hfull
    ltac:(vm_compute; discriminate)) as (ino' & s' & Heq & Hsz & _).
  exists ino', s'. split; [exact Heq|]. rewrite Hsz. vm_compute. reflexivity.
Defined.
