(* ===== verification/LibcStr.v ===== *)
(** The string and memory functions of the user library,
    [src/ports/myos/libc.c].

    A string is the list of the bytes from the pointer on, with the NUL that
    ends it at the end of the list at the latest; a pointer into a string that
    is returned is its offset; an array that is written is returned. *)

From S2P Require Import Prelude Memory.

(** [*s] *)
Definition char0 (s : list Z) : Z := hd 0 s.

(* ------------------------------------------------------------------ *)
(** ** Character classes *)

Definition isdigit (c : Z) : bool := (48 <=? c) && (c <=? 57).
Definition isalpha (c : Z) : bool := ((65 <=? c) && (c <=? 90)) || ((97 <=? c) && (c <=? 122)).
Definition isalnum (c : Z) : bool := isalpha c || isdigit c.
Definition islower (c : Z) : bool := (97 <=? c) && (c <=? 122).
Definition isupper (c : Z) : bool := (65 <=? c) && (c <=? 90).
Definition isspace (c : Z) : bool :=
  (c =? 32) || (c =? 9) || (c =? 10) || (c =? 13) || (c =? 12) || (c =? 11).
Definition isblank (c : Z) : bool := (c =? 32) || (c =? 9).
Definition iscntrl (c : Z) : bool := ((0 <=? c) && (c <? 32)) || (c =? 127).
Definition isprint (c : Z) : bool := (32 <=? c) && (c <? 127).
Definition isgraph (c : Z) : bool := (32 <? c) && (c <? 127).
Definition ispunct (c : Z) : bool := isgraph c && negb (isalnum c).
Definition isxdigit (c : Z) : bool :=
  isdigit c || ((65 <=? c) && (c <=? 70)) || ((97 <=? c) && (c <=? 102)).
Definition tolower (c : Z) : Z := if (65 <=? c) && (c <=? 90) then c - 65 + 97 else c.
Definition toupper (c : Z) : Z := if (97 <=? c) && (c <=? 122) then c - 97 + 65 else c.

(* ------------------------------------------------------------------ *)
(** ** Length and comparison *)

(** [None] is a null pointer. *)
Fixpoint strlen_loop (s : list Z) : Z :=
  match s with
  | [] => 0
  | c :: s' => if c =? 0 then 0 else 1 + strlen_loop s'
  end.
Definition strlen (s : option (list Z)) : Z :=
  match s with Some s => strlen_loop s | None => 0 end.
Fixpoint strnlen_loop (s : list Z) (maxlen : nat) : Z :=
  match maxlen with
  | O => 0
  | S n => if char0 s =? 0 then 0 else 1 + strnlen_loop (tl s) n
  end.
Definition strnlen (s : option (list Z)) (maxlen : nat) : Z :=
  match s with Some s => strnlen_loop s maxlen | None => 0 end.

Fixpoint strcmp (a b : list Z) : Z :=
  match a with
  | c :: a' => if negb (c =? 0) && (c =? char0 b) then strcmp a' (tl b) else c - char0 b
  | [] => 0 - char0 b
  end.
Fixpoint strncmp (a b : list Z) (n : nat) : Z :=
  match n with
  | O => 0
  | S n' =>
      if negb (char0 a =? 0) && (char0 a =? char0 b) then strncmp (tl a) (tl b) n'
      else char0 a - char0 b
  end.
Definition strcoll (a b : list Z) : Z := strcmp a b.
Fixpoint strcasecmp (a b : list Z) : Z :=
  match a with
  | c :: a' =>
      if negb (c =? 0) && (tolower c =? tolower (char0 b)) then strcasecmp a' (tl b)
      else tolower c - tolower (char0 b)
  | [] => tolower 0 - tolower (char0 b)
  end.
Fixpoint strncasecmp (a b : list Z) (n : nat) : Z :=
  match n with
  | O => 0
  | S n' =>
      if negb (char0 a =? 0) && (tolower (char0 a) =? tolower (char0 b)) then strncasecmp (tl a) (tl b) n'
      else tolower (char0 a) - tolower (char0 b)
  end.

(* ------------------------------------------------------------------ *)
(** ** Copying *)

(** The loop of [strcpy] from index [i] of [dst]. *)
Fixpoint strcpy_at (dst : list Z) (i : nat) (src : list Z) : list Z :=
  match src with
  | [] => <[i := 0]> dst
  | c :: src' => if c =? 0 then <[i := 0]> dst else strcpy_at (<[i := c]> dst) (S i) src'
  end.
Definition strcpy (dst src : list Z) : list Z := strcpy_at dst 0 src.
Definition stpcpy (dst src : list Z) : list Z * Z := (strcpy_at dst 0 src, strlen (Some src)).

(** [copy_cstr(dst, cap, src)] *)
Fixpoint copy_cstr_loop (n i : nat) (dst src : list Z) : list Z :=
  match n with
  | O => dst
  | S n' =>
      if negb (char0 src =? 0) && (0 <? n')%nat then copy_cstr_loop n' (S i) (<[i := char0 src]> dst) (tl src)
      else <[i := 0]> dst
  end.
Definition copy_cstr (dst : list Z) (cap : nat) (src : option (list Z)) : list Z :=
  copy_cstr_loop cap 0 dst (default [] src).

(** The two loops of [strncpy]; [n] bytes are left. *)
Fixpoint strncpy_at (n i : nat) (dst src : list Z) : list Z :=
  match n with
  | O => dst
  | S n' =>
      if negb (char0 src =? 0) then strncpy_at n' (S i) (<[i := char0 src]> dst) (tl src)
      else strncpy_at n' (S i) (<[i := 0]> dst) []
  end.
Definition strncpy (dst src : list Z) (n : nat) : list Z := strncpy_at n 0 dst src.
Definition stpncpy (dst src : list Z) (n : nat) : list Z * Z := (strncpy dst src n, Z.of_nat n).

Definition strcat (dst src : list Z) : list Z := strcpy_at dst (Z.to_nat (strlen (Some dst))) src.
Fixpoint strncat_at (n i : nat) (dst src : list Z) : list Z :=
  match n with
  | O => <[i := 0]> dst
  | S n' =>
      if negb (char0 src =? 0) then strncat_at n' (S i) (<[i := char0 src]> dst) (tl src)
      else <[i := 0]> dst
  end.
Definition strncat (dst src : list Z) (n : nat) : list Z :=
  strncat_at n (Z.to_nat (strlen (Some dst))) dst src.

(** [strxfrm(dst, src, n)] *)
Definition strxfrm (dst src : list Z) (n : nat) : list Z * Z :=
  let len := strlen (Some src) in
  if (n =? 0)%nat then (dst, len)
  else
    let copy := if Z.of_nat n <=? len then (n - 1)%nat else Z.to_nat len in
    (<[copy := 0]> (blit dst 0 (take copy src)), len).

(* ------------------------------------------------------------------ *)
(** ** Searching *)

Fixpoint char_in_set (c : Z) (set : list Z) : bool :=
  match set with
  | [] => false
  | x :: set' => if x =? 0 then false else if u8 x =? u8 c then true else char_in_set c set'
  end.
Fixpoint strspn (s accept : list Z) : Z :=
  match s with
  | [] => 0
  | c :: s' => if negb (c =? 0) && char_in_set c accept then 1 + strspn s' accept else 0
  end.
Fixpoint strcspn (s reject : list Z) : Z :=
  match s with
  | [] => 0
  | c :: s' => if negb (c =? 0) && negb (char_in_set c reject) then 1 + strcspn s' reject else 0
  end.
Fixpoint strpbrk (s accept : list Z) : option Z :=
  match s with
  | [] => None
  | c :: s' =>
      if c =? 0 then None
      else if char_in_set c accept then Some 0 else (fun o => 1 + o) <$> strpbrk s' accept
  end.
Fixpoint strchr (s : list Z) (c : Z) : option Z :=
  match s with
  | [] => if c =? 0 then Some 0 else None
  | x :: s' =>
      if x =? 0 then (if c =? 0 then Some 0 else None)
      else if x =? u8 c then Some 0 else (fun o => 1 + o) <$> strchr s' c
  end.
(** The [do ... while] of [strrchr]: the last occurrence, from offset [i]. *)
Fixpoint strrchr_loop (s : list Z) (c i : Z) (last : option Z) : option Z :=
  match s with
  | [] => if 0 =? u8 c then Some i else last
  | x :: s' =>
      let last := if x =? u8 c then Some i else last in
      if x =? 0 then last else strrchr_loop s' c (i + 1) last
  end.
Definition strrchr (s : list Z) (c : Z) : option Z := strrchr_loop s c 0 None.
Definition index (s : list Z) (c : Z) : option Z := strchr s c.
Definition rindex (s : list Z) (c : Z) : option Z := strrchr s c.

(** The inner loop of [strstr]: the needle is a prefix. *)
Fixpoint prefix_here (h n : list Z) : bool :=
  match n with
  | [] => true
  | c :: n' =>
      if c =? 0 then true
      else match h with
           | x :: h' => if negb (x =? 0) && (x =? c) then prefix_here h' n' else false
           | [] => false
           end
  end.
Fixpoint strstr_loop (h needle : list Z) : option Z :=
  match h with
  | [] => None
  | x :: h' =>
      if x =? 0 then None
      else if prefix_here h needle then Some 0 else (fun o => 1 + o) <$> strstr_loop h' needle
  end.
Definition strstr (haystack needle : list Z) : option Z :=
  if char0 needle =? 0 then Some 0 else strstr_loop haystack needle.

(* ------------------------------------------------------------------ *)
(** ** Memory *)

Fixpoint memset_loop (m : mem) (p c : Z) (n : nat) : mem :=
  match n with
  | O => m
  | S n' => memset_loop (wr8 m p c) (p + 1) c n'
  end.
Definition memset (m : mem) (dst c n : Z) : mem := memset_loop m dst c (Z.to_nat n).
Fixpoint copy_forward (m : mem) (d s : Z) (n : nat) : mem :=
  match n with
  | O => m
  | S n' => copy_forward (wr8 m d (rd8 m s)) (d + 1) (s + 1) n'
  end.
Fixpoint copy_backward (m : mem) (d s : Z) (n : nat) : mem :=
  match n with
  | O => m
  | S n' => copy_backward (wr8 m (d - 1) (rd8 m (s - 1))) (d - 1) (s - 1) n'
  end.
Definition memcpy (m : mem) (dst src n : Z) : mem := copy_forward m dst src (Z.to_nat n).
Definition mempcpy (m : mem) (dst src n : Z) : mem * Z := (memcpy m dst src n, u64 (dst + n)).
Definition memmove (m : mem) (dst src n : Z) : mem :=
  if dst <? src then copy_forward m dst src (Z.to_nat n)
  else copy_backward m (dst + n) (src + n) (Z.to_nat n).
Definition bcopy (m : mem) (src dst n : Z) : mem := memmove m dst src n.
Definition bzero (m : mem) (s n : Z) : mem := memset m s 0 n.

Fixpoint memchr (s : list Z) (c : Z) (n : nat) : option Z :=
  match n with
  | O => None
  | S n' => if char0 s =? u8 c then Some 0 else (fun o => 1 + o) <$> memchr (tl s) c n'
  end.
Fixpoint memcmp (p q : list Z) (n : nat) : Z :=
  match n with
  | O => 0
  | S n' => if negb (char0 p =? char0 q) then char0 p - char0 q else memcmp (tl p) (tl q) n'
  end.
Definition bcmp (a b : list Z) (n : nat) : Z := memcmp a b n.

(** The loop of [ffs]; 32 rounds at most. *)
Fixpoint ffs_loop (fuel : nat) (x bit : Z) : Z :=
  match fuel with
  | O => bit
  | S f => if Z.land x 1 =? 0 then ffs_loop f (Z.shiftr x 1) (bit + 1) else bit
  end.
Definition ffs (i : Z) : Z := if i =? 0 then 0 else ffs_loop 32 (u32 i) 1.
