(* ===== verification/LibcFmt.v ===== *)
(** Numbers of the user library, [src/ports/myos/libc.c]: [strtol] and its
    family, the [printf] formatter, [abs], [rand].

    The formatter writes the memory of the program; the arguments of a call
    are the 8-byte slots [ap i] that [va_arg] reads one after the other, and
    [text_at a] is the string at address [a] when the call is made. *)

From S2P Require Import Prelude Memory LibcStr.

(* ------------------------------------------------------------------ *)
(** ** strtol *)

Fixpoint skip_space (s : list Z) : list Z :=
  match s with
  | c :: s' => if (c =? 32) || (c =? 9) || (c =? 10) then skip_space s' else s
  | [] => []
  end.

(** [digit], -1 where the character is none. *)
Definition digit_value (c : Z) : Z :=
  if (48 <=? c) && (c <=? 57) then c - 48
  else if (97 <=? c) && (c <=? 102) then c - 97 + 10
  else if (65 <=? c) && (c <=? 70) then c - 65 + 10
  else -1.

(** The digit loop: the value and what follows the last digit. *)
Fixpoint strtol_digits (s : list Z) (base result : Z) : Z * list Z :=
  match s with
  | [] => (result, [])
  | c :: s' =>
      if c =? 0 then (result, s)
      else
        let digit := digit_value c in
        if (digit <? 0) || (base <=? digit) then (result, s)
        else strtol_digits s' base (s64 (result * base + digit))
  end.

(** The result and [*endptr]. *)
Definition strtol (nptr : list Z) (base : Z) : Z * list Z :=
  let nptr := skip_space nptr in
  let '(sign, nptr) :=
    if char0 nptr =? 45 then (-1, tl nptr)
    else if char0 nptr =? 43 then (1, tl nptr) else (1, nptr) in
  let '(base, nptr) :=
    if base =? 0 then
      if (char0 nptr =? 48) && ((char0 (tl nptr) =? 120) || (char0 (tl nptr) =? 88))
      then (16, tl (tl nptr)) else (10, nptr)
    else (base, nptr) in
  let '(result, rest) := strtol_digits nptr base 0 in
  (s64 (result * sign), rest).
Definition strtoul (nptr : list Z) (base : Z) : Z * list Z :=
  let '(v, rest) := strtol nptr base in (u64 v, rest).
Definition strtoll (nptr : list Z) (base : Z) : Z * list Z := strtol nptr base.
Definition strtoull (nptr : list Z) (base : Z) : Z * list Z := strtoul nptr base.
Definition strtoimax (nptr : list Z) (base : Z) : Z * list Z := strtol nptr base.
Definition strtoumax (nptr : list Z) (base : Z) : Z * list Z := strtoul nptr base.
Definition atoi (s : list Z) : Z := s32 (fst (strtol s 10)).
Definition atol (s : list Z) : Z := fst (strtol s 10).
Definition atoll (s : list Z) : Z := fst (strtoll s 10).

(** [None]: a division by zero or [LONG_MIN / -1]. *)
Definition imaxdiv (numer denom : Z) : option (Z * Z) :=
  if (denom =? 0) || ((numer =? -9223372036854775808) && (denom =? -1)) then None
  else Some (Z.quot numer denom, Z.rem numer denom).
Definition abs (x : Z) : Z := if x <? 0 then s32 (- x) else x.
Definition labs (x : Z) : Z := if x <? 0 then s64 (- x) else x.

(** [rand_state] *)
Definition srand (seed : Z) : Z := if u32 seed =? 0 then 1 else u32 seed.
Definition rand (rand_state : Z) : Z * Z :=
  let rand_state := u64 (rand_state * 1103515245 + 12345) in
  (Z.land (Z.shiftr rand_state 16) 32767, rand_state).

(* ------------------------------------------------------------------ *)
(** ** Output *)

(** The local variables [out], [left], [count] of [vsnprintf], which the
    helpers get by address, and the memory [out] points into. *)
Record out_st := OutSt { o_mem : mem; o_buf : Z; o_left : Z; o_count : Z }.

Definition out_char (o : out_st) (c : Z) : out_st :=
  if 1 <? o_left o then
    {| o_mem := wr8 (o_mem o) (o_buf o) c; o_buf := u64 (o_buf o + 1);
       o_left := o_left o - 1; o_count := s32 (o_count o + 1) |}
  else
    {| o_mem := o_mem o; o_buf := o_buf o; o_left := o_left o; o_count := s32 (o_count o + 1) |}.

Fixpoint out_chars (o : out_st) (s : list Z) : out_st :=
  match s with
  | [] => o
  | c :: s' => if c =? 0 then o else out_chars (out_char o c) s'
  end.
(** The string "(null)" *)
Definition null_text : list Z := [40; 110; 117; 108; 108; 41].
Definition out_str (o : out_st) (s : option (list Z)) : out_st :=
  out_chars o (default null_text s).

Fixpoint out_repeat_n (o : out_st) (c : Z) (n : nat) : out_st :=
  match n with
  | O => o
  | S n' => out_repeat_n (out_char o c) c n'
  end.
Definition out_repeat (o : out_st) (c n : Z) : out_st := out_repeat_n o c (Z.to_nat n).

(** [tmp[0 .. n-1]]: the digits, the lowest first. *)
Fixpoint uint_digits (fuel : nat) (x base : Z) : list Z :=
  match fuel with
  | O => []
  | S f =>
      if x =? 0 then []
      else
        let digit := x mod base in
        (if digit <? 10 then 48 + digit else 97 + digit - 10) :: uint_digits f (x / base) base
  end.
Definition uint_tmp (x base : Z) : list Z :=
  if x =? 0 then [48] else uint_digits 64 x base.

(** [while (n--) out_char(tmp[n])] *)
Fixpoint out_tmp (o : out_st) (tmp : list Z) (n : nat) : out_st :=
  match n with
  | O => o
  | S n' => out_tmp (out_char o (zget tmp (Z.of_nat n'))) tmp n'
  end.

Definition out_uint (o : out_st) (x base : Z) (neg left_align pad_zero : bool) (width : Z) : out_st :=
  let tmp := uint_tmp x base in
  let len := Z.of_nat (length tmp) + (if neg then 1 else 0) in
  let pad := if len <? width then width - len else 0 in
  let o := if negb left_align && negb pad_zero then out_repeat o 32 pad else o in
  let o := if neg then out_char o 45 else o in
  let o := if negb left_align && pad_zero then out_repeat o 48 pad else o in
  let o := out_tmp o tmp (length tmp) in
  if left_align then out_repeat o 32 pad else o.

(* ------------------------------------------------------------------ *)
(** ** vsnprintf *)

(** The flag loop: what follows, [left_align], [pad_zero]. *)
Fixpoint skip_flags (fmt : list Z) (left_align pad_zero : bool) : list Z * bool * bool :=
  match fmt with
  | c :: fmt' =>
      if c =? 45 then skip_flags fmt' true pad_zero
      else if c =? 48 then skip_flags fmt' left_align true
      else if (c =? 43) || (c =? 32) || (c =? 35) then skip_flags fmt' left_align pad_zero
      else (fmt, left_align, pad_zero)
  | [] => ([], left_align, pad_zero)
  end.
Fixpoint read_width (fmt : list Z) (width : Z) : list Z * Z :=
  match fmt with
  | c :: fmt' =>
      if (48 <=? c) && (c <=? 57) then read_width fmt' (s32 (width * 10 + (c - 48))) else (fmt, width)
  | [] => ([], width)
  end.
Fixpoint skip_digits (fmt : list Z) : list Z :=
  match fmt with
  | c :: fmt' => if (48 <=? c) && (c <=? 57) then skip_digits fmt' else fmt
  | [] => []
  end.
(** The precision is skipped. *)
Definition skip_precision (fmt : list Z) : list Z :=
  if char0 fmt =? 46 then skip_digits (tl fmt) else fmt.
Fixpoint skip_long (fmt : list Z) (long_arg : bool) : list Z * bool :=
  match fmt with
  | c :: fmt' => if (c =? 108) || (c =? 122) then skip_long fmt' true else (fmt, long_arg)
  | [] => ([], long_arg)
  end.

Section vsnprintf.
Context (text_at : Z -> list Z) (ap : nat -> Z).

(** The [char *] in slot [i]. *)
Definition arg_str (i : nat) : option (list Z) :=
  if u64 (ap i) =? 0 then None else Some (text_at (u64 (ap i))).
Definition arg_signed (long_arg : bool) (i : nat) : Z :=
  if long_arg then s64 (ap i) else s32 (ap i).
Definition arg_unsigned (long_arg : bool) (i : nat) : Z :=
  if long_arg then u64 (ap i) else u32 (ap i).

(** The chain of [if]s on the conversion character [c]; also the next slot. *)
Definition conversion (o : out_st) (long_arg left_align pad_zero : bool) (width c : Z)
    (i : nat) : out_st * nat :=
  if c =? 115 then (out_str o (arg_str i), S i)
  else if c =? 99 then (out_char o (s32 (ap i)), S i)
  else if (c =? 100) || (c =? 105) then
    let v := arg_signed long_arg i in
    let x := if v <? 0 then u64 (- v) else u64 v in
    (out_uint o x 10 (v <? 0) left_align pad_zero width, S i)
  else if c =? 117 then
    (out_uint o (arg_unsigned long_arg i) 10 false left_align pad_zero width, S i)
  else if (c =? 120) || (c =? 88) then
    (out_uint o (arg_unsigned long_arg i) 16 false left_align pad_zero width, S i)
  else if c =? 111 then
    (out_uint o (arg_unsigned long_arg i) 8 false left_align pad_zero width, S i)
  else if c =? 112 then
    (out_uint (out_str o (Some [48; 120])) (u64 (ap i)) 16 false false false 0, S i)
  else if c =? 37 then (out_char o 37, i)
  else
    let o := out_char o 37 in
    (if c =? 0 then o else out_char o c, i).

(** The body of the loop behind a ['%']: what follows, the output, the next
    slot. *)
Definition directive (fmt : list Z) (i : nat) (o : out_st) : list Z * nat * out_st :=
  let '(fmt, left_align, pad_zero) := skip_flags fmt false false in
  let '(fmt, width) := read_width fmt 0 in
  let fmt := skip_precision fmt in
  let '(fmt, long_arg) := skip_long fmt false in
  let '(o, i) := conversion o long_arg left_align pad_zero width (char0 fmt) i in
  ((if char0 fmt =? 0 then fmt else tl fmt), i, o).

(** [None] when the fuel ends before the format does. *)
Fixpoint vsn_loop (fuel : nat) (fmt : list Z) (i : nat) (o : out_st) : option out_st :=
  if char0 fmt =? 0 then Some o
  else
    match fuel with
    | O => None
    | S f =>
        if negb (char0 fmt =? 37) then vsn_loop f (tl fmt) i (out_char o (char0 fmt))
        else let '(fmt', i', o') := directive (tl fmt) i o in vsn_loop f fmt' i' o'
    end.

(** The memory and the result. With [size == 0] the output goes to [sink],
    whose address does not matter: [left] is 0 and nothing is stored. *)
Definition vsnprintf (m : mem) (str size : Z) (fmt : list Z) : option (mem * Z) :=
  match vsn_loop (length fmt) fmt 0 (OutSt m str size 0) with
  | None => None
  | Some o =>
      let m := o_mem o in
      let m :=
        if 0 <? size then
          if 0 <? o_left o then wr8 m (o_buf o) 0 else wr8 m (str + size - 1) 0
        else m in
      Some (m, o_count o)
  end.
Definition snprintf (m : mem) (str size : Z) (fmt : list Z) : option (mem * Z) :=
  vsnprintf m str size fmt.
Definition sprintf (m : mem) (str : Z) (fmt : list Z) : option (mem * Z) :=
  vsnprintf m str (u64 (-1)) fmt.
Definition vsprintf (m : mem) (str : Z) (fmt : list Z) : option (mem * Z) :=
  vsnprintf m str (u64 (-1)) fmt.
End vsnprintf.

Example snprintf_ex :
  (fun r => load_bytes (fst r) 100 8) <$>
    snprintf (fun _ => []) (fun i => if (i =? 0)%nat then -42 else 7) ∅ 100 8 [37; 53; 100; 124; 37; 48; 51; 100]
  = Some [32; 32; 45; 52; 50; 124; 48; 0].
Proof. vm_compute. reflexivity. Qed.
