(* ===== verification/LibcFmtSpec.v ===== *)
(** What [vsnprintf] prints: the text of a format, and that the output buffer
    gets it, cut to the size, with a NUL behind it; what it prints for a [long]
    is what [strtol] reads back. *)

From S2P Require Import Prelude Memory LibcStr LibcFmt.

(* ------------------------------------------------------------------ *)
(** ** The text of a format *)

(** The characters before the NUL. *)
Fixpoint str_text (s : list Z) : list Z :=
  match s with
  | [] => []
  | c :: s' => if c =? 0 then [] else u8 c :: str_text s'
  end.

(** A number of digits [ds] with its sign, padded to [width]. *)
Definition num_text (ds : list Z) (neg left_align pad_zero : bool) (width : Z) : list Z :=
  let sign := if neg then [45] else [] in
  let pad := Z.to_nat (width - Z.of_nat (length (sign ++ ds))) in
  if left_align then sign ++ ds ++ replicate pad 32
  else if pad_zero then sign ++ replicate pad 48 ++ ds
  else replicate pad 32 ++ sign ++ ds.

Definition uint_text (x base : Z) (neg left_align pad_zero : bool) (width : Z) : list Z :=
  num_text (reverse (uint_tmp x base)) neg left_align pad_zero width.

Section text.
Context (text_at : Z -> list Z) (ap : nat -> Z).

(** The text of one conversion and the slots it takes. *)
Definition conversion_text (long_arg left_align pad_zero : bool) (width c : Z) (i : nat) : list Z * nat :=
  if c =? 115 then (str_text (default null_text (arg_str text_at ap i)), S i)
  else if c =? 99 then ([u8 (ap i)], S i)
  else if (c =? 100) || (c =? 105) then
    let v := arg_signed ap long_arg i in
    (uint_text (Z.abs v) 10 (v <? 0) left_align pad_zero width, S i)
  else if c =? 117 then (uint_text (arg_unsigned ap long_arg i) 10 false left_align pad_zero width, S i)
  else if (c =? 120) || (c =? 88) then
    (uint_text (arg_unsigned ap long_arg i) 16 false left_align pad_zero width, S i)
  else if c =? 111 then (uint_text (arg_unsigned ap long_arg i) 8 false left_align pad_zero width, S i)
  else if c =? 112 then (48 :: 120 :: uint_text (u64 (ap i)) 16 false false false 0, S i)
  else if c =? 37 then ([37], i)
  else if c =? 0 then ([37], i) else ([37; u8 c], i).

(** [formats fmt i text]: the format prints [text] when its first argument is
    slot [i]. *)
Inductive formats : list Z -> nat -> list Z -> Prop :=
| formats_end fmt i : char0 fmt = 0 -> formats fmt i []
| formats_char fmt i text :
    char0 fmt <> 0 -> char0 fmt <> 37 ->
    formats (tl fmt) i text -> formats fmt i (u8 (char0 fmt) :: text)
| formats_directive fmt i fmt1 left_align pad_zero fmt2 width fmt3 long_arg u i' text :
    char0 fmt = 37 ->
    skip_flags (tl fmt) false false = (fmt1, left_align, pad_zero) ->
    read_width fmt1 0 = (fmt2, width) ->
    skip_long (skip_precision fmt2) false = (fmt3, long_arg) ->
    conversion_text long_arg left_align pad_zero width (char0 fmt3) i = (u, i') ->
    formats (if char0 fmt3 =? 0 then fmt3 else tl fmt3) i' text ->
    formats fmt i (u ++ text).
End text.

(* ------------------------------------------------------------------ *)
(** ** The output state *)

(** What [out], [left], [count] and the memory are once [t] has been printed
    into the [size] bytes at [str]. *)
Definition emitted (m : mem) (str size : Z) (t : list Z) : out_st :=
  let n := Z.min (Z.max 0 (size - 1)) (Z.of_nat (length t)) in
  {| o_mem := store_bytes m str (take (Z.to_nat (size - 1)) t);
     o_buf := str + n; o_left := size - n; o_count := s32 (Z.of_nat (length t)) |}.

(** The part of the buffer that [t] and its NUL need does not wrap. *)
Definition fits (str size : Z) (t : list Z) : Prop :=
  0 <= str /\ 0 <= size < 2 ^ 64 /\ str + Z.min size (Z.of_nat (length t) + 1) <= 2 ^ 64.

(** The operation [f] prints [t]. *)
Definition prints (f : out_st -> out_st) (t : list Z) : Prop :=
  forall m str size pre,
    fits str size (pre ++ t) -> f (emitted m str size pre) = emitted m str size (pre ++ t).

Lemma fits_prefix str size t u : fits str size (t ++ u) -> fits str size t.
Proof. unfold fits. rewrite length_app. lia. Qed.

Lemma store_bytes_app m a bs cs :
  store_bytes m a (bs ++ cs) = store_bytes (store_bytes m a bs) (a + Z.of_nat (length bs)) cs.
Proof.
  revert m a. induction bs as [|b bs IH]; intros m a; cbn [app store_bytes length].
  - by rewrite Z.add_0_r.
  - rewrite IH. f_equal. lia.
Qed.

Lemma s32_succ x : s32 (s32 x + 1) = s32 (x + 1).
Proof.
  assert (Hu : u32 (s32 x + 1) = u32 (x + 1)).
  { unfold s32. destruct (u32 x <? 2147483648); unfold u32; dlia. }
  unfold s32 at 1 3. by rewrite Hu.
Qed.

#[local] Arguments prints : simpl never.

Lemma prints_nil : prints (fun o => o) [].
Proof. intros m str size pre _. by rewrite app_nil_r. Qed.

Lemma prints_comp f g t u : prints f t -> prints g u -> prints (fun o => g (f o)) (t ++ u).
Proof.
  intros Hf Hg m str size pre Hfit. rewrite app_assoc in *.
  rewrite Hf by (by eapply fits_prefix). by apply Hg.
Qed.

Lemma prints_char c : prints (fun o => out_char o c) [u8 c].
Proof.
  intros m str size pre (Hstr & Hsize & Hfit). rewrite length_app in Hfit. cbn in Hfit.
  unfold out_char, emitted. cbn [o_left o_mem o_buf o_count].
  rewrite length_app, take_app, store_bytes_app, length_take. cbn [length].
  destruct (Z.ltb_spec 1 (size - Z.min (Z.max 0 (size - 1)) (Z.of_nat (length pre)))) as [Hl|Hl].
  - f_equal.
    + rewrite (take_ge [u8 c]) by (cbn; lia). rewrite wr8_store. f_equal. lia.
    + rewrite u64_id by lia. lia.
    + lia.
    + rewrite s32_succ. f_equal. lia.
  - f_equal.
    + by replace (Z.to_nat (size - 1) - length pre)%nat with O by lia.
    + lia.
    + lia.
    + rewrite s32_succ. f_equal. lia.
Qed.

Lemma prints_chars s : prints (fun o => out_chars o s) (str_text s).
Proof.
  induction s as [|c s IH]; cbn [out_chars str_text]; [apply prints_nil|].
  destruct (c =? 0); [apply prints_nil|].
  exact (prints_comp _ _ [u8 c] _ (prints_char c) IH).
Qed.

Lemma prints_repeat c n : prints (fun o => out_repeat o c n) (replicate (Z.to_nat n) (u8 c)).
Proof.
  unfold out_repeat. generalize (Z.to_nat n) as k. clear n.
  induction k as [|k IH]; cbn [out_repeat_n replicate]; [apply prints_nil|].
  exact (prints_comp _ _ [u8 c] _ (prints_char c) IH).
Qed.

Lemma prints_tmp ds n :
  (n <= length ds)%nat -> Forall is_byte ds -> prints (fun o => out_tmp o ds n) (reverse (take n ds)).
Proof.
  intros Hn Hds. induction n as [|n IH]; cbn [out_tmp]; [rewrite take_0; apply prints_nil|].
  destruct (lookup_lt_is_Some_2 ds n Hn) as [d Hd].
  rewrite (take_S_r _ _ d Hd), reverse_app, reverse_singleton.
  assert (zget ds (Z.of_nat n) = d) as -> by (unfold zget; by rewrite Nat2Z.id, Hd).
  replace [d] with [u8 d] by (rewrite u8_id; [done|exact (Forall_lookup_1 _ _ _ _ Hds Hd)]).
  apply (prints_comp (fun o => out_char o d) (fun o => out_tmp o ds n) _ _ (prints_char d)), IH. lia.
Qed.

(* ------------------------------------------------------------------ *)
(** ** Numbers *)

Lemma uint_digits_byte fuel x base :
  2 <= base <= 16 -> Forall is_byte (uint_digits fuel x base).
Proof.
  intros Hb. revert x. induction fuel as [|f IH]; intros x; cbn; [constructor|].
  destruct (x =? 0); constructor; [|apply IH]. unfold is_byte.
  pose proof (Z.mod_pos_bound x base). destruct (Z.ltb_spec (x mod base) 10); lia.
Qed.
Lemma uint_tmp_byte x base : 2 <= base <= 16 -> Forall is_byte (uint_tmp x base).
Proof.
  intros Hb. unfold uint_tmp. destruct (x =? 0); [|by apply uint_digits_byte].
  repeat constructor; done.
Qed.

Lemma prints_if (b : bool) f g t u :
  (b = true -> prints f t) -> (b = false -> prints g u) ->
  prints (fun o => if b then f o else g o) (if b then t else u).
Proof. destruct b; auto. Qed.

Lemma prints_eq f t u : t = u -> prints f t -> prints f u.
Proof. by intros ->. Qed.

Lemma prints_uint x base neg left_align pad_zero width :
  2 <= base <= 16 ->
  prints (fun o => out_uint o x base neg left_align pad_zero width)
    (uint_text x base neg left_align pad_zero width).
Proof.
  intros Hb. unfold out_uint. set (ds := uint_tmp x base).
  set (pad := if _ <? width then _ else 0).
  eapply prints_eq; cycle 1.
  { apply (prints_comp _ (fun o => if left_align then out_repeat o 32 pad else o));
      [|apply prints_if; intros _; [apply prints_repeat|apply prints_nil]].
    apply (prints_comp _ (fun o => out_tmp o ds (length ds)));
      [|apply prints_tmp; [done|by apply uint_tmp_byte]].
    apply (prints_comp _ (fun o => if negb left_align && pad_zero then out_repeat o 48 pad else o));
      [|apply prints_if; intros _; [apply prints_repeat|apply prints_nil]].
    apply (prints_comp _ (fun o => if neg then out_char o 45 else o));
      [|apply prints_if; intros _; [apply prints_char|apply prints_nil]].
    apply prints_if; intros _; [apply prints_repeat|apply prints_nil]. }
  unfold uint_text, num_text. fold ds. rewrite firstn_all, length_app, length_reverse.
  change (u8 32) with 32. change (u8 48) with 48. change (u8 45) with 45.
  replace (Z.to_nat pad)
    with (Z.to_nat (width - Z.of_nat (length (if neg then [45] else []) + length ds))).
  2: { subst pad. destruct neg; cbn [length];
       match goal with |- context [?a <? width] => destruct (Z.ltb_spec a width) end; lia. }
  destruct left_align, pad_zero, neg; cbn; by rewrite ?app_nil_r, <- ?app_assoc.
Qed.

(* ------------------------------------------------------------------ *)
(** ** Directives and formats *)

Section formats.
Context (text_at : Z -> list Z) (ap : nat -> Z).

Lemma conversion_prints long_arg left_align pad_zero width c i u i' m str size pre :
  conversion_text text_at ap long_arg left_align pad_zero width c i = (u, i') ->
  fits str size (pre ++ u) ->
  conversion text_at ap (emitted m str size pre) long_arg left_align pad_zero width c i
    = (emitted m str size (pre ++ u), i').
Proof.
  unfold conversion_text, conversion. intros Hu Hfit.
  destruct (c =? 115).
  { simplify_eq. f_equal. by apply (prints_chars _ m str size pre). }
  destruct (c =? 99).
  { simplify_eq. f_equal.
    assert (u8 (ap i) = u8 (s32 (ap i))) as Hc.
    { unfold_width. case_match; dlia. }
    rewrite Hc in *. by apply (prints_char _ m str size pre). }
  destruct ((c =? 100) || (c =? 105)).
  { set (v := arg_signed ap long_arg i) in *.
    assert (- 2 ^ 63 <= v < 2 ^ 63) as Hv.
    { subst v. unfold arg_signed. destruct long_arg; [apply s64_bounds|].
      pose proof (s32_bounds (ap i)). lia. }
    assert ((if v <? 0 then u64 (- v) else u64 v) = Z.abs v) as ->.
    { destruct (Z.ltb_spec v 0); rewrite u64_id; lia. }
    simplify_eq. f_equal.
    by apply (prints_uint (Z.abs v) 10 (v <? 0) left_align pad_zero width ltac:(lia) m str size pre). }
  destruct (c =? 117).
  { simplify_eq. f_equal. by apply (prints_uint _ 10 false left_align pad_zero width ltac:(lia) m str size pre). }
  destruct ((c =? 120) || (c =? 88)).
  { simplify_eq. f_equal. by apply (prints_uint _ 16 false left_align pad_zero width ltac:(lia) m str size pre). }
  destruct (c =? 111).
  { simplify_eq. f_equal. by apply (prints_uint _ 8 false left_align pad_zero width ltac:(lia) m str size pre). }
  destruct (c =? 112).
  { simplify_eq. f_equal.
    exact (prints_comp _ (fun o => out_uint o (u64 (ap i)) 16 false false false 0) _ _
             (prints_chars [48; 120]) (prints_uint _ 16 false false false 0 ltac:(lia)) m str size pre Hfit). }
  destruct (c =? 37).
  { simplify_eq. f_equal. by apply (prints_char 37 m str size pre). }
  destruct (c =? 0); simplify_eq; f_equal.
  - by apply (prints_char 37 m str size pre).
  - exact (prints_comp _ (fun o => out_char o c) [u8 37] [u8 c]
             (prints_char 37) (prints_char c) m str size pre Hfit).
Qed.

(** The scanners only move forward. *)
Lemma skip_flags_length fmt la pz : (length (fst (fst (skip_flags fmt la pz))) <= length fmt)%nat.
Proof.
  revert la pz. induction fmt as [|c fmt IH]; intros la pz; cbn [skip_flags length]; [done|].
  repeat case_match; cbn [fst length]; try lia; etransitivity; [apply IH|lia|apply IH|lia|apply IH|lia].
Qed.
Lemma read_width_length fmt w : (length (fst (read_width fmt w)) <= length fmt)%nat.
Proof.
  revert w. induction fmt as [|c fmt IH]; intros w; cbn [read_width length]; [done|].
  case_match; cbn [fst length]; [|lia]. etransitivity; [apply IH|lia].
Qed.
Lemma skip_digits_length fmt : (length (skip_digits fmt) <= length fmt)%nat.
Proof. induction fmt as [|c fmt IH]; cbn [skip_digits length]; [done|]. case_match; cbn [length]; lia. Qed.
Lemma skip_precision_length fmt : (length (skip_precision fmt) <= length fmt)%nat.
Proof.
  unfold skip_precision. case_match; [|done]. pose proof (skip_digits_length (tl fmt)).
  destruct fmt; cbn in *; lia.
Qed.
Lemma skip_long_length fmt l : (length (fst (skip_long fmt l)) <= length fmt)%nat.
Proof.
  revert l. induction fmt as [|c fmt IH]; intros l; cbn [skip_long length]; [done|].
  case_match; cbn [fst length]; [|lia]. etransitivity; [apply IH|lia].
Qed.

(** Every format has a text. *)
Lemma formats_total fmt i : exists text, formats text_at ap fmt i text.
Proof.
  remember (length fmt) as n eqn:Hn. assert (length fmt <= n)%nat as Hle by lia. clear Hn.
  revert fmt i Hle. induction n as [|n IH]; intros fmt i Hle.
  { destruct fmt; [|cbn in Hle; lia]. exists []. by constructor. }
  destruct (decide (char0 fmt = 0)) as [H0|H0]; [exists []; by constructor|].
  assert (length (tl fmt) <= n)%nat as Htl by (destruct fmt; cbn in *; lia).
  destruct (decide (char0 fmt = 37)) as [Hp|Hp].
  - destruct (skip_flags (tl fmt) false false) as [[fmt1 la] pz] eqn:E1.
    destruct (read_width fmt1 0) as [fmt2 w] eqn:E2.
    destruct (skip_long (skip_precision fmt2) false) as [fmt3 lng] eqn:E3.
    destruct (conversion_text text_at ap lng la pz w (char0 fmt3) i) as [u i'] eqn:E4.
    assert (length fmt3 <= n)%nat as Hlen.
    { pose proof (skip_flags_length (tl fmt) false false) as L1. rewrite E1 in L1.
      pose proof (read_width_length fmt1 0) as L2. rewrite E2 in L2.
      pose proof (skip_long_length (skip_precision fmt2) false) as L3. rewrite E3 in L3.
      pose proof (skip_precision_length fmt2). cbn in *. lia. }
    destruct (IH (if char0 fmt3 =? 0 then fmt3 else tl fmt3) i') as [text Ht].
    { case_match; [done|]. destruct fmt3; cbn in *; lia. }
    exists (u ++ text). by eapply formats_directive.
  - destruct (IH (tl fmt) i Htl) as [text Ht]. eexists. by apply formats_char.
Qed.

(** The loop prints the text, with the length of the format as fuel. *)
Lemma vsn_loop_prints fmt i text m str size :
  formats text_at ap fmt i text ->
  forall fuel pre, (length fmt <= fuel)%nat -> fits str size (pre ++ text) ->
  vsn_loop text_at ap fuel fmt i (emitted m str size pre) = Some (emitted m str size (pre ++ text)).
Proof.
  induction 1 as [fmt i H0|fmt i text H0 Hp Hf IH|fmt i fmt1 la pz fmt2 w fmt3 lng u i' text Hp E1 E2 E3 E4 Hf IH];
    intros fuel pre Hfuel Hfit.
  - rewrite app_nil_r. destruct fuel; cbn [vsn_loop]; by rewrite H0.
  - destruct fuel as [|f]; [destruct fmt; cbn in *; lia|]. cbn [vsn_loop].
    rewrite (proj2 (Z.eqb_neq _ _) H0), (proj2 (Z.eqb_neq _ _) Hp). cbn [negb].
    rewrite cons_middle in *. rewrite app_assoc in *.
    rewrite (prints_char (char0 fmt) m str size pre) by (by eapply fits_prefix).
    apply IH; [destruct fmt; cbn in *; lia|done].
  - destruct fuel as [|f]; [destruct fmt; cbn in *; lia|]. cbn [vsn_loop].
    rewrite Hp. cbn [Z.eqb negb Pos.eqb].
    unfold directive. rewrite E1, E2. rewrite E3.
    rewrite app_assoc in *.
    rewrite (conversion_prints _ _ _ _ _ _ _ _ m str size pre E4) by (by eapply fits_prefix).
    apply IH; [|done].
    pose proof (skip_flags_length (tl fmt) false false) as L1. rewrite E1 in L1.
    pose proof (read_width_length fmt1 0) as L2. rewrite E2 in L2.
    pose proof (skip_long_length (skip_precision fmt2) false) as L3. rewrite E3 in L3.
    pose proof (skip_precision_length fmt2). cbn [fst] in *.
    destruct fmt; [done|]. cbn [tl length] in *.
    case_match; [lia|]. destruct fmt3; cbn in *; lia.
Qed.

(** What [vsnprintf] does, for any text its format has. *)
Lemma vsnprintf_text fmt text m str size :
  formats text_at ap fmt 0 text -> fits str size text ->
  vsnprintf text_at ap m str size fmt =
    Some (if size =? 0 then m else store_bytes m str (take (Z.to_nat (size - 1)) text ++ [0]),
          s32 (Z.of_nat (length text))).
Proof.
  intros Hf Hfit. unfold vsnprintf.
  assert (OutSt m str size 0 = emitted m str size []) as ->.
  { unfold emitted. rewrite take_nil. cbn. destruct Hfit as (? & ? & _). f_equal; lia. }
  rewrite (vsn_loop_prints fmt 0 text m str size Hf) by done. cbn [app].
  unfold emitted. cbn [o_left o_mem o_buf o_count].
  destruct Hfit as (Hstr & Hsize & Hfit). f_equal. f_equal.
  destruct (Z.ltb_spec 0 size) as [Hpos|Hpos].
  - rewrite (proj2 (Z.eqb_neq size 0)) by lia.
    rewrite (proj2 (Z.ltb_lt 0 _)) by lia.
    rewrite store_bytes_app, wr8_store. do 2 f_equal. rewrite length_take. lia.
  - assert (size = 0) as -> by lia. cbn. by rewrite take_0.
Qed.
End formats.

Lemma str_text_byte s : Forall is_byte (str_text s).
Proof.
  induction s as [|c s IH]; cbn; [constructor|]. case_match; constructor; [apply u8_bounds|done].
Qed.

Lemma uint_text_byte x base neg la pz w :
  2 <= base <= 16 -> Forall is_byte (uint_text x base neg la pz w).
Proof.
  intros Hb. unfold uint_text, num_text.
  assert (Forall is_byte (reverse (uint_tmp x base))) by (apply Forall_reverse, uint_tmp_byte; done).
  assert (Forall is_byte (if neg then [45] else [])) by (destruct neg; repeat constructor; done).
  destruct la; [|destruct pz]; rewrite ?Forall_app; split_and?; try done; apply Forall_replicate; done.
Qed.

Lemma formats_byte text_at ap fmt i text : formats text_at ap fmt i text -> Forall is_byte text.
Proof.
  induction 1 as [| |fmt i fmt1 la pz fmt2 w fmt3 lng u i' text Hp E1 E2 E3 E4 Hf IH];
    [constructor|constructor; [apply u8_bounds|done]|].
  rewrite Forall_app. split; [|done]. clear -E4. unfold conversion_text in E4.
  repeat (case_match; [simplify_eq; try (by apply uint_text_byte)|]);
    simplify_eq; repeat constructor; try (by apply u8_bounds); try done.
  - apply str_text_byte.
  - by apply uint_text_byte.
Qed.

(** A format has one text. *)
Lemma formats_det text_at ap fmt i t u :
  formats text_at ap fmt i t -> formats text_at ap fmt i u -> t = u.
Proof.
  intros Ht. revert u.
  induction Ht as [| |fmt i fmt1 la pz fmt2 w fmt3 lng v i' text Hp E1 E2 E3 E4 Hf IH];
    intros u Hu; inversion Hu; subst; try congruence; [f_equal; auto|].
  repeat match goal with
    H1 : ?e = (_, _), H2 : ?e = (_, _) |- _ => rewrite H1 in H2; injection H2 as ? ?; subst
  end; simplify_eq.
  f_equal. auto.
Qed.

(** C32: [vsnprintf] prints the text of its format: the call returns the
    length of the whole text, the buffer holds the first [size - 1] bytes of
    it (all of it when it is shorter) and a NUL behind them, no byte outside
    of the [size] bytes at [str] changes, and with [size] 0 no byte does. *)
Theorem vsnprintf_prints text_at ap fmt :
  exists text, formats text_at ap fmt 0 text /\
  forall m str size, fits str size text ->
  exists m', vsnprintf text_at ap m str size fmt = Some (m', s32 (Z.of_nat (length text))) /\
    (0 < size ->
       let kept := take (Z.to_nat (size - 1)) text in
       load_bytes m' str (S (length kept)) = kept ++ [0]) /\
    (forall x, x < str \/ str + size <= x -> rd8 m' x = rd8 m x).
Proof.
  destruct (formats_total text_at ap fmt 0) as [text Hf]. exists text. split; [done|].
  intros m str size Hfit. rewrite (vsnprintf_text _ _ _ _ _ _ _ Hf Hfit).
  eexists. split; [done|]. destruct Hfit as (? & ? & _).
  destruct (Z.eqb_spec size 0) as [->|Hne]; [split; [lia|done]|]. cbn zeta.
  set (kept := take (Z.to_nat (size - 1)) text).
  assert (length kept <= Z.to_nat (size - 1))%nat as Hk by (unfold kept; rewrite length_take; lia).
  split.
  - intros _. replace (S (length kept)) with (length (kept ++ [0])) by (rewrite length_app; cbn; lia).
    apply load_store_same. apply Forall_app. split; [|by repeat constructor].
    apply Forall_take. by eapply formats_byte.
  - intros x Hx. rewrite rd8_store_bytes, decide_False; [done|]. rewrite length_app. cbn [length]. lia.
Qed.

(** [snprintf(buf, 4, "%d", -123)]: the buffer is one byte too short. *)
Lemma vsnprintf_prints_witness :
  exists m', vsnprintf (fun _ => []) (fun _ => u64 (-123)) ∅ 100 4 [37; 100; 0] = Some (m', 4) /\
    load_bytes m' 100 4 = [45; 49; 50; 0].
Proof.
  destruct (vsnprintf_prints (fun _ => []) (fun _ => u64 (-123)) [37; 100; 0]) as (text & Hf & Hall).
  assert (text = [45; 49; 50; 51]) as ->.
  { eapply formats_det; [exact Hf|].
    eapply (formats_directive _ _ _ _ _ false false _ 0 [100; 0] false [45; 49; 50; 51] 1 []);
      [reflexivity..|vm_compute; reflexivity|by constructor]. }
  destruct (Hall ∅ 100 4) as (m' & Hr & Hl & _).
  - unfold fits. cbn. lia.
  - exists m'. split; [exact Hr|]. apply Hl. lia.
Defined.

(* ------------------------------------------------------------------ *)
(** ** Round trip *)

Lemma strtol_digits_app fuel x tail r :
  0 <= x < 2 ^ Z.of_nat fuel -> 0 <= r ->
  r * 10 ^ Z.of_nat (length (uint_digits fuel x 10)) + x < 2 ^ 63 ->
  strtol_digits (reverse (uint_digits fuel x 10) ++ tail) 10 r =
    strtol_digits tail 10 (r * 10 ^ Z.of_nat (length (uint_digits fuel x 10)) + x).
Proof.
  revert x tail. induction fuel as [|f IH]; intros x tail Hx Hr Hlt.
  { cbn in *. f_equal. lia. }
  rewrite Nat2Z.inj_succ, Z.pow_succ_r in Hx by lia.
  cbn [uint_digits] in *. destruct (Z.eqb_spec x 0) as [->|Hne]; cbn [length] in *.
  { cbn. f_equal. lia. }
  pose proof (Z.mod_pos_bound x 10 ltac:(lia)) as Hmod.
  rewrite (proj2 (Z.ltb_lt (x mod 10) 10)) in * by lia.
  rewrite reverse_cons, <- app_assoc.
  set (ds := uint_digits f (x / 10) 10) in *.
  rewrite Nat2Z.inj_succ, Z.pow_succ_r in * by lia.
  set (p := 10 ^ Z.of_nat (length ds)) in *.
  assert (0 <= p) by (unfold p; lia).
  assert (x = 10 * (x / 10) + x mod 10) as Hdiv by (apply Z.div_mod; lia).
  assert (0 <= x / 10) by dlia. assert (0 <= r * p) by nia.
  pose proof (IH (x / 10) ([48 + x mod 10] ++ tail) ltac:(dlia) Hr) as IHx.
  fold ds in IHx. fold p in IHx. rewrite IHx by lia. cbn [app strtol_digits].
  rewrite (proj2 (Z.eqb_neq _ 0)) by lia.
  unfold digit_value. rewrite (proj2 (Z.leb_le _ _)), (proj2 (Z.leb_le _ 57)) by lia. cbn [andb].
  rewrite (proj2 (Z.ltb_ge _ 0)), (proj2 (Z.leb_gt 10 _)) by lia. cbn [orb].
  f_equal. rewrite s64_id by lia. lia.
Qed.

(** The digits of a number that fits a [long]. *)
Lemma strtol_uint x tail :
  0 <= x < 2 ^ 63 -> (forall r, strtol_digits tail 10 r = (r, tail)) ->
  strtol_digits (reverse (uint_tmp x 10) ++ tail) 10 0 = (x, tail).
Proof.
  intros Hx Ht. unfold uint_tmp. destruct (Z.eqb_spec x 0) as [->|Hne]; [apply Ht|].
  rewrite strtol_digits_app by (cbn; lia). apply Ht.
Qed.

Lemma length_uint_digits fuel x n :
  0 <= x < 10 ^ Z.of_nat n -> (length (uint_digits fuel x 10) <= n)%nat.
Proof.
  revert x n. induction fuel as [|f IH]; intros x n Hx; cbn [uint_digits]; [cbn; lia|].
  destruct (Z.eqb_spec x 0); cbn [length]; [lia|].
  destruct n as [|n]; [cbn in Hx; lia|]. rewrite Nat2Z.inj_succ, Z.pow_succ_r in Hx by lia.
  apply le_n_S, IH. dlia.
Qed.

(** The first character of the digits is one. *)
Lemma uint_tmp_last x tail :
  exists d s, reverse (uint_tmp x 10) ++ tail = d :: s /\ 48 <= d <= 57.
Proof.
  assert (forall d, In d (uint_tmp x 10) -> 48 <= d <= 57) as Hall.
  { unfold uint_tmp. destruct (x =? 0); [intros d [<-|[]]; lia|].
    generalize 64%nat as fuel. intros fuel. revert x.
    induction fuel as [|f IH]; intros x d; cbn; [done|]. destruct (x =? 0); [done|].
    pose proof (Z.mod_pos_bound x 10 ltac:(lia)).
    rewrite (proj2 (Z.ltb_lt _ _)) by lia. intros [<-|Hin]; [lia|eauto]. }
  assert (uint_tmp x 10 <> []) as Hne.
  { unfold uint_tmp. destruct (Z.eqb_spec x 0); [done|]. cbn. by rewrite (proj2 (Z.eqb_neq x 0)). }
  destruct (uint_tmp x 10) as [|d ds _] eqn:E using rev_ind; [done|].
  rewrite reverse_app, reverse_singleton. exists d, (reverse ds ++ tail). split; [done|].
  apply Hall, in_or_app. right. by left.
Qed.

(** What lies where a text and its NUL were stored. *)
Lemma load_printed m a text n :
  Forall is_byte text -> (length text < n)%nat ->
  exists tail, load_bytes (store_bytes m a (text ++ [0])) a n = text ++ 0 :: tail.
Proof.
  intros Hb Hn. assert (length (text ++ [0%Z]) <= n)%nat as Hl by (rewrite length_app; cbn; lia).
  replace n with (length (text ++ [0%Z]) + (n - length (text ++ [0%Z])))%nat by lia.
  rewrite load_bytes_app, load_store_same by (apply Forall_app; split; [done|by repeat constructor]).
  eexists. by rewrite <- app_assoc.
Qed.
(** A [long] in decimal. *)
Definition long_text (v : Z) : list Z := uint_text (Z.abs v) 10 (v <? 0) false false 0.
Lemma long_text_eq v : long_text v = (if v <? 0 then [45] else []) ++ reverse (uint_tmp (Z.abs v) 10).
Proof. unfold long_text, uint_text, num_text. cbn [andb]. by replace (Z.to_nat (0 - _)) with O by lia. Qed.
Lemma long_text_length v : - 2 ^ 63 < v < 2 ^ 63 -> (length (long_text v) <= 20)%nat.
Proof.
  intros Hv. rewrite long_text_eq, length_app, length_reverse.
  assert (length (uint_tmp (Z.abs v) 10) <= 19)%nat as Hd.
  { unfold uint_tmp. case_match; [cbn; lia|]. apply length_uint_digits. cbn. lia. }
  destruct (v <? 0); cbn [length]; lia.
Qed.
Lemma long_text_byte v : Forall is_byte (long_text v).
Proof. apply uint_text_byte. lia. Qed.

(** [strtol] on a [long] in decimal with something else behind it. *)
Lemma strtol_long v tail :
  - 2 ^ 63 < v < 2 ^ 63 -> (forall r, strtol_digits tail 10 r = (r, tail)) -> strtol (long_text v ++ tail) 10 = (v, tail).
Proof.
  intros Hv Ht. rewrite long_text_eq, <- app_assoc.
  destruct (uint_tmp_last (Z.abs v) tail) as (d & s & Hds & Hd).
  pose proof (strtol_uint (Z.abs v) tail ltac:(lia) Ht) as Hval. unfold strtol.
  destruct (Z.ltb_spec v 0) as [Hneg|Hpos]; cbn [app].
  - change (skip_space (45 :: ?l)) with (45 :: l). cbn [char0 hd Z.eqb Pos.eqb tl].
    rewrite Hval. f_equal. rewrite s64_id; lia.
  - rewrite Hds in *. cbn [skip_space].
    rewrite (proj2 (Z.eqb_neq d 32)), (proj2 (Z.eqb_neq d 9)), (proj2 (Z.eqb_neq d 10)) by lia. cbn [orb char0 hd].
    rewrite (proj2 (Z.eqb_neq d 45)), (proj2 (Z.eqb_neq d 43)) by lia. cbn [Z.eqb].
    rewrite Hval. f_equal. rewrite s64_id; lia.
Qed.
(** The directive ["%ld"]. *)
Lemma formats_long text_at (ap : nat -> Z) v fmt i t :
  - 2 ^ 63 < v < 2 ^ 63 -> ap i = u64 v -> formats text_at ap fmt (S i) t ->
  formats text_at ap (37 :: 108 :: 100 :: fmt) i (long_text v ++ t).
Proof.
  intros Hv Hap Hf.
  apply (formats_directive _ _ _ _ (108 :: 100 :: fmt) false false (108 :: 100 :: fmt) 0 (100 :: fmt) true (long_text v) (S i) t);
    [reflexivity..| |exact Hf].
  unfold conversion_text. cbn [char0 hd Z.eqb Pos.eqb orb]. unfold arg_signed. rewrite Hap.
  replace (s64 (u64 v)) with v; [done|]. rewrite <- (s64_id v) at 1 by lia. unfold s64, u64. by rewrite Zmod_mod.
Qed.

(** A [long] survives the formatter and the parser: [strtol] on the
    buffer that [snprintf(buf, size, "%ld", v)] wrote gives [v] back, for every
    buffer of at least 21 bytes and every [v] but the most negative one. *)
Theorem strtol_snprintf text_at (ap : nat -> Z) m str size v :
  - 2 ^ 63 < v < 2 ^ 63 -> ap 0%nat = u64 v ->
  0 <= str -> 21 <= size < 2 ^ 64 -> str + 21 <= 2 ^ 64 ->
  exists m' n, snprintf text_at ap m str size [37; 108; 100; 0] = Some (m', n) /\
    strtol (load_bytes m' str 21) 10 = (v, drop (Z.to_nat n) (load_bytes m' str 21)).
Proof.
  intros Hv Hap Hstr Hsize Hend. pose proof (long_text_length v Hv) as Hlen.
  assert (formats text_at ap [37; 108; 100; 0] 0 (long_text v)) as Hf.
  { rewrite <- (app_nil_r (long_text v)). apply formats_long; [done..|]. by constructor. }
  unfold snprintf. rewrite (vsnprintf_text _ _ _ (long_text v)) by (try done; unfold fits; lia).
  rewrite (proj2 (Z.eqb_neq size 0)) by lia. rewrite take_ge by lia.
  eexists _, _. split; [done|]. rewrite s32_id by lia. rewrite Nat2Z.id.
  destruct (load_printed m str (long_text v) 21) as [tail Htail]; [apply long_text_byte|lia|].
  rewrite Htail, drop_app_length. by apply strtol_long.
Qed.

Lemma strtol_snprintf_witness :
  exists m' n, snprintf (fun _ => []) (fun _ => u64 (-90210)) ∅ 4096 64 [37; 108; 100; 0] = Some (m', n) /\
    strtol (load_bytes m' 4096 21) 10 = (-90210, drop (Z.to_nat n) (load_bytes m' 4096 21)).
Proof. apply strtol_snprintf; [lia|reflexivity|lia..]. Defined.
