(* ===== verification/LibcSort.v ===== *)
(** [qsort] of the user library, [src/ports/myos/libc.c], and its correctness:
    the items of the array come out in order, permuted, equal ones in the order
    they had, and no other byte of the memory changes. *)

From stdpp Require Import sorting.
From S2P Require Import Prelude Memory.

(* ------------------------------------------------------------------ *)
(** ** The code *)

Fixpoint swap_bytes (m : mem) (a b : Z) (size : nat) : mem :=
  match size with
  | O => m
  | S n =>
      let tmp := rd8 m a in
      let m := wr8 m a (rd8 m b) in
      let m := wr8 m b tmp in
      swap_bytes m (a + 1) (b + 1) n
  end.

Section qsort.
(** [compar(p, q)] *)
Context (compar : mem -> Z -> Z -> Z) (items : Z) (size : nat).

Definition item_addr (j : nat) : Z := items + Z.of_nat j * Z.of_nat size.

(** The inner loop from [j]. *)
Fixpoint sift (m : mem) (j : nat) : mem :=
  match j with
  | O => m
  | S j' =>
      if compar m (item_addr j) (item_addr j') <? 0
      then sift (swap_bytes m (item_addr j) (item_addr j') size) j' else m
  end.

(** The outer loop from [i], [n] rounds. *)
Fixpoint qsort_loop (m : mem) (i n : nat) : mem :=
  match n with
  | O => m
  | S n' => qsort_loop (sift m i) (S i) n'
  end.

(** [base] and [compar] may be null. *)
Definition qsort (m : mem) (nmemb : nat) (compar_null : bool) : mem :=
  if (items =? 0) || (size =? 0)%nat || compar_null then m
  else qsort_loop m 1 (nmemb - 1).
End qsort.

(* ------------------------------------------------------------------ *)
(** ** Items *)

Section items.
Context (items : Z) (size : nat).

Definition item (m : mem) (j : nat) : list Z := load_bytes m (item_addr items size j) size.
(** The first [n] items. *)
Definition array (m : mem) (n : nat) : list (list Z) := item m <$> seq 0 n.

Lemma length_array m n : length (array m n) = n.
Proof. unfold array. by rewrite length_fmap, length_seq. Qed.
Lemma lookup_array m n j : (j < n)%nat -> array m n !! j = Some (item m j).
Proof. intros Hj. unfold array. rewrite list_lookup_fmap, lookup_seq_lt by done. done. Qed.

Lemma rd8_swap_bytes m a b n x :
  a + Z.of_nat n <= b \/ b + Z.of_nat n <= a ->
  rd8 (swap_bytes m a b n) x =
    if decide (a <= x < a + Z.of_nat n) then rd8 m (x - a + b)
    else if decide (b <= x < b + Z.of_nat n) then rd8 m (x - b + a)
    else rd8 m x.
Proof.
  revert m a b. induction n as [|n IH]; intros m a b Hd; cbn [swap_bytes].
  - by rewrite !decide_False by lia.
  - rewrite IH by lia. rewrite !rd8_wr8.
    pose proof (rd8_byte m a) as Ha. pose proof (rd8_byte m b) as Hb. unfold is_byte in *.
    repeat case_decide; try lia; subst; rewrite ?u8_id by done; f_equal; lia.
Qed.

(** Two items further apart than their size. *)
Lemma item_addr_apart i j :
  i <> j ->
  item_addr items size i + Z.of_nat size <= item_addr items size j \/
  item_addr items size j + Z.of_nat size <= item_addr items size i.
Proof. intros Hij. unfold item_addr. destruct (Nat.lt_total i j) as [H|[H|H]]; nia. Qed.

Lemma item_swap_l m i j :
  i <> j -> item (swap_bytes m (item_addr items size i) (item_addr items size j) size) i = item m j.
Proof.
  intros Hij. pose proof (item_addr_apart i j Hij) as Hd. unfold item.
  apply list_eq. intros k. destruct (decide (k < size)%nat) as [Hk|Hk].
  - rewrite !lookup_load_bytes by done. f_equal.
    rewrite rd8_swap_bytes, decide_True by lia. f_equal. lia.
  - rewrite !(proj2 (lookup_ge_None _ _)); [done|rewrite length_load_bytes; lia..].
Qed.
Lemma item_swap_r m i j :
  i <> j -> item (swap_bytes m (item_addr items size i) (item_addr items size j) size) j = item m i.
Proof.
  intros Hij. pose proof (item_addr_apart i j Hij) as Hd. unfold item.
  apply list_eq. intros k. destruct (decide (k < size)%nat) as [Hk|Hk].
  - rewrite !lookup_load_bytes by done. f_equal.
    rewrite rd8_swap_bytes, decide_False, decide_True by lia. f_equal. lia.
  - rewrite !(proj2 (lookup_ge_None _ _)); [done|rewrite length_load_bytes; lia..].
Qed.
Lemma item_swap_ne m i j k :
  k <> i -> k <> j -> i <> j ->
  item (swap_bytes m (item_addr items size i) (item_addr items size j) size) k = item m k.
Proof.
  intros Hki Hkj Hij. pose proof (item_addr_apart i j Hij).
  pose proof (item_addr_apart i k ltac:(done)). pose proof (item_addr_apart j k ltac:(done)).
  unfold item. apply load_bytes_ext. intros x Hx.
  rewrite rd8_swap_bytes, !decide_False by lia. done.
Qed.
End items.

(* ------------------------------------------------------------------ *)
(** ** Insertion *)

(** Where the inner loop puts an item, from the right. *)
Fixpoint insert_from_right {A} (lt : A -> A -> bool) (rev_sorted : list A) (x : A) : list A :=
  match rev_sorted with
  | [] => [x]
  | y :: l => if lt x y then y :: insert_from_right lt l x else x :: y :: l
  end.

(** A comparison of items: [cmp x y < 0] is a strict weak order. *)
Record comparison {A} (cmp : A -> A -> Z) : Prop := Comparison {
  cmp_asym x y : cmp x y < 0 -> 0 <= cmp y x;
  cmp_le_trans x y z : 0 <= cmp y x -> 0 <= cmp z y -> 0 <= cmp z x;
}.

Section insertion.
Context {A : Type} (cmp : A -> A -> Z) (Hcmp : comparison cmp).

Definition not_after (x y : A) : Prop := 0 <= cmp y x.
Definition same_key (x y : A) : Prop := 0 <= cmp x y /\ 0 <= cmp y x.
#[local] Instance same_key_dec x y : Decision (same_key x y).
Proof. unfold same_key. apply _. Defined.

Abbreviation ins := (insert_from_right (fun x y => cmp x y <? 0)).

Lemma ins_perm r x : ins r x ≡ₚ x :: r.
Proof.
  induction r as [|y r IH]; cbn; [done|]. case_match; [|done].
  rewrite IH. by constructor.
Qed.

Lemma ins_sorted r x :
  StronglySorted (flip not_after) r -> StronglySorted (flip not_after) (ins r x).
Proof.
  induction 1 as [|y r Hr IH Hall]; cbn; [by repeat constructor|].
  destruct (Z.ltb_spec (cmp x y) 0) as [Hlt|Hge]; constructor; [done| |by constructor|].
  - rewrite ins_perm. constructor; [|done].
    apply (cmp_asym _ Hcmp x y). done.
  - constructor; [done|]. eapply Forall_impl; [exact Hall|].
    intros z Hz. exact (cmp_le_trans _ Hcmp _ _ _ Hz Hge).
Qed.

(** An item only passes items with another key. *)
Lemma ins_stable r x z :
  StronglySorted (flip not_after) r ->
  filter (same_key z) (ins r x) = filter (same_key z) (x :: r).
Proof.
  induction 1 as [|y r Hr IH Hall]; cbn [insert_from_right]; [done|].
  destruct (Z.ltb_spec (cmp x y) 0) as [Hlt|Hge]; [|done].
  rewrite filter_cons, IH, !filter_cons.
  repeat case_decide; try done. exfalso.
  destruct H as [Hzy Hyz], H0 as [Hzx Hxz].
  pose proof (cmp_le_trans _ Hcmp _ _ _ Hzy Hxz). lia.
Qed.

(** The same for a list in its own order. *)
Definition insert_last (l : list A) (x : A) : list A := reverse (ins (reverse l) x).

Lemma StronglySorted_reverse (R : A -> A -> Prop) l :
  StronglySorted R l -> StronglySorted (flip R) (reverse l).
Proof.
  induction 1 as [|x l Hl IH Hall]; [constructor|].
  rewrite reverse_cons. apply StronglySorted_app_2; [|done|by repeat constructor].
  intros a b Ha Hb%list_elem_of_singleton. subst. rewrite elem_of_reverse in Ha.
  exact (proj1 (Forall_forall _ _) Hall a Ha).
Qed.

Lemma insert_last_perm l x : insert_last l x ≡ₚ l ++ [x].
Proof. unfold insert_last. rewrite reverse_Permutation, ins_perm, reverse_Permutation. apply Permutation_cons_append. Qed.
Lemma insert_last_sorted l x :
  StronglySorted not_after l -> StronglySorted not_after (insert_last l x).
Proof.
  intros Hl. apply (StronglySorted_reverse (flip not_after)), ins_sorted.
  by apply StronglySorted_reverse.
Qed.
Lemma insert_last_stable l x z :
  StronglySorted not_after l -> filter (same_key z) (insert_last l x) = filter (same_key z) (l ++ [x]).
Proof.
  intros Hl. unfold insert_last. rewrite filter_reverse, ins_stable by (by apply StronglySorted_reverse).
  rewrite <- filter_reverse, reverse_cons, reverse_involutive. done.
Qed.
Lemma length_insert_last l x : length (insert_last l x) = S (length l).
Proof. rewrite insert_last_perm, length_app. cbn. lia. Qed.
End insertion.

(* ------------------------------------------------------------------ *)
(** ** The loops *)

Section sorting.
Context (compar : mem -> Z -> Z -> Z) (items : Z) (size : nat) (cmp : list Z -> list Z -> Z).

(** [compar] compares what its pointers point to. *)
Definition compares : Prop :=
  forall m i j, compar m (item_addr items size i) (item_addr items size j)
    = cmp (item items size m i) (item items size m j).

Context (Hcompar : compares).

Lemma array_S m n : array items size m (S n) = array items size m n ++ [item items size m n].
Proof. unfold array. rewrite seq_S, fmap_app. done. Qed.
Lemma array_ext m m' n :
  (forall j, (j < n)%nat -> item items size m j = item items size m' j) ->
  array items size m n = array items size m' n.
Proof. intros Heq. apply list_fmap_ext. intros i j [-> Hi]%lookup_seq. apply Heq. lia. Qed.

Lemma item_sift m j k : (j < k)%nat -> item items size (sift compar items size m j) k = item items size m k.
Proof.
  revert m. induction j as [|j IH]; intros m Hk; cbn [sift]; [done|]. case_match; [|done].
  rewrite IH by lia. apply item_swap_ne; lia.
Qed.

Lemma array_sift m j :
  array items size (sift compar items size m j) (S j)
    = insert_last cmp (array items size m j) (item items size m j).
Proof.
  revert m. induction j as [|j IH]; intros m; [done|].
  cbn [sift]. rewrite (array_S m j). unfold insert_last at 1.
  rewrite reverse_app, reverse_singleton. cbn [app insert_from_right].
  rewrite Hcompar. destruct (_ <? 0) eqn:Hlt.
  - set (m1 := swap_bytes _ _ _ _). rewrite array_S, IH, item_sift by lia.
    unfold m1. rewrite item_swap_l, item_swap_r by lia.
    rewrite (array_ext _ m) by (intros k Hk; apply item_swap_ne; lia).
    rewrite reverse_cons. done.
  - rewrite !reverse_cons, reverse_involutive, <- array_S, <- array_S. done.
Qed.

Lemma rd8_sift m j x :
  ~ (items <= x < item_addr items size (S j)) -> rd8 (sift compar items size m j) x = rd8 m x.
Proof.
  revert m. induction j as [|j IH]; intros m Hx; cbn [sift]; [done|]. case_match; [|done].
  rewrite IH by (unfold item_addr in *; nia).
  rewrite rd8_swap_bytes by (apply item_addr_apart; lia).
  unfold item_addr in *. rewrite !decide_False by nia. done.
Qed.

(** One round of the outer loop on the first [n] items. *)
Lemma array_sift_all m i n :
  (i < n)%nat ->
  array items size (sift compar items size m i) n
    = insert_last cmp (take i (array items size m n)) (item items size m i)
      ++ drop (S i) (array items size m n).
Proof.
  intros Hi.
  assert (forall m', array items size m' n = array items size m' (S i) ++ (item items size m' <$> seq (S i) (n - S i))) as Hsplit.
  { intros m'. unfold array. rewrite <- fmap_app, <- seq_app. do 2 f_equal. lia. }
  rewrite (Hsplit (sift _ _ _ _ _)), array_sift. f_equal.
  - rewrite (Hsplit m), array_S, <- app_assoc, take_app_length'; [done|by rewrite length_array].
  - rewrite (Hsplit m), drop_app_length' by (by rewrite length_array).
    apply list_fmap_ext. intros k j [-> Hk]%lookup_seq. apply item_sift. lia.
Qed.
End sorting.

(** The order on items. *)
Definition sorted_by (cmp : list Z -> list Z -> Z) (l : list (list Z)) : Prop :=
  StronglySorted (not_after cmp) l.
(** The items of [l] that [cmp] cannot tell from [z], in their order. *)
Definition equal_items (cmp : list Z -> list Z -> Z) (z : list Z) (l : list (list Z)) : list (list Z) :=
  filter (same_key cmp z) l.
#[global] Opaque insert_last.

(** What a round keeps and makes true of the first [n] items. *)
Lemma qsort_loop_sorts compar items size cmp m i k n :
  comparison cmp -> compares compar items size cmp -> (i + k = n)%nat ->
  sorted_by cmp (take i (array items size m n)) ->
  let m' := qsort_loop compar items size m i k in
  sorted_by cmp (array items size m' n) /\
  array items size m' n ≡ₚ array items size m n /\
  (forall z, equal_items cmp z (array items size m' n) = equal_items cmp z (array items size m n)) /\
  (forall x, ~ (items <= x < item_addr items size n) -> rd8 m' x = rd8 m x).
Proof.
  intros Hcmp Hcompar. revert m i. induction k as [|k IH]; intros m i Hn Hsorted; cbn [qsort_loop].
  { rewrite take_ge in Hsorted by (rewrite length_array; lia). done. }
  set (m1 := sift compar items size m i).
  set (l := array items size m n) in *.
  assert (l !! i = Some (item items size m i)) as Hi by (apply lookup_array; lia).
  assert (l = take i l ++ [item items size m i] ++ drop (S i) l) as Hl.
  { by rewrite <- (take_drop_middle l i _ Hi) at 1. }
  assert (array items size m1 n = insert_last cmp (take i l) (item items size m i) ++ drop (S i) l) as H1.
  { apply array_sift_all; [done|lia]. }
  assert (length (take i l) = i) as Hlen by (unfold l; rewrite length_take, length_array; lia).
  edestruct (IH m1 (S i)) as (Hs & Hp & Hst & Hm); [lia| |].
  { rewrite H1, take_app_length' by (rewrite length_insert_last; lia).
    by apply insert_last_sorted. }
  split_and!; [done| | |].
  - rewrite Hp, H1, insert_last_perm, <- app_assoc, <- Hl. done.
  - intros z. rewrite Hst, H1. unfold equal_items.
    rewrite filter_app, insert_last_stable, <- filter_app, <- app_assoc, <- Hl by done. done.
  - intros x Hx. rewrite Hm by done. apply rd8_sift. unfold item_addr in *. nia.
Qed.

(** C33: [qsort] sorts: when [compar] is a consistent comparison of the items'
    bytes, the array comes out in order, its items are those that went in, the
    ones that compare equal keep their order, and no byte outside of the array
    changes. *)
Theorem qsort_sorts compar items size cmp m nmemb :
  items <> 0 -> (0 < size)%nat -> comparison cmp -> compares compar items size cmp ->
  let m' := qsort compar items size m nmemb false in
  sorted_by cmp (array items size m' nmemb) /\
  array items size m' nmemb ≡ₚ array items size m nmemb /\
  (forall z, equal_items cmp z (array items size m' nmemb) = equal_items cmp z (array items size m nmemb)) /\
  (forall x, ~ (items <= x < items + Z.of_nat nmemb * Z.of_nat size) -> rd8 m' x = rd8 m x).
Proof.
  intros Hitems Hsize Hcmp Hcompar. unfold qsort.
  rewrite (proj2 (Z.eqb_neq _ _) Hitems), (proj2 (Nat.eqb_neq size 0)) by lia. cbn [orb].
  destruct nmemb as [|n].
  { cbn [Nat.sub qsort_loop]. cbn zeta. split_and!; try done. constructor. }
  apply qsort_loop_sorts; [done|done|lia|].
  unfold array. cbn. rewrite take_0. repeat constructor.
Qed.

(** Four items of two bytes, compared by their first byte. *)
Definition first_byte (x y : list Z) : Z := zget x 0 - zget y 0.
Definition sample_array : mem := store_bytes ∅ 64 [5; 1; 3; 1; 5; 2; 4; 9].

Lemma qsort_sorts_witness :
  let compar := fun m p q => rd8 m p - rd8 m q in
  let m' := qsort compar 64 2 sample_array 4 false in
  array 64 2 m' 4 = [[3; 1]; [4; 9]; [5; 1]; [5; 2]] /\
  sorted_by first_byte (array 64 2 m' 4).
Proof.
  split; [vm_compute; reflexivity|].
  refine (proj1 (qsort_sorts (fun m p q => rd8 m p - rd8 m q) 64 2 first_byte sample_array 4 _ _ _ _)).
  - lia.
  - lia.
  - constructor; unfold first_byte; lia.
  - intros m i j. reflexivity.
Defined.
