(* ===== verification/LibcHeap.v ===== *)
(** The allocator of the user library, [src/ports/myos/libc.c]: [malloc],
    [free], [calloc], [realloc], [strdup], [strndup].

    The free list is threaded through the memory of the program: a header is
    16 bytes, [ptr] at offset 0 and [size], in headers, at offset 8.  [base]
    is the address of the static header; [sbrk] is the system call as the
    program sees it, on a state [W] of the system. *)

From S2P Require Import Prelude Memory LibcStr.

(** The memory, [freep] and the system. *)
Record heap (W : Type) := Heap { h_mem : mem; h_freep : Z; h_sys : W }.
Arguments Heap {W}.
Arguments h_mem {W}.
Arguments h_freep {W}.
Arguments h_sys {W}.

Definition HDR : Z := 16.
(** [(char * )-1] *)
Definition SBRK_FAILED : Z := u64 (-1).

Section heap.
Context {W : Type} (sbrk : Z -> W -> Z * W) (base : Z) (fuel : nat).

Abbreviation HM := (M (heap W)).

(** [p->s.ptr], [p->s.size] *)
Definition get_ptr (p : Z) : HM Z := gets (fun h => rd64 (h_mem h) p).
Definition get_size (p : Z) : HM Z := gets (fun h => rd64 (h_mem h) (p + 8)).
Definition set_mem (m : mem) (h : heap W) : heap W := Heap m (h_freep h) (h_sys h).
Definition set_ptr (p v : Z) : HM unit := modify (fun h => set_mem (wr64 (h_mem h) p v) h).
Definition set_size (p v : Z) : HM unit := modify (fun h => set_mem (wr64 (h_mem h) (p + 8) v) h).
Definition set_freep (p : Z) : HM unit := modify (fun h => Heap (h_mem h) p (h_sys h)).
(** [p + n] on [Header *]. *)
Definition hdr_add (p n : Z) : Z := u64 (p + n * HDR).

(** [freep == NULL]: the list is the empty [base]. *)
Definition init_base : HM unit :=
  set_freep base ;;; set_ptr base base ;;; set_size base 0.

(** The search loop of [free]: the free block [p] behind which [bp] goes. *)
Definition free_scan_body (bp : Z) (p : Z) : HM (Z + Z) :=
  let! next := get_ptr p in
  if (p <? bp) && (bp <? next) then ret (inr p)
  else if (next <=? p) && ((p <? bp) || (bp <? next)) then ret (inr p)
  else ret (inl next).

(** [free] from the search on: [bp] is linked behind [p] and joined with its
    neighbours. *)
Definition free_link (bp p : Z) : HM unit :=
  let! next := get_ptr p in
  let! size := get_size bp in
  (if hdr_add bp size =? next then
     let! next_size := get_size next in
     set_size bp (u64 (size + next_size)) ;;;
     let! next_next := get_ptr next in
     set_ptr bp next_next
   else set_ptr bp next) ;;;
  let! p_size := get_size p in
  (if hdr_add p p_size =? bp then
     let! size := get_size bp in
     set_size p (u64 (p_size + size)) ;;;
     let! next := get_ptr bp in
     set_ptr p next
   else set_ptr p bp) ;;;
  set_freep p.

Definition free (ptr : Z) : HM unit :=
  if ptr =? 0 then ret tt
  else
    let! freep := gets h_freep in
    when (freep =? 0) init_base ;;;
    let bp := u64 (ptr - HDR) in
    let! freep := gets h_freep in
    let! p := loop fuel (free_scan_body bp) freep in
    free_link bp p.

Definition call_sbrk (increment : Z) : HM Z := fun h =>
  let '(r, w) := sbrk increment (h_sys h) in Ok r (Heap (h_mem h) (h_freep h) w).

(** The new block goes through [free]; 0 when the system has no memory. *)
Definition morecore (nunits : Z) : HM Z :=
  let nunits := if nunits <? 1024 then 1024 else nunits in
  let! cp := call_sbrk (s64 (nunits * HDR)) in
  if cp =? SBRK_FAILED then ret 0
  else
    set_size cp nunits ;;;
    free (hdr_add cp 1) ;;;
    gets h_freep.

(** A block of the list that is large enough: unlinked, or its end cut off. *)
Definition malloc_take (nunits prevp p : Z) : HM Z :=
  let! size := get_size p in
  let! p :=
    (if size =? nunits then
       let! next := get_ptr p in
       set_ptr prevp next ;;; ret p
     else
       set_size p (u64 (size - nunits)) ;;;
       let p := hdr_add p (u64 (size - nunits)) in
       set_size p nunits ;;; ret p) in
  set_freep prevp ;;;
  ret (hdr_add p 1).

(** One round of the [for] loop, with [prevp] and [p]. *)
Definition malloc_body (nunits : Z) (x : Z * Z) : HM (Z * Z + Z) :=
  let '(prevp, p) := x in
  let! size := get_size p in
  if nunits <=? size then
    let! r := malloc_take nunits prevp p in ret (inr r)
  else
    let! freep := gets h_freep in
    if p =? freep then
      let! p := morecore nunits in
      if p =? 0 then ret (inr 0)
      else let! next := get_ptr p in ret (inl (p, next))
    else let! next := get_ptr p in ret (inl (p, next)).

Definition malloc_units (nbytes : Z) : Z :=
  let nbytes := if nbytes =? 0 then 1 else nbytes in
  u64 (u64 (nbytes + HDR - 1) / HDR + 1).

Definition malloc (nbytes : Z) : HM Z :=
  let nunits := malloc_units nbytes in
  let! freep := gets h_freep in
  when (freep =? 0) init_base ;;;
  let! prevp := gets h_freep in
  let! p := get_ptr prevp in
  loop fuel (malloc_body nunits) (prevp, p).

Definition calloc (nmemb size : Z) : HM Z :=
  let total := u64 (nmemb * size) in
  let! p := malloc total in
  when (negb (p =? 0)) (modify (fun h => set_mem (LibcStr.memset (h_mem h) p 0 total) h)) ;;;
  ret p.

Definition realloc (ptr nbytes : Z) : HM Z :=
  if ptr =? 0 then malloc nbytes
  else if nbytes =? 0 then free ptr ;;; ret 0
  else
    let bp := u64 (ptr - HDR) in
    let! size := get_size bp in
    let old_bytes := u64 (u64 (size - 1) * HDR) in
    if nbytes <=? old_bytes then ret ptr
    else
      let! new_ptr := malloc nbytes in
      if new_ptr =? 0 then ret 0
      else
        modify (fun h => set_mem (LibcStr.memcpy (h_mem h) new_ptr ptr old_bytes) h) ;;;
        free ptr ;;;
        ret new_ptr.

(** [mmap] is [malloc]; the file and the protection are not looked at. *)
Definition mmap (length : Z) : HM Z :=
  let! p := malloc (if length =? 0 then 1 else length) in
  ret (if p =? 0 then u64 (-1) else p).
Definition munmap (addr : Z) : HM Z :=
  when (negb (addr =? 0) && negb (addr =? u64 (-1))) (free addr) ;;; ret 0.

(** [strdup(s)], [strndup(s, n)]; the bytes of [s] do not lie in the new block. *)
Definition strdup (s : list Z) : HM Z :=
  let n := strlen (Some s) + 1 in
  let! p := malloc n in
  when (negb (p =? 0))
    (modify (fun h => set_mem (store_bytes (h_mem h) p (take (Z.to_nat (n - 1)) s ++ [0])) h)) ;;;
  ret p.
Definition strndup (s : list Z) (n : nat) : HM Z :=
  let len := strnlen (Some s) n in
  let! p := malloc (len + 1) in
  when (negb (p =? 0))
    (modify (fun h => set_mem (store_bytes (h_mem h) p (take (Z.to_nat len) s ++ [0])) h)) ;;;
  ret p.
End heap.

(** A system whose break moves up to a limit. *)
Definition sample_sbrk (increment : Z) (brk : Z) : Z * Z :=
  if brk + increment <=? 1048576 then (brk, brk + increment) else (SBRK_FAILED, brk).
Definition sample_heap : heap Z := Heap ∅ 0 8192.
