(* ===== verification/LibcHeapSpec.v ===== *)
(** The allocator is safe: [malloc] returns memory that no live block and no
    free block uses, [free] gives a block back, and neither changes a byte of a
    block the program holds.

    The state is described by the list [nodes] of the free blocks in the order
    of their addresses, with the empty static header [base] in front, and the
    list [live] of the blocks the program holds; a block is the address of its
    header and its size in headers. *)

From S2P Require Import Prelude Memory LibcStr LibcHeap.

Abbreviation block := (Z * Z)%type.

(** The bytes of a block; [base] has its header only. *)
Definition span_end (b : block) : Z := fst b + HDR * Z.max 1 (snd b).
Definition apart (b c : block) : Prop := span_end b <= fst c \/ span_end c <= fst b.
Fixpoint separate (l : list block) : Prop :=
  match l with
  | [] => True
  | b :: l' => Forall (apart b) l' /\ separate l'
  end.

Definition head_addr (e : Z) (l : list block) : Z :=
  match l with [] => e | b :: _ => fst b end.
(** The headers of [l] hold their sizes and point on, the last one to [e]. *)
Fixpoint links (m : mem) (l : list block) (e : Z) : Prop :=
  match l with
  | [] => True
  | b :: l' => rd64 m (fst b + 8) = snd b /\ rd64 m (fst b) = head_addr e l' /\ links m l' e
  end.
Fixpoint ascending (l : list block) : Prop :=
  match l with
  | [] => True
  | b :: l' => Forall (fun c => fst b < fst c) l' /\ ascending l'
  end.

(* ------------------------------------------------------------------ *)
(** ** Blocks *)

Lemma apart_sym b c : apart b c -> apart c b.
Proof. unfold apart. tauto. Qed.

Lemma separate_app l k :
  separate (l ++ k) <-> separate l /\ separate k /\ Forall (fun b => Forall (apart b) k) l.
Proof.
  induction l as [|b l IH]; cbn.
  - split; [intros; repeat split; [done|constructor]|tauto].
  - rewrite IH, Forall_app, Forall_cons. tauto.
Qed.
#[global] Instance separate_perm : Proper ((≡ₚ) ==> iff) separate.
Proof.
  intros l k Hp. induction Hp as [|b l k Hp IH|b c l|l k j _ IH1 _ IH2]; cbn.
  - done.
  - rewrite IH. by setoid_rewrite Hp.
  - rewrite !Forall_cons. pose proof (apart_sym b c). pose proof (apart_sym c b). tauto.
  - tauto.
Qed.

Lemma ascending_app l k :
  ascending (l ++ k) <-> ascending l /\ ascending k /\ Forall (fun b => Forall (fun c => fst b < fst c) k) l.
Proof.
  induction l as [|b l IH]; cbn.
  - split; [intros; repeat split; [done|constructor]|tauto].
  - rewrite IH, Forall_app, Forall_cons. tauto.
Qed.

Lemma links_app m l k e : links m (l ++ k) e <-> links m l (head_addr e k) /\ links m k e.
Proof.
  induction l as [|b l IH]; cbn; [tauto|]. rewrite IH.
  assert (head_addr e (l ++ k) = head_addr (head_addr e k) l) as -> by (by destruct l). tauto.
Qed.

Lemma apart_headers b c : apart b c -> fst b + 16 <= fst c \/ fst c + 16 <= fst b.
Proof. unfold apart, span_end, HDR. lia. Qed.

(** Two neighbours as one block. *)
Lemma apart_join d a n k :
  1 <= n -> apart d (a, n) -> apart d (a + HDR * n, k) -> apart d (a, n + k).
Proof. unfold apart, span_end, HDR. cbn. lia. Qed.

Lemma Forall_apart_join l a n k :
  1 <= n -> Forall (apart (a, n)) l -> Forall (apart (a + HDR * n, k)) l -> Forall (apart (a, n + k)) l.
Proof.
  intros Hn H1 H2. rewrite Forall_forall in *. intros d Hd.
  apply apart_sym, apart_join; [done|apply apart_sym; auto..].
Qed.

(* ------------------------------------------------------------------ *)
(** ** The layout of the blocks *)

(** The free blocks in order, no two blocks overlapping, all between [base]
    and the break [lim]. *)
Definition shape (base lim : Z) (nodes live : list block) : Prop :=
  ascending nodes /\ separate (nodes ++ live) /\
  Forall (fun b => base <= fst b /\ 0 <= snd b /\ span_end b <= lim) (nodes ++ live).

(** The members of a layout around one of the free blocks. *)
Lemma shape_mid base lim l1 b l2 live :
  shape base lim (l1 ++ b :: l2) live ->
  Forall (apart b) l1 /\ Forall (apart b) l2 /\ Forall (apart b) live /\
  base <= fst b /\ 0 <= snd b /\ span_end b <= lim /\
  Forall (fun c => fst b < fst c) l2 /\ Forall (fun c => fst c < fst b) l1.
Proof.
  intros (Ho & Hs & Hr). assert ((l1 ++ b :: l2) ++ live ≡ₚ b :: l1 ++ l2 ++ live) as Hp.
  { rewrite <- app_assoc. cbn. by rewrite <- Permutation_middle. }
  rewrite Hp in Hs, Hr. cbn in Hs. rewrite !Forall_app in Hs. apply Forall_cons in Hr as [Hr _].
  apply ascending_app in Ho as (_ & [Ho _] & Hl1). split_and!; try tauto.
  eapply Forall_impl; [exact Hl1|]. intros c Hc. by apply Forall_cons in Hc as [Hc _].
Qed.

(** A held block becomes a free one at its place. *)
Lemma shape_free base lim l1 p l2 b live :
  shape base lim (l1 ++ p :: l2) (b :: live) ->
  fst p < fst b -> Forall (fun c => fst b < fst c) l2 ->
  shape base lim (l1 ++ p :: b :: l2) live.
Proof.
  intros (Ho & Hs & Hr) Hp Hl2.
  assert ((l1 ++ p :: l2) ++ b :: live ≡ₚ (l1 ++ p :: b :: l2) ++ live) as Hperm.
  { rewrite <- !app_assoc. cbn. apply Permutation_app_head. constructor. symmetry. apply Permutation_middle. }
  rewrite Hperm in Hs, Hr. split; [|done].
  apply ascending_app in Ho as (H1 & [H2 H3] & H4). apply ascending_app. cbn.
  split_and!; try done.
  - by constructor.
  - eapply Forall_impl; [exact H4|]. intros c. rewrite !Forall_cons. intuition lia.
Qed.

(** Two free neighbours become one block. *)
Lemma shape_join base lim l1 a n k l2 live :
  1 <= n -> shape base lim (l1 ++ (a, n) :: (a + HDR * n, k) :: l2) live ->
  shape base lim (l1 ++ (a, n + k) :: l2) live.
Proof.
  intros Hn Hsh. pose proof (shape_mid _ _ _ _ _ _ Hsh) as (Ha1 & Ha2 & Ha3 & Hab & _ & _ & Hao & _).
  destruct (shape_mid base lim (l1 ++ [(a, n)]) (a + HDR * n, k) l2 live) as (Hc1 & Hc2 & Hc3 & _ & Hck & Hcl & _).
  { by rewrite <- app_assoc. }
  apply Forall_app in Hc1 as [Hc1 _]. apply Forall_cons in Ha2 as [_ Ha2].
  destruct Hsh as (Ho & Hs & Hr).
  apply ascending_app in Ho as (H1 & (_ & _ & H2) & H3). apply Forall_cons in Hao as [_ Hao].
  rewrite Forall_app in Hr. destruct Hr as [Hr1 Hr2]. apply Forall_app in Hr1 as [Hr1 Hr3].
  apply Forall_cons in Hr3 as [_ Hr3]. apply Forall_cons in Hr3 as [_ Hr3]. cbn [fst snd] in *.
  split_and!.
  - apply ascending_app. split_and!; [done|done|]. eapply Forall_impl; [exact H3|].
    intros c. rewrite !Forall_cons. tauto.
  - assert (forall b L, (l1 ++ b :: L) ++ live ≡ₚ b :: l1 ++ L ++ live) as Hp.
    { intros b L. rewrite <- app_assoc. cbn. by rewrite <- Permutation_middle. }
    rewrite Hp in *. cbn in *. destruct Hs as [_ Hs].
    assert (separate (l1 ++ l2 ++ live)) as Hs'.
    { rewrite <- Permutation_middle in Hs. by destruct Hs. }
    split; [|done]. by rewrite !Forall_app; split_and!; apply Forall_apart_join.
  - rewrite Forall_app, Forall_app, Forall_cons. split_and!; try done; cbn [fst snd].
    + lia.
    + unfold span_end, HDR in *. cbn [fst snd] in *. lia.
Qed.

(* ------------------------------------------------------------------ *)
(** ** The invariant *)

(** The held blocks have their sizes in their headers. *)
Definition sized (m : mem) (live : list block) : Prop :=
  Forall (fun b => 1 <= snd b /\ rd64 m (fst b + 8) = snd b) live.

Section invariant.
Context {W : Type} (base : Z) (brk : W -> Z).

(** The free list with the blocks [nodes], and the held blocks [live]. *)
Record heap_ok (h : heap W) (nodes live : list block) : Prop := HeapOk {
  ho_base : 0 < base;
  ho_head : head nodes = Some (base, 0);
  ho_links : links (h_mem h) nodes base;
  ho_freep : h_freep h ∈ nodes.*1;
  ho_sized : sized (h_mem h) live;
  ho_shape : shape base (brk (h_sys h)) nodes live;
  ho_brk : brk (h_sys h) < 2 ^ 63;
}.

(** Before the first call [freep] is null; the header [base] is then below the
    break. *)
Definition heap_fresh (h : heap W) : Prop :=
  h_freep h = 0 /\ 0 < base /\ base + HDR <= brk (h_sys h) < 2 ^ 63.

Definition heap_inv (h : heap W) (nodes live : list block) : Prop :=
  heap_ok h nodes live \/ (heap_fresh h /\ nodes = [(base, 0)] /\ live = []).

(** No byte of the held blocks differs. *)
Definition keeps (live : list block) (h h' : heap W) : Prop :=
  forall b x, b ∈ live -> fst b <= x < span_end b -> rd8 (h_mem h') x = rd8 (h_mem h) x.

Lemma keeps_trans live h1 h2 h3 : keeps live h1 h2 -> keeps live h2 h3 -> keeps live h1 h3.
Proof. intros H1 H2 b x Hb Hx. by rewrite (H2 b x), (H1 b x). Qed.

End invariant.

Lemma hdr_add_eq a n lim :
  0 <= a -> 0 <= n -> a + HDR * n <= lim -> lim < 2 ^ 63 -> hdr_add a n = a + HDR * n.
Proof. unfold hdr_add, HDR. intros. rewrite u64_id; lia. Qed.

(* ------------------------------------------------------------------ *)
(** ** free *)

(** [m'] is [m] but for the block [b]. *)
Definition block_only (b : block) (m m' : mem) : Prop :=
  forall x, ~ (fst b <= x < span_end b) -> rd8 m' x = rd8 m x.

Lemma block_only_refl b m : block_only b m m.
Proof. done. Qed.
Lemma block_only_wr b m m' y v :
  block_only b m m' -> fst b <= y -> y + 8 <= span_end b -> block_only b m (wr64 m' y v).
Proof. intros H Hy1 Hy2 x Hx. rewrite rd8_wr64_ne by lia. by apply H. Qed.
Lemma block_only_rd64 b m m' a :
  block_only b m m' -> a + 8 <= fst b \/ span_end b <= a -> rd64 m' a = rd64 m a.
Proof. intros H Ha. apply rd64_ext. intros x Hx. apply H. lia. Qed.
Lemma block_only_links b m m' l e :
  block_only b m m' -> Forall (apart b) l -> links m l e -> links m' l e.
Proof.
  intros H. induction l as [|c l IH]; cbn; [done|]. rewrite Forall_cons.
  intros [Hc Hl] (H1 & H2 & H3). unfold apart, span_end at 2, HDR in Hc.
  rewrite !(block_only_rd64 b m m') by (done || lia). auto.
Qed.
Lemma block_only_sized b m m' live :
  block_only b m m' -> Forall (apart b) live -> sized m live -> sized m' live.
Proof.
  unfold sized. intros H Ha Hl. rewrite Forall_forall in *. intros c Hc.
  specialize (Ha c Hc). unfold apart, span_end at 2, HDR in Ha. destruct (Hl c Hc). split; [done|].
  by rewrite (block_only_rd64 b m m') by (done || lia).
Qed.
Lemma block_only_keeps {W} b live (h h' : heap W) :
  block_only b (h_mem h) (h_mem h') -> Forall (apart b) live -> keeps live h h'.
Proof.
  intros H Ha c x Hc Hx. apply H.
  pose proof (proj1 (Forall_forall _ _) Ha c Hc) as Hbc.
  unfold apart in Hbc. lia.
Qed.

Section free.
Context {W : Type} (base : Z) (brk : W -> Z).

(** [free_link] half way: the block [bp] points on, [p] not to it yet. *)
Record inserted (h : heap W) (l1 : list block) (p j bp n : Z) (l2 live : list block) : Prop := Inserted {
  in_l1 : links (h_mem h) l1 p;
  in_p : rd64 (h_mem h) (p + 8) = j;
  in_b : links (h_mem h) ((bp, n) :: l2) base;
  in_pos : 1 <= n;
  in_sized : sized (h_mem h) live;
  in_shape : shape base (brk (h_sys h)) (l1 ++ (p, j) :: (bp, n) :: l2) live;
}.

(** The two halves of [free_link]. *)
Definition link_next (bp p : Z) : M (heap W) unit :=
  let! next := get_ptr p in
  let! size := get_size bp in
  (if hdr_add bp size =? next then
     let! next_size := get_size next in
     set_size bp (u64 (size + next_size)) ;;;
     let! next_next := get_ptr next in
     set_ptr bp next_next
   else set_ptr bp next).
Definition link_prev (bp p : Z) : M (heap W) unit :=
  let! p_size := get_size p in
  (if hdr_add p p_size =? bp then
     let! size := get_size bp in
     set_size p (u64 (p_size + size)) ;;;
     let! next := get_ptr bp in
     set_ptr p next
   else set_ptr p bp) ;;;
  set_freep p.
Lemma free_link_eq bp p (h : heap W) : free_link bp p h = (link_next bp p ;;; link_prev bp p) h.
Proof.
  unfold free_link, link_next, link_prev. unfold bind, gets, get_ptr, get_size. cbn.
  by destruct (_ =? _).
Qed.

Lemma link_next_wp (h : heap W) l1 p j bp n l2 live :
  links (h_mem h) (l1 ++ (p, j) :: l2) base -> sized (h_mem h) ((bp, n) :: live) ->
  shape base (brk (h_sys h)) (l1 ++ (p, j) :: (bp, n) :: l2) live ->
  0 < base -> brk (h_sys h) < 2 ^ 63 ->
  wp (link_next bp p) (fun _ h' => exists n' l2',
      inserted h' l1 p j bp n' l2' live /\ n <= n' /\ keeps live h h' /\
      h_sys h' = h_sys h /\ (length l2' <= length l2)%nat) h.
Proof.
  intros Hlinks Hsized Hsh Hbase Hbrk.
  apply links_app in Hlinks as [Hll1 (Hpsz & Hpptr & Hll2)].
  apply Forall_cons in Hsized as [[Hn Hbsz] Hsized]. cbn [fst snd head_addr] in *.
  pose proof (shape_mid base (brk (h_sys h)) (l1 ++ [(p, j)]) (bp, n) l2 live) as Hb.
  rewrite <- app_assoc in Hb. destruct (Hb Hsh) as (Hb1 & Hb2 & Hb3 & Hb4 & _ & Hb5 & Hb6 & Hb7).
  apply Forall_app in Hb1 as [Hb1 Hbp]. rewrite Forall_singleton in Hbp.
  pose proof (apart_headers _ _ Hbp) as Hbp'. cbn [fst] in Hbp'.
  apply Forall_app in Hb7 as [_ Hpb]. rewrite Forall_singleton in Hpb. cbn [fst snd] in *.
  assert (Hend : span_end (bp, n) = bp + HDR * n) by (unfold span_end, HDR; cbn [fst snd]; lia).
  rewrite Hend in Hb5.
  unfold link_next, get_ptr, get_size, set_size, set_ptr.
  do 4 wp_step. rewrite Hpptr, Hbsz, (hdr_add_eq _ _ (brk (h_sys h))) by lia.
  destruct (Z.eqb_spec (bp + HDR * n) (head_addr base l2)) as [Heq|Hne].
  - destruct l2 as [|[x k] l2']; cbn in Heq; [unfold HDR in *; lia|]. subst x.
    pose proof Hll2 as (Hxsz & Hxptr & Hll2'). cbn [fst snd head_addr] in *.
    pose proof (shape_mid base (brk (h_sys h)) (l1 ++ [(p, j); (bp, n)]) (bp + HDR * n, k) l2' live) as Hk.
    rewrite <- app_assoc in Hk. destruct (Hk Hsh) as (_ & _ & _ & _ & Hk1 & Hk2 & _). clear Hk.
    pose proof (shape_join base (brk (h_sys h)) (l1 ++ [(p, j)]) bp n k l2' live Hn) as Hj.
    rewrite <- !app_assoc in Hj. specialize (Hj Hsh).
    unfold span_end, HDR in *. cbn [fst snd] in *.
    wp_steps. rewrite Hxsz. cbn [h_mem set_mem].
    rewrite (rd64_wr64_ne _ (bp + 8)), Hxptr, u64_id by lia.
    set (m' := wr64 _ bp _).
    assert (block_only (bp, n) (h_mem h) m') as Hm.
    { apply block_only_wr; [apply block_only_wr; [apply block_only_refl|..]|..]; unfold span_end, HDR; cbn [fst snd]; lia. }
    exists (n + k), l2'. split_and!; [|lia|by eapply block_only_keeps|done|cbn; lia].
    constructor; cbn [h_mem set_mem h_sys]; [by eapply block_only_links| | |lia|by eapply block_only_sized|done].
    + by rewrite (block_only_rd64 _ _ _ _ Hm) by (unfold span_end, HDR; cbn [fst snd]; lia).
    + cbn [links fst snd]. split_and!.
      * unfold m'. rewrite rd64_wr64_ne, rd64_wr64_eq, u64_id by lia. done.
      * unfold m'. rewrite rd64_wr64_eq, u64_id; [done|]. rewrite <- Hxptr. apply rd64_bounds.
      * apply Forall_cons in Hb2 as [_ Hb2]. by eapply block_only_links.
  - wp_steps. set (h' := set_mem _ _).
    assert (block_only (bp, n) (h_mem h) (h_mem h')) as Hm.
    { apply block_only_wr; [apply block_only_refl|..]; unfold span_end, HDR; cbn [fst snd]; lia. }
    exists n, l2. split_and!; [|lia|by eapply block_only_keeps|done|lia].
    constructor; [by eapply block_only_links| | |lia|by eapply block_only_sized|done].
    + by rewrite (block_only_rd64 _ _ _ _ Hm) by (unfold span_end, HDR; cbn [fst snd]; lia).
    + cbn [links fst snd]. split_and!; [| |by eapply block_only_links].
      * unfold h'. cbn [h_mem set_mem]. by rewrite rd64_wr64_ne by lia.
      * unfold h'. cbn [h_mem set_mem]. rewrite rd64_wr64_eq, u64_id; [done|].
        rewrite <- Hpptr. apply rd64_bounds.
Qed.

(** The block just freed is the node [freep] names or the one behind it. *)
Definition found_at (h : heap W) (nodes : list block) (n : Z) : Prop :=
  exists l1 j l2, nodes = l1 ++ (h_freep h, j) :: l2 /\
    (n <= j \/ exists c l3, l2 = c :: l3 /\ n <= snd c).

Lemma link_prev_wp (h : heap W) l1 p j bp n l2 live :
  inserted h l1 p j bp n l2 live ->
  head (l1 ++ (p, j) :: l2) = Some (base, 0) -> 0 < base -> brk (h_sys h) < 2 ^ 63 ->
  wp (link_prev bp p) (fun _ h' => exists nodes,
      heap_ok base brk h' nodes live /\ keeps live h h' /\ h_sys h' = h_sys h /\
      found_at h' nodes n /\ (length nodes <= length l1 + 2 + length l2)%nat) h.
Proof.
  intros [Hll1 Hpsz Hb Hn Hsized Hsh] Hhead Hbase Hbrk. destruct Hb as (Hbsz & Hbptr & Hll2).
  destruct (shape_mid _ _ _ _ _ _ Hsh) as (Hp1 & Hp2 & Hp3 & Hp4 & Hj & Hp5 & Hp6 & _).
  apply Forall_cons in Hp2 as [Hpb Hp2]. apply Forall_cons in Hp6 as [Hlt _].
  pose proof (shape_mid base (brk (h_sys h)) (l1 ++ [(p, j)]) (bp, n) l2 live) as Hs.
  rewrite <- app_assoc in Hs. destruct (Hs Hsh) as (_ & _ & _ & Hb4 & _ & Hb5 & _). clear Hs.
  cbn [fst snd] in *.
  unfold link_prev, get_ptr, get_size, set_size, set_ptr, set_freep.
  do 2 wp_step. wp_step. rewrite Hpsz.
  unfold span_end, HDR in Hp5, Hb5. cbn [fst snd] in Hp5, Hb5.
  rewrite (hdr_add_eq _ _ (brk (h_sys h))) by (unfold HDR; lia).
  destruct (Z.eqb_spec (p + HDR * j) bp) as [Heq|Hne]; unfold HDR in *.
  - wp_steps. rewrite Hbsz. cbn [h_mem set_mem].
    rewrite (rd64_wr64_ne _ (p + 8)), Hbptr, u64_id by lia.
    set (m' := wr64 _ p _).
    assert (block_only (p, j) (h_mem h) m') as Hm.
    { apply block_only_wr; [apply block_only_wr; [apply block_only_refl|..]|..]; unfold span_end, HDR; cbn [fst snd]; lia. }
    assert (1 <= j) as Hj1 by lia.
    rewrite <- Heq in Hsh. pose proof (shape_join _ _ _ _ _ _ _ _ Hj1 Hsh) as Hsh'.
    exists (l1 ++ (p, j + n) :: l2). split_and!.
    + constructor; cbn [h_mem set_mem h_sys h_freep]; try done.
      * destruct l1; [|done]. cbn in Hhead. injection Hhead as -> ->. lia.
      * apply links_app. cbn [links head_addr fst snd]. split_and!.
        -- by eapply block_only_links.
        -- unfold m'. rewrite rd64_wr64_ne, rd64_wr64_eq, u64_id by lia. done.
        -- unfold m'. rewrite rd64_wr64_eq, u64_id; [done|]. rewrite <- Hbptr. apply rd64_bounds.
        -- by eapply block_only_links.
      * rewrite fmap_app, fmap_cons. set_solver.
      * by eapply block_only_sized.
    + by eapply block_only_keeps.
    + done.
    + exists l1, (j + n), l2. split; [done|]. left. lia.
    + rewrite length_app. cbn. lia.
  - wp_steps. set (h' := Heap _ _ _).
    assert (block_only (p, j) (h_mem h) (h_mem h')) as Hm.
    { apply block_only_wr; [apply block_only_refl|..]; unfold span_end, HDR; cbn [fst snd]; lia. }
    exists (l1 ++ (p, j) :: (bp, n) :: l2). split_and!.
    + constructor; try done.
      * by destruct l1.
      * apply links_app. cbn [links head_addr fst snd]. unfold h' at 2 3. cbn [h_mem set_mem].
        split; [by eapply block_only_links|]. split; [by rewrite rd64_wr64_ne by lia|].
        split; [rewrite rd64_wr64_eq, u64_id; [done|lia]|].
        apply (block_only_links (p, j) (h_mem h) (h_mem h') ((bp, n) :: l2)); [done|by constructor|done].
      * rewrite fmap_app, fmap_cons. set_solver.
      * by eapply block_only_sized.
    + by eapply block_only_keeps.
    + done.
    + exists l1, j, ((bp, n) :: l2). split; [done|]. right. by exists (bp, n), l2.
    + rewrite length_app. cbn. lia.
Qed.

(** The nodes below and above an address. *)
Lemma split_at (l : list block) a :
  ascending l -> Forall (fun c => fst c <> a) l ->
  exists A B, l = A ++ B /\ Forall (fun c => fst c < a) A /\ Forall (fun c => a < fst c) B.
Proof.
  induction l as [|b l IH]; cbn; [by exists [], []|]. rewrite Forall_cons.
  intros [Hb Hl] [Hne Hall]. destruct (decide (fst b < a)) as [Hlt|Hge].
  - destruct IH as (A & B & -> & HA & HB); [done..|]. exists (b :: A), B. split_and!; [done|by constructor|done].
  - exists [], (b :: l). split_and!; [done|constructor|]. constructor; [lia|].
    eapply Forall_impl; [exact Hb|]. cbn. lia.
Qed.

Lemma head_least (nodes : list block) c :
  ascending nodes -> head nodes = Some (base, 0) -> c ∈ nodes -> base <= fst c.
Proof.
  destruct nodes as [|b l]; [done|]. cbn. intros [Hb _] [= ->] [->|Hin]%elem_of_cons; [done|].
  rewrite Forall_forall in Hb. specialize (Hb c Hin). cbn in Hb. lia.
Qed.

Lemma free_scan_wp (h : heap W) nodes bp fuel :
  links (h_mem h) nodes base -> ascending nodes -> head nodes = Some (base, 0) ->
  h_freep h ∈ nodes.*1 -> base < bp -> Forall (fun c => fst c <> bp) nodes ->
  (length nodes < fuel)%nat ->
  wp (loop fuel (free_scan_body bp) (h_freep h)) (fun p h' => h' = h /\
    exists l1 j l2, nodes = l1 ++ (p, j) :: l2 /\ p < bp /\ Forall (fun c => bp < fst c) l2) h.
Proof.
  intros Hlinks Hasc Hhead Hfreep Hbp Hne Hfuel.
  destruct (split_at nodes bp Hasc Hne) as (A & B & HAB & HA & HB).
  assert (1 <= length A)%nat as HT.
  { destruct A; [|cbn; lia]. destruct nodes; [done|]. cbn in Hhead, HAB. subst B. simplify_eq.
    apply Forall_cons in HB as [HB _]. cbn in HB. lia. }
  set (T := length A) in *. assert (length nodes = T + length B)%nat as Hlen by (rewrite HAB; apply length_app).
  assert (Hside : forall l1 p j l2, nodes = l1 ++ (p, j) :: l2 ->
    ((length l1 < T)%nat /\ p < bp) \/ ((T <= length l1)%nat /\ bp < p)).
  { intros l1 p j l2 Heq. assert (nodes !! length l1 = Some (p, j)) as Hl by (by rewrite Heq, list_lookup_middle).
    rewrite HAB in Hl. apply lookup_app_Some in Hl as [Hl|[Hk Hl]]; [left|right; split; [done|]].
    - split; [by eapply lookup_lt_Some|]. by apply (Forall_lookup_1 _ _ _ _ HA Hl).
    - by apply (Forall_lookup_1 _ _ _ _ HB Hl). }
  apply list_elem_of_fmap in Hfreep as [[p0 j0] [Hp0 Hin]]. cbn in Hp0. rewrite Hp0.
  apply list_elem_of_split in Hin as (l01 & l02 & Hnodes0).
  pose (I := fun (n : nat) (p : Z) (s : heap W) => s = h /\ exists l1 j l2, nodes = l1 ++ (p, j) :: l2 /\
    n = (if decide (length l1 < T) then T - 1 - length l1 else length nodes - length l1 + T - 1)%nat).
  assert (length l01 < length nodes)%nat as Hl01 by (rewrite Hnodes0, length_app; cbn; lia).
  eapply (wp_loop _ _ I fuel); [|by split; [done|exists l01, j0, l02]|
    destruct (Hside _ _ _ _ Hnodes0) as [[]|[]]; case_decide; lia].
  clear l01 l02 j0 p0 Hp0 Hnodes0 Hl01. intros n p s (-> & l1 & j & l2 & Heq & Hn).
  pose proof (Hside _ _ _ _ Heq) as Hk.
  assert (length l1 + S (length l2) = length nodes)%nat as Hl by (rewrite Heq, length_app; done).
  assert (base <= p) as Hbase_p.
  { apply (head_least nodes (p, j)); [done|done|]. rewrite Heq. set_solver. }
  rewrite Heq in Hlinks, Hasc. apply links_app in Hlinks as [_ (_ & Hptr & _)].
  apply ascending_app in Hasc as (_ & [Hp2 Hasc2] & _). cbn [fst snd] in *.
  unfold free_scan_body, get_ptr. wp_step. wp_step. rewrite Hptr.
  destruct l2 as [|[c k] l2']; cbn [head_addr fst].
  - destruct Hk as [[Hk Hpb]|[Hk Hpb]].
    + rewrite (proj2 (Z.ltb_lt p bp) Hpb), (proj2 (Z.ltb_ge bp base)) by lia. cbn [andb].
      rewrite (proj2 (Z.leb_le base p)) by lia. cbn. apply wp_ret; cbv beta iota. by split; [|exists l1, j, []].
    + rewrite (proj2 (Z.ltb_ge p bp)), (proj2 (Z.ltb_ge bp base)) by lia. cbn [andb orb].
      rewrite andb_false_r. apply wp_ret; cbv beta iota. destruct nodes as [|b0 nodes']; [by destruct l1|].
      cbn in Hhead. injection Hhead as ->.
      exists (T - 1)%nat. split; [case_decide; lia|]. split; [done|]. exists [], 0, nodes'. split; [done|].
      cbn [length]. rewrite decide_True by lia. lia.
  - apply Forall_cons in Hp2 as [Hpc _]. cbn in Hpc.
    destruct (Hside (l1 ++ [(p, j)]) c k l2') as [[Hk' Hc]|[Hk' Hc]];
      [by rewrite <- app_assoc| |]; rewrite length_app in Hk'; cbn [length] in *.
    + rewrite (proj2 (Z.ltb_ge bp c)) by lia. rewrite andb_false_r, (proj2 (Z.leb_gt c p)) by lia. cbn [andb].
      apply wp_ret; cbv beta iota. exists (T - 1 - (length l1 + 1))%nat. split; [case_decide; lia|].
      split; [done|]. exists (l1 ++ [(p, j)]), k, l2'. rewrite <- app_assoc, length_app. split; [done|].
      cbn [length]. rewrite decide_True by lia. lia.
    + destruct Hk as [[Hk Hpb]|[Hk Hpb]].
      * rewrite (proj2 (Z.ltb_lt p bp) Hpb), (proj2 (Z.ltb_lt bp c) Hc). cbn [andb]. apply wp_ret; cbv beta iota.
        split; [done|]. exists l1, j, ((c, k) :: l2'). split_and!; [done..|].
        constructor; [done|]. destruct Hasc2 as [Hc2 _]. eapply Forall_impl; [exact Hc2|]. cbn. lia.
      * rewrite (proj2 (Z.ltb_ge p bp)) by lia. cbn [andb]. rewrite (proj2 (Z.leb_gt c p)) by lia. cbn [andb].
        apply wp_ret; cbv beta iota. exists (length nodes - (length l1 + 1) + T - 1)%nat. split; [case_decide; lia|].
        split; [done|]. exists (l1 ++ [(p, j)]), k, l2'. rewrite <- app_assoc, length_app. split; [done|].
        cbn [length]. rewrite decide_False by lia. lia.
Qed.

(** [free] on a held block. *)
Lemma free_wp (h : heap W) nodes b live fuel :
  heap_ok base brk h nodes (b :: live) -> (length nodes < fuel)%nat ->
  wp (free base fuel (fst b + HDR)) (fun _ h' => exists nodes',
    heap_ok base brk h' nodes' live /\ keeps live h h' /\ h_sys h' = h_sys h /\
    found_at h' nodes' (snd b) /\ (length nodes' <= S (length nodes))%nat) h.
Proof.
  intros [Hbase Hhead Hlinks Hfreep Hsized Hsh Hbrk] Hfuel. destruct b as [bp n]. cbn [fst snd].
  pose proof Hsized as [[Hn Hsz] _]%Forall_cons. cbn [fst snd] in *.
  pose proof Hsh as (Hasc & Hsep & Hrange).
  rewrite Forall_app in Hrange. destruct Hrange as [Hrange [Hbr _]%Forall_cons].
  apply separate_app in Hsep as (_ & _ & Hapart).
  assert (forall c, c ∈ nodes -> apart c (bp, n)) as Hap.
  { intros c Hc. rewrite Forall_forall in Hapart. specialize (Hapart c Hc). by apply Forall_cons in Hapart as [? _]. }
  assert (base + HDR <= bp) as Hbb.
  { assert ((base, 0) ∈ nodes) as Hin by (destruct nodes; [done|]; cbn in Hhead; injection Hhead as ->; set_solver).
    pose proof (apart_headers _ _ (Hap _ Hin)) as Ha. cbn in Ha, Hbr. unfold HDR. lia. }
  unfold span_end, HDR in *. cbn [fst snd] in *.
  unfold free. rewrite (proj2 (Z.eqb_neq _ 0)) by (unfold HDR; lia).
  assert (h_freep h <> 0) as Hf0.
  { apply list_elem_of_fmap in Hfreep as (c & -> & Hc). rewrite Forall_forall in Hrange.
    destruct (Hrange c Hc). lia. }
  wp_step. wp_step. wp_step. apply wp_when; [intros H0; apply Z.eqb_eq in H0; done|intros _].
  wp_step. wp_step. unfold HDR. rewrite u64_id by lia. replace (bp + 16 - 16) with bp by lia.
  apply wp_bind. eapply wp_mono.
  { apply (free_scan_wp h nodes bp); try done; [lia|].
    apply Forall_forall. intros c Hc Hcb. pose proof (apart_headers _ _ (Hap c Hc)) as Ha. cbn [fst] in Ha. lia. }
  intros p h' (-> & l1 & j & l2 & -> & Hp & Hl2).
  unfold wp. rewrite free_link_eq. apply wp_bind.
  eapply wp_mono; [apply (link_next_wp h l1 p j bp n l2 live)|]; try done.
  { by apply shape_free. }
  intros _ h1 (n' & l2' & Hins & Hnn & Hk1 & Hsys1 & Hlen1).
  eapply wp_mono; [eapply link_prev_wp; [exact Hins| |done|by rewrite Hsys1]|].
  { destruct l1; [|done]. cbn in *. done. }
  intros _ h2 (nodes' & Hok & Hk2 & Hsys2 & Hfound & Hlen2). exists nodes'. split_and!.
  - done.
  - by eapply keeps_trans.
  - by rewrite Hsys2.
  - destruct Hfound as (k1 & j' & k2 & Hk & Hf). exists k1, j', k2. split; [done|].
    destruct Hf as [Hf|(c & l3 & -> & Hf)]; [left; lia|right; exists c, l3; split; [done|lia]].
  - rewrite length_app. cbn. lia.
Qed.
End free.

(* ------------------------------------------------------------------ *)
(** ** malloc *)

(** The law of the [sbrk] system call below 2 GB: it moves the break and
    returns where it was, or fails and leaves it. *)
Class SbrkLaw {W : Type} (sbrk : Z -> W -> Z * W) (brk : W -> Z) : Prop :=
  sbrk_law increment w : 0 < increment < 2 ^ 31 ->
    let '(r, w') := sbrk increment w in
    (r = SBRK_FAILED /\ brk w' = brk w) \/
    (r = brk w /\ brk w' = brk w + increment /\ brk w' < 2 ^ 31).

(** A block leaves the free list, or its end is cut off. *)
Lemma shape_take base lim l1 b l2 live :
  shape base lim (l1 ++ b :: l2) live -> shape base lim (l1 ++ l2) (b :: live).
Proof.
  intros (Ho & Hs & Hr).
  assert ((l1 ++ b :: l2) ++ live ≡ₚ (l1 ++ l2) ++ b :: live) as Hp.
  { rewrite <- !app_assoc. cbn. apply Permutation_app_head. apply Permutation_middle. }
  rewrite Hp in Hs, Hr. split; [|done].
  apply ascending_app in Ho as (H1 & [H2 H3] & H4). apply ascending_app. split_and!; [done..|].
  eapply Forall_impl; [exact H4|]. intros c Hc. by apply Forall_cons in Hc as [_ Hc].
Qed.
Lemma shape_cut base lim l1 a n k l2 live :
  1 <= k < n -> shape base lim (l1 ++ (a, n) :: l2) live ->
  shape base lim (l1 ++ (a, n - k) :: l2) ((a + HDR * (n - k), k) :: live).
Proof.
  intros Hk Hsh. destruct (shape_mid _ _ _ _ _ _ Hsh) as (H1 & H2 & H3 & H4 & H5 & H6 & H7 & H8).
  destruct Hsh as (Ho & Hs & Hr).
  assert (forall d, apart (a, n) d -> apart (a, n - k) d /\ apart (a + HDR * (n - k), k) d) as Hap.
  { intros d. unfold apart, span_end, HDR. cbn [fst snd]. lia. }
  assert (forall b c, ((l1 ++ b :: l2) ++ c :: live) ≡ₚ b :: c :: l1 ++ l2 ++ live) as Hp.
  { intros b c. rewrite <- app_assoc. cbn. rewrite <- Permutation_middle. constructor.
    rewrite app_assoc. rewrite <- Permutation_middle. by rewrite <- app_assoc. }
  split_and!.
  - apply ascending_app in Ho as (HA & [HB HC] & HD). apply ascending_app. split_and!; [done|done|].
    eapply Forall_impl; [exact HD|]. intros c. by rewrite !Forall_cons.
  - rewrite Hp. cbn. rewrite !Forall_cons, !Forall_app.
    assert (forall L, Forall (apart (a, n)) L -> Forall (apart (a, n - k)) L /\ Forall (apart (a + HDR * (n - k), k)) L) as HL.
    { intros L HL. split; (eapply Forall_impl; [exact HL|]); intros d Hd; apply (Hap d Hd). }
    assert (separate (l1 ++ l2 ++ live)) as Hrest.
    { assert ((l1 ++ (a, n) :: l2) ++ live ≡ₚ (a, n) :: l1 ++ l2 ++ live) as Hq.
      { rewrite <- app_assoc. cbn. by rewrite <- Permutation_middle. }
      rewrite Hq in Hs. by destruct Hs. }
    destruct (HL _ H1), (HL _ H2), (HL _ H3). split_and!; try done.
    unfold apart, span_end, HDR. cbn [fst snd]. lia.
  - rewrite Hp. rewrite !Forall_cons. rewrite <- app_assoc in Hr. cbn in Hr.
    rewrite Forall_app, Forall_cons in Hr. rewrite Forall_app. unfold span_end, HDR in *. cbn [fst snd] in *.
    split_and!; try tauto; lia.
Qed.

Section malloc.
Context {W : Type} (sbrk : Z -> W -> Z * W) (base : Z) (brk : W -> Z).

Lemma malloc_take_wp (h : heap W) l1 q i p n l2 live nunits :
  heap_ok base brk h (l1 ++ (q, i) :: (p, n) :: l2) live -> 1 <= nunits <= n ->
  wp (malloc_take nunits q p) (fun r h' => exists nodes,
    heap_ok base brk h' nodes ((r - HDR, nunits) :: live) /\ keeps live h h' /\ HDR < r) h.
Proof.
  intros [Hbase Hhead Hlinks Hfreep Hsized Hsh Hbrk] Hn.
  apply links_app in Hlinks as [Hl1 (Hqsz & Hqptr & Hpsz & Hpptr & Hl2)]. cbn [fst snd head_addr] in *.
  destruct (shape_mid _ _ _ _ _ _ Hsh) as (Hq1 & Hq2 & Hq3 & Hqb & _).
  pose proof (shape_mid base (brk (h_sys h)) (l1 ++ [(q, i)]) (p, n) l2 live) as Hs.
  rewrite <- app_assoc in Hs. destruct (Hs Hsh) as (Hp1 & Hp2 & Hp3 & Hpb & _ & Hpe & Hpo & _). clear Hs.
  apply Forall_cons in Hq2 as [Hqp Hq2]. apply Forall_app in Hp1 as [Hp1 _].
  pose proof Hqp as Hqp'. unfold apart, span_end, HDR in Hqp'. cbn [fst snd] in Hqp'.
  unfold span_end, HDR in Hpe. cbn [fst snd] in *.
  unfold malloc_take, get_ptr, get_size, set_size, set_ptr, set_freep.
  do 2 wp_step. rewrite Hpsz. destruct (Z.eqb_spec n nunits) as [->|Hne].
  - wp_steps. cbn [h_mem set_mem]. rewrite Hpptr.
    rewrite (hdr_add_eq _ _ (brk (h_sys h))) by (unfold HDR; lia).
    set (h' := Heap _ _ _). exists (l1 ++ (q, i) :: l2).
    replace (p + HDR * 1 - HDR) with p by lia.
    assert (block_only (q, i) (h_mem h) (h_mem h')) as Hm.
    { apply block_only_wr; [apply block_only_refl|..]; unfold span_end, HDR; cbn [fst snd]; lia. }
    split_and!; [constructor; try done|by eapply block_only_keeps|unfold HDR; lia].
    + by destruct l1.
    + apply links_app. cbn [links head_addr fst snd]. unfold h' at 2 3. cbn [h_mem set_mem].
      split; [by eapply block_only_links|]. split; [by rewrite rd64_wr64_ne by lia|].
      split; [|by eapply block_only_links].
      rewrite rd64_wr64_eq, u64_id; [done|]. rewrite <- Hpptr. apply rd64_bounds.
    + rewrite fmap_app, fmap_cons. set_solver.
    + apply Forall_cons. split; [|by eapply block_only_sized]. split; [cbn; lia|].
      cbn. by rewrite (block_only_rd64 _ _ _ _ Hm) by (unfold span_end, HDR; cbn [fst snd]; lia).
    + pose proof (shape_take base (brk (h_sys h)) (l1 ++ [(q, i)]) (p, nunits) l2 live) as Ht.
      rewrite <- !app_assoc in Ht. by apply Ht.
  - rewrite (u64_id (n - nunits)) by lia.
    rewrite (hdr_add_eq p (n - nunits) (brk (h_sys h))) by (unfold HDR; lia).
    wp_steps. cbn [h_mem set_mem].
    rewrite (hdr_add_eq _ 1 (brk (h_sys h))) by (unfold HDR; lia).
    set (p' := p + HDR * (n - nunits)).
    set (h' := Heap _ _ _). exists (l1 ++ (q, i) :: (p, n - nunits) :: l2).
    replace (p' + HDR * 1 - HDR) with p' by lia.
    pose proof (shape_cut base (brk (h_sys h)) (l1 ++ [(q, i)]) p n nunits l2 live) as Hcut.
    rewrite <- !app_assoc in Hcut. specialize (Hcut ltac:(lia) Hsh). fold p' in Hcut.
    assert (block_only (p, n) (h_mem h) (h_mem h')) as Hm.
    { apply block_only_wr; [apply block_only_wr; [apply block_only_refl|..]|..];
        unfold p', span_end, HDR; cbn [fst snd]; lia. }
    split_and!; [constructor; try done|by eapply block_only_keeps|unfold p', HDR; lia].
    + by destruct l1.
    + apply links_app. cbn [links head_addr fst snd].
      split; [by eapply block_only_links|].
      rewrite !(block_only_rd64 _ _ _ q Hm), !(block_only_rd64 _ _ _ (q + 8) Hm)
        by (unfold span_end, HDR; cbn [fst snd]; lia).
      split_and!; [done|done| | |by eapply block_only_links]; cbn [h' h_mem].
      * rewrite rd64_wr64_ne, rd64_wr64_eq, u64_id by (unfold p', HDR; lia). done.
      * by rewrite !rd64_wr64_ne by (unfold p', HDR; lia).
    + rewrite fmap_app, fmap_cons. set_solver.
    + apply Forall_cons. split; [|by eapply block_only_sized]. split; [cbn; lia|].
      cbn. rewrite rd64_wr64_eq, u64_id by lia. done.
Qed.

(** The break moves: a new held block, which goes to the free list. *)
Lemma morecore_wp `{!SbrkLaw sbrk brk} (h : heap W) nodes live nunits fuel :
  heap_ok base brk h nodes live -> 1 <= nunits -> HDR * nunits < 2 ^ 31 -> (length nodes < fuel)%nat ->
  wp (morecore sbrk base fuel nunits) (fun p h' =>
    (p = 0 /\ heap_ok base brk h' nodes live /\ keeps live h h') \/
    (p = h_freep h' /\ p <> 0 /\ exists nodes',
       heap_ok base brk h' nodes' live /\ keeps live h h' /\
       found_at h' nodes' nunits /\ (length nodes' <= S (length nodes))%nat)) h.
Proof.
  intros Hok Hn Hn31 Hfuel. unfold morecore.
  set (k := if nunits <? 1024 then 1024 else nunits).
  assert (nunits <= k /\ 1024 <= k /\ HDR * k < 2 ^ 31) as (Hk1 & Hk2 & Hk3).
  { unfold k, HDR in *. destruct (Z.ltb_spec nunits 1024); lia. }
  replace (s64 (k * HDR)) with (HDR * k) by (rewrite s64_id; unfold HDR in *; lia).
  apply wp_bind. unfold call_sbrk at 1, wp at 1.
  pose proof (SbrkLaw0 (HDR * k) (h_sys h)) as Hlaw. unfold sbrk_law in Hlaw.
  destruct (sbrk (HDR * k) (h_sys h)) as [r w'].
  destruct Hok as [Hbase Hhead Hlinks Hfreep Hsized Hsh Hbrk].
  destruct Hlaw as [[-> Hw]|(-> & Hw & Hw31)]; [unfold HDR in *; lia| |].
  { rewrite Z.eqb_refl. apply wp_ret. left. split; [done|]. split; [|done].
    constructor; cbn; rewrite ?Hw; done. }
  set (cp := brk (h_sys h)) in *.
  assert (base + HDR <= cp) as Hcp.
  { destruct Hsh as (_ & _ & Hr). apply Forall_app in Hr as [Hr _].
    destruct nodes; [done|]. cbn in Hhead. injection Hhead as ->. apply Forall_cons in Hr as [(_ & _ & Hr) _].
    unfold span_end, HDR in *. cbn [fst snd] in Hr. lia. }
  unfold HDR in Hcp, Hk3, Hw.
  rewrite (proj2 (Z.eqb_neq cp SBRK_FAILED)) by (change SBRK_FAILED with 18446744073709551615; lia).
  unfold set_size. wp_step. wp_step. cbn [h_mem h_freep h_sys set_mem].
  rewrite (hdr_add_eq _ _ (brk w')) by (unfold HDR; lia).
  set (h2 := set_mem _ _).
  assert (Forall (apart (cp, k)) (nodes ++ live)) as Hap.
  { destruct Hsh as (_ & _ & Hr). eapply Forall_impl; [exact Hr|]. intros c (_ & _ & Hc). right. done. }
  pose proof Hap as [Hap1 Hap2]%Forall_app.
  assert (block_only (cp, k) (h_mem h) (h_mem h2)) as Hm.
  { apply block_only_wr; [apply block_only_refl|..]; unfold span_end, HDR; cbn [fst snd]; lia. }
  assert (heap_ok base brk h2 nodes ((cp, k) :: live)) as Hok2.
  { constructor; try done.
    - by eapply block_only_links.
    - apply Forall_cons. split; [|by eapply block_only_sized]. split; [cbn; lia|].
      cbn. rewrite rd64_wr64_eq, u64_id by lia. done.
    - destruct Hsh as (Ho & Hs & Hr). split; [done|]. rewrite <- Permutation_middle. split; [done|].
      cbn [h_sys h2 set_mem]. rewrite Hw. constructor; [unfold span_end, HDR; cbn [fst snd]; lia|].
      eapply Forall_impl; [exact Hr|]. cbn. intros c. unfold span_end, HDR. lia.
    - cbn. lia. }
  wp_step. replace (cp + HDR * 1) with (fst (cp, k) + HDR) by (cbn; lia).
  eapply wp_mono; [by apply (free_wp base brk h2 nodes (cp, k) live)|].
  intros _ h3 (nodes' & Hok3 & Hk & _ & Hfound & Hlen). wp_step. right.
  split; [done|]. split.
  { destruct Hok3 as [_ Hhead3 _ Hf3 _ (_ & _ & Hr3) _]. apply Forall_app in Hr3 as [Hr3 _].
    apply list_elem_of_fmap in Hf3 as (c & -> & Hc). rewrite Forall_forall in Hr3.
    destruct (Hr3 c Hc). lia. }
  exists nodes'. split_and!; [done| | |done].
  - eapply keeps_trans; [|exact Hk]. by eapply block_only_keeps.
  - destruct Hfound as (k1 & j' & k2 & Hk' & Hf). exists k1, j', k2. split; [done|]. cbn [snd] in Hf.
    destruct Hf as [Hf|(c & l3 & -> & Hf)]; [left; lia|right; exists c, l3; split; [done|lia]].
Qed.

(** The place behind the place [k] of the circular list, and the number of
    steps from one place to another. *)
Definition next_ix (nodes : list block) (k : nat) : nat :=
  if decide (S k < length nodes)%nat then S k else 0%nat.
Definition dist (nodes : list block) (a b : nat) : nat :=
  if decide (a <= b)%nat then (b - a)%nat else (length nodes - a + b)%nat.
Lemma dist_next nodes a b :
  (a < length nodes)%nat -> (b < length nodes)%nat -> a <> b ->
  S (dist nodes (next_ix nodes a) b) = dist nodes a b.
Proof. intros. unfold dist, next_ix. repeat case_decide; lia. Qed.
Lemma dist_next_self nodes a :
  (a < length nodes)%nat -> S (dist nodes (next_ix nodes a) a) = length nodes.
Proof. intros. unfold dist, next_ix. repeat case_decide; lia. Qed.

Lemma links_at m nodes k a n :
  links m nodes base -> head nodes = Some (base, 0) -> nodes !! k = Some (a, n) ->
  rd64 m (a + 8) = n /\ exists c, nodes !! next_ix nodes k = Some c /\ rd64 m a = fst c.
Proof.
  intros Hl Hhead Hk. pose proof (take_drop_middle nodes k (a, n) Hk) as Heq.
  rewrite <- Heq in Hl. apply links_app in Hl as [_ (Hs & Hp & _)]. cbn [fst snd] in *.
  split; [done|]. unfold next_ix. case_decide as Hlt.
  - destruct (lookup_lt_is_Some_2 nodes (S k) Hlt) as [c Hc]. exists c. split; [done|].
    by rewrite Hp, (drop_S nodes c (S k)) by done.
  - exists (base, 0). split; [by destruct nodes|]. rewrite Hp. by rewrite drop_ge by lia.
Qed.

(** Addresses are places. *)
Lemma ascending_inj nodes k k' a n n' :
  ascending nodes -> nodes !! k = Some (a, n) -> nodes !! k' = Some (a, n') -> k = k'.
Proof.
  revert k k'. induction nodes as [|b l IH]; intros k k'; [done|]. cbn. intros [Hb Hl].
  rewrite Forall_forall in Hb.
  assert (forall j m, l !! j = Some (a, m) -> fst b < a) as Hab.
  { intros j m Hj. apply (Hb (a, m)). by eapply list_elem_of_lookup_2. }
  destruct k as [|k], k' as [|k']; cbn; intros H1 H2; [done| | |f_equal; by eapply IH].
  - apply Hab in H2. injection H1 as ->. cbn in H2. lia.
  - apply Hab in H1. injection H2 as ->. cbn in H1. lia.
Qed.

(** The loop of [malloc] at the places [kq] and [kp]. *)
Record searching (h : heap W) (nodes live : list block) (q p : Z) (kp : nat) : Prop := Searching {
  se_ok : heap_ok base brk h nodes live;
  se_at : exists kq i n, nodes !! kq = Some (q, i) /\ kp = next_ix nodes kq /\ nodes !! kp = Some (p, n);
}.

Lemma searching_next h nodes live q p kp :
  searching h nodes live q p kp ->
  exists c : block, rd64 (h_mem h) p = fst c /\ searching h nodes live p (fst c) (next_ix nodes kp).
Proof.
  intros [Hok (kq & i & n & Hq & -> & Hp)].
  destruct (links_at _ _ _ _ _ (ho_links _ _ _ _ _ Hok) (ho_head _ _ _ _ _ Hok) Hp) as (_ & [a k] & Hc & Hptr).
  exists (a, k). split; [done|]. split; [done|]. eexists _, n, k. split; [exact Hp|]. done.
Qed.

(** A block that is large enough is taken. *)
Lemma searching_take h nodes live q p kp nunits :
  searching h nodes live q p kp -> 1 <= nunits <= rd64 (h_mem h) (p + 8) ->
  wp (malloc_take nunits q p) (fun r h' => exists nodes',
    heap_ok base brk h' nodes' ((r - HDR, nunits) :: live) /\ keeps live h h' /\ HDR < r) h.
Proof.
  intros [Hok (kq & i & n & Hq & Hkp & Hp)] Hn.
  pose proof (ho_head _ _ _ _ _ Hok) as Hhead.
  destruct (links_at _ _ _ _ _ (ho_links _ _ _ _ _ Hok) Hhead Hp) as (Hsz & _).
  rewrite Hsz in Hn. unfold next_ix in Hkp. case_decide as Hlt.
  - subst kp. apply (malloc_take_wp h (take kq nodes) q i p n (drop (S (S kq)) nodes)); [|lia].
    by rewrite <- (drop_S nodes (p, n) (S kq)), take_drop_middle.
  - subst kp. destruct nodes; [done|]. cbn in Hhead, Hp. simplify_eq. lia.
Qed.

(** What [malloc] promises: a block of [nunits] headers of its own, or 0. *)
Definition malloc_post (live : list block) (nunits : Z) (h : heap W) (r : Z) (h' : heap W) : Prop :=
  exists nodes', keeps live h h' /\
    ((r = 0 /\ heap_ok base brk h' nodes' live) \/
     (HDR < r /\ heap_ok base brk h' nodes' ((r - HDR, nunits) :: live))).

Lemma freep_at h nodes live :
  heap_ok base brk h nodes live -> exists kf n, nodes !! kf = Some (h_freep h, n).
Proof.
  intros Hok. pose proof (ho_freep _ _ _ _ _ Hok) as Hf.
  apply list_elem_of_fmap in Hf as [[a n] [Ha Hin]]. cbn in Ha. subst a.
  apply list_elem_of_lookup_1 in Hin as [kf Hkf]. by exists kf, n.
Qed.

(** Places of a block the loop is sure to reach before it asks for more. *)
Definition big_ahead (h : heap W) (nodes : list block) (kp : nat) (nunits : Z) (g : nat) : Prop :=
  exists a k kf n, nodes !! g = Some (a, k) /\ nunits <= k /\
    nodes !! kf = Some (h_freep h, n) /\ (dist nodes kp g <= dist nodes kp kf)%nat.

Lemma found_ahead h nodes live nunits :
  heap_ok base brk h nodes live -> found_at h nodes nunits ->
  exists q kp g, rd64 (h_mem h) (h_freep h) = q /\ searching h nodes live (h_freep h) q kp /\
    big_ahead h nodes kp nunits g.
Proof.
  intros Hok (l1 & j & l2 & Heq & Hbig).
  assert (nodes !! length l1 = Some (h_freep h, j)) as Hf by (by rewrite Heq, list_lookup_middle).
  destruct (links_at _ _ _ _ _ (ho_links _ _ _ _ _ Hok) (ho_head _ _ _ _ _ Hok) Hf) as (_ & [a k] & Hc & Hptr).
  assert (length l1 < length nodes)%nat as Hlt by (by eapply lookup_lt_Some).
  exists a, (next_ix nodes (length l1)).
  assert (searching h nodes live (h_freep h) a (next_ix nodes (length l1))) as Hse.
  { split; [done|]. by eexists _, j, k. }
  destruct Hbig as [Hj|(c & l3 & Hl2 & Hc3)].
  - exists (length l1). split_and!; [done|done|]. by exists (h_freep h), j, (length l1), j.
  - assert (nodes !! S (length l1) = Some c) as Hc'.
    { rewrite Heq, Hl2, lookup_app_r by lia. replace (S (length l1) - length l1)%nat with 1%nat by lia. done. }
    assert (next_ix nodes (length l1) = S (length l1)) as Hix.
    { unfold next_ix. rewrite decide_True; [done|]. by eapply lookup_lt_Some. }
    exists (S (length l1)). split_and!; [done|done|]. destruct c as [c1 c2].
    exists c1, c2, (length l1), j. split_and!; [done|done|done|].
    rewrite Hix. unfold dist at 1. rewrite decide_True by lia. lia.
Qed.

(** The loop invariant: nothing has changed since the call, or the break has
    moved and a large enough block lies ahead. *)
Definition malloc_inv (live : list block) (nunits : Z) (fuel : nat) (h0 : heap W)
    (n : nat) (x : Z * Z) (h : heap W) : Prop :=
  keeps live h0 h /\
  exists nodes kp, searching h nodes live (fst x) (snd x) kp /\
    ((exists kf i, nodes !! kf = Some (h_freep h, i) /\ (length nodes + 2 < fuel)%nat /\
        n = (dist nodes kp kf + length nodes + 3)%nat) \/
     (exists g, big_ahead h nodes kp nunits g /\ n = dist nodes kp g)).

Lemma malloc_loop_wp `{!SbrkLaw sbrk brk} live nunits fuel h0 n x h :
  1 <= nunits -> HDR * nunits < 2 ^ 31 -> (n < fuel)%nat ->
  malloc_inv live nunits fuel h0 n x h ->
  wp (loop fuel (malloc_body sbrk base fuel nunits) x) (malloc_post live nunits h0) h.
Proof.
  intros Hn Hn31 Hfuel HI. eapply (wp_loop _ _ (malloc_inv live nunits fuel h0)); [|exact HI|done].
  clear HI Hfuel h x n. intros n [q p] h (Hkeep & nodes & kp & Hse & Hcase). cbn [fst snd] in *.
  unfold malloc_body, get_size, get_ptr. do 2 wp_step.
  destruct (Z.leb_spec nunits (rd64 (h_mem h) (p + 8))) as [Hle|Hgt].
  { wp_step. eapply wp_mono; [by eapply searching_take|].
    intros r h' (nodes' & Hok' & Hk' & Hr). wp_step.
    exists nodes'. split; [by eapply keeps_trans|]. right. done. }
  pose proof Hse as [Hok (kq & i & np & Hq & Hkp & Hp)].
  destruct (searching_next _ _ _ _ _ _ Hse) as (c & Hc & Hse').
  destruct (links_at _ _ _ _ _ (ho_links _ _ _ _ _ Hok) (ho_head _ _ _ _ _ Hok) Hp) as (Hsz & _).
  assert (kp < length nodes)%nat as Hkplt by (by eapply lookup_lt_Some).
  do 2 wp_step. destruct (Z.eqb_spec p (h_freep h)) as [Hpf|Hpf].
  - destruct Hcase as [(kf & j & Hkf & Hfuel & ->)|(g & (a & k & kf & j & Hg & Hk & Hkf & Hd) & ->)].
    2: { exfalso. rewrite <- Hpf in Hkf.
         pose proof (ascending_inj _ _ _ _ _ _ (proj1 (ho_shape _ _ _ _ _ Hok)) Hp Hkf) as <-.
         pose proof (lookup_lt_Some _ _ _ Hg). unfold dist in Hd. rewrite (decide_True (P := (kp <= kp)%nat)) in Hd by lia.
         assert (g = kp) as -> by (case_decide; lia).
         rewrite Hp in Hg. injection Hg as -> ->. lia. }
    wp_step. eapply wp_mono; [apply (morecore_wp h nodes live); [done|done|done|lia]|].
    intros r h' [(-> & Hok' & Hk')|(-> & Hr & nodes' & Hok' & Hk' & Hfound & Hlen)].
    { rewrite Z.eqb_refl. apply wp_ret. exists nodes. split; [by eapply keeps_trans|]. by left. }
    rewrite (proj2 (Z.eqb_neq _ 0)) by done. wp_steps.
    destruct (found_ahead _ _ _ _ Hok' Hfound) as (q' & kp' & g & Hq' & Hse2 & Hbig). rewrite Hq'.
    pose proof Hbig as (a & k & kf' & j' & Hg & Hk & Hkf' & Hd).
    exists (dist nodes' kp' g). split.
    2: { split; [by eapply keeps_trans|]. exists nodes', kp'. split; [done|]. right. by exists g. }
    pose proof (lookup_lt_Some _ _ _ Hkf').
    destruct Hse2 as [_ (_ & _ & ? & _ & _ & Hkp')]. pose proof (lookup_lt_Some _ _ _ Hkp').
    assert (dist nodes' kp' kf' < length nodes')%nat by (unfold dist; case_decide; lia). lia.
  - do 3 wp_step. rewrite Hc.
    assert (forall kf j, nodes !! kf = Some (h_freep h, j) -> kp <> kf) as Hne.
    { intros kf j Hkf ->. rewrite Hp in Hkf. congruence. }
    destruct Hcase as [(kf & j & Hkf & Hfuel & ->)|(g & Hbig & ->)].
    + pose proof (dist_next nodes kp kf Hkplt (lookup_lt_Some _ _ _ Hkf) (Hne _ _ Hkf)).
      eexists. split; [|split; [done|]; exists nodes, (next_ix nodes kp); split; [done|]; left; by exists kf, j].
      lia.
    + destruct Hbig as (a & k & kf & j & Hg & Hk & Hkf & Hd).
      assert (kp <> g) as Hkg by (intros ->; rewrite Hp in Hg; injection Hg as -> ->; lia).
      pose proof (dist_next nodes kp kf Hkplt (lookup_lt_Some _ _ _ Hkf) (Hne _ _ Hkf)).
      pose proof (dist_next nodes kp g Hkplt (lookup_lt_Some _ _ _ Hg) Hkg).
      eexists. split; [|split; [done|]; exists nodes, (next_ix nodes kp); split; [done|]; right; exists g; split; [|done]].
      * lia.
      * exists a, k, kf, j. split_and!; try done. lia.
Qed.
End malloc.

Section api.
Context {W : Type} (sbrk : Z -> W -> Z * W) (base : Z) (brk : W -> Z).

Lemma init_base_wp (h : heap W) :
  heap_fresh base brk h ->
  wp (init_base base) (fun _ h' => heap_ok base brk h' [(base, 0)] [] /\ h_freep h' = base) h.
Proof.
  intros (Hf & Hb & Hbrk). unfold init_base, set_freep, set_ptr, set_size. wp_steps.
  unfold HDR in Hbrk. cbn [h_mem h_freep h_sys set_mem].
  split; [|done]. constructor; cbn [h_mem h_freep h_sys set_mem]; try done.
  - cbn. rewrite rd64_wr64_eq, rd64_wr64_ne, rd64_wr64_eq, (u64_id base) by lia. done.
  - cbn. by left.
  - constructor.
  - split; [cbn; by repeat constructor|]. split; [cbn; by repeat constructor|].
    cbn [app]. repeat constructor; unfold span_end, HDR; cbn [fst snd]; lia.
  - lia.
Qed.

Lemma malloc_units_bounds nbytes :
  0 <= nbytes <= 2 ^ 30 ->
  1 <= malloc_units nbytes /\ nbytes + HDR <= HDR * malloc_units nbytes /\ HDR * malloc_units nbytes < 2 ^ 31.
Proof.
  intros Hn. unfold malloc_units. set (k := if nbytes =? 0 then 1 else nbytes).
  assert (nbytes <= k /\ 1 <= k <= 2 ^ 30) as (Hk1 & Hk2) by (subst k; destruct (Z.eqb_spec nbytes 0); lia).
  unfold HDR. rewrite (u64_id (k + 16 - 1)) by lia.
  pose proof (Z.div_mod (k + 16 - 1) 16 ltac:(lia)). pose proof (Z.mod_pos_bound (k + 16 - 1) 16 ltac:(lia)).
  rewrite u64_id by lia. lia.
Qed.

(** The places [malloc] starts from. *)
Lemma malloc_start_wp `{!SbrkLaw sbrk brk} (h : heap W) nodes live nunits fuel :
  heap_ok base brk h nodes live -> 1 <= nunits -> HDR * nunits < 2 ^ 31 ->
  (2 * length nodes + 2 < fuel)%nat ->
  wp (let! prevp := gets h_freep in
      let! p := get_ptr prevp in
      loop fuel (malloc_body sbrk base fuel nunits) (prevp, p)) (malloc_post base brk live nunits h) h.
Proof.
  intros Hok Hn Hn31 Hfuel. unfold get_ptr. do 4 wp_step.
  destruct (freep_at _ _ _ _ _ Hok) as (kf & n & Hkf).
  destruct (links_at base _ _ _ _ _ (ho_links _ _ _ _ _ Hok) (ho_head _ _ _ _ _ Hok) Hkf) as (_ & [a k] & Hc & ->).
  pose proof (lookup_lt_Some _ _ _ Hkf) as Hlt. pose proof (dist_next_self nodes kf Hlt) as Hd.
  apply (malloc_loop_wp sbrk base brk live nunits fuel h
           (dist nodes (next_ix nodes kf) kf + length nodes + 3)%nat); [done|done|lia|].
  split; [done|]. exists nodes, (next_ix nodes kf). split.
  - split; [done|]. by eexists kf, n, k.
  - left. exists kf, n. split_and!; [done|lia|reflexivity].
Qed.

(** C19: For a request of at most 2^30 bytes [malloc] terminates and is safe: from
    a well-formed heap it returns 0 or a block that is apart from every block the
    program holds, has room for [nbytes] bytes, and is held from now on; the heap
    stays well-formed, and no byte of a held block changes.  Two rounds of the
    free list, and a few steps, are enough.  Nothing is promised for larger
    requests, and for the largest it is false: [malloc_units_wraps] gives the
    largest request a block without room for one byte. *)
Theorem malloc_safe `{!SbrkLaw sbrk brk} (h : heap W) nodes live nbytes fuel :
  heap_inv base brk h nodes live -> 0 <= nbytes <= 2 ^ 30 -> (2 * length nodes + 2 < fuel)%nat ->
  wp (malloc sbrk base fuel nbytes) (fun r h' => keeps live h h' /\ exists nodes',
    (r = 0 /\ heap_inv base brk h' nodes' live) \/
    exists b, fst b + HDR = r /\ r <> 0 /\ r + nbytes <= span_end b /\ Forall (apart b) live /\
      heap_inv base brk h' nodes' (b :: live)) h.
Proof.
  intros Hinv Hnb Hfuel. destruct (malloc_units_bounds nbytes Hnb) as (Hn & Hroom & Hn31).
  assert (Hpost : forall h1 r h', keeps live h h1 -> malloc_post base brk live (malloc_units nbytes) h1 r h' ->
    keeps live h h' /\ exists nodes',
    (r = 0 /\ heap_inv base brk h' nodes' live) \/
    exists b, fst b + HDR = r /\ r <> 0 /\ r + nbytes <= span_end b /\ Forall (apart b) live /\
      heap_inv base brk h' nodes' (b :: live)).
  { intros h1 r h' Hk (nodes' & Hk' & Hr). split; [by eapply keeps_trans|]. exists nodes'.
    destruct Hr as [[-> Hok]|[Hr Hok]]; [left; split; [done|by left]|right].
    exists (r - HDR, malloc_units nbytes). unfold span_end, HDR in *. cbn [fst snd].
    split_and!; [lia|lia|lia| |by left].
    destruct (ho_shape _ _ _ _ _ Hok) as (_ & Hs & _). apply separate_app in Hs as (_ & Hs & _).
    by destruct Hs. }
  unfold malloc. wp_step. wp_step.
  destruct Hinv as [Hok|(Hfresh & -> & ->)].
  - assert (h_freep h <> 0) as Hf0.
    { destruct Hok as [Hb _ _ Hf _ (_ & _ & Hr) _]. apply Forall_app in Hr as [Hr _].
      apply list_elem_of_fmap in Hf as (c & -> & Hc). rewrite Forall_forall in Hr. destruct (Hr c Hc). lia. }
    wp_step. apply wp_when; [intros H0; apply Z.eqb_eq in H0; done|intros _].
    eapply wp_mono; [by eapply malloc_start_wp|]. intros r h'. by apply Hpost.
  - wp_step. rewrite (proj1 Hfresh). cbn [Z.eqb when].
    eapply wp_mono; [by apply init_base_wp|]. intros _ h1 [Hok _].
    eapply wp_mono; [by eapply malloc_start_wp|]. intros r h'. apply Hpost. by intros b x ?%elem_of_nil.
Qed.

(** C20: [free] takes back a block the program holds: it terminates, the block
    is no longer held, the heap stays well-formed and no byte of the other
    held blocks changes. *)
Theorem free_safe (h : heap W) nodes b live fuel :
  heap_inv base brk h nodes (b :: live) -> (length nodes < fuel)%nat ->
  wp (free base fuel (fst b + HDR)) (fun _ h' => keeps live h h' /\ exists nodes',
    heap_inv base brk h' nodes' live) h.
Proof.
  intros [Hok|(_ & _ & ?)] Hfuel; [|done].
  eapply wp_mono; [by apply free_wp|]. intros _ h' (nodes' & Hok' & Hk & _).
  split; [done|]. exists nodes'. by left.
Qed.
End api.

(* ------------------------------------------------------------------ *)
(** ** Instances *)

Lemma sample_sbrk_law : SbrkLaw sample_sbrk id.
Proof.
  intros inc w Hinc. unfold sample_sbrk. destruct (Z.leb_spec (w + inc) 1048576); cbn; [right; lia|by left].
Qed.

Lemma malloc_safe_witness :
  heap_inv 4096 id sample_heap [(4096, 0)] [] /\
  wp (malloc sample_sbrk 4096 10 100) (fun r h' => keeps [] sample_heap h' /\ exists nodes',
    (r = 0 /\ heap_inv 4096 id h' nodes' []) \/
    exists b, fst b + HDR = r /\ r <> 0 /\ r + 100 <= span_end b /\ Forall (apart b) [] /\
      heap_inv 4096 id h' nodes' [b]) sample_heap.
Proof.
  assert (heap_inv 4096 id sample_heap [(4096, 0)] []) as Hinv.
  { right. split; [|done]. unfold heap_fresh, id, HDR. cbn [sample_heap h_freep h_sys]. lia. }
  split; [exact Hinv|].
  exact (@malloc_safe Z sample_sbrk 4096 id sample_sbrk_law sample_heap [(4096, 0)] [] 100 10 Hinv
           ltac:(lia) ltac:(cbn; lia)).
Defined.

(** The heap after that call: one held block, cut off the end of the first
    piece of memory. *)
Definition sample_used : heap Z :=
  match malloc sample_sbrk 4096 10 100 sample_heap with Ok _ h => h | _ => sample_heap end.
#[local] Opaque sample_used.
Lemma sample_used_ok : heap_ok 4096 id sample_used [(4096, 0); (8192, 1016)] [(24448, 8)].
Proof.
  assert (h_freep sample_used = 4096 /\ h_sys sample_used = 24576) as [Hf Hs] by (vm_compute; split; reflexivity).
  constructor; rewrite ?Hf, ?Hs.
  - lia.
  - reflexivity.
  - cbn [links head_addr fst snd]. split_and!; vm_compute; first [exact I|reflexivity].
  - cbn. by left.
  - constructor; [|constructor]. cbn [fst snd]. split; [lia|]. vm_compute. reflexivity.
  - split; [cbn [ascending]; rewrite !Forall_cons, !Forall_nil; cbn [fst snd]; split_and!; first [exact I|lia]|]. split.
    + cbn [separate app]. rewrite !Forall_cons, !Forall_nil. unfold apart, span_end, HDR. cbn [fst snd].
      split_and!; first [exact I|lia].
    + cbn [app]. rewrite !Forall_cons, Forall_nil. unfold span_end, HDR, id. cbn [fst snd].
      split_and!; first [exact I|lia].
  - unfold id. lia.
Qed.

Lemma free_safe_witness :
  wp (free 4096 10 24464) (fun _ h' => keeps [] sample_used h' /\ exists nodes',
    heap_inv 4096 id h' nodes' []) sample_used.
Proof.
  exact (free_safe 4096 id sample_used [(4096, 0); (8192, 1016)] (24448, 8) [] 10
           (or_introl sample_used_ok) ltac:(cbn; lia)).
Defined.

(** Two blocks, one given back, and its space used again. *)
Example malloc_ex :
  match (let! a := malloc sample_sbrk 4096 10 100 in
         let! b := malloc sample_sbrk 4096 10 200 in
         free 4096 10 a ;;;
         let! c := malloc sample_sbrk 4096 10 90 in
         ret (a, b, c)) sample_heap with
  | Ok r h => Some (r, h_sys h)
  | _ => None
  end = Some ((24464, 24240, 24480), 24576).
Proof. vm_compute. reflexivity. Qed.

(** [malloc(SIZE_MAX)] looks for one unit: the size wraps. *)
Lemma malloc_units_wraps : malloc_units 18446744073709551615 = 1.
Proof. reflexivity. Qed.
