(* ===== verification/LibcEnv.v ===== *)
(** The environment of the user library, [src/ports/myos/libc.c]:
    [__myos_init_environ], [getenv], [setenv], [unsetenv], [putenv].

    [environ] is the array [env_store]; an entry is the string it points to,
    or [None] for the null pointer.  The entries [setenv] makes are also
    written to the block [malloc] returned for them. *)

From S2P Require Import Prelude Memory LibcStr LibcHeap.

Definition ENV_MAX : nat := 32.

(** The heap, [env_store] and [errno_value]. *)
Record env_st (W : Type) := EnvSt {
  e_heap : heap W;
  e_store : list (option (list Z));
  e_errno : Z;
}.
Arguments EnvSt {W}.
Arguments e_heap {W}.
Arguments e_store {W}.
Arguments e_errno {W}.

(** The copy loop of [__myos_init_environ]; [i] entries are copied. *)
Fixpoint init_environ_loop (store envp : list (option (list Z))) (i n : nat) : list (option (list Z)) :=
  match n with
  | O => <[i := None]> store
  | S n' =>
      match envp with
      | Some e :: envp' => init_environ_loop (<[i := Some e]> store) envp' (S i) n'
      | _ => <[i := None]> store
      end
  end.
Definition init_environ (store : list (option (list Z))) (envp : option (list (option (list Z)))) :
    list (option (list Z)) :=
  init_environ_loop store (default [] envp) 0 (ENV_MAX - 1).

(** [!name || name[0] == '\0' || strchr(name, '=')] *)
Definition bad_name (name : option (list Z)) : bool :=
  match name with
  | None => true
  | Some name => (char0 name =? 0) || match strchr name 61 with Some _ => true | None => false end
  end.

(** [strncmp(e, name, name_len) == 0 && e[name_len] == '='] *)
Definition entry_matches (name : list Z) (name_len : nat) (e : list Z) : bool :=
  (strncmp e name name_len =? 0) && (zget e (Z.of_nat name_len) =? 61).

(** The index of the first entry of a name; the loops end at the null pointer. *)
Fixpoint find_entry (store : list (option (list Z))) (name : list Z) (name_len i : nat) : option nat :=
  match store with
  | Some e :: store' => if entry_matches name name_len e then Some i else find_entry store' name name_len (S i)
  | _ => None
  end.
(** [for (i = 0; i < ENV_MAX - 1; i++) if (!environ[i])] *)
Fixpoint find_null (store : list (option (list Z))) (i n : nat) : option nat :=
  match n with
  | O => None
  | S n' =>
      match store with
      | Some _ :: store' => find_null store' (S i) n'
      | _ => Some i
      end
  end.

Definition getenv (store : list (option (list Z))) (name : option (list Z)) : option (list Z) :=
  match name with
  | Some name =>
      if bad_name (Some name) then None
      else
        let name_len := Z.to_nat (strlen (Some name)) in
        match find_entry store name name_len 0 with
        | Some i => drop (name_len + 1) <$> mjoin (store !! i)
        | None => None
        end
  | None => None
  end.

(** [for (j = i; environ[j]; j++) environ[j] = environ[j + 1];] *)
Fixpoint shift_down (store : list (option (list Z))) (j n : nat) : list (option (list Z)) :=
  match n with
  | O => store
  | S n' =>
      match mjoin (store !! j) with
      | Some _ => shift_down (<[j := mjoin (store !! S j)]> store) (S j) n'
      | None => store
      end
  end.
(** The loop of [unsetenv] from entry [i]; every round moves [i] up or one
    entry out, so that the length of the array is enough fuel. *)
Fixpoint unset_loop (fuel : nat) (store : list (option (list Z))) (name : list Z) (name_len i : nat) :
    list (option (list Z)) :=
  match fuel with
  | O => store
  | S f =>
      match mjoin (store !! i) with
      | None => store
      | Some e =>
          if entry_matches name name_len e
          then unset_loop f (shift_down store i (length store)) name name_len i
          else unset_loop f store name name_len (S i)
      end
  end.

Section env.
Context {W : Type} (sbrk : Z -> W -> Z * W) (base : Z) (fuel : nat).

Abbreviation EM := (M (env_st W)).

Definition set_errno (v : Z) : EM unit := modify (fun s => EnvSt (e_heap s) (e_store s) v).
Definition set_entry (i : nat) (e : option (list Z)) : EM unit :=
  modify (fun s => EnvSt (e_heap s) (<[i := e]> (e_store s)) (e_errno s)).
Definition on_heap {A} (m : M (heap W) A) : EM A :=
  zoom e_heap (fun h s => EnvSt h (e_store s) (e_errno s)) m.

(** [entry = malloc(name_len + value_len + 2)] and the copies into it. *)
Definition make_entry (name value : list Z) : EM (option (list Z)) :=
  let name_len := strlen (Some name) in
  let value_len := strlen (Some value) in
  let! p := on_heap (malloc sbrk base fuel (u64 (name_len + value_len + 2))) in
  if p =? 0 then ret None
  else
    let entry := take (Z.to_nat name_len) name ++ 61 :: take (Z.to_nat value_len) value ++ [0] in
    on_heap (modify (fun h => LibcHeap.set_mem (store_bytes (h_mem h) p entry) h)) ;;;
    ret (Some entry).

Definition setenv (name value : option (list Z)) (overwrite : Z) : EM Z :=
  if bad_name name then set_errno 22 ;;; ret (-1)
  else
    let name := default [] name in
    let value := default [] value in
    let name_len := Z.to_nat (strlen (Some name)) in
    let! store := gets e_store in
    match find_entry store name name_len 0 with
    | Some i =>
        if overwrite =? 0 then ret 0
        else
          let! entry := make_entry name value in
          match entry with
          | None => set_errno 12 ;;; ret (-1)
          | Some _ => set_entry i entry ;;; ret 0
          end
    | None =>
        match find_null store 0 (ENV_MAX - 1) with
        | Some i =>
            let! entry := make_entry name value in
            match entry with
            | None => set_errno 12 ;;; ret (-1)
            | Some _ => set_entry i entry ;;; set_entry (S i) None ;;; ret 0
            end
        | None => set_errno 12 ;;; ret (-1)
        end
    end.

Definition unsetenv (name : option (list Z)) : EM Z :=
  if bad_name name then set_errno 22 ;;; ret (-1)
  else
    let name := default [] name in
    modify (fun s =>
      EnvSt (e_heap s)
        (unset_loop (length (e_store s)) (e_store s) name (Z.to_nat (strlen (Some name))) 0)
        (e_errno s)) ;;;
    ret 0.

(** The caller's string becomes the entry. *)
Definition putenv (string : option (list Z)) : EM Z :=
  let string := default [] string in
  match strchr string 61 with
  | None => set_errno 22 ;;; ret (-1)
  | Some eq =>
      if eq =? 0 then set_errno 22 ;;; ret (-1)
      else
        let name_len := Z.to_nat eq in
        let! store := gets e_store in
        match find_entry store string name_len 0 with
        | Some i => set_entry i (Some string) ;;; ret 0
        | None =>
            match find_null store 0 (ENV_MAX - 1) with
            | Some i => set_entry i (Some string) ;;; set_entry (S i) None ;;; ret 0
            | None => set_errno 12 ;;; ret (-1)
            end
        end
  end.
End env.
