(* ===== verification/LibcEnvSpec.v ===== *)
(** The environment is a list of [name=value] strings: [getenv] looks a name
    up, [setenv] replaces or appends an entry, [unsetenv] removes the entries
    of a name; so [getenv] finds what [setenv] stored and other names keep
    their values. *)

From S2P Require Import Prelude Memory LibcStr LibcHeap LibcEnv.

(* ------------------------------------------------------------------ *)
(** ** Names and entries *)

(** A name without NUL and ['=']. *)
Definition name_ok (nm : list Z) : Prop := nm <> [] /\ Forall (fun c => c <> 0 /\ c <> 61) nm.
Definition no_nul (s : list Z) : Prop := Forall (fun c => c <> 0) s.
(** The C string of a text. *)
Definition cstring (s : list Z) : list Z := s ++ [0].
Definition entry_of (nm val : list Z) : list Z := nm ++ 61 :: cstring val.

Lemma name_no_nul nm : name_ok nm -> no_nul nm.
Proof. intros [_ H]. eapply Forall_impl; [exact H|]. by intros c [? _]. Qed.

Lemma strlen_cstring s : no_nul s -> strlen (Some (cstring s)) = Z.of_nat (length s).
Proof.
  intros H. cbn. unfold cstring. induction H as [|c s Hc H IH]; cbn [app strlen_loop length]; [done|].
  rewrite (proj2 (Z.eqb_neq c 0)) by done. lia.
Qed.

Lemma strchr_name nm : Forall (fun c => c <> 0 /\ c <> 61) nm -> strchr (cstring nm) 61 = None.
Proof.
  unfold cstring. induction 1 as [|c s [Hc Hc'] H IH]; cbn [app strchr]; [done|].
  rewrite (proj2 (Z.eqb_neq c 0)) by done. change (u8 61) with 61.
  rewrite (proj2 (Z.eqb_neq c 61)) by done. by rewrite IH.
Qed.
Lemma bad_name_ok nm : name_ok nm -> bad_name (Some (cstring nm)) = false.
Proof.
  intros [Hne H]. cbn [bad_name]. rewrite strchr_name by done. rewrite orb_false_r.
  destruct nm as [|c nm]; [done|]. apply Forall_cons in H as [[Hc _] _]. by apply Z.eqb_neq.
Qed.

Lemma strncmp_prefix e nm t :
  no_nul nm -> strncmp e (nm ++ t) (length nm) = 0 <-> nm `prefix_of` e.
Proof.
  intros H. revert e. induction H as [|c nm Hc H IH]; intros e; cbn [app length strncmp].
  - split; [intros _; apply prefix_nil|done].
  - cbn [char0 hd tl]. destruct e as [|x e]; cbn [char0 hd tl].
    + cbn [Z.eqb negb andb]. split; [lia|]. intros Hp. by apply prefix_nil_inv in Hp.
    + destruct (Z.eqb_spec x 0) as [->|Hx]; cbn [negb andb].
      { split; [lia|]. intros Hp. by apply prefix_cons_inv_1 in Hp. }
      destruct (Z.eqb_spec x c) as [->|Hxc].
      * rewrite IH. split; [apply prefix_cons|apply prefix_cons_inv_2].
      * split; [lia|]. intros Hp. by apply prefix_cons_inv_1 in Hp.
Qed.

(** The entries of a name. *)
Definition entry_for (nm e : list Z) : Prop := nm ++ [61] `prefix_of` e.
#[global] Instance entry_for_dec nm e : Decision (entry_for nm e).
Proof. unfold entry_for. apply _. Defined.

Lemma entry_matches_spec nm e :
  no_nul nm -> entry_matches (cstring nm) (length nm) e = bool_decide (entry_for nm e).
Proof.
  intros Hn. unfold entry_matches, cstring. apply eq_bool_prop_intro.
  rewrite bool_decide_spec, andb_True, !Is_true_true, !Z.eqb_eq, strncmp_prefix by done.
  unfold entry_for, zget. rewrite Nat2Z.id. split.
  - intros [[v ->] H]. rewrite lookup_app_r, Nat.sub_diag in H by lia.
    destruct v as [|x v]; cbn in H; [done|]. subst x. exists v. by rewrite <- app_assoc.
  - intros [v ->]. rewrite <- app_assoc. split; [by eexists|].
    rewrite lookup_app_r, Nat.sub_diag by lia. done.
Qed.
Lemma entry_for_entry_of nm val : entry_for nm (entry_of nm val).
Proof. exists (cstring val). unfold entry_of. by rewrite <- app_assoc. Qed.
(** An entry has one name. *)
Lemma entry_for_inj nm nm' e : name_ok nm -> name_ok nm' -> entry_for nm e -> entry_for nm' e -> nm = nm'.
Proof.
  intros [_ H] [_ H'] [v ->] [v' Heq]. rewrite <- !app_assoc in Heq. cbn in Heq.
  revert nm' H' Heq. induction H as [|c nm [_ Hc] H IH]; intros [|c' nm'] H' Heq; cbn in Heq.
  - done.
  - apply Forall_cons in H' as [[_ Hc'] _]. simplify_eq.
  - simplify_eq.
  - apply Forall_cons in H' as [_ H']. injection Heq as -> Heq. f_equal. eauto.
Qed.

(* ------------------------------------------------------------------ *)
(** ** The list of entries *)

Fixpoint env_list (store : list (option (list Z))) : list (list Z) :=
  match store with
  | Some e :: store' => e :: env_list store'
  | _ => []
  end.

Definition env_lookup (nm : list Z) (l : list (list Z)) : option (list Z) :=
  drop (length nm + 1) <$> (snd <$> list_find (entry_for nm) l).
Definition env_set (nm val : list Z) (l : list (list Z)) : list (list Z) :=
  match list_find (entry_for nm) l with
  | Some (i, _) => <[i := entry_of nm val]> l
  | None => l ++ [entry_of nm val]
  end.
Definition env_unset (nm : list Z) (l : list (list Z)) : list (list Z) :=
  filter (fun e => ~ entry_for nm e) l.

Lemma find_entry_list store nm k :
  no_nul nm ->
  find_entry store (cstring nm) (length nm) k =
    (fun p => (k + fst p)%nat) <$> list_find (entry_for nm) (env_list store).
Proof.
  intros Hn. revert k. induction store as [|[e|] store IH]; intros k; cbn [find_entry env_list list_find]; try done.
  rewrite entry_matches_spec by done. case_bool_decide as He.
  - rewrite decide_True by done. cbn. f_equal. lia.
  - rewrite decide_False by done. rewrite IH.
    destruct (list_find (entry_for nm) (env_list store)) as [[i x]|]; cbn; [|done]. f_equal. lia.
Qed.

Lemma env_list_lookup store i e : env_list store !! i = Some e -> store !! i = Some (Some e).
Proof.
  revert i. induction store as [|[x|] store IH]; intros [|i]; cbn; try done; [congruence|apply IH].
Qed.

Lemma getenv_lookup store nm :
  name_ok nm -> getenv store (Some (cstring nm)) = env_lookup nm (env_list store).
Proof.
  intros Hnm. pose proof (name_no_nul nm Hnm) as Hn. unfold getenv. rewrite bad_name_ok by done.
  rewrite strlen_cstring, Nat2Z.id, find_entry_list by done. unfold env_lookup.
  destruct (list_find (entry_for nm) (env_list store)) as [[i e]|] eqn:Hf; cbn; [|done].
  apply list_find_Some in Hf as (Hi & _). by rewrite (env_list_lookup _ _ _ Hi).
Qed.

(* ------------------------------------------------------------------ *)
(** ** The list laws *)

Lemma env_lookup_set nm val l : env_lookup nm (env_set nm val l) = Some (cstring val).
Proof.
  assert (drop (length nm + 1) (entry_of nm val) = cstring val) as Hd.
  { unfold entry_of. rewrite (cons_middle 61), app_assoc.
    replace (length nm + 1)%nat with (length (nm ++ [61])) by (rewrite length_app; done).
    apply drop_app_length. }
  unfold env_lookup, env_set. destruct (list_find (entry_for nm) l) as [[i e]|] eqn:Hf.
  - apply list_find_Some in Hf as (Hi & _ & Hmin).
    assert (list_find (entry_for nm) (<[i:=entry_of nm val]> l) = Some (i, entry_of nm val)) as ->.
    { apply list_find_Some. split_and!.
      - apply list_lookup_insert_eq. by eapply lookup_lt_Some.
      - apply entry_for_entry_of.
      - intros j y Hj Hlt. rewrite list_lookup_insert_ne in Hj by lia. by eapply Hmin. }
    cbn. by rewrite Hd.
  - rewrite list_find_app_r by done. cbn [list_find].
    rewrite decide_True by apply entry_for_entry_of. cbn. by rewrite Hd.
Qed.

(** A change among the entries that are not for [nm']. *)
Lemma env_lookup_set_ne nm nm' val l :
  name_ok nm -> name_ok nm' -> nm' <> nm -> env_lookup nm' (env_set nm val l) = env_lookup nm' l.
Proof.
  intros Hnm Hnm' Hne. unfold env_lookup, env_set.
  assert (forall e, entry_for nm e -> ~ entry_for nm' e) as Hno.
  { intros e H1 H2. apply Hne. by eapply entry_for_inj. }
  pose proof (Hno _ (entry_for_entry_of nm val)) as Hnew.
  f_equal. destruct (list_find (entry_for nm) l) as [[i e]|] eqn:Hf.
  - apply list_find_Some in Hf as (Hi & He & _).
    rewrite <- (take_drop_middle l i e Hi) at 2. rewrite insert_take_drop by (by eapply lookup_lt_Some).
    induction (take i l) as [|x k IH]; cbn [app list_find].
    + rewrite !decide_False by auto. by destruct (list_find _ _) as [[]|].
    + case_decide; [done|].
      destruct (list_find (entry_for nm') (k ++ entry_of nm val :: _)) as [[]|],
        (list_find (entry_for nm') (k ++ e :: _)) as [[]|]; cbn in *; congruence.
  - clear Hf. induction l as [|x l IH]; cbn [app list_find]; [by rewrite decide_False|].
    case_decide; [done|].
    destruct (list_find (entry_for nm') (l ++ _)) as [[]|], (list_find (entry_for nm') l) as [[]|];
      cbn in *; congruence.
Qed.

Lemma env_lookup_unset nm l : env_lookup nm (env_unset nm l) = None.
Proof.
  unfold env_lookup, env_unset. assert (list_find (entry_for nm) (filter (fun e => ~ entry_for nm e) l) = None) as ->; [|done].
  apply list_find_None, Forall_forall. intros e. rewrite list_elem_of_filter. tauto.
Qed.
Lemma env_lookup_unset_ne nm nm' l :
  name_ok nm -> name_ok nm' -> nm' <> nm -> env_lookup nm' (env_unset nm l) = env_lookup nm' l.
Proof.
  intros Hnm Hnm' Hne. unfold env_lookup, env_unset. f_equal.
  induction l as [|e l IH]; [done|]. rewrite filter_cons. case_decide as He; cbn [list_find].
  - case_decide; [done|]. cbn in IH.
    destruct (list_find (entry_for nm') (filter _ l)) as [[]|], (list_find (entry_for nm') l) as [[]|];
      cbn in *; congruence.
  - rewrite decide_False by (intros H'; apply Hne; by eapply entry_for_inj).
    rewrite IH. by destruct (list_find (entry_for nm') l) as [[]|].
Qed.

(* ------------------------------------------------------------------ *)
(** ** setenv and unsetenv on the list *)

Lemma env_list_set store i e :
  (i < length (env_list store))%nat -> env_list (<[i := Some e]> store) = <[i := e]> (env_list store).
Proof.
  revert i. induction store as [|[x|] store IH]; intros [|i]; cbn; intros H; try lia; [done|].
  f_equal. apply IH. lia.
Qed.
Lemma env_list_append store e :
  (length (env_list store) < length store)%nat ->
  env_list (<[S (length (env_list store)) := None]> (<[length (env_list store) := Some e]> store))
    = env_list store ++ [e].
Proof.
  induction store as [|[x|] store IH]; cbn; intros H; [lia| |].
  - f_equal. apply IH. lia.
  - by destruct store as [|y store].
Qed.
Lemma find_null_list store n k :
  (n <= length store)%nat ->
  find_null store k n =
    if decide (length (env_list store) < n)%nat then Some (k + length (env_list store))%nat else None.
Proof.
  revert store k. induction n as [|n IH]; intros store k Hn.
  { rewrite decide_False by lia. by destruct store as [|[]]. }
  destruct store as [|[x|] store]; cbn [length env_list find_null] in *.
  - lia.
  - rewrite IH by lia. repeat case_decide; try lia; [f_equal; lia|done].
  - rewrite decide_True by lia. f_equal. lia.
Qed.

Lemma take_cstring s : no_nul s -> take (Z.to_nat (strlen (Some (cstring s)))) (cstring s) = s.
Proof. intros H. rewrite strlen_cstring, Nat2Z.id by done. unfold cstring. apply take_app_length. Qed.

Section setenv.
Context {W : Type} (sbrk : Z -> W -> Z * W) (base : Z) (fuel : nat).

(** The entry [setenv] allocates. *)
Lemma make_entry_eq (s : env_st W) nm val p h1 :
  name_ok nm -> no_nul val ->
  malloc sbrk base fuel (u64 (Z.of_nat (length nm) + Z.of_nat (length val) + 2)) (e_heap s) = Ok p h1 ->
  p <> 0 ->
  exists h2, make_entry sbrk base fuel (cstring nm) (cstring val) s
    = Ok (Some (entry_of nm val)) (EnvSt h2 (e_store s) (e_errno s)).
Proof.
  intros Hnm Hval Hm Hp. unfold make_entry.
  rewrite !take_cstring, !strlen_cstring by (done || by apply name_no_nul).
  unfold bind, on_heap, zoom. rewrite Hm. rewrite (proj2 (Z.eqb_neq p 0)) by done.
  eexists. reflexivity.
Qed.

Lemma setenv_list (s : env_st W) nm val p h1 :
  name_ok nm -> no_nul val -> length (e_store s) = ENV_MAX ->
  (is_Some (list_find (entry_for nm) (env_list (e_store s))) \/ length (env_list (e_store s)) < ENV_MAX - 1)%nat ->
  malloc sbrk base fuel (u64 (Z.of_nat (length nm) + Z.of_nat (length val) + 2)) (e_heap s) = Ok p h1 ->
  p <> 0 ->
  exists s', setenv sbrk base fuel (Some (cstring nm)) (Some (cstring val)) 1 s = Ok 0 s' /\
    env_list (e_store s') = env_set nm val (env_list (e_store s)).
Proof.
  intros Hnm Hval Hlen Hroom Hm Hp. pose proof (name_no_nul nm Hnm) as Hn.
  destruct (make_entry_eq s nm val p h1 Hnm Hval Hm Hp) as [h2 Hmk].
  unfold setenv. rewrite bad_name_ok by done. cbn [default from_option]. unfold id.
  rewrite strlen_cstring, Nat2Z.id by done. unfold bind at 1, gets.
  rewrite find_entry_list by done. unfold env_set.
  destruct (list_find (entry_for nm) (env_list (e_store s))) as [[i e]|] eqn:Hf; cbn [fmap option_fmap option_map fst Nat.add].
  - cbn [Z.eqb]. rewrite (bind_ok _ _ _ _ _ Hmk). eexists. split; [reflexivity|]. cbn [e_store].
    apply env_list_set. apply list_find_Some in Hf as (Hi & _). by eapply lookup_lt_Some.
  - destruct Hroom as [[? ?]|Hroom]; [done|]. rewrite find_null_list by (rewrite Hlen; unfold ENV_MAX; lia).
    rewrite decide_True by done. rewrite (bind_ok _ _ _ _ _ Hmk). eexists. split; [reflexivity|].
    cbn [e_store]. apply env_list_append. rewrite Hlen. lia.
Qed.
End setenv.

(** The inner loop of [unsetenv] moves the entries behind [j] down. *)
Lemma env_list_shift store j n :
  (length store <= j + n)%nat -> env_list (shift_down store j n) = delete j (env_list store).
Proof.
  revert store j. induction n as [|n IH]; intros store j Hn; cbn [shift_down].
  - symmetry. rewrite list.delete_take_drop.
    assert (length (env_list store) <= length store)%nat.
    { clear. induction store as [|[|] store IH]; cbn; lia. }
    rewrite take_ge, drop_ge by lia. apply app_nil_r.
  - destruct (mjoin (store !! j)) as [e|] eqn:Hj.
    + rewrite IH by (rewrite length_insert; lia). clear IH Hn.
      revert j Hj. induction store as [|[x|] store IH]; intros [|j] Hj; cbn in Hj |- *; try done.
      * injection Hj as ->. destruct store as [|[y|] store]; done.
      * f_equal. by apply IH.
    + clear -Hj. revert j Hj. induction store as [|[x|] store IH]; intros [|j] Hj; cbn in *; try done.
      f_equal. by apply IH.
Qed.

Lemma mjoin_env_list store i : mjoin (store !! i) = None -> (length (env_list store) <= i)%nat.
Proof.
  revert i. induction store as [|[x|] store IH]; intros [|i] H; cbn in *; try done; try lia.
  specialize (IH _ H). lia.
Qed.
Lemma env_list_mjoin store i e :
  (i <= length (env_list store))%nat -> mjoin (store !! i) = Some e -> env_list store !! i = Some e.
Proof.
  revert i. induction store as [|[x|] store IH]; intros [|i] Hi H; cbn in *; try done; try lia.
  apply IH; [lia|done].
Qed.

Lemma env_list_unset fuel store nm i :
  no_nul nm -> (i <= length (env_list store))%nat -> (length (env_list store) - i < fuel)%nat ->
  env_list (unset_loop fuel store (cstring nm) (length nm) i)
    = take i (env_list store) ++ env_unset nm (drop i (env_list store)).
Proof.
  intros Hn. revert store i. induction fuel as [|f IH]; intros store i Hi Hf; [lia|]. cbn [unset_loop].
  destruct (mjoin (store !! i)) as [e|] eqn:Hj.
  - pose proof (env_list_mjoin _ _ _ Hi Hj) as He. pose proof (lookup_lt_Some _ _ _ He) as Hlt.
    rewrite (drop_S _ _ _ He). unfold env_unset. rewrite filter_cons.
    rewrite entry_matches_spec by done. case_bool_decide as Hm.
    + rewrite decide_False by tauto.
      assert (env_list (shift_down store i (length store)) = delete i (env_list store)) as Hsh
        by (apply env_list_shift; lia).
      rewrite IH; rewrite Hsh; [|rewrite list.length_delete; [lia|done]..].
      rewrite list.delete_take_drop, take_app_length', drop_app_length' by (rewrite length_take; lia). done.
    + rewrite decide_True by done. rewrite IH by lia.
      rewrite (take_S_r _ _ _ He), <- app_assoc. done.
  - pose proof (mjoin_env_list _ _ Hj). rewrite take_ge, drop_ge by lia. by rewrite app_nil_r.
Qed.

(** The environment keeps what is put in it: when [malloc] has a block for
    the entry and the array has room, [setenv] succeeds, [getenv] then finds
    the value and finds under every other name what it found before; and after
    [unsetenv], [getenv] finds nothing under the name and the other names keep
    their values. *)
Theorem setenv_getenv {W} (sbrk : Z -> W -> Z * W) base fuel (s : env_st W) nm val p h1 :
  name_ok nm -> no_nul val -> length (e_store s) = ENV_MAX ->
  (length (env_list (e_store s)) < ENV_MAX - 1)%nat ->
  malloc sbrk base fuel (u64 (Z.of_nat (length nm) + Z.of_nat (length val) + 2)) (e_heap s) = Ok p h1 ->
  p <> 0 ->
  (exists s', setenv sbrk base fuel (Some (cstring nm)) (Some (cstring val)) 1 s = Ok 0 s' /\
     getenv (e_store s') (Some (cstring nm)) = Some (cstring val) /\
     forall nm', name_ok nm' -> nm' <> nm ->
       getenv (e_store s') (Some (cstring nm')) = getenv (e_store s) (Some (cstring nm'))) /\
  (exists s', unsetenv (Some (cstring nm)) s = Ok 0 s' /\
     getenv (e_store s') (Some (cstring nm)) = None /\
     forall nm', name_ok nm' -> nm' <> nm ->
       getenv (e_store s') (Some (cstring nm')) = getenv (e_store s) (Some (cstring nm'))).
Proof.
  intros Hnm Hval Hlen Hroom Hm Hp. split.
  - destruct (setenv_list sbrk base fuel s nm val p h1) as (s' & Hs & Hl); try done; [by right|].
    exists s'. split; [done|]. split.
    + by rewrite getenv_lookup, Hl, env_lookup_set.
    + intros nm' Hnm' Hne. by rewrite !getenv_lookup, Hl, env_lookup_set_ne.
  - pose proof (name_no_nul nm Hnm) as Hn. unfold unsetenv. rewrite bad_name_ok by done.
    eexists. split; [reflexivity|]. cbn [e_store default from_option]. unfold id.
    rewrite strlen_cstring, Nat2Z.id by done.
    set (store' := unset_loop _ _ _ _ _).
    assert (env_list store' = env_unset nm (env_list (e_store s))) as Hl.
    { unfold store'. rewrite env_list_unset by (done || lia). by rewrite take_0, drop_0. }
    split.
    + by rewrite getenv_lookup, Hl, env_lookup_unset.
    + intros nm' Hnm' Hne. by rewrite !getenv_lookup, Hl, env_lookup_unset_ne.
Qed.

(** [PATH=/bin] and [HOME=/], then [setenv("HOME", "/root", 1)]. *)
Definition sample_env : env_st Z :=
  EnvSt sample_heap
    (Some (entry_of [80; 65; 84; 72] [47; 98; 105; 110]) :: Some (entry_of [72; 79; 77; 69] [47])
       :: replicate 30 None) 0.
Lemma setenv_getenv_witness :
  exists s', setenv sample_sbrk 4096 10 (Some (cstring [72; 79; 77; 69])) (Some (cstring [47; 114])) 1 sample_env
    = Ok 0 s' /\
  getenv (e_store s') (Some (cstring [72; 79; 77; 69])) = Some (cstring [47; 114]).
Proof.
  destruct (malloc sample_sbrk 4096 10 (u64 (4 + 2 + 2)) sample_heap) as [p h1| |] eqn:Hm;
    [|exfalso; revert Hm; vm_compute; discriminate..].
  assert (p = 24560) as -> by (revert Hm; vm_compute; congruence).
  destruct (setenv_getenv sample_sbrk 4096 10 sample_env [72; 79; 77; 69] [47; 114] 24560 h1)
    as [(s' & Hs & Hg & _) _].
  - split; [done|]. repeat constructor; lia.
  - repeat constructor; lia.
  - reflexivity.
  - cbn. lia.
  - exact Hm.
  - lia.
  - exists s'. split; [exact Hs|exact Hg].
Defined.
