(* ===== verification/Prog.v ===== *)
(** Programs of [src/user]: what a program does is a tree of system calls, in
    which the next call is a function of what the last one returned.  A run puts
    the tree against a kernel. *)

From S2P Require Import Prelude.

(* ------------------------------------------------------------------ *)
(** ** System calls and programs *)

(** [struct stat] of [kernel/include/fs.h]. *)
Record ustat := UStat {
  st_type : Z;
  st_dev : Z;
  st_ino : Z;
  st_nlink : Z;
  st_size : Z;
}.

(** The calls with what the kernel reads at their pointers; the answer of
    [SysRead], [SysWait], [SysPipe], [SysFstat], [SysGetcwd] and [SysIoctl] has
    what it writes there. *)
Inductive sysE : Type -> Type :=
| SysRead (fd n : Z) : sysE (Z * list Z)
| SysWrite (fd : Z) (s : list Z) : sysE Z
| SysFork : sysE Z
| SysExec (path : list Z) (argv : list (list Z)) (env : list (list Z)) : sysE Z
| SysExit (status : Z) : sysE Z
| SysWait : sysE (Z * option Z)
| SysOpen (path : list Z) (flags : Z) : sysE Z
| SysClose (fd : Z) : sysE Z
| SysDup (fd : Z) : sysE Z
| SysPipe : sysE (Z * option (Z * Z))
| SysLseek (fd off whence : Z) : sysE Z
| SysChdir (path : list Z) : sysE Z
| SysFstat (fd : Z) : sysE (Z * option ustat)
| SysUnlink (path : list Z) : sysE Z
| SysMkdir (path : list Z) : sysE Z
| SysFtruncate (fd len : Z) : sysE Z
| SysRename (old new : list Z) : sysE Z
| SysGetcwd (size : Z) : sysE (Z * list Z)
| SysDup2 (old new : Z) : sysE Z
| SysFcntl (fd cmd arg : Z) : sysE Z
| SysIoctl (fd request : Z) : sysE (Z * option Z)
| SysGetpid : sysE Z.

(** [Undef]: undefined behaviour; [Spin]: the fuel of a loop is used up. *)
Inductive prog (A : Type) : Type :=
| Done (a : A)
| Call {X : Type} (e : sysE X) (k : X -> prog A)
| Undef
| Spin.
Arguments Done {A}.
Arguments Call {A X}.
Arguments Undef {A}.
Arguments Spin {A}.

Fixpoint pbind {A B} (p : prog A) (f : A -> prog B) : prog B :=
  match p with
  | Done a => f a
  | Call e k => Call e (fun x => pbind (k x) f)
  | Undef => Undef
  | Spin => Spin
  end.
Definition call {X} (e : sysE X) : prog X := Call e Done.

Declare Scope prog_scope.
Delimit Scope prog_scope with prog.
Notation "'do!' x := c 'in' k" := (pbind c (fun x => k))
  (at level 10, x name, c at level 200, k at level 200) : prog_scope.
Notation "'do!' ' p := c 'in' k" := (pbind c (fun x => match x with p => k end))
  (at level 10, p pattern, c at level 200, k at level 200) : prog_scope.
Notation "c ;;~ k" := (pbind c (fun _ => k)) (at level 199, right associativity) : prog_scope.
Open Scope prog_scope.

(** How a run of a program ends: [Gone], by [exit] or by an [exec] that
    succeeded. *)
Inductive outcome (A : Type) := Returned (a : A) | Gone | Undefined | Spinning.
Arguments Returned {A}.
Arguments Gone {A}.
Arguments Undefined {A}.
Arguments Spinning {A}.
(** A program against a kernel with state [S]; the kernel answers [None] when
    the process is gone. *)
Fixpoint run {S A} (h : forall X, sysE X -> S -> option X * S) (p : prog A) (s : S) : outcome A * S :=
  match p with
  | Done a => (Returned a, s)
  | Call e k =>
      match h _ e s with
      | (Some x, s) => run h (k x) s
      | (None, s) => (Gone, s)
      end
  | Undef => (Undefined, s)
  | Spin => (Spinning, s)
  end.

(* ------------------------------------------------------------------ *)
(** ** Strings *)

(** A C string literal. *)
Fixpoint text (s : string) : list Z :=
  match s with
  | EmptyString => []
  | String a s' => Z.of_nat (Ascii.nat_of_ascii a) :: text s'
  end.

Fixpoint starts_with (s prefix : list Z) : bool :=
  match prefix with
  | [] => true
  | c :: prefix' => match s with x :: s' => (x =? c) && starts_with s' prefix' | [] => false end
  end.

Definition STDIN_FD : Z := 0.
Definition STDOUT_FD : Z := 1.
Definition STDERR_FD : Z := 2.
Definition O_RDONLY : Z := 0.
Definition O_WRONLY : Z := 1.
Definition O_RDWR : Z := 2.
Definition O_CREAT : Z := 512.
Definition O_TRUNC : Z := 1024.

(* ------------------------------------------------------------------ *)
(** ** Runs *)

(** A kernel with state [S] as a process sees it. *)
Definition kernel_of (S : Type) : Type := forall X, sysE X -> S -> option X * S.

Lemma run_pbind {S A B} (h : kernel_of S) (p : prog A) (f : A -> prog B) s :
  run h (pbind p f) s =
    match run h p s with
    | (Returned a, s') => run h (f a) s'
    | (Gone, s') => (Gone, s')
    | (Undefined, s') => (Undefined, s')
    | (Spinning, s') => (Spinning, s')
    end.
Proof.
  revert s. induction p as [a|X e k IH| |]; intros s; cbn; [done| |done|done].
  destruct (h X e s) as [[x|] s']; [apply IH|done].
Qed.
Lemma run_returned {S A B} (h : kernel_of S) (p : prog A) (f : A -> prog B) s a s' :
  run h p s = (Returned a, s') -> run h (pbind p f) s = run h (f a) s'.
Proof. intros H. by rewrite run_pbind, H. Qed.
Lemma run_pbind_inv {S A B} (h : kernel_of S) (p : prog A) (f : A -> prog B) s b s' :
  run h (pbind p f) s = (Returned b, s') ->
  exists a s1, run h p s = (Returned a, s1) /\ run h (f a) s1 = (Returned b, s').
Proof. rewrite run_pbind. destruct (run h p s) as [[a| | |] s1]; [|done..]. by exists a, s1. Qed.
Lemma run_returned2 {S A B C} (h : kernel_of S) (p : prog A) (q : prog B) (f : B -> prog C) s b s' :
  run h (p ;;~ q) s = (Returned b, s') -> run h (p ;;~ do! x := q in f x) s = run h (f b) s'.
Proof.
  rewrite !run_pbind. destruct (run h p s) as [[a| | |] s1]; [|done..]. apply run_returned.
Qed.

Lemma run_assoc {S A B C} (h : kernel_of S) (p : prog A) (f : A -> prog B) (g : B -> prog C) s :
  run h (pbind (pbind p f) g) s = run h (pbind p (fun x => pbind (f x) g)) s.
Proof. rewrite !run_pbind. destruct (run h p s) as [[a| | |] s']; [symmetry; apply run_pbind|done..]. Qed.
Lemma run_pbind_done {S A} (h : kernel_of S) (p : prog A) s : run h (pbind p Done) s = run h p s.
Proof. rewrite run_pbind. by destruct (run h p s) as [[a| | |] s']. Qed.
Lemma run_call {S X B} (h : kernel_of S) (e : sysE X) (f : X -> prog B) s :
  run h (pbind (call e) f) s =
    match h _ e s with (Some x, s') => run h (f x) s' | (None, s') => (Gone, s') end.
Proof. reflexivity. Qed.

(** A kernel that fails a call. *)
Definition deny {X} (e : sysE X) : X :=
  match e in sysE X return X with
  | SysRead _ _ => (-1, [])
  | SysWait => (-1, None)
  | SysPipe => (-1, None)
  | SysFstat _ => (-1, None)
  | SysGetcwd _ => (0, [])
  | SysIoctl _ _ => (-1, None)
  | SysWrite _ _ | SysFork | SysExec _ _ _ | SysExit _ | SysOpen _ _ | SysClose _ | SysDup _
  | SysLseek _ _ _ | SysChdir _ | SysUnlink _ | SysMkdir _
  | SysFtruncate _ _ | SysRename _ _ | SysDup2 _ _ | SysFcntl _ _ _ | SysGetpid => -1
  end.

(** Programs that come to an end without undefined behaviour and programs that do not return, for a
    kernel in which [exit] ends the process. *)
Section ends.
Context {S : Type} (h : kernel_of S).
Context (h_exit : forall n s, fst (h _ (SysExit n) s) = None).

Definition defined {A} (p : prog A) : Prop :=
  forall s, match fst (run h p s) with Returned _ | Gone => True | Undefined | Spinning => False end.
Definition ends_gone {A} (p : prog A) : Prop := forall s, fst (run h p s) = Gone.

Lemma defined_done {A} (a : A) : defined (Done a).
Proof. by intros s. Qed.
Lemma defined_call {X} (e : sysE X) : defined (call e).
Proof. intros s. unfold call. cbn [run]. by destruct (h X e s) as [[x|] s']. Qed.
Lemma defined_bind {A B} (p : prog A) (f : A -> prog B) :
  defined p -> (forall a, defined (f a)) -> defined (pbind p f).
Proof.
  intros Hp Hf s. rewrite run_pbind. specialize (Hp s).
  destruct (run h p s) as [[a| | |] s']; cbn in *; [apply Hf|done..].
Qed.
Lemma gone_exit {B} n (f : Z -> prog B) : ends_gone (pbind (call (SysExit n)) f).
Proof.
  intros s. rewrite run_call. pose proof (h_exit n s) as He.
  destruct (h Z (SysExit n) s) as [o s']. cbn in He. by rewrite He.
Qed.
Lemma gone_bind {A B} (p : prog A) (f : A -> prog B) :
  defined p -> (forall a, ends_gone (f a)) -> ends_gone (pbind p f).
Proof.
  intros Hp Hf s. rewrite run_pbind. specialize (Hp s).
  destruct (run h p s) as [[a| | |] s']; cbn in *; [apply Hf|done..].
Qed.
End ends.
#[export] Hint Resolve defined_done defined_call defined_bind : prog.
