(* ===== verification/Shell.v ===== *)
(** The shell, [src/user/initcode.c], the first program of the system, as a
    program over the system calls of [Prog.v].  The strings of the program are
    texts without the NUL; [argv] is the array of the C code, whose null entries
    are [None], and a stage of a pipeline is its offset in [argv]. *)

From S2P Require Import Prelude Prog.

(* ------------------------------------------------------------------ *)
(** ** Strings *)

Definition LINE_SIZE : nat := 256.
Definition PATH_SIZE : nat := 128.
Definition MAX_ARGS : nat := 32.
Definition MAX_STAGES : nat := MAX_ARGS.
Definition TOKEN_BUF_SIZE : nat := LINE_SIZE * 2.
Definition SEEK_END : Z := 2.

Definition str_len (s : list Z) : Z := Z.of_nat (length s).
Fixpoint str_cmp (a b : list Z) : Z :=
  match a, b with
  | x :: a', y :: b' => if x =? y then str_cmp a' b' else x - y
  | x :: _, [] => x
  | [], y :: _ => - y
  | [], [] => 0
  end.
Definition is_space (c : Z) : bool := (c =? 32) || (c =? 9).
Definition is_operator (c : Z) : bool := (c =? 60) || (c =? 62) || (c =? 124).
Definition copy_str (dst_size : nat) (src : list Z) : list Z := take (dst_size - 1) src.
Definition has_slash (s : list Z) : bool := existsb (fun c => c =? 47) s.

Definition write_bytes (s : list Z) : prog unit := call (SysWrite STDOUT_FD s) ;;~ Done tt.
Definition write_str (s : list Z) : prog unit := write_bytes s.
Definition write_char (c : Z) : prog unit := write_bytes [c].

(* ------------------------------------------------------------------ *)
(** ** The variables of the shell *)

Record shell := Shell {
  cwd_path : list Z;
  path_value : list Z;
  env_path : list Z;
  status_arg : list Z;
  last_status : Z;
}.
Definition shell0 : shell := Shell (text "/") (text "/bin:/") (text "PATH=/bin:/") (text "0") 0.
Definition shell_env (sh : shell) : list (list Z) := [env_path sh].

Definition is_path_assignment (arg : list Z) : bool := starts_with arg (text "PATH=").

(** The loop of [set_path_value]; [next] is what has been written. *)
Fixpoint set_path_loop (fuel : nat) (path value next : list Z) : list Z :=
  match fuel with
  | O => next
  | S f =>
      match value with
      | [] => next
      | c :: value' =>
          if negb (length next <? PATH_SIZE - 1)%nat then next
          else if starts_with value (text "$PATH") then
            set_path_loop f path (drop 5 value) (take (PATH_SIZE - 1) (next ++ path))
          else set_path_loop f path value' (next ++ [c])
      end
  end.
Definition set_path_value (value : list Z) (sh : shell) : shell :=
  let next := set_path_loop (length value) (path_value sh) value [] in
  let path := copy_str PATH_SIZE next in
  Shell (cwd_path sh) path (text "PATH=" ++ copy_str PATH_SIZE path) (status_arg sh) (last_status sh).

Definition print_path (sh : shell) : prog unit :=
  write_str (text "PATH=") ;;~ write_str (path_value sh) ;;~ write_char 10.

(** The digits of [status_to_str], the last one first; 12 at most. *)
Fixpoint status_digits (fuel : nat) (value : Z) : list Z :=
  match fuel with
  | O => []
  | S f => (48 + value mod 10) :: (if value / 10 =? 0 then [] else status_digits f (value / 10))
  end.
Definition status_to_str (status : Z) : list Z :=
  let '(sign, value) := if status <? 0 then ([45], u32 (- status)) else ([], u32 status) in
  take 15 (sign ++ reverse (status_digits 12 value)).

Definition set_status_arg (v : list Z) (sh : shell) : shell :=
  Shell (cwd_path sh) (path_value sh) (env_path sh) v (last_status sh).
Definition set_last_status (v : Z) (sh : shell) : shell :=
  Shell (cwd_path sh) (path_value sh) (env_path sh) (status_arg sh) v.
Definition set_cwd_path (v : list Z) (sh : shell) : shell :=
  Shell v (path_value sh) (env_path sh) (status_arg sh) (last_status sh).

Definition expand_arg (sh : shell) (arg : list Z) : list Z :=
  if str_cmp arg (text "$PATH") =? 0 then path_value sh
  else if str_cmp arg (text "$?") =? 0 then status_to_str (last_status sh)
  else arg.
(** [status_arg] is written when an argument is ["$?"]. *)
Definition expand_args (args : list (list Z)) (sh : shell) : list (list Z) * shell :=
  (expand_arg sh <$> args,
   if existsb (fun arg => str_cmp arg (text "$?") =? 0) args
   then set_status_arg (status_to_str (last_status sh)) sh else sh).

(* ------------------------------------------------------------------ *)
(** ** Line editing *)

Definition print_prompt (sh : shell) : prog unit :=
  write_str (text "MyOS:") ;;~ write_str (cwd_path sh) ;;~ write_str (text "> ").

Definition left_seq : list Z := [27; 91; 68].
Definition right_seq : list Z := [27; 91; 67].
Fixpoint move_left (count : nat) : prog unit :=
  match count with
  | O => Done tt
  | S n => write_bytes left_seq ;;~ move_left n
  end.
Definition move_right : prog unit := write_bytes right_seq.

(** The local variables of [read_line]: the buffer, [len], [cursor],
    [esc_state]. *)
Record edit := Edit { ed_line : list Z; ed_len : nat; ed_cursor : nat; ed_esc : nat }.
Definition ed_set_esc (v : nat) (e : edit) : edit := Edit (ed_line e) (ed_len e) (ed_cursor e) v.

Definition handle_arrow (c : Z) (e : edit) : prog edit :=
  if (ed_esc e =? 1)%nat then Done (ed_set_esc (if c =? 91 then 2 else 0) e)
  else if negb (ed_esc e =? 2)%nat then Done (ed_set_esc 0 e)
  else if (c =? 68) && (0 <? ed_cursor e)%nat then
    move_left 1 ;;~ Done (Edit (ed_line e) (ed_len e) (ed_cursor e - 1) 0)
  else if (c =? 67) && (ed_cursor e <? ed_len e)%nat then
    move_right ;;~ Done (Edit (ed_line e) (ed_len e) (ed_cursor e + 1) 0)
  else Done (ed_set_esc 0 e).

(** [for (i = 0; i < n; i++) line[at - 1 + i] = line[at + i];] *)
Fixpoint shift_left (line : list Z) (at_ n : nat) : list Z :=
  match n with
  | O => line
  | S n' => shift_left (<[(at_ - 1)%nat := default 0 (line !! at_)]> line) (S at_) n'
  end.
(** [for (i = n - 1; i >= 0; i--) line[at + 1 + i] = line[at + i];] *)
Fixpoint shift_right (line : list Z) (at_ n : nat) : list Z :=
  match n with
  | O => line
  | S i => shift_right (<[(at_ + 1 + i)%nat := default 0 (line !! (at_ + i)%nat)]> line) at_ i
  end.

Definition erase_before_cursor (e : edit) : prog edit :=
  if (ed_cursor e <=? 0)%nat then Done e
  else
    let tail := (ed_len e - ed_cursor e)%nat in
    let line := shift_left (ed_line e) (ed_cursor e) tail in
    let cursor := (ed_cursor e - 1)%nat in
    let len := (ed_len e - 1)%nat in
    move_left 1 ;;~
    (if (0 <? tail)%nat then write_bytes (slice line cursor tail) else Done tt) ;;~
    write_char 32 ;;~
    move_left (tail + 1) ;;~
    Done (Edit line len cursor (ed_esc e)).

Definition insert_at_cursor (c : Z) (e : edit) : prog edit :=
  if (LINE_SIZE - 1 <=? ed_len e)%nat then Done e
  else
    let tail := (ed_len e - ed_cursor e)%nat in
    let line := shift_right (ed_line e) (ed_cursor e) tail in
    let line := <[ed_cursor e := c]> line in
    write_bytes (slice line (ed_cursor e) (tail + 1)) ;;~
    move_left tail ;;~
    Done (Edit line (ed_len e + 1) (ed_cursor e + 1) (ed_esc e)).

(** The body of the loop of [read_line] for a character: the next state, or
    the finished line. *)
Definition read_char (c : Z) (e : edit) : prog (edit + list Z) :=
  if c =? 27 then Done (inl (ed_set_esc 1 e))
  else if negb (ed_esc e =? 0)%nat then do! e := handle_arrow c e in Done (inl e)
  else if c =? 10 then write_char 10 ;;~ Done (inr (take (ed_len e) (ed_line e)))
  else if (c =? 127) || (c =? 8) then do! e := erase_before_cursor e in Done (inl e)
  else do! e := insert_at_cursor c e in Done (inl e).

(** [read_line]; [fuel] bounds the reads, [None] when it ends. *)
Fixpoint read_line_loop (fuel : nat) (e : edit) : prog (option (list Z)) :=
  match fuel with
  | O => Done None
  | S f =>
      do! r := call (SysRead STDIN_FD 1) in
      if s32 (fst r) <=? 0 then read_line_loop f e
      else
        do! x := read_char (hd 0 (snd r)) e in
        match x with
        | inl e => read_line_loop f e
        | inr line => Done (Some line)
        end
  end.
Definition read_line (fuel : nat) (line : list Z) : prog (option (list Z)) :=
  read_line_loop fuel (Edit line 0 0 0).

(* ------------------------------------------------------------------ *)
(** ** Words *)

Fixpoint skip_spaces (line : list Z) : list Z :=
  match line with
  | c :: line' => if is_space c then skip_spaces line' else line
  | [] => []
  end.
(** The characters of a word; [out] is the place in [token_buf]. *)
Fixpoint take_word (line : list Z) (out : nat) : list Z * list Z * nat :=
  match line with
  | c :: line' =>
      if negb (is_space c) && negb (is_operator c) && (out <? TOKEN_BUF_SIZE - 1)%nat then
        let '(w, rest, out) := take_word line' (S out) in (c :: w, rest, out)
      else ([], line, out)
  | [] => ([], [], out)
  end.
(** One token of [parse_args]: an operator or a word. *)
Definition take_token (line : list Z) (out : nat) : list Z * list Z * nat :=
  match line with
  | c :: line' =>
      if is_operator c then
        if (c =? 62) && (hd 0 line' =? 62) && (S out <? TOKEN_BUF_SIZE - 1)%nat
        then ([62; 62], tl line', S (S out)) else ([c], line', S out)
      else take_word line out
  | [] => ([], [], out)
  end.
Fixpoint parse_loop (fuel : nat) (line : list Z) (argc out : nat) : list (list Z) :=
  match fuel with
  | O => []
  | S f =>
      match line with
      | [] => []
      | _ =>
          if (argc <? MAX_ARGS - 1)%nat && (out <? TOKEN_BUF_SIZE - 1)%nat then
            match skip_spaces line with
            | [] => []
            | line =>
                let '(token, rest, out) := take_token line out in
                token :: parse_loop f rest (S argc) (S out)
            end
          else []
      end
  end.
Definition parse_args (line : list Z) : list (list Z) := parse_loop (length line) line 0 0.

(** [argv] for the arguments: the rest of the array is null. *)
Definition argv_of (args : list (list Z)) : list (option (list Z)) :=
  (Some <$> args) ++ replicate (MAX_ARGS - length args) None.
(** The arguments from offset [at_] up to the null pointer. *)
Fixpoint args_of (l : list (option (list Z))) : list (list Z) :=
  match l with
  | Some a :: l' => a :: args_of l'
  | _ => []
  end.
Definition args_at (argv : list (option (list Z))) (at_ : nat) : list (list Z) := args_of (drop at_ argv).

(* ------------------------------------------------------------------ *)
(** ** Built-in commands *)

(** [while (i > 0 && cwd_path[i] != '/') i--;] *)
Fixpoint back_to_slash (cwd : list Z) (i : nat) : nat :=
  match i with
  | O => O
  | S i' => if negb (default 0 (cwd !! i) =? 47) then back_to_slash cwd i' else i
  end.
(** [None]: the NUL is written behind the end of [cwd_path]. *)
Definition update_cwd_display (target cwd : list Z) : option (list Z) :=
  if hd 0 target =? 47 then Some (take (LINE_SIZE - 1) target)
  else if str_cmp target (text ".") =? 0 then Some cwd
  else if str_cmp target (text "..") =? 0 then
    if (length cwd <=? 1)%nat then Some cwd
    else
      let i := back_to_slash cwd (length cwd - 1) in
      Some (if (i =? 0)%nat then take 1 cwd else take i cwd)
  else
    let cwd :=
      if (1 <? length cwd)%nat && negb (default 0 (last cwd) =? 47) then cwd ++ [47] else cwd in
    let cwd := cwd ++ take (LINE_SIZE - 1 - length cwd) target in
    if (length cwd <? LINE_SIZE)%nat then Some cwd else None.

(** [Some status]: the command was a built-in one. *)
Definition run_builtin (argv : list (list Z)) (sh : shell) : prog (option Z * shell) :=
  let argc := length argv in
  let arg0 := default [] (argv !! 0%nat) in
  let arg1 := default [] (argv !! 1%nat) in
  if is_path_assignment arg0 then
    if (argc =? 1)%nat then Done (Some 0, set_path_value (drop 5 arg0) sh)
    else write_str (text "PATH: use PATH=value" ++ [10]) ;;~ Done (Some 1, sh)
  else if str_cmp arg0 (text "export") =? 0 then
    if (argc =? 1)%nat then print_path sh ;;~ Done (Some 0, sh)
    else if (argc =? 2)%nat && is_path_assignment arg1 then
      Done (Some 0, set_path_value (drop 5 arg1) sh)
    else write_str (text "export: only PATH is supported" ++ [10]) ;;~ Done (Some 1, sh)
  else if str_cmp arg0 (text "PATH") =? 0 then print_path sh ;;~ Done (Some 0, sh)
  else if str_cmp arg0 (text "cd") =? 0 then
    if (2 <=? argc)%nat then
      do! r := call (SysChdir arg1) in
      if s32 r =? 0 then
        match update_cwd_display arg1 (cwd_path sh) with
        | Some cwd => Done (Some 0, set_cwd_path cwd sh)
        | None => Undef
        end
      else write_str (text "cd: cannot cd" ++ [10]) ;;~ Done (Some 1, sh)
    else Done (Some 0, sh)
  else if str_cmp arg0 (text "pwd") =? 0 then
    write_str (cwd_path sh) ;;~ write_char 10 ;;~ Done (Some 0, sh)
  else Done (None, sh).

(* ------------------------------------------------------------------ *)
(** ** Running a program *)

(** The path and whether it fits. *)
Definition build_path (dst_size : nat) (dir name : list Z) : list Z * bool :=
  if (length dir =? 0)%nat || ((length dir =? 1)%nat && (hd 0 dir =? 46)) then
    let dst := take (dst_size - 1) name in
    (dst, (length name =? 0)%nat || (length dst <? dst_size - 1)%nat)
  else
    let dst := take (dst_size - 1) dir in
    let dst :=
      if (0 <? length dst)%nat && negb (default 0 (last dst) =? 47) && (length dst <? dst_size - 1)%nat
      then dst ++ [47] else dst in
    let dst := dst ++ take (dst_size - 1 - length dst) name in
    (dst, (length dst <? dst_size - 1)%nat).

(** The loop of [exec_from_path]: [dir] is what has been read since [start]. *)
Fixpoint exec_path_loop (path dir : list Z) (args : list (list Z)) (env : list (list Z)) : prog unit :=
  let try_dir :=
    let '(p, ok) := build_path LINE_SIZE dir (default [] (args !! 0%nat)) in
    if ok then call (SysExec p args env) ;;~ Done tt else Done tt in
  match path with
  | [] => try_dir
  | c :: path' =>
      if c =? 58 then try_dir ;;~ exec_path_loop path' [] args env
      else exec_path_loop path' (dir ++ [c]) args env
  end.
Definition exec_from_path (args : list (list Z)) (sh : shell) : prog unit :=
  exec_path_loop (path_value sh) [] args (shell_env sh).

Definition exec_command (args : list (list Z)) (sh : shell) : prog unit :=
  match args with
  | [] => call (SysExit (-1)) ;;~ Undef
  | arg0 :: _ =>
      (if has_slash arg0 then call (SysExec arg0 args (shell_env sh)) ;;~ Done tt
       else exec_from_path args sh) ;;~
      write_str (text "Command not found!" ++ [10]) ;;~
      call (SysExit (-1)) ;;~ Done tt
  end.

(** The place of a token, -1 when there is none. *)
Fixpoint find_token (args : list (list Z)) (token : list Z) (i : Z) : Z :=
  match args with
  | a :: args' => if str_cmp a token =? 0 then i else find_token args' token (i + 1)
  | [] => -1
  end.
Definition is_redirect_token (arg : list Z) : bool :=
  (str_cmp arg (text "<") =? 0) || (str_cmp arg (text ">") =? 0) || (str_cmp arg (text ">>") =? 0).
Definition is_control_token (arg : list Z) : bool :=
  is_redirect_token arg || (str_cmp arg (text "|") =? 0).
Definition print_redirection_syntax_error (token : list Z) : prog unit :=
  write_str (text "syntax error: expected file after ") ;;~ write_str token ;;~ write_char 10.

(** The pid and the status. *)
Definition wait_for_child : prog (Z * Z) :=
  do! r := call SysWait in Done (s32 (fst r), default (-1) (snd r)).

(** The shift loop from index [i] of [argv]. *)
Fixpoint remove_pair_loop (fuel : nat) (argv : list (option (list Z))) (i : nat) : list (option (list Z)) :=
  match mjoin (argv !! (i + 2)%nat), fuel with
  | Some a, S f => remove_pair_loop f (<[i := Some a]> argv) (S i)
  | _, _ => <[S i := None]> (<[i := None]> argv)
  end.
Definition remove_arg_pair (argv : list (option (list Z))) (at_ : nat) : list (option (list Z)) :=
  remove_pair_loop (length argv) argv at_.

Definition redirect_fd (target_fd : Z) (path : list Z) (flags : Z) (append : bool) : prog Z :=
  call (SysClose target_fd) ;;~
  do! fd := call (SysOpen path flags) in
  if s32 fd <? 0 then Done (-1)
  else if append then
    do! r := call (SysLseek target_fd 0 SEEK_END) in
    if s32 r <? 0 then Done (-1) else Done 0
  else Done 0.

Fixpoint validate_redirections (args : list (list Z)) : prog Z :=
  match args with
  | [] => Done 0
  | a :: args' =>
      if negb (is_redirect_token a) then validate_redirections args'
      else if match args' with [] => true | b :: _ => is_control_token b end then
        print_redirection_syntax_error a ;;~ Done (-1)
      else validate_redirections args'
  end.

(** The loop of [apply_redirections] at index [i] of [argv]; every round moves
    [i] up or takes two arguments out. *)
Fixpoint apply_redir_loop (fuel : nat) (argv : list (option (list Z))) (i : nat) :
    prog (Z * list (option (list Z))) :=
  match mjoin (argv !! i), fuel with
  | Some a, S f =>
      let input := str_cmp a (text "<") =? 0 in
      let output := str_cmp a (text ">") =? 0 in
      let append := str_cmp a (text ">>") =? 0 in
      if negb input && negb output && negb append then apply_redir_loop f argv (S i)
      else
        match mjoin (argv !! S i) with
        | None => print_redirection_syntax_error a ;;~ Done (-1, argv)
        | Some path =>
            do! r := (if input then redirect_fd STDIN_FD path O_RDONLY false else Done 0) in
            if r <? 0 then Done (-1, argv)
            else
              do! r := (if output then
                          redirect_fd STDOUT_FD path (Z.lor (Z.lor O_WRONLY O_CREAT) O_TRUNC) false
                        else Done 0) in
              if r <? 0 then Done (-1, argv)
              else
                do! r := (if append then redirect_fd STDOUT_FD path (Z.lor O_WRONLY O_CREAT) true
                          else Done 0) in
                if r <? 0 then Done (-1, argv)
                else apply_redir_loop f (remove_arg_pair argv i) i
        end
  | _, _ => Done (0, argv)
  end.
Definition apply_redirections (argv : list (option (list Z))) (at_ : nat) :
    prog (Z * list (option (list Z))) :=
  apply_redir_loop (length argv) argv at_.

(** What a child does with its stage. *)
Definition run_child (argv : list (option (list Z))) (at_ : nat) (sh : shell) : prog unit :=
  do! '(r, argv) := apply_redirections argv at_ in
  (if r <? 0 then call (SysExit (-1)) ;;~ Done tt else Done tt) ;;~
  exec_command (args_at argv at_) sh.

Definition run_simple (argv : list (option (list Z))) (at_ : nat) (sh : shell) : prog Z :=
  do! pid := call SysFork in
  if s32 pid <? 0 then write_str (text "Fork failed!" ++ [10]) ;;~ Done (-1)
  else
    (if s32 pid =? 0 then run_child argv at_ sh else Done tt) ;;~
    do! '(_, status) := wait_for_child in
    Done status.

(** The loop of [split_pipeline] at index [i]: the array with the bars cut out
    and the stages, or an error. *)
Fixpoint split_loop (fuel : nat) (argv : list (option (list Z))) (i : nat) (stages : list nat) :
    option (list (option (list Z)) * list nat) :=
  match mjoin (argv !! i), fuel with
  | Some a, S f =>
      if negb (str_cmp a (text "|") =? 0) then split_loop f argv (S i) stages
      else if (i =? 0)%nat || match mjoin (argv !! S i) with None => true | Some _ => false end
              || (MAX_STAGES <=? length stages)%nat
      then None
      else split_loop f (<[i := None]> argv) (S i) (stages ++ [S i])
  | _, _ => Some (argv, stages)
  end.
Definition split_pipeline (argv : list (option (list Z))) :
    prog (option (list (option (list Z)) * list nat)) :=
  match mjoin (argv !! 0%nat) with
  | None => Done (Some (argv, []))
  | Some _ =>
      match split_loop (length argv) argv 0 [0%nat] with
      | None => write_str (text "syntax error: invalid pipe" ++ [10]) ;;~ Done None
      | r => Done r
      end
  end.

Definition close_if (fd : Z) : prog unit :=
  if 0 <=? fd then call (SysClose fd) ;;~ Done tt else Done tt.

(** The child of a stage: its ends of the pipes become its input and output. *)
Definition pipeline_child (argv : list (option (list Z))) (at_ : nat) (sh : shell)
    (prev_read : Z) (fds : Z * Z) (more : bool) : prog unit :=
  (if 0 <=? prev_read then call (SysClose STDIN_FD) ;;~ call (SysDup prev_read) ;;~ Done tt else Done tt) ;;~
  (if more then call (SysClose STDOUT_FD) ;;~ call (SysDup (snd fds)) ;;~ Done tt else Done tt) ;;~
  close_if prev_read ;;~
  close_if (fst fds) ;;~
  close_if (snd fds) ;;~
  run_child argv at_ sh.

(** The stages one after the other: [None] when a fork fails, else the open
    read end, the number of children and the last one. The result of the pipe
    call is a [uint64], which is never below 0: when no pipe can be made its ends
    stay -1. *)
Fixpoint pipeline_loop (argv : list (option (list Z))) (stages : list nat) (sh : shell)
    (prev_read : Z) (child_count : nat) (last_pid : Z) : prog (option (Z * nat * Z)) :=
  match stages with
  | [] => Done (Some (prev_read, child_count, last_pid))
  | at_ :: stages' =>
      let more := match stages' with [] => false | _ => true end in
      do! fds :=
        (if more then
           do! r := call SysPipe in Done (default (-1, -1) (snd r))
         else Done (-1, -1)) in
      do! pid := call SysFork in
      if s32 pid <? 0 then
        write_str (text "Fork failed!" ++ [10]) ;;~
        close_if (fst fds) ;;~ close_if (snd fds) ;;~ Done None
      else
        (if s32 pid =? 0 then pipeline_child argv at_ sh prev_read fds more else Done tt) ;;~
        close_if prev_read ;;~
        close_if (snd fds) ;;~
        pipeline_loop argv stages' sh (fst fds) (S child_count) (s32 pid)
  end.

(** [n] children are waited for; the status is that of the last stage. *)
Fixpoint wait_loop (n : nat) (last_pid last_pipe_status : Z) : prog Z :=
  match n with
  | O => Done last_pipe_status
  | S n' =>
      do! '(pid, status) := wait_for_child in
      wait_loop n' last_pid (if pid =? last_pid then status else last_pipe_status)
  end.
Definition run_pipeline (argv : list (option (list Z))) (stages : list nat) (sh : shell) : prog Z :=
  do! r := pipeline_loop argv stages sh (-1) 0 (-1) in
  match r with
  | None => Done (-1)
  | Some (prev_read, child_count, last_pid) =>
      close_if prev_read ;;~ wait_loop child_count last_pid (-1)
  end.

(** The redirections of the stages are checked before a child is made. *)
Fixpoint validate_stages (argv : list (option (list Z))) (stages : list nat) : prog bool :=
  match stages with
  | [] => Done true
  | at_ :: stages' =>
      do! r := validate_redirections (args_at argv at_) in
      if r <? 0 then Done false else validate_stages argv stages'
  end.

Definition dispatch_command (args : list (list Z)) (sh : shell) : prog shell :=
  match args with
  | [] => Done sh
  | _ =>
      do! '(builtin, sh) :=
        (if (find_token args (text "|") 0 <? 0) && (find_token args (text "<") 0 <? 0) &&
            (find_token args (text ">") 0 <? 0) && (find_token args (text ">>") 0 <? 0)
         then run_builtin args sh else Done (None, sh)) in
      match builtin with
      | Some status => Done (set_last_status status sh)
      | None =>
          do! r := split_pipeline (argv_of args) in
          match r with
          | None => Done (set_last_status 1 sh)
          | Some (argv, stages) =>
              do! ok := validate_stages argv stages in
              if negb ok then Done (set_last_status 1 sh)
              else
                do! status :=
                  (if (length stages =? 1)%nat then run_simple argv (default O (head stages)) sh
                   else run_pipeline argv stages sh) in
                Done (set_last_status status sh)
          end
      end
  end.

(** One round of [main]; [None] when [fuel] reads do not finish a line. *)
Definition shell_round (fuel : nat) (sh : shell) : prog (option shell) :=
  print_prompt sh ;;~
  do! line := read_line fuel (replicate LINE_SIZE 0) in
  match line with
  | None => Done None
  | Some [] => Done (Some sh)
  | Some line =>
      let '(args, sh) := expand_args (parse_args (cstr line)) sh in
      do! sh := dispatch_command args sh in Done (Some sh)
  end.
