(* ===== verification/ShellSpec.v ===== *)
(** What the shell does with a line: editing is editing of a text at a cursor, and
    the words of a line are its tokens. *)

From S2P Require Import Prelude Prog Shell.

(* ------------------------------------------------------------------ *)
(** ** Tokens *)

Definition word_char (c : Z) : Prop := is_space c = false /\ is_operator c = false.

(** The tokens of a line: operators, the longest one first, and maximal
    words, with spaces between them. *)
Inductive tokens : list Z -> list (list Z) -> Prop :=
| tokens_end l : Forall (fun c => is_space c = true) l -> tokens l []
| tokens_append s rest ts :
    Forall (fun c => is_space c = true) s -> tokens rest ts ->
    tokens (s ++ 62 :: 62 :: rest) ([62; 62] :: ts)
| tokens_operator s c rest ts :
    Forall (fun c => is_space c = true) s -> is_operator c = true ->
    (c = 62 -> hd 0 rest <> 62) -> tokens rest ts ->
    tokens (s ++ c :: rest) ([c] :: ts)
| tokens_word s w rest ts :
    Forall (fun c => is_space c = true) s -> w <> [] -> Forall word_char w ->
    (forall c rest', rest = c :: rest' -> ~ word_char c) -> tokens rest ts ->
    tokens (s ++ w ++ rest) (w :: ts).

Lemma skip_spaces_split l :
  exists s, l = s ++ skip_spaces l /\ Forall (fun c => is_space c = true) s /\
    (forall c r, skip_spaces l = c :: r -> is_space c = false).
Proof.
  induction l as [|c l (s & Hl & Hs & Hr)]; cbn [skip_spaces].
  - exists []. done.
  - destruct (is_space c) eqn:Hc.
    + exists (c :: s). split_and!; [cbn; congruence|by constructor|done].
    + exists []. split_and!; [done|done|]. by intros ? ? [= <- _].
Qed.

(** A word that [token_buf] has room for. *)
Lemma take_word_spec line out :
  (out + length line < TOKEN_BUF_SIZE)%nat ->
  exists w rest, take_word line out = (w, rest, (out + length w)%nat) /\ line = w ++ rest /\
    Forall word_char w /\ (forall c rest', rest = c :: rest' -> ~ word_char c).
Proof.
  revert out. induction line as [|c line IH]; intros out Hout; cbn [take_word].
  - exists [], []. rewrite Nat.add_0_r. done.
  - cbn [length] in Hout. rewrite (proj2 (Nat.ltb_lt out (TOKEN_BUF_SIZE - 1))) by lia. rewrite andb_true_r.
    destruct (negb (is_space c) && negb (is_operator c)) eqn:Hc.
    + destruct (IH (S out)) as (w & rest & -> & -> & Hw & Hr); [lia|].
      apply andb_true_iff in Hc as [Hc1%negb_true_iff Hc2%negb_true_iff].
      exists (c :: w), rest. split_and!; [|done|by constructor|done].
      cbn [length]. by replace (out + S (length w))%nat with (S out + length w)%nat by lia.
    + exists [], (c :: line). rewrite Nat.add_0_r. split_and!; [done|done|done|].
      intros ? ? [= <- _] [H1 H2]. by rewrite H1, H2 in Hc.
Qed.

Lemma parse_loop_tokens fuel line argc out :
  (length line <= fuel)%nat -> (out + 2 * length line < TOKEN_BUF_SIZE - 1)%nat ->
  exists ts, tokens line ts /\ parse_loop fuel line argc out = take (MAX_ARGS - 1 - argc) ts.
Proof.
  revert line argc out. induction fuel as [|f IH]; intros line argc out Hlen Hout.
  { destruct line; [|cbn in Hlen; lia]. exists []. split; [by constructor|]. by rewrite take_nil. }
  destruct (skip_spaces_split line) as (s & Hline & Hs & Hns).
  assert (length line = length s + length (skip_spaces line))%nat as Hl by (by rewrite Hline at 1; rewrite length_app).
  assert (exists ts, tokens line ts /\
    (match skip_spaces line with
     | [] => []
     | l => let '(token, rest, out) := take_token l out in token :: parse_loop f rest (S argc) (S out)
     end) = match ts with [] => [] | t :: ts' => t :: take (MAX_ARGS - 1 - S argc) ts' end) as (ts & Hts & Heq).
  { destruct (skip_spaces line) as [|c l] eqn:Hsk.
    { exists []. split; [|done]. constructor. by rewrite Hline, app_nil_r. }
    cbn [length] in Hl. cbn [take_token]. destruct (is_operator c) eqn:Hop.
    - destruct (Z.eqb_spec c 62) as [->|Hc].
      + rewrite (proj2 (Nat.ltb_lt (S out) _)) by lia. rewrite andb_true_r. cbn [andb].
        destruct (Z.eqb_spec (hd 0 l) 62) as [Hh|Hh].
        * destruct l as [|c' l]; [done|]. cbn in Hh. subst c'. cbn [tl length] in *.
          destruct (IH l (S argc) (S (S (S out)))) as (ts & Hts & ->); [lia|lia|].
          exists ([62; 62] :: ts). split; [|done]. rewrite Hline. by apply tokens_append.
        * destruct (IH l (S argc) (S (S out))) as (ts & Hts & ->); [lia|lia|].
          exists ([62] :: ts). split; [|done]. rewrite Hline. by apply tokens_operator.
      + cbn [andb]. destruct (IH l (S argc) (S (S out))) as (ts & Hts & ->); [lia|lia|].
        exists ([c] :: ts). split; [|done]. rewrite Hline. by apply tokens_operator.
    - destruct (take_word_spec (c :: l) out) as (w & rest & -> & Hcl & Hw & Hr); [cbn [length]; lia|].
      assert (w <> []) as Hne.
      { intros ->. cbn in Hcl. symmetry in Hcl. apply (Hr _ _ Hcl). split; [|done]. by eapply Hns. }
      assert (S (length l) = length w + length rest)%nat as Hlw by (rewrite <- length_app, <- Hcl; done).
      assert (0 < length w)%nat by (destruct w; [done|cbn; lia]).
      destruct (IH rest (S argc) (S (out + length w))) as (ts & Hts & ->); [lia|lia|].
      exists (w :: ts). split; [|done]. rewrite Hline, Hcl. by apply tokens_word. }
  exists ts. split; [done|]. cbn [parse_loop].
  rewrite (proj2 (Nat.ltb_lt out _)) by lia. rewrite andb_true_r.
  destruct line as [|c0 line'] eqn:Hl0.
  { cbn in Heq. destruct ts; [by rewrite take_nil|done]. }
  destruct (Nat.ltb_spec argc (MAX_ARGS - 1)) as [Ha|Ha].
  - rewrite Heq. replace (MAX_ARGS - 1 - argc)%nat with (S (MAX_ARGS - 1 - S argc)) by lia.
    by destruct ts.
  - by replace (MAX_ARGS - 1 - argc)%nat with 0%nat by lia.
Qed.

(** C26: the arguments of a command line are its tokens: for a line that the
    line buffer can hold, [parse_args] yields the first [MAX_ARGS - 1] tokens of
    the line, and the token buffer never cuts one short. *)
Theorem parse_args_tokens line :
  (length line < LINE_SIZE)%nat ->
  exists ts, tokens line ts /\ parse_args line = take (MAX_ARGS - 1) ts.
Proof.
  intros Hl. unfold parse_args. destruct (parse_loop_tokens (length line) line 0 0) as (ts & Hts & ->).
  - done.
  - unfold TOKEN_BUF_SIZE, LINE_SIZE in *. lia.
  - exists ts. by rewrite Nat.sub_0_r.
Qed.

(* ------------------------------------------------------------------ *)
(** ** The line editor *)

(** A terminal: the characters to be typed, one for each read, and what has
    been written. *)
Definition tty_kernel (X : Type) (e : sysE X) (s : list Z * list Z) : option X * (list Z * list Z) :=
  match e in sysE X return option X * (list Z * list Z) with
  | SysRead _ _ => match fst s with [] => (Some (0, []), s) | c :: i => (Some (1, [c]), (i, snd s)) end
  | SysWrite _ b => (Some (Z.of_nat (length b)), (fst s, snd s ++ b))
  | e => (Some (deny e), s)
  end.

(** The reference editor: the text before the cursor, the text behind it and
    how much of an escape sequence has been seen. *)
Record cursor_text := CursorText { ct_before : list Z; ct_after : list Z; ct_esc : nat }.
Definition type_char (c : Z) (t : cursor_text) : cursor_text :=
  let '(CursorText b a esc) := t in
  if c =? 27 then CursorText b a 1
  else if (esc =? 1)%nat then CursorText b a (if c =? 91 then 2 else 0)
  else if negb (esc =? 0)%nat then
    if (esc =? 2)%nat && (c =? 68) then
      match reverse b with [] => CursorText b a 0 | x :: b' => CursorText (reverse b') (x :: a) 0 end
    else if (esc =? 2)%nat && (c =? 67) then
      match a with [] => CursorText b a 0 | x :: a' => CursorText (b ++ [x]) a' 0 end
    else CursorText b a 0
  else if (c =? 127) || (c =? 8) then CursorText (removelast b) a 0
  else if (length b + length a <? LINE_SIZE - 1)%nat then CursorText (b ++ [c]) a 0
  else CursorText b a 0.
(** The line that the characters make and the characters behind its newline. *)
Fixpoint typed_line (cs : list Z) (t : cursor_text) : option (list Z * list Z) :=
  match cs with
  | [] => None
  | c :: cs' =>
      if (c =? 10) && (ct_esc t =? 0)%nat then Some (ct_before t ++ ct_after t, cs')
      else typed_line cs' (type_char c t)
  end.

(** The buffer holds the text. *)
Record editing (e : edit) (t : cursor_text) : Prop := Editing {
  eg_size : length (ed_line e) = LINE_SIZE;
  eg_len : ed_len e = (length (ct_before t) + length (ct_after t))%nat;
  eg_cursor : ed_cursor e = length (ct_before t);
  eg_esc : ed_esc e = ct_esc t;
  eg_text : take (ed_len e) (ed_line e) = ct_before t ++ ct_after t;
  eg_room : (ed_len e <= LINE_SIZE - 1)%nat;
}.

Lemma lookup_shift_left line p n j :
  (1 <= p)%nat -> (p + n <= length line)%nat ->
  shift_left line p n !! j =
    if decide (p - 1 <= j < p - 1 + n)%nat then line !! S j else line !! j.
Proof.
  revert line p. induction n as [|n IH]; intros line p Hp Hl; cbn [shift_left].
  - by rewrite decide_False by lia.
  - rewrite IH by (rewrite ?length_insert; lia).
    destruct (lookup_lt_is_Some_2 line p) as [x Hx]; [lia|]. rewrite Hx. cbn [default from_option]. unfold id.
    destruct (decide (j = (p - 1)%nat)) as [->|Hj].
    + rewrite decide_False, decide_True by lia. rewrite list_lookup_insert_eq by lia.
      replace (S (p - 1)) with p by lia. done.
    + repeat case_decide; try lia; by rewrite list_lookup_insert_ne by lia.
Qed.
Lemma length_shift_left line p n : length (shift_left line p n) = length line.
Proof. revert line p. induction n as [|n IH]; intros; cbn [shift_left]; [done|]. by rewrite IH, length_insert. Qed.

Lemma lookup_shift_right line p n j :
  (p + n < length line)%nat ->
  shift_right line p n !! j =
    if decide (p + 1 <= j < p + 1 + n)%nat then line !! (j - 1)%nat else line !! j.
Proof.
  revert line. induction n as [|n IH]; intros line Hl; cbn [shift_right].
  - by rewrite decide_False by lia.
  - rewrite IH by (rewrite ?length_insert; lia).
    destruct (lookup_lt_is_Some_2 line (p + n)) as [x Hx]; [lia|]. rewrite Hx. cbn [default from_option]. unfold id.
    destruct (decide (j = (p + 1 + n)%nat)) as [->|Hj].
    + rewrite decide_False, decide_True by lia. rewrite list_lookup_insert_eq by lia.
      replace (p + 1 + n - 1)%nat with (p + n)%nat by lia. done.
    + rewrite (list_lookup_insert_ne line _ j) by lia.
      repeat case_decide; try lia; [|done]. by rewrite list_lookup_insert_ne by lia.
Qed.
Lemma length_shift_right line p n : length (shift_right line p n) = length line.
Proof. revert line. induction n as [|n IH]; intros; cbn [shift_right]; [done|]. by rewrite IH, length_insert. Qed.

(** A program that only writes. *)
Definition echoes {A} (p : prog A) (a : A) : Prop :=
  forall i o, exists o', run tty_kernel p (i, o) = (Returned a, (i, o')).
Lemma echoes_done {A} (a : A) : echoes (Done a) a.
Proof. intros i o. by exists o. Qed.
Lemma echoes_bind {A B} (p : prog A) (f : A -> prog B) a b :
  echoes p a -> echoes (f a) b -> echoes (pbind p f) b.
Proof.
  intros Hp Hf i o. destruct (Hp i o) as [o1 H1]. destruct (Hf i o1) as [o2 H2].
  exists o2. by rewrite (run_returned _ _ _ _ _ _ H1).
Qed.
Lemma echoes_write s : echoes (write_bytes s) tt.
Proof. intros i o. eexists. reflexivity. Qed.
Lemma echoes_left n : echoes (move_left n) tt.
Proof. induction n as [|n IH]; cbn [move_left]; [apply echoes_done|]. eapply echoes_bind; [apply echoes_write|done]. Qed.
Lemma echoes_if (b : bool) p : echoes p tt -> echoes (if b then p else Done tt) tt.
Proof. destruct b; [done|]. intros _. apply echoes_done. Qed.
Ltac echo_step := first [apply echoes_done | apply echoes_left | apply echoes_write | apply echoes_if; echo_step].
Ltac echo_steps := repeat (eapply echoes_bind; [echo_step|]); echo_step.

(** The text before and behind the cursor as ranges of the buffer. *)
Lemma editing_lookup e t j :
  editing e t -> (j < ed_len e)%nat -> ed_line e !! j = (ct_before t ++ ct_after t) !! j.
Proof. intros H Hj. rewrite <- (eg_text _ _ H). by rewrite lookup_take_lt. Qed.

Lemma erase_echoes e b x a :
  editing e (CursorText (b ++ [x]) a 0) ->
  exists e', echoes (erase_before_cursor e) e' /\ editing e' (CursorText b a 0).
Proof.
  intros H. pose proof H as [Hsize Hlen Hcur Hesc Htext Hroom]. cbn [ct_before ct_after ct_esc] in *.
  rewrite length_app in Hlen, Hcur. cbn [length] in Hlen, Hcur.
  unfold erase_before_cursor. rewrite (proj2 (Nat.leb_gt _ 0)) by lia.
  eexists. split.
  { echo_steps. }
  constructor; cbn [ed_line ed_len ed_cursor ed_esc ct_before ct_after ct_esc]; [by rewrite length_shift_left|lia|lia|done| |lia].
  apply list_eq. intros j. destruct (decide (j < ed_len e - 1)%nat) as [Hj|Hj].
  - rewrite lookup_take_lt, lookup_shift_left by lia.
    pose proof (editing_lookup _ _ (S j) H ltac:(lia)) as H1. cbn [ct_before ct_after] in H1.
    pose proof (editing_lookup _ _ j H ltac:(lia)) as H2. cbn [ct_before ct_after] in H2.
    case_decide.
    + rewrite H1, <- app_assoc, (lookup_app_r b a), (lookup_app_r b ([x] ++ a)) by lia.
      by replace (S j - length b)%nat with (S (j - length b)) by lia.
    + by rewrite H2, <- app_assoc, (lookup_app_l b a), (lookup_app_l b ([x] ++ a)) by lia.
  - rewrite lookup_take_ge by lia. symmetry. apply lookup_ge_None. rewrite length_app. lia.
Qed.

Lemma insert_echoes e b a c :
  editing e (CursorText b a 0) -> (length b + length a < LINE_SIZE - 1)%nat ->
  exists e', echoes (insert_at_cursor c e) e' /\ editing e' (CursorText (b ++ [c]) a 0).
Proof.
  intros H Hl. pose proof H as [Hsize Hlen Hcur Hesc Htext Hroom]. cbn [ct_before ct_after ct_esc] in *.
  unfold insert_at_cursor. rewrite (proj2 (Nat.leb_gt _ _)) by lia.
  eexists. split; [echo_steps|].
  constructor; cbn [ed_line ed_len ed_cursor ed_esc ct_before ct_after ct_esc];
    [by rewrite length_insert, length_shift_right|rewrite length_app; cbn; lia|rewrite length_app; cbn; lia|done| |lia].
  apply list_eq. intros j. destruct (decide (j < ed_len e + 1)%nat) as [Hj|Hj].
  - rewrite lookup_take_lt by lia. rewrite <- app_assoc. cbn [app].
    destruct (decide (j = ed_cursor e)) as [->|Hne].
    + rewrite list_lookup_insert_eq by (rewrite length_shift_right; lia).
      by rewrite Hcur, list_lookup_middle.
    + rewrite list_lookup_insert_ne, lookup_shift_right by lia. case_decide.
      * rewrite (editing_lookup _ _ (j - 1) H) by lia. cbn [ct_before ct_after].
        rewrite (lookup_app_r b a), (lookup_app_r b (c :: a)) by lia.
        by replace (j - length b)%nat with (S (j - 1 - length b)) by lia.
      * rewrite (editing_lookup _ _ j H) by lia. cbn [ct_before ct_after].
        by rewrite (lookup_app_l b a), (lookup_app_l b (c :: a)) by lia.
  - rewrite lookup_take_ge by lia. symmetry. apply lookup_ge_None. rewrite !length_app. cbn. lia.
Qed.

Lemma left_echoes e b x a :
  editing e (CursorText (b ++ [x]) a (ed_esc e)) ->
  editing (Edit (ed_line e) (ed_len e) (ed_cursor e - 1) 0) (CursorText b (x :: a) 0).
Proof.
  intros [Hsize Hlen Hcur Hesc Htext Hroom]. cbn [ct_before ct_after ct_esc] in *.
  rewrite length_app in Hlen, Hcur. cbn [length] in *.
  constructor; cbn [ed_line ed_len ed_cursor ed_esc ct_before ct_after ct_esc length]; [done|lia|lia|done| |done].
  by rewrite Htext, <- app_assoc.
Qed.
Lemma right_echoes e b x a :
  editing e (CursorText b (x :: a) (ed_esc e)) ->
  editing (Edit (ed_line e) (ed_len e) (ed_cursor e + 1) 0) (CursorText (b ++ [x]) a 0).
Proof.
  intros [Hsize Hlen Hcur Hesc Htext Hroom]. cbn [ct_before ct_after ct_esc] in *.
  cbn [length] in *.
  constructor; cbn [ed_line ed_len ed_cursor ed_esc ct_before ct_after ct_esc];
    rewrite ?length_app; cbn [length]; [done|lia|lia|done| |done].
  by rewrite Htext, <- app_assoc.
Qed.
Lemma editing_esc e b a esc v :
  editing e (CursorText b a esc) -> editing (ed_set_esc v e) (CursorText b a v).
Proof. intros [Hsize Hlen Hcur Hesc Htext Hroom]. by constructor. Qed.

(** An arrow key. *)
Lemma handle_arrow_echoes c e t :
  editing e t -> ct_esc t <> 0%nat -> c <> 27 ->
  exists e', echoes (handle_arrow c e) e' /\ editing e' (type_char c t).
Proof.
  destruct t as [b a esc]. intros H Hesc Hc. pose proof (eg_esc _ _ H) as He. cbn [ct_esc] in *.
  unfold handle_arrow, type_char. rewrite (proj2 (Z.eqb_neq c 27)) by done. rewrite He.
  rewrite (proj2 (Nat.eqb_neq esc 0)) by done. cbn [negb].
  destruct (Nat.eqb_spec esc 1) as [->|H1].
  { eexists. split; [echo_steps|]. by eapply editing_esc. }
  destruct (Nat.eqb_spec esc 2) as [->|H2]; cbn [negb andb].
  2: { eexists. split; [echo_steps|]. by eapply editing_esc. }
  rewrite (eg_cursor _ _ H), (eg_len _ _ H). cbn [ct_before ct_after].
  destruct (Z.eqb_spec c 68) as [->|H68]; cbn [andb].
  - change (68 =? 67) with false. cbn [andb].
    destruct (reverse b) as [|x b'] eqn:Hb.
    + apply (f_equal reverse) in Hb. rewrite reverse_involutive in Hb. subst b. change (reverse []) with (@nil Z).
      cbn [length Nat.ltb Nat.leb]. eexists. split; [echo_steps|]. by eapply editing_esc.
    + apply (f_equal reverse) in Hb. rewrite reverse_involutive, reverse_cons in Hb. subst b.
      rewrite (proj2 (Nat.ltb_lt 0 _)) by (rewrite length_app; cbn; lia).
      eexists. split; [echo_steps|].
      pose proof (left_echoes e (reverse b') x a) as Hl. rewrite (eg_cursor _ _ H), (eg_len _ _ H) in Hl.
      apply Hl. by rewrite He.
  - destruct (Z.eqb_spec c 67) as [->|H67]; cbn [andb].
    2: { eexists. split; [echo_steps|]. by eapply editing_esc. }
    destruct a as [|x a].
    + rewrite Nat.add_0_r, Nat.ltb_irrefl. eexists. split; [echo_steps|]. by eapply editing_esc.
    + rewrite (proj2 (Nat.ltb_lt _ _)) by (cbn [length]; lia).
      eexists. split; [unfold move_right; echo_steps|].
      pose proof (right_echoes e b x a) as Hl. rewrite (eg_cursor _ _ H), (eg_len _ _ H) in Hl.
      apply Hl. by rewrite He.
Qed.

(** One character. *)
Lemma read_char_echoes c e t :
  editing e t -> (c = 10 -> ct_esc t <> 0%nat) ->
  exists e', echoes (read_char c e) (inl e') /\ editing e' (type_char c t).
Proof.
  intros H Hnl. destruct t as [b a esc] eqn:Ht. pose proof (eg_esc _ _ H) as He. cbn [ct_esc] in *.
  unfold read_char. destruct (Z.eqb_spec c 27) as [->|Hc].
  { eexists. split; [echo_steps|]. by eapply editing_esc. }
  rewrite He. destruct (Nat.eqb_spec esc 0) as [->|Hesc]; cbn [negb].
  2: { destruct (handle_arrow_echoes c e _ H Hesc Hc) as (e' & Hr & He').
       exists e'. split; [|done]. eapply echoes_bind; [done|]. apply echoes_done. }
  rewrite (proj2 (Z.eqb_neq c 10)) by (intros ->; by apply Hnl).
  unfold type_char. rewrite (proj2 (Z.eqb_neq c 27)) by done. cbn [Nat.eqb negb].
  destruct ((c =? 127) || (c =? 8)).
  - destruct b as [|x b _] using rev_ind.
    + exists e. split; [|done]. unfold erase_before_cursor. rewrite (eg_cursor _ _ H). cbn. apply echoes_done.
    + destruct (erase_echoes e b x a H) as (e' & Hr & He'). exists e'. rewrite removelast_last.
      split; [|done]. eapply echoes_bind; [done|]. apply echoes_done.
  - destruct (Nat.ltb_spec (length b + length a) (LINE_SIZE - 1)) as [Hl|Hl].
    + destruct (insert_echoes e b a c H Hl) as (e' & Hr & He'). exists e'.
      split; [|done]. eapply echoes_bind; [done|]. apply echoes_done.
    + exists e. split; [|done]. unfold insert_at_cursor.
      rewrite (proj2 (Nat.leb_le _ _)); [echo_steps|]. rewrite (eg_len _ _ H). done.
Qed.

(** C25: editing a line is editing a text at a cursor: whatever is typed, the
    line that [read_line] returns is the one the reference editor makes of the
    characters, it is returned at the reference editor's newline, and nothing
    behind it is read. *)
Theorem read_line_edits fuel line cs o l rest :
  length line = LINE_SIZE -> (length cs <= fuel)%nat ->
  typed_line cs (CursorText [] [] 0) = Some (l, rest) ->
  exists o', run tty_kernel (read_line fuel line) (cs, o) = (Returned (Some l), (rest, o')).
Proof.
  intros Hline Hfuel Ht. unfold read_line.
  assert (editing (Edit line 0 0 0) (CursorText [] [] 0)) as He by (constructor; cbn; first [done|lia]).
  revert He Ht. generalize (Edit line 0 0 0) (CursorText [] [] 0).
  revert o fuel Hfuel. induction cs as [|c cs IH]; intros o fuel Hfuel e t He Ht; [done|].
  destruct fuel as [|fuel]; [cbn in Hfuel; lia|]. cbn [length] in Hfuel.
  cbn [typed_line] in Ht. cbn [read_line_loop]. cbn [pbind call run tty_kernel fst snd].
  change (s32 1 <=? 0) with false. cbn [hd]. rewrite run_pbind.
  destruct ((c =? 10) && (ct_esc t =? 0)%nat) eqn:Hnl.
  - apply andb_true_iff in Hnl as [->%Z.eqb_eq Hesc]. injection Ht as <- <-.
    unfold read_char. change (10 =? 27) with false. cbn iota.
    rewrite (eg_esc _ _ He), Hesc. cbn [negb]. rewrite (eg_text _ _ He). eexists. reflexivity.
  - destruct (read_char_echoes c e t He) as (e' & Hr & He').
    { intros -> Hesc. by rewrite Hesc in Hnl. }
    destruct (Hr cs o) as [o' ->]. by apply (IH o' fuel ltac:(lia) e' _ He').
Qed.


Definition sample_line : list Z := text "cat <f | wc>>out".
Lemma parse_args_tokens_witness :
  (length sample_line < LINE_SIZE)%nat /\
  exists ts, tokens sample_line ts /\ parse_args sample_line = take (MAX_ARGS - 1) ts.
Proof. split; [by apply Nat.ltb_lt|]. apply parse_args_tokens. by apply Nat.ltb_lt. Defined.
(** ["ab"], two arrows to the left, ["x"], an arrow to the right, a backspace. *)
Definition sample_keys : list Z := text "ab" ++ left_seq ++ left_seq ++ text "x" ++ right_seq ++ [127; 10; 113].
Lemma read_line_edits_witness :
  typed_line sample_keys (CursorText [] [] 0) = Some (text "xb", [113]) /\
  exists o', run tty_kernel (read_line 20 (replicate LINE_SIZE 0)) (sample_keys, []) = (Returned (Some (text "xb")), ([113], o')).
Proof.
  split; [reflexivity|]. apply (read_line_edits 20 (replicate LINE_SIZE 0) sample_keys [] (text "xb") [113]).
  - apply length_replicate.
  - by apply Nat.leb_le.
  - reflexivity.
Defined.
