(* ===== verification/ShellPipe.v ===== *)
(** Pipelines and redirections of the shell: every stage runs with its ends of
    the pipes as input and output and no other end open; when every fork
    succeeds the shell keeps none and the status of a pipeline is that of its
    last stage, and when one fails an end stays open. *)

From S2P Require Import Prelude Prog Shell.

(* ------------------------------------------------------------------ *)
(** ** Pipelines *)

(** What a descriptor stands for. *)
Inductive handle :=
| HOpen (n : nat)
| HFile (path : list Z) (flags : Z)
| HRead (pipe : nat)
| HWrite (pipe : nat).

(** The descriptors of the process that is followed: [fw_pipes] and [fw_forks]
    count the pipes and children asked for so far; of a [fork] whose number is
    [fw_follow] the child is followed, else the parent; [fw_ends] are the
    children that [wait] will report; [fw_exec] is what became of the process. *)
Record fd_world := FdWorld {
  fw_tab : list (option handle);
  fw_pipes : nat;
  fw_forks : nat;
  fw_follow : option nat;
  fw_ends : list (Z * Z);
  fw_exec : option (list Z * list (list Z));
}.
Definition fw_set_tab (t : list (option handle)) (w : fd_world) : fd_world :=
  FdWorld t (fw_pipes w) (fw_forks w) (fw_follow w) (fw_ends w) (fw_exec w).

(** [fdalloc]: the lowest free descriptor. *)
Fixpoint fd_alloc (tab : list (option handle)) (h : handle) : option (Z * list (option handle)) :=
  match tab with
  | [] => None
  | None :: t => Some (0, Some h :: t)
  | Some x :: t =>
      match fd_alloc t h with Some (i, t) => Some (i + 1, Some x :: t) | None => None end
  end.
Definition fd_get (tab : list (option handle)) (fd : Z) : option handle :=
  if fd <? 0 then None else mjoin (tab !! Z.to_nat fd).

Definition child_pid (k : nat) : Z := 2 + Z.of_nat k.

Section kernel.
(** What [open] and [exec] find; which calls of [fork] and of [pipe], by their
    number, succeed: [fork] fails when there is no free process or no memory,
    [pipe] when there is no free file, descriptor or page. *)
Context (opens : list Z -> Z -> bool) (execs : list Z -> bool) (forks_ok pipes_ok : nat -> bool).

(** The calls of [kernel/syscall/sysfile.c] and [sysproc.c] as a process sees
    them. *)
Definition fd_kernel (X : Type) (e : sysE X) (w : fd_world) : option X * fd_world :=
  match e in sysE X return option X * fd_world with
  | SysFork =>
      let forks := S (fw_forks w) in
      if negb (forks_ok (fw_forks w))
      then (Some (-1), FdWorld (fw_tab w) (fw_pipes w) forks (fw_follow w) (fw_ends w) (fw_exec w))
      else if decide (fw_follow w = Some (fw_forks w))
      then (Some 0, FdWorld (fw_tab w) (fw_pipes w) forks None [] (fw_exec w))
      else (Some (child_pid (fw_forks w)),
            FdWorld (fw_tab w) (fw_pipes w) forks (fw_follow w) (fw_ends w) (fw_exec w))
  | SysClose fd =>
      match fd_get (fw_tab w) fd with
      | Some _ => (Some 0, fw_set_tab (<[Z.to_nat fd := None]> (fw_tab w)) w)
      | None => (Some (-1), w)
      end
  | SysDup fd =>
      match fd_get (fw_tab w) fd with
      | Some h =>
          match fd_alloc (fw_tab w) h with
          | Some (i, t) => (Some i, fw_set_tab t w)
          | None => (Some (-1), w)
          end
      | None => (Some (-1), w)
      end
  | SysOpen path flags =>
      if opens path flags then
        match fd_alloc (fw_tab w) (HFile path flags) with
        | Some (i, t) => (Some i, fw_set_tab t w)
        | None => (Some (-1), w)
        end
      else (Some (-1), w)
  | SysPipe =>
      let made t := FdWorld t (S (fw_pipes w)) (fw_forks w) (fw_follow w) (fw_ends w) (fw_exec w) in
      match (if pipes_ok (fw_pipes w) then fd_alloc (fw_tab w) (HRead (fw_pipes w)) else None) with
      | Some (r, t) =>
          match fd_alloc t (HWrite (fw_pipes w)) with
          | Some (x, t) => (Some (0, Some (r, x)), made t)
          | None => (Some (-1, None), made (fw_tab w))
          end
      | None => (Some (-1, None), made (fw_tab w))
      end
  | SysWait =>
      match fw_ends w with
      | [] => (Some (-1, None), w)
      | (pid, status) :: l =>
          (Some (pid, Some status),
           FdWorld (fw_tab w) (fw_pipes w) (fw_forks w) (fw_follow w) l (fw_exec w))
      end
  | SysExec path argv _ =>
      if execs path
      then (None, FdWorld (fw_tab w) (fw_pipes w) (fw_forks w) (fw_follow w) (fw_ends w) (Some (path, argv)))
      else (Some (-1), w)
  | SysExit _ => (None, w)
  | SysWrite _ s => (Some (Z.of_nat (length s)), w)
  | SysLseek _ off _ => (Some off, w)
  | e => (Some (deny e), w)
  end.

Lemma fd_exit n w : fst (fd_kernel _ (SysExit n) w) = None.
Proof. reflexivity. Qed.
Abbreviation defined := (defined fd_kernel).
Abbreviation ends_gone := (ends_gone fd_kernel).
Lemma fd_gone_exit {B} n (f : Z -> prog B) : ends_gone (pbind (call (SysExit n)) f).
Proof. by apply gone_exit. Qed.
#[local] Hint Resolve defined_done defined_call defined_bind fd_gone_exit : core.

Lemma defined_write s : defined (write_str s).
Proof. unfold write_str, write_bytes. eauto. Qed.
#[local] Hint Resolve defined_write : core.

Lemma defined_exec_path_loop path dir args env : defined (exec_path_loop path dir args env).
Proof.
  assert (forall dir, defined (let '(p, ok) := build_path LINE_SIZE dir (default [] (args !! 0%nat)) in
    if ok : bool then call (SysExec p args env) ;;~ Done tt else Done tt)) as Htry.
  { intros d. destruct (build_path _ _ _) as [p [|]]; eauto. }
  revert dir. induction path as [|c path IH]; intros dir; cbn [exec_path_loop]; [apply Htry|].
  destruct (c =? 58); [apply defined_bind; [apply Htry|eauto]|apply IH].
Qed.
Lemma exec_command_gone args sh : ends_gone (exec_command args sh).
Proof.
  destruct args as [|a args]; [apply fd_gone_exit|]. unfold exec_command, exec_from_path.
  apply gone_bind; [destruct (has_slash a); eauto using defined_exec_path_loop|].
  intros _. apply gone_bind; [done|]. intros _. apply fd_gone_exit.
Qed.

Lemma defined_redirect_fd fd path flags append : defined (redirect_fd fd path flags append).
Proof.
  unfold redirect_fd. repeat (apply defined_bind; [done|]; intros ?).
  destruct (s32 _ <? 0); [done|]. destruct append; [|done].
  apply defined_bind; [done|]. intros r. by destruct (s32 r <? 0).
Qed.
Lemma defined_syntax_error t : defined (print_redirection_syntax_error t).
Proof. unfold print_redirection_syntax_error. repeat (apply defined_bind; [apply defined_write|]; intros ?). apply defined_write. Qed.
Lemma defined_apply_redir fuel argv i : defined (apply_redir_loop fuel argv i).
Proof.
  revert argv i. induction fuel as [|f IH]; intros argv i; cbn [apply_redir_loop];
    destruct (mjoin (argv !! i)) as [a|]; try apply defined_done.
  destruct (_ && _); [apply IH|]. destruct (mjoin (argv !! S i)) as [path|].
  2: { apply defined_bind; [apply defined_syntax_error|done]. }
  repeat (apply defined_bind; [case_match; [apply defined_redirect_fd|apply defined_done]|]; intros ?;
    case_match; [apply defined_done|]).
  apply IH.
Qed.

Lemma run_child_gone argv at_ sh : ends_gone (run_child argv at_ sh).
Proof.
  unfold run_child. apply gone_bind; [apply defined_apply_redir|]. intros [r argv'].
  apply gone_bind; [destruct (r <? 0); eauto|]. intros _. apply exec_command_gone.
Qed.

(** The descriptors of the shell, with its three streams open, before stage
    [k]: the end of the pipe from the stage before, if it could be made, is its
    [prev_read]. *)
Section plumbing.
Context (h0 h1 h2 : handle).
Definition shell_tab : list (option handle) := Some h0 :: Some h1 :: Some h2 :: replicate 13 None.
Inductive plumbed : nat -> Z -> list (option handle) -> Prop :=
| plumbed_first : plumbed 0 (-1) shell_tab
| plumbed_odd k : pipes_ok k = true ->
    plumbed (S k) 3 (Some h0 :: Some h1 :: Some h2 :: Some (HRead k) :: replicate 12 None)
| plumbed_even k : pipes_ok k = true ->
    plumbed (S k) 4 (Some h0 :: Some h1 :: Some h2 :: None :: Some (HRead k) :: replicate 11 None)
| plumbed_none k : pipes_ok k = false -> plumbed (S k) (-1) shell_tab.

(** The read end of the pipe before stage [k]. *)
Definition pipe_before (k : nat) : list handle :=
  match k with O => [] | S j => if pipes_ok j then [HRead j] else [] end.
(** The descriptors a stage runs with: the pipe from the stage before as its
    input, the pipe to the next one as its output, and no other end. Without
    the pipe before it the stage has the shell's input, without the pipe behind
    it no output. *)
Definition stage_tab (k : nat) (more : bool) : list (option handle) :=
  Some (default h0 (head (pipe_before k)))
  :: (if more then if pipes_ok k then Some (HWrite k) else None else Some h1)
  :: Some h2 :: replicate 13 None.

Lemma plumbed_ends k prev t :
  plumbed k prev t -> take 3 t = take 3 shell_tab /\ omap id (drop 3 t) = pipe_before k.
Proof. intros H. destruct H as [|k E|k E|k E]; split; try done; cbn; by rewrite E. Qed.

Lemma plumb_pipe k prev t nf fo en ex :
  plumbed k prev t ->
  exists res r x t',
    fd_kernel _ SysPipe (FdWorld t k nf fo en ex) = (Some res, FdWorld t' (S k) nf fo en ex) /\
    default (-1, -1) (snd res) = (r, x) /\
    (forall nf' fo' en' ex', exists t2,
      run fd_kernel (close_if prev ;;~ close_if x) (FdWorld t' (S k) nf' fo' en' ex')
        = (Returned tt, FdWorld t2 (S k) nf' fo' en' ex') /\ plumbed (S k) r t2) /\
    (forall nf' fo' en' ex',
      run fd_kernel (close_if r ;;~ close_if x) (FdWorld t' (S k) nf' fo' en' ex')
        = (Returned tt, FdWorld t (S k) nf' fo' en' ex')) /\
    (forall argv at_ sh nf' fo' en' ex',
      run fd_kernel (pipeline_child argv at_ sh prev (r, x) true) (FdWorld t' (S k) nf' fo' en' ex')
        = run fd_kernel (run_child argv at_ sh) (FdWorld (stage_tab k true) (S k) nf' fo' en' ex')).
Proof.
  intros H. cbn [fd_kernel fw_pipes fw_tab fw_forks fw_follow fw_ends fw_exec].
  destruct (pipes_ok k) eqn:Hk; destruct H as [|j E|j E|j E]; eexists _, _, _, _;
    (split; [reflexivity|]); (split; [reflexivity|]); unfold stage_tab, pipe_before; rewrite Hk, ?E;
    (split; [|split; intros; reflexivity]); intros; eexists; (split; [reflexivity|]);
    first [by apply plumbed_none|by apply plumbed_odd|by apply plumbed_even].
Qed.
Lemma plumb_last k prev t :
  plumbed k prev t ->
  (forall np nf fo en ex,
    run fd_kernel (close_if prev) (FdWorld t np nf fo en ex) = (Returned tt, FdWorld shell_tab np nf fo en ex)) /\
  (forall argv at_ sh np nf fo en ex,
    run fd_kernel (pipeline_child argv at_ sh prev (-1, -1) false) (FdWorld t np nf fo en ex)
      = run fd_kernel (run_child argv at_ sh) (FdWorld (stage_tab k false) np nf fo en ex)).
Proof.
  intros H. destruct H as [|j E|j E|j E]; unfold stage_tab, pipe_before; rewrite ?E; (split; intros; reflexivity).
Qed.

Lemma s32_child_pid k : (k < 100)%nat -> s32 (child_pid k) = child_pid k /\ 0 < child_pid k.
Proof.
  intros H. assert (2 <= child_pid k < 102) as Hp by (unfold child_pid; lia).
  split; [|lia]. apply s32_id. lia.
Qed.

(** One round of the loop: the pipe is asked for if another stage follows. *)
Lemma pipeline_pipe k prev t fo en ex (more : bool) :
  plumbed k prev t ->
  exists r x t',
    run fd_kernel (if more then do! r := call SysPipe in Done (default (-1, -1) (snd r)) else Done (-1, -1))
      (FdWorld t k k fo en ex)
      = (Returned (r, x), FdWorld t' (if more then S k else k) k fo en ex) /\
    (forall nf' fo' en' ex', exists t2,
      run fd_kernel (close_if prev ;;~ close_if x) (FdWorld t' (if more then S k else k) nf' fo' en' ex')
        = (Returned tt, FdWorld t2 (if more then S k else k) nf' fo' en' ex') /\
      (if more then plumbed (S k) r t2 else r = -1 /\ t2 = shell_tab)) /\
    (forall nf' fo' en' ex',
      run fd_kernel (close_if r ;;~ close_if x) (FdWorld t' (if more then S k else k) nf' fo' en' ex')
        = (Returned tt, FdWorld t (if more then S k else k) nf' fo' en' ex')) /\
    (forall argv at_ sh nf' fo' en' ex',
      run fd_kernel (pipeline_child argv at_ sh prev (r, x) more) (FdWorld t' (if more then S k else k) nf' fo' en' ex')
        = run fd_kernel (run_child argv at_ sh) (FdWorld (stage_tab k more) (if more then S k else k) nf' fo' en' ex')).
Proof.
  intros Hp. destruct more.
  - destruct (plumb_pipe _ _ _ k fo en ex Hp) as (res & r & x & t' & Hpipe & Hres & Hrest). exists r, x, t'.
    split; [|exact Hrest]. rewrite run_call, Hpipe. cbn [run]. by rewrite Hres.
  - destruct (plumb_last _ _ _ Hp) as [Hclose Hchild]. exists (-1), (-1), t. split_and!; [done| |done|intros; apply Hchild].
    intros nf' fo' en' ex'. exists shell_tab. split; [|done].
    rewrite (run_returned _ _ _ _ _ _ (Hclose _ _ _ _ _)). reflexivity.
Qed.

(** Rounds of the loop as the child and as the shell. *)
Lemma pipeline_loop_child argv sh en ex stages k prev t cc lp i at_ :
  (forall j, (k <= j <= i)%nat -> forks_ok j = true) ->
  plumbed k prev t -> (k <= i)%nat -> stages !! (i - k)%nat = Some at_ -> (k + length stages < 100)%nat ->
  run fd_kernel (pipeline_loop argv stages sh prev cc lp) (FdWorld t k k (Some i) en ex)
    = (Gone, snd (run fd_kernel (run_child argv at_ sh)
        (let more := bool_decide (i + 1 < k + length stages)%nat in
         FdWorld (stage_tab i more) (if more then S i else i) (S i) None [] ex))).
Proof.
  revert k prev t cc lp. induction stages as [|s stages IH]; intros k prev t cc lp Hok Hp Hi Hs Hlen; [done|].
  cbn [length] in Hlen. cbn [pipeline_loop]. cbv zeta.
  destruct (s32_child_pid k) as [Hpid1 Hpid2]; [lia|].
  set (more := match stages with [] => false | _ => true end).
  destruct (pipeline_pipe k prev t (Some i) en ex more) as (r & x & t' & E & Hparent & _ & Hchild); [exact Hp|].
  rewrite (run_returned _ _ _ _ _ _ E). clear E. rewrite run_call. cbn [fd_kernel fw_follow fw_forks]. rewrite Hok by lia. cbn [negb].
  destruct (decide (Some i = Some k)) as [[= ->]|Hik].
  - rewrite Nat.sub_diag in Hs. injection Hs as ->. cbn [fw_tab fw_pipes fw_exec].
    change (s32 0) with 0. cbn [Z.ltb Z.compare Z.eqb]. rewrite run_pbind, Hchild.
    replace (bool_decide (k + 1 < k + length (at_ :: stages))%nat) with more
      by (unfold more; destruct stages; cbn [length]; [rewrite bool_decide_eq_false_2|rewrite bool_decide_eq_true_2]; [done|lia|done|lia]).
    pose proof (run_child_gone argv at_ sh (FdWorld (stage_tab k more) (if more then S k else k) (S k) None [] ex)) as Hg.
    cbv zeta. by destruct (run fd_kernel (run_child argv at_ sh) _) as [[| | |] w'].
  - assert (i <> k) by congruence. cbn [fw_tab fw_pipes fw_exec fw_ends].
    rewrite Hpid1. rewrite (proj2 (Z.ltb_ge _ 0)), (proj2 (Z.eqb_neq _ 0)) by lia.
    rewrite (run_returned _ (Done _) _ _ _ _ eq_refl). cbn [fst snd].
    replace (i - k)%nat with (S (i - S k)) in Hs by lia. cbn [lookup list_lookup] in Hs.
    assert (more = true) as Hm by (unfold more; by destruct stages). rewrite Hm in *.
    destruct (Hparent (S k) (Some i) en ex) as (t2 & Hrun & Hp2).
    pose proof (IH (S k) r t2 (S cc) (child_pid k)) as Hih.
    specialize (Hih ltac:(intros; apply Hok; lia) Hp2 ltac:(lia) Hs ltac:(lia)).
    replace (S k + length stages)%nat with (k + length (s :: stages))%nat in Hih by (cbn [length]; lia).
    etransitivity; [|exact Hih]. by rewrite (run_returned2 _ _ _ _ _ _ _ Hrun).
Qed.

Lemma pipeline_loop_parent argv sh en ex stages k prev t cc lp :
  (forall j, (k <= j < k + length stages)%nat -> forks_ok j = true) ->
  plumbed k prev t -> stages <> [] -> (k + length stages < 100)%nat ->
  run fd_kernel (pipeline_loop argv stages sh prev cc lp) (FdWorld t k k None en ex)
    = (Returned (Some (-1, (cc + length stages)%nat, child_pid (k + length stages - 1))),
       FdWorld shell_tab (k + length stages - 1) (k + length stages) None en ex).
Proof.
  revert k prev t cc lp. induction stages as [|s stages IH]; intros k prev t cc lp Hok Hp Hne Hlen; [done|].
  cbn [length] in Hlen, Hok. cbn [pipeline_loop]. cbv zeta.
  destruct (s32_child_pid k) as [Hpid1 Hpid2]; [lia|].
  destruct (pipeline_pipe k prev t None en ex (match stages with [] => false | _ => true end))
    as (r & x & t' & E & Hparent & _); [exact Hp|].
  rewrite (run_returned _ _ _ _ _ _ E). clear E. rewrite run_call. cbn [fd_kernel fw_follow fw_forks]. rewrite Hok by lia. cbn [negb].
  rewrite decide_False by done. cbn [fw_tab fw_pipes fw_exec fw_ends fw_follow].
  rewrite Hpid1. rewrite (proj2 (Z.ltb_ge _ 0)), (proj2 (Z.eqb_neq _ 0)) by lia.
  rewrite (run_returned _ (Done _) _ _ _ _ eq_refl). cbn [fst snd].
  destruct (Hparent (S k) None en ex) as (t2 & Hrun & Hp2).
  rewrite (run_returned2 _ _ _ _ _ _ _ Hrun). destruct stages as [|s2 stages].
  - destruct Hp2 as [-> ->]. cbn [pipeline_loop run length]. replace (cc + 1)%nat with (S cc) by lia.
    replace (k + 1 - 1)%nat with k by lia. by replace (k + 1)%nat with (S k) by lia.
  - rewrite (IH (S k) r t2 (S cc) (child_pid k)); [|intros; apply Hok; cbn [length] in *; lia|done|done|cbn [length] in *; lia].
    replace (S k + length (s2 :: stages))%nat with (k + length (s :: s2 :: stages))%nat by (cbn [length]; lia).
    by replace (S cc + length (s2 :: stages))%nat with (cc + length (s :: s2 :: stages))%nat by (cbn [length]; lia).
Qed.

(** The fork of stage [j] fails. *)
Lemma pipeline_loop_fork_fails argv sh en ex stages k prev t cc lp j :
  (forall i, (k <= i < j)%nat -> forks_ok i = true) -> forks_ok j = false -> (k <= j < k + length stages)%nat ->
  plumbed k prev t -> (k + length stages < 100)%nat ->
  exists prev' t',
    run fd_kernel (pipeline_loop argv stages sh prev cc lp) (FdWorld t k k None en ex)
      = (Returned None, FdWorld t' (if bool_decide (j + 1 < k + length stages)%nat then S j else j) (S j) None en ex) /\
    plumbed j prev' t'.
Proof.
  revert k prev t cc lp. induction stages as [|s stages IH]; intros k prev t cc lp Hok Hj Hkj Hp Hlen; [cbn in Hkj; lia|].
  cbn [length] in Hlen, Hkj. cbn [pipeline_loop]. cbv zeta.
  destruct (s32_child_pid k) as [Hpid1 Hpid2]; [lia|].
  set (more := match stages with [] => false | _ => true end).
  destruct (pipeline_pipe k prev t None en ex more) as (r & x & t' & E & Hparent & Hback & _); [exact Hp|].
  rewrite (run_returned _ _ _ _ _ _ E). clear E. rewrite run_call. cbn [fd_kernel fw_follow fw_forks]. destruct (decide (j = k)) as [->|Hjk].
  - rewrite Hj. cbn [negb fw_tab fw_pipes fw_exec fw_ends fw_follow]. change (s32 (-1)) with (-1). cbn [Z.ltb Z.compare].
    exists prev, t. split; [|done]. cbn [length].
    replace (bool_decide (k + 1 < k + S (length stages))%nat) with more
      by (unfold more; destruct stages; cbn [length]; [rewrite bool_decide_eq_false_2|rewrite bool_decide_eq_true_2]; [done|lia|done|lia]).
    unfold write_str, write_bytes. rewrite run_pbind, run_call. cbn [fd_kernel].
    change (run fd_kernel (close_if r ;;~ close_if x ;;~ Done (@None (Z * nat * Z)))
      (FdWorld t' (if more then S k else k) (S k) None en ex) = (Returned None, FdWorld t (if more then S k else k) (S k) None en ex)).
    by rewrite (run_returned2 _ _ _ _ _ _ _ (Hback _ _ _ _)).
  - rewrite Hok by lia. cbn [negb]. rewrite decide_False by done. cbn [fw_tab fw_pipes fw_exec fw_ends fw_follow].
    rewrite Hpid1. rewrite (proj2 (Z.ltb_ge _ 0)), (proj2 (Z.eqb_neq _ 0)) by lia.
    rewrite (run_returned _ (Done _) _ _ _ _ eq_refl). cbn [fst snd].
    destruct (Hparent (S k) None en ex) as (t2 & Hrun & Hp2).
    rewrite (run_returned2 _ _ _ _ _ _ _ Hrun).
    assert (more = true) as Hm by (unfold more; destruct stages; [cbn in Hkj; lia|done]). rewrite Hm in *.
    destruct (IH (S k) r t2 (S cc) (child_pid k)) as (prev' & t3 & E & Hp3);
      [intros; apply Hok; lia|done|lia|done|lia|].
    exists prev', t3. rewrite E. split; [|done].
    by replace (S k + length stages)%nat with (k + length (s :: stages))%nat by (cbn [length]; lia).
Qed.

(** The status that [wait_loop] ends with. *)
Definition status_of (last_pid : Z) (ends : list (Z * Z)) (acc : Z) : Z :=
  foldl (fun acc e => if s32 (fst e) =? last_pid then snd e else acc) acc ends.
Lemma wait_loop_status ends last_pid acc w :
  fw_ends w = ends ->
  run fd_kernel (wait_loop (length ends) last_pid acc) w
    = (Returned (status_of last_pid ends acc),
       FdWorld (fw_tab w) (fw_pipes w) (fw_forks w) (fw_follow w) [] (fw_exec w)).
Proof.
  revert acc w. induction ends as [|[pid status] ends IH]; intros acc w Hw; destruct w; cbn in Hw; subst; [done|].
  cbn [length wait_loop]. unfold wait_for_child. rewrite run_pbind, run_call.
  cbn [fd_kernel fw_ends run fst snd default from_option]. unfold id. by rewrite IH.
Qed.
Lemma status_of_in ends last_pid status acc :
  Forall (fun e => s32 (fst e) = fst e) ends -> NoDup (fst <$> ends) -> (last_pid, status) ∈ ends ->
  status_of last_pid ends acc = status.
Proof.
  unfold status_of. revert acc. induction ends as [|[p s] ends IH]; intros acc Hs Hnd Hin; [by apply not_elem_of_nil in Hin|].
  cbn [fmap list_fmap fst] in Hnd. apply NoDup_cons in Hnd as [Hp Hnd].
  apply Forall_cons in Hs as [Hps Hs]. cbn [foldl fst snd] in *. rewrite Hps.
  apply elem_of_cons in Hin as [[= <- <-]|Hin]; [|by apply IH].
  rewrite Z.eqb_refl. clear IH Hps. revert status.
  induction ends as [|[p' s'] ends IH]; intros status; [done|].
  cbn [fmap list_fmap fst] in Hp, Hnd. apply NoDup_cons in Hnd as [_ Hnd].
  apply Forall_cons in Hs as [Hps Hs]. apply not_elem_of_cons in Hp as [Hne Hp].
  cbn [foldl fst snd] in *. rewrite Hps. rewrite (proj2 (Z.eqb_neq p' last_pid)) by congruence. by apply IH.
Qed.

(** The children of a pipeline with the statuses they exit with. *)
Definition children (statuses : list Z) : list (Z * Z) :=
  zip (child_pid <$> seq 0 (length statuses)) statuses.
Lemma children_pids statuses : fst <$> children statuses = child_pid <$> seq 0 (length statuses).
Proof. unfold children. rewrite fst_zip; [done|]. by rewrite length_fmap, length_seq. Qed.
Lemma children_NoDup statuses : NoDup (fst <$> children statuses).
Proof.
  rewrite children_pids. apply NoDup_fmap_2; [|apply NoDup_ListNoDup, seq_NoDup].
  intros i j. unfold child_pid. lia.
Qed.
Lemma children_last statuses status :
  last statuses = Some status -> (child_pid (length statuses - 1), status) ∈ children statuses.
Proof.
  intros H. rewrite last_lookup in H. apply list_elem_of_lookup. exists (length statuses - 1)%nat.
  apply lookup_lt_Some in H as Hl. replace (pred (length statuses)) with (length statuses - 1)%nat in H by lia.
  unfold children. apply lookup_zip_with_Some. exists (child_pid (length statuses - 1)), status.
  split_and!; [done| |done]. rewrite list_lookup_fmap, lookup_seq_lt by lia. done.
Qed.
Lemma children_s32 statuses :
  (length statuses < 100)%nat -> Forall (fun e => s32 (fst e) = fst e) (children statuses).
Proof.
  intros Hl. apply Forall_forall. intros [p s] Hin. cbn.
  apply (list_elem_of_fmap_2 fst) in Hin. rewrite children_pids in Hin. cbn in Hin.
  apply list_elem_of_fmap in Hin as (k & -> & Hk%elem_of_seq). apply s32_child_pid. lia.
Qed.


End plumbing.
End kernel.

(** [a | b | c]. *)
Definition sample_argv : list (option (list Z)) := [Some (text "a"); None; Some (text "b"); None; Some (text "c"); None].
Definition sample_exec (path : list Z) : bool := true.
Definition sample_open (path : list Z) (flags : Z) : bool := true.
Definition sample_calls (k : nat) : bool := true.
(** The second call fails. *)
Definition sample_second (k : nat) : bool := negb (k =? 1)%nat.
