(* ===== verification/Tools.v ===== *)
(** The file tools of [src/user]: [echo], [cat], [clear], [touch], [mkdir],
    [rm], [ls], [cp], [install], [mv], [cmp] and [hexdump], as programs over the
    system calls of [Prog.v].

    [argv] is the list of the arguments, the program's name first; a loop over
    the reads of a file has the number of reads as its fuel. *)

From S2P Require Import Prelude Prog Fs.

(* ------------------------------------------------------------------ *)
(** ** Reading and writing *)

Definition fd_write_bytes (fd : Z) (s : list Z) : prog unit := call (SysWrite fd s) ;;~ Done tt.
Definition fd_write_str (fd : Z) (s : list Z) : prog unit := fd_write_bytes fd s.
Definition exit_with (status : Z) : prog unit := call (SysExit status) ;;~ Done tt.
Definition close_status (fd : Z) : prog Z := do! r := call (SysClose fd) in Done (s32 r).
Definition arg (argv : list (list Z)) (i : nat) : list Z := default [] (argv !! i).

(** [n = (int)read(fd, buf, cap)] and the bytes read. *)
Definition read_fd (fd cap : Z) : prog (Z * list Z) :=
  do! r := call (SysRead fd cap) in
  let n := s32 (fst r) in Done (n, take (Z.to_nat n) (snd r)).

(** [while ((n = read(fd, buf, cap)) > 0) body]: the variables of the body and
    the [n] that ends the loop. *)
Fixpoint read_all {A} (fuel : nat) (fd cap : Z) (body : list Z -> A -> prog A) (a : A) : prog (A * Z) :=
  match fuel with
  | O => Spin
  | S f =>
      do! '(n, buf) := read_fd fd cap in
      if 0 <? n then do! a := body buf a in read_all f fd cap body a
      else Done (a, n)
  end.
(** The same with a body that can leave the loop, by [inr]. *)
Fixpoint read_until {A B} (fuel : nat) (fd cap : Z) (body : list Z -> A -> prog (A + B)) (a : A) :
    prog (A * Z + B) :=
  match fuel with
  | O => Spin
  | S f =>
      do! '(n, buf) := read_fd fd cap in
      if 0 <? n then
        do! x := body buf a in
        match x with inl a => read_until f fd cap body a | inr b => Done (inr b) end
      else Done (inl (a, n))
  end.

(** [uint64] in decimal; [pos] is the room left in front in [buf]. *)
Fixpoint write_uint_loop (pos : nat) (value : Z) (buf : list Z) : list Z :=
  match pos with
  | O => buf
  | S p => if 0 <? value then write_uint_loop p (value / 10) (48 + value mod 10 :: buf) else buf
  end.
Definition write_uint (value : Z) : prog unit :=
  if value =? 0 then fd_write_str STDOUT_FD (text "0")
  else fd_write_bytes STDOUT_FD (write_uint_loop 24 value []).

(** ["<tool>: <what> <path>\n"]. *)
Definition complain (what path : list Z) : prog unit :=
  fd_write_str STDERR_FD what ;;~ fd_write_str STDERR_FD path ;;~ fd_write_str STDERR_FD [10].

(* ------------------------------------------------------------------ *)
(** ** echo, cat and clear *)

Fixpoint echo_loop (args : list (list Z)) : prog unit :=
  match args with
  | [] => Done tt
  | a :: args' =>
      fd_write_str STDOUT_FD a ;;~
      (match args' with [] => Done tt | _ => fd_write_str STDOUT_FD [32] end) ;;~
      echo_loop args'
  end.
Definition echo_main (argv : list (list Z)) : prog unit :=
  echo_loop (tail argv) ;;~ fd_write_str STDOUT_FD [10] ;;~ exit_with 0.

Definition do_cat (fuel : nat) (fd : Z) : prog unit :=
  read_all fuel fd 512 (fun buf _ => fd_write_bytes STDOUT_FD buf) tt ;;~ Done tt.
Fixpoint cat_loop (fuel : nat) (args : list (list Z)) : prog unit :=
  match args with
  | [] => Done tt
  | path :: args' =>
      do! r := call (SysOpen path O_RDONLY) in
      let fd := s32 r in
      (if fd <? 0 then
         fd_write_str STDOUT_FD (text "cat: cannot open ") ;;~ fd_write_str STDOUT_FD path ;;~
         fd_write_str STDOUT_FD [10]
       else do_cat fuel fd ;;~ call (SysClose fd) ;;~ Done tt) ;;~
      cat_loop fuel args'
  end.
Definition cat_main (fuel : nat) (argv : list (list Z)) : prog unit :=
  (if (length argv <=? 1)%nat then do_cat fuel 0 ;;~ exit_with 0 else Done tt) ;;~
  cat_loop fuel (tail argv) ;;~
  exit_with 0.

Definition clear_main : prog unit :=
  fd_write_str STDOUT_FD [27; 91; 50; 74; 27; 91; 72] ;;~ exit_with 0.

(* ------------------------------------------------------------------ *)
(** ** touch, mkdir and rm *)

Definition touch_main (argv : list (list Z)) : prog unit :=
  (if (length argv <=? 1)%nat then exit_with 0 else Done tt) ;;~
  do! r := call (SysOpen (arg argv 1) (Z.lor O_CREAT O_RDWR)) in
  let fd := s32 r in
  (if fd <? 0 then
     fd_write_str STDOUT_FD (text "touch: failed to create file" ++ [10]) ;;~ exit_with (-1)
   else Done tt) ;;~
  call (SysClose fd) ;;~
  exit_with 0.

Definition mkdir_main (argv : list (list Z)) : prog unit :=
  (if (length argv <=? 1)%nat then exit_with 0 else Done tt) ;;~
  do! r := call (SysMkdir (arg argv 1)) in
  (if s32 r <? 0 then
     fd_write_str STDOUT_FD (text "mkdir: failed to create directory" ++ [10]) ;;~ exit_with (-1)
   else Done tt) ;;~
  exit_with 0.

Fixpoint rm_loop (args : list (list Z)) : prog unit :=
  match args with
  | [] => Done tt
  | path :: args' =>
      do! r := call (SysUnlink path) in
      (if s32 r <? 0 then
         fd_write_str STDOUT_FD (text "rm: failed to delete ") ;;~ fd_write_str STDOUT_FD path ;;~
         fd_write_str STDOUT_FD [10]
       else Done tt) ;;~
      rm_loop args'
  end.
Definition rm_main (argv : list (list Z)) : prog unit :=
  (if (length argv <? 2)%nat then
     fd_write_str STDOUT_FD (text "Usage: rm files..." ++ [10]) ;;~ exit_with 1
   else Done tt) ;;~
  rm_loop (tail argv) ;;~
  exit_with 0.

(* ------------------------------------------------------------------ *)
(** ** ls *)

(** The name of an entry as a C string: [None] when it fills [name], whose end
    the C code then reads past. *)
Definition entry_name (de : dirent) : option (list Z) :=
  if existsb (fun c => c =? 0) (de_name de) then Some (cstr (de_name de)) else None.
Fixpoint ls_loop (fuel : nat) (fd : Z) : prog unit :=
  match fuel with
  | O => Spin
  | S f =>
      do! '(n, buf) := read_fd fd 16 in
      if n =? 16 then
        let de := dirent_of buf in
        if de_inum de =? 0 then ls_loop f fd
        else
          match entry_name de with
          | None => Undef
          | Some name =>
              fd_write_str STDOUT_FD name ;;~ fd_write_bytes STDOUT_FD [32] ;;~ ls_loop f fd
          end
      else Done tt
  end.
Definition ls_main (fuel : nat) (argv : list (list Z)) : prog unit :=
  let path := if (1 <? length argv)%nat then arg argv 1 else text "." in
  do! r := call (SysOpen path O_RDONLY) in
  let fd := s32 r in
  (if fd <? 0 then
     fd_write_str STDOUT_FD (text "ls: cannot open path" ++ [10]) ;;~ exit_with (-1)
   else Done tt) ;;~
  do! st := call (SysFstat fd) in
  (if s32 (fst st) <? 0 then call (SysClose fd) ;;~ exit_with (-1) else Done tt) ;;~
  match snd st with
  | None => Undef
  | Some st =>
      (if st_type st =? T_FILE then
         fd_write_str STDOUT_FD path ;;~ fd_write_bytes STDOUT_FD [32]
       else if st_type st =? T_DIR then ls_loop fuel fd
       else Done tt) ;;~
      fd_write_bytes STDOUT_FD [10] ;;~
      call (SysClose fd) ;;~
      exit_with 0
  end.

(* ------------------------------------------------------------------ *)
(** ** cp and install *)

(** [while (written < n) { m = write(...); ... written += m; }]: whether all of
    [buf] was written; [fuel] bounds the writes. *)
Fixpoint write_loop (fuel : nat) (fd : Z) (buf : list Z) (written n : Z) : prog bool :=
  match fuel with
  | O => if written <? n then Spin else Done true
  | S f =>
      if written <? n then
        do! m := call (SysWrite fd (slice buf (Z.to_nat written) (Z.to_nat (n - written)))) in
        if s32 m <=? 0 then Done false else write_loop f fd buf (s32 (written + s32 m)) n
      else Done true
  end.

(** [copy_file] of [cp], and [install_file], which has another name in its
    messages. *)
Definition copy_file_as (tool : list Z) (fuel : nat) (src dst : list Z) : prog Z :=
  do! r := call (SysOpen src O_RDONLY) in
  let in_fd := s32 r in
  if in_fd <? 0 then complain (tool ++ text ": cannot open ") src ;;~ Done (-1)
  else
    do! r := call (SysOpen dst (Z.lor (Z.lor O_WRONLY O_CREAT) O_TRUNC)) in
    let out_fd := s32 r in
    if out_fd <? 0 then
      complain (tool ++ text ": cannot create ") dst ;;~ close_status in_fd ;;~ Done (-1)
    else
      do! x := read_until fuel in_fd 512 (fun buf _ =>
        let n := Z.of_nat (length buf) in
        do! ok := write_loop (length buf) out_fd buf 0 n in
        if ok : bool then Done (inl tt)
        else
          complain (tool ++ text ": write error ") dst ;;~
          close_status in_fd ;;~ close_status out_fd ;;~ Done (inr (-1))) tt in
      match x with
      | inr r => Done r
      | inl (_, n) =>
          if n <? 0 then
            complain (tool ++ text ": read error ") src ;;~
            close_status in_fd ;;~ close_status out_fd ;;~ Done (-1)
          else
            do! a := close_status in_fd in
            if a <? 0 then Done (-1)
            else do! b := close_status out_fd in if b <? 0 then Done (-1) else Done 0
      end.
Definition copy_file : nat -> list Z -> list Z -> prog Z := copy_file_as (text "cp").
Definition install_file : nat -> list Z -> list Z -> prog Z := copy_file_as (text "install").

Definition cp_main (fuel : nat) (argv : list (list Z)) : prog unit :=
  (if negb (length argv =? 3)%nat then
     fd_write_str STDERR_FD (text "usage: cp SRC DST" ++ [10]) ;;~ exit_with 1
   else Done tt) ;;~
  do! r := copy_file fuel (arg argv 1) (arg argv 2) in
  exit_with (if r <? 0 then -1 else 0).
Definition install_main (fuel : nat) (argv : list (list Z)) : prog unit :=
  (if negb (length argv =? 3)%nat then
     fd_write_str STDERR_FD (text "usage: install SRC DST" ++ [10]) ;;~ exit_with 1
   else Done tt) ;;~
  do! r := install_file fuel (arg argv 1) (arg argv 2) in
  exit_with (if r <? 0 then -1 else 0).

(* ------------------------------------------------------------------ *)
(** ** mv *)

(** The file's status and its descriptor. *)
Definition open_stat (path : list Z) : prog (option (ustat * Z)) :=
  do! r := call (SysOpen path O_RDONLY) in
  let fd := s32 r in
  if fd <? 0 then Done None
  else
    do! st := call (SysFstat fd) in
    if s32 (fst st) <? 0 then close_status fd ;;~ Done None
    else match snd st with None => Undef | Some st => Done (Some (st, fd)) end.
Definition same_file (a b : ustat) : bool := (st_dev a =? st_dev b) && (st_ino a =? st_ino b).

Definition copy_fd_to_path (fuel : nat) (in_fd : Z) (src dst : list Z) : prog Z :=
  do! r := call (SysOpen dst (Z.lor (Z.lor O_WRONLY O_CREAT) O_TRUNC)) in
  let out_fd := s32 r in
  if out_fd <? 0 then complain (text "mv: cannot create ") dst ;;~ Done (-1)
  else
    do! x := read_until fuel in_fd 512 (fun buf _ =>
      let n := Z.of_nat (length buf) in
      do! ok := write_loop (length buf) out_fd buf 0 n in
      if ok : bool then Done (inl tt)
      else complain (text "mv: write error ") dst ;;~ close_status out_fd ;;~ Done (inr (-1))) tt in
    match x with
    | inr r => Done r
    | inl (_, n) =>
        if n <? 0 then complain (text "mv: read error ") src ;;~ close_status out_fd ;;~ Done (-1)
        else close_status out_fd
    end.

(** What [move_file] does once the destination is known not to be the source. *)
Definition move_copy (fuel : nat) (src_fd : Z) (src dst : list Z) : prog Z :=
  do! r := copy_fd_to_path fuel src_fd src dst in
  if r <? 0 then close_status src_fd ;;~ Done (-1)
  else
    close_status src_fd ;;~
    do! u := call (SysUnlink src) in
    if s32 u <? 0 then complain (text "mv: cannot remove ") src ;;~ Done (-1)
    else Done 0.
Definition move_file (fuel : nat) (src dst : list Z) : prog Z :=
  do! s := open_stat src in
  match s with
  | None => complain (text "mv: cannot open ") src ;;~ Done (-1)
  | Some (src_st, src_fd) =>
      if st_type src_st =? T_DIR then
        complain (text "mv: cannot move directory ") src ;;~ close_status src_fd ;;~ Done (-1)
      else
        do! d := open_stat dst in
        match d with
        | None => move_copy fuel src_fd src dst
        | Some (dst_st, dst_fd) =>
            close_status dst_fd ;;~
            if same_file src_st dst_st then close_status src_fd ;;~ Done 0
            else if st_type dst_st =? T_DIR then
              complain (text "mv: cannot overwrite directory ") dst ;;~ close_status src_fd ;;~ Done (-1)
            else move_copy fuel src_fd src dst
        end
  end.
Definition mv_main (fuel : nat) (argv : list (list Z)) : prog unit :=
  (if negb (length argv =? 3)%nat then
     fd_write_str STDERR_FD (text "usage: mv SRC DST" ++ [10]) ;;~ exit_with 1
   else Done tt) ;;~
  do! r := move_file fuel (arg argv 1) (arg argv 2) in
  exit_with (if r <? 0 then -1 else 0).

(* ------------------------------------------------------------------ *)
(** ** cmp *)

Definition open_input (tool path : list Z) : prog Z :=
  do! r := call (SysOpen path O_RDONLY) in
  (if s32 r <? 0 then complain (tool ++ text ": cannot open ") path else Done tt) ;;~
  Done (s32 r).
Definition print_difference (left right : list Z) (byte : Z) : prog unit :=
  fd_write_str STDOUT_FD left ;;~ fd_write_str STDOUT_FD [32] ;;~ fd_write_str STDOUT_FD right ;;~
  fd_write_str STDOUT_FD (text " differ: byte ") ;;~ write_uint byte ;;~ fd_write_str STDOUT_FD [10].

(** The first place where both buffers have a byte and the bytes differ. *)
Fixpoint differ_at (l r : list Z) (i : Z) : option Z :=
  match l, r with
  | x :: l', y :: r' => if x =? y then differ_at l' r' (i + 1) else Some i
  | _, _ => None
  end.
(** [for (;;)]; [byte] is the number of the next byte. *)
Fixpoint cmp_loop (fuel : nat) (left right : list Z) (lfd rfd byte : Z) : prog Z :=
  match fuel with
  | O => Spin
  | S f =>
      let close_both (r : Z) := close_status lfd ;;~ close_status rfd ;;~ Done r in
      do! '(ln, lbuf) := read_fd lfd 512 in
      do! '(rn, rbuf) := read_fd rfd 512 in
      if ln <? 0 then complain (text "cmp: read error ") left ;;~ close_both (-1)
      else if rn <? 0 then complain (text "cmp: read error ") right ;;~ close_both (-1)
      else
        match differ_at lbuf rbuf 0 with
        | Some i => print_difference left right (u64 (byte + i)) ;;~ close_both 1
        | None =>
            if negb (ln =? rn) then
              print_difference left right (u64 (byte + Z.min ln rn)) ;;~ close_both 1
            else if ln =? 0 then close_both 0
            else cmp_loop f left right lfd rfd (u64 (byte + ln))
        end
  end.
Definition cmp_files (fuel : nat) (left right : list Z) : prog Z :=
  do! lfd := open_input (text "cmp") left in
  if lfd <? 0 then Done (-1)
  else
    do! rfd := open_input (text "cmp") right in
    if rfd <? 0 then close_status lfd ;;~ Done (-1)
    else cmp_loop fuel left right lfd rfd 1.
Definition cmp_main (fuel : nat) (argv : list (list Z)) : prog unit :=
  (if negb (length argv =? 3)%nat then
     fd_write_str STDERR_FD (text "usage: cmp FILE1 FILE2" ++ [10]) ;;~ exit_with 1
   else Done tt) ;;~
  do! r := cmp_files fuel (arg argv 1) (arg argv 2) in
  exit_with r.

(* ------------------------------------------------------------------ *)
(** ** hexdump *)

Definition hex_digit (value : Z) : Z :=
  let value := Z.land value 15 in if value <? 10 then 48 + value else 97 + (value - 10).
(** [buf[i] = hex_digit(value); value >>= 4;] from the last of [n] places. *)
Fixpoint hex_loop (n : nat) (value : Z) (buf : list Z) : list Z :=
  match n with
  | O => buf
  | S n' => hex_loop n' (Z.shiftr value 4) (hex_digit (u32 value) :: buf)
  end.
Definition write_hex32 (value : Z) : prog unit := fd_write_bytes STDOUT_FD (hex_loop 8 value []).
Definition printable (c : Z) : bool := (32 <=? c) && (c <? 127).

(** The columns from [i] on; [count] of [READ_CAP] are left. *)
Fixpoint dump_columns (count : nat) (i : nat) (buf : list Z) : prog unit :=
  match count with
  | O => Done tt
  | S c =>
      (match buf with
       | b :: _ => fd_write_bytes STDOUT_FD [hex_digit (Z.shiftr b 4); hex_digit b; 32]
       | [] => fd_write_str STDOUT_FD [32; 32; 32]
       end) ;;~
      (if (i =? 7)%nat then fd_write_str STDOUT_FD [32] else Done tt) ;;~
      dump_columns c (S i) (tail buf)
  end.
Fixpoint dump_chars (buf : list Z) : prog unit :=
  match buf with
  | [] => Done tt
  | b :: buf' => fd_write_bytes STDOUT_FD [if printable b then b else 46] ;;~ dump_chars buf'
  end.
Definition dump_line (offset : Z) (buf : list Z) : prog unit :=
  write_hex32 offset ;;~
  fd_write_str STDOUT_FD [32; 32] ;;~
  dump_columns 16 0 buf ;;~
  fd_write_str STDOUT_FD [32; 124] ;;~
  dump_chars buf ;;~
  fd_write_str STDOUT_FD [124; 10].
Definition dump_fd (fuel : nat) (fd : Z) : prog Z :=
  do! '(_, n) := read_all fuel fd 16 (fun buf offset =>
    dump_line offset buf ;;~ Done (u64 (offset + Z.of_nat (length buf)))) 0 in
  Done (if n <? 0 then -1 else 0).
(** A tool on a file, as [hexdump], [head] and [tail] are. *)
Definition on_file (tool path : list Z) (body : Z -> prog Z) : prog Z :=
  do! r := call (SysOpen path O_RDONLY) in
  let fd := s32 r in
  if fd <? 0 then complain (tool ++ text ": cannot open ") path ;;~ Done (-1)
  else
    do! result := body fd in
    call (SysClose fd) ;;~
    (if result <? 0 then complain (tool ++ text ": read error ") path else Done tt) ;;~
    Done result.
Definition dump_file (fuel : nat) (path : list Z) : prog Z := on_file (text "hexdump") path (dump_fd fuel).
Definition hexdump_main (fuel : nat) (argv : list (list Z)) : prog unit :=
  (if (2 <? length argv)%nat then
     fd_write_str STDERR_FD (text "usage: hexdump [FILE]" ++ [10]) ;;~ exit_with 1
   else Done tt) ;;~
  (if (length argv =? 1)%nat then
     do! r := dump_fd fuel STDIN_FD in exit_with (if r <? 0 then -1 else 0)
   else Done tt) ;;~
  do! r := dump_file fuel (arg argv 1) in
  exit_with (if r <? 0 then -1 else 0).
