(* ===== verification/ToolsSpec.v ===== *)
(** What the file tools do to files: the kernel they run against keeps files
    by name and may answer a read or a write with less than was asked for;
    [cp] copies a file and [mv] moves it whatever the sizes of the answers,
    [cmp] finds the first byte that differs. *)

From S2P Require Import Prelude Prog Fs Tools.

(* ------------------------------------------------------------------ *)
(** ** A kernel with files *)

(** [io_files]: the contents by path; [io_fds]: path and offset of the open
    descriptors; [io_next]: the next descriptor; [io_in]: what can still be read
    from the terminal; [io_out], [io_err]: what has been written to it;
    [io_sizes]: the sizes, less one, of the next answers, which are full when
    there are none; [io_exit]: the status of [exit]. *)
Record io := IO {
  io_files : gmap (list Z) (list Z);
  io_fds : gmap Z (list Z * nat);
  io_next : Z;
  io_in : list Z;
  io_out : list Z;
  io_err : list Z;
  io_sizes : list nat;
  io_exit : option Z;
}.
Definition io_set_files (v : gmap (list Z) (list Z)) (w : io) : io :=
  IO v (io_fds w) (io_next w) (io_in w) (io_out w) (io_err w) (io_sizes w) (io_exit w).
Definition io_set_fds (v : gmap Z (list Z * nat)) (w : io) : io :=
  IO (io_files w) v (io_next w) (io_in w) (io_out w) (io_err w) (io_sizes w) (io_exit w).
Definition io_set_in (v : list Z) (w : io) : io :=
  IO (io_files w) (io_fds w) (io_next w) v (io_out w) (io_err w) (io_sizes w) (io_exit w).
Definition io_set_sizes (v : list nat) (w : io) : io :=
  IO (io_files w) (io_fds w) (io_next w) (io_in w) (io_out w) (io_err w) v (io_exit w).
Definition io_put (s : list Z) (w : io) : io :=
  IO (io_files w) (io_fds w) (io_next w) (io_in w) (io_out w ++ s) (io_err w) (io_sizes w) (io_exit w).
Definition io_warn (s : list Z) (w : io) : io :=
  IO (io_files w) (io_fds w) (io_next w) (io_in w) (io_out w) (io_err w ++ s) (io_sizes w) (io_exit w).
Definition io_set_exit (n : Z) (w : io) : io :=
  IO (io_files w) (io_fds w) (io_next w) (io_in w) (io_out w) (io_err w) (io_sizes w) (Some n).
Definition io_skip (w : io) : io := io_set_sizes (tail (io_sizes w)) w.

(** How many bytes an answer has, of [n] asked for and [avail] there. *)
Definition io_amount (n avail : nat) (w : io) : nat :=
  Nat.min (Nat.min n avail) (match io_sizes w with [] => n | k :: _ => S k end).
(** What a descriptor has left to read. *)
Definition io_avail (w : io) (fd : Z) : option (list Z) :=
  if fd =? 0 then Some (io_in w)
  else '(path, off) ← io_fds w !! fd; drop off <$> io_files w !! path.
Definition io_advance (fd : Z) (k : nat) (w : io) : io :=
  if fd =? 0 then io_set_in (drop k (io_in w)) w
  else io_set_fds (alter (fun '(path, off) => (path, off + k)%nat) fd (io_fds w)) w.

Definition io_read (fd : Z) (n : nat) (w : io) : Z * list Z * io :=
  match io_avail w fd with
  | None => (-1, [], w)
  | Some [] => (0, [], w)
  | Some rest =>
      let k := io_amount n (length rest) w in
      (Z.of_nat k, take k rest, io_advance fd k (io_skip w))
  end.
Definition io_write (fd : Z) (s : list Z) (w : io) : Z * io :=
  if fd =? 1 then (Z.of_nat (length s), io_put s w)
  else if fd =? 2 then (Z.of_nat (length s), io_warn s w)
  else
    match io_fds w !! fd with
    | None => (-1, w)
    | Some (path, off) =>
        match io_files w !! path with
        | None => (-1, w)
        | Some content =>
            let k := io_amount (length s) (length s) w in
            (Z.of_nat k,
             io_set_files (<[path := take off content ++ take k s ++ drop (off + k) content]> (io_files w))
               (io_advance fd k (io_skip w)))
        end
    end.
Definition io_open (path : list Z) (flags : Z) (w : io) : Z * io :=
  let create := negb (Z.land flags O_CREAT =? 0) in
  let trunc := negb (Z.land flags O_TRUNC =? 0) in
  let fd := io_next w in
  let opened files :=
    IO files (<[fd := (path, 0%nat)]> (io_fds w)) (fd + 1) (io_in w) (io_out w) (io_err w) (io_sizes w) (io_exit w) in
  match io_files w !! path with
  | Some _ => (fd, opened (if trunc then <[path := []]> (io_files w) else io_files w))
  | None => if create then (fd, opened (<[path := []]> (io_files w))) else (-1, w)
  end.
Definition io_close (fd : Z) (w : io) : Z * io :=
  match io_fds w !! fd with
  | Some _ => (0, io_set_fds (delete fd (io_fds w)) w)
  | None => (-1, w)
  end.
(** Files are told apart by a number of their path. *)
Definition io_ino (path : list Z) : Z := Z.pos (encode path).
Definition io_stat (w : io) (fd : Z) : option ustat :=
  '(path, _) ← io_fds w !! fd;
  content ← io_files w !! path;
  Some (UStat 2 1 (io_ino path) 1 (Z.of_nat (length content))).

Definition io_kernel (X : Type) (e : sysE X) (w : io) : option X * io :=
  match e in sysE X return option X * io with
  | SysRead fd n => let '(r, data, w) := io_read fd (Z.to_nat n) w in (Some (r, data), w)
  | SysWrite fd s => let '(r, w) := io_write fd s w in (Some r, w)
  | SysOpen path flags => let '(r, w) := io_open path flags w in (Some r, w)
  | SysClose fd => let '(r, w) := io_close fd w in (Some r, w)
  | SysFstat fd =>
      match io_stat w fd with Some st => (Some (0, Some st), w) | None => (Some (-1, None), w) end
  | SysUnlink path =>
      match io_files w !! path with
      | Some _ => (Some 0, io_set_files (delete path (io_files w)) w)
      | None => (Some (-1), w)
      end
  | SysExit n => (None, io_set_exit n w)
  | e => (Some (deny e), w)
  end.

(* ------------------------------------------------------------------ *)
(** ** Reading *)

Lemma io_amount_bounds n avail w :
  (0 < n)%nat -> (0 < avail)%nat -> (0 < io_amount n avail w <= avail)%nat /\ (io_amount n avail w <= n)%nat.
Proof. intros Hn Ha. unfold io_amount. destruct (io_sizes w); lia. Qed.
Lemma io_amount_full n avail w : io_sizes w = [] -> io_amount n avail w = Nat.min n avail.
Proof. intros H. unfold io_amount. rewrite H. lia. Qed.

Lemma s32_of_nat k : (k <= 4096)%nat -> s32 (Z.of_nat k) = Z.of_nat k.
Proof. intros H. apply s32_id. lia. Qed.

(** A read gives a non-empty piece of what is left, or the end of the file. *)
Lemma run_sys_read {B} fd cap rest w (f : Z * list Z -> prog B) :
  0 < cap <= 4096 -> io_avail w fd = Some rest -> rest <> [] ->
  exists buf rest', rest = buf ++ rest' /\ buf <> [] /\ (length buf <= Z.to_nat cap)%nat /\
    (io_sizes w = [] -> length buf = Nat.min (Z.to_nat cap) (length rest)) /\
    run io_kernel (pbind (read_fd fd cap) f) w
      = run io_kernel (f (Z.of_nat (length buf), buf)) (io_advance fd (length buf) (io_skip w)).
Proof.
  intros Hcap Ha Hne. set (k := io_amount (Z.to_nat cap) (length rest) w).
  destruct (io_amount_bounds (Z.to_nat cap) (length rest) w) as [Hk1 Hk2]; [lia|destruct rest; [done|cbn; lia]|].
  fold k in Hk1, Hk2. assert (length (take k rest) = k) as Hlen by (rewrite length_take; lia).
  exists (take k rest), (drop k rest). rewrite take_drop, Hlen. split_and!; [done| |lia| |].
  - intros E. rewrite E in Hlen. cbn in Hlen. lia.
  - intros Hs. unfold k. by rewrite io_amount_full.
  - unfold read_fd. rewrite run_pbind, run_call. cbn [io_kernel]. unfold io_read. rewrite Ha.
    destruct rest as [|c rest]; [done|]. fold k. cbn [fst snd run].
    rewrite s32_of_nat by lia. by rewrite Nat2Z.id, take_take, Nat.min_id.
Qed.
Lemma run_sys_read_end {B} fd cap w (f : Z * list Z -> prog B) :
  io_avail w fd = Some [] -> run io_kernel (pbind (read_fd fd cap) f) w = run io_kernel (f (0, [])) w.
Proof.
  intros Ha. unfold read_fd. rewrite run_pbind, run_call. cbn [io_kernel]. unfold io_read. by rewrite Ha.
Qed.

(** Loops over the reads of a descriptor that has [content] to read: [I read a w]
    holds when [read] has been read.  The number of reads is at most the length of
    the content, and one more at its end. *)
Section read_rules.
Context {A : Type} (fd cap : Z) (content : list Z) (I : list Z -> A -> io -> Prop).
Context (Hcap : 0 < cap <= 4096).
Context (I_avail : forall done rest a w, content = done ++ rest -> I done a w -> io_avail w fd = Some rest).

Lemma read_all_rule (body : list Z -> A -> prog A) :
  (forall done buf rest a w, content = done ++ buf ++ rest -> buf <> [] -> (length buf <= Z.to_nat cap)%nat ->
    I done a w ->
    exists a' w', run io_kernel (body buf a) (io_advance fd (length buf) (io_skip w)) = (Returned a', w') /\
      I (done ++ buf) a' w') ->
  forall fuel a w, (length content < fuel)%nat -> I [] a w ->
    exists a' w', run io_kernel (read_all fuel fd cap body a) w = (Returned (a', 0), w') /\ I content a' w'.
Proof.
  intros Hstep fuel a w Hfuel. cut (forall done rest, content = done ++ rest -> (length rest < fuel)%nat -> I done a w ->
    exists a' w', run io_kernel (read_all fuel fd cap body a) w = (Returned (a', 0), w') /\ I content a' w').
  { intros H HI. by apply (H [] content). }
  clear Hfuel. revert a w. induction fuel as [|f IH]; intros a w done rest Hc Hl HI; [lia|]. cbn [read_all].
  pose proof (I_avail _ _ _ _ Hc HI) as Ha. destruct (decide (rest = [])) as [->|Hne0].
  - rewrite run_sys_read_end by done. cbn. rewrite app_nil_r in Hc. subst. by eexists _, _.
  - destruct (run_sys_read (B := A * Z) fd cap rest w (fun '(n, buf) =>
      if 0 <? n then do! a := body buf a in read_all f fd cap body a else Done (a, n)))
      as (buf & rest' & Hb & Hne & Hlen & _ & ->); [done..|].
    assert (0 < length buf)%nat by (destruct buf; [done|cbn; lia]).
    rewrite (proj2 (Z.ltb_lt 0 _)) by lia. rewrite Hb in Hc.
    destruct (Hstep done buf rest' a w Hc Hne Hlen HI) as (a1 & w1 & Hrun & HI1).
    rewrite (run_returned _ _ _ _ _ _ Hrun).
    apply (IH a1 w1 (done ++ buf) rest'); [by rewrite <- app_assoc| |done].
    rewrite Hb, length_app in Hl. lia.
Qed.

Lemma read_until_rule {B} (Q : B -> io -> Prop) (body : list Z -> A -> prog (A + B)) :
  (forall done buf rest a w, content = done ++ buf ++ rest -> buf <> [] -> (length buf <= Z.to_nat cap)%nat ->
    I done a w ->
    exists x w', run io_kernel (body buf a) (io_advance fd (length buf) (io_skip w)) = (Returned x, w') /\
      match x with inl a' => I (done ++ buf) a' w' | inr b => Q b w' end) ->
  forall fuel a w, (length content < fuel)%nat -> I [] a w ->
    exists x w', run io_kernel (read_until fuel fd cap body a) w = (Returned x, w') /\
      match x with inl (a', n) => n = 0 /\ I content a' w' | inr b => Q b w' end.
Proof.
  intros Hstep fuel a w Hfuel. cut (forall done rest, content = done ++ rest -> (length rest < fuel)%nat -> I done a w ->
    exists x w', run io_kernel (read_until fuel fd cap body a) w = (Returned x, w') /\
      match x with inl (a', n) => n = 0 /\ I content a' w' | inr b => Q b w' end).
  { intros H HI. by apply (H [] content). }
  clear Hfuel. revert a w. induction fuel as [|f IH]; intros a w done rest Hc Hl HI; [lia|]. cbn [read_until].
  pose proof (I_avail _ _ _ _ Hc HI) as Ha. destruct (decide (rest = [])) as [->|Hne0].
  - rewrite run_sys_read_end by done. cbn. rewrite app_nil_r in Hc. subst. by eexists _, _.
  - destruct (run_sys_read (B := A * Z + B) fd cap rest w (fun '(n, buf) =>
      if 0 <? n then
        do! x := body buf a in
        match x with inl a => read_until f fd cap body a | inr b => Done (inr b) end
      else Done (inl (a, n))))
      as (buf & rest' & Hb & Hne & Hlen & _ & ->); [done..|].
    assert (0 < length buf)%nat by (destruct buf; [done|cbn; lia]).
    rewrite (proj2 (Z.ltb_lt 0 _)) by lia. rewrite Hb in Hc.
    destruct (Hstep done buf rest' a w Hc Hne Hlen HI) as (x & w1 & Hrun & HI1).
    rewrite (run_returned _ _ _ _ _ _ Hrun). destruct x as [a1|b]; [|by eexists _, _].
    apply (IH a1 w1 (done ++ buf) rest'); [by rewrite <- app_assoc| |done].
    rewrite Hb, length_app in Hl. lia.
Qed.
End read_rules.

(* ------------------------------------------------------------------ *)
(** ** cp, install and mv *)

(** [w] has the files and descriptors given, and is [w0] otherwise. *)
Record io_like (w0 : io) (files : gmap (list Z) (list Z)) (fds : gmap Z (list Z * nat)) (w : io) : Prop := IoLike {
  like_files : io_files w = files;
  like_fds : io_fds w = fds;
  like_in : io_in w = io_in w0;
  like_out : io_out w = io_out w0;
  like_err : io_err w = io_err w0;
  like_next : io_next w = io_next w0;
  like_exit : io_exit w = io_exit w0;
}.
Lemma io_like_refl w : io_like w (io_files w) (io_fds w) w.
Proof. by constructor. Qed.
Lemma io_like_write w0 files fds w fd path off content s :
  io_like w0 files fds w -> 3 <= fd -> fds !! fd = Some (path, off) -> files !! path = Some content ->
  off = length content -> s <> [] ->
  exists k w', io_write fd s w = (Z.of_nat k, w') /\ (0 < k <= length s)%nat /\
    io_like w0 (<[path := content ++ take k s]> files) (<[fd := (path, off + k)%nat]> fds) w'.
Proof.
  intros [Hfiles Hfds Hin Hout Herr Hnext Hexit] Hfd Hf Hc Hoff Hs. unfold io_write.
  rewrite (proj2 (Z.eqb_neq fd 1)), (proj2 (Z.eqb_neq fd 2)) by lia. rewrite Hfds, Hf, Hfiles, Hc.
  destruct (io_amount_bounds (length s) (length s) w) as [Hk _]; [destruct s; [done|cbn; lia]..|].
  eexists _, _. split; [reflexivity|]. split; [done|].
  unfold io_advance. rewrite (proj2 (Z.eqb_neq fd 0)) by lia.
  constructor; cbn; [| |done..].
  - by rewrite take_ge, drop_ge, app_nil_r by lia.
  - rewrite Hfds. apply map_eq. intros j. destruct (decide (j = fd)) as [->|Hj].
    + by rewrite lookup_alter_eq, lookup_insert_eq, Hf.
    + by rewrite lookup_alter_ne, lookup_insert_ne by done.
Qed.
Lemma io_like_open w0 files fds w path flags :
  io_like w0 files fds w -> Z.land flags O_CREAT <> 0 \/ is_Some (files !! path) ->
  io_open path flags w =
    (io_next w0,
     IO (if Z.land flags O_TRUNC =? 0 then (match files !! path with Some _ => files | None => <[path := []]> files end)
         else <[path := []]> files)
       (<[io_next w0 := (path, 0%nat)]> fds) (io_next w0 + 1) (io_in w0) (io_out w0) (io_err w0) (io_sizes w) (io_exit w0)).
Proof.
  intros [Hfiles Hfds Hin Hout Herr Hnext Hexit] H. unfold io_open. rewrite Hfiles, Hfds, Hin, Hout, Herr, Hnext, Hexit.
  destruct (files !! path) as [c|] eqn:Hp.
  - by destruct (Z.land flags O_TRUNC =? 0).
  - destruct H as [H|[? H]]; [|done]. rewrite (proj2 (Z.eqb_neq _ 0) H). cbn.
    by destruct (Z.land flags O_TRUNC =? 0).
Qed.

(** All of a buffer is written, whatever the sizes of the answers. *)
Lemma write_loop_writes fuel w0 files fds fd path pre buf written w :
  io_like w0 (<[path := pre ++ take written buf]> files) (<[fd := (path, length pre + written)%nat]> fds) w ->
  3 <= fd -> (written <= length buf)%nat -> (length buf - written <= fuel)%nat -> (length buf <= 4096)%nat ->
  exists w', run io_kernel (write_loop fuel fd buf (Z.of_nat written) (Z.of_nat (length buf))) w = (Returned true, w') /\
    io_like w0 (<[path := pre ++ buf]> files) (<[fd := (path, length pre + length buf)%nat]> fds) w'.
Proof.
  revert written w. induction fuel as [|f IH]; intros written w Hw Hfd Hle Hfuel Hbuf; cbn [write_loop].
  { rewrite (proj2 (Z.ltb_ge _ _)) by lia. exists w. split; [done|].
    replace written with (length buf) in Hw by lia. by rewrite firstn_all in Hw. }
  destruct (Z.ltb_spec (Z.of_nat written) (Z.of_nat (length buf))) as [Hlt|Hge].
  2: { exists w. split; [done|]. replace written with (length buf) in Hw by lia. by rewrite firstn_all in Hw. }
  set (s := slice buf (Z.to_nat (Z.of_nat written)) (Z.to_nat (Z.of_nat (length buf) - Z.of_nat written))).
  assert (s = drop written buf) as Hs.
  { unfold s, slice. rewrite Nat2Z.id. apply take_ge. rewrite length_drop. lia. }
  assert (length s = length buf - written)%nat as Hsl by (by rewrite Hs, length_drop).
  destruct (io_like_write _ _ _ _ fd path (length pre + written) (pre ++ take written buf) s Hw Hfd)
    as (k & w' & Hrun & Hk & Hw').
  { apply lookup_insert_eq. }
  { apply lookup_insert_eq. }
  { rewrite length_app, length_take. lia. }
  { intros E. rewrite E in Hsl. cbn in Hsl. lia. }
  rewrite run_call. cbn [io_kernel]. rewrite Hrun, s32_of_nat by lia.
  rewrite (proj2 (Z.leb_gt _ 0)) by lia. rewrite <- Nat2Z.inj_add, s32_of_nat by lia.
  apply IH; [|lia..]. rewrite !insert_insert_eq in Hw'.
  replace (pre ++ take (written + k) buf) with ((pre ++ take written buf) ++ take k s).
  { by rewrite Nat.add_assoc. }
  rewrite <- app_assoc, Hs. f_equal. by rewrite <- take_take_drop.
Qed.

(** The loop that [cp], [install] and [mv] copy with, whatever they do when a
    write fails. *)
Lemma copy_loop_copies w0 files fds ifd ofd src dst content fuel fail w :
  io_like w0 (<[dst := []]> files) (<[ofd := (dst, 0%nat)]> (<[ifd := (src, 0%nat)]> fds)) w ->
  3 <= ifd -> 3 <= ofd -> ifd <> ofd -> src <> dst -> files !! src = Some content -> (length content < fuel)%nat ->
  exists w', run io_kernel (read_until (B := Z) fuel ifd 512 (fun buf _ =>
      let n := Z.of_nat (length buf) in
      do! ok := write_loop (length buf) ofd buf 0 n in
      if ok : bool then Done (inl tt) else fail) tt) w = (Returned (inl (tt, 0)), w') /\
    io_like w0 (<[dst := content]> files)
      (<[ofd := (dst, length content)]> (<[ifd := (src, length content)]> fds)) w'.
Proof.
  intros Hw Hi Ho Hne Hsd Hsrc Hfuel.
  set (I := fun (d : list Z) (_ : unit) (w : io) => io_like w0 (<[dst := d]> files)
    (<[ofd := (dst, length d)]> (<[ifd := (src, length d)]> fds)) w).
  destruct (read_until_rule (A := unit) ifd 512 content I ltac:(lia)) with
    (Q := fun (_ : Z) (_ : io) => False)
    (body := fun (buf : list Z) (_ : unit) =>
      let n := Z.of_nat (length buf) in
      do! ok := write_loop (length buf) ofd buf 0 n in
      if ok : bool then Done (inl tt) else fail)
    (fuel := fuel) (a := tt) (w := w) as (x & w' & Hrun & Hx); [| |done|done|].
  - intros d rest [] w1 Hc [Hf1 Hf2 _ _ _ _ _]. unfold io_avail. rewrite (proj2 (Z.eqb_neq ifd 0)) by lia.
    rewrite Hf2, lookup_insert_ne, lookup_insert_eq by done. cbn [mbind option_bind].
    rewrite Hf1, lookup_insert_ne, Hsrc by done. cbn. by rewrite Hc, drop_app_length.
  - intros d buf rest [] w1 Hc Hbne Hlen Hw1. cbn zeta.
    destruct (write_loop_writes (length buf) w0 files (<[ifd := (src, length d + length buf)%nat]> fds) ofd dst d buf 0
      (io_advance ifd (length buf) (io_skip w1))) as (w2 & Hrun & Hw2); [|done|lia..|].
    { destruct Hw1 as [H1 H2 H3 H4 H5 H6 H7]. unfold io_advance. rewrite (proj2 (Z.eqb_neq ifd 0)) by lia.
      constructor; cbn; try done.
      - by rewrite H1, app_nil_r.
      - rewrite H2, Nat.add_0_r, alter_insert_ne, alter_insert_eq by done. done. }
    exists (inl tt), w2. split; [|by unfold I; rewrite length_app].
    by rewrite (run_returned _ _ _ _ _ _ Hrun).
  - destruct x as [[[] n]|b]; [|done]. destruct Hx as [-> Hx]. by exists w'.
Qed.

Lemma io_like_close w0 files fds w fd x :
  io_like w0 files fds w -> fds !! fd = Some x ->
  exists w', (forall B (f : Z -> prog B), run io_kernel (pbind (close_status fd) f) w = run io_kernel (f 0) w') /\
    io_like w0 files (delete fd fds) w'.
Proof.
  intros [Hfiles Hfds Hin Hout Herr Hnext Hexit] Hx. exists (io_set_fds (delete fd fds) w). split; [|by constructor].
  intros B f. unfold close_status. rewrite run_pbind, run_call. cbn [io_kernel]. unfold io_close. by rewrite Hfds, Hx.
Qed.

(** The world from which a tool starts: a file to read, and descriptors of
    which the next two are free. *)
Record io_ready (w : io) (src content : list Z) : Prop := IoReady {
  ready_file : io_files w !! src = Some content;
  ready_next : 3 <= io_next w < 900;
  ready_fd : io_fds w !! io_next w = None;
  ready_fd2 : io_fds w !! (io_next w + 1) = None;
}.

(** [cp] makes the destination a copy of the source, whatever the sizes in
    which the kernel answers its reads and writes; it changes no other file,
    leaves no descriptor open, says nothing and succeeds. *)
Theorem cp_copies fuel src dst content w :
  io_ready w src content -> src <> dst -> (length content < fuel)%nat ->
  exists w', run io_kernel (copy_file fuel src dst) w = (Returned 0, w') /\
    io_files w' = <[dst := content]> (io_files w) /\ io_fds w' = io_fds w /\
    io_out w' = io_out w /\ io_err w' = io_err w.
Proof.
  intros [Hsrc Hnext Hfd Hfd2] Hsd Hfuel. unfold copy_file, copy_file_as.
  rewrite run_call. cbn [io_kernel].
  rewrite (io_like_open _ _ _ _ _ _ (io_like_refl w)) by (right; by eexists). cbn [Z.land O_RDONLY].
  change (0 =? 0) with true. cbn iota. rewrite Hsrc.
  set (ifd := io_next w) in *. rewrite (s32_id ifd) by lia. rewrite (proj2 (Z.ltb_ge ifd 0)) by lia.
  set (w1 := IO _ _ (ifd + 1) _ _ _ _ _).
  assert (io_like w1 (io_files w) (<[ifd := (src, 0%nat)]> (io_fds w)) w1) as Hw1 by (by constructor).
  rewrite run_call. cbn [io_kernel]. rewrite (io_like_open _ _ _ _ _ _ Hw1) by (left; by vm_compute).
  change (io_next w1) with (ifd + 1). set (ofd := ifd + 1) in *.
  change (Z.land _ O_TRUNC =? 0) with false. cbn iota.
  rewrite (s32_id ofd) by lia. rewrite (proj2 (Z.ltb_ge ofd 0)) by lia.
  set (w2 := IO _ _ _ _ _ _ _ _).
  assert (io_like w2 (<[dst := []]> (io_files w)) (<[ofd := (dst, 0%nat)]> (<[ifd := (src, 0%nat)]> (io_fds w))) w2) as Hw2 by (by constructor).
  destruct (copy_loop_copies _ (io_files w) (io_fds w) ifd ofd src dst content fuel
    (complain (text "cp" ++ text ": write error ") dst ;;~ close_status ifd ;;~ close_status ofd ;;~ Done (inr (-1))) w2 Hw2)
    as (w3 & Hrun & Hw3); [lia|lia|lia|done..|].
  rewrite (run_returned _ _ _ _ _ _ Hrun). change (0 <? 0) with false. cbn iota.
  destruct (io_like_close _ _ _ _ ifd (src, length content) Hw3) as (w4 & Hc4 & Hw4).
  { by rewrite lookup_insert_ne, lookup_insert_eq by lia. }
  rewrite Hc4. change (0 <? 0) with false. cbn iota.
  destruct (io_like_close _ _ _ _ ofd (dst, length content) Hw4) as (w5 & Hc5 & Hw5).
  { by rewrite lookup_delete_ne, lookup_insert_eq by lia. }
  rewrite Hc5. change (0 <? 0) with false. cbn [run].
  exists w5. split; [done|]. destruct Hw5 as [H1 H2 H3 H4 H5 H6 H7]. rewrite H1, H2, H4, H5. split_and!; [done| |done|done].
  rewrite (delete_insert_ne _ ifd ofd) by lia. rewrite delete_insert_eq, delete_insert_id; [|].
  - by rewrite delete_id.
  - done.
Qed.

Lemma copy_fd_to_path_copies fuel w src dst content ifd :
  io_fds w !! ifd = Some (src, 0%nat) -> 3 <= ifd < io_next w -> io_next w < 1000 -> io_fds w !! io_next w = None ->
  io_files w !! src = Some content -> src <> dst -> (length content < fuel)%nat ->
  exists w', run io_kernel (copy_fd_to_path fuel ifd src dst) w = (Returned 0, w') /\
    io_files w' = <[dst := content]> (io_files w) /\ io_fds w' = <[ifd := (src, length content)]> (io_fds w) /\
    io_out w' = io_out w /\ io_err w' = io_err w.
Proof.
  intros Hifd Hi Hnext Hfree Hsrc Hsd Hfuel. unfold copy_fd_to_path.
  rewrite run_call. cbn [io_kernel]. rewrite (io_like_open _ _ _ _ _ _ (io_like_refl w)) by (left; by vm_compute).
  set (ofd := io_next w) in *. change (Z.land _ O_TRUNC =? 0) with false. cbn iota.
  rewrite (s32_id ofd) by lia. rewrite (proj2 (Z.ltb_ge ofd 0)) by lia.
  set (w2 := IO _ _ _ _ _ _ _ _).
  assert (io_like w2 (<[dst := []]> (io_files w)) (<[ofd := (dst, 0%nat)]> (<[ifd := (src, 0%nat)]> (io_fds w))) w2) as Hw2.
  { constructor; try done. cbn. f_equal. symmetry. by apply insert_id. }
  destruct (copy_loop_copies _ (io_files w) (io_fds w) ifd ofd src dst content fuel
    (complain (text "mv: write error ") dst ;;~ close_status ofd ;;~ Done (inr (-1))) w2 Hw2)
    as (w3 & Hrun & Hw3); [lia|lia|lia|done..|].
  rewrite (run_returned _ _ _ _ _ _ Hrun). change (0 <? 0) with false. cbn iota.
  destruct (io_like_close _ _ _ _ ofd (dst, length content) Hw3) as (w4 & Hc4 & Hw4); [by rewrite lookup_insert_eq|].
  specialize (Hc4 Z Done). exists w4. destruct Hw4 as [H1 H2 H3 H4 H5 H6 H7]. split.
  { by rewrite <- run_pbind_done. }
  rewrite H1, H2, H4, H5. split_and!; [done| |done|done].
  rewrite delete_insert_eq. apply delete_id. rewrite lookup_insert_ne by lia. done.
Qed.

Lemma open_stat_opens path content w B (f : option (ustat * Z) -> prog B) :
  io_files w !! path = Some content -> 3 <= io_next w < 1000 ->
  run io_kernel (pbind (open_stat path) f) w =
    run io_kernel (f (Some (UStat 2 1 (io_ino path) 1 (Z.of_nat (length content)), io_next w)))
      (IO (io_files w) (<[io_next w := (path, 0%nat)]> (io_fds w)) (io_next w + 1) (io_in w) (io_out w) (io_err w)
         (io_sizes w) (io_exit w)).
Proof.
  intros Hp Hn. unfold open_stat. rewrite run_pbind, run_call. cbn [io_kernel].
  rewrite (io_like_open _ _ _ _ _ _ (io_like_refl w)) by (right; by eexists).
  change (Z.land O_RDONLY O_TRUNC =? 0) with true. cbn iota. rewrite Hp.
  rewrite (s32_id (io_next w)) by lia. rewrite (proj2 (Z.ltb_ge _ 0)) by lia.
  rewrite run_call. cbn [io_kernel]. unfold io_stat. cbn [io_fds io_files].
  rewrite lookup_insert_eq. cbn [mbind option_bind]. rewrite Hp. cbn [mbind option_bind fst snd].
  by change (s32 0 <? 0) with false.
Qed.
Lemma open_stat_fails path w B (f : option (ustat * Z) -> prog B) :
  io_files w !! path = None -> run io_kernel (pbind (open_stat path) f) w = run io_kernel (f None) w.
Proof.
  intros Hp. unfold open_stat. rewrite run_pbind, run_call. cbn [io_kernel]. unfold io_open. rewrite Hp.
  by change (negb (Z.land O_RDONLY O_CREAT =? 0)) with false.
Qed.
Lemma same_file_path a b n m :
  same_file (UStat 2 1 (io_ino a) 1 n) (UStat 2 1 (io_ino b) 1 m) = bool_decide (a = b).
Proof.
  unfold same_file. cbn [st_dev st_ino]. change (1 =? 1) with true. cbn [andb]. unfold io_ino.
  case_bool_decide as H; [subst; apply Z.eqb_refl|]. apply Z.eqb_neq. intros [= E]. by apply encode_inj in E.
Qed.

Lemma move_copy_moves fuel w0 w src dst content ifd :
  io_files w = io_files w0 -> io_fds w = <[ifd := (src, 0%nat)]> (io_fds w0) -> io_fds w0 !! ifd = None ->
  3 <= ifd < io_next w -> io_next w < 1000 -> io_fds w0 !! io_next w = None ->
  io_files w0 !! src = Some content -> src <> dst -> (length content < fuel)%nat ->
  exists w', run io_kernel (move_copy fuel ifd src dst) w = (Returned 0, w') /\
    io_files w' = <[dst := content]> (delete src (io_files w0)) /\ io_fds w' = io_fds w0 /\
    io_out w' = io_out w /\ io_err w' = io_err w.
Proof.
  intros Hfiles Hfds Hi0 Hi Hnext Hfree Hsrc Hsd Hfuel. unfold move_copy.
  destruct (copy_fd_to_path_copies fuel w src dst content ifd) as (w1 & Hrun & H1 & H2 & H3 & H4); try done.
  { by rewrite Hfds, lookup_insert_eq. }
  { rewrite Hfds, lookup_insert_ne by lia. done. }
  { by rewrite Hfiles. }
  rewrite (run_returned _ _ _ _ _ _ Hrun). change (0 <? 0) with false. cbn iota.
  destruct (io_like_close _ _ _ _ ifd (src, length content) (io_like_refl w1)) as (w2 & Hc & [G1 G2 G3 G4 G5 G6 G7]).
  { by rewrite H2, lookup_insert_eq. }
  rewrite Hc, run_call. cbn [io_kernel]. rewrite G1, H1, lookup_insert_ne, Hfiles, Hsrc by done.
  change (s32 0 <? 0) with false. eexists. split; [reflexivity|]. cbn. rewrite G2, G4, G5, H2, H3, H4, Hfds.
  split_and!; [by rewrite delete_insert_ne|by rewrite insert_insert_eq, delete_insert_id|done|done].
Qed.

(** [mv] moves the file: the destination has its contents, whether there
    was one before or not, and the source is gone; a file that is moved onto
    itself stays as it is. *)
Theorem mv_moves fuel src dst content w :
  io_ready w src content -> io_fds w !! (io_next w + 2) = None -> (length content < fuel)%nat ->
  exists w', run io_kernel (move_file fuel src dst) w = (Returned 0, w') /\
    io_files w' = (if decide (src = dst) then io_files w else <[dst := content]> (delete src (io_files w))) /\
    io_fds w' = io_fds w /\ io_out w' = io_out w /\ io_err w' = io_err w.
Proof.
  intros [Hsrc Hnext Hfd Hfd2] Hfd3 Hfuel. unfold move_file. rewrite (open_stat_opens src content) by first [done|lia].
  change (st_type (UStat 2 1 _ 1 _) =? T_DIR) with false. cbn iota.
  destruct (io_files w !! dst) as [old|] eqn:Hdst.
  - rewrite (open_stat_opens dst old) by first [done|cbn; lia]. cbn [io_files io_fds io_next io_in io_out io_err io_sizes io_exit].
    set (w1 := IO _ _ _ _ _ _ _ _).
    destruct (io_like_close _ _ _ _ (io_next w + 1) (dst, 0%nat) (io_like_refl w1)) as (w2 & Hc & [G1 G2 G3 G4 G5 G6 G7]).
    { cbn. by rewrite lookup_insert_eq. }
    rewrite Hc, same_file_path. cbn [w1 io_files io_fds io_next io_in io_out io_err io_exit] in *.
    rewrite delete_insert_id in G2 by (rewrite lookup_insert_ne by lia; done).
    case_bool_decide as Hsd.
    + rewrite decide_True by done.
      destruct (io_like_close _ _ _ _ (io_next w) (src, 0%nat) (io_like_refl w2)) as (w3 & Hc3 & [L1 L2 L3 L4 L5 L6 L7]).
      { by rewrite G2, lookup_insert_eq. }
      rewrite Hc3. exists w3. split; [done|]. rewrite L1, L2, L4, L5, G1, G2, G4, G5. by rewrite delete_insert_id.
    + rewrite decide_False by done. change (st_type (UStat 2 1 _ 1 _) =? T_DIR) with false. cbn iota.
      destruct (move_copy_moves fuel w w2 src dst content (io_next w)) as (w3 & Hrun & L1 & L2 & L3 & L4); try done.
      { rewrite G6. lia. }
      { rewrite G6. lia. }
      { rewrite G6. by replace (io_next w + 1 + 1) with (io_next w + 2) by lia. }
      exists w3. by rewrite L3, L4, G4, G5.
  - rewrite open_stat_fails by done. rewrite decide_False by congruence.
    set (w1 := IO _ _ _ _ _ _ _ _).
    destruct (move_copy_moves fuel w w1 src dst content (io_next w)) as (w3 & Hrun & L1 & L2 & L3 & L4);
      try done; [cbn; lia|cbn; lia|congruence|].
    by exists w3.
Qed.

(* ------------------------------------------------------------------ *)
(** ** Decimal numbers *)

(** What [write_uint] writes. *)
Definition uint_text (value : Z) : list Z :=
  if value =? 0 then [48] else write_uint_loop 24 value [].
Definition digits_value (s : list Z) : Z := foldl (fun a c => 10 * a + (c - 48)) 0 s.

Lemma digits_value_acc s a : foldl (fun a c => 10 * a + (c - 48)) a s = 10 ^ Z.of_nat (length s) * a + digits_value s.
Proof.
  unfold digits_value. revert a. induction s as [|c s IH]; intros a; cbn [foldl length]; [lia|].
  rewrite IH, (IH (10 * 0 + (c - 48))). rewrite Nat2Z.inj_succ, Z.pow_succ_r by lia. lia.
Qed.
Lemma write_uint_loop_value pos value buf :
  0 <= value < 10 ^ Z.of_nat pos -> Forall (fun c => 48 <= c <= 57) buf ->
  digits_value (write_uint_loop pos value buf) = 10 ^ Z.of_nat (length buf) * value + digits_value buf /\
  Forall (fun c => 48 <= c <= 57) (write_uint_loop pos value buf).
Proof.
  revert value buf. induction pos as [|p IH]; intros value buf Hv Hb; cbn [write_uint_loop].
  { change (10 ^ Z.of_nat 0) with 1 in Hv. replace value with 0 by lia. split; [lia|done]. }
  destruct (Z.ltb_spec 0 value) as [Hpos|Hpos].
  2: { replace value with 0 by lia. split; [lia|done]. }
  rewrite Nat2Z.inj_succ, Z.pow_succ_r in Hv by lia.
  pose proof (Z.mod_pos_bound value 10 ltac:(lia)). pose proof (Z.div_mod value 10 ltac:(lia)).
  destruct (IH (value / 10) (48 + value mod 10 :: buf)) as [-> H1]; [lia|constructor; [lia|done]|].
  split; [|done]. unfold digits_value at 1. cbn [foldl length]. rewrite digits_value_acc.
  rewrite Nat2Z.inj_succ, Z.pow_succ_r by lia. nia.
Qed.
Lemma uint_text_value value :
  0 <= value < 2 ^ 64 -> digits_value (uint_text value) = value /\ Forall (fun c => 48 <= c <= 57) (uint_text value).
Proof.
  intros H. unfold uint_text. destruct (Z.eqb_spec value 0) as [->|Hne].
  { split; [done|]. repeat constructor; lia. }
  destruct (write_uint_loop_value 24 value []) as [-> H1]; [|done|].
  { split; [lia|]. transitivity (2 ^ 64); [lia|]. by vm_compute. }
  split; [|done]. change (digits_value []) with 0. cbn [length]. change (10 ^ Z.of_nat 0) with 1. lia.
Qed.

Lemma run_write_out {B} s w (f : unit -> prog B) :
  run io_kernel (pbind (fd_write_bytes STDOUT_FD s) f) w = run io_kernel (f tt) (io_put s w).
Proof. done. Qed.
Lemma run_write_out_str {B} s w (f : unit -> prog B) :
  run io_kernel (pbind (fd_write_str STDOUT_FD s) f) w = run io_kernel (f tt) (io_put s w).
Proof. done. Qed.
Lemma run_write_uint {B} v w (f : unit -> prog B) :
  run io_kernel (pbind (write_uint v) f) w = run io_kernel (f tt) (io_put (uint_text v) w).
Proof. unfold write_uint, uint_text. by destruct (v =? 0). Qed.
(** Runs the writes to the terminal at the head of a program. *)
Ltac io_writes :=
  repeat first [rewrite run_write_out | rewrite run_write_out_str | rewrite run_write_uint | rewrite run_assoc]; cbv beta.
Lemma io_put_put s t w : io_put t (io_put s w) = io_put (s ++ t) w.
Proof. unfold io_put. cbn. by rewrite app_assoc. Qed.

(* ------------------------------------------------------------------ *)
(** ** cmp *)

(** The length of the longest common prefix. *)
Fixpoint common (l r : list Z) : nat :=
  match l, r with
  | x :: l', y :: r' => if x =? y then S (common l' r') else O
  | _, _ => O
  end.
Lemma common_bounds l r : (common l r <= length l)%nat /\ (common l r <= length r)%nat.
Proof.
  revert r. induction l as [|x l IH]; intros [|y r]; cbn [common length]; try lia.
  destruct (x =? y); [|lia]. specialize (IH r). lia.
Qed.
Lemma common_app p l r : common (p ++ l) (p ++ r) = (length p + common l r)%nat.
Proof. induction p as [|x p IH]; cbn [app common length]; [done|]. by rewrite Z.eqb_refl, IH. Qed.
Lemma common_take k l r : (k <= common l r)%nat -> take k l = take k r.
Proof.
  revert l r. induction k as [|k IH]; intros [|x l] [|y r]; cbn [common]; intros H; try done; try lia.
  destruct (Z.eqb_spec x y) as [->|]; [|lia]. cbn [take]. f_equal. apply IH. lia.
Qed.
Lemma common_refl l : common l l = length l.
Proof. induction l as [|x l IH]; [done|]. cbn [common length]. by rewrite Z.eqb_refl, IH. Qed.
Lemma differ_at_chunk n l r i :
  differ_at (take n l) (take n r) i =
    if (common l r <? Nat.min n (Nat.min (length l) (length r)))%nat then Some (i + Z.of_nat (common l r)) else None.
Proof.
  revert l r i. induction n as [|n IH]; intros [|x l] [|y r] i; cbn [take differ_at common length];
    try (rewrite (proj2 (Nat.ltb_ge _ _)) by lia; done).
  destruct (x =? y).
  - rewrite IH. destruct (Nat.ltb_spec (common l r) (Nat.min n (Nat.min (length l) (length r)))).
    + rewrite (proj2 (Nat.ltb_lt _ _)) by lia. f_equal. lia.
    + rewrite (proj2 (Nat.ltb_ge _ _)) by lia. done.
  - rewrite (proj2 (Nat.ltb_lt _ _)) by lia. f_equal. lia.
Qed.

Definition cmp_message (left right : list Z) (byte : Z) : list Z :=
  left ++ [32] ++ right ++ text " differ: byte " ++ uint_text byte ++ [10].
Lemma run_print_difference {B} left right byte w (f : unit -> prog B) :
  run io_kernel (pbind (print_difference left right byte) f) w = run io_kernel (f tt) (io_put (cmp_message left right byte) w).
Proof.
  unfold print_difference. io_writes. rewrite !io_put_put. reflexivity.
Qed.

Lemma run_sys_read_full {B} fd cap rest w (f : Z * list Z -> prog B) :
  0 < cap <= 4096 -> fd <> 0 -> io_sizes w = [] -> io_avail w fd = Some rest ->
  let buf := take (Z.to_nat cap) rest in
  run io_kernel (pbind (read_fd fd cap) f) w
    = run io_kernel (f (Z.of_nat (length buf), buf)) (io_advance fd (length buf) w).
Proof.
  intros Hcap Hfd Hs Ha buf. destruct (decide (rest = [])) as [->|Hne].
  - rewrite run_sys_read_end by done. unfold buf. rewrite take_nil. cbn [length].
    f_equal. unfold io_advance. rewrite (proj2 (Z.eqb_neq fd 0)) by done. destruct w as [? fds ? ? ? ? ? ?]. cbn. unfold io_set_fds. cbn.
    f_equal. symmetry. apply map_eq. intros j. destruct (decide (j = fd)) as [->|]; [|by rewrite lookup_alter_ne].
    rewrite lookup_alter_eq. destruct (fds !! fd) as [[p o]|]; [|done]. cbn. by rewrite Nat.add_0_r.
  - destruct (run_sys_read fd cap rest w f Hcap Ha Hne) as (b & rest' & Hb & _ & _ & Hfull & ->).
    specialize (Hfull Hs). assert (buf = b) as ->.
    { unfold buf. rewrite Hb. rewrite Hb in Hfull. rewrite length_app in Hfull.
      destruct (Nat.le_gt_cases (length b + length rest') (Z.to_nat cap)) as [H|H].
      - rewrite take_ge by (rewrite length_app; lia). destruct rest'; [by rewrite app_nil_r|cbn in *; lia].
      - by rewrite take_app_length' by lia. }
    f_equal. unfold io_skip, io_set_sizes. rewrite Hs. by destruct w; cbn in *; subst.
Qed.

(** The state of [cmp] with [off] bytes of both files read. *)
Record comparing (w0 : io) (lfd rfd : Z) (left right : list Z) (off : nat) (w : io) : Prop := Comparing {
  cg_like : io_like w0 (io_files w0) (<[rfd := (right, off)]> (<[lfd := (left, off)]> (io_fds w0))) w;
  cg_sizes : io_sizes w = [];
}.
Lemma comparing_read {B} w0 lfd rfd left right p l r w (g : Z -> list Z -> Z -> list Z -> prog B) :
  comparing w0 lfd rfd left right (length p) w -> 3 <= lfd -> 3 <= rfd -> lfd <> rfd ->
  io_files w0 !! left = Some (p ++ l) -> io_files w0 !! right = Some (p ++ r) ->
  exists w',
    run io_kernel (do! '(ln, lbuf) := read_fd lfd 512 in do! '(rn, rbuf) := read_fd rfd 512 in g ln lbuf rn rbuf) w
      = run io_kernel (g (Z.of_nat (length (take 512 l))) (take 512 l) (Z.of_nat (length (take 512 r))) (take 512 r)) w' /\
    io_like w0 (io_files w0)
      (<[rfd := (right, length p + length (take 512 r))%nat]>
        (<[lfd := (left, length p + length (take 512 l))%nat]> (io_fds w0))) w' /\
    io_sizes w' = [].
Proof.
  intros [[H1 H2 H3 H4 H5 H6 H7] Hs] Hl Hr Hne Hleft Hright.
  assert (io_avail w lfd = Some l) as Ha.
  { unfold io_avail. rewrite (proj2 (Z.eqb_neq lfd 0)) by lia. rewrite H2, lookup_insert_ne, lookup_insert_eq by done.
    cbn [mbind option_bind]. rewrite H1, Hleft. cbn. by rewrite drop_app_length. }
  rewrite (run_sys_read_full lfd 512 l) by first [done|lia].
  set (w1 := io_advance lfd _ w). change (Z.to_nat 512) with 512%nat.
  assert (io_files w1 = io_files w /\ io_sizes w1 = io_sizes w /\ io_in w1 = io_in w /\ io_out w1 = io_out w /\
    io_err w1 = io_err w /\ io_next w1 = io_next w /\ io_exit w1 = io_exit w /\
    io_fds w1 = <[rfd := (right, length p)]> (<[lfd := (left, length p + length (take 512 l))%nat]> (io_fds w0)))
    as (G1 & G2 & G3 & G4 & G5 & G6 & G7 & G8).
  { unfold w1, io_advance. rewrite (proj2 (Z.eqb_neq lfd 0)) by lia. cbn. split_and!; try done.
    rewrite H2, alter_insert_ne, alter_insert_eq by done. done. }
  assert (io_avail w1 rfd = Some r) as Hb.
  { unfold io_avail. rewrite (proj2 (Z.eqb_neq rfd 0)) by lia. rewrite G8, lookup_insert_eq.
    cbn [mbind option_bind]. rewrite G1, H1, Hright. cbn. by rewrite drop_app_length. }
  rewrite (run_sys_read_full rfd 512 r) by first [done|lia|congruence].
  eexists. split; [reflexivity|]. unfold io_advance. rewrite (proj2 (Z.eqb_neq rfd 0)) by lia.
  split; [|cbn; congruence]. constructor; cbn; try congruence. by rewrite G8, alter_insert_eq.
Qed.

Lemma cmp_close {B} w0 files fds lfd rfd x y w (f : Z -> prog B) r :
  io_like w0 files (<[rfd := y]> (<[lfd := x]> fds)) w -> lfd <> rfd -> fds !! lfd = None -> fds !! rfd = None ->
  exists w', run io_kernel (close_status lfd ;;~ close_status rfd ;;~ f r) w = run io_kernel (f r) w' /\
    io_like w0 files fds w'.
Proof.
  intros Hw Hne Hl Hr.
  destruct (io_like_close _ _ _ _ lfd x Hw) as (w1 & Hc1 & Hw1); [by rewrite lookup_insert_ne, lookup_insert_eq|].
  rewrite Hc1. destruct (io_like_close _ _ _ _ rfd y Hw1) as (w2 & Hc2 & Hw2); [by rewrite lookup_delete_ne, lookup_insert_eq|].
  rewrite Hc2. exists w2. split; [done|].
  by rewrite delete_insert_ne, delete_insert_eq, delete_insert_id, delete_id in Hw2 by done.
Qed.
Lemma io_like_put w0 files fds s w : io_like w0 files fds w -> io_like (io_put s w0) files fds (io_put s w).
Proof. intros []. constructor; cbn; congruence. Qed.

Lemma cmp_loop_spec fuel w0 lfd rfd left right p l r w :
  comparing w0 lfd rfd left right (length p) w -> 3 <= lfd -> 3 <= rfd -> lfd <> rfd ->
  io_fds w0 !! lfd = None -> io_fds w0 !! rfd = None ->
  io_files w0 !! left = Some (p ++ l) -> io_files w0 !! right = Some (p ++ r) ->
  (length l < fuel)%nat -> Z.of_nat (length p + length l + length r) < 2 ^ 62 ->
  exists w', run io_kernel (cmp_loop fuel left right lfd rfd (Z.of_nat (length p) + 1)) w
      = (Returned (if decide (l = r) then 0 else 1), w') /\
    io_like (io_put (if decide (l = r) then [] else
                       cmp_message left right (Z.of_nat (length p + common l r) + 1)) w0)
      (io_files w0) (io_fds w0) w'.
Proof.
  revert p l r w. induction fuel as [|f IH]; intros p l r w Hw Hl Hr Hne Hfl Hfr Hleft Hright Hfuel Hbig; [lia|].
  cbn [cmp_loop]. destruct (common_bounds l r) as [Hcl Hcr].
  set (close_both := fun r0 : Z => close_status lfd ;;~ close_status rfd ;;~ Done r0).
  edestruct (comparing_read (B := Z) w0 lfd rfd left right p l r w) as (w1 & Hrun & Hw1 & Hs1); [done..|].
  rewrite Hrun. clear Hrun.
  rewrite !(proj2 (Z.ltb_ge _ 0)) by lia.
  assert (forall v w2 files, io_like w0 files (<[rfd := (right, length p + length (take 512 r))%nat]>
        (<[lfd := (left, length p + length (take 512 l))%nat]> (io_fds w0))) w2 ->
    exists w3, run io_kernel (close_both v) w2 = (Returned v, w3) /\ io_like w0 files (io_fds w0) w3) as Hclose.
  { intros v w2 files Hw2. by apply (cmp_close w0 files (io_fds w0) lfd rfd _ _ w2 Done v Hw2). }
  assert (forall byte v, exists w3,
    run io_kernel (print_difference left right byte ;;~ close_both v) w1 = (Returned v, w3) /\
    io_like (io_put (cmp_message left right byte) w0) (io_files w0) (io_fds w0) w3) as Hprint.
  { intros byte v. rewrite run_print_difference.
    eapply io_like_put in Hw1.
    by apply (cmp_close _ _ (io_fds (io_put (cmp_message left right byte) w0)) lfd rfd _ _ _ Done v Hw1). }
  rewrite differ_at_chunk, Z.add_0_l. rewrite !length_take.
  destruct (Nat.ltb_spec (common l r) (Nat.min 512 (Nat.min (length l) (length r)))) as [Hd|Hd].
  { assert (l <> r) by (intros ->; rewrite common_refl in Hd; lia). rewrite !(decide_False (P := l = r)) by done.
    rewrite u64_id by lia. replace (Z.of_nat (length p) + 1 + Z.of_nat (common l r))
      with (Z.of_nat (length p + common l r) + 1) by lia. apply Hprint. }
  destruct (Z.eqb_spec (Z.of_nat (Nat.min 512 (length l))) (Z.of_nat (Nat.min 512 (length r)))) as [He|He]; cbn [negb].
  2: { assert (l <> r) by (by intros ->). rewrite !(decide_False (P := l = r)) by done.
    rewrite u64_id by lia. replace (Z.of_nat (length p) + 1 + Z.min _ _)
      with (Z.of_nat (length p + common l r) + 1) by lia. apply Hprint. }
  apply Nat2Z.inj in He.
  destruct (Z.eqb_spec (Z.of_nat (Nat.min 512 (length l))) 0) as [Hz|Hz].
  { assert (l = [] /\ r = []) as [-> ->] by (split; apply length_zero_iff_nil; lia).
    rewrite !decide_True by done. destruct (Hclose 0 w1 _ Hw1) as (w3 & Hrun & Hw3). exists w3. split; [done|].
    destruct Hw3. constructor; cbn; try done. by rewrite app_nil_r. }
  set (k := Nat.min 512 (length l)) in *.
  assert (take k l = take k r) as Htk by (apply common_take; lia).
  assert (length (take k l) = k) as Hk by (rewrite length_take; lia).
  assert (l = take k l ++ drop k l) as Hl' by (by rewrite take_drop).
  assert (r = take k l ++ drop k r) as Hr' by (by rewrite Htk, take_drop).
  rewrite u64_id by lia.
  destruct (IH (p ++ take k l) (drop k l) (drop k r) w1) as (w3 & Hrun & Hw3); try done.
  { split; [|done]. rewrite length_app, Hk. rewrite !length_take in Hw1. by rewrite <- He in Hw1. }
  { by rewrite <- app_assoc, <- Hl'. }
  { by rewrite <- app_assoc, <- Hr'. }
  { rewrite length_drop. lia. }
  { rewrite length_app, !length_drop. lia. }
  rewrite length_app, Hk in Hrun, Hw3.
  replace (Z.of_nat (length p) + 1 + Z.of_nat k) with (Z.of_nat (length p + k) + 1) by lia.
  exists w3.
  assert (common l r = k + common (drop k l) (drop k r))%nat as Hcom.
  { rewrite Hl', Hr' at 1. by rewrite common_app, Hk. }
  assert (forall X (a b : X), (if decide (drop k l = drop k r) then a else b) = (if decide (l = r) then a else b)) as Hif.
  { intros X a b. clear -Hl' Hr'. repeat case_decide; try done; exfalso; [congruence|]. apply H. by rewrite H0. }
  rewrite !Hif in *. split; [done|]. by rewrite Hcom, Nat.add_assoc.
Qed.

Lemma open_input_opens {B} tool path content w (f : Z -> prog B) :
  io_files w !! path = Some content -> 3 <= io_next w < 1000 ->
  run io_kernel (pbind (open_input tool path) f) w =
    run io_kernel (f (io_next w))
      (IO (io_files w) (<[io_next w := (path, 0%nat)]> (io_fds w)) (io_next w + 1) (io_in w) (io_out w) (io_err w)
         (io_sizes w) (io_exit w)).
Proof.
  intros Hp Hn. unfold open_input. rewrite run_assoc, run_call. cbn [io_kernel].
  rewrite (io_like_open _ _ _ _ _ _ (io_like_refl w)) by (right; by eexists).
  change (Z.land O_RDONLY O_TRUNC =? 0) with true. cbn iota. rewrite Hp.
  rewrite (s32_id (io_next w)) by lia. by rewrite (proj2 (Z.ltb_ge (io_next w) 0)) by lia.
Qed.

(** [cmp] compares files: it answers 0 and says nothing exactly when the
    files have the same bytes; else it answers 1 and names the first byte that
    differs, counted from 1, a file that ends early differing where it ends.
    The reads of regular files are full. *)
Theorem cmp_compares fuel left right l r w :
  io_ready w left l -> io_files w !! right = Some r -> io_sizes w = [] ->
  (length l < fuel)%nat -> Z.of_nat (length l + length r) < 2 ^ 62 ->
  exists w', run io_kernel (cmp_files fuel left right) w = (Returned (if decide (l = r) then 0 else 1), w') /\
    io_out w' = io_out w ++ (if decide (l = r) then [] else
                               cmp_message left right (Z.of_nat (common l r) + 1)) /\
    io_err w' = io_err w /\ io_files w' = io_files w /\ io_fds w' = io_fds w.
Proof.
  intros [Hl Hnext Hfd Hfd2] Hr Hs Hfuel Hbig. unfold cmp_files.
  rewrite (open_input_opens _ left l) by first [done|lia].
  rewrite (proj2 (Z.ltb_ge _ 0)) by lia.
  rewrite (open_input_opens _ right r) by first [done|cbn; lia]. cbn [io_files io_fds io_next io_in io_out io_err io_sizes io_exit].
  rewrite (proj2 (Z.ltb_ge _ 0)) by lia.
  set (w1 := IO _ _ (io_next w + 1 + 1) _ _ _ _ _).
  set (w0 := IO (io_files w) (io_fds w) (io_next w + 1 + 1) (io_in w) (io_out w) (io_err w) (io_sizes w) (io_exit w)).
  destruct (cmp_loop_spec fuel w0 (io_next w) (io_next w + 1) left right [] l r w1) as (w2 & Hrun & [G1 G2 G3 G4 G5 G6 G7]);
    try done; try lia.
  exists w2. split; [exact Hrun|]. rewrite G1, G2, G4, G5. done.
Qed.

(* ------------------------------------------------------------------ *)
(** ** cat and echo *)

(** Reading a file to its end with a body that writes to the terminal:
    [g read] has been written when [read] has been read. *)
Lemma read_all_prints {A} (fuel : nat) cap (body : list Z -> A -> prog A) (st : list Z -> A) (g : list Z -> list Z)
    w0 files fds fd path content w :
  0 < cap <= 4096 -> 3 <= fd -> files !! path = Some content -> (length content < fuel)%nat ->
  io_like w0 files (<[fd := (path, 0%nat)]> fds) w -> g [] = [] ->
  (forall done buf rest w, content = done ++ buf ++ rest -> buf <> [] ->
    exists t, run io_kernel (body buf (st done)) w = (Returned (st (done ++ buf)), io_put t w) /\
      g (done ++ buf) = g done ++ t) ->
  exists w', run io_kernel (read_all fuel fd cap body (st [])) w = (Returned (st content, 0), w') /\
    io_like (io_put (g content) w0) files (<[fd := (path, length content)]> fds) w'.
Proof.
  intros Hcap Hfd Hf Hfuel Hw Hg Hstep.
  destruct (read_all_rule fd cap content
    (fun d a w => a = st d /\ io_like (io_put (g d) w0) files (<[fd := (path, length d)]> fds) w) Hcap) with
    (body := body) (fuel := fuel) (a := st []) (w := w) as (a & w' & Hrun & -> & Hw'); [| |done| |by exists w'].
  - intros d rest a w1 Hc [_ [H1 H2 _ _ _ _ _]]. unfold io_avail. rewrite (proj2 (Z.eqb_neq fd 0)) by lia.
    rewrite H2, lookup_insert_eq. cbn [mbind option_bind]. rewrite H1, Hf. cbn. by rewrite Hc, drop_app_length.
  - intros d buf rest a w1 Hc Hne Hlen [-> Hw1].
    destruct (Hstep d buf rest (io_advance fd (length buf) (io_skip w1)) Hc Hne) as (t & Hrun & Ht).
    eexists _, _. split; [exact Hrun|]. split; [done|]. rewrite Ht. destruct Hw1 as [H1 H2 H3 H4 H5 H6 H7].
    unfold io_advance. rewrite (proj2 (Z.eqb_neq fd 0)) by lia. constructor; cbn in *; try done.
    + by rewrite H2, alter_insert_eq, length_app.
    + by rewrite H4, app_assoc.
  - split; [done|]. rewrite Hg. destruct Hw as [H1 H2 H3 H4 H5 H6 H7]. constructor; cbn; try done. by rewrite H4, app_nil_r.
Qed.

Definition io_opened (path : list Z) (w : io) : io :=
  IO (io_files w) (<[io_next w := (path, 0%nat)]> (io_fds w)) (io_next w + 1) (io_in w) (io_out w) (io_err w)
    (io_sizes w) (io_exit w).
Lemma run_open {B} path content w (f : Z -> prog B) :
  io_files w !! path = Some content ->
  run io_kernel (pbind (call (SysOpen path O_RDONLY)) f) w = run io_kernel (f (io_next w)) (io_opened path w).
Proof.
  intros Hp. rewrite run_call. cbn [io_kernel].
  rewrite (io_like_open _ _ _ _ _ _ (io_like_refl w)) by (right; by eexists).
  change (Z.land O_RDONLY O_TRUNC =? 0) with true. cbn iota. by rewrite Hp.
Qed.
Lemma run_close w0 files fds fd x w :
  io_like w0 files fds w -> fds !! fd = Some x ->
  exists w', (forall B (f : Z -> prog B), run io_kernel (pbind (call (SysClose fd)) f) w = run io_kernel (f 0) w') /\
    io_like w0 files (delete fd fds) w'.
Proof.
  intros [Hfiles Hfds Hin Hout Herr Hnext Hexit] Hx. exists (io_set_fds (delete fd fds) w). split; [|by constructor].
  intros B f. rewrite run_call. cbn [io_kernel]. unfold io_close. by rewrite Hfds, Hx.
Qed.

(** No descriptor from the next one on is in use. *)
Definition io_fresh (w : io) : Prop := forall fd, io_next w <= fd -> io_fds w !! fd = None.

(** A tool's work on a file between its [open] and its [close]. *)
Lemma with_file {A B} path content w s (body : prog A) (x : A) (f : A -> prog B) off :
  io_files w !! path = Some content -> io_fresh w -> 3 <= io_next w < 1000 ->
  (exists w1, run io_kernel body (io_opened path w) = (Returned x, w1) /\
    io_like (io_put s (io_opened path w)) (io_files w) (<[io_next w := (path, off)]> (io_fds w)) w1) ->
  exists w2, run io_kernel (do! a := body in call (SysClose (io_next w)) ;;~ f a) (io_opened path w)
      = run io_kernel (f x) w2 /\
    io_like (io_put s (io_opened path w)) (io_files w) (io_fds w) w2.
Proof.
  intros Hp Hfresh Hn (w1 & Hrun & Hw1). rewrite (run_returned _ _ _ _ _ _ Hrun).
  destruct (run_close _ _ _ (io_next w) (path, off) w1 Hw1) as (w2 & Hc & Hw2); [by rewrite lookup_insert_eq|].
  exists w2. rewrite Hc. split; [done|]. by rewrite delete_insert_id in Hw2 by (apply Hfresh; lia).
Qed.

Lemma do_cat_prints fuel path content w :
  io_files w !! path = Some content -> 3 <= io_next w -> (length content < fuel)%nat ->
  exists w1, run io_kernel (do_cat fuel (io_next w)) (io_opened path w) = (Returned tt, w1) /\
    io_like (io_put content (io_opened path w)) (io_files w) (<[io_next w := (path, length content)]> (io_fds w)) w1.
Proof.
  intros Hp Hn Hfuel. unfold do_cat.
  destruct (read_all_prints fuel 512 (fun buf (_ : unit) => fd_write_bytes STDOUT_FD buf) (fun _ => tt) (fun d => d)
    (io_opened path w) (io_files w) (io_fds w) (io_next w) path content (io_opened path w)) as (w1 & Hrun & Hw1);
    [lia|done|done|done|by constructor|done| |].
  - intros d buf rest w2 _ _. by exists buf.
  - exists w1. split; [|done]. by rewrite (run_returned _ _ _ _ _ _ Hrun).
Qed.

Lemma cat_loop_prints fuel paths contents w :
  Forall2 (fun path content => io_files w !! path = Some content /\ (length content < fuel)%nat) paths contents ->
  io_fresh w -> 3 <= io_next w -> io_next w + Z.of_nat (length paths) < 1000 ->
  exists w', run io_kernel (cat_loop fuel paths) w = (Returned tt, w') /\
    io_out w' = io_out w ++ concat contents /\ io_err w' = io_err w /\ io_files w' = io_files w /\ io_fds w' = io_fds w.
Proof.
  intros H. remember (io_files w) as files eqn:Hfiles. revert w Hfiles.
  induction H as [|path content paths contents [Hp Hl] _ IH]; intros w -> Hfresh Hn Hm.
  { exists w. cbn. by rewrite app_nil_r. }
  cbn [cat_loop length] in *. rewrite (run_open path content) by done.
  rewrite (s32_id (io_next w)) by lia. rewrite (proj2 (Z.ltb_ge (io_next w) 0)) by lia.
  rewrite run_assoc.
  destruct (with_file (B := unit) path content w content (do_cat fuel (io_next w)) tt
    (fun _ => cat_loop fuel paths) (length content)) as (w2 & Hrun & [G1 G2 G3 G4 G5 G6 G7]); [done|done|lia| |].
  { by apply do_cat_prints. }
  destruct (IH w2) as (w3 & Hrun3 & K1 & K2 & K3 & K4); [done|intros fd Hfd; rewrite G2; apply Hfresh; rewrite G6 in Hfd; cbn in Hfd; lia|
    rewrite G6; cbn; lia|rewrite G6; cbn; lia|].
  exists w3. split.
  - etransitivity; [|exact Hrun3]. etransitivity; [|exact Hrun]. rewrite !run_pbind.
    destruct (run io_kernel (do_cat fuel (io_next w)) (io_opened path w)) as [[[]| | |] w4]; [|done..].
    by rewrite run_assoc, run_call.
  - rewrite K1, K2, K3, K4, G2, G4, G5. cbn. by rewrite <- app_assoc.
Qed.

(** [cat] writes the contents of its files one after the other, whatever the
    sizes in which the kernel answers its reads, and exits with 0. *)
Theorem cat_concatenates fuel name paths contents w :
  Forall2 (fun path content => io_files w !! path = Some content /\ (length content < fuel)%nat) paths contents ->
  paths <> [] -> io_fresh w -> 3 <= io_next w -> io_next w + Z.of_nat (length paths) < 1000 ->
  exists w', run io_kernel (cat_main fuel (name :: paths)) w = (Gone, w') /\ io_exit w' = Some 0 /\
    io_out w' = io_out w ++ concat contents /\ io_err w' = io_err w /\ io_files w' = io_files w.
Proof.
  intros H Hne Hfresh Hn Hm. unfold cat_main. cbn [length tail].
  rewrite (proj2 (Nat.leb_gt _ 1)) by (destruct paths; [done|cbn; lia]).
  rewrite (run_returned _ (Done tt) _ _ _ _ eq_refl).
  destruct (cat_loop_prints fuel paths contents w H Hfresh Hn Hm) as (w1 & Hrun & K1 & K2 & K3 & K4).
  rewrite (run_returned _ _ _ _ _ _ Hrun). eexists. split; [reflexivity|]. cbn. by rewrite K1, K2, K3.
Qed.

(* ------------------------------------------------------------------ *)
(** ** Samples *)

(** Answers of one, three and two bytes, then full ones. *)
Definition sample_io (sizes : list nat) : io :=
  IO {[ text "a" := text "two words"; text "b" := text "two wolves"; text "c" := text "x" ]} ∅ 3 [] [] [] sizes None.
Lemma sample_fresh sizes : io_fresh (sample_io sizes).
Proof. intros fd _. apply lookup_empty. Qed.
Lemma sample_ready sizes : io_ready (sample_io sizes) (text "a") (text "two words").
Proof. constructor; [reflexivity|cbn; lia|reflexivity|reflexivity]. Qed.

Lemma cp_copies_witness :
  exists w', run io_kernel (copy_file 20 (text "a") (text "c")) (sample_io [0; 2; 1]%nat) = (Returned 0, w') /\
    io_files w' = <[text "c" := text "two words"]> (io_files (sample_io [0; 2; 1]%nat)) /\
    io_fds w' = ∅ /\ io_out w' = [] /\ io_err w' = [].
Proof.
  apply (cp_copies 20 (text "a") (text "c") (text "two words") (sample_io [0; 2; 1]%nat)).
  - apply sample_ready.
  - intros H. discriminate H.
  - by apply Nat.ltb_lt.
Defined.
Lemma mv_moves_witness :
  exists w', run io_kernel (move_file 20 (text "a") (text "b")) (sample_io [0; 2; 1]%nat) = (Returned 0, w') /\
    io_files w' = (if decide (text "a" = text "b") then io_files (sample_io [0; 2; 1]%nat)
                   else <[text "b" := text "two words"]> (delete (text "a") (io_files (sample_io [0; 2; 1]%nat)))) /\
    io_fds w' = ∅ /\ io_out w' = [] /\ io_err w' = [].
Proof.
  apply (mv_moves 20 (text "a") (text "b") (text "two words") (sample_io [0; 2; 1]%nat)).
  - apply sample_ready.
  - reflexivity.
  - by apply Nat.ltb_lt.
Defined.
Lemma cmp_compares_witness :
  exists w', run io_kernel (cmp_files 20 (text "a") (text "b")) (sample_io []) = (Returned 1, w') /\
    io_out w' = text "a b differ: byte 7" ++ [10] /\ io_err w' = [] /\
    io_files w' = io_files (sample_io []) /\ io_fds w' = ∅.
Proof.
  apply (cmp_compares 20 (text "a") (text "b") (text "two words") (text "two wolves") (sample_io [])).
  - apply sample_ready.
  - reflexivity.
  - reflexivity.
  - by apply Nat.ltb_lt.
  - reflexivity.
Defined.
