(* ===== verification/TextTools.v ===== *)
(** The text tools of [src/user]: [wc], [head], [tail], [grep] and [diff], as
    programs over the system calls of [Prog.v]. *)

From S2P Require Import Prelude Prog Tools.

(* ------------------------------------------------------------------ *)
(** ** wc *)

(** [struct counts], whose members are [uint64]. *)
Record counts := Counts { c_lines : Z; c_words : Z; c_bytes : Z }.
Definition is_blank (c : Z) : bool :=
  (c =? 32) || (c =? 10) || (c =? 9) || (c =? 13) || (c =? 11) || (c =? 12).
(** The body of the loop of [count_buf]: the counts and [in_word]. *)
Definition count_byte (c : Z) (s : counts * bool) : counts * bool :=
  let '(Counts lines words bytes, in_word) := s in
  let lines := if c =? 10 then u64 (lines + 1) else lines in
  if is_blank c then (Counts lines words bytes, false)
  else if in_word : bool then (Counts lines words bytes, in_word)
  else (Counts lines (u64 (words + 1)) bytes, true).
Definition count_buf (buf : list Z) (s : counts * bool) : counts * bool :=
  let '(Counts lines words bytes, in_word) := s in
  foldl (fun s c => count_byte c s)
    (Counts lines words (u64 (bytes + Z.of_nat (length buf))), in_word) buf.
Definition count_fd (fuel : nat) (fd : Z) (c : counts) : prog (counts * Z) :=
  do! '(s, n) := read_all fuel fd 512 (fun buf s => Done (count_buf buf s)) (c, false) in
  Done (fst s, if n <? 0 then -1 else 0).
Definition add_counts (dst src : counts) : counts :=
  Counts (u64 (c_lines dst + c_lines src)) (u64 (c_words dst + c_words src)) (u64 (c_bytes dst + c_bytes src)).

Definition print_counts (c : counts) (name : option (list Z)) : prog unit :=
  write_uint (c_lines c) ;;~ fd_write_str STDOUT_FD [32] ;;~
  write_uint (c_words c) ;;~ fd_write_str STDOUT_FD [32] ;;~
  write_uint (c_bytes c) ;;~
  (match name with
   | Some name => fd_write_str STDOUT_FD [32] ;;~ fd_write_str STDOUT_FD name
   | None => Done tt
   end) ;;~
  fd_write_str STDOUT_FD [10].
Definition count_file (fuel : nat) (path : list Z) (c : counts) : prog (counts * Z) :=
  do! r := call (SysOpen path O_RDONLY) in
  let fd := s32 r in
  if fd <? 0 then complain (text "wc: cannot open ") path ;;~ Done (c, -1)
  else
    do! '(c, n) := count_fd fuel fd c in
    if n <? 0 then complain (text "wc: read error ") path ;;~ call (SysClose fd) ;;~ Done (c, -1)
    else call (SysClose fd) ;;~ Done (c, 0).
(** The loop of [main]: the total and [had_error]. *)
Fixpoint wc_loop (fuel : nat) (args : list (list Z)) (total : counts) (had_error : bool) :
    prog (counts * bool) :=
  match args with
  | [] => Done (total, had_error)
  | path :: args' =>
      do! '(c, n) := count_file fuel path (Counts 0 0 0) in
      if n <? 0 then wc_loop fuel args' total true
      else print_counts c (Some path) ;;~ wc_loop fuel args' (add_counts total c) had_error
  end.
Definition wc_main (fuel : nat) (argv : list (list Z)) : prog unit :=
  (if (length argv =? 1)%nat then
     do! '(c, n) := count_fd fuel STDIN_FD (Counts 0 0 0) in
     (if n <? 0 then exit_with (-1) else Done tt) ;;~
     print_counts c None ;;~ exit_with 0
   else Done tt) ;;~
  do! '(total, had_error) := wc_loop fuel (tail argv) (Counts 0 0 0) false in
  (if (2 <? length argv)%nat then print_counts total (Some (text "total")) else Done tt) ;;~
  exit_with (if had_error : bool then -1 else 0).

(* ------------------------------------------------------------------ *)
(** ** head *)

(** The loop of [parse_uint]; an [int] that wraps around. *)
Fixpoint parse_digits (s : list Z) (value : Z) : option Z :=
  match s with
  | [] => Some value
  | c :: s' => if (c <? 48) || (57 <? c) then None else parse_digits s' (s32 (value * 10 + (c - 48)))
  end.
Definition parse_uint (s : list Z) : option Z :=
  match s with [] => None | _ => parse_digits s 0 end.

(** The loop over a buffer: [end] and [lines]. *)
Fixpoint head_scan (buf : list Z) (i lines limit : Z) : Z * Z :=
  match buf with
  | [] => (i, lines)
  | c :: buf' =>
      if c =? 10 then
        if limit <=? lines + 1 then (i + 1, lines + 1) else head_scan buf' (i + 1) (lines + 1) limit
      else head_scan buf' (i + 1) lines limit
  end.
Definition head_fd (fuel : nat) (fd limit : Z) : prog Z :=
  if limit <=? 0 then Done 0
  else
    do! x := read_until fuel fd 256 (fun buf lines =>
      let '(end_, lines) := head_scan buf 0 lines limit in
      (if 0 <? end_ then fd_write_bytes STDOUT_FD (take (Z.to_nat end_) buf) else Done tt) ;;~
      Done (if limit <=? lines then inr 0 else inl lines)) 0 in
    Done (match x with inr r => r | inl (_, n) => if n <? 0 then -1 else 0 end).
Definition head_file (fuel : nat) (path : list Z) (limit : Z) : prog Z :=
  on_file (text "head") path (fun fd => head_fd fuel fd limit).
(** [main] of [head] and of [tail], which differ in what they do with a file:
    the number of lines and the first argument behind the options. *)
Definition lines_main (tool : list Z) (argv : list (list Z)) (on_stdin : Z -> prog Z)
    (on_path : list Z -> Z -> prog Z) : prog unit :=
  let usage := fd_write_str STDERR_FD (text "usage: " ++ tool ++ text " [-n N] [FILE]" ++ [10]) ;;~ exit_with 1 in
  do! '(lines, a) :=
    (if (3 <=? length argv)%nat && bool_decide (arg argv 1 = text "-n") then
       match parse_uint (arg argv 2) with
       | Some lines => Done (lines, 3%nat)
       | None => usage ;;~ Done (10, 3%nat)
       end
     else Done (10, 1%nat)) in
  (if (a + 1 <? length argv)%nat then usage else Done tt) ;;~
  (if (length argv =? a)%nat then
     do! r := on_stdin lines in exit_with (if r <? 0 then -1 else 0)
   else Done tt) ;;~
  do! r := on_path (arg argv a) lines in
  exit_with (if r <? 0 then -1 else 0).
Definition head_main (fuel : nat) (argv : list (list Z)) : prog unit :=
  lines_main (text "head") argv (fun lines => head_fd fuel STDIN_FD lines) (head_file fuel).

(* ------------------------------------------------------------------ *)
(** ** tail *)

Definition TAIL_CAP : nat := Z.to_nat 4096.
(** [struct tailbuf]: a ring. *)
Record tailbuf := Tailbuf { t_data : list Z; t_start : nat; t_len : nat; t_lines : Z }.

Definition tail_get (t : tailbuf) (offset : nat) : Z :=
  default 0 (t_data t !! ((t_start t + offset) mod TAIL_CAP)%nat).
Definition tail_drop_one (t : tailbuf) : tailbuf :=
  if (t_len t <=? 0)%nat then t
  else
    let lines := if default 0 (t_data t !! t_start t) =? 10 then t_lines t - 1 else t_lines t in
    Tailbuf (t_data t) ((t_start t + 1) mod TAIL_CAP)%nat (t_len t - 1) lines.
(** [while (limit >= 0 && t->lines > limit && t->len > 0) tail_drop_one(t);]:
    every round makes [t->len] smaller. *)
Fixpoint tail_trim (n : nat) (limit : Z) (t : tailbuf) : tailbuf :=
  match n with
  | O => t
  | S n' =>
      if (0 <=? limit) && (limit <? t_lines t) && (0 <? t_len t)%nat
      then tail_trim n' limit (tail_drop_one t) else t
  end.
Definition tail_push (c limit : Z) (t : tailbuf) : tailbuf :=
  let t := if (t_len t =? TAIL_CAP)%nat then tail_drop_one t else t in
  let pos := ((t_start t + t_len t) mod TAIL_CAP)%nat in
  let t := Tailbuf (<[pos := c]> (t_data t)) (t_start t) (t_len t + 1)
             (if c =? 10 then t_lines t + 1 else t_lines t) in
  tail_trim (t_len t) limit t.
Definition tail_write (t : tailbuf) : prog unit :=
  if (t_len t <=? 0)%nat then Done tt
  else
    let first := Nat.min (TAIL_CAP - t_start t) (t_len t) in
    fd_write_bytes STDOUT_FD (slice (t_data t) (t_start t) first) ;;~
    (if (first <? t_len t)%nat then fd_write_bytes STDOUT_FD (take (t_len t - first) (t_data t))
     else Done tt).
(** [data]: what is in the array before it is written. *)
Definition tail_fd (fuel : nat) (data : list Z) (fd limit : Z) : prog Z :=
  if limit <=? 0 then
    do! '(_, n) := read_all fuel fd 256 (fun _ _ => Done tt) tt in
    Done (if n <? 0 then -1 else 0)
  else
    do! '(t, n) := read_all fuel fd 256 (fun buf t =>
      Done (foldl (fun t c => tail_push c limit t) t buf)) (Tailbuf data 0 0 0) in
    if n <? 0 then Done (-1)
    else
      let t := if (0 <? t_len t)%nat && (tail_get t 0 =? 10) then tail_drop_one t else t in
      tail_write t ;;~ Done 0.
Definition tail_file (fuel : nat) (data path : list Z) (limit : Z) : prog Z :=
  on_file (text "tail") path (fun fd => tail_fd fuel data fd limit).
Definition tail_main (fuel : nat) (data : list Z) (argv : list (list Z)) : prog unit :=
  lines_main (text "tail") argv (fun lines => tail_fd fuel data STDIN_FD lines) (tail_file fuel data).

(* ------------------------------------------------------------------ *)
(** ** grep *)

Definition LINE_CAP : nat := Z.to_nat 1024.
(** [while (pat[j] && line[i + j] == pat[j]) j++;] and [!pat[j]]. *)
Fixpoint match_here (pat line : list Z) : bool :=
  match pat, line with
  | [], _ => true
  | x :: pat', y :: line' => (y =? x) && match_here pat' line'
  | _ :: _, [] => false
  end.
Fixpoint brute_loop (pat line : list Z) : bool :=
  match line with
  | [] => false
  | _ :: line' => match_here pat line || brute_loop pat line'
  end.
Definition brute_match (pat line : list Z) : bool :=
  (length pat =? 0)%nat || brute_loop pat line.
Definition print_match (name : list Z) (show_name : bool) (line : list Z) : prog unit :=
  (if show_name then fd_write_str STDOUT_FD name ;;~ fd_write_str STDOUT_FD [58] else Done tt) ;;~
  fd_write_str STDOUT_FD line ;;~ fd_write_str STDOUT_FD [10].
(** [line] is what [line[0..pos)] holds. *)
Definition flush_line (pat name : list Z) (show_name : bool) (line : list Z) : prog bool :=
  let line := cstr line in
  let matched := brute_match pat line in
  (if matched then print_match name show_name line else Done tt) ;;~ Done matched.
(** The characters of a read: [line] and [matched]. *)
Fixpoint grep_buf (pat name : list Z) (show_name : bool) (buf : list Z) (s : list Z * bool) :
    prog (list Z * bool) :=
  match buf with
  | [] => Done s
  | c :: buf' =>
      let '(line, matched) := s in
      if c =? 13 then grep_buf pat name show_name buf' s
      else if c =? 10 then
        do! m := flush_line pat name show_name line in
        grep_buf pat name show_name buf' ([], matched || m)
      else
        grep_buf pat name show_name buf'
          (if (length line <? LINE_CAP - 1)%nat then line ++ [c] else line, matched)
  end.
Definition grep_fd (fuel : nat) (fd : Z) (name : list Z) (show_name : bool) (pat : list Z) : prog bool :=
  do! '((line, matched), _) := read_all fuel fd 256 (grep_buf pat name show_name) ([], false) in
  if (0 <? length line)%nat then
    do! m := flush_line pat name show_name line in Done (matched || m)
  else Done matched.
Definition grep_file (fuel : nat) (path : list Z) (show_name : bool) (pat : list Z) : prog (bool * bool) :=
  do! r := call (SysOpen path O_RDONLY) in
  let fd := s32 r in
  if fd <? 0 then complain (text "grep: cannot open ") path ;;~ Done (false, true)
  else
    do! matched := grep_fd fuel fd path show_name pat in
    call (SysClose fd) ;;~ Done (matched, false).
(** The loop of [main]: [matched] and [had_error]. *)
Fixpoint grep_loop (fuel : nat) (args : list (list Z)) (show_name : bool) (pat : list Z)
    (matched had_error : bool) : prog (bool * bool) :=
  match args with
  | [] => Done (matched, had_error)
  | path :: args' =>
      do! '(m, e) := grep_file fuel path show_name pat in
      grep_loop fuel args' show_name pat (matched || m) (had_error || e)
  end.
Definition grep_main (fuel : nat) (argv : list (list Z)) : prog unit :=
  (if (length argv <? 2)%nat then
     fd_write_str STDERR_FD (text "usage: grep PATTERN [FILE...]" ++ [10]) ;;~ exit_with 1
   else Done tt) ;;~
  let pat := arg argv 1 in
  do! '(matched, had_error) :=
    (if (length argv =? 2)%nat then
       do! m := grep_fd fuel STDIN_FD (text "-") false pat in Done (m, false)
     else grep_loop fuel (drop 2 argv) (3 <? length argv)%nat pat false false) in
  (if had_error : bool then exit_with (-1) else Done tt) ;;~
  exit_with (if matched : bool then 0 else 1).

(* ------------------------------------------------------------------ *)
(** ** diff *)

Definition DIFF_CAP : nat := 512.
Fixpoint str_eq (a b : list Z) : bool :=
  match a, b with
  | x :: a', y :: b' => (x =? y) && str_eq a' b'
  | [], [] => true
  | _, _ => false
  end.
(** [read_line]: the value returned, the line and [truncated]. *)
Fixpoint diff_read_line (fuel : nat) (fd : Z) (buf : list Z) (truncated : bool) : prog (Z * list Z * bool) :=
  match fuel with
  | O => Spin
  | S f =>
      do! '(n, data) := read_fd fd 1 in
      if n <? 0 then Done (-1, buf, truncated)
      else if n =? 0 then
        Done (if (length buf =? 0)%nat then 0 else 1, buf, truncated)
      else
        let ch := hd 0 data in
        if ch =? 13 then diff_read_line f fd buf truncated
        else if ch =? 10 then Done (1, buf, truncated)
        else if (length buf <? DIFF_CAP - 1)%nat then diff_read_line f fd (buf ++ [ch]) truncated
        else diff_read_line f fd buf true
  end.
Definition print_line_difference (left right : list Z) (line : Z) (left_line right_line : option (list Z)) : prog unit :=
  fd_write_str STDOUT_FD left ;;~ fd_write_str STDOUT_FD [32] ;;~ fd_write_str STDOUT_FD right ;;~
  fd_write_str STDOUT_FD (text " differ: line ") ;;~ write_uint line ;;~ fd_write_str STDOUT_FD [10] ;;~
  fd_write_str STDOUT_FD (text "- ") ;;~
  fd_write_str STDOUT_FD (default (text "<EOF>") left_line) ;;~
  fd_write_str STDOUT_FD (10 :: text "+ ") ;;~
  fd_write_str STDOUT_FD (default (text "<EOF>") right_line) ;;~
  fd_write_str STDOUT_FD [10].
Fixpoint diff_loop (fuel : nat) (left right : list Z) (lfd rfd line : Z) : prog Z :=
  match fuel with
  | O => Spin
  | S f =>
      let close_both (r : Z) := close_status lfd ;;~ close_status rfd ;;~ Done r in
      do! '(lr, lbuf, ltrunc) := diff_read_line fuel lfd [] false in
      do! '(rr, rbuf, rtrunc) := diff_read_line fuel rfd [] false in
      let lbuf := cstr lbuf in
      let rbuf := cstr rbuf in
      if lr <? 0 then complain (text "diff: read error ") left ;;~ close_both (-1)
      else if rr <? 0 then complain (text "diff: read error ") right ;;~ close_both (-1)
      else if (lr =? 0) && (rr =? 0) then close_both 0
      else if negb (lr =? rr) || negb (eqb ltrunc rtrunc) || negb (str_eq lbuf rbuf) then
        print_line_difference left right line (if lr =? 0 then None else Some lbuf)
          (if rr =? 0 then None else Some rbuf) ;;~
        close_both 1
      else diff_loop f left right lfd rfd (u64 (line + 1))
  end.
Definition diff_files (fuel : nat) (left right : list Z) : prog Z :=
  do! lfd := open_input (text "diff") left in
  if lfd <? 0 then Done (-1)
  else
    do! rfd := open_input (text "diff") right in
    if rfd <? 0 then close_status lfd ;;~ Done (-1)
    else diff_loop fuel left right lfd rfd 1.
Definition diff_main (fuel : nat) (argv : list (list Z)) : prog unit :=
  (if negb (length argv =? 3)%nat then
     fd_write_str STDERR_FD (text "usage: diff FILE1 FILE2" ++ [10]) ;;~ exit_with 1
   else Done tt) ;;~
  do! r := diff_files fuel (arg argv 1) (arg argv 2) in
  exit_with r.
