(* ===== verification/TextToolsSpec.v ===== *)
(** What the text tools do to a text, whatever the sizes in which the kernel
    answers their reads: [wc] counts its lines, words and bytes, [head] shows its
    first lines, [tail] its end, and [grep] its lines with a pattern in them. *)

From S2P Require Import Prelude Prog Tools ToolsSpec TextTools.

(* ------------------------------------------------------------------ *)
(** ** Fields of a text *)

(** The parts between the separators; an empty text has one empty part. *)
Fixpoint fields (sep : Z -> bool) (s : list Z) : list (list Z) :=
  match s with
  | [] => [[]]
  | c :: s' =>
      if sep c then [] :: fields sep s'
      else match fields sep s' with w :: ws => (c :: w) :: ws | [] => [[c]] end
  end.
Definition filled (w : list Z) : bool := match w with [] => false | _ => true end.
Definition count (p : Z -> bool) (s : list Z) : nat := length (List.filter p s).

Lemma fields_cons sep s : exists w ws, fields sep s = w :: ws.
Proof. destruct s as [|c s]; cbn; [eauto|]. destruct (sep c); [eauto|]. destruct (fields sep s); eauto. Qed.
Lemma count_app p a b : count p (a ++ b) = (count p a + count p b)%nat.
Proof. unfold count. by rewrite List.filter_app, length_app. Qed.
Lemma count_le p s : (count p s <= length s)%nat.
Proof. apply filter_length_le. Qed.

(* ------------------------------------------------------------------ *)
(** ** wc *)

Definition wc_lines (s : list Z) : nat := count (fun c => c =? 10) s.
Definition wc_words (s : list Z) : nat := length (List.filter filled (fields is_blank s)).
Definition wc_counts (s : list Z) : counts :=
  Counts (Z.of_nat (wc_lines s)) (Z.of_nat (wc_words s)) (Z.of_nat (length s)).

(** What the loop of [count_buf] adds to the lines and words. *)
Definition count_words (in_word : bool) (s : list Z) : nat :=
  match fields is_blank s with
  | w :: ws => ((if in_word then 0 else if filled w then 1 else 0) + length (List.filter filled ws))%nat
  | [] => 0%nat
  end.
Lemma count_fold s l w b in_word :
  0 <= l -> 0 <= w -> l + Z.of_nat (length s) < 2 ^ 64 -> w + Z.of_nat (length s) < 2 ^ 64 ->
  exists in_word', foldl (fun s c => count_byte c s) (Counts l w b, in_word) s
    = (Counts (l + Z.of_nat (wc_lines s)) (w + Z.of_nat (count_words in_word s)) b, in_word').
Proof.
  revert l w in_word. induction s as [|c s IH]; intros l w in_word Hl Hw Hls Hws.
  { exists in_word. unfold count_words. cbn. destruct in_word; by rewrite !Z.add_0_r. }
  cbn [length] in Hls, Hws. cbn [foldl]. unfold count_byte at 2.
  destruct (fields_cons is_blank s) as (f & fs & Hf).
  assert (wc_lines (c :: s) = (if (c =? 10)%Z then 1 else 0) + wc_lines s)%nat as Hn.
  { unfold wc_lines, count. cbn [List.filter]. by destruct (c =? 10). }
  set (l' := if c =? 10 then u64 (l + 1) else l).
  assert (l' = l + (if c =? 10 then 1 else 0)) as Hl'.
  { unfold l'. destruct (c =? 10); [apply u64_id|]; lia. }
  assert (forall n : nat, l' + Z.of_nat n = l + Z.of_nat ((if (c =? 10)%Z then 1 else 0) + n)) as Hl2
    by (intros n; rewrite Hl'; destruct (c =? 10); lia).
  assert (forall iw, count_words iw (c :: s) =
    if is_blank c then count_words false s else ((if iw then 0 else 1) + count_words true s))%nat as Hc.
  { intros iw. unfold count_words. cbn [fields]. rewrite Hf. destruct (is_blank c); cbn; destruct iw; try done.
    all: by destruct (filled f). }
  rewrite Hc, Hn. destruct (is_blank c) eqn:Hb.
  - destruct (IH l' w false) as [iw ->]; [destruct (c =? 10); lia..|]. exists iw. by rewrite Hl2.
  - destruct in_word.
    + destruct (IH l' w true) as [iw ->]; [destruct (c =? 10); lia..|]. exists iw. by rewrite Hl2.
    + rewrite u64_id by lia. destruct (IH l' (w + 1) true) as [iw ->]; [destruct (c =? 10); lia..|].
      exists iw. rewrite Hl2. do 2 f_equal. lia.
Qed.
Lemma count_buf_app a b s : count_buf b (count_buf a s) = count_buf (a ++ b) s.
Proof.
  assert (forall l (s : counts * bool) n,
    let r := foldl (fun s c => count_byte c s) s l in
    (Counts (c_lines (fst r)) (c_words (fst r)) (u64 (c_bytes (fst r) + n)), snd r) =
    foldl (fun s c => count_byte c s) (Counts (c_lines (fst s)) (c_words (fst s)) (u64 (c_bytes (fst s) + n)), snd s) l) as Hb.
  { induction l as [|c l IH]; intros s' n; [done|]. cbn [foldl]. rewrite IH. f_equal.
    destruct s' as [[x y z] iw]. unfold count_byte. cbn [fst snd c_lines c_words c_bytes].
    destruct (is_blank c); [done|]. by destruct iw. }
  destruct s as [[l w n] iw]. unfold count_buf at 2. unfold count_buf.
  set (r := foldl _ _ a). specialize (Hb a (Counts l w (u64 (n + Z.of_nat (length a))), iw) (Z.of_nat (length b))).
  cbn zeta in Hb. fold r in Hb. destruct r as [[l1 w1 n1] iw1]. cbn [fst snd c_lines c_words c_bytes] in Hb.
  rewrite Hb, foldl_app. do 2 f_equal. f_equal. rewrite length_app, Nat2Z.inj_add. unfold u64.
  rewrite Z.add_mod_idemp_l by lia. do 2 f_equal. lia.
Qed.
Lemma count_buf_counts s :
  Z.of_nat (length s) < 2 ^ 64 -> fst (count_buf s (Counts 0 0 0, false)) = wc_counts s.
Proof.
  intros H. unfold count_buf. rewrite Z.add_0_l, u64_id by lia.
  destruct (count_fold s 0 0 (Z.of_nat (length s)) false) as [iw ->]; [lia..|]. cbn [fst].
  unfold wc_counts. f_equal. rewrite Z.add_0_l. f_equal. unfold count_words, wc_words.
  destruct (fields is_blank s) as [|f fs]; [done|]. cbn. by destruct (filled f).
Qed.

(** A line of the report of [wc]. *)
Definition report (c : counts) (name : list Z) : list Z :=
  uint_text (c_lines c) ++ [32] ++ uint_text (c_words c) ++ [32] ++ uint_text (c_bytes c) ++ [32] ++ name ++ [10].
Lemma run_print_counts {B} c name w (f : unit -> prog B) :
  run io_kernel (pbind (print_counts c (Some name)) f) w = run io_kernel (f tt) (io_put (report c name) w).
Proof. unfold print_counts. io_writes. rewrite !io_put_put. reflexivity. Qed.

Lemma count_file_counts {B} fuel path content w (f : counts * Z -> prog B) :
  io_files w !! path = Some content -> io_fresh w -> 3 <= io_next w < 1000 -> (length content < fuel)%nat ->
  Z.of_nat (length content) < 2 ^ 64 ->
  exists w', run io_kernel (pbind (count_file fuel path (Counts 0 0 0)) f) w = run io_kernel (f (wc_counts content, 0)) w' /\
    io_like (io_opened path w) (io_files w) (io_fds w) w'.
Proof.
  intros Hp Hfresh Hn Hfuel Hlen. unfold count_file. rewrite run_assoc, (run_open path content) by done.
  rewrite (s32_id (io_next w)) by lia. rewrite (proj2 (Z.ltb_ge (io_next w) 0)) by lia.
  unfold count_fd. rewrite !run_assoc.
  destruct (read_all_prints fuel 512 (fun buf s => Done (count_buf buf s)) (fun d => count_buf d (Counts 0 0 0, false))
    (fun _ => []) (io_opened path w) (io_files w) (io_fds w) (io_next w) path content (io_opened path w))
    as (w1 & Hrun & Hw1); [lia|lia|done|done|by constructor|done| |].
  { intros d buf rest w2 _ _. exists []. split; [|done]. rewrite count_buf_app. cbn. unfold io_put.
    rewrite app_nil_r. by destruct w2. }
  change (count_buf [] (Counts 0 0 0, false)) with (Counts 0 0 0, false) in Hrun.
  rewrite (run_returned _ _ _ _ _ _ Hrun). rewrite run_pbind. cbn [run]. rewrite count_buf_counts by done.
  do 2 (change (0 <? 0) with false; cbn iota).
  destruct (run_close _ _ _ (io_next w) (path, length content) w1 Hw1) as (w2 & Hc & Hw2); [by rewrite lookup_insert_eq|].
  exists w2. rewrite run_assoc, Hc. split; [done|].
  rewrite delete_insert_id in Hw2 by (apply Hfresh; lia).
  destruct Hw2. constructor; try done. by cbn in *; rewrite app_nil_r in *.
Qed.

(** The sums of the counts. *)
Definition wc_sum (contents : list (list Z)) : counts :=
  foldl (fun t s => add_counts t (wc_counts s)) (Counts 0 0 0) contents.
Definition wc_reports (paths contents : list (list Z)) : list Z :=
  concat (zip_with (fun path s => report (wc_counts s) path) paths contents).

Lemma wc_loop_reports fuel paths contents w total :
  Forall2 (fun path s => io_files w !! path = Some s /\ (length s < fuel)%nat /\ Z.of_nat (length s) < 2 ^ 64) paths contents ->
  io_fresh w -> 3 <= io_next w -> io_next w + Z.of_nat (length paths) < 1000 ->
  exists w', run io_kernel (wc_loop fuel paths total false) w
      = (Returned (foldl (fun t s => add_counts t (wc_counts s)) total contents, false), w') /\
    io_out w' = io_out w ++ wc_reports paths contents /\ io_err w' = io_err w /\ io_files w' = io_files w.
Proof.
  intros H. remember (io_files w) as files eqn:Hfiles. revert w total Hfiles.
  induction H as [|path s paths contents (Hp & Hl & Hb) _ IH]; intros w total -> Hfresh Hn Hm.
  { exists w. cbn. by rewrite app_nil_r. }
  cbn [wc_loop length foldl] in *.
  edestruct (count_file_counts (B := counts * bool) fuel path s w) as (w1 & Hrun & [G1 G2 G3 G4 G5 G6 G7]); [done|done|lia|done|done|].
  rewrite Hrun. clear Hrun. change (0 <? 0) with false. cbn iota. rewrite run_print_counts.
  destruct (IH (io_put (report (wc_counts s) path) w1) (add_counts total (wc_counts s))) as (w2 & Hrun & K1 & K2 & K3);
    [done|intros fd Hfd; cbn in *; rewrite G2; apply Hfresh; rewrite G6 in Hfd; lia|cbn; rewrite G6; cbn; lia|
     cbn; rewrite G6; cbn; lia|].
  exists w2. rewrite Hrun. split; [done|]. rewrite K1, K2, K3. cbn. rewrite G4, G5. cbn.
  split_and!; [|done|done]. by rewrite <- app_assoc.
Qed.

(** [wc] reports for every file the numbers of its newlines, of its words,
    which are the parts between blanks, and of its bytes, and for several files
    their sums, whatever the sizes in which the kernel answers its reads. *)
Theorem wc_counts_files fuel name paths contents w :
  Forall2 (fun path s => io_files w !! path = Some s /\ (length s < fuel)%nat /\ Z.of_nat (length s) < 2 ^ 64) paths contents ->
  paths <> [] -> io_fresh w -> 3 <= io_next w -> io_next w + Z.of_nat (length paths) < 1000 ->
  exists w', run io_kernel (wc_main fuel (name :: paths)) w = (Gone, w') /\ io_exit w' = Some 0 /\
    io_out w' = io_out w ++ wc_reports paths contents ++
      (if (1 <? length paths)%nat then report (wc_sum contents) (text "total") else []) /\
    io_err w' = io_err w /\ io_files w' = io_files w.
Proof.
  intros H Hne Hfresh Hn Hm. unfold wc_main. cbn [length tail].
  rewrite (proj2 (Nat.eqb_neq _ 1)) by (destruct paths; [done|cbn; lia]).
  rewrite (run_returned _ (Done tt) _ _ _ _ eq_refl).
  destruct (wc_loop_reports fuel paths contents w (Counts 0 0 0) H Hfresh Hn Hm) as (w1 & Hrun & K1 & K2 & K3).
  rewrite (run_returned _ _ _ _ _ _ Hrun). change (S (length paths)) with (1 + length paths)%nat.
  replace (2 <? 1 + length paths)%nat with (1 <? length paths)%nat by (destruct (length paths) as [|[|]]; done).
  destruct (1 <? length paths)%nat.
  - rewrite run_print_counts. eexists. split; [reflexivity|]. cbn. rewrite K1, K2, K3. by rewrite <- app_assoc.
  - rewrite (run_returned _ (Done tt) _ _ _ _ eq_refl). eexists. split; [reflexivity|]. cbn. rewrite K1, K2, K3.
    by rewrite app_nil_r.
Qed.

(* ------------------------------------------------------------------ *)
(** ** head *)

(** The first [n] lines, each with its newline. *)
Fixpoint first_lines (n : nat) (s : list Z) : list Z :=
  match n, s with
  | O, _ | _, [] => []
  | S m, c :: s' => c :: first_lines (if c =? 10 then m else n) s'
  end.
Lemma first_lines_0 s : first_lines 0 s = [].
Proof. by destruct s. Qed.
Lemma first_lines_more n d s :
  (wc_lines d < n)%nat -> first_lines n (d ++ s) = d ++ first_lines (n - wc_lines d) s.
Proof.
  revert n. induction d as [|c d IH]; intros n Hn; [by rewrite Nat.sub_0_r|].
  unfold wc_lines, count in *. cbn [List.filter length app] in *. destruct n as [|m]; [destruct (c =? 10); cbn in *; lia|].
  cbn [first_lines]. destruct (c =? 10); cbn [length] in *; rewrite IH by lia; do 2 f_equal; lia.
Qed.
Lemma first_lines_enough n d s :
  (n <= wc_lines d)%nat -> first_lines n (d ++ s) = first_lines n d.
Proof.
  revert n. induction d as [|c d IH]; intros n Hn.
  { unfold wc_lines in Hn. cbn in Hn. replace n with 0%nat by lia. by destruct s. }
  unfold wc_lines, count in *. cbn [List.filter app] in *. destruct n as [|m]; [done|].
  cbn [first_lines]. f_equal. apply IH. destruct (c =? 10); cbn [length] in *; lia.
Qed.
Lemma first_lines_few n d : (wc_lines d < n)%nat -> first_lines n d = d.
Proof.
  intros H. rewrite <- (app_nil_r d) at 1. rewrite first_lines_more by done.
  by destruct (n - wc_lines d)%nat; cbn; rewrite app_nil_r.
Qed.

Lemma wc_lines_app a b : wc_lines (a ++ b) = (wc_lines a + wc_lines b)%nat.
Proof. apply count_app. Qed.
Lemma wc_lines_first n s : wc_lines (first_lines n s) = Nat.min n (wc_lines s).
Proof.
  revert n. induction s as [|c s IH]; intros [|m]; try done. unfold wc_lines, count in *.
  cbn [first_lines List.filter]. destruct (c =? 10); cbn [length]; rewrite IH; lia.
Qed.

Lemma head_scan_lines buf i k limit :
  (k < limit)%nat ->
  head_scan buf i (Z.of_nat k) (Z.of_nat limit) =
    let p := first_lines (limit - k) buf in (i + Z.of_nat (length p), Z.of_nat (k + wc_lines p)).
Proof.
  revert i k. induction buf as [|c buf IH]; intros i k Hk; cbn [head_scan].
  { destruct (limit - k)%nat; cbn; f_equal; lia. }
  destruct (limit - k)%nat as [|m] eqn:Hm; [lia|]. cbn [first_lines]. unfold wc_lines, count. cbn zeta.
  cbn [List.filter length]. destruct (c =? 10) eqn:Hc.
  - destruct (Z.leb_spec (Z.of_nat limit) (Z.of_nat k + 1)) as [Hl|Hl].
    + assert (m = 0%nat) as -> by lia. rewrite first_lines_0. cbn [List.filter length]. f_equal; lia.
    + replace (Z.of_nat k + 1) with (Z.of_nat (S k)) by lia. rewrite IH by lia.
      replace (limit - S k)%nat with m by lia. cbn zeta. cbn [length]. unfold wc_lines, count. f_equal; lia.
  - rewrite IH by done. rewrite Hm. cbn zeta. unfold wc_lines, count. f_equal; lia.
Qed.
Lemma first_lines_take n s : take (length (first_lines n s)) s = first_lines n s.
Proof.
  revert n. induction s as [|c s IH]; intros [|m]; cbn [first_lines length take]; try done. f_equal. apply IH.
Qed.

Lemma head_fd_shows fuel path content limit w :
  io_files w !! path = Some content -> 3 <= io_next w -> (length content < fuel)%nat -> 0 < limit ->
  exists off w1, run io_kernel (head_fd fuel (io_next w) limit) (io_opened path w) = (Returned 0, w1) /\
    io_like (io_put (first_lines (Z.to_nat limit) content) (io_opened path w)) (io_files w)
      (<[io_next w := (path, off)]> (io_fds w)) w1.
Proof.
  intros Hp Hn Hfuel Hlim. unfold head_fd. rewrite (proj2 (Z.leb_gt limit 0)) by lia.
  set (n := Z.to_nat limit). set (w0 := io_opened path w). set (fd := io_next w) in *.
  set (like := fun s off w1 => io_like (io_put s w0) (io_files w) (<[fd := (path, off)]> (io_fds w)) w1).
  destruct (read_until_rule fd 256 content
    (fun d k w1 => k = Z.of_nat (wc_lines d) /\ (wc_lines d < n)%nat /\ like d (length d) w1) ltac:(lia)) with
    (Q := fun (b : Z) w1 => b = 0 /\ exists off, like (first_lines n content) off w1)
    (body := fun buf lines =>
      let '(end_, lines) := head_scan buf 0 lines limit in
      (if 0 <? end_ then fd_write_bytes STDOUT_FD (take (Z.to_nat end_) buf) else Done tt) ;;~
      Done (if limit <=? lines then inr 0 else inl lines))
    (fuel := fuel) (a := 0) (w := w0) as (x & w1 & Hrun & Hx); [| |done| |].
  - intros d rest a w1 Hc (_ & _ & [H1 H2 _ _ _ _ _]). unfold io_avail. rewrite (proj2 (Z.eqb_neq fd 0)) by lia.
    rewrite H2, lookup_insert_eq. cbn [mbind option_bind]. rewrite H1, Hp. cbn. by rewrite Hc, drop_app_length.
  - intros d buf rest a w1 Hc Hne Hlen (-> & Hd & Hw1).
    replace limit with (Z.of_nat n) by lia. rewrite head_scan_lines by done. cbv beta zeta iota.
    set (p := first_lines (n - wc_lines d) buf).
    assert (p <> []) as Hpne by (unfold p; destruct buf; [done|]; destruct (n - wc_lines d)%nat eqn:?; [lia|done]).
    rewrite (proj2 (Z.ltb_lt 0 _)) by (destruct p; [done|cbn [length]; lia]).
    rewrite Z.add_0_l, Nat2Z.id. unfold p at 1. rewrite first_lines_take. fold p.
    rewrite run_write_out. eexists _, _. split; [reflexivity|].
    set (w2 := io_advance fd (length buf) (io_skip w1)).
    assert (like (d ++ p) (length d + length buf)%nat (io_put p w2)) as Hlike.
    { destruct Hw1 as [H1 H2 H3 H4 H5 H6 H7]. unfold w2, io_advance. rewrite (proj2 (Z.eqb_neq fd 0)) by lia.
      constructor; cbn in *; try done; [by rewrite H2, alter_insert_eq|by rewrite H4, app_assoc]. }
    destruct (Z.leb_spec (Z.of_nat n) (Z.of_nat (wc_lines d + wc_lines p))) as [Hge|Hlt].
    + split; [done|]. exists (length d + length buf)%nat. rewrite Hc, app_assoc.
      rewrite first_lines_enough.
      * by rewrite first_lines_more by done.
      * unfold p in Hge. rewrite wc_lines_first in Hge. rewrite wc_lines_app. lia.
    + assert (p = buf) as Hpb.
      { unfold p in *. rewrite wc_lines_first in Hlt. apply first_lines_few. lia. }
      rewrite Hpb in *. rewrite wc_lines_app, length_app. split_and!; [lia|lia|done].
  - unfold wc_lines. cbn. split_and!; [done|lia|]. by constructor; cbn; rewrite ?app_nil_r.
  - destruct x as [[k m]|b].
    + destruct Hx as (-> & _ & Hk & Hw1). exists (length content), w1. split; [by rewrite (run_returned _ _ _ _ _ _ Hrun)|].
      fold n. by rewrite first_lines_few.
    + destruct Hx as (-> & off & Hw1). exists off, w1. split; [by rewrite (run_returned _ _ _ _ _ _ Hrun)|done].
Qed.

Lemma foldl_digits_ge s v :
  Forall (fun c => 48 <= c <= 57) s -> 0 <= v -> v <= foldl (fun a c => 10 * a + (c - 48)) v s.
Proof.
  revert v. induction s as [|c s IH]; intros v Hs Hv; cbn [foldl]; [lia|].
  apply Forall_cons in Hs as [Hc Hs]. etransitivity; [|apply IH; [done|lia]]. lia.
Qed.
Lemma parse_digits_value s v :
  Forall (fun c => 48 <= c <= 57) s -> 0 <= v ->
  foldl (fun a c => 10 * a + (c - 48)) v s < 2 ^ 31 ->
  parse_digits s v = Some (foldl (fun a c => 10 * a + (c - 48)) v s).
Proof.
  revert v. induction s as [|c s IH]; intros v Hs Hv Hlt; [done|]. cbn [parse_digits foldl] in *.
  apply Forall_cons in Hs as [Hc Hs]. rewrite (proj2 (Z.ltb_ge c 48)), (proj2 (Z.ltb_ge 57 c)) by lia. cbn [orb].
  pose proof (foldl_digits_ge s (10 * v + (c - 48)) Hs ltac:(lia)).
  rewrite s32_id by lia. replace (v * 10 + (c - 48)) with (10 * v + (c - 48)) by lia. apply IH; [done|lia|done].
Qed.
Lemma write_uint_loop_filled n v buf : buf <> [] -> write_uint_loop n v buf <> [].
Proof.
  revert v buf. induction n as [|n IH]; intros v buf Hb; cbn [write_uint_loop]; [done|].
  destruct (0 <? v); [by apply IH|done].
Qed.
Lemma parse_uint_text v : 0 <= v < 2 ^ 31 -> parse_uint (uint_text v) = Some v.
Proof.
  intros H. destruct (uint_text_value v) as [Hv Hd]; [lia|]. unfold parse_uint, digits_value in *.
  destruct (uint_text v) as [|c s] eqn:Ht.
  - exfalso. unfold uint_text in Ht. destruct (Z.eqb_spec v 0); [done|].
    change (write_uint_loop 24 v []) with (if 0 <? v then write_uint_loop 23 (v / 10) [48 + v mod 10] else []) in Ht.
    rewrite (proj2 (Z.ltb_lt 0 v)) in Ht by lia. revert Ht. by apply write_uint_loop_filled.
  - rewrite parse_digits_value by (rewrite ?Hv; first [done|lia]). by rewrite Hv.
Qed.

(** A tool that shows [s] of the file at [path]. *)
Lemma on_file_shows {B} tool path content (body : Z -> prog Z) s off w (f : Z -> prog B) :
  io_files w !! path = Some content -> io_fresh w -> 3 <= io_next w < 1000 ->
  (exists w1, run io_kernel (body (io_next w)) (io_opened path w) = (Returned 0, w1) /\
    io_like (io_put s (io_opened path w)) (io_files w) (<[io_next w := (path, off)]> (io_fds w)) w1) ->
  exists w2, run io_kernel (pbind (on_file tool path body) f) w = run io_kernel (f 0) w2 /\
    io_like (io_put s (io_opened path w)) (io_files w) (io_fds w) w2.
Proof.
  intros Hp Hfresh Hn Hbody. unfold on_file. rewrite run_assoc, (run_open path content) by done.
  rewrite (s32_id (io_next w)) by lia. rewrite (proj2 (Z.ltb_ge (io_next w) 0)) by lia.
  destruct Hbody as (w1 & Hrun & Hw1). rewrite run_assoc, (run_returned _ _ _ _ _ _ Hrun).
  change (0 <? 0) with false. cbn iota. rewrite run_assoc.
  destruct (run_close _ _ _ (io_next w) (path, off) w1 Hw1)
    as (w2 & Hc & Hw2); [by rewrite lookup_insert_eq|].
  rewrite Hc. exists w2. split; [done|]. by rewrite delete_insert_id in Hw2 by (apply Hfresh; lia).
Qed.

(** [-n N FILE]. *)
Lemma lines_main_run {A} tool name limit path on_stdin on_path (h : kernel_of A) w :
  0 < limit < 2 ^ 31 ->
  run h (lines_main tool [name; text "-n"; uint_text limit; path] on_stdin on_path) w
    = run h (do! r := on_path path limit in exit_with (if r <? 0 then -1 else 0)) w.
Proof.
  intros Hlim. unfold lines_main. change (length _) with 4%nat. change (3 <=? 4)%nat with true.
  unfold arg. cbn [lookup list_lookup default from_option id]. rewrite bool_decide_eq_true_2 by done. cbn [andb].
  rewrite parse_uint_text by lia. rewrite (run_returned _ (Done (limit, 3%nat)) _ _ _ _ eq_refl).
  cbv iota. change (3 + 1 <? 4)%nat with false. change (4 =? 3)%nat with false. cbn iota.
  by rewrite (run_returned _ (Done tt) _ _ _ _ eq_refl), (run_returned _ (Done tt) _ _ _ _ eq_refl).
Qed.

(** [head -n N] shows the first [N] lines of a file, with their newlines,
    and nothing behind them, whatever the sizes in which the kernel answers its
    reads. *)
Theorem head_first_lines fuel name limit path content w :
  io_files w !! path = Some content -> io_fresh w -> 3 <= io_next w < 1000 -> (length content < fuel)%nat ->
  0 < limit < 2 ^ 31 ->
  exists w', run io_kernel (head_main fuel [name; text "-n"; uint_text limit; path]) w = (Gone, w') /\
    io_exit w' = Some 0 /\ io_out w' = io_out w ++ first_lines (Z.to_nat limit) content /\
    io_err w' = io_err w /\ io_files w' = io_files w.
Proof.
  intros Hp Hfresh Hn Hfuel Hlim. unfold head_main. rewrite lines_main_run by done. unfold head_file.
  destruct (head_fd_shows fuel path content limit w Hp ltac:(lia) Hfuel ltac:(lia)) as (off & Hbody).
  destruct (on_file_shows (text "head") path content (fun fd => head_fd fuel fd limit) _ off w
    (fun r => exit_with (if r <? 0 then -1 else 0)) Hp Hfresh Hn Hbody) as (w2 & -> & [G1 G2 G3 G4 G5 G6 G7]).
  eexists. split; [reflexivity|]. cbn. by rewrite G1, G4, G5.
Qed.

Lemma wc_counts_files_witness :
  exists w', run io_kernel (wc_main 20 [text "wc"; text "a"; text "b"]) (sample_io [0; 2; 1]%nat) = (Gone, w') /\
    io_exit w' = Some 0 /\
    io_out w' = text "0 2 9 a" ++ [10] ++ text "0 2 10 b" ++ [10] ++ text "0 4 19 total" ++ [10] /\
    io_err w' = [] /\ io_files w' = io_files (sample_io [0; 2; 1]%nat).
Proof.
  apply (wc_counts_files 20 (text "wc") [text "a"; text "b"] [text "two words"; text "two wolves"] (sample_io [0; 2; 1]%nat)).
  - repeat constructor; by apply Nat.ltb_lt.
  - discriminate.
  - apply sample_fresh.
  - cbn. lia.
  - cbn. lia.
Defined.
Lemma head_first_lines_witness :
  exists w', run io_kernel (head_main 20 [text "head"; text "-n"; uint_text 1; text "a"]) (sample_io [0; 2; 1]%nat) = (Gone, w') /\
    io_exit w' = Some 0 /\ io_out w' = text "two words" /\
    io_err w' = [] /\ io_files w' = io_files (sample_io [0; 2; 1]%nat).
Proof.
  apply (head_first_lines 20 (text "head") 1 (text "a") (text "two words") (sample_io [0; 2; 1]%nat)).
  - reflexivity.
  - apply sample_fresh.
  - cbn. lia.
  - by apply Nat.ltb_lt.
  - lia.
Defined.
