(* ===== verification/TailSpec.v ===== *)
(** [tail] keeps the end of a text in a ring: the ring holds the longest end of
    the text that has at most the wanted number of newlines and fits in it. *)

From S2P Require Import Prelude Prog Tools ToolsSpec TextTools TextToolsSpec.

(* ------------------------------------------------------------------ *)
(** ** The ring *)

(** The bytes in the ring, the oldest one first. *)
Definition ring_text (t : tailbuf) : list Z := take (t_len t) (drop (t_start t) (t_data t) ++ take (t_start t) (t_data t)).
Record ring_ok (t : tailbuf) : Prop := RingOk {
  ring_size : length (t_data t) = TAIL_CAP;
  ring_start : (t_start t < TAIL_CAP)%nat;
  ring_len : (t_len t <= TAIL_CAP)%nat;
  ring_lines : t_lines t = Z.of_nat (wc_lines (ring_text t));
}.
Lemma TAIL_CAP_pos : (1 < TAIL_CAP)%nat.
Proof. apply Nat.ltb_lt. by vm_compute. Qed.
#[local] Opaque TAIL_CAP.

Lemma length_ring_text t : ring_ok t -> length (ring_text t) = t_len t.
Proof. intros [H1 H2 H3 _]. unfold ring_text. rewrite length_take, length_app, length_drop, length_take. lia. Qed.

Lemma mod_wrap x c : (c <= x < 2 * c)%nat -> (x mod c = x - c)%nat.
Proof. intros H. symmetry. apply (Nat.mod_unique x c 1); lia. Qed.
(** The byte at a place of the text. *)
Lemma ring_text_lookup t i :
  length (t_data t) = TAIL_CAP -> (t_start t < TAIL_CAP)%nat -> (t_len t <= TAIL_CAP)%nat -> (i < t_len t)%nat ->
  ring_text t !! i = t_data t !! ((t_start t + i) mod TAIL_CAP)%nat.
Proof.
  intros H1 H2 H3 Hi. unfold ring_text. rewrite lookup_take_lt by done.
  destruct (Nat.lt_ge_cases (t_start t + i) TAIL_CAP) as [H|H].
  - rewrite Nat.mod_small by done. rewrite lookup_app_l by (rewrite length_drop; lia). by rewrite lookup_drop.
  - rewrite lookup_app_r by (rewrite length_drop; lia). rewrite length_drop, lookup_take_lt by lia.
    rewrite mod_wrap by lia. f_equal. lia.
Qed.
Lemma tail_get_text t i : ring_ok t -> (i < t_len t)%nat -> ring_text t !! i = Some (tail_get t i).
Proof.
  intros [H1 H2 H3 _] Hi. rewrite ring_text_lookup by done. unfold tail_get.
  destruct (lookup_lt_is_Some_2 (t_data t) ((t_start t + i) mod TAIL_CAP)) as [x Hx].
  { rewrite H1. apply Nat.mod_upper_bound. pose proof TAIL_CAP_pos. lia. }
  by rewrite Hx.
Qed.

(** The ring without its oldest byte. *)
Lemma tail_drop_one_text t c s :
  ring_ok t -> ring_text t = c :: s -> ring_ok (tail_drop_one t) /\ ring_text (tail_drop_one t) = s.
Proof.
  intros Ht Hc. pose proof (length_ring_text t Ht) as Hl. rewrite Hc in Hl. cbn [length] in Hl.
  pose proof (tail_get_text t 0 Ht ltac:(lia)) as Hg. rewrite Hc in Hg. cbn in Hg. injection Hg as Hg.
  pose proof Ht as [H1 H2 H3 H4]. pose proof TAIL_CAP_pos as Hcap.
  unfold tail_drop_one. rewrite (proj2 (Nat.leb_gt _ 0)) by lia.
  assert (default 0 (t_data t !! t_start t) = c) as Hd.
  { rewrite Hg. unfold tail_get. by rewrite Nat.add_0_r, Nat.mod_small. }
  rewrite Hd. set (t' := Tailbuf _ _ _ _).
  assert (t_start t' < TAIL_CAP)%nat as Hs' by (apply Nat.mod_upper_bound; lia).
  assert (ring_text t' = s) as Htxt.
  { assert (length (ring_text t') = length s) as Hls.
    { unfold ring_text. rewrite length_take, length_app, length_drop, length_take. cbn [t' t_data t_len] in *. lia. }
    apply list_eq. intros i. destruct (Nat.lt_ge_cases i (length s)) as [Hi|Hi].
    - rewrite ring_text_lookup by (cbn [t' t_data t_len]; first [done|lia]). cbn [t' t_start t_data].
      rewrite Nat.Div0.add_mod_idemp_l. replace (t_start t + 1 + i)%nat with (t_start t + S i)%nat by lia.
      rewrite <- ring_text_lookup by lia. by rewrite Hc.
    - rewrite !lookup_ge_None_2 by lia. done. }
  split; [|done]. constructor; [done|done|cbn; lia|]. rewrite Htxt. cbn [t' t_lines]. rewrite H4, Hc.
  unfold wc_lines, count. cbn [List.filter]. destruct (c =? 10); cbn [length]; lia.
Qed.
(** The ring with a byte behind its newest one. *)
Lemma ring_add_text t c :
  ring_ok t -> (t_len t < TAIL_CAP)%nat ->
  let t' := Tailbuf (<[((t_start t + t_len t) mod TAIL_CAP)%nat := c]> (t_data t)) (t_start t) (t_len t + 1)
              (if c =? 10 then t_lines t + 1 else t_lines t) in
  ring_ok t' /\ ring_text t' = ring_text t ++ [c].
Proof.
  intros Ht Hlen t'. pose proof Ht as [H1 H2 H3 H4]. pose proof (length_ring_text t Ht) as Hl.
  assert (length (t_data t') = TAIL_CAP) as H1' by (cbn; by rewrite length_insert).
  assert (ring_text t' = ring_text t ++ [c]) as Htxt.
  { assert (length (ring_text t') = S (t_len t)) as Hls.
    { unfold ring_text. rewrite length_take, length_app, length_drop, length_take, H1'. cbn. lia. }
    apply list_eq. intros i. destruct (Nat.lt_ge_cases i (S (t_len t))) as [Hi|Hi].
    2: { rewrite !lookup_ge_None_2; [done|rewrite length_app; cbn; lia|lia]. }
    rewrite ring_text_lookup by (first [done|cbn [t' t_len t_start]; lia]). cbn [t' t_start t_data].
    destruct (decide (i = t_len t)) as [->|Hne].
    - rewrite list_lookup_insert_eq by (rewrite H1; apply Nat.mod_upper_bound; lia).
      rewrite lookup_app_r by lia. by rewrite Hl, Nat.sub_diag.
    - rewrite lookup_app_l, ring_text_lookup by (first [done|lia]). apply list_lookup_insert_ne.
      intros He. apply Hne.
      destruct (Nat.lt_ge_cases (t_start t + i) TAIL_CAP) as [Ha|Ha], (Nat.lt_ge_cases (t_start t + t_len t) TAIL_CAP) as [Hb|Hb].
      + rewrite !Nat.mod_small in He by done. lia.
      + rewrite (Nat.mod_small (t_start t + i)), (mod_wrap (t_start t + t_len t)) in He by lia. lia.
      + lia.
      + rewrite (mod_wrap (t_start t + t_len t)), (mod_wrap (t_start t + i)) in He by lia. lia. }
  split; [|done]. constructor; [done|done|cbn; lia|]. rewrite Htxt, wc_lines_app. cbn [t' t_lines]. rewrite H4.
  unfold wc_lines, count. cbn [List.filter]. destruct (c =? 10); cbn [length]; lia.
Qed.

(* ------------------------------------------------------------------ *)
(** ** The end of a text *)

(** The longest end of [s] with the property [p]. *)
Fixpoint longest_end (p : list Z -> bool) (s : list Z) : list Z :=
  if p s then s else match s with [] => [] | _ :: s' => longest_end p s' end.
(** At most [limit] newlines and no more bytes than the ring has room for. *)
Definition fits (limit : nat) (s : list Z) : bool := (wc_lines s <=? limit)%nat && (length s <=? TAIL_CAP)%nat.

Lemma longest_end_snoc p s c :
  (forall s', p (s' ++ [c]) = true -> p s' = true) ->
  longest_end p (longest_end p s ++ [c]) = longest_end p (s ++ [c]).
Proof.
  intros Hp. induction s as [|x s IH]; [cbn [longest_end]; by destruct (p [])|].
  cbn [longest_end app]. destruct (p (x :: s)) eqn:Hx; [done|].
  destruct (p (x :: s ++ [c])) eqn:Hxc; [|done]. change (x :: s ++ [c]) with ((x :: s) ++ [c]) in Hxc.
  apply Hp in Hxc. congruence.
Qed.
Lemma fits_snoc limit s c : fits limit (s ++ [c]) = true -> fits limit s = true.
Proof.
  unfold fits. rewrite wc_lines_app, length_app. intros [H1%Nat.leb_le H2%Nat.leb_le]%andb_true_iff.
  apply andb_true_iff. split; apply Nat.leb_le; cbn in *; lia.
Qed.

Lemma tail_trim_text n limit t :
  ring_ok t -> (t_len t <= n)%nat ->
  ring_ok (tail_trim n (Z.of_nat limit) t) /\
  ring_text (tail_trim n (Z.of_nat limit) t) = longest_end (fits limit) (ring_text t).
Proof.
  revert t. induction n as [|n IH]; intros t Ht Hn; pose proof (length_ring_text t Ht) as Hl; cbn [tail_trim].
  { split; [done|]. destruct (ring_text t) as [|c s]; [cbn; by destruct (fits limit [])|cbn in Hl; lia]. }
  pose proof (ring_lines _ Ht) as Hlines. pose proof (ring_len _ Ht) as Hcap.
  rewrite (proj2 (Z.leb_le 0 _)) by lia. cbn [andb].
  destruct (Z.ltb_spec (Z.of_nat limit) (t_lines t)) as [Hlt|Hge]; cbn [andb].
  - destruct (ring_text t) as [|c s] eqn:Hc; [unfold wc_lines in Hlines; cbn in Hlines; lia|].
    cbn [length] in Hl. rewrite (proj2 (Nat.ltb_lt 0 _)) by lia.
    destruct (tail_drop_one_text t c s Ht Hc) as [Hok Htxt].
    destruct (IH (tail_drop_one t) Hok) as [H1 H2].
    { rewrite <- (length_ring_text _ Hok), Htxt. lia. }
    split; [done|]. rewrite H2, Htxt. cbn [longest_end]. unfold fits at 2.
    rewrite (proj2 (Nat.leb_gt _ limit)) by lia. done.
  - split; [done|]. assert (fits limit (ring_text t) = true) as Hf.
    { unfold fits. apply andb_true_iff. split; apply Nat.leb_le; lia. }
    destruct (ring_text t); cbn [longest_end]; by rewrite Hf.
Qed.

(** A byte more: the ring holds the longest end of the text with the byte. *)
Lemma tail_push_text t c limit :
  ring_ok t ->
  ring_ok (tail_push c (Z.of_nat limit) t) /\
  ring_text (tail_push c (Z.of_nat limit) t) = longest_end (fits limit) (ring_text t ++ [c]).
Proof.
  intros Ht. unfold tail_push. pose proof TAIL_CAP_pos as Hcap. pose proof (length_ring_text t Ht) as Hl.
  destruct (Nat.eqb_spec (t_len t) TAIL_CAP) as [Hfull|Hroom].
  - destruct (ring_text t) as [|x s] eqn:Hx; [cbn in Hl; lia|].
    destruct (tail_drop_one_text t x s Ht Hx) as [Hok Htxt]. cbn [length] in Hl.
    pose proof (length_ring_text _ Hok) as Hl'. rewrite Htxt in Hl'.
    destruct (ring_add_text _ c Hok ltac:(lia)) as [Hok2 Htxt2].
    destruct (tail_trim_text (t_len (tail_drop_one t) + 1) limit _ Hok2 ltac:(cbn; lia)) as [H1 H2].
    split; [exact H1|]. etransitivity; [exact H2|]. rewrite Htxt2, Htxt. cbn [longest_end app].
    unfold fits at 2. cbn [length]. rewrite length_app. cbn [length].
    rewrite (proj2 (Nat.leb_gt (S (length s + 1)) TAIL_CAP)) by lia. by rewrite andb_false_r.
  - destruct (ring_add_text t c Ht ltac:(pose proof (ring_len _ Ht); lia)) as [Hok2 Htxt2].
    destruct (tail_trim_text (t_len t + 1) limit _ Hok2 ltac:(cbn; lia)) as [H1 H2].
    split; [exact H1|]. etransitivity; [exact H2|]. by rewrite Htxt2.
Qed.
Lemma tail_fold_text limit data s :
  length data = TAIL_CAP ->
  let t := foldl (fun t c => tail_push c (Z.of_nat limit) t) (Tailbuf data 0 0 0) s in
  ring_ok t /\ ring_text t = longest_end (fits limit) s.
Proof.
  intros Hd. cbn zeta. induction s as [|c s IH] using rev_ind.
  { cbn [foldl]. split; [|cbn; by destruct (fits limit [])].
    constructor; cbn; [done|pose proof TAIL_CAP_pos; lia|lia|done]. }
  rewrite foldl_app. cbn [foldl]. destruct IH as [Hok Htxt]. destruct (tail_push_text _ c limit Hok) as [H1 H2].
  split; [done|]. rewrite H2, Htxt. apply longest_end_snoc. intros s'. apply fits_snoc.
Qed.

(** What [tail] shows. *)
Definition tail_shown (limit : nat) (s : list Z) : list Z :=
  let e := longest_end (fits limit) s in if hd 0 e =? 10 then tail e else e.

Lemma run_tail_write {B} t w (f : unit -> prog B) :
  ring_ok t -> run io_kernel (pbind (tail_write t) f) w = run io_kernel (f tt) (io_put (ring_text t) w).
Proof.
  intros Ht. pose proof (length_ring_text t Ht) as Hl. destruct Ht as [H1 H2 H3 _]. unfold tail_write.
  destruct (Nat.leb_spec (t_len t) 0) as [H0|H0].
  { rewrite (run_returned _ (Done tt) _ _ _ _ eq_refl). destruct (ring_text t); [|cbn in Hl; lia].
    unfold io_put. rewrite app_nil_r. by destruct w. }
  set (first := Nat.min (TAIL_CAP - t_start t) (t_len t)). io_writes.
  assert (ring_text t = slice (t_data t) (t_start t) first ++ take (t_len t - first) (t_data t)) as ->.
  { unfold ring_text, slice, first. rewrite take_app, length_drop, H1. f_equal.
    - destruct (Nat.le_gt_cases (TAIL_CAP - t_start t) (t_len t)).
      + rewrite !take_ge by (rewrite length_drop; lia). done.
      + by replace (Nat.min (TAIL_CAP - t_start t) (t_len t)) with (t_len t) by lia.
    - rewrite take_take. f_equal. lia. }
  destruct (Nat.ltb_spec first (t_len t)) as [Hlt|Hge].
  - io_writes. by rewrite io_put_put.
  - rewrite (run_returned _ (Done tt) _ _ _ _ eq_refl). replace (t_len t - first)%nat with 0%nat by lia.
    by rewrite take_0, app_nil_r.
Qed.

Lemma tail_fd_shows fuel data path content limit w :
  io_files w !! path = Some content -> 3 <= io_next w -> (length content < fuel)%nat -> 0 < limit ->
  length data = TAIL_CAP ->
  exists w1, run io_kernel (tail_fd fuel data (io_next w) limit) (io_opened path w) = (Returned 0, w1) /\
    io_like (io_put (tail_shown (Z.to_nat limit) content) (io_opened path w)) (io_files w)
      (<[io_next w := (path, length content)]> (io_fds w)) w1.
Proof.
  intros Hp Hn Hfuel Hlim Hd. unfold tail_fd. rewrite (proj2 (Z.leb_gt limit 0)) by lia.
  assert (exists n, limit = Z.of_nat n) as [n ->] by (exists (Z.to_nat limit); lia). rewrite Nat2Z.id.
  set (st := fun d => foldl (fun t c => tail_push c (Z.of_nat n) t) (Tailbuf data 0 0 0) d).
  destruct (read_all_prints fuel 256 (fun buf t => Done (foldl (fun t c => tail_push c (Z.of_nat n) t) t buf)) st
    (fun _ => []) (io_opened path w) (io_files w) (io_fds w) (io_next w) path content (io_opened path w))
    as (w1 & Hrun & Hw1); [lia|lia|done|done|by constructor|done| |].
  { intros d buf rest w2 _ _. exists []. split; [|done]. unfold st. rewrite foldl_app. unfold io_put.
    rewrite app_nil_r. by destruct w2. }
  change (st []) with (Tailbuf data 0 0 0) in Hrun. rewrite (run_returned _ _ _ _ _ _ Hrun).
  change (0 <? 0) with false. cbv iota. destruct (tail_fold_text n data content Hd) as [Hok Htxt]. fold (st content) in Hok, Htxt.
  set (t := if _ : bool then tail_drop_one (st content) else st content).
  assert (ring_ok t /\ ring_text t = tail_shown n content) as [Hok' Htxt'].
  { unfold t, tail_shown. rewrite <- Htxt. pose proof (length_ring_text _ Hok) as Hl.
    destruct (Nat.ltb_spec 0 (t_len (st content))) as [H0|H0]; cbn [andb].
    - pose proof (tail_get_text _ 0 Hok ltac:(lia)) as Hg.
      destruct (ring_text (st content)) as [|c s] eqn:Hc; [done|]. cbn in Hg. injection Hg as <-. cbn [hd tail].
      destruct (c =? 10); [|done]. by apply (tail_drop_one_text (st content) c s).
    - destruct (ring_text (st content)); [done|cbn in Hl; lia]. }
  rewrite run_tail_write by done. rewrite Htxt'. eexists. split; [reflexivity|].
  destruct Hw1. constructor; cbn in *; try done. by rewrite like_out, app_nil_r.
Qed.

(** C27: [tail -n N] shows the longest end of a file that has at most [N]
    newlines and at most [TAIL_CAP] bytes, less a newline at its front, whatever
    the sizes in which the kernel answers its reads. *)
Theorem tail_shows_end fuel data name limit path content w :
  io_files w !! path = Some content -> io_fresh w -> 3 <= io_next w < 1000 -> (length content < fuel)%nat ->
  0 < limit < 2 ^ 31 -> length data = TAIL_CAP ->
  exists w', run io_kernel (tail_main fuel data [name; text "-n"; uint_text limit; path]) w = (Gone, w') /\
    io_exit w' = Some 0 /\ io_out w' = io_out w ++ tail_shown (Z.to_nat limit) content /\
    io_err w' = io_err w /\ io_files w' = io_files w.
Proof.
  intros Hp Hfresh Hn Hfuel Hlim Hd. unfold tail_main.
  rewrite lines_main_run by done. unfold tail_file.
  destruct (on_file_shows (text "tail") path content (fun fd => tail_fd fuel data fd limit)
    (tail_shown (Z.to_nat limit) content) (length content) w
    (fun r => exit_with (if r <? 0 then -1 else 0)) Hp Hfresh Hn) as (w2 & -> & [G1 G2 G3 G4 G5 G6 G7]).
  { apply tail_fd_shows; first [done|lia]. }
  eexists. split; [reflexivity|]. cbn. by rewrite G1, G4, G5.
Qed.

(** For a text of complete lines these are its last lines, when the first of
    them is not empty. *)
Lemma tail_shown_lines limit pre body :
  wc_lines body = limit -> (length body <= TAIL_CAP)%nat -> hd 0 body <> 10 ->
  tail_shown limit (pre ++ 10 :: body) = body.
Proof.
  intros Hl Hlen Hhd. unfold tail_shown. rewrite (cons_middle 10), app_assoc.
  assert (fits limit body = true) as Hb by (unfold fits; apply andb_true_iff; split; apply Nat.leb_le; lia).
  assert (longest_end (fits limit) ((pre ++ [10]) ++ body) = body) as ->.
  { rewrite <- app_assoc. induction pre as [|x pre IH]; cbn [app].
    - cbn [longest_end]. unfold fits at 1. change (wc_lines (10 :: body)) with (S (wc_lines body)).
      rewrite (proj2 (Nat.leb_gt _ limit)) by lia. cbn [andb]. destruct body; cbn [longest_end]; by rewrite Hb.
    - cbn [longest_end]. unfold fits at 1. rewrite (proj2 (Nat.leb_gt _ limit)); [done|].
      change (x :: pre ++ 10 :: body) with ((x :: pre) ++ [10] ++ body). rewrite !wc_lines_app, Hl.
      change (wc_lines [10]) with 1%nat. lia. }
  by rewrite (proj2 (Z.eqb_neq _ 10)).
Qed.
(** A last line without a newline is shown besides them, and an empty line at
    the front is not shown. *)
Lemma tail_shown_unfinished : tail_shown 1 (text "a" ++ [10] ++ text "b") = text "a" ++ [10] ++ text "b".
Proof. by vm_compute. Qed.
Lemma tail_shown_empty_line : tail_shown 2 (text "a" ++ [10; 10] ++ text "b" ++ [10]) = text "b" ++ [10].
Proof. by vm_compute. Qed.

Lemma tail_shows_end_witness :
  exists w', run io_kernel (tail_main 20 (replicate TAIL_CAP 0) [text "tail"; text "-n"; uint_text 1; text "a"])
      (sample_io [0; 2; 1]%nat) = (Gone, w') /\
    io_exit w' = Some 0 /\ io_out w' = [] ++ tail_shown 1 (text "two words") /\
    io_err w' = [] /\ io_files w' = io_files (sample_io [0; 2; 1]%nat).
Proof.
  apply (tail_shows_end 20 (replicate TAIL_CAP 0) (text "tail") 1 (text "a") (text "two words") (sample_io [0; 2; 1]%nat)).
  - reflexivity.
  - apply sample_fresh.
  - cbn. lia.
  - by apply Nat.ltb_lt.
  - lia.
  - apply length_replicate.
Defined.
