(* ===== verification/GrepSpec.v ===== *)
(** [grep] shows the lines with the pattern in them, whatever the sizes in which
    the kernel answers its reads. *)

From S2P Require Import Prelude Prog Tools ToolsSpec TextTools TextToolsSpec.

(* ------------------------------------------------------------------ *)
(** ** Matching *)

(** The pattern stands at some place of the line. *)
Definition contains (pat line : list Z) : bool :=
  existsb (fun i => bool_decide (take (length pat) (drop i line) = pat)) (seq 0 (S (length line))).

Lemma match_here_take pat line : match_here pat line = bool_decide (take (length pat) line = pat).
Proof.
  revert line. induction pat as [|x pat IH]; intros [|y line]; cbn [match_here length take]; try done.
  rewrite IH. destruct (Z.eqb_spec y x) as [->|Hne]; cbn [andb].
  - apply bool_decide_ext. split; [by intros ->|by intros [= ->]].
  - symmetry. apply bool_decide_eq_false. by intros [= ->].
Qed.
Lemma existsb_seq_shift (f : nat -> bool) a n : existsb f (seq (S a) n) = existsb (fun i => f (S i)) (seq a n).
Proof. revert a. induction n as [|n IH]; intros a; cbn; [done|]. by rewrite IH. Qed.
Lemma brute_loop_contains pat line : pat <> [] -> brute_loop pat line = contains pat line.
Proof.
  intros Hp. unfold contains. induction line as [|c line IH]; cbn [brute_loop length].
  - destruct pat as [|x pat]; [done|]. cbn. by rewrite bool_decide_eq_false_2.
  - rewrite match_here_take, IH. change (seq 0 (S (S (length line)))) with (0%nat :: seq 1 (S (length line))).
    cbn [existsb]. by rewrite existsb_seq_shift.
Qed.
Lemma brute_match_contains pat line : brute_match pat line = contains pat line.
Proof.
  unfold brute_match. destruct pat as [|x pat]; [|by apply brute_loop_contains].
  unfold contains. cbn [length Nat.eqb orb seq existsb]. by rewrite bool_decide_eq_true_2.
Qed.
Lemma contains_spec pat line : contains pat line = true <-> exists a b, line = a ++ pat ++ b.
Proof.
  unfold contains. rewrite existsb_exists. split.
  - intros (i & _ & Hi%bool_decide_eq_true). exists (take i line), (drop (length pat) (drop i line)).
    rewrite <- Hi at 1. by rewrite take_drop, take_drop.
  - intros (a & b & ->). exists (length a). split.
    + apply in_seq. rewrite length_app. lia.
    + apply bool_decide_eq_true. by rewrite drop_app_length, take_app_length.
Qed.

(* ------------------------------------------------------------------ *)
(** ** Lines *)

Definition newline (c : Z) : bool := c =? 10.
(** The parts of a text between its newlines, without the carriage returns; the
    last one is a line when it is not empty. *)
Definition grep_parts (s : list Z) : list (list Z) := fields newline (List.filter (fun c => negb (c =? 13)) s).
Definition grep_lines (s : list Z) : list (list Z) :=
  removelast (grep_parts s) ++ (match List.last (grep_parts s) [] with [] => [] | l => [l] end).
(** What fits in the line buffer, up to a NUL. *)
Definition grep_seen (l : list Z) : list Z := cstr (take (LINE_CAP - 1) l).
Definition shown_line (name : list Z) (show_name : bool) (l : list Z) : list Z :=
  (if show_name then name ++ [58] else []) ++ l ++ [10].
(** What [grep] shows of some lines. *)
Definition grep_shown (pat name : list Z) (show_name : bool) (lines : list (list Z)) : list Z :=
  concat (shown_line name show_name <$> List.filter (contains pat) (grep_seen <$> lines)).
Definition grep_found (pat : list Z) (lines : list (list Z)) : bool := existsb (contains pat) (grep_seen <$> lines).

Lemma fields_snoc sep s c :
  fields sep (s ++ [c]) =
    if sep c then fields sep s ++ [[]] else removelast (fields sep s) ++ [List.last (fields sep s) [] ++ [c]].
Proof.
  induction s as [|x s IH]; cbn [app fields].
  - by destruct (sep c).
  - rewrite IH. destruct (fields_cons sep s) as (w & ws & Hf). rewrite Hf in *.
    destruct (sep x), (sep c); try done; destruct ws as [|w2 ws]; done.
Qed.
Lemma grep_shown_app pat name show_name a b :
  grep_shown pat name show_name (a ++ b) = grep_shown pat name show_name a ++ grep_shown pat name show_name b.
Proof. unfold grep_shown. by rewrite fmap_app, List.filter_app, fmap_app, concat_app. Qed.
Lemma grep_found_app pat a b : grep_found pat (a ++ b) = grep_found pat a || grep_found pat b.
Proof. unfold grep_found. by rewrite fmap_app, existsb_app. Qed.

Lemma run_flush_line {B} pat name show_name l w (f : bool -> prog B) :
  run io_kernel (pbind (flush_line pat name show_name (take (LINE_CAP - 1) l)) f) w
    = run io_kernel (f (grep_found pat [l])) (io_put (grep_shown pat name show_name [l]) w).
Proof.
  unfold flush_line, grep_found, grep_shown. cbn [fmap list_fmap existsb List.filter]. fold (grep_seen l).
  rewrite brute_match_contains, orb_false_r, run_assoc. destruct (contains pat (grep_seen l)).
  - unfold print_match, shown_line. destruct show_name; cbn [fmap list_fmap concat]; io_writes;
      rewrite ?(run_returned _ (Done tt) _ _ _ _ eq_refl); io_writes; rewrite !io_put_put; cbn [run];
      rewrite ?run_pbind; cbn [run]; do 2 f_equal; by rewrite !app_nil_r, <- ?app_assoc.
  - rewrite (run_returned _ (Done tt) _ _ _ _ eq_refl), (run_returned _ (Done false) _ _ _ _ eq_refl).
    unfold io_put. cbn. rewrite app_nil_r. by destruct w.
Qed.

(* ------------------------------------------------------------------ *)
(** ** Reading *)

(** The state of [grep_fd] with [s] read, and what has been written. *)
Definition grep_state (pat s : list Z) : list Z * bool :=
  (take (LINE_CAP - 1) (List.last (grep_parts s) []), grep_found pat (removelast (grep_parts s))).
Definition grep_output (pat name : list Z) (show_name : bool) (s : list Z) : list Z :=
  grep_shown pat name show_name (removelast (grep_parts s)).

Lemma grep_parts_snoc s c :
  grep_parts (s ++ [c]) =
    if c =? 13 then grep_parts s
    else if c =? 10 then grep_parts s ++ [[]]
    else removelast (grep_parts s) ++ [List.last (grep_parts s) [] ++ [c]].
Proof.
  unfold grep_parts. rewrite List.filter_app. cbn [List.filter]. destruct (c =? 13); cbn [negb].
  - by rewrite app_nil_r.
  - by rewrite fields_snoc.
Qed.
Lemma grep_parts_last s : grep_parts s = removelast (grep_parts s) ++ [List.last (grep_parts s) []].
Proof.
  apply app_removelast_last. unfold grep_parts. destruct (fields_cons newline (List.filter (fun c => negb (c =? 13)) s))
    as (w & ws & ->). done.
Qed.
Lemma take_snoc_max n l (c : Z) :
  (if (length (take n l) <? n)%nat then take n l ++ [c] else take n l) = take n (l ++ [c]).
Proof.
  rewrite length_take. destruct (Nat.ltb_spec (Nat.min n (length l)) n) as [H|H].
  - rewrite (take_ge l) by lia. rewrite take_ge; [done|]. rewrite length_app. cbn. lia.
  - rewrite take_app_le by lia. done.
Qed.

Lemma grep_buf_step pat name show_name c buf d w :
  exists t, run io_kernel (grep_buf pat name show_name (c :: buf) (grep_state pat d)) w
      = run io_kernel (grep_buf pat name show_name buf (grep_state pat (d ++ [c]))) (io_put t w) /\
    grep_output pat name show_name (d ++ [c]) = grep_output pat name show_name d ++ t.
Proof.
  cbn [grep_buf]. unfold grep_state at 1. unfold grep_state, grep_output. rewrite grep_parts_snoc.
  assert (forall w, io_put [] w = w) as Hput by (intros w'; unfold io_put; rewrite app_nil_r; by destruct w').
  destruct (c =? 13).
  { exists []. by rewrite Hput, app_nil_r. }
  destruct (c =? 10).
  - rewrite run_flush_line. eexists. split.
    + rewrite removelast_last, List.last_last, take_nil, <- grep_found_app, <- grep_parts_last. reflexivity.
    + by rewrite removelast_last, <- grep_shown_app, <- grep_parts_last.
  - exists []. rewrite Hput, app_nil_r, removelast_last, List.last_last. split; [|done].
    by rewrite take_snoc_max.
Qed.
Lemma grep_buf_reads pat name show_name buf d w :
  exists t, run io_kernel (grep_buf pat name show_name buf (grep_state pat d)) w
      = (Returned (grep_state pat (d ++ buf)), io_put t w) /\
    grep_output pat name show_name (d ++ buf) = grep_output pat name show_name d ++ t.
Proof.
  revert d w. induction buf as [|c buf IH]; intros d w.
  { exists []. rewrite !app_nil_r. split; [|done]. unfold io_put. rewrite app_nil_r. by destruct w. }
  destruct (grep_buf_step pat name show_name c buf d w) as (t & -> & Ht).
  destruct (IH (d ++ [c]) (io_put t w)) as (t' & -> & Ht'). exists (t ++ t').
  rewrite io_put_put. rewrite <- app_assoc in *. cbn [app] in *. split; [done|]. by rewrite Ht', Ht, app_assoc.
Qed.

Lemma grep_fd_shows {B} fuel path name show_name pat content w (f : bool -> prog B) :
  io_files w !! path = Some content -> 3 <= io_next w -> (length content < fuel)%nat ->
  exists w1, run io_kernel (pbind (grep_fd fuel (io_next w) name show_name pat) f) (io_opened path w)
      = run io_kernel (f (grep_found pat (grep_lines content))) w1 /\
    io_like (io_put (grep_shown pat name show_name (grep_lines content)) (io_opened path w)) (io_files w)
      (<[io_next w := (path, length content)]> (io_fds w)) w1.
Proof.
  intros Hp Hn Hfuel. unfold grep_fd. rewrite run_assoc.
  destruct (read_all_prints fuel 256 (grep_buf pat name show_name) (grep_state pat) (grep_output pat name show_name)
    (io_opened path w) (io_files w) (io_fds w) (io_next w) path content (io_opened path w)) as (w1 & Hrun & Hw1);
    [lia|lia|done|done|by constructor|done|intros d buf rest w2 _ _; apply grep_buf_reads|].
  change (grep_state pat []) with (@nil Z, false) in Hrun. rewrite (run_returned _ _ _ _ _ _ Hrun).
  unfold grep_state. cbv iota beta. unfold grep_lines. rewrite grep_shown_app, grep_found_app.
  unfold grep_output in Hw1.
  assert (LINE_CAP - 1 <> 0)%nat as Hcap by (apply Nat.eqb_neq; by vm_compute).
  destruct (List.last (grep_parts content) []) as [|c l] eqn:Hlast.
  - rewrite take_nil. change (0 <? length [])%nat with false. cbn iota.
    rewrite (run_returned _ (Done _) _ _ _ _ eq_refl). exists w1.
    unfold grep_found at 2. cbn [fmap list_fmap existsb]. rewrite orb_false_r. split; [done|].
    unfold grep_shown at 2. cbn [fmap list_fmap List.filter concat]. by rewrite app_nil_r.
  - rewrite (proj2 (Nat.ltb_lt 0 _)) by (rewrite length_take; cbn [length]; lia).
    rewrite run_assoc, run_flush_line, (run_returned _ (Done _) _ _ _ _ eq_refl).
    eexists. split; [reflexivity|]. eapply io_like_put in Hw1. rewrite io_put_put in Hw1. exact Hw1.
Qed.

Lemma grep_loop_shows fuel paths contents show_name pat matched w :
  Forall2 (fun path s => io_files w !! path = Some s /\ (length s < fuel)%nat) paths contents ->
  io_fresh w -> 3 <= io_next w -> io_next w + Z.of_nat (length paths) < 1000 ->
  exists w', run io_kernel (grep_loop fuel paths show_name pat matched false) w
      = (Returned (matched || existsb (fun s => grep_found pat (grep_lines s)) contents, false), w') /\
    io_out w' = io_out w ++ concat (zip_with (fun path s => grep_shown pat path show_name (grep_lines s)) paths contents) /\
    io_err w' = io_err w /\ io_files w' = io_files w.
Proof.
  intros H. remember (io_files w) as files eqn:Hfiles. revert w matched Hfiles.
  induction H as [|path s paths contents (Hp & Hl) _ IH]; intros w matched -> Hfresh Hn Hm.
  { exists w. cbn. by rewrite orb_false_r, app_nil_r. }
  cbn [grep_loop length existsb zip_with concat] in *. unfold grep_file. rewrite run_assoc, (run_open path s) by done.
  rewrite (s32_id (io_next w)) by lia. rewrite (proj2 (Z.ltb_ge (io_next w) 0)) by lia. rewrite run_assoc.
  edestruct (grep_fd_shows (B := bool * bool) fuel path path show_name pat s w) as (w1 & Hrun & Hw1); [done|lia|done|].
  rewrite Hrun. clear Hrun. rewrite run_assoc.
  destruct (run_close _ _ _ (io_next w) (path, length s) w1 Hw1) as (w2 & Hc & Hw2); [by rewrite lookup_insert_eq|].
  rewrite Hc. clear Hc. rewrite (run_returned _ (Done _) _ _ _ _ eq_refl). cbv iota.
  rewrite delete_insert_id in Hw2 by (apply Hfresh; lia). destruct Hw2 as [G1 G2 G3 G4 G5 G6 G7].
  destruct (IH w2 (matched || grep_found pat (grep_lines s))) as (w3 & Hrun & K1 & K2 & K3);
    [done|intros fd Hfd; rewrite G2; apply Hfresh; rewrite G6 in Hfd; cbn in Hfd; lia|rewrite G6; cbn; lia|rewrite G6; cbn; lia|].
  exists w3. cbn [orb]. rewrite Hrun, orb_assoc. split; [done|]. rewrite K1, K2, K3, G4, G5. cbn. by rewrite <- app_assoc.
Qed.

(** C30: [grep] shows the lines of its files that have the pattern in them, in
    their order, with the name of the file in front when there are several, and
    exits with 0 when there was one and with 1 when there was none, whatever the
    sizes in which the kernel answers its reads.  Of a line it sees the first
    [LINE_CAP - 1] characters, without carriage returns and up to a NUL. *)
Theorem grep_shows_lines fuel name pat paths contents w :
  Forall2 (fun path s => io_files w !! path = Some s /\ (length s < fuel)%nat) paths contents -> paths <> [] ->
  io_fresh w -> 3 <= io_next w -> io_next w + Z.of_nat (length paths) < 1000 ->
  exists w', run io_kernel (grep_main fuel (name :: pat :: paths)) w = (Gone, w') /\
    io_exit w' = Some (if existsb (fun s => grep_found pat (grep_lines s)) contents then 0 else 1) /\
    io_out w' = io_out w ++
      concat (zip_with (fun path s => grep_shown pat path (1 <? length paths)%nat (grep_lines s)) paths contents) /\
    io_err w' = io_err w /\ io_files w' = io_files w.
Proof.
  intros H Hne Hfresh Hn Hm. unfold grep_main, arg. cbn [length lookup list_lookup default from_option id drop].
  change (S (S (length paths)) <? 2)%nat with false. cbn iota. rewrite (run_returned _ (Done tt) _ _ _ _ eq_refl).
  replace (S (S (length paths)) =? 2)%nat with false by (destruct paths; [done|done]).
  replace (3 <? S (S (length paths)))%nat with (1 <? length paths)%nat by (destruct paths as [|? [|]]; done).
  destruct (grep_loop_shows fuel paths contents (1 <? length paths)%nat pat false w H Hfresh Hn Hm)
    as (w1 & Hrun & K1 & K2 & K3).
  rewrite (run_returned _ _ _ _ _ _ Hrun). cbn [orb]. cbv iota. rewrite (run_returned _ (Done tt) _ _ _ _ eq_refl).
  eexists. split; [reflexivity|]. cbn. by rewrite K1, K2, K3.
Qed.

Lemma grep_shows_lines_witness :
  exists w', run io_kernel (grep_main 20 [text "grep"; text "wol"; text "a"; text "b"]) (sample_io [0; 2; 1]%nat) = (Gone, w') /\
    io_exit w' = Some 0 /\ io_out w' = text "b:two wolves" ++ [10] /\
    io_err w' = [] /\ io_files w' = io_files (sample_io [0; 2; 1]%nat).
Proof.
  apply (grep_shows_lines 20 (text "grep") (text "wol") [text "a"; text "b"] [text "two words"; text "two wolves"]
    (sample_io [0; 2; 1]%nat)).
  - repeat constructor; by apply Nat.ltb_lt.
  - discriminate.
  - apply sample_fresh.
  - cbn. lia.
  - cbn. lia.
Defined.
