(* ===== verification/Build.v ===== *)
(** The build tool, [src/user/build.c]: it reads the targets of
    [/src/Buildfile], and builds a target after the targets it depends on,
    unless a signature of its inputs says that it is current.

    The array of targets with its flags [visiting] and [done] is passed from
    call to call.  [fuel] bounds the depth of the recursion over dependencies,
    [rfuel] the reads of a file. *)

From S2P Require Import Prelude Prog Fs Tools TextTools.

(* ------------------------------------------------------------------ *)
(** ** Targets *)

(** [struct target]; its pointers are to strings of the build file. *)
Record target := Target {
  t_name : list Z;
  t_recipe : list Z;
  t_source : list Z;
  t_output : list Z;
  t_group : list Z;
  t_deps : list Z;
  t_visiting : bool;
  t_done : bool;
}.
Definition set_visiting (v : bool) (t : target) : target :=
  Target (t_name t) (t_recipe t) (t_source t) (t_output t) (t_group t) (t_deps t) v (t_done t).
Definition set_done (v : bool) (t : target) : target :=
  Target (t_name t) (t_recipe t) (t_source t) (t_output t) (t_group t) (t_deps t) (t_visiting t) v.

Definition BUILD_FILE : list Z := text "/src/Buildfile".
Definition RECIPE_CC : list Z := text "cc".
Definition RECIPE_COPY : list Z := text "copy".
Definition RECIPE_PHONY : list Z := text "phony".
Definition MAX_BUILD_FILE : Z := 1024.
Definition MAX_TARGETS : nat := 32.
Definition NO_DEPS : list Z := text "-".
Definition BUILD_SIG_PREFIX : list Z := text "/tmp/b".
Definition BUILD_SIG_HEX_DIGITS : nat := 12.

(** The first target of a name. *)
Fixpoint find_from (targets : list target) (name : list Z) (i : nat) : option nat :=
  match targets with
  | [] => None
  | t :: targets' => if str_eq (t_name t) name then Some i else find_from targets' name (S i)
  end.
Definition find_target (targets : list target) (name : list Z) : option nat := find_from targets name 0.

(** The names in a list of dependencies: what the loops of [check_dependencies]
    and [compute_signature] find between the commas. *)
Fixpoint skip_commas (p : list Z) : list Z :=
  match p with c :: p' => if c =? 44 then skip_commas p' else p | [] => [] end.
Fixpoint take_name (p : list Z) : list Z * list Z :=
  match p with
  | c :: p' => if c =? 44 then ([], p) else let '(n, r) := take_name p' in (c :: n, r)
  | [] => ([], [])
  end.
Fixpoint dep_loop (fuel : nat) (p : list Z) : list (list Z) :=
  match fuel, p with
  | S f, _ :: _ =>
      let '(name, rest) := take_name (skip_commas p) in
      let rest := tail rest in
      match name with [] => dep_loop f rest | _ => name :: dep_loop f rest end
  | _, _ => []
  end.
Definition dep_names (deps : list Z) : list (list Z) := dep_loop (length deps) deps.
(** [char dep[128]] *)
Definition DEP_SIZE : nat := 128.

(* ------------------------------------------------------------------ *)
(** ** Signatures *)

(** The FNV-1a hash of 64 bits. *)
Definition FNV_OFFSET : Z := 14695981039346656037.
Definition FNV_PRIME : Z := 1099511628211.
Definition hash_byte (hash c : Z) : Z := u64 (Z.lxor hash c * FNV_PRIME).
Definition hash_bytes (hash : Z) (buf : list Z) : Z := foldl hash_byte hash buf.
Definition hash_cstr (hash : Z) (s : list Z) : Z := hash_bytes hash s.

Fixpoint to_hex_loop (n : nat) (value : Z) (buf : list Z) : list Z :=
  match n with
  | O => buf
  | S n' => to_hex_loop n' (Z.shiftr value 4) (hex_digit value :: buf)
  end.
Definition to_hex64 (value : Z) : list Z := to_hex_loop 16 value [].

(** The common start of the signature and of its path. *)
Definition hash_target (t : target) : Z :=
  let h := hash_cstr FNV_OFFSET (t_name t) in
  let h := hash_byte h 255 in
  let h := hash_cstr h (t_recipe t) in
  let h := hash_byte h 255 in
  if negb (str_eq (t_output t) NO_DEPS) then hash_cstr h (t_output t) else h.
Definition signature_path_for (t : target) : list Z :=
  BUILD_SIG_PREFIX ++ slice (to_hex64 (hash_target t)) (16 - BUILD_SIG_HEX_DIGITS) BUILD_SIG_HEX_DIGITS.

Definition open_rd (path : list Z) : prog Z := do! r := call (SysOpen path O_RDONLY) in Done (s32 r).
Definition open_output (path : list Z) : prog Z :=
  do! r := call (SysOpen path (Z.lor (Z.lor O_WRONLY O_CREAT) O_TRUNC)) in Done (s32 r).
Definition open_rw (path : list Z) : prog Z :=
  do! r := call (SysOpen path (Z.lor (Z.lor O_RDWR O_CREAT) O_TRUNC)) in Done (s32 r).

Definition read_u64_file (path : list Z) : prog (option Z) :=
  do! fd := open_rd path in
  if fd <? 0 then Done None
  else
    do! '(n, buf) := read_fd fd 8 in
    call (SysClose fd) ;;~
    Done (if n =? 8 then Some (le_val buf) else None).
Definition write_u64_file (path : list Z) (value : Z) : prog Z :=
  do! fd := open_rw path in
  if fd <? 0 then Done (-1)
  else
    do! n := call (SysWrite fd (le_bytes 8 value)) in
    call (SysClose fd) ;;~
    Done (if s32 n =? 8 then 0 else -1).

Definition hash_file (rfuel : nat) (path : list Z) (hash : Z) : prog (option Z) :=
  do! fd := open_rd path in
  if fd <? 0 then Done None
  else
    do! '(hash, n) := read_all rfuel fd 512 (fun buf hash => Done (hash_bytes hash buf)) hash in
    call (SysClose fd) ;;~
    Done (if n <? 0 then None else Some hash).
Definition hash_dependency (rfuel : nat) (targets : list target) (hash : Z) (dep : list Z) : prog (option Z) :=
  let hash_path path := hash_file rfuel path (hash_byte hash 255) in
  if hd 0 dep =? 64 then
    match find_target targets (tail dep) with
    | None => Done None
    | Some j => match targets !! j with Some t => hash_path (t_output t) | None => Undef end
    end
  else hash_path dep.
Fixpoint hash_deps (rfuel : nat) (targets : list target) (deps : list (list Z)) (sig : Z) : prog (option Z) :=
  match deps with
  | [] => Done (Some sig)
  | dep :: deps' =>
      if (DEP_SIZE <=? length dep)%nat then Done None
      else
        do! r := hash_dependency rfuel targets sig dep in
        match r with None => Done None | Some sig => hash_deps rfuel targets deps' sig end
  end.
Definition compute_signature (rfuel : nat) (targets : list target) (t : target) : prog (option Z) :=
  let sig := hash_byte (hash_target t) 255 in
  do! r := (if negb (str_eq (t_source t) NO_DEPS) then hash_file rfuel (t_source t) sig else Done (Some sig)) in
  match r with
  | None => Done None
  | Some sig =>
      if str_eq (t_deps t) NO_DEPS then Done (Some sig)
      else hash_deps rfuel targets (dep_names (t_deps t)) sig
  end.

(* ------------------------------------------------------------------ *)
(** ** Files *)

Definition put (s : list Z) : prog unit := fd_write_str STDOUT_FD s.
Definition put_line (what name : list Z) : prog unit := put what ;;~ put name ;;~ put [10].

Definition stat_path (path : list Z) : prog (Z * option ustat) :=
  do! fd := open_rd path in
  if fd <? 0 then Done (-1, None)
  else
    do! st := call (SysFstat fd) in
    call (SysClose fd) ;;~
    Done (s32 (fst st), snd st).
Definition file_exists (path : list Z) : prog bool := do! '(r, _) := stat_path path in Done (r =? 0).
Definition file_nonempty (path : list Z) : prog bool :=
  do! '(r, st) := stat_path path in
  if r =? 0 then
    match st with
    | Some st => Done ((st_type st =? T_FILE) && (0 <? u64 (st_size st)))
    | None => Undef
    end
  else Done false.
Definition unlink_file (path : list Z) : prog unit := call (SysUnlink path) ;;~ Done tt.

(** [None] for a null [out_path]. *)
Definition run_program (argv : list (list Z)) (out_path : option (list Z)) : prog Z :=
  do! pid := call SysFork in
  if s32 pid <? 0 then Done (-1)
  else
    (if s32 pid =? 0 then
       (match out_path with
        | Some path =>
            call (SysClose STDOUT_FD) ;;~
            do! fd := open_output path in
            if negb (fd =? STDOUT_FD) then exit_with (-1) else Done tt
        | None => Done tt
        end) ;;~
       call (SysExec (arg argv 0) argv []) ;;~
       exit_with (-1)
     else Done tt) ;;~
    do! r := call SysWait in
    if s32 (fst r) <? 0 then Done (-1) else Done (default (-1) (snd r)).

Definition build_copy_file (rfuel : nat) (src dst : list Z) : prog Z :=
  do! in_fd := open_rd src in
  if in_fd <? 0 then Done (-1)
  else
    do! out_fd := open_output dst in
    if out_fd <? 0 then call (SysClose in_fd) ;;~ Done (-1)
    else
      do! x := read_until rfuel in_fd 512 (fun buf _ =>
        let n := Z.of_nat (length buf) in
        do! ok := write_loop (length buf) out_fd buf 0 n in
        if ok : bool then Done (inl tt)
        else call (SysClose in_fd) ;;~ call (SysClose out_fd) ;;~ Done (inr (-1))) tt in
      match x with
      | inr r => Done r
      | inl (_, n) =>
          if n <? 0 then call (SysClose in_fd) ;;~ call (SysClose out_fd) ;;~ Done (-1)
          else
            do! a := close_status in_fd in
            if a <? 0 then Done (-1)
            else do! b := close_status out_fd in if b <? 0 then Done (-1) else Done 0
      end.

(* ------------------------------------------------------------------ *)
(** ** The build file *)

(** The loop of [read_build_file]; every read that goes on has a byte. *)
Fixpoint read_build_loop (fuel : nat) (fd cap : Z) (buf : list Z) : prog (list Z) :=
  match fuel with
  | O => Spin
  | S f =>
      let total := Z.of_nat (length buf) in
      if total + 1 <? cap then
        do! '(n, data) := read_fd fd (cap - 1 - total) in
        if n <=? 0 then Done buf else read_build_loop f fd cap (buf ++ data)
      else Done buf
  end.
(** The text of the file, as a C string. *)
Definition read_build_file (cap : Z) : prog (option (list Z)) :=
  do! fd := open_rd BUILD_FILE in
  if fd <? 0 then put_line (text "missing build file: ") BUILD_FILE ;;~ Done None
  else
    do! buf := read_build_loop (Z.to_nat cap) fd cap [] in
    call (SysClose fd) ;;~
    if cap <=? Z.of_nat (length buf) + 1 then put (text "build file too large" ++ [10]) ;;~ Done None
    else Done (Some (cstr buf)).

Definition is_build_space (c : Z) : bool := (c =? 32) || (c =? 9) || (c =? 13) || (c =? 10).
Definition is_line_space (c : Z) : bool := (c =? 32) || (c =? 9) || (c =? 13).
Fixpoint skip_line_spaces (p : list Z) : list Z :=
  match p with c :: p' => if is_line_space c then skip_line_spaces p' else p | [] => [] end.
Fixpoint take_field (p : list Z) : list Z * list Z :=
  match p with
  | c :: p' => if is_build_space c then ([], p) else let '(w, r) := take_field p' in (c :: w, r)
  | [] => ([], [])
  end.
(** [next_field]: the field and the cursor behind it. *)
Definition next_field (cursor : list Z) : option (list Z) * list Z :=
  let p := skip_line_spaces cursor in
  match p with
  | [] => (None, p)
  | c :: _ => if c =? 35 then (None, p) else let '(w, r) := take_field p in (Some w, tail r)
  end.
Fixpoint take_line (p : list Z) : list Z * list Z :=
  match p with
  | c :: p' => if c =? 10 then ([], p') else let '(l, r) := take_line p' in (c :: l, r)
  | [] => ([], [])
  end.
(** The target of a line: [None] for a bad line. *)
Definition parse_line (line : list Z) : option target :=
  let '(name, line) := next_field line in
  let '(second, line) := next_field line in
  let '(third, line) := next_field line in
  let '(fourth, line) := next_field line in
  let '(fifth, line) := next_field line in
  let '(sixth, line) := next_field line in
  let '(extra, line) := next_field line in
  match name, second, third, fourth, extra with
  | Some name, Some second, Some third, Some fourth, None =>
      match fifth with
      | Some fifth => Some (Target name second third fourth fifth (default third sixth) false false)
      | None => Some (Target name RECIPE_CC second third fourth second false false)
      end
  | _, _, _, _, _ => None
  end.
(** [parse_build_file]; every line takes a character. *)
Fixpoint parse_build_loop (fuel : nat) (p : list Z) (targets : list target) (max_targets : nat) :
    prog (option (list target)) :=
  match fuel, p with
  | S f, _ :: _ =>
      let '(line, rest) := take_line p in
      let start := skip_line_spaces line in
      if (length start =? 0)%nat || (hd 0 start =? 35) then parse_build_loop f rest targets max_targets
      else
        match parse_line start with
        | None => put (text "bad build file line" ++ [10]) ;;~ Done None
        | Some t =>
            if (max_targets <=? length targets)%nat then put (text "too many build targets" ++ [10]) ;;~ Done None
            else parse_build_loop f rest (targets ++ [t]) max_targets
        end
  | _, _ => Done (Some targets)
  end.
Definition parse_build_file (buf : list Z) (max_targets : nat) : prog (option (list target)) :=
  parse_build_loop (length buf) buf [] max_targets.
Definition load_targets (max_targets : nat) : prog (option (list target)) :=
  do! buf := read_build_file MAX_BUILD_FILE in
  match buf with None => Done None | Some buf => parse_build_file buf max_targets end.

(* ------------------------------------------------------------------ *)
(** ** Building *)

Definition target_current (rfuel : nat) (targets : list target) (t : target) : prog bool :=
  if str_eq (t_recipe t) RECIPE_PHONY then Done false
  else
    do! nonempty := file_nonempty (t_output t) in
    if negb nonempty then Done false
    else
      do! old := read_u64_file (signature_path_for t) in
      match old with
      | None => Done false
      | Some old_sig =>
          do! new := compute_signature rfuel targets t in
          match new with None => Done false | Some new_sig => Done (old_sig =? new_sig) end
      end.

(** The signature is stored after a recipe that succeeded. *)
Definition store_signature (rfuel : nat) (targets : list target) (t : target) (status : Z) : prog Z :=
  if status =? 0 then
    do! sig := compute_signature rfuel targets t in
    (match sig with
     | Some sig => write_u64_file (signature_path_for t) sig ;;~ Done tt
     | None => Done tt
     end) ;;~
    Done status
  else Done status.
Definition run_recipe (rfuel : nat) (targets : list target) (t : target) : prog Z :=
  if str_eq (t_recipe t) RECIPE_CC then
    unlink_file (t_output t) ;;~
    do! status := run_program [text "/bin/cc"; t_source t; text "-o"; t_output t] (Some (text "build.log")) in
    store_signature rfuel targets t status
  else if str_eq (t_recipe t) RECIPE_COPY then
    do! status := build_copy_file rfuel (t_source t) (t_output t) in
    store_signature rfuel targets t status
  else if str_eq (t_recipe t) RECIPE_PHONY then Done 0
  else put_line (text "unknown recipe: ") (t_recipe t) ;;~ Done (-1).

Definition check_file_dependency (t : target) (path : list Z) : prog Z :=
  do! exists_ := file_exists path in
  if exists_ : bool then Done 0
  else
    put (text "missing dependency for ") ;;~ put (t_name t) ;;~ put (text ": ") ;;~ put path ;;~ put [10] ;;~
    Done (-1).
(** [build] is [build_target]. *)
Definition check_dependency (build : list target -> nat -> prog (Z * list target))
    (targets : list target) (t : target) (dep : list Z) : prog (Z * list target) :=
  if negb (hd 0 dep =? 64) then do! r := check_file_dependency t dep in Done (r, targets)
  else
    match find_target targets (tail dep) with
    | None =>
        put (text "missing target dependency for ") ;;~ put (t_name t) ;;~ put (text ": ") ;;~ put dep ;;~ put [10] ;;~
        Done (-1, targets)
    | Some j => build targets j
    end.
Definition check_dependency_range (build : list target -> nat -> prog (Z * list target))
    (targets : list target) (t : target) (dep : list Z) : prog (Z * list target) :=
  if (DEP_SIZE <=? length dep)%nat then
    put_line (text "dependency name too long for ") (t_name t) ;;~ Done (-1, targets)
  else check_dependency build targets t dep.
(** The loop of [check_dependencies]. *)
Fixpoint check_deps (build : list target -> nat -> prog (Z * list target))
    (targets : list target) (t : target) (deps : list (list Z)) : prog (Z * list target) :=
  match deps with
  | [] => Done (0, targets)
  | dep :: deps' =>
      do! '(r, targets) := check_dependency_range build targets t dep in
      if r <? 0 then Done (-1, targets) else check_deps build targets t deps'
  end.
Definition check_dependencies (build : list target -> nat -> prog (Z * list target))
    (targets : list target) (t : target) : prog (Z * list target) :=
  if str_eq (t_deps t) NO_DEPS then Done (0, targets)
  else
    match dep_names (t_deps t) with
    | [] => Done (-1, targets)
    | deps => check_deps build targets t deps
    end.

Definition upd_target (i : nat) (f : target -> target) (targets : list target) : list target := alter f i targets.

Fixpoint build_target (fuel rfuel : nat) (targets : list target) (i : nat) : prog (Z * list target) :=
  match fuel with
  | O => Spin
  | S f =>
      match targets !! i with
      | None => Undef
      | Some t =>
          if t_done t then Done (0, targets)
          else if t_visiting t then put_line (text "dependency cycle at ") (t_name t) ;;~ Done (-1, targets)
          else
            let targets := upd_target i (set_visiting true) targets in
            let fail targets :=
              put_line (text "BUILD_FAIL ") (t_name t) ;;~ Done (-1, upd_target i (set_visiting false) targets) in
            let succeed (what : list Z) targets :=
              put_line what (t_name t) ;;~
              Done (0, upd_target i (fun t => set_done true (set_visiting false t)) targets) in
            do! '(r, targets) := check_dependencies (build_target f rfuel) targets t in
            if r <? 0 then fail targets
            else
              do! current := target_current rfuel targets t in
              if current : bool then succeed (text "BUILD_SKIP ") targets
              else
                do! status := run_recipe rfuel targets t in
                if status =? 0 then succeed (text "BUILD_PASS ") targets else fail targets
      end
  end.

Definition has_group (targets : list target) (group : list Z) : bool :=
  existsb (fun t => str_eq (t_group t) group) targets.
(** The loop of [build_group] from index [i]; [n] targets are left. *)
Fixpoint build_group_loop (n i : nat) (fuel rfuel : nat) (targets : list target) (group : list Z) (failed built : Z) :
    prog (Z * Z) :=
  match n with
  | O => Done (failed, built)
  | S n' =>
      match targets !! i with
      | None => Undef
      | Some t =>
          if negb (str_eq (t_group t) group) then build_group_loop n' (S i) fuel rfuel targets group failed built
          else
            do! '(r, targets) := build_target fuel rfuel targets i in
            build_group_loop n' (S i) fuel rfuel targets group (if r <? 0 then failed + 1 else failed) (built + 1)
      end
  end.
Definition build_group (fuel rfuel : nat) (targets : list target) (group : list Z) : prog Z :=
  do! '(failed, built) := build_group_loop (length targets) 0 fuel rfuel targets group 0 0 in
  Done (if built =? 0 then -1 else if failed =? 0 then 0 else -1).

Definition print_usage : prog unit := put (text "usage: build [list|help|GROUP|TARGET]" ++ [10]).
Fixpoint print_members (targets : list target) (group : list Z) : prog unit :=
  match targets with
  | [] => Done tt
  | t :: targets' =>
      (if str_eq (t_group t) group then put [32; 32] ;;~ put (t_name t) ;;~ put [10] else Done tt) ;;~
      print_members targets' group
  end.
(** [seen]: the targets in front. *)
Fixpoint print_groups (seen targets all : list target) : prog unit :=
  match targets with
  | [] => Done tt
  | t :: targets' =>
      (if has_group seen (t_group t) then Done tt
       else put (t_group t) ;;~ put (text ":" ++ [10]) ;;~ print_members all (t_group t)) ;;~
      print_groups (seen ++ [t]) targets' all
  end.
Definition print_list (targets : list target) : prog unit := print_groups [] targets targets.

Definition build_main (fuel rfuel : nat) (argv : list (list Z)) : prog unit :=
  (if negb (length argv =? 2)%nat then print_usage ;;~ exit_with 1 else Done tt) ;;~
  let name := arg argv 1 in
  (if str_eq name (text "help") then print_usage ;;~ exit_with 0 else Done tt) ;;~
  do! r := load_targets MAX_TARGETS in
  match r with
  | None => exit_with 1
  | Some targets =>
      (if str_eq name (text "list") then print_list targets ;;~ exit_with 0 else Done tt) ;;~
      do! status :=
        match find_target targets name with
        | Some i => do! '(r, _) := build_target fuel rfuel targets i in Done r
        | None =>
            if has_group targets name then build_group fuel rfuel targets name
            else
              print_usage ;;~ put_line (text "unknown target: ") name ;;~ exit_with 1 ;;~ Done (-1)
        end in
      exit_with (if status =? 0 then 0 else 1)
  end.
