(* ===== verification/BuildSpec.v ===== *)
(** Building follows the dependencies: a target is done only after the targets
    it depends on, whatever the programs and files do; a cycle is noticed; and
    the recursion over dependencies comes to an end. *)

From S2P Require Import Prelude Prog Tools TextTools Build.

(* ------------------------------------------------------------------ *)
(** ** Targets and their dependencies *)

(** What a build does not change. *)
Definition static (t : target) : list (list Z) := [t_name t; t_recipe t; t_source t; t_output t; t_group t; t_deps t].
Record same_targets (a b : list target) : Prop := SameTargets {
  same_static : static <$> a = static <$> b;
  same_visiting : t_visiting <$> a = t_visiting <$> b;
}.
#[global] Instance same_targets_equiv : Equivalence same_targets.
Proof.
  split.
  - done.
  - intros a b []. by constructor.
  - intros a b c [] []. constructor; congruence.
Qed.

(** The targets that a target names as dependencies. *)
Definition dep_target (targets : list target) (dep : list Z) : option nat :=
  if hd 0 dep =? 64 then find_target targets (tail dep) else None.
Definition deps_of (t : target) : list (list Z) := if str_eq (t_deps t) NO_DEPS then [] else dep_names (t_deps t).
Definition target_deps (targets : list target) (t : target) : list nat := omap (dep_target targets) (deps_of t).

Lemma find_from_static a b name i : static <$> a = static <$> b -> find_from a name i = find_from b name i.
Proof.
  revert b i. induction a as [|x a IH]; intros [|y b] i H; try done.
  cbn in H. injection H as Hn _ _ _ _ _ H. cbn [find_from]. rewrite Hn. by destruct (str_eq _ _); [|apply IH].
Qed.
Lemma target_deps_static a b t u :
  static <$> a = static <$> b -> static t = static u -> target_deps a t = target_deps b u.
Proof.
  intros H Hd. unfold target_deps, deps_of. replace (t_deps u) with (t_deps t) by (unfold static in Hd; congruence).
  induction (if str_eq (t_deps t) NO_DEPS then [] else dep_names (t_deps t)) as [|d l IH]; [done|].
  assert (dep_target a d = dep_target b d) as Hdt by (unfold dep_target, find_target; by rewrite (find_from_static a b)).
  transitivity (match dep_target a d with Some y => y :: omap (dep_target a) l | None => omap (dep_target a) l end); [done|].
  by rewrite Hdt, IH.
Qed.
Lemma find_from_lookup targets name i j :
  find_from targets name i = Some j -> exists t, (i <= j)%nat /\ targets !! (j - i)%nat = Some t.
Proof.
  revert i. induction targets as [|t targets IH]; intros i; cbn [find_from]; [done|].
  destruct (str_eq (t_name t) name).
  - intros [= ->]. exists t. by rewrite Nat.sub_diag.
  - intros H. apply IH in H as (u & Hle & Hu). exists u. split; [lia|]. by replace (j - i)%nat with (S (j - S i)) by lia.
Qed.

Lemma same_targets_lookup a b i t :
  same_targets a b -> a !! i = Some t ->
  exists u, b !! i = Some u /\ static t = static u /\ t_visiting t = t_visiting u.
Proof.
  intros [H1 H2] Ha.
  assert ((static <$> b) !! i = Some (static t)) as Hs by (by rewrite <- H1, list_lookup_fmap, Ha).
  assert ((t_visiting <$> b) !! i = Some (t_visiting t)) as Hv by (by rewrite <- H2, list_lookup_fmap, Ha).
  rewrite list_lookup_fmap in Hs. rewrite list_lookup_fmap in Hv. destruct (b !! i) as [u|]; [|done]. cbn in *. exists u. split; [done|].
  split; congruence.
Qed.
Lemma upd_static i f targets :
  (forall t, static (f t) = static t) -> static <$> upd_target i f targets = static <$> targets.
Proof.
  intros Hf. apply list_eq. intros j. rewrite !list_lookup_fmap. unfold upd_target.
  destruct (decide (j = i)) as [->|Hj].
  - rewrite list_lookup_alter_eq. destruct (targets !! i); cbn; congruence.
  - by rewrite list_lookup_alter_ne.
Qed.

(* ------------------------------------------------------------------ *)
(** ** The order of a build *)

(** [order] lists the targets that are done, every one behind the targets it
    depends on. *)
Record ordered (targets : list target) (order : list nat) : Prop := Ordered {
  ord_nodup : NoDup order;
  ord_done : forall i t, targets !! i = Some t -> t_done t = true <-> i ∈ order;
  ord_range : forall i, i ∈ order -> is_Some (targets !! i);
  ord_deps : forall a i b t, order = a ++ i :: b -> targets !! i = Some t ->
    forall j, j ∈ target_deps targets t -> j ∈ a;
  ord_visiting : forall i t, targets !! i = Some t -> t_visiting t = true -> t_done t = false;
}.

(** Marking a target as visited changes no order. *)
Lemma ordered_mark targets order i t v :
  ordered targets order -> targets !! i = Some t -> (v = true -> t_done t = false) ->
  ordered (upd_target i (set_visiting v) targets) order.
Proof.
  intros [H1 H2 H3 H4 H5] Ht Hd.
  assert (static <$> upd_target i (set_visiting v) targets = static <$> targets) as Hs by (by apply upd_static).
  assert (forall j u, upd_target i (set_visiting v) targets !! j = Some u -> exists u0, targets !! j = Some u0 /\
    static u0 = static u /\ t_done u0 = t_done u /\ (t_visiting u = true -> j = i \/ t_visiting u0 = true)) as Hl.
  { intros j u. unfold upd_target. destruct (decide (j = i)) as [->|Hj].
    - rewrite list_lookup_alter_eq, Ht. intros [= <-]. exists t. split_and!; try done. by left.
    - rewrite list_lookup_alter_ne by done. intros Hu. exists u. split_and!; try done. by right. }
  constructor; [done| | | |].
  - intros j u Hu. apply Hl in Hu as (u0 & Hu0 & _ & <- & _). by apply H2.
  - intros j Hj. destruct (H3 j Hj) as [u Hu]. unfold upd_target. destruct (decide (j = i)) as [->|Hj'].
    + rewrite list_lookup_alter_eq, Hu. by eexists.
    + rewrite list_lookup_alter_ne by done. by eexists.
  - intros a j b u Ho Hu k Hk. apply Hl in Hu as (u0 & Hu0 & Hsu & _ & _).
    eapply H4; [done|done|]. by rewrite (target_deps_static _ _ _ _ (eq_sym Hs) Hsu).
  - intros j u Hu Hv. pose proof Hu as Hu'. apply Hl in Hu as (u0 & Hu0 & _ & <- & Hor).
    destruct (Hor Hv) as [->|Hv0]; [|by eapply H5]. rewrite Ht in Hu0. injection Hu0 as <-. apply Hd.
    unfold upd_target in Hu'. rewrite list_lookup_alter_eq, Ht in Hu'. injection Hu' as <-. done.
Qed.
(** A target that becomes done is the last of the order. *)
Lemma ordered_finish targets order i t :
  ordered targets order -> targets !! i = Some t -> t_done t = false ->
  (forall j, j ∈ target_deps targets t -> j ∈ order) ->
  ordered (upd_target i (fun t => set_done true (set_visiting false t)) targets) (order ++ [i]).
Proof.
  intros [H1 H2 H3 H4 H5] Ht Hd Hdeps. set (f := fun t => set_done true (set_visiting false t)).
  assert (static <$> upd_target i f targets = static <$> targets) as Hs by (by apply upd_static).
  assert (i ∉ order) as Hi by (intros Hi; apply (H2 i t Ht) in Hi; congruence).
  assert (upd_target i f targets !! i = Some (f t)) as Hfi by (unfold upd_target; by rewrite list_lookup_alter_eq, Ht).
  assert (forall j, j <> i -> upd_target i f targets !! j = targets !! j) as Hfj
    by (intros j Hj; unfold upd_target; by rewrite list_lookup_alter_ne).
  constructor.
  - apply NoDup_app. split_and!; [done| |apply NoDup_singleton]. intros j Hj Hj'%list_elem_of_singleton. by subst.
  - intros j u Hu. rewrite elem_of_app, list_elem_of_singleton. destruct (decide (j = i)) as [->|Hj].
    + rewrite Hfi in Hu. injection Hu as <-. cbn. split; [by right|done].
    + rewrite Hfj in Hu by done. rewrite (H2 j u Hu). split; [by left|by intros [?|?]].
  - intros j [Hj|Hj%list_elem_of_singleton]%elem_of_app; [|subst; by eexists].
    destruct (decide (j = i)) as [->|Hne]; [by eexists|]. rewrite Hfj by done. by apply H3.
  - intros a j b u Ho Hu k Hk. destruct b as [|x b _] using rev_ind.
    + apply app_inj_tail in Ho as [<- <-]. rewrite Hfi in Hu. injection Hu as <-. apply Hdeps.
      by rewrite (target_deps_static _ (upd_target i f targets) t (f t)).
    + rewrite app_comm_cons, app_assoc in Ho. apply app_inj_tail in Ho as [-> ->].
      assert (j <> x) as Hne by (intros ->; apply Hi, elem_of_app; right; by left).
      rewrite Hfj in Hu by done. eapply H4; [done|done|]. by rewrite (target_deps_static _ (upd_target x f targets) u u).
  - intros j u Hu Hv. destruct (decide (j = i)) as [->|Hj].
    + rewrite Hfi in Hu. injection Hu as <-. done.
    + rewrite Hfj in Hu by done. by eapply H5.
Qed.

(* ------------------------------------------------------------------ *)
(** ** Building *)

Section build.
Context {W : Type} (h : kernel_of W) (rfuel : nat).

(** [r] is an error. *)
Definition failed (r : Z) : Prop := r < 0.
Definition built (build : list target -> nat -> prog (Z * list target)) : Prop :=
  forall targets i order w r targets' w',
    ordered targets order -> run h (build targets i) w = (Returned (r, targets'), w') ->
    same_targets targets targets' /\
    exists new, ordered targets' (order ++ new) /\ (failed r \/ r = 0 /\ i ∈ order ++ new).

Lemma dep_built build targets t dep order w r targets' w' :
  built build -> ordered targets order ->
  run h (check_dependency_range build targets t dep) w = (Returned (r, targets'), w') ->
  same_targets targets targets' /\
  exists new, ordered targets' (order ++ new) /\
    (failed r \/ r = 0 /\ forall j, dep_target targets dep = Some j -> j ∈ order ++ new).
Proof.
  intros Hb Ho. unfold check_dependency_range, check_dependency.
  assert (targets' = targets /\ r = -1 -> same_targets targets targets' /\
    exists new, ordered targets' (order ++ new) /\
      (failed r \/ r = 0 /\ forall j, dep_target targets dep = Some j -> j ∈ order ++ new)) as Hfail.
  { intros [-> ->]. split; [done|]. exists []. rewrite app_nil_r. split; [done|]. by left. }
  destruct (DEP_SIZE <=? length dep)%nat.
  { intros Hr. apply Hfail. by apply run_pbind_inv in Hr as (? & ? & _ & [= <- <- _]). }
  unfold dep_target in *. destruct (hd 0 dep =? 64); cbn [negb].
  - destruct (find_target targets (tail dep)) as [j|] eqn:Hj.
    + intros Hr. destruct (Hb targets j order w r targets' w' Ho Hr) as (Hs & new & Hn & Hres). split; [done|].
      exists new. split; [done|]. destruct Hres as [?|[-> ?]]; [by left|right]. split; [done|]. by intros ? [= <-].
    + intros Hr. apply Hfail. repeat (apply run_pbind_inv in Hr as (? & ? & _ & Hr)). by injection Hr as <- <- _.
  - intros Hr. apply run_pbind_inv in Hr as (v & w1 & Hv & [= <- <- _]). split; [done|].
    exists []. rewrite app_nil_r. split; [done|]. unfold check_file_dependency in Hv.
    apply run_pbind_inv in Hv as (ex & w2 & _ & Hv). destruct ex.
    + injection Hv as <- _. right. by split.
    + left. repeat (apply run_pbind_inv in Hv as (? & ? & _ & Hv)). by injection Hv as <- _.
Qed.

Lemma deps_built build deps targets t order w r targets' w' :
  built build -> ordered targets order ->
  run h (check_deps build targets t deps) w = (Returned (r, targets'), w') ->
  same_targets targets targets' /\
  exists new, ordered targets' (order ++ new) /\
    (failed r \/ r = 0 /\ forall dep j, dep ∈ deps -> dep_target targets dep = Some j -> j ∈ order ++ new).
Proof.
  intros Hb. revert targets order w. induction deps as [|dep deps IH]; intros targets order w Ho Hr; cbn [check_deps] in Hr.
  { injection Hr as <- <- _. split; [done|]. exists []. rewrite app_nil_r. split; [done|]. right. split; [done|].
    by intros dep j Hd%not_elem_of_nil. }
  apply run_pbind_inv in Hr as ([r1 targets1] & w1 & Hr1 & Hr).
  destruct (dep_built build targets t dep order w r1 targets1 w1 Hb Ho Hr1) as (Hs1 & new1 & Ho1 & Hres1).
  destruct (Z.ltb_spec r1 0) as [Hneg|Hpos].
  { injection Hr as <- <- _. split; [done|]. exists new1. split; [done|]. by left. }
  destruct Hres1 as [Hf|[-> Hd1]]; [unfold failed in Hf; lia|].
  destruct (IH targets1 _ w1 Ho1 Hr) as (Hs2 & new2 & Ho2 & Hres2).
  split; [by etransitivity|]. exists (new1 ++ new2). rewrite app_assoc. split; [done|].
  destruct Hres2 as [?|[-> Hd2]]; [by left|right]. split; [done|].
  intros d j Hd Hj. apply elem_of_cons in Hd as [->|Hd].
  - apply elem_of_app. left. by apply Hd1.
  - apply (Hd2 d j Hd). revert Hj. unfold dep_target, find_target.
    by rewrite (find_from_static targets targets1) by apply Hs1.
Qed.

Lemma check_dependencies_built build targets t order w r targets' w' :
  built build -> ordered targets order ->
  run h (check_dependencies build targets t) w = (Returned (r, targets'), w') ->
  same_targets targets targets' /\
  exists new, ordered targets' (order ++ new) /\
    (failed r \/ r = 0 /\ forall j, j ∈ target_deps targets t -> j ∈ order ++ new).
Proof.
  intros Hb Ho. unfold check_dependencies, target_deps, deps_of. destruct (str_eq (t_deps t) NO_DEPS).
  { intros [= <- <- _]. split; [done|]. exists []. rewrite app_nil_r. split; [done|]. right. split; [done|].
    by intros j Hj%not_elem_of_nil. }
  destruct (dep_names (t_deps t)) as [|d deps] eqn:Hd.
  { intros [= <- <- _]. split; [done|]. exists []. rewrite app_nil_r. split; [done|]. by left. }
  intros Hr. destruct (deps_built build (d :: deps) targets t order w r targets' w' Hb Ho Hr) as (Hs & new & Hn & Hres).
  split; [done|]. exists new. split; [done|]. destruct Hres as [?|[-> Hj]]; [by left|right]. split; [done|].
  intros j Hin. apply list_elem_of_omap in Hin as (dep & Hdep & Hjd). by apply (Hj dep).
Qed.

(** After the dependencies of a target: the target is marked and not done. *)
Lemma mark_same targets i t v :
  targets !! i = Some t -> t_visiting t = v ->
  forall targets1, same_targets (upd_target i (set_visiting (negb v)) targets) targets1 ->
  same_targets targets (upd_target i (set_visiting v) targets1).
Proof.
  intros Ht Hv targets1 [H1 H2]. rewrite upd_static in H1 by done. constructor; [by rewrite upd_static|].
  apply list_eq. intros j. rewrite !list_lookup_fmap. unfold upd_target in *.
  assert ((t_visiting <$> alter (set_visiting (negb v)) i targets) !! j = (t_visiting <$> targets1) !! j) as Hj by (by rewrite H2).
  rewrite !list_lookup_fmap in Hj. destruct (decide (j = i)) as [->|Hne].
  - rewrite list_lookup_alter_eq, Ht in *. cbn in *. destruct (targets1 !! i); cbn in *; congruence.
  - by rewrite list_lookup_alter_ne in * by done.
Qed.
Lemma finish_same i targets :
  same_targets (upd_target i (set_visiting false) targets)
    (upd_target i (fun t => set_done true (set_visiting false t)) targets).
Proof.
  constructor; [by rewrite !upd_static|]. apply list_eq. intros j. rewrite !list_lookup_fmap. unfold upd_target.
  destruct (decide (j = i)) as [->|Hne].
  - rewrite !list_lookup_alter_eq. by destruct (targets !! i).
  - by rewrite !list_lookup_alter_ne.
Qed.

Lemma build_target_built fuel : built (build_target fuel rfuel).
Proof.
  induction fuel as [|f IH]; intros targets i order w r targets' w' Ho Hr; [done|]. cbn [build_target] in Hr.
  destruct (targets !! i) as [t|] eqn:Ht; [|done].
  destruct (t_done t) eqn:Hd.
  { injection Hr as <- <- _. split; [done|]. exists []. rewrite app_nil_r. split; [done|]. right. split; [done|].
    by apply (ord_done _ _ Ho i t Ht). }
  destruct (t_visiting t) eqn:Hv.
  { apply run_pbind_inv in Hr as (? & ? & _ & [= <- <- _]). split; [done|]. exists []. rewrite app_nil_r. split; [done|].
    by left. }
  apply run_pbind_inv in Hr as ([r1 targets1] & w1 & Hr1 & Hr).
  pose proof (ordered_mark targets order i t true Ho Ht ltac:(done)) as Hom.
  destruct (check_dependencies_built _ _ _ _ _ _ _ _ IH Hom Hr1) as (Hs1 & new & Ho1 & Hres).
  assert (exists t1, targets1 !! i = Some t1 /\ static t = static t1 /\ t_visiting t1 = true) as (t1 & Ht1 & Hst & Hv1).
  { destruct (same_targets_lookup _ _ i (set_visiting true t) Hs1) as (t1 & Ht1 & Hst & Hv1).
    - unfold upd_target. by rewrite list_lookup_alter_eq, Ht.
    - by exists t1. }
  pose proof (ord_visiting _ _ Ho1 i t1 Ht1 Hv1) as Hd1.
  pose proof (mark_same targets i t false Ht Hv targets1 Hs1) as Hsame.
  assert (forall x w2, run h (put_line (text "BUILD_FAIL ") (t_name t) ;;~
      Done (-1, upd_target i (set_visiting false) targets1)) w2 = (Returned (r, targets'), x) ->
    same_targets targets targets' /\
    exists new, ordered targets' (order ++ new) /\ (failed r \/ r = 0 /\ i ∈ order ++ new)) as Hfail.
  { intros x w2 H. apply run_pbind_inv in H as (? & ? & _ & [= <- <- _]). split; [done|]. exists new.
    split; [by eapply ordered_mark|by left]. }
  destruct (Z.ltb_spec r1 0) as [Hneg|Hpos]; [by eapply Hfail|].
  destruct Hres as [Hf|[-> Hdeps]]; [unfold failed in Hf; lia|].
  assert (forall what x w2, run h (put_line what (t_name t) ;;~
      Done (0, upd_target i (fun t => set_done true (set_visiting false t)) targets1)) w2 = (Returned (r, targets'), x) ->
    same_targets targets targets' /\
    exists new, ordered targets' (order ++ new) /\ (failed r \/ r = 0 /\ i ∈ order ++ new)) as Hok.
  { intros what x w2 H. apply run_pbind_inv in H as (? & ? & _ & [= <- <- _]).
    split; [etransitivity; [exact Hsame|apply finish_same]|]. exists (new ++ [i]). rewrite app_assoc. split.
    - eapply ordered_finish; [done|done|done|]. intros j Hj. apply Hdeps.
      rewrite (target_deps_static _ targets1 t t1); [done| |done]. apply Hs1.
    - right. split; [done|]. apply elem_of_app. right. by left. }
  apply run_pbind_inv in Hr as (cur & w2 & _ & Hr). destruct cur; [by eapply Hok|].
  apply run_pbind_inv in Hr as (st & w3 & _ & Hr). destruct (st =? 0); [by eapply Hok|by eapply Hfail].
Qed.

(** C21: targets are built in the order of their dependencies: whatever the
    kernel answers, [build_target] adds to the targets that are done new ones, each
    behind all the targets it depends on and none twice, the target itself among
    them when it succeeds; names, recipes and marks of visits stay as they are.
    So a target on a cycle is never done. *)
Theorem build_target_ordered fuel targets i order w r targets' w' :
  ordered targets order ->
  run h (build_target fuel rfuel targets i) w = (Returned (r, targets'), w') ->
  same_targets targets targets' /\
  exists new, ordered targets' (order ++ new) /\ (failed r \/ r = 0 /\ i ∈ order ++ new).
Proof. intros Ho Hr. by apply (build_target_built fuel targets i order w r targets' w'). Qed.

(* ------------------------------------------------------------------ *)
(** ** The end of a build *)

(** The targets that are not being visited: the recursion over dependencies is
    no deeper. *)
Definition unvisited (targets : list target) : nat := length (List.filter (fun t => negb (t_visiting t)) targets).
Lemma unvisited_mark targets i t :
  targets !! i = Some t -> t_visiting t = false ->
  unvisited targets = S (unvisited (upd_target i (set_visiting true) targets)).
Proof.
  unfold unvisited, upd_target. revert i. induction targets as [|x targets IH]; intros [|i] Ht Hv; try done.
  - injection Ht as ->. cbn. by rewrite Hv.
  - cbn in Ht. specialize (IH i Ht Hv). cbn. destruct (negb (t_visiting x)); cbn; by rewrite IH.
Qed.
Lemma unvisited_same a b : same_targets a b -> unvisited a = unvisited b.
Proof.
  intros [_ H]. unfold unvisited. revert b H. induction a as [|x a IH]; intros [|y b] H; try done.
  cbn in H. injection H as Hv H. cbn. rewrite Hv. destruct (negb (t_visiting y)); cbn; by rewrite (IH b H).
Qed.

(** What a build does to one target comes to an end. *)
Context (file_ends : forall t path, defined h (check_file_dependency t path)).
Context (current_ends : forall targets t, defined h (target_current rfuel targets t)).
Context (recipe_ends : forall targets t, defined h (run_recipe rfuel targets t)).

(** A run that comes to an end. *)
Definition ends {A} (o : outcome A) : Prop := match o with Returned _ | Gone => True | Undefined | Spinning => False end.
Lemma ends_pbind {A B} (p : prog A) (f : A -> prog B) w :
  ends (fst (run h p w)) -> (forall a w1, run h p w = (Returned a, w1) -> ends (fst (run h (f a) w1))) ->
  ends (fst (run h (pbind p f) w)).
Proof. rewrite run_pbind. intros Hp Hf. destruct (run h p w) as [[a| | |] w1]; [by apply Hf|done..]. Qed.
Lemma ends_put s w : ends (fst (run h (put s) w)).
Proof. unfold put, fd_write_str, fd_write_bytes. rewrite run_call. by destruct (h _ _ w) as [[x|] w1]. Qed.
Lemma ends_put_line a b w : ends (fst (run h (put_line a b) w)).
Proof. unfold put_line. repeat (apply ends_pbind; [apply ends_put|intros ? ? _]). apply ends_put. Qed.

Lemma check_deps_ends build deps targets t order w :
  built build -> ordered targets order ->
  (forall targets1 j order1 w1, same_targets targets targets1 -> ordered targets1 order1 -> is_Some (targets1 !! j) ->
    ends (fst (run h (build targets1 j) w1))) ->
  ends (fst (run h (check_deps build targets t deps) w)).
Proof.
  intros Hb. revert targets order w. induction deps as [|dep deps IH]; intros targets order w Ho Hbuild; [done|].
  cbn [check_deps]. apply ends_pbind.
  - unfold check_dependency_range, check_dependency.
    destruct (DEP_SIZE <=? length dep)%nat; [apply ends_pbind; [apply ends_put_line|done]|].
    destruct (negb (hd 0 dep =? 64)); [apply ends_pbind; [apply file_ends|done]|].
    destruct (find_target targets (tail dep)) as [j|] eqn:Hj.
    + apply find_from_lookup in Hj as (u & _ & Hu). rewrite Nat.sub_0_r in Hu. by eapply Hbuild.
    + repeat (apply ends_pbind; [apply ends_put|intros ? ? _]). done.
  - intros [r1 targets1] w1 Hr1. destruct (r1 <? 0); [done|].
    destruct (dep_built _ _ _ _ _ _ _ _ _ Hb Ho Hr1) as (Hs & new & Ho1 & _).
    eapply IH; [done|]. intros targets2 j order2 w2 Hs2. apply Hbuild. by etransitivity.
Qed.

Lemma build_target_ends fuel targets i order w :
  ordered targets order -> is_Some (targets !! i) -> (unvisited targets < fuel)%nat ->
  ends (fst (run h (build_target fuel rfuel targets i) w)).
Proof.
  revert targets i order w. induction fuel as [|f IH]; intros targets i order w Ho [t Ht] Hfuel; [lia|].
  cbn [build_target]. rewrite Ht. destruct (t_done t) eqn:Hd; [done|].
  destruct (t_visiting t) eqn:Hv; [apply ends_pbind; [apply ends_put_line|done]|].
  pose proof (unvisited_mark targets i t Ht Hv) as Hun.
  pose proof (ordered_mark targets order i t true Ho Ht ltac:(done)) as Hom.
  apply ends_pbind.
  - unfold check_dependencies. destruct (str_eq (t_deps t) NO_DEPS); [done|].
    destruct (dep_names (t_deps t)) as [|d deps]; [done|].
    eapply check_deps_ends; [apply build_target_built|exact Hom|].
    intros targets1 j order1 w1 Hs Ho1 Hj. eapply IH; [done|done|]. rewrite <- (unvisited_same _ _ Hs). lia.
  - intros [r1 targets1] w1 _.
    assert (forall w2, ends (fst (run h (put_line (text "BUILD_FAIL ") (t_name t) ;;~
      Done (-1, upd_target i (set_visiting false) targets1)) w2))) as Hfail
      by (intros w2; apply ends_pbind; [apply ends_put_line|done]).
    destruct (r1 <? 0); [apply Hfail|].
    apply ends_pbind; [apply current_ends|]. intros [|] w2 _; [apply ends_pbind; [apply ends_put_line|done]|].
    apply ends_pbind; [apply recipe_ends|]. intros st w3 _.
    destruct (st =? 0); [apply ends_pbind; [apply ends_put_line|done]|apply Hfail].
Qed.

(** C22: [build_target] comes to an end, cycles or not: the recursion over
    dependencies is no deeper than there are targets, when the work on a single
    target comes to an end. *)
Theorem build_target_terminates targets i order w :
  ordered targets order -> is_Some (targets !! i) ->
  exists o w', run h (build_target (S (length targets)) rfuel targets i) w = (o, w') /\ ends o.
Proof.
  intros Ho Hi. destruct (run h _ w) as [o w'] eqn:Hr. exists o, w'. split; [done|].
  pose proof (build_target_ends (S (length targets)) targets i order w Ho Hi) as He. rewrite Hr in He. apply He.
  unfold unvisited. pose proof (List.filter_length_le (fun t => negb (t_visiting t)) targets). lia.
Qed.
End build.

(* ------------------------------------------------------------------ *)
(** ** Samples *)

(** Nothing is done yet. *)
Definition fresh_target (t : target) : bool := negb (t_done t) && negb (t_visiting t).
Lemma ordered_fresh targets : forallb fresh_target targets = true -> ordered targets [].
Proof.
  intros H. rewrite forallb_forall in H.
  assert (forall i t, targets !! i = Some t -> t_done t = false /\ t_visiting t = false) as Hf.
  { intros i t Ht. apply list_elem_of_lookup_2, list_elem_of_In, H in Ht. unfold fresh_target in Ht.
    by apply andb_true_iff in Ht as [?%negb_true_iff ?%negb_true_iff]. }
  constructor.
  - apply NoDup_nil_2.
  - intros i t Ht. destruct (Hf i t Ht) as [-> _]. split; [done|by intros ?%not_elem_of_nil].
  - by intros i ?%not_elem_of_nil.
  - intros [|? ?] i b t Ho; discriminate Ho.
  - intros i t Ht _. apply (Hf i t Ht).
Qed.

(** A kernel in which every call fails. *)
Definition deny_kernel (X : Type) (e : sysE X) (w : unit) : option X * unit :=
  match e with SysExit _ => (None, w) | _ => (Some (deny e), w) end.
Definition phony (name deps : string) : target :=
  Target (text name) RECIPE_PHONY NO_DEPS NO_DEPS (text "g") (text deps) false false.
(** [all] depends on [lib] and [app], [app] on [lib]. *)
Definition sample_targets : list target := [phony "all" "@app,@lib"; phony "app" "@lib"; phony "lib" "-"].
Definition sample_done : list target := set_done true <$> sample_targets.

Lemma build_target_ordered_witness :
  run deny_kernel (build_target 4 1 sample_targets 0) tt = (Returned (0, sample_done), tt) /\
  same_targets sample_targets sample_done /\
  exists new, ordered sample_done ([] ++ new) /\ (failed 0 \/ 0 = 0 /\ 0%nat ∈ [] ++ new).
Proof.
  split; [by vm_compute|].
  apply (build_target_ordered deny_kernel 1 4 sample_targets 0 [] tt 0 sample_done tt).
  - by apply ordered_fresh.
  - by vm_compute.
Defined.

Lemma deny_file_ends t path : defined deny_kernel (check_file_dependency t path).
Proof. by intros []. Qed.
Lemma deny_current_ends targets t : defined deny_kernel (target_current 1 targets t).
Proof. intros []. unfold target_current. by destruct (str_eq (t_recipe t) RECIPE_PHONY). Qed.
Lemma deny_recipe_ends targets t : defined deny_kernel (run_recipe 1 targets t).
Proof.
  intros []. unfold run_recipe.
  destruct (str_eq (t_recipe t) RECIPE_CC); [done|]. destruct (str_eq (t_recipe t) RECIPE_COPY); [done|].
  by destruct (str_eq (t_recipe t) RECIPE_PHONY).
Qed.
(** Two targets that depend on each other. *)
Definition sample_cycle : list target := [phony "a" "@b"; phony "b" "@a"].
Lemma build_target_terminates_witness :
  ordered sample_cycle [] /\
  exists o w', run deny_kernel (build_target 3 1 sample_cycle 0) tt = (o, w') /\ ends o.
Proof.
  split; [by apply ordered_fresh|].
  apply (build_target_terminates deny_kernel 1 deny_file_ends deny_current_ends deny_recipe_ends sample_cycle 0 [] tt).
  - by apply ordered_fresh.
  - by eexists.
Defined.
