(* ===== verification/Drivers.v ===== *)
(** The drivers of [src/user] that start the compilers: [as], [ld], [cc], [cpp],
    [gcc] and [myos-gcc], as programs over the system calls of [Prog.v].

    [argv] is the list of the arguments, the program's name first, [envp] the
    environment that is passed on.  A null pointer is [None].  What follows a
    call of [usage] is what the code does when [exit] comes back. *)

From S2P Require Import Prelude Prog Tools TextTools.

(* ------------------------------------------------------------------ *)
(** ** Argument arrays *)

(** [MAX_TOOL_ARGS] of [as] and [ld]; of [cc], [cpp] and [gcc]; of [myos-gcc]. *)
Definition MAX_TOOL_ARGS : nat := 32.
Definition MAX_CC_ARGS : nat := 64.
Definition MAX_GCC_ARGS : nat := 96.

(** The [argv] that is built, of [max] entries with the null at its end; [None]
    when it is full. *)
Definition append_arg (max : nat) (out : list (list Z)) (a : list Z) : option (list (list Z)) :=
  if (max - 1 <=? length out)%nat then None else Some (out ++ [a]).

(** [if (append_arg(out, a) < 0) fail;] *)
Definition append_or (max : nat) (fail : prog unit) (out : list (list Z)) (a : list Z) : prog (list (list Z)) :=
  match append_arg max out a with
  | Some out' => Done out'
  | None => fail ;;~ Done out
  end.
(** [if (append_arg(out, a) < 0 || append_arg(out, b) < 0) fail;] *)
Definition append_or2 (max : nat) (fail : prog unit) (out : list (list Z)) (a b : list Z) : prog (list (list Z)) :=
  match append_arg max out a with
  | Some out' => append_or max fail out' b
  | None => fail ;;~ Done out
  end.
(** [for (i = 1; i < argc; i++) if (append_arg(out, argv[i]) < 0) fail;] *)
Fixpoint append_args (max : nat) (fail : prog unit) (out args : list (list Z)) : prog (list (list Z)) :=
  match args with
  | [] => Done out
  | a :: args' => do! out := append_or max fail out a in append_args max fail out args'
  end.

Definition usage (what : list Z) : prog unit := fd_write_str STDERR_FD what ;;~ exit_with 1.
Definition exec_tool (path : list Z) (argv envp : list (list Z)) : prog unit :=
  call (SysExec path argv envp) ;;~ Done tt.
(** [arg[0] == '-'], and comparisons with several strings. *)
Definition dash (a : list Z) : bool := match a with c :: _ => c =? 45 | [] => false end.
Definition eq_any (a : list Z) (l : list (list Z)) : bool := existsb (str_eq a) l.
Definition starts_any (a : list Z) (l : list (list Z)) : bool := existsb (starts_with a) l.
(** [-oFILE] *)
Definition joined_output (a : list Z) : bool := starts_with a (text "-o") && (2 <? length a)%nat.

(* ------------------------------------------------------------------ *)
(** ** as *)

Definition as_usage : prog unit := usage (text "usage: as [options] file.s -o file.o" ++ [10]).
Definition skip_as_flag (a : list Z) : bool :=
  eq_any a (text <$> ["--64"; "-mno-relax"; "--no-relax"; "--fatal-warnings"; "--noexecstack"; "-g"]%string) ||
  starts_any a (text <$> ["-g"; "-march="; "-mabi="]%string).

(** [input], [output] and [tcc_argv]. *)
Record tool_st := ToolSt { t_input : option (list Z); t_out : option (list Z); t_argv : list (list Z) }.
Definition set_t_argv (v : list (list Z)) (s : tool_st) : tool_st := ToolSt (t_input s) (t_out s) v.
Definition set_t_out (v : option (list Z)) (s : tool_st) : tool_st := ToolSt (t_input s) v (t_argv s).
Definition set_t_input (v : option (list Z)) (s : tool_st) : tool_st := ToolSt v (t_out s) (t_argv s).

(** [<tool>: unsupported option <arg>], and the exit. *)
Definition unsupported (tool a : list Z) : prog unit :=
  complain (tool ++ text ": unsupported option ") a ;;~ exit_with 1.

(** The second loop of [main] from the arguments that are left. *)
Fixpoint as_loop (args : list (list Z)) (s : tool_st) : prog tool_st :=
  match args with
  | [] => Done s
  | a :: args' =>
      if str_eq a (text "-o") then
        match args' with
        | v :: args'' => as_loop args'' (set_t_out (Some v) s)
        | [] => as_usage ;;~ Done (set_t_out None s)
        end
      else if joined_output a then as_loop args' (set_t_out (Some (drop 2 a)) s)
      else if str_eq a (text "-I") then
        match args' with
        | v :: args'' =>
            match append_arg MAX_TOOL_ARGS (t_argv s) a with
            | Some out =>
                do! out := append_or MAX_TOOL_ARGS as_usage out v in as_loop args'' (set_t_argv out s)
            | None => as_usage ;;~ as_loop args' s
            end
        | [] => as_usage ;;~ Done s
        end
      else if starts_with a (text "-I") then
        do! out := append_or MAX_TOOL_ARGS as_usage (t_argv s) a in as_loop args' (set_t_argv out s)
      else if dash a && skip_as_flag a then as_loop args' s
      else
        (if dash a then unsupported (text "as") a else Done tt) ;;~
        (if t_input s then
           fd_write_str STDERR_FD (text "as: only one input file is supported" ++ [10]) ;;~ exit_with 1
         else Done tt) ;;~
        as_loop args' (set_t_input (Some a) s)
  end.

(** [if (output) { append "-o", output }]. *)
Definition append_output (fail : prog unit) (output : option (list Z)) (out : list (list Z)) : prog (list (list Z)) :=
  match output with
  | Some o => append_or2 MAX_TOOL_ARGS fail out (text "-o") o
  | None => Done out
  end.
Definition as_main (argv envp : list (list Z)) : prog unit :=
  do! gnu_argv := append_or MAX_TOOL_ARGS as_usage [] (text "/bin/myos-as") in
  do! gnu_argv := append_args MAX_TOOL_ARGS as_usage gnu_argv (tail argv) in
  exec_tool (text "/bin/myos-as") gnu_argv envp ;;~
  do! s := as_loop (tail argv) (ToolSt None None [text "/bin/tcc"; text "-c"]) in
  (if t_input s then Done tt else as_usage) ;;~
  match t_input s with
  | None => Undef
  | Some input =>
      do! out := append_or MAX_TOOL_ARGS as_usage (t_argv s) input in
      do! out := append_output as_usage (t_out s) out in
      exec_tool (text "/bin/tcc") out envp ;;~
      fd_write_str STDERR_FD (text "as: cannot exec /bin/tcc" ++ [10]) ;;~
      exit_with (-1)
  end.

(* ------------------------------------------------------------------ *)
(** ** ld *)

Definition ld_usage : prog unit := usage (text "usage: ld [-r] [-o output] file.o ..." ++ [10]).
Definition option_takes_value (a : list Z) : bool :=
  eq_any a (text <$> ["-e"; "-m"; "-T"; "-Map"; "--oformat"; "--dynamic-linker"]%string).
Definition skip_ld_flag (a : list Z) : bool :=
  eq_any a (text <$> ["-static"; "-nostdlib"; "--gc-sections"; "--eh-frame-hdr"; "--as-needed";
                      "--no-as-needed"; "--start-group"; "--end-group"; "-s"]%string) ||
  starts_any a (text <$> ["--build-id"; "--hash-style"; "-melf"]%string).

(** The second loop of [main]; [n] is [input_count]. *)
Fixpoint ld_loop (args : list (list Z)) (s : tool_st) (n : nat) : prog (tool_st * nat) :=
  match args with
  | [] => Done (s, n)
  | a :: args' =>
      if str_eq a (text "-o") then
        match args' with
        | v :: args'' => ld_loop args'' (set_t_out (Some v) s) n
        | [] => ld_usage ;;~ Done (set_t_out None s, n)
        end
      else if joined_output a then ld_loop args' (set_t_out (Some (drop 2 a)) s) n
      else if str_eq a (text "-r") then
        do! out := append_or MAX_TOOL_ARGS ld_usage (t_argv s) a in ld_loop args' (set_t_argv out s) n
      else if str_eq a (text "-L") || str_eq a (text "-l") then
        match args' with
        | v :: args'' =>
            match append_arg MAX_TOOL_ARGS (t_argv s) a with
            | Some out =>
                do! out := append_or MAX_TOOL_ARGS ld_usage out v in ld_loop args'' (set_t_argv out s) n
            | None => ld_usage ;;~ ld_loop args' s n
            end
        | [] => ld_usage ;;~ Done (s, n)
        end
      else if starts_with a (text "-L") || starts_with a (text "-l") then
        do! out := append_or MAX_TOOL_ARGS ld_usage (t_argv s) a in ld_loop args' (set_t_argv out s) n
      else if option_takes_value a then
        match args' with
        | _ :: args'' => ld_loop args'' s n
        | [] => ld_usage ;;~ Done (s, n)
        end
      else if dash a && skip_ld_flag a then ld_loop args' s n
      else
        (if dash a then unsupported (text "ld") a else Done tt) ;;~
        do! out := append_or MAX_TOOL_ARGS ld_usage (t_argv s) a in
        ld_loop args' (set_t_argv out s) (S n)
  end.
Definition ld_main (argv envp : list (list Z)) : prog unit :=
  do! gnu_argv := append_or MAX_TOOL_ARGS ld_usage [] (text "/bin/myos-ld") in
  do! gnu_argv := append_args MAX_TOOL_ARGS ld_usage gnu_argv (tail argv) in
  exec_tool (text "/bin/myos-ld") gnu_argv envp ;;~
  do! '(s, n) := ld_loop (tail argv) (ToolSt None None [text "/bin/tcc"]) 0 in
  (if (n =? 0)%nat then ld_usage else Done tt) ;;~
  do! out := append_output ld_usage (t_out s) (t_argv s) in
  exec_tool (text "/bin/tcc") out envp ;;~
  fd_write_str STDERR_FD (text "ld: cannot exec /bin/tcc" ++ [10]) ;;~
  exit_with (-1).

(* ------------------------------------------------------------------ *)
(** ** cc, cpp and gcc *)

(** An option that prints a text and exits. *)
Fixpoint answer_option (a : list Z) (answers : list (list Z * list Z)) : prog unit :=
  match answers with
  | [] => Done tt
  | (o, t) :: answers' =>
      (if str_eq a o then fd_write_str STDOUT_FD t ;;~ exit_with 0 else Done tt) ;;~
      answer_option a answers'
  end.
(** The loop of [main] that copies the arguments; the size of the list tells
    [user_argc]. *)
Fixpoint copy_args (answers : list (list Z * list Z)) (tool : list Z) (args out : list (list Z)) :
    prog (list (list Z)) :=
  match args with
  | [] => Done out
  | a :: args' =>
      answer_option a answers ;;~
      do! out := append_or MAX_CC_ARGS
        (fd_write_str STDERR_FD (tool ++ text ": too many arguments" ++ [10]) ;;~ exit_with 1) out a in
      copy_args answers tool args' out
  end.

Definition cc_answers : list (list Z * list Z) :=
  [(text "--version", text "cc: MyOS system C compiler slot, currently backed by tcc" ++ [10])].
Definition cc_usage : prog unit := usage (text "usage: cc [options] file..." ++ [10]).
Definition cc_main (argv envp : list (list Z)) : prog unit :=
  do! out := append_or MAX_CC_ARGS cc_usage [] (text "/bin/tcc") in
  do! out := copy_args cc_answers (text "cc") (tail argv) out in
  (if (length (tail argv) =? 0)%nat then cc_usage else Done tt) ;;~
  exec_tool (text "/bin/tcc") out envp ;;~
  fd_write_str STDERR_FD (text "cc: cannot exec /bin/tcc" ++ [10]) ;;~
  exit_with (-1).

Definition cpp_usage : prog unit := usage (text "usage: cpp [options] file..." ++ [10]).
Definition cpp_main (argv envp : list (list Z)) : prog unit :=
  (if (length argv =? 2)%nat && str_eq (arg argv 1) (text "--version") then
     fd_write_str STDOUT_FD (text "cpp: MyOS C preprocessor slot" ++ [10]) ;;~ exit_with 0
   else Done tt) ;;~
  do! out := append_or2 MAX_CC_ARGS cpp_usage [] (text "/bin/myos-gcc") (text "-E") in
  do! out := append_args MAX_CC_ARGS cpp_usage out (tail argv) in
  exec_tool (text "/bin/myos-gcc") out envp ;;~
  do! out := append_or2 MAX_CC_ARGS cpp_usage [] (text "/bin/tcc") (text "-E") in
  do! out := append_args MAX_CC_ARGS cpp_usage out (tail argv) in
  exec_tool (text "/bin/tcc") out envp ;;~
  fd_write_str STDERR_FD (text "cpp: cannot exec /bin/tcc" ++ [10]) ;;~
  exit_with (-1).

Definition gcc_answers : list (list Z * list Z) :=
  [(text "--version", text "gcc: MyOS GCC driver slot, currently backed by /bin/cc" ++ [10]);
   (text "-print-prog-name=as", text "/bin/as" ++ [10]);
   (text "-print-prog-name=ld", text "/bin/ld" ++ [10]);
   (text "-print-prog-name=cpp", text "/bin/cpp" ++ [10])].
Definition gcc_usage : prog unit := usage (text "usage: gcc [options] file..." ++ [10]).
Definition gcc_main (argv envp : list (list Z)) : prog unit :=
  do! out := append_or MAX_CC_ARGS gcc_usage [] (text "/bin/myos-gcc") in
  do! out := append_args MAX_CC_ARGS gcc_usage out (tail argv) in
  exec_tool (text "/bin/myos-gcc") out envp ;;~
  do! out := append_or MAX_CC_ARGS gcc_usage [] (text "/bin/cc") in
  do! out := copy_args gcc_answers (text "gcc") (tail argv) out in
  (if (length (tail argv) =? 0)%nat then gcc_usage else Done tt) ;;~
  exec_tool (text "/bin/cc") out envp ;;~
  fd_write_str STDERR_FD (text "gcc: cannot exec /bin/cc" ++ [10]) ;;~
  exit_with (-1).
