(* ===== verification/GccDriver.v ===== *)
(** [myos-gcc] of [src/user/myos-gcc.c]: the driver that runs the compiler, the
    assembler and the linker, as a program over the system calls of [Prog.v]. *)

From S2P Require Import Prelude Prog Tools TextTools Drivers.

(* ------------------------------------------------------------------ *)
(** ** Arguments and names *)

Definition MAX_INPUTS : nat := 16.
Definition MAX_EXTRAS : nat := 32.

(** [items] with [item_kinds]. *)
Inductive item_kind := ITEM_INPUT | ITEM_LINK_ARG.
#[global] Instance item_kind_eq_dec : EqDecision item_kind.
Proof. solve_decision. Defined.

Definition has_suffix (s suffix : list Z) : bool :=
  if (length s <? length suffix)%nat then false else str_eq (drop (length s - length suffix) s) suffix.

Definition append_item (items : list (list Z * item_kind)) (a : list Z) (kind : item_kind) :
    option (list (list Z * item_kind)) :=
  if (MAX_GCC_ARGS - 1 <=? length items)%nat then None else Some (items ++ [(a, kind)]).

(** The pieces of [p] between the commas: the code cuts the argument where it
    lies.  A comma at the end has no piece behind it. *)
Fixpoint take_piece (p : list Z) : list Z * list Z :=
  match p with
  | [] => ([], [])
  | c :: p' => if c =? 44 then ([], p') else let '(a, q) := take_piece p' in (c :: a, q)
  end.
(** The outer loop; whether all the pieces were put into [items]. *)
Fixpoint wl_loop (fuel : nat) (p : list Z) (items : list (list Z * item_kind)) :
    bool * list (list Z * item_kind) :=
  match p, fuel with
  | [], _ | _, O => (true, items)
  | _, S f =>
      let '(a, q) := take_piece p in
      match append_item items a ITEM_LINK_ARG with
      | None => (false, items)
      | Some items' => wl_loop f q items'
      end
  end.
Definition append_wl_items (a : list Z) (items : list (list Z * item_kind)) : bool * list (list Z * item_kind) :=
  let p := drop 4 a in
  match p with [] => (false, items) | _ => wl_loop (length p) p items end.

(** The digits of an index below 100. *)
Definition index_digits (index : nat) : list Z :=
  let i := Z.of_nat index in
  (if 10 <=? i then [48 + i / 10] else []) ++ [48 + i mod 10].
Definition temp_obj_name (index : nat) : list Z := text "__myosgcc" ++ index_digits index ++ text ".o".
Definition temp_asm_name (index : nat) : list Z := text "__myosgccS" ++ index_digits index ++ text ".s".

(** What follows the last slash. *)
Fixpoint base_loop (p base : list Z) : list Z :=
  match p with
  | [] => base
  | c :: p' => base_loop p' (if c =? 47 then p' else base)
  end.
Definition default_obj_name (input : list Z) : list Z :=
  let base := base_loop input input in
  let len := length base in
  let end_ :=
    if (2 <? len)%nat && (default 0 (base !! (len - 2)%nat) =? 46) then (len - 2)%nat else len in
  take (Nat.min end_ 58) base ++ text ".o".

(* ------------------------------------------------------------------ *)
(** ** Running the tools *)

Definition run_program (argv envp : list (list Z)) : prog Z :=
  do! pid := call SysFork in
  if s32 pid <? 0 then Done (-1)
  else
    (if s32 pid =? 0 then call (SysExec (arg argv 0) argv envp) ;;~ exit_with (-1) else Done tt) ;;~
    do! r := call SysWait in
    if s32 (fst r) <? 0 then Done (-1) else Done (default (-1) (snd r)).

(** [append_arg] for each argument, and [return -1] when one does not fit. *)
Fixpoint append_all (out args : list (list Z)) : option (list (list Z)) :=
  match args with
  | [] => Some out
  | a :: args' => match append_arg MAX_GCC_ARGS out a with Some out => append_all out args' | None => None end
  end.
Definition run_tool (args envp : list (list Z)) : prog Z :=
  match append_all [] args with
  | Some argv => run_program argv envp
  | None => Done (-1)
  end.

Definition compile_args (input output : list Z) (c_flags : list (list Z)) : list (list Z) :=
  [text "/bin/tcc"; text "-c"] ++ c_flags ++ [input; text "-o"; output].
Definition compile_c (input output : list Z) (c_flags envp : list (list Z)) : prog Z :=
  run_tool (compile_args input output c_flags) envp.
Definition preprocess_args (input output : list Z) (c_flags : list (list Z)) : list (list Z) :=
  [text "/bin/tcc"; text "-E"] ++ c_flags ++ [input; text "-o"; output].
Definition preprocess_asm (input output : list Z) (c_flags envp : list (list Z)) : prog Z :=
  run_tool (preprocess_args input output c_flags) envp.
Definition as_args (input output : list Z) : list (list Z) := [text "/bin/myos-as"; input; text "-o"; output].
Definition run_as (input output : list Z) (envp : list (list Z)) : prog Z := run_tool (as_args input output) envp.

Definition assemble_s (input output : list Z) (index : nat) (c_flags envp : list (list Z)) : prog Z :=
  if negb (has_suffix input (text ".S")) then run_as input output envp
  else
    let temp_asm := temp_asm_name index in
    do! status := preprocess_asm input temp_asm c_flags envp in
    if negb (status =? 0) then call (SysUnlink temp_asm) ;;~ Done status
    else
      do! status := run_as temp_asm output envp in
      call (SysUnlink temp_asm) ;;~
      Done status.

Definition preprocess_inputs (inputs : list (list Z)) (output : option (list Z)) (c_flags envp : list (list Z)) : prog Z :=
  run_tool ([text "/bin/tcc"; text "-E"] ++ c_flags ++ inputs ++
            match output with Some o => [text "-o"; o] | None => [] end) envp.

Definition link_line (link_args : list (list Z)) (nostartfiles nodefaultlibs : bool) (output : list Z) : list (list Z) :=
  [text "/bin/myos-ld"] ++
  (if nostartfiles then [] else [text "/lib/crt1.o"; text "/lib/crti.o"]) ++
  link_args ++
  (if nodefaultlibs then [] else [text "--start-group"; text "-lc"; text "-lgcc"; text "--end-group"]) ++
  (if nostartfiles then [] else [text "/lib/crtn.o"]) ++
  [text "-o"; output].
Definition link_objects (link_args : list (list Z)) (nostartfiles nodefaultlibs : bool) (output : list Z)
    (envp : list (list Z)) : prog Z :=
  run_tool (link_line link_args nostartfiles nodefaultlibs output) envp.

(* ------------------------------------------------------------------ *)
(** ** The options *)

(** The variables of [main] that its first loop sets. *)
Record gcc_st := GccSt {
  g_inputs : list (list Z);
  g_items : list (list Z * item_kind);
  g_flags : list (list Z);
  g_output : option (list Z);
  g_compile_only : bool;
  g_preprocess_only : bool;
  g_nostartfiles : bool;
  g_nodefaultlibs : bool;
  g_verbose : bool;
}.
Definition gcc_st0 : gcc_st := GccSt [] [] [] None false false false false false.
Definition set_g_inputs v (s : gcc_st) : gcc_st :=
  GccSt v (g_items s) (g_flags s) (g_output s) (g_compile_only s) (g_preprocess_only s) (g_nostartfiles s) (g_nodefaultlibs s) (g_verbose s).
Definition set_g_items v (s : gcc_st) : gcc_st :=
  GccSt (g_inputs s) v (g_flags s) (g_output s) (g_compile_only s) (g_preprocess_only s) (g_nostartfiles s) (g_nodefaultlibs s) (g_verbose s).
Definition add_g_flags v (s : gcc_st) : gcc_st :=
  GccSt (g_inputs s) (g_items s) (g_flags s ++ v) (g_output s) (g_compile_only s) (g_preprocess_only s) (g_nostartfiles s) (g_nodefaultlibs s) (g_verbose s).
Definition set_g_output v (s : gcc_st) : gcc_st :=
  GccSt (g_inputs s) (g_items s) (g_flags s) v (g_compile_only s) (g_preprocess_only s) (g_nostartfiles s) (g_nodefaultlibs s) (g_verbose s).
Definition set_g_compile (s : gcc_st) : gcc_st :=
  GccSt (g_inputs s) (g_items s) (g_flags s) (g_output s) true (g_preprocess_only s) (g_nostartfiles s) (g_nodefaultlibs s) (g_verbose s).
Definition set_g_preprocess (s : gcc_st) : gcc_st :=
  GccSt (g_inputs s) (g_items s) (g_flags s) (g_output s) (g_compile_only s) true (g_nostartfiles s) (g_nodefaultlibs s) (g_verbose s).
Definition set_g_no (start libs : bool) (s : gcc_st) : gcc_st :=
  GccSt (g_inputs s) (g_items s) (g_flags s) (g_output s) (g_compile_only s) (g_preprocess_only s)
    (start || g_nostartfiles s) (libs || g_nodefaultlibs s) (g_verbose s).
Definition set_g_verbose (s : gcc_st) : gcc_st :=
  GccSt (g_inputs s) (g_items s) (g_flags s) (g_output s) (g_compile_only s) (g_preprocess_only s) (g_nostartfiles s) (g_nodefaultlibs s) true.

Definition myos_gcc_usage : prog unit := usage (text "usage: myos-gcc [-c] [-o output] file..." ++ [10]).
Definition version_line : list Z :=
  text "myos-gcc: experimental driver using /bin/tcc, /bin/myos-as, /bin/myos-ld" ++ [10].
Definition line (s : string) : list Z := text s ++ [10].
Definition version_answer : list (list Z * list Z) := [(text "--version", version_line)].
(** The options that print a text and exit. *)
Definition myos_gcc_answers : list (list Z * list Z) :=
  [(text "-dumpmachine", line "riscv64-unknown-elf");
   (text "-dumpversion", line "13.2.0"); (text "-dumpfullversion", line "13.2.0");
   (text "-print-sysroot", line "/");
   (text "-print-search-dirs", line "install: /" ++ line "programs: =/bin" ++ line "libraries: =/lib");
   (text "-print-multi-directory", line ".");
   (text "-print-multi-lib", line ".;");
   (text "-print-prog-name=as", line "/bin/myos-as");
   (text "-print-prog-name=ld", line "/bin/myos-ld");
   (text "-print-prog-name=cpp", line "/bin/cpp");
   (text "-print-prog-name=ar", line "/bin/myos-ar");
   (text "-print-prog-name=ranlib", line "/bin/myos-ranlib");
   (text "-print-libgcc-file-name", line "/lib/libgcc.a"); (text "-print-file-name=libgcc.a", line "/lib/libgcc.a");
   (text "-print-file-name=libc.a", line "/lib/libc.a");
   (text "-print-file-name=crt1.o", line "/lib/crt1.o");
   (text "-print-file-name=crti.o", line "/lib/crti.o");
   (text "-print-file-name=crtn.o", line "/lib/crtn.o");
   (text "-print-file-name=include", line "/include")].

(** [if (append_item(...) < 0) usage();] *)
Definition item_or (s : gcc_st) (a : list Z) (kind : item_kind) : prog gcc_st :=
  match append_item (g_items s) a kind with
  | Some items => Done (set_g_items items s)
  | None => myos_gcc_usage ;;~ Done s
  end.
Definition ignored_option (a : list Z) : bool :=
  str_eq a (text "-g") || starts_any a (text <$> ["-O"; "-W"; "-f"; "-m"; "-std="]%string) || str_eq a (text "-static").

(** The flags without a value. *)
Definition gcc_flag (a : list Z) : option (gcc_st -> gcc_st) :=
  if str_eq a (text "-c") then Some set_g_compile
  else if str_eq a (text "-E") then Some set_g_preprocess
  else if str_eq a (text "-nostdlib") then Some (set_g_no true true)
  else if str_eq a (text "-nostartfiles") then Some (set_g_no true false)
  else if str_eq a (text "-nodefaultlibs") then Some (set_g_no false true)
  else None.
(** An input file.  A write behind the end of [inputs] needs a [usage] that
    returns. *)
Definition gcc_input (a : list Z) (s : gcc_st) : prog gcc_st :=
  if (MAX_INPUTS <=? length (g_inputs s))%nat then myos_gcc_usage ;;~ Undef
  else item_or (set_g_inputs (g_inputs s ++ [a]) s) a ITEM_INPUT.
(** One or two entries of [c_flags]. *)
Definition gcc_cflags (l : list (list Z)) (s : gcc_st) : prog gcc_st :=
  if (MAX_EXTRAS <? length (g_flags s) + length l)%nat then myos_gcc_usage ;;~ Undef
  else Done (add_g_flags l s).

(** The first loop of [main] from the arguments that are left. *)
Fixpoint gcc_options (args : list (list Z)) (s : gcc_st) : prog gcc_st :=
  match args with
  | [] => Done s
  | a :: args' =>
      answer_option a version_answer ;;~
      if str_eq a (text "-v") then
        fd_write_str STDERR_FD version_line ;;~ gcc_options args' (set_g_verbose s)
      else
        answer_option a myos_gcc_answers ;;~
        match gcc_flag a with
        | Some f => gcc_options args' (f s)
        | None =>
            if str_eq a (text "-r") then
              do! s := item_or (set_g_no true true s) a ITEM_LINK_ARG in gcc_options args' s
            else if str_eq a (text "-o") then
              match args' with
              | v :: args'' => gcc_options args'' (set_g_output (Some v) s)
              | [] => myos_gcc_usage ;;~ Done (set_g_output None s)
              end
            else if joined_output a then gcc_options args' (set_g_output (Some (drop 2 a)) s)
            else if eq_any a (text <$> ["-I"; "-D"; "-U"; "-include"; "-isystem"]%string) then
              match args' with
              | v :: args'' => do! s := gcc_cflags [a; v] s in gcc_options args'' s
              | [] => myos_gcc_usage ;;~ Undef
              end
            else if starts_any a (text <$> ["-I"; "-D"; "-U"; "-include"; "-isystem"]%string) then
              do! s := gcc_cflags [a] s in gcc_options args' s
            else if str_eq a (text "-nostdinc") then
              do! s := gcc_cflags [a] s in gcc_options args' s
            else if str_eq a (text "-L") || str_eq a (text "-l") then
              match args' with
              | v :: args'' =>
                  match append_item (g_items s) a ITEM_LINK_ARG with
                  | Some items =>
                      do! s := item_or (set_g_items items s) v ITEM_LINK_ARG in gcc_options args'' s
                  | None => myos_gcc_usage ;;~ gcc_options args' s
                  end
              | [] => myos_gcc_usage ;;~ Done s
              end
            else if starts_with a (text "-L") || starts_with a (text "-l") then
              do! s := item_or s a ITEM_LINK_ARG in gcc_options args' s
            else if starts_with a (text "-Wl,") then
              let '(ok, items) := append_wl_items a (g_items s) in
              (if ok : bool then Done tt else myos_gcc_usage) ;;~ gcc_options args' (set_g_items items s)
            else if str_eq a (text "-Xlinker") then
              match args' with
              | v :: args'' => do! s := item_or s v ITEM_LINK_ARG in gcc_options args'' s
              | [] => myos_gcc_usage ;;~ Done s
              end
            else if dash a && ignored_option a then gcc_options args' s
            else
              (if dash a then unsupported (text "myos-gcc") a else Done tt) ;;~
              do! s := gcc_input a s in gcc_options args' s
        end
  end.

(* ------------------------------------------------------------------ *)
(** ** main *)

(** The loop over [inputs] with [-c] at index [i]; [None] for a [status] that has
    no value yet. *)
Fixpoint compile_loop (inputs : list (list Z)) (i : nat) (status : option Z) (output : option (list Z))
    (c_flags envp : list (list Z)) : prog (option Z) :=
  match inputs with
  | [] => Done status
  | input :: inputs' =>
      let obj_output := default (default_obj_name input) output in
      do! status :=
        (if has_suffix input (text ".c") then compile_c input obj_output c_flags envp
         else if has_suffix input (text ".s") || has_suffix input (text ".S") then
           assemble_s input obj_output i c_flags envp
         else complain (text "myos-gcc: unsupported -c input ") input ;;~ Done 1) in
      (if negb (status =? 0) then exit_with status else Done tt) ;;~
      compile_loop inputs' (S i) (Some status) output c_flags envp
  end.

(** [if (append_arg(link_args, ...) < 0) usage();] *)
Definition link_arg_or (link_args : list (list Z)) (a : list Z) : prog (list (list Z)) :=
  append_or MAX_GCC_ARGS myos_gcc_usage link_args a.
(** The loop over [items]; the number of [temps] is [temp_count]. *)
Fixpoint item_loop (items : list (list Z * item_kind)) (link_args temps c_flags envp : list (list Z)) :
    prog (list (list Z) * list (list Z)) :=
  match items with
  | [] => Done (link_args, temps)
  | (input, kind) :: items' =>
      if bool_decide (kind = ITEM_LINK_ARG) || has_suffix input (text ".o") || has_suffix input (text ".a") then
        do! link_args := link_arg_or link_args input in item_loop items' link_args temps c_flags envp
      else
        let temp := temp_obj_name (length temps) in
        let made (status : Z) : prog (list (list Z)) :=
          (if negb (status =? 0) then exit_with status else Done tt) ;;~ link_arg_or link_args temp in
        if has_suffix input (text ".c") then
          do! status := compile_c input temp c_flags envp in
          do! link_args := made status in item_loop items' link_args (temps ++ [temp]) c_flags envp
        else if has_suffix input (text ".s") || has_suffix input (text ".S") then
          do! status := assemble_s input temp (length temps) c_flags envp in
          do! link_args := made status in item_loop items' link_args (temps ++ [temp]) c_flags envp
        else
          complain (text "myos-gcc: unsupported input ") input ;;~ exit_with 1 ;;~
          item_loop items' link_args temps c_flags envp
  end.
Fixpoint unlink_all (names : list (list Z)) : prog unit :=
  match names with
  | [] => Done tt
  | n :: names' => call (SysUnlink n) ;;~ unlink_all names'
  end.

(** The output when the inputs are linked; null is [a.out], but with [-c]. *)
Definition link_output (s : gcc_st) : option (list Z) :=
  match g_output s with Some o => Some o | None => if g_compile_only s then None else Some (text "a.out") end.
Definition one_output (only : bool) (s : gcc_st) (message : string) : prog unit :=
  if only && bool_decide (is_Some (g_output s)) && negb (length (g_inputs s) =? 1)%nat then
    fd_write_str STDERR_FD (line message) ;;~ exit_with 1
  else Done tt.
Definition myos_gcc_main (argv envp : list (list Z)) : prog unit :=
  do! s := gcc_options (tail argv) gcc_st0 in
  (if (length (g_inputs s) =? 0)%nat then
     (if g_verbose s then exit_with 0 else Done tt) ;;~ myos_gcc_usage
   else Done tt) ;;~
  one_output (g_compile_only s) s "myos-gcc: cannot specify -o with multiple -c inputs" ;;~
  one_output (g_preprocess_only s) s "myos-gcc: cannot specify -o with multiple -E inputs" ;;~
  (if g_preprocess_only s then
     do! status := preprocess_inputs (g_inputs s) (g_output s) (g_flags s) envp in exit_with status
   else Done tt) ;;~
  (if g_compile_only s then
     do! status := compile_loop (g_inputs s) 0 None (g_output s) (g_flags s) envp in
     match status with None => Undef | Some status => exit_with status end
   else Done tt) ;;~
  do! '(link_args, temps) := item_loop (g_items s) [] [] (g_flags s) envp in
  match link_output s with
  | None => Undef
  | Some output =>
      do! status := link_objects link_args (g_nostartfiles s) (g_nodefaultlibs s) output envp in
      unlink_all temps ;;~
      exit_with status
  end.
