(* ===== verification/GccSpec.v ===== *)
(** What [myos-gcc] runs: the tools for the files of its command line in their
    order, up to the first one that fails, and then the linker, against a kernel
    that runs the child of a [fork] before the parent goes on. *)

From S2P Require Import Prelude Prog Tools TextTools Drivers GccDriver.

(* ------------------------------------------------------------------ *)
(** ** Runs with children *)

(** [s_ran]: the programs that were started; [s_removed]: the files that were
    unlinked; [s_ended]: the status of the process that ended last and was not
    waited for. *)
Record shop := Shop { s_ran : list (list (list Z)); s_removed : list (list Z); s_ended : option Z }.
Definition shop0 : shop := Shop [] [] None.
Definition shop_add (jobs : list (list (list Z))) (removed : list (list Z)) (w : shop) : shop :=
  Shop (s_ran w ++ jobs) (s_removed w ++ removed) (s_ended w).
Definition shop_end (status : option Z) (w : shop) : shop := Shop (s_ran w) (s_removed w) status.

Section shop.
(** The status of a program that is started with some arguments, [None] when
    there is no such program. *)
Context (tool : list (list Z) -> option Z).

(** A call and what follows it: [fork] goes on as the child, which ends with an
    [exec] or an [exit], and then as the parent. *)
Definition shop_call {X} (e : sysE X) : (X -> shop -> option shop) -> shop -> option shop :=
  match e in sysE X return (X -> shop -> option shop) -> shop -> option shop with
  | SysFork => fun k w => match k 0 w with Some w' => k 1 w' | None => None end
  | SysExec _ argv _ => fun k w =>
      match tool argv with
      | Some status => Some (shop_end (Some status) (shop_add [argv] [] w))
      | None => k (-1) (shop_add [argv] [] w)
      end
  | SysExit status => fun _ w => Some (shop_end (Some status) w)
  | SysWait => fun k w =>
      match s_ended w with
      | Some status => k (1, Some (s32 status)) (shop_end None w)
      | None => k (-1, None) w
      end
  | SysUnlink path => fun k w => k 0 (shop_add [] [path] w)
  | SysWrite _ s => fun k w => k (Z.of_nat (length s)) w
  | e => fun k w => k (deny e) w
  end.

Fixpoint run_shop {A} (p : prog A) (k : A -> shop -> option shop) : shop -> option shop :=
  match p with
  | Done a => k a
  | Call e f => shop_call e (fun x => run_shop (f x) k)
  | Undef | Spin => fun _ => None
  end.

Lemma shop_call_ext {X} (e : sysE X) (k l : X -> shop -> option shop) w :
  (forall x v, k x v = l x v) -> shop_call e k w = shop_call e l w.
Proof.
  intros H. destruct e; cbn; try done.
  - rewrite H. by destruct (l 0 w).
  - by destruct (tool argv).
  - by destruct (s_ended w).
Qed.
Lemma run_shop_bind {A B} (p : prog A) (f : A -> prog B) k w :
  run_shop (pbind p f) k w = run_shop p (fun a => run_shop (f a) k) w.
Proof.
  revert w. induction p as [a|X e g IH| |]; intros w; cbn; [done| |done|done].
  apply shop_call_ext. intros x v. apply IH.
Qed.
Lemma shop_write fd s k w : run_shop (fd_write_str fd s) k w = k tt w.
Proof. reflexivity. Qed.
Lemma shop_exit status {B} (f : unit -> prog B) k w :
  run_shop (pbind (exit_with status) f) k w = Some (shop_end (Some status) w).
Proof. reflexivity. Qed.

(* ------------------------------------------------------------------ *)
(** ** One tool *)

Definition status_of (argv : list (list Z)) : Z := s32 (default (-1) (tool argv)).

Lemma append_all_ok out args :
  (length out + length args < MAX_GCC_ARGS)%nat -> append_all out args = Some (out ++ args).
Proof.
  revert out. induction args as [|a args IH]; intros out H; cbn [append_all]; [by rewrite app_nil_r|].
  cbn [length] in H. unfold append_arg. destruct (Nat.leb_spec (MAX_GCC_ARGS - 1) (length out)); [lia|].
  rewrite IH by (rewrite length_app; cbn; lia). by rewrite <- app_assoc.
Qed.
Lemma shop_program argv envp k w :
  s_ended w = None -> run_shop (run_program argv envp) k w = k (status_of argv) (shop_add [argv] [] w).
Proof.
  intros Hw.
  transitivity (match shop_call (SysExec (arg argv 0) argv envp) (fun _ v => Some (shop_end (Some (-1)) v)) w with
                | Some v => shop_call SysWait (fun x => run_shop
                    (if s32 (fst x) <? 0 then Done (-1) else Done (default (-1) (snd x))) k) v
                | None => None
                end); [reflexivity|].
  assert (shop_end None (shop_add [argv] [] w) = shop_add [argv] [] w) as He
    by (unfold shop_end, shop_add; cbn; by rewrite Hw).
  unfold status_of. rewrite <- He. cbn [shop_call]. by destruct (tool argv).
Qed.
Lemma shop_tool args envp k w :
  (length args < MAX_GCC_ARGS)%nat -> s_ended w = None ->
  run_shop (run_tool args envp) k w = k (status_of args) (shop_add [args] [] w).
Proof.
  intros Hl Hw. unfold run_tool. rewrite append_all_ok by (cbn [length]; lia). by apply shop_program.
Qed.
Lemma shop_add_add a b c d w : shop_add c d (shop_add a b w) = shop_add (a ++ c) (b ++ d) w.
Proof. unfold shop_add. cbn. by rewrite !app_assoc. Qed.
Lemma shop_add_nil w : shop_add [] [] w = w.
Proof. destruct w. unfold shop_add. cbn. by rewrite !app_nil_r. Qed.

(** The jobs that are run: up to the first that fails. *)
Fixpoint until_failure (jobs : list (list (list Z))) : list (list (list Z)) :=
  match jobs with
  | [] => []
  | j :: jobs' => j :: (if status_of j =? 0 then until_failure jobs' else [])
  end.
Definition succeeds (jobs : list (list (list Z))) : bool := forallb (fun j => status_of j =? 0) jobs.
Definition last_status (jobs : list (list (list Z))) : Z := default 0 (status_of <$> last jobs).

Lemma until_failure_app a b : until_failure (a ++ b) = if succeeds a then a ++ until_failure b else until_failure a.
Proof.
  induction a as [|j a IH]; [done|]. cbn [app until_failure]. rewrite IH. unfold succeeds. cbn [forallb].
  destruct (status_of j =? 0); cbn [andb]; [by destruct (forallb _ a)|done].
Qed.
Lemma succeeds_app a b : succeeds (a ++ b) = succeeds a && succeeds b.
Proof. apply forallb_app. Qed.
Lemma last_status_app a b : succeeds a = true -> last_status (a ++ b) = last_status b.
Proof.
  induction a as [|j a IH]; [done|]. cbn [app]. unfold succeeds. cbn [forallb]. intros [Hj Ha]%andb_prop.
  rewrite <- IH by done. unfold last_status. destruct (a ++ b) as [|x l]; cbn; [lia|done].
Qed.
Lemma last_status_failure jobs : succeeds jobs = false -> last_status (until_failure jobs) <> 0.
Proof.
  induction jobs as [|j jobs IH]; [done|]. unfold succeeds. cbn [forallb until_failure].
  destruct (Z.eqb_spec (status_of j) 0) as [Hj|Hj]; cbn [andb]; intros H; [|by unfold last_status].
  specialize (IH H). unfold last_status in *. destruct (until_failure jobs) as [|x l]; cbn in *; [done|done].
Qed.

(* ------------------------------------------------------------------ *)
(** ** The files of a command line *)

(** A file that is linked as it is, and one the driver makes an object of. *)
Definition is_object (f : list Z) : bool := has_suffix f (text ".o") || has_suffix f (text ".a").
Definition is_assembly (f : list Z) : bool := has_suffix f (text ".s") || has_suffix f (text ".S").
Definition known_file (f : list Z) : bool :=
  negb (dash f) && (is_object f || has_suffix f (text ".c") || is_assembly f).

Section flags.
Context (flags : list (list Z)).

(** The jobs for one file, whose object is the temporary file number [n]. *)
Definition assembly_jobs (f : list Z) (n : nat) : list (list (list Z)) :=
  if has_suffix f (text ".S") then
    [preprocess_args f (temp_asm_name n) flags; as_args (temp_asm_name n) (temp_obj_name n)]
  else [as_args f (temp_obj_name n)].
Definition file_jobs (f : list Z) (n : nat) : list (list (list Z)) :=
  if is_object f then []
  else if has_suffix f (text ".c") then [compile_args f (temp_obj_name n) flags]
  else assembly_jobs f n.
Definition file_asms (f : list Z) (n : nat) : list (list Z) :=
  if is_object f || has_suffix f (text ".c") then []
  else if has_suffix f (text ".S") then [temp_asm_name n] else [].
Definition next_temp (f : list Z) (n : nat) : nat := if is_object f then n else S n.

(** The jobs for all files, what they give to the linker and the temporary
    files. *)
Fixpoint gcc_jobs (files : list (list Z)) (n : nat) : list (list (list Z)) :=
  match files with [] => [] | f :: l => file_jobs f n ++ gcc_jobs l (next_temp f n) end.
Fixpoint gcc_objects (files : list (list Z)) (n : nat) : list (list Z) :=
  match files with
  | [] => []
  | f :: l => (if is_object f then f else temp_obj_name n) :: gcc_objects l (next_temp f n)
  end.
Fixpoint gcc_temps (files : list (list Z)) (n : nat) : list (list Z) :=
  match files with
  | [] => []
  | f :: l => (if is_object f then [] else [temp_obj_name n]) ++ gcc_temps l (next_temp f n)
  end.
Fixpoint gcc_asms (files : list (list Z)) (n : nat) : list (list Z) :=
  match files with [] => [] | f :: l => file_asms f n ++ gcc_asms l (next_temp f n) end.

Context (envp : list (list Z)).
Context (flags_fit : (length flags <= MAX_EXTRAS)%nat).

Lemma shop_ended_add jobs removed w : s_ended (shop_add jobs removed w) = s_ended w.
Proof. done. Qed.
Lemma args_fit pre post :
  (length pre + length post <= 5)%nat -> (length (pre ++ flags ++ post) < MAX_GCC_ARGS)%nat.
Proof using flags_fit. intros H. rewrite !length_app. unfold MAX_EXTRAS, MAX_GCC_ARGS in *. lia. Qed.

Lemma shop_assemble f n k w :
  s_ended w = None ->
  run_shop (assemble_s f (temp_obj_name n) n flags envp) k w =
    k (last_status (until_failure (assembly_jobs f n)))
      (shop_add (until_failure (assembly_jobs f n)) (if has_suffix f (text ".S") then [temp_asm_name n] else []) w).
Proof using flags_fit.
  intros Hw. unfold assemble_s, assembly_jobs. destruct (has_suffix f (text ".S")); cbn [negb].
  - rewrite run_shop_bind. unfold preprocess_asm.
    rewrite shop_tool by (try done; apply args_fit; cbn; lia).
    cbn [until_failure]. destruct (Z.eqb_spec (status_of (preprocess_args f (temp_asm_name n) flags)) 0) as [E|E]; cbn [negb].
    + rewrite run_shop_bind. unfold run_as. rewrite shop_tool by (try done; unfold MAX_GCC_ARGS; cbn; lia).
      rewrite shop_add_add. unfold call. cbn [pbind run_shop shop_call]. rewrite shop_add_add.
      unfold last_status. cbn. by destruct (status_of _ =? 0).
    + unfold call. cbn [pbind run_shop shop_call]. rewrite shop_add_add. done.
  - unfold run_as. rewrite shop_tool by (try done; unfold MAX_GCC_ARGS; cbn; lia). cbn. by destruct (status_of _ =? 0).
Qed.

(** What the driver does for a file that is not an object. *)
Definition make_object (f : list Z) (n : nat) : prog Z :=
  if has_suffix f (text ".c") then compile_c f (temp_obj_name n) flags envp
  else assemble_s f (temp_obj_name n) n flags envp.
Lemma shop_make f n k w :
  s_ended w = None -> is_object f = false ->
  run_shop (make_object f n) k w =
    k (last_status (until_failure (file_jobs f n))) (shop_add (until_failure (file_jobs f n)) (file_asms f n) w).
Proof using flags_fit.
  intros Hw Hf. unfold make_object, file_jobs, file_asms. rewrite Hf. cbn [orb].
  destruct (has_suffix f (text ".c")); [|by apply shop_assemble].
  unfold compile_c. rewrite shop_tool by (try done; apply args_fit; cbn; lia).
  cbn. by destruct (status_of _ =? 0).
Qed.

Lemma item_loop_cons f l la temps :
  known_file f = true ->
  item_loop ((f, ITEM_INPUT) :: l) la temps flags envp =
    (if is_object f then do! la := link_arg_or la f in item_loop l la temps flags envp
     else
       do! status := make_object f (length temps) in
       do! la := ((if negb (status =? 0) then exit_with status else Done tt) ;;~
                  link_arg_or la (temp_obj_name (length temps))) in
       item_loop l la (temps ++ [temp_obj_name (length temps)]) flags envp).
Proof.
  unfold known_file, is_object, is_assembly, make_object. intros [_ Hk]%andb_prop. cbn [item_loop].
  rewrite bool_decide_eq_false_2 by done. cbn [orb].
  destruct (has_suffix f (text ".o") || has_suffix f (text ".a")); [done|].
  destruct (has_suffix f (text ".c")); [done|]. cbn [orb] in Hk. by rewrite Hk.
Qed.
Lemma link_arg_ok la a : (S (length la) < MAX_GCC_ARGS)%nat -> link_arg_or la a = Done (la ++ [a]).
Proof.
  intros H. unfold link_arg_or, append_or, append_arg.
  by destruct (Nat.leb_spec (MAX_GCC_ARGS - 1) (length la)); [lia|].
Qed.

Lemma shop_items files la temps k w :
  s_ended w = None -> Forall (fun f => known_file f = true) files ->
  (length la + length files < MAX_GCC_ARGS)%nat ->
  let jobs := gcc_jobs files (length temps) in
  exists asms, (succeeds jobs = true -> asms = gcc_asms files (length temps)) /\
    run_shop (item_loop (map (fun f => (f, ITEM_INPUT)) files) la temps flags envp) k w =
      if succeeds jobs then
        k (la ++ gcc_objects files (length temps), temps ++ gcc_temps files (length temps)) (shop_add jobs asms w)
      else Some (shop_end (Some (last_status (until_failure jobs))) (shop_add (until_failure jobs) asms w)).
Proof using flags_fit.
  intros Hw Hk Hl jobs. subst jobs. revert la temps w Hw Hl.
  induction Hk as [|f files Hf Hk IH]; intros la temps w Hw Hl.
  { exists []. split; [done|]. cbn. by rewrite !app_nil_r, shop_add_nil. }
  cbn [map]. rewrite item_loop_cons by done. cbn [gcc_jobs gcc_objects gcc_temps gcc_asms length] in *.
  unfold next_temp. destruct (is_object f) eqn:Ho.
  - rewrite link_arg_ok by lia. cbn [pbind].
    destruct (IH (la ++ [f]) temps w Hw) as (asms & Ha & E); [rewrite length_app; cbn; lia|].
    exists asms. unfold file_jobs, file_asms. rewrite Ho. cbn [orb app]. split; [done|]. rewrite E, <- app_assoc. done.
  - rewrite run_shop_bind, shop_make by done. set (js := file_jobs f (length temps)).
    rewrite succeeds_app, until_failure_app. destruct (succeeds js) eqn:Hjs; cbn [andb].
    + assert (last_status (until_failure js) = 0 /\ until_failure js = js) as [E1 E2].
      { pose proof (until_failure_app js []) as Hu. rewrite Hjs, !app_nil_r in Hu. split; [|done]. rewrite Hu.
        pose proof (last_status_app js [] Hjs) as He. by rewrite app_nil_r in He. }
      rewrite E1, E2. cbn [Z.eqb negb pbind]. rewrite link_arg_ok by lia. cbn [pbind].
      set (w1 := shop_add js (file_asms f (length temps)) w).
      destruct (IH (la ++ [temp_obj_name (length temps)]) (temps ++ [temp_obj_name (length temps)]) w1 Hw)
        as (asms & Ha & E); [rewrite length_app; cbn; lia|].
      rewrite length_app, Nat.add_comm in Ha, E. cbn [length Nat.add] in Ha, E.
      exists (file_asms f (length temps) ++ asms). split; [intros H; by rewrite Ha|].
      rewrite E. unfold w1. rewrite !shop_add_add, <- !app_assoc. cbn [app].
      destruct (succeeds (gcc_jobs files (S (length temps)))); [done|].
      by rewrite last_status_app.
    + pose proof (last_status_failure js Hjs) as Hn. apply Z.eqb_neq in Hn. rewrite Hn. cbn [negb].
      exists (file_asms f (length temps)). split; [done|]. done.
Qed.
End flags.
End shop.

(* ------------------------------------------------------------------ *)
(** ** The options *)

(** [-IDIR] and [-DNAME]. *)
Definition joined_flag (a : list Z) : bool :=
  (starts_with a (text "-I") || starts_with a (text "-D")) && (2 <? length a)%nat.
(** [-o OUTPUT], if there is one. *)
Definition output_args (output : option (list Z)) : list (list Z) :=
  match output with Some o => [text "-o"; o] | None => [] end.

(** No option equals or begins the name of a file. *)
Lemma str_eq_dash f o : dash f = false -> dash o = true -> str_eq f o = false.
Proof.
  destruct f as [|c f], o as [|d o]; cbn; try done. intros H1%Z.eqb_neq H2%Z.eqb_eq.
  destruct (Z.eqb_spec c d); [congruence|done].
Qed.
Lemma starts_with_dash f o : dash f = false -> dash o = true -> starts_with f o = false.
Proof.
  destruct f as [|c f], o as [|d o]; cbn; try done. intros H1%Z.eqb_neq H2%Z.eqb_eq.
  destruct (Z.eqb_spec c d); [congruence|done].
Qed.
Lemma any_dash (test : list Z -> list Z -> bool) f l :
  (forall o, dash o = true -> test f o = false) -> forallb dash l = true -> existsb (test f) l = false.
Proof.
  intros Ht. induction l as [|o l IH]; cbn; [done|]. intros [Ho Hl]%andb_prop. by rewrite Ht, IH.
Qed.
Lemma answer_dash f answers :
  dash f = false -> forallb (fun x => dash (fst x)) answers = true -> answer_option f answers = Done tt.
Proof.
  intros Hf. induction answers as [|[o t] l IH]; cbn; [done|]. intros [Ho Hl]%andb_prop.
  by rewrite str_eq_dash, IH.
Qed.
Lemma options_file f l s : dash f = false -> gcc_options (f :: l) s = do! s := gcc_input f s in gcc_options l s.
Proof.
  intros Hf. assert (forall o, dash o = true -> str_eq f o = false) as H1 by (intros; by apply str_eq_dash).
  assert (forall o, dash o = true -> starts_with f o = false) as H2 by (intros; by apply starts_with_dash).
  cbn [gcc_options]. unfold gcc_flag, joined_output, eq_any, starts_any.
  rewrite !answer_dash by done. cbn [pbind]. rewrite !any_dash by done. rewrite !H1 by done. rewrite !H2 by done.
  rewrite Hf. reflexivity.
Qed.
Lemma options_flag a l s :
  joined_flag a = true -> gcc_options (a :: l) s = do! s := gcc_cflags [a] s in gcc_options l s.
Proof.
  unfold joined_flag. destruct a as [|c1 [|c2 [|c3 x]]]; cbn; rewrite ?andb_false_r, ?andb_true_r; try done.
  intros [[->%Z.eqb_eq ->%Z.eqb_eq]%andb_prop|[->%Z.eqb_eq ->%Z.eqb_eq]%andb_prop]%orb_prop; reflexivity.
Qed.
Lemma options_output output s :
  g_output s = None -> gcc_options (output_args output) s = Done (set_g_output output s).
Proof. destruct output, s; cbn; intros; by subst. Qed.

Lemma options_files files l s :
  Forall (fun f => dash f = false) files ->
  (length (g_inputs s) + length files <= MAX_INPUTS)%nat ->
  (length (g_items s) + length files < MAX_GCC_ARGS)%nat ->
  gcc_options (files ++ l) s =
    gcc_options l (set_g_items (g_items s ++ map (fun f => (f, ITEM_INPUT)) files) (set_g_inputs (g_inputs s ++ files) s)).
Proof.
  intros Hf. revert s. induction Hf as [|f files Hf _ IH]; intros s H1 H2.
  { cbn. rewrite !app_nil_r. by destruct s. }
  cbn [app length] in *. rewrite options_file by done. unfold gcc_input, item_or, append_item.
  destruct (Nat.leb_spec MAX_INPUTS (length (g_inputs s))); [lia|]. cbn [set_g_inputs g_items].
  destruct (Nat.leb_spec (MAX_GCC_ARGS - 1) (length (g_items s))); [lia|]. cbn [pbind].
  rewrite IH by (cbn; rewrite length_app; cbn; lia). destruct s. cbn. by rewrite <- !app_assoc.
Qed.
Lemma options_flags flags l s :
  Forall (fun a => joined_flag a = true) flags -> (length (g_flags s) + length flags <= MAX_EXTRAS)%nat ->
  gcc_options (flags ++ l) s = gcc_options l (add_g_flags flags s).
Proof.
  intros Hf. revert s. induction Hf as [|a flags Ha _ IH]; intros s H.
  { unfold add_g_flags. rewrite app_nil_r. by destruct s. }
  cbn [app length] in *. rewrite options_flag by done. unfold gcc_cflags. cbn [length].
  destruct (Nat.ltb_spec MAX_EXTRAS (length (g_flags s) + 1)); [lia|]. cbn [pbind].
  rewrite IH by (cbn; rewrite length_app; cbn; lia). destruct s. unfold add_g_flags. cbn. by rewrite <- app_assoc.
Qed.
Lemma options_line flags files output :
  Forall (fun a => joined_flag a = true) flags -> (length flags <= MAX_EXTRAS)%nat ->
  Forall (fun f => known_file f = true) files -> (length files <= MAX_INPUTS)%nat ->
  gcc_options (flags ++ files ++ output_args output) gcc_st0 =
    Done (GccSt files (map (fun f => (f, ITEM_INPUT)) files) flags output false false false false false).
Proof.
  intros Hf Hfl Hk Hkl. rewrite options_flags by done. rewrite options_files.
  - rewrite options_output by done. done.
  - eapply Forall_impl; [exact Hk|]. intros f [H _]%andb_prop. by destruct (dash f).
  - done.
  - cbn. unfold MAX_INPUTS, MAX_GCC_ARGS in *. lia.
Qed.

(* ------------------------------------------------------------------ *)
(** ** main *)

Lemma shop_unlink tool names k w :
  run_shop tool (unlink_all names) k w = k tt (shop_add [] names w).
Proof.
  revert w. induction names as [|n names IH]; intros w; [cbn; by rewrite shop_add_nil|].
  cbn [unlink_all call pbind run_shop shop_call]. by rewrite IH, shop_add_add.
Qed.
Lemma gcc_objects_length files n : length (gcc_objects files n) = length files.
Proof. revert n. induction files as [|f files IH]; intros n; cbn; [done|]. by rewrite IH. Qed.

(** For every command line of flags, files and an output, and whatever the
    tools return, [myos-gcc] starts exactly one job for each compilation and
    assembly, in the order of the files, stops behind the first that fails, and
    links, when none fails, the objects in the order of the files; it exits with
    the status of the last program it ran; and when it links it has removed all
    the temporary files it named. *)
Theorem myos_gcc_links tool name flags files output envp :
  Forall (fun a => joined_flag a = true) flags -> (length flags <= MAX_EXTRAS)%nat ->
  Forall (fun f => known_file f = true) files -> (0 < length files <= MAX_INPUTS)%nat ->
  let compiles := gcc_jobs flags files 0 in
  let link := link_line (gcc_objects files 0) false false (default (text "a.out") output) in
  exists w,
    run_shop tool (myos_gcc_main (name :: flags ++ files ++ output_args output) envp) (fun _ w => Some w) shop0 = Some w /\
    s_ran w = until_failure tool (compiles ++ [link]) /\
    s_ended w = Some (last_status tool (s_ran w)) /\
    (succeeds tool compiles = true -> s_removed w = gcc_asms files 0 ++ gcc_temps files 0).
Proof.
  intros Hf Hfl Hk [Hpos Hkl] compiles link. unfold myos_gcc_main. cbn [tail].
  rewrite options_line by done. cbn [pbind g_inputs g_compile_only g_preprocess_only].
  destruct (Nat.eqb_spec (length files) 0) as [He|_]; [lia|]. unfold one_output. cbn [andb pbind g_items g_flags].
  rewrite run_shop_bind.
  assert (forall k, exists asms, (succeeds tool compiles = true -> asms = gcc_asms files 0) /\
    run_shop tool (item_loop (map (fun f => (f, ITEM_INPUT)) files) [] [] flags envp) k shop0 =
      if succeeds tool compiles then k (gcc_objects files 0, gcc_temps files 0) (shop_add compiles asms shop0)
      else Some (shop_end (Some (last_status tool (until_failure tool compiles)))
                          (shop_add (until_failure tool compiles) asms shop0))) as Hi.
  { intros k. apply (shop_items tool flags envp Hfl files [] [] k shop0); [done|done|].
    unfold MAX_INPUTS, MAX_GCC_ARGS in *. cbn. lia. }
  edestruct Hi as (asms & Ha & E). rewrite E. clear Hi E.
  rewrite until_failure_app. destruct (succeeds tool compiles) eqn:Hs.
  - set (w1 := shop_add compiles asms shop0). unfold link_output. cbn [g_output g_compile_only g_nostartfiles g_nodefaultlibs].
    assert (forall out, length (link_line (gcc_objects files 0) false false out) < MAX_GCC_ARGS)%nat as Hl.
    { intros out. unfold link_line. cbn. rewrite !length_app, gcc_objects_length. unfold MAX_INPUTS, MAX_GCC_ARGS in *. cbn. lia. }
    assert ((match output with Some o => Some o | None => Some (text "a.out") end) = Some (default (text "a.out") output)) as ->
      by (by destruct output).
    rewrite run_shop_bind. unfold link_objects. rewrite shop_tool by done. fold link.
    rewrite run_shop_bind, shop_unlink, !shop_add_add. eexists. split; [reflexivity|].
    unfold w1. cbn [shop_add shop_end shop0 s_ran s_ended s_removed app until_failure]. split_and!.
    + by destruct (status_of tool link =? 0).
    + f_equal. symmetry. rewrite last_status_app by done. reflexivity.
    + intros _. by rewrite Ha.
  - eexists. split; [reflexivity|]. done.
Qed.

(** Two sources and an object; the second compilation fails. *)
Definition sample_tool (argv : list (list Z)) : option Z :=
  if existsb (str_eq (text "bad.c")) argv then Some 1 else Some 0.
Definition sample_sources : list (list Z) := text <$> ["boot.S"; "x.o"; "bad.c"; "y.c"]%string.
Lemma myos_gcc_links_witness :
  exists w,
    run_shop sample_tool (myos_gcc_main (text "gcc" :: [text "-Iinc"] ++ sample_sources ++ output_args None) [])
      (fun _ w => Some w) shop0 = Some w /\
    s_ran w = [preprocess_args (text "boot.S") (text "__myosgccS0.s") [text "-Iinc"];
               as_args (text "__myosgccS0.s") (text "__myosgcc0.o");
               compile_args (text "bad.c") (text "__myosgcc1.o") [text "-Iinc"]] /\
    s_ended w = Some 1.
Proof.
  destruct (myos_gcc_links sample_tool (text "gcc") [text "-Iinc"] sample_sources None [])
    as (w & H1 & H2 & H3 & _); [by repeat constructor|cbv; lia|by repeat constructor|cbv; lia|].
  exists w. split; [exact H1|]. rewrite H3, H2. split; vm_compute; reflexivity.
Defined.
