(* ===== verification/LibcSys.v ===== *)
(** The system call wrappers of [ports/myos/libc.c]: a function of the library
    is a program over the system calls of [Prog.v] that passes the library's own
    variables along.

    A null pointer is [None]; a path or a name is its text. *)

From S2P Require Import Prelude Prog LibcStr LibcEnv.

(* ------------------------------------------------------------------ *)
(** ** The variables of the library *)

(** [FILE] and [DIR]. *)
Record FILE := mkFILE {
  f_fd : Z;
  f_eof : bool;
  f_err : bool;
  f_has_unget : bool;
  f_unget : Z;
  f_unlink_on_close : bool;
  f_unlink_path : list Z;
}.
Record libc_dirent := LibcDirent { d_ino : Z; d_name : list Z }.
Record DIR := mkDIR { d_fd : Z; d_ent : libc_dirent }.

(** [l_files], [l_dirs]: the objects that a [FILE *] or a [DIR *] can point to;
    [l_env]: [environ]; [l_temp]: [temp_counter]. *)
Record libc := Libc {
  l_errno : Z;
  l_files : gmap Z FILE;
  l_dirs : gmap Z DIR;
  l_env : list (option (list Z));
  l_lflag : Z;
  l_temp : Z;
}.
Definition l_set_errno v (l : libc) := Libc v (l_files l) (l_dirs l) (l_env l) (l_lflag l) (l_temp l).
Definition l_set_files v (l : libc) := Libc (l_errno l) v (l_dirs l) (l_env l) (l_lflag l) (l_temp l).
Definition l_set_dirs v (l : libc) := Libc (l_errno l) (l_files l) v (l_env l) (l_lflag l) (l_temp l).
Definition l_set_lflag v (l : libc) := Libc (l_errno l) (l_files l) (l_dirs l) (l_env l) v (l_temp l).
Definition l_set_temp v (l : libc) := Libc (l_errno l) (l_files l) (l_dirs l) (l_env l) (l_lflag l) v.

(** Library code: a program that passes on a [libc]. *)
Definition LM (A : Type) : Type := libc -> prog (A * libc).
Definition lret {A} (a : A) : LM A := fun l => Done (a, l).
Definition lbind {A B} (m : LM A) (k : A -> LM B) : LM B := fun l => do! x := m l in k (fst x) (snd x).
Definition lundef {A} : LM A := fun _ => Undef.
Definition lget {A} (f : libc -> A) : LM A := fun l => Done (f l, l).
Definition lmod (f : libc -> libc) : LM unit := fun l => Done (tt, f l).
Definition sys {X} (e : sysE X) : LM X := fun l => do! x := call e in Done (x, l).
Definition set_errno (v : Z) : LM unit := lmod (l_set_errno v).

Declare Scope libc_scope.
Delimit Scope libc_scope with libc.
Notation "'let!' x := c 'in' k" := (lbind c (fun x => k))
  (at level 10, x name, c at level 200, k at level 200) : libc_scope.
Notation "'let!' ' p := c 'in' k" := (lbind c (fun x => match x with p => k end))
  (at level 10, p pattern, c at level 200, k at level 200) : libc_scope.
Notation "c ;;! k" := (lbind c (fun _ => k)) (at level 199, right associativity) : libc_scope.
Open Scope libc_scope.

(** [if (b) m] *)
Definition lwhen (b : bool) (m : LM unit) : LM unit := if b then m else lret tt.
(** [if (r < 0) errno_value = v; return r;] *)
Definition errno_if (v r : Z) : LM Z := lwhen (r <? 0) (set_errno v) ;;! lret r.

Definition O_EXCL : Z := 2048.
Definition O_APPEND : Z := 4096.
Definition SEEK_SET : Z := 0.
Definition SEEK_CUR : Z := 1.
Definition SEEK_END : Z := 2.
Definition has_flag (flags f : Z) : bool := negb (Z.land flags f =? 0).

(* ------------------------------------------------------------------ *)
(** ** Files *)

(** The loop behind the call does not end. *)
Definition exit {A} (status : Z) : LM A := fun l => call (SysExit status) ;;~ Spin.
Definition _exit {A} (status : Z) : LM A := exit status.
Definition abort {A} : LM A := exit 134.

Definition myos_flags (flags : Z) : Z :=
  let f := Z.land flags 3 in
  let f := if has_flag flags 64 || has_flag flags O_CREAT then Z.lor f O_CREAT else f in
  let f := if has_flag flags O_TRUNC then Z.lor f O_TRUNC else f in
  let f := if has_flag flags O_EXCL then Z.lor f O_EXCL else f in
  if has_flag flags O_APPEND then Z.lor f O_APPEND else f.
Definition open (pathname : list Z) (flags : Z) : LM Z :=
  let! r := sys (SysOpen pathname (myos_flags flags)) in
  errno_if (if has_flag flags O_EXCL then 17 else 2) (s32 r).
Definition close (fd : Z) : LM Z := let! r := sys (SysClose fd) in lret (s32 r).
(** The result and the bytes that were read. *)
Definition read (fd n : Z) : LM (Z * list Z) :=
  let! r := sys (SysRead fd n) in
  let ret := s64 (fst r) in
  lwhen (ret <? 0) (set_errno 5) ;;!
  lret (ret, take (Z.to_nat ret) (snd r)).
Definition write (fd : Z) (buf : list Z) : LM Z :=
  let! r := sys (SysWrite fd buf) in errno_if 5 (s64 r).
Definition lseek (fd offset whence : Z) : LM Z := let! r := sys (SysLseek fd offset whence) in lret (s64 r).
Definition ftruncate (fd length : Z) : LM Z :=
  let! r := sys (SysFtruncate fd length) in errno_if 22 (s32 r).
Definition truncate (path : list Z) (length : Z) : LM Z :=
  let! fd := open path O_RDWR in
  if fd <? 0 then lret (-1)
  else
    let! ret := ftruncate fd length in
    close fd ;;!
    lret ret.
Definition unlink (pathname : list Z) : LM Z := let! r := sys (SysUnlink pathname) in lret (s32 r).
Definition rmdir (pathname : list Z) : LM Z := unlink pathname.
Definition remove (pathname : list Z) : LM Z := unlink pathname.
Definition rename (oldpath newpath : list Z) : LM Z :=
  let! r := sys (SysRename oldpath newpath) in lret (s32 r).

(** [struct stat]: what the kernel stores and the fields the library adds. *)
Record stat_buf := StatBuf {
  sb_kernel : ustat;
  sb_atime : Z;
  sb_mtime : Z;
  sb_ctime : Z;
  sb_uid : Z;
  sb_gid : Z;
}.
Definition stat_zero : stat_buf := StatBuf (UStat 0 0 0 0 0) 0 0 0 0 0.
(** The result and [*st]; a call that fails leaves the zeros of [memset]. *)
Definition fstat (fd : Z) : LM (Z * stat_buf) :=
  let! r := sys (SysFstat fd) in
  let ret := s32 (fst r) in
  if ret <? 0 then set_errno 5 ;;! lret (ret, stat_zero)
  else
    match snd r with
    | None => lundef
    | Some st => lret (ret, StatBuf st 1 1 1 0 0)
    end.
Definition stat (path : list Z) : LM (Z * option stat_buf) :=
  let! fd := open path O_RDONLY in
  if fd <? 0 then lret (-1, None)
  else
    let! r := fstat fd in
    close fd ;;!
    lret (fst r, Some (snd r)).
Definition access (path : list Z) (mode : Z) : LM Z :=
  let! fd := open path O_RDONLY in
  if fd <? 0 then lret (-1) else close fd ;;! lret 0.
Definition mkdir (path : list Z) (mode : Z) : LM Z := let! r := sys (SysMkdir path) in lret (s32 r).
Definition chdir (path : list Z) : LM Z := let! r := sys (SysChdir path) in lret (s32 r).
(** The text in [buf]; [has_buf]: [buf] is not null. *)
Definition getcwd (has_buf : bool) (size : Z) : LM (option (list Z)) :=
  if negb has_buf || (size =? 0) then set_errno 22 ;;! lret None
  else
    let! r := sys (SysGetcwd size) in
    if u64 (fst r) =? 0 then set_errno 22 ;;! lret None else lret (Some (snd r)).
Definition dup (oldfd : Z) : LM Z := let! r := sys (SysDup oldfd) in lret (s32 r).
Definition dup2 (oldfd newfd : Z) : LM Z := let! r := sys (SysDup2 oldfd newfd) in lret (s32 r).
Definition openat (dirfd : Z) (pathname : list Z) (flags : Z) : LM Z := open pathname flags.
Definition faccessat (dirfd : Z) (pathname : list Z) (mode flags : Z) : LM Z := access pathname mode.
Definition fstatat (dirfd : Z) (pathname : list Z) (flags : Z) : LM (Z * option stat_buf) := stat pathname.
Definition chmod (path : list Z) (mode : Z) : LM Z := lret 0.
Definition fchmod (fd mode : Z) : LM Z := lret 0.
Definition utime (filename : list Z) : LM Z := access filename 0.
Definition umask (mode : Z) : LM Z := lret 0.
Definition readlink (path : list Z) (bufsiz : Z) : LM Z := set_errno 22 ;;! lret (-1).

Definition F_DUPFD : Z := 0.
Definition F_SETFD : Z := 2.
Definition F_SETFL : Z := 4.
(** [arg]: the argument behind [cmd], which only three commands take. *)
Definition fcntl (fd cmd arg : Z) : LM Z :=
  let takes := (cmd =? F_DUPFD) || (cmd =? F_SETFD) || (cmd =? F_SETFL) in
  let! r := sys (SysFcntl fd cmd (if takes then s32 arg else 0)) in
  errno_if 22 (s32 r).

(* ------------------------------------------------------------------ *)
(** ** Processes *)

Definition getpid : LM Z := let! r := sys SysGetpid in lret (s32 r).
Definition getuid : LM Z := lret 0.
Definition getgid : LM Z := lret 0.
Definition fork : LM Z := let! r := sys SysFork in lret (s32 r).
(** The result and [pipefd]. *)
Definition pipe : LM (Z * option (Z * Z)) := let! r := sys SysPipe in lret (s32 (fst r), snd r).
(** The result and [*status]. *)
Definition waitpid (pid options : Z) : LM (Z * option Z) :=
  let! r := sys SysWait in lret (s32 (fst r), snd r).
Definition wait : LM (Z * option Z) := waitpid (-1) 0.
Definition kill (pid sig : Z) : LM Z := lret (-1).
Definition sleep (seconds : Z) : LM Z := lret seconds.

(** The entries of an array of pointers up to its null. *)
Fixpoint until_null (store : list (option (list Z))) : list (list Z) :=
  match store with Some e :: store' => e :: until_null store' | _ => [] end.
Definition exec_image (path : list Z) (argv env : list (list Z)) : LM Z :=
  let! r := sys (SysExec path argv env) in lret (s32 r).
Definition execv (path : list Z) (argv : list (list Z)) : LM Z :=
  let! env := lget l_env in exec_image path argv (until_null env).
Definition execve (path : list Z) (argv : list (list Z)) (envp : option (list (list Z))) : LM Z :=
  let! env := lget l_env in exec_image path argv (default (until_null env) envp).

(** [char path[128]] with the last byte for the NUL. *)
Definition PATH_ROOM : nat := 127.
Fixpoint split_dir (p : list Z) : list Z * list Z :=
  match p with
  | [] => ([], [])
  | c :: p' => if c =? 58 then ([], p) else let '(d, q) := split_dir p' in (c :: d, q)
  end.
(** The path that [execvp] tries in one directory. *)
Definition join_path (dir file : list Z) : list Z :=
  let path := match dir with [] => [46] | _ => take PATH_ROOM dir end in
  let path :=
    if negb (default 0 (last path) =? 47) && (length path <? PATH_ROOM)%nat then path ++ [47] else path in
  path ++ take (PATH_ROOM - length path) file.
(** The loop over the directories. *)
Fixpoint execvp_loop (fuel : nat) (env_path file : list Z) (argv env : list (list Z)) : LM Z :=
  match env_path, fuel with
  | [], _ => set_errno 2 ;;! lret (-1)
  | _, O => fun _ => Spin
  | _, S f =>
      let '(dir, rest) := split_dir env_path in
      let path := join_path dir file in
      (if (length path <? PATH_ROOM)%nat then exec_image path argv env else lret 0) ;;!
      execvp_loop f (match rest with c :: rest' => if c =? 58 then rest' else rest | [] => [] end) file argv env
  end.
Definition execvp (file : option (list Z)) (argv : list (list Z)) : LM Z :=
  match file with
  | None | Some [] => set_errno 2 ;;! lret (-1)
  | Some file =>
      let! env := lget l_env in
      if existsb (fun c => c =? 47) file then exec_image file argv (until_null env)
      else
        let env_path :=
          match getenv env (Some (text "PATH")) with
          | None | Some [] => text "/bin:/"
          | Some p => p
          end in
        execvp_loop (length env_path) env_path file argv (until_null env)
  end.

(* ------------------------------------------------------------------ *)
(** ** Terminals *)

Definition TIOCGWINSZ : Z := 21523.
Definition TIOCINQ : Z := 21531.
Definition ECHO : Z := 8.
Definition ICANON : Z := 2.
Definition ISIG : Z := 1.

Definition isatty (fd : Z) : Z := if (0 <=? fd) && (fd <=? 2) then 1 else 0.
(** [c_lflag]; the other fields are 0. *)
Definition tcgetattr (fd : Z) : LM (Z * Z) := let! v := lget l_lflag in lret (0, v).
Definition tcsetattr (fd optional_actions : Z) (c_lflag : option Z) : LM Z :=
  match c_lflag with Some v => lmod (l_set_lflag v) | None => lret tt end ;;! lret 0.
(** What [*arg] gets: rows and columns, or the number of the kernel. *)
Inductive ioctl_out := NoOut | Winsize (row col : Z) | Pending (n : Z).
Definition ioctl (fd request : Z) (has_arg : bool) : LM (Z * ioctl_out) :=
  if (request =? TIOCGWINSZ) && has_arg then lret (0, Winsize 24 80)
  else if request =? TIOCINQ then
    let! r := sys (SysIoctl fd request) in
    lret (s32 (fst r), match snd r with Some n => if has_arg then Pending n else NoOut | None => NoOut end)
  else lret (-1, NoOut).
