(* ===== verification/LibcStdio.v ===== *)
(** Streams of [ports/myos/libc.c]: opening and closing, bytes and lines,
    formatted output, temporary files, directories.

    A [FILE *] is a number; [malloc] is seen by its answers: where an object goes
    and whether there is memory for a buffer. *)

From S2P Require Import Prelude Memory Prog LibcStr LibcFmt LibcSys.

Definition stdin : Z := 0.
Definition stdout : Z := 1.
Definition stderr : Z := 2.
Definition EOF : Z := -1.
Definition file_of (fd : Z) : FILE := mkFILE fd false false false 0 false [].
(** [std_files]. *)
Definition libc0 : libc :=
  Libc 0 (<[stdin := file_of 0]> (<[stdout := file_of 1]> (<[stderr := file_of 2]> ∅))) ∅ [] (Z.lor (Z.lor ECHO ICANON) ISIG) 0.

Definition fl_set_eof (v : bool) (f : FILE) : FILE :=
  mkFILE (f_fd f) v (f_err f) (f_has_unget f) (f_unget f) (f_unlink_on_close f) (f_unlink_path f).
Definition fl_set_err (v : bool) (f : FILE) : FILE :=
  mkFILE (f_fd f) (f_eof f) v (f_has_unget f) (f_unget f) (f_unlink_on_close f) (f_unlink_path f).
Definition fl_set_unget (has : bool) (c : Z) (f : FILE) : FILE :=
  mkFILE (f_fd f) (f_eof f) (f_err f) has c (f_unlink_on_close f) (f_unlink_path f).
Definition fl_set_unlink (path : list Z) (f : FILE) : FILE :=
  mkFILE (f_fd f) (f_eof f) (f_err f) (f_has_unget f) (f_unget f) true path.

(** [*stream]: a pointer to nothing is undefined behaviour. *)
Definition get_file (stream : Z) : LM FILE :=
  fun l => match l_files l !! stream with Some f => Done (f, l) | None => Undef end.
Definition upd_file (stream : Z) (g : FILE -> FILE) : LM unit :=
  lmod (fun l => l_set_files (alter g stream (l_files l)) l).

Section stdio.
(** [malloc(sizeof(FILE))] and [malloc(sizeof(DIR))] when the objects in use are
    those of the map; [malloc] and [realloc] of a buffer. *)
Context (new_file : gmap Z FILE -> option Z) (new_dir : gmap Z DIR -> option Z) (has_room : Z -> bool).

(* ------------------------------------------------------------------ *)
(** ** Opening and closing *)

Definition mode_char (mode : list Z) : Z := char0 mode.
Definition mode_to_flags (mode : list Z) : Z :=
  let plus := bool_decide (is_Some (strchr mode 43)) in
  let rw := if plus then O_RDWR else O_WRONLY in
  if mode_char mode =? 114 then (if plus then O_RDWR else O_RDONLY)
  else if mode_char mode =? 119 then Z.lor rw O_CREAT
  else if mode_char mode =? 97 then Z.lor (Z.lor rw O_CREAT) O_APPEND
  else O_RDONLY.

Definition alloc_file (f : FILE) : LM (option Z) := fun l =>
  match new_file (l_files l) with
  | Some p => Done (Some p, l_set_files (<[p := f]> (l_files l)) l)
  | None => Done (None, l)
  end.
Definition fopen (filename mode : list Z) : LM (option Z) :=
  lwhen (mode_char mode =? 119) (unlink filename ;;! lret tt) ;;!
  let! fd := open filename (mode_to_flags mode) in
  if fd <? 0 then lret None
  else
    lwhen (mode_char mode =? 97) (lseek fd 0 SEEK_END ;;! lret tt) ;;!
    let! f := alloc_file (file_of fd) in
    match f with
    | Some p => lret (Some p)
    | None => close fd ;;! lret None
    end.
Definition fdopen (fd : Z) (mode : list Z) : LM (option Z) :=
  if fd <? 0 then lret None else alloc_file (file_of fd).
Definition fclose (stream : option Z) : LM Z :=
  match stream with
  | None => lret EOF
  | Some s =>
      if (s =? stdin) || (s =? stdout) || (s =? stderr) then lret 0
      else
        let! f := get_file s in
        let! ret := close (f_fd f) in
        lwhen (f_unlink_on_close f) (unlink (f_unlink_path f) ;;! lret tt) ;;!
        lmod (fun l => l_set_files (delete s (l_files l)) l) ;;!
        lret ret
  end.
Definition fileno (stream : option Z) : LM Z :=
  match stream with None => lret (-1) | Some s => let! f := get_file s in lret (f_fd f) end.

(* ------------------------------------------------------------------ *)
(** ** Temporary files *)

Definition temp_chars : list Z :=
  text "abcdefghijklmnopqrstuvwxyzABCDEFGHIJKLMNOPQRSTUVWXYZ0123456789".
(** The loop that fills [n] places from the last to the first. *)
Fixpoint temp_fill (n : nat) (value : Z) (acc : list Z) : list Z :=
  match n with
  | O => acc
  | S n' => temp_fill n' (value / 62) (default 0 (temp_chars !! Z.to_nat (value mod 62)) :: acc)
  end.
Fixpoint temp_attempts (n : nat) (attempt : Z) (template : list Z) (x_start : nat) (create_dir : bool) : LM (Z * list Z) :=
  match n with
  | O => set_errno 17 ;;! lret (-1, template)
  | S n' =>
      let! counter := lget l_temp in
      lmod (l_set_temp (u64 (counter + 1))) ;;!
      let! pid := getpid in
      let value := u64 (counter + u64 pid * 131 + attempt) in
      let template := take x_start template ++ temp_fill 6 value [] ++ drop (x_start + 6) template in
      if create_dir then
        let! r := mkdir template 448 in
        if r =? 0 then lret (0, template) else temp_attempts n' (attempt + 1) template x_start create_dir
      else
        let! fd := open template (Z.lor (Z.lor O_RDWR O_CREAT) O_EXCL) in
        if 0 <=? fd then lret (fd, template) else temp_attempts n' (attempt + 1) template x_start create_dir
  end.
(** The result and the template. *)
Definition fill_temp_template (template : list Z) (suffixlen : Z) (create_dir : bool) : LM (Z * list Z) :=
  let x_end := s32 (strlen (Some template)) - suffixlen in
  let x_start := x_end - 6 in
  if (suffixlen <? 0) || (x_start <? 0) then set_errno 22 ;;! lret (-1, template)
  else if negb (forallb (fun c => c =? 88) (slice template (Z.to_nat x_start) 6)) then
    set_errno 22 ;;! lret (-1, template)
  else temp_attempts 4096 0 template (Z.to_nat x_start) create_dir.
Definition mkstemps (template : list Z) (suffixlen : Z) : LM (Z * list Z) := fill_temp_template template suffixlen false.
Definition mkstemp (template : list Z) : LM (Z * list Z) := mkstemps template 0.
Definition mkdtemp (template : list Z) : LM (option (list Z)) :=
  let! r := fill_temp_template template 0 true in
  lret (if fst r =? 0 then Some (snd r) else None).
Definition tmpfile : LM (option Z) :=
  let! r := mkstemp (text "/tmp/tmpXXXXXX") in
  let '(fd, path) := r in
  if fd <? 0 then lret None
  else
    let! f := fdopen fd (text "w+") in
    match f with
    | None => close fd ;;! unlink path ;;! lret None
    | Some p => upd_file p (fl_set_unlink path) ;;! lret (Some p)
    end.

(* ------------------------------------------------------------------ *)
(** ** Bytes *)

(** The number of items and the bytes that are stored at [ptr]. *)
Definition fread (size nmemb stream : Z) : LM (Z * list Z) :=
  let bytes := u64 (size * nmemb) in
  if bytes =? 0 then lret (0, [])
  else
    let! f := get_file stream in
    let out := if f_has_unget f then [f_unget f] else [] in
    lwhen (f_has_unget f) (upd_file stream (fl_set_unget false (f_unget f))) ;;!
    let first := Z.of_nat (length out) in
    if first =? bytes then lret (first / size, out)
    else
      let! r := read (f_fd f) (bytes - first) in
      let '(ret, data) := r in
      if ret <? 0 then upd_file stream (fl_set_err true) ;;! lret (0, out)
      else
        let got := u64 (first + ret) in
        lwhen (got <? bytes) (upd_file stream (fl_set_eof true)) ;;!
        lret (got / size, out ++ data).
(** [buf]: the bytes at [ptr]. *)
Definition fwrite (buf : list Z) (size nmemb stream : Z) : LM Z :=
  let bytes := u64 (size * nmemb) in
  if bytes =? 0 then lret 0
  else
    let! f := get_file stream in
    let! ret := write (f_fd f) (take (Z.to_nat bytes) buf) in
    if ret <? 0 then upd_file stream (fl_set_err true) ;;! lret 0 else lret (ret / size).

(** The read comes before the test of [has_unget]. *)
Definition fgetc (stream : Z) : LM Z :=
  let! f := get_file stream in
  let! r := read (f_fd f) 1 in
  let! f := get_file stream in
  if f_has_unget f then upd_file stream (fl_set_unget false (f_unget f)) ;;! lret (f_unget f)
  else if fst r =? 1 then
    let ch := char0 (snd r) in
    let! lflag := lget l_lflag in
    (if (stream =? stdin) && has_flag lflag ECHO then
       let! o := get_file stdout in write (f_fd o) [ch] ;;! lret tt
     else lret tt) ;;!
    lret ch
  else
    (if fst r =? 0 then upd_file stream (fl_set_eof true) else upd_file stream (fl_set_err true)) ;;!
    lret EOF.
Definition getc (stream : Z) : LM Z := fgetc stream.
Definition getchar : LM Z := fgetc stdin.
Definition ungetc (c : Z) (stream : option Z) : LM Z :=
  match stream with
  | None => lret EOF
  | Some s =>
      if c =? EOF then lret EOF
      else
        let! f := get_file s in
        if f_has_unget f then lret EOF
        else upd_file s (fun f => fl_set_eof false (fl_set_unget true (u8 c) f)) ;;! lret c
  end.
Definition fputc (c stream : Z) : LM Z :=
  let! f := get_file stream in
  let! r := write (f_fd f) [u8 c] in
  lret (if r =? 1 then c else EOF).
Definition putc (c stream : Z) : LM Z := fputc c stream.
Definition putchar (c : Z) : LM Z := fputc c stdout.
Definition fputs (s : list Z) (stream : Z) : LM Z :=
  let! f := get_file stream in
  let! r := write (f_fd f) s in
  lret (if r =? Z.of_nat (length s) then 0 else EOF).
Definition puts (s : list Z) : LM Z :=
  let! r := fputs s stdout in
  if r <? 0 then lret EOF else fputc 10 stdout.
Definition fflush (stream : option Z) : LM Z := lret 0.
Definition perror (s : option (list Z)) : LM unit :=
  match s with
  | None | Some [] => lret tt
  | Some s => fputs s stderr ;;! fputs (text ": ") stderr ;;! lret tt
  end ;;!
  fputs (text "error" ++ [10]) stderr ;;! lret tt.

(* ------------------------------------------------------------------ *)
(** ** Positions and states *)

Definition fseek (stream offset whence : Z) : LM Z :=
  let! f := get_file stream in
  let! ret := lseek (f_fd f) offset whence in
  if ret <? 0 then upd_file stream (fl_set_err true) ;;! lret (-1)
  else upd_file stream (fl_set_eof false) ;;! lret 0.
Definition ftell (stream : Z) : LM Z := let! f := get_file stream in lseek (f_fd f) 0 SEEK_CUR.
Definition rewind (stream : Z) : LM unit := fseek stream 0 SEEK_SET ;;! lret tt.
Definition feof (stream : Z) : LM bool := let! f := get_file stream in lret (f_eof f).
Definition ferror (stream : Z) : LM bool := let! f := get_file stream in lret (f_err f).
Definition clearerr (stream : Z) : LM unit := upd_file stream (fun f => fl_set_err false (fl_set_eof false f)).

(* ------------------------------------------------------------------ *)
(** ** Lines *)

(** The loop of [fgets] with room for [n] more bytes. *)
Fixpoint fgets_loop (n : nat) (stream : Z) (s : list Z) : LM (list Z) :=
  match n with
  | O => lret s
  | S n' =>
      let! c := fgetc stream in
      if c =? EOF then lret s
      else if c =? 10 then lret (s ++ [c])
      else fgets_loop n' stream (s ++ [c])
  end.
(** The bytes in front of the NUL; [has_s]: [s] is not null. *)
Definition fgets (has_s : bool) (size stream : Z) : LM (option (list Z)) :=
  if negb has_s || (size <=? 0) then lret None
  else
    let! s := fgets_loop (Z.to_nat (size - 1)) stream [] in
    lret (match s with [] => None | _ => Some s end).

(** A store of [c] behind the [len] bytes of the line so far, in a buffer of [n]
    bytes; behind the end of the buffer it is undefined behaviour. *)
Definition store_char (n : Z) (buf : list Z) (c : Z) : LM (list Z) :=
  if Z.of_nat (length buf) <? n then lret (buf ++ [c]) else lundef.
(** The loop of [getdelim]: the last [c], the bytes stored and [*n]; no [c] when
    [realloc] fails.  [*lineptr] has [n] bytes. *)
Fixpoint getdelim_loop (fuel : nat) (delim stream : Z) (buf : list Z) (n : Z) : LM (option Z * list Z * Z) :=
  match fuel with
  | O => fun _ => Spin
  | S f =>
      let! c := fgetc stream in
      if c =? EOF then lret (Some c, buf, n)
      else
        let grow := n <=? u64 (Z.of_nat (length buf) + 1) in
        let next := u64 (n * 2) in
        if grow && negb (has_room next) then lret (None, buf, n)
        else
          let n := if grow then next else n in
          let! buf := store_char n buf (u8 c) in
          if c =? delim then lret (Some c, buf, n) else getdelim_loop f delim stream buf n
  end.
(** The result, the bytes of [*lineptr] (without the NUL that ends a line that is
    returned), and [*n]; [n] is [None] for a [*lineptr] that is null, else
    [*lineptr] has [n] bytes.  The pointers are not null. *)
Definition getdelim (fuel : nat) (n : option Z) (delim stream : Z) : LM (Z * list Z * Z) :=
  let fresh := match n with None => true | Some n => n =? 0 end in
  let n := if fresh then 128 else default 0 n in
  if fresh && negb (has_room n) then lret (-1, [], n)
  else
    let! r := getdelim_loop fuel delim stream [] n in
    let '(c, buf, n) := r in
    match c with
    | None => lret (-1, buf, n)
    | Some c =>
        if (length buf =? 0)%nat && (c =? EOF) then lret (-1, buf, n)
        else store_char n buf 0 ;;! lret (Z.of_nat (length buf), buf, n)
    end.
Definition getline (fuel : nat) (n : option Z) (stream : Z) : LM (Z * list Z * Z) := getdelim fuel n 10 stream.

(* ------------------------------------------------------------------ *)
(** ** Formatted output *)

(** The arguments, as in [LibcFmt]; [buf] of [vfprintf] lies at [FRAME]. *)
Context (text_at : Z -> list Z) (ap : nat -> Z).
Definition FRAME : Z := 4096.
Definition buf_text (m : mem) (n : nat) : list Z :=
  let bytes := load_bytes m FRAME n in take (Z.to_nat (strlen (Some bytes))) bytes.
Definition vfprintf (stream : Z) (fmt : list Z) : LM Z :=
  match vsnprintf text_at ap ∅ FRAME 1024 fmt with
  | None => lundef
  | Some (m, ret) =>
      let! f := get_file stream in
      write (f_fd f) (buf_text m 1024) ;;!
      lret ret
  end.
Definition fprintf (stream : Z) (fmt : list Z) : LM Z := vfprintf stream fmt.
Definition vprintf (fmt : list Z) : LM Z := vfprintf stdout fmt.
Definition printf (fmt : list Z) : LM Z := vfprintf stdout fmt.
(** The result and the text at [*strp]. *)
Definition vasprintf (fmt : list Z) : LM (Z * option (list Z)) :=
  match vsnprintf text_at ap ∅ 0 0 fmt with
  | None => lundef
  | Some (_, len) =>
      if len <? 0 then lret (-1, None)
      else if negb (has_room (len + 1)) then set_errno 12 ;;! lret (-1, None)
      else
        match vsnprintf text_at ap ∅ FRAME (len + 1) fmt with
        | None => lundef
        | Some (m, _) => lret (len, Some (buf_text m (Z.to_nat (len + 1))))
        end
  end.
Definition asprintf (fmt : list Z) : LM (Z * option (list Z)) := vasprintf fmt.

(* ------------------------------------------------------------------ *)
(** ** Directories *)

Definition get_dir (dirp : Z) : LM DIR :=
  fun l => match l_dirs l !! dirp with Some d => Done (d, l) | None => Undef end.
Definition opendir (name : list Z) : LM (option Z) :=
  let! fd := open name O_RDONLY in
  if fd <? 0 then lret None
  else fun l =>
    match new_dir (l_dirs l) with
    | Some p => Done (Some p, l_set_dirs (<[p := mkDIR fd (LibcDirent 0 (replicate 14 0))]> (l_dirs l)) l)
    | None => (close fd ;;! lret None) l
    end.
Fixpoint readdir_loop (fuel : nat) (dirp : Z) (d : DIR) : LM (option libc_dirent) :=
  match fuel with
  | O => fun _ => Spin
  | S f =>
      let! r := read (d_fd d) 16 in
      if fst r =? 16 then
        let inum := le_val (take 2 (snd r)) in
        if inum =? 0 then readdir_loop f dirp d
        else
          let ent := LibcDirent inum (slice (snd r) 2 14) in
          lmod (fun l => l_set_dirs (<[dirp := mkDIR (d_fd d) ent]> (l_dirs l)) l) ;;! lret (Some ent)
      else lret None
  end.
Definition readdir (fuel : nat) (dirp : option Z) : LM (option libc_dirent) :=
  match dirp with
  | None => lret None
  | Some p => let! d := get_dir p in readdir_loop fuel p d
  end.
Definition closedir (dirp : option Z) : LM Z :=
  match dirp with
  | None => lret (-1)
  | Some p =>
      let! d := get_dir p in
      let! ret := close (d_fd d) in
      lmod (fun l => l_set_dirs (delete p (l_dirs l)) l) ;;!
      lret ret
  end.

(** [realpath] into a buffer of 128 bytes at [out], or a new one. *)
Definition realpath (path : option (list Z)) (out : option (list Z)) : LM (option (list Z)) :=
  match path with
  | None => lret None
  | Some path =>
      if match out with None => negb (has_room 128) | Some _ => false end then lret None
      else
        let out := default (replicate 128 0) out in
        if char0 path =? 47 then lret (Some (copy_cstr out 128 (Some path)))
        else
          let! cwd := getcwd true 128 in
          match cwd with
          | None => lret None
          | Some cwd =>
              let out := copy_cstr out 128 (Some cwd) in
              let pos := Z.to_nat (strlen (Some out)) in
              let slash := (pos + 1 <? 128)%nat && negb ((pos =? 1)%nat && (char0 out =? 47)) in
              let out := if slash then <[pos := 47]> out else out in
              let pos := if slash then S pos else pos in
              lret (Some (take pos out ++ copy_cstr (drop pos out) (128 - pos) (Some path)))
          end
  end.
End stdio.

(** The arguments of a call of [printf]: numbers, and strings or null pointers. *)
Inductive carg := CInt (v : Z) | CStr (s : option (list Z)).
Definition carg_text (args : list carg) (p : Z) : list Z :=
  match args !! Z.to_nat (p - 1) with Some (CStr (Some s)) => s | _ => [] end.
Definition carg_word (args : list carg) (i : nat) : Z :=
  match args !! i with
  | Some (CInt v) => v
  | Some (CStr (Some _)) => Z.of_nat i + 1
  | _ => 0
  end.
Definition cprintf (fmt : list Z) (args : list carg) : LM unit :=
  printf (carg_text args) (carg_word args) fmt ;;! lret tt.
