(* ===== verification/LibcStdioSpec.v ===== *)
(** Streams read what is in a file: [getline] gives its lines one by one in a
    buffer that has room for them, [printf] writes the text of its format. *)

From S2P Require Import Prelude Memory Prog LibcStr LibcFmt LibcFmtSpec LibcSys LibcStdio Tools ToolsSpec.

(* ------------------------------------------------------------------ *)
(** ** Library code against a kernel *)

Lemma lrun_bind {S A B} (h : kernel_of S) (m : LM A) (k : A -> LM B) l s a l' s' :
  run h (m l) s = (Returned (a, l'), s') -> run h (lbind m k l) s = run h (k a l') s'.
Proof. intros H. unfold lbind. by rewrite (run_returned _ _ _ _ _ _ H). Qed.
Lemma lrun_ret_bind {S A B} (h : kernel_of S) (a : A) (k : A -> LM B) l s :
  run h (lbind (lret a) k l) s = run h (k a l) s.
Proof. reflexivity. Qed.

Lemma io_avail_advance w fd k rest :
  io_avail w fd = Some rest -> io_avail (io_advance fd k (io_skip w)) fd = Some (drop k rest).
Proof.
  unfold io_avail, io_advance. destruct (Z.eqb_spec fd 0); cbn; [by intros [= <-]|].
  destruct (io_fds w !! fd) as [[path off]|] eqn:E; cbn; [|done].
  rewrite lookup_alter_eq, E. cbn. destruct (io_files w !! path); cbn; [|done].
  intros [= <-]. by rewrite drop_drop.
Qed.

(** The stream [p] has [rest] left to read, and nothing was pushed back. *)
Record stream_at (l : libc) (w : io) (p : Z) (rest : list Z) : Prop := StreamAt {
  sa_file : exists f, l_files l !! p = Some f /\ f_has_unget f = false /\ io_avail w (f_fd f) = Some rest;
  sa_echo : p <> stdin \/ has_flag (l_lflag l) ECHO = false;
}.
Lemma echo_off l p : p <> stdin \/ has_flag (l_lflag l) ECHO = false -> (p =? stdin) && has_flag (l_lflag l) ECHO = false.
Proof. intros [H| ->]; [by rewrite (proj2 (Z.eqb_neq p stdin))|apply andb_false_r]. Qed.

Lemma io_read_one w fd c rest :
  io_avail w fd = Some (c :: rest) -> io_read fd 1 w = (1, [c], io_advance fd 1 (io_skip w)).
Proof.
  intros Ha. unfold io_read. rewrite Ha. assert (io_amount 1 (length (c :: rest)) w = 1%nat) as ->.
  { unfold io_amount. cbn. destruct (io_sizes w); lia. }
  done.
Qed.
Lemma lrun_lget {S A B} (h : kernel_of S) (f : libc -> A) (k : A -> LM B) l s :
  run h (lbind (lget f) k l) s = run h (k (f l) l) s.
Proof. reflexivity. Qed.
Lemma lrun_get_file {S B} (h : kernel_of S) p f l s (k : FILE -> LM B) :
  l_files l !! p = Some f -> run h (lbind (get_file p) k l) s = run h (k f l) s.
Proof. intros Hf. unfold lbind, get_file. by rewrite Hf. Qed.
Lemma lrun_read fd n l w r data w' :
  io_read fd (Z.to_nat n) w = (r, data, w') -> 0 <= r < 2 ^ 63 ->
  run io_kernel (read fd n l) w = (Returned ((r, take (Z.to_nat r) data), l), w').
Proof.
  intros Hr Hb. unfold read, sys, lbind. rewrite run_assoc, run_call. cbn [io_kernel]. rewrite Hr. cbn [pbind fst snd].
  rewrite s64_id by lia. rewrite (proj2 (Z.ltb_ge r 0)) by lia. reflexivity.
Qed.
Lemma lrun_done {A} (m : LM A) l a l' (w : io) :
  m l = Done (a, l') -> run io_kernel (m l) w = (Returned (a, l'), w).
Proof. by intros ->. Qed.
Lemma lrun_sys {X} (e : sysE X) l w x w' :
  io_kernel X e w = (Some x, w') -> run io_kernel (sys e l) w = (Returned (x, l), w').
Proof. intros E. unfold sys. rewrite run_call, E. reflexivity. Qed.

(** Reading from the stream [p] leaves the rest as it was. *)
Record around (p : Z) (l : libc) (w : io) (l' : libc) (w' : io) : Prop := Around {
  ar_streams : delete p (l_files l') = delete p (l_files l);
  ar_fd : f_fd <$> l_files l' !! p = f_fd <$> l_files l !! p;
  ar_unlink : f_unlink_on_close <$> l_files l' !! p = f_unlink_on_close <$> l_files l !! p;
  ar_files : io_files w' = io_files w;
  ar_next : io_next w' = io_next w;
  ar_in : f_fd <$> l_files l !! p <> Some 0 -> io_in w' = io_in w;
  ar_sizes : io_sizes w = [] -> io_sizes w' = [];
}.
Lemma around_same p l w : around p l w l w.
Proof. by constructor. Qed.
Lemma around_trans p l w l1 w1 l2 w2 : around p l w l1 w1 -> around p l1 w1 l2 w2 -> around p l w l2 w2.
Proof.
  intros [A1 A2 A7 A3 A4 A5 A6] [B1 B2 B7 B3 B4 B5 B6].
  constructor; [congruence..| |by intros; apply B6, A6].
  intros H. rewrite B5, A5 by congruence. done.
Qed.

Lemma fgetc_reads l w p c rest :
  stream_at l w p (c :: rest) ->
  exists w', run io_kernel (fgetc p l) w = (Returned (c, l), w') /\ stream_at l w' p rest /\ around p l w l w'.
Proof.
  intros [(f & Hf & Hu & Ha) He]. exists (io_advance (f_fd f) 1 (io_skip w)). split; [|split].
  - unfold fgetc. rewrite (lrun_get_file _ _ _ _ _ _ Hf).
    rewrite (lrun_bind _ _ _ _ _ _ _ _ (lrun_read (f_fd f) 1 l w _ _ _ (io_read_one _ _ _ _ Ha) ltac:(lia))).
    rewrite (lrun_get_file _ _ _ _ _ _ Hf), Hu. cbn [fst snd Z.eqb Pos.eqb].
    rewrite lrun_lget, (echo_off _ _ He). reflexivity.
  - constructor; [|done]. exists f. split_and!; [done..|]. by rewrite (io_avail_advance _ _ _ _ Ha).
  - unfold io_advance. constructor; [done|done|done| | | |].
    all: destruct (Z.eqb_spec (f_fd f) 0) as [Hz|Hz]; cbn; try done.
    + rewrite Hf. cbn. by rewrite Hz.
    + by intros ->.
    + by intros ->.
Qed.
Lemma fgetc_ends l w p :
  stream_at l w p [] ->
  exists l', run io_kernel (fgetc p l) w = (Returned (EOF, l'), w) /\ stream_at l' w p [] /\ around p l w l' w.
Proof.
  intros [(f & Hf & Hu & Ha) He]. assert (io_read (f_fd f) (Z.to_nat 1) w = (0, [], w)) as Hr by (unfold io_read; by rewrite Ha).
  eexists. split; [|split].
  - unfold fgetc. rewrite (lrun_get_file _ _ _ _ _ _ Hf).
    rewrite (lrun_bind _ _ _ _ _ _ _ _ (lrun_read (f_fd f) 1 l w _ _ _ Hr ltac:(lia))).
    rewrite (lrun_get_file _ _ _ _ _ _ Hf), Hu. reflexivity.
  - constructor; [|done]. exists (fl_set_eof true f). cbn. by rewrite lookup_alter_eq, Hf.
  - constructor; cbn; [by rewrite delete_alter_eq|by rewrite lookup_alter_eq, Hf..|done|done|done|done].
Qed.

(* ------------------------------------------------------------------ *)
(** ** Lines *)

(** The first line with its delimiter, and what follows it. *)
Fixpoint cut_line (delim : Z) (s : list Z) : list Z * list Z :=
  match s with
  | [] => ([], [])
  | c :: s' => if c =? delim then ([c], s') else let '(a, b) := cut_line delim s' in (c :: a, b)
  end.
(** The lines of a text: all but the last end with the delimiter. *)
Fixpoint split_lines (delim : Z) (s : list Z) : list (list Z) :=
  match s with
  | [] => []
  | c :: s' =>
      if c =? delim then [c] :: split_lines delim s'
      else match split_lines delim s' with [] => [[c]] | a :: ls => (c :: a) :: ls end
  end.
Lemma cut_line_app delim s : fst (cut_line delim s) ++ snd (cut_line delim s) = s.
Proof. induction s as [|c s IH]; cbn; [done|]. destruct (c =? delim); [done|]. destruct (cut_line delim s). cbn in *. by rewrite IH. Qed.
Lemma split_cut delim s :
  s <> [] -> split_lines delim s = fst (cut_line delim s) :: split_lines delim (snd (cut_line delim s)).
Proof.
  induction s as [|c s IH]; [done|]. intros _. cbn. destruct (c =? delim); [done|].
  destruct (decide (s = [])) as [->|Hne]; [done|]. rewrite IH by done. by destruct (cut_line delim s).
Qed.

Lemma lrun_store {S B} (h : kernel_of S) n buf c (k : list Z -> LM B) l s :
  Z.of_nat (length buf) < n -> run h (lbind (store_char n buf c) k l) s = run h (k (buf ++ [c]) l) s.
Proof. intros H. unfold store_char. by rewrite (proj2 (Z.ltb_lt _ _) H). Qed.

Section lines.
Context (delim p : Z).

Lemma getdelim_loop_reads fuel rest buf n l w :
  stream_at l w p rest -> Forall is_byte rest -> (length rest < fuel)%nat ->
  Z.of_nat (length buf) < n -> Z.of_nat (length buf + length rest) < 2 ^ 62 ->
  exists c n' l' w',
    run io_kernel (getdelim_loop (fun _ => true) fuel delim p buf n l) w
      = (Returned (Some c, buf ++ fst (cut_line delim rest), n', l'), w') /\
    Z.of_nat (length (buf ++ fst (cut_line delim rest))) < n' /\
    stream_at l' w' p (snd (cut_line delim rest)) /\ (rest = [] -> c = EOF) /\ around p l w l' w'.
Proof.
  revert rest buf n l w. induction fuel as [|fuel IH]; intros rest buf n l w Hs Hb Hf Hn Hlen; [lia|].
  cbn [getdelim_loop]. destruct rest as [|c rest].
  - destruct (fgetc_ends _ _ _ Hs) as (l' & Hrun & Hs' & Ha). rewrite (lrun_bind _ _ _ _ _ _ _ _ Hrun).
    cbn. rewrite app_nil_r. by eexists _, _, _, _.
  - destruct (fgetc_reads _ _ _ _ _ Hs) as (w' & Hrun & Hs' & Ha). rewrite (lrun_bind _ _ _ _ _ _ _ _ Hrun).
    inversion Hb as [|? ? Hc Hb']; subst. unfold is_byte in Hc. rewrite (proj2 (Z.eqb_neq c EOF)) by (unfold EOF; lia).
    rewrite andb_false_r. cbn [negb andb]. rewrite u8_id by lia. cbn [length] in Hf, Hlen.
    rewrite (u64_id (Z.of_nat (length buf) + 1)) by lia.
    set (n1 := if n <=? Z.of_nat (length buf) + 1 then u64 (n * 2) else n).
    assert (Z.of_nat (length (buf ++ [c])) < n1) as Hn1.
    { rewrite length_app. cbn [length]. unfold n1. destruct (Z.leb_spec n (Z.of_nat (length buf) + 1)); [rewrite u64_id|]; lia. }
    rewrite lrun_store by (rewrite length_app in Hn1; cbn [length] in Hn1; lia).
    cbn [cut_line]. destruct (Z.eqb_spec c delim) as [->|Hd].
    + cbn [fst snd]. by eexists _, _, _, _.
    + destruct (IH rest (buf ++ [c]) n1 l w' Hs' Hb') as (c' & n' & l' & w2 & Hrun' & Hn' & Hs2 & _ & Ha2);
        [lia|done|rewrite length_app; cbn; lia|].
      rewrite Hrun'. destruct (cut_line delim rest) as [a b]. cbn [fst snd] in *. rewrite <- app_assoc in *. cbn [app] in *.
      pose proof (around_trans _ _ _ _ _ _ _ Ha Ha2). eexists _, _, _, _. by split_and!.
Qed.

Lemma getdelim_reads fuel rest n l w :
  stream_at l w p rest -> Forall is_byte rest -> (length rest < fuel)%nat ->
  Z.of_nat (length rest) < 2 ^ 62 -> (forall n0, n = Some n0 -> 0 <= n0) ->
  exists n' l' w',
    run io_kernel (getdelim (fun _ => true) fuel n delim p l) w
      = (Returned ((if (length rest =? 0)%nat then -1 else Z.of_nat (length (fst (cut_line delim rest)))),
                   fst (cut_line delim rest), n', l'), w') /\
    Z.of_nat (length (fst (cut_line delim rest))) < n' /\
    stream_at l' w' p (snd (cut_line delim rest)) /\ around p l w l' w'.
Proof.
  intros Hs Hb Hf Hlen Hn. unfold getdelim. rewrite andb_false_r. cbn [negb].
  set (n1 := if match n with None => true | Some n => n =? 0 end then 128 else default 0 n).
  assert (0 < n1) as Hn1.
  { unfold n1. destruct n as [n0|]; [|lia]. specialize (Hn n0 eq_refl). destruct (Z.eqb_spec n0 0); cbn; lia. }
  destruct (getdelim_loop_reads fuel rest [] n1 l w Hs Hb Hf) as (c & n' & l' & w' & Hrun & Hn' & Hs' & Hc & Ha); [done|done|].
  rewrite (lrun_bind _ _ _ _ _ _ _ _ Hrun). cbn [app] in *.
  exists n', l', w'. split; [|done]. destruct rest as [|x rest].
  - rewrite Hc by done. reflexivity.
  - assert (length (fst (cut_line delim (x :: rest))) <> 0)%nat as Hl.
    { cbn. destruct (x =? delim); [done|]. by destruct (cut_line delim rest). }
    rewrite (proj2 (Nat.eqb_neq _ _) Hl). cbn [andb]. by rewrite lrun_store.
Qed.

(** A program that reads lines until there are no more. *)
Fixpoint read_lines (rounds fuel : nat) (n : option Z) (lines : list (list Z)) : LM (list (list Z)) :=
  match rounds with
  | O => fun _ => Spin
  | S r =>
      let! x := getdelim (fun _ => true) fuel n delim p in
      let '(ret, line, n) := x in
      if ret <? 0 then lret lines else read_lines r fuel (Some n) (lines ++ [line])
  end.
End lines.

(** C31: while there is memory for its buffer, reading a stream with [getdelim]
    until it returns -1 gives the lines of the file, each with its delimiter, in
    their order, and nothing else: the lines joined are the file, whatever the
    file has in it.  The buffer is grown in time: every byte of a line, and the
    NUL behind it, is stored below the size [*n] of the buffer, however long
    the line is (a store behind the buffer would be undefined behaviour). *)
Theorem getdelim_lines delim p rest l w rounds fuel :
  stream_at l w p rest -> Forall is_byte rest -> Z.of_nat (length rest) < 2 ^ 62 ->
  (length rest < fuel)%nat -> (length rest < rounds)%nat ->
  exists l' w',
    run io_kernel (read_lines delim p rounds fuel None [] l) w = (Returned (split_lines delim rest, l'), w') /\
    concat (split_lines delim rest) = rest.
Proof.
  intros Hs Hb Hlen Hf Hr.
  assert (concat (split_lines delim rest) = rest) as Hjoin.
  { clear. induction rest as [|c s IH]; cbn; [done|]. destruct (c =? delim); cbn; [by rewrite IH|].
    destruct (split_lines delim s); cbn in *; by rewrite <- IH. }
  cut (forall n lines, (forall n0, n = Some n0 -> 0 <= n0) -> exists l' w',
    run io_kernel (read_lines delim p rounds fuel n lines l) w = (Returned (lines ++ split_lines delim rest, l'), w')).
  { intros H. destruct (H None []) as (l' & w' & H'); [done|]. by exists l', w'. }
  clear Hjoin. revert rest l w Hs Hb Hlen Hf Hr. induction rounds as [|rounds IH]; intros rest l w Hs Hb Hlen Hf Hr n lines Hn; [lia|].
  cbn [read_lines]. destruct (getdelim_reads delim p fuel rest n l w Hs Hb Hf Hlen Hn) as (n' & l' & w' & Hrun & Hn' & Hs' & _).
  rewrite (lrun_bind _ _ _ _ _ _ _ _ Hrun). destruct rest as [|c rest].
  - cbn. rewrite app_nil_r. by eexists _, _.
  - cbn [length Nat.eqb]. rewrite (proj2 (Z.ltb_ge _ 0)) by lia.
    rewrite (split_cut delim (c :: rest)) by done. pose proof (cut_line_app delim (c :: rest)) as Happ.
    set (a := fst (cut_line delim (c :: rest))) in *. set (b := snd (cut_line delim (c :: rest))) in *.
    assert (a <> []) as Ha by (unfold a; cbn; destruct (c =? delim); [done|by destruct (cut_line delim rest)]).
    assert (length b < length (c :: rest))%nat as Hlt by (rewrite <- Happ, length_app; destruct a; [done|cbn; lia]).
    destruct (IH b l' w' Hs') with (n := Some n') (lines := lines ++ [a]) as (l2 & w2 & Hrun2); [| | | | |].
    + rewrite <- Happ in Hb. by apply Forall_app in Hb as [_ ?].
    + lia.
    + lia.
    + lia.
    + intros n0 [= <-]. lia.
    + rewrite Hrun2, <- app_assoc. by eexists _, _.
Qed.

(** A file of three lines, the second empty and the last without an end, on
    descriptor 5 and stream 9; the kernel answers one byte at a time or more. *)
Definition sample_text : list Z := text "two" ++ [10; 10] ++ text "last".
Definition sample_stream (sizes : list nat) : io :=
  IO {[ text "a" := sample_text ]} {[ 5 := (text "a", 0%nat) ]} 6 [] [] [] sizes None.
Definition sample_libc : libc := l_set_files (<[9 := file_of 5]> (l_files libc0)) libc0.
Lemma sample_stream_at sizes : stream_at sample_libc (sample_stream sizes) 9 sample_text.
Proof. constructor; [by exists (file_of 5)|by left]. Qed.

(** A file whose second line is longer than the first buffer of 128 bytes, and
    longer than the buffer of 256 bytes after it. *)
Definition long_text : list Z := text "one" ++ [10] ++ replicate 300 120 ++ [10].
Definition long_stream : io := IO {[ text "a" := long_text ]} {[ 5 := (text "a", 0%nat) ]} 6 [] [] [] [] None.
Lemma long_stream_at : stream_at sample_libc long_stream 9 long_text.
Proof. constructor; [by exists (file_of 5)|by left]. Qed.

Lemma getdelim_lines_witness :
  (exists l' w',
    run io_kernel (read_lines 10 9 20 20 None [] sample_libc) (sample_stream [])
      = (Returned ([text "two" ++ [10]; [10]; text "last"], l'), w')) /\
  (exists l' w',
    run io_kernel (read_lines 10 9 400 400 None [] sample_libc) long_stream
      = (Returned ([text "one" ++ [10]; replicate 300 120 ++ [10]], l'), w')).
Proof.
  split.
  - destruct (getdelim_lines 10 9 sample_text sample_libc (sample_stream []) 20 20 (sample_stream_at []))
      as (l' & w' & H & _); [|cbn; lia..|].
    + repeat constructor; vm_compute; intros; discriminate.
    + exists l', w'. exact H.
  - destruct (getdelim_lines 10 9 long_text sample_libc long_stream 400 400 long_stream_at)
      as (l' & w' & H & _); [|cbn; lia..|].
    + repeat constructor; vm_compute; intros; discriminate.
    + exists l', w'. exact H.
Defined.

(** A byte is lost behind [ungetc]: the call that gives the byte back has read
    another one. *)
Example ungetc_loses_byte :
  let prog : LM (Z * Z * Z) :=
    let! a := fgetc 9 in
    ungetc a (Some 9) ;;!
    let! b := fgetc 9 in
    let! c := fgetc 9 in
    lret (a, b, c) in
  fst <$> (match fst (run io_kernel (prog sample_libc) (sample_stream [])) with Returned x => Some x | _ => None end)
    = Some (116, 116, 111).
Proof. vm_compute. reflexivity. Qed.

(* ------------------------------------------------------------------ *)
(** ** printf *)

(** A text as the string that ends at its first NUL. *)
Definition c_string (s : list Z) : list Z := take (Z.to_nat (strlen (Some s))) s.
Lemma c_string_cons c s : c_string (c :: s) = if c =? 0 then [] else c :: c_string s.
Proof.
  unfold c_string. cbn. destruct (c =? 0); [done|].
  assert (0 <= strlen_loop s) by (induction s as [|x s IH]; cbn; [lia|]; destruct (x =? 0); lia).
  by rewrite Z2Nat.inj_add by lia.
Qed.
Lemma c_string_end s t : c_string (s ++ 0 :: t) = c_string s.
Proof. induction s as [|c s IH]; [done|]. cbn [app]. rewrite !c_string_cons, IH. done. Qed.

Lemma buf_text_printed text n :
  Forall is_byte text -> (length text < n)%nat ->
  buf_text (store_bytes ∅ FRAME (text ++ [0])) n = c_string text.
Proof.
  intros Hb Hn. unfold buf_text. destruct (load_printed ∅ FRAME text n Hb Hn) as [tail ->].
  apply c_string_end.
Qed.

(** [printf] writes the text of its format, up to its first NUL and to the
    1023 bytes that its buffer holds, to the descriptor of [stdout], in one
    [write], and returns the length of the whole text. *)
Theorem printf_prints text_at ap fmt f l w :
  l_files l !! stdout = Some f -> f_fd f = 1 ->
  exists text, formats text_at ap fmt 0 text /\
    run io_kernel (printf text_at ap fmt l) w =
      (Returned (s32 (Z.of_nat (length text)), l), io_put (c_string (take 1023 text)) w).
Proof.
  intros Hf Hfd. destruct (formats_total text_at ap fmt 0) as [text Ht]. exists text. split; [done|].
  unfold printf, vfprintf. rewrite (vsnprintf_text text_at ap fmt text) by (try done; unfold fits, FRAME; lia).
  rewrite (proj2 (Z.eqb_neq 1024 0)) by done. change (Z.to_nat (1024 - 1)) with 1023%nat.
  rewrite buf_text_printed; [|by apply Forall_take; eapply formats_byte|rewrite length_take; lia].
  rewrite (lrun_get_file _ _ _ _ _ _ Hf), Hfd.
  set (out := c_string (take 1023 text)).
  assert (length out <= 1023)%nat as Hl by (unfold out, c_string; rewrite length_take, length_take; lia).
  assert (run io_kernel (write 1 out l) w = (Returned (Z.of_nat (length out), l), io_put out w)) as Hw.
  { unfold write, sys, lbind. rewrite run_assoc, run_call. cbn [io_kernel io_write Z.eqb Pos.eqb]. cbn [pbind fst snd].
    unfold errno_if. rewrite s64_id by lia. by rewrite (proj2 (Z.ltb_ge _ 0)) by lia. }
  rewrite (lrun_bind _ _ _ _ _ _ _ _ Hw). reflexivity.
Qed.

(** [printf("%d%c", -7, '!')]. *)
Lemma printf_prints_witness :
  exists text w, formats (fun _ => []) (fun i => if (i =? 0)%nat then -7 else 33) [37; 100; 37; 99] 0 text /\
    run io_kernel (printf (fun _ => []) (fun i => if (i =? 0)%nat then -7 else 33) [37; 100; 37; 99] libc0) (sample_stream [])
      = (Returned (3, libc0), w) /\ io_out w = [45; 55; 33].
Proof.
  destruct (printf_prints (fun _ => []) (fun i => if (i =? 0)%nat then -7 else 33) [37; 100; 37; 99]
    (file_of 1) libc0 (sample_stream [])) as (text & Ht & Hrun); [reflexivity..|].
  assert (run io_kernel (printf (fun _ => []) (fun i => if (i =? 0)%nat then -7 else 33) [37; 100; 37; 99] libc0) (sample_stream [])
    = (Returned (3, libc0), io_put [45; 55; 33] (sample_stream []))) as Hc by (vm_compute; reflexivity).
  exists text, (io_put [45; 55; 33] (sample_stream [])). split; [exact Ht|]. split; [|reflexivity].
  rewrite Hrun in Hc |- *. exact Hc.
Defined.
