(* ===== verification/Userland.v ===== *)
(** The programs of [src/userland], over the library of [LibcStdio.v]: [cat2],
    [lines], [wc2], [grep2], [diff2] and [hello]. *)

From S2P Require Import Prelude Memory Prog LibcStr LibcFmt LibcSys LibcStdio.

Definition STDOUT_FILENO : Z := 1.
Definition newline : list Z := [10].
(** [printf] with the newline at the end of its format. *)
Definition print_line (fmt : list Z) (args : list carg) : LM unit := cprintf (fmt ++ newline) args.

(** The loops [while ((n = read(fd, buf, cap)) > 0) ...]: [body] gets the bytes read,
    and may end the function with a value.  The last [n] and the state, or that
    value. *)
Fixpoint each_read {A B} (fuel : nat) (fd cap : Z) (body : list Z -> A -> LM (A + B)) (a : A) : LM (A * Z + B) :=
  match fuel with
  | O => fun _ => Spin
  | S fuel' =>
      let! r := read fd cap in
      let '(n, buf) := r in
      if 0 <? n then
        let! x := body buf a in
        match x with
        | inl a => each_read fuel' fd cap body a
        | inr b => lret (inr b)
        end
      else lret (inl (a, n))
  end.

(* ------------------------------------------------------------------ *)
(** ** cat.c *)

Fixpoint cat2_write (fuel : nat) (buf : list Z) (written : Z) : LM bool :=
  match fuel with
  | O => fun _ => Spin
  | S fuel' =>
      if written <? Z.of_nat (length buf) then
        let! m := write STDOUT_FILENO (drop (Z.to_nat written) buf) in
        if m <=? 0 then lret false else cat2_write fuel' buf (written + m)
      else lret true
  end.
(** [name] is [None] for a null pointer. *)
Definition cat2_copy_fd (fuel : nat) (fd : Z) (name : option (list Z)) : LM Z :=
  let! r := each_read fuel fd 512 (fun buf _ =>
    let! ok := cat2_write 513 buf 0 in
    if ok then lret (inl tt) else print_line (text "cat2: write error") [] ;;! lret (inr (-1))) tt in
  match r with
  | inr e => lret e
  | inl (_, n) =>
      if n <? 0 then
        match name with
        | Some name => print_line (text "cat2: read error %s") [CStr (Some name)]
        | None => print_line (text "cat2: read error") []
        end ;;!
        lret (-1)
      else lret 0
  end.
Fixpoint cat2_files (fuel : nat) (paths : list (list Z)) (status : Z) : LM Z :=
  match paths with
  | [] => lret status
  | path :: paths =>
      let! fd := open path O_RDONLY in
      if fd <? 0 then print_line (text "cat2: cannot open %s") [CStr (Some path)] ;;! cat2_files fuel paths 1
      else
        let! r := cat2_copy_fd fuel fd (Some path) in
        close fd ;;!
        cat2_files fuel paths (if r <? 0 then 1 else status)
  end.
Definition cat2_main (fuel : nat) (argv : list (list Z)) : LM Z :=
  match argv with
  | [_] => let! r := cat2_copy_fd fuel 0 None in lret (if r <? 0 then 1 else 0)
  | _ => cat2_files fuel (tail argv) 0
  end.

(* ------------------------------------------------------------------ *)
(** ** lines.c *)

Fixpoint lines_buf (buf : list Z) (lines : Z) : Z :=
  match buf with
  | [] => lines
  | c :: buf => lines_buf buf (if c =? 10 then s64 (lines + 1) else lines)
  end.
Definition lines_count_fd (fuel : nat) (fd : Z) (name : option (list Z)) : LM Z :=
  let! r := each_read fuel fd 256 (fun buf lines => lret (inl (B := Z) (lines_buf buf lines))) 0 in
  match r with
  | inr e => lret e
  | inl (lines, n) =>
      if n <? 0 then
        match name with
        | Some name => print_line (text "lines: read error %s") [CStr (Some name)]
        | None => print_line (text "lines: read error") []
        end ;;!
        lret (-1)
      else print_line (text "%ld") [CInt lines] ;;! lret 0
  end.
Fixpoint lines_files (fuel : nat) (paths : list (list Z)) (status : Z) : LM Z :=
  match paths with
  | [] => lret status
  | path :: paths =>
      let! fd := open path O_RDONLY in
      if fd <? 0 then print_line (text "lines: cannot open %s") [CStr (Some path)] ;;! lines_files fuel paths 1
      else
        let! r := lines_count_fd fuel fd (Some path) in
        close fd ;;!
        lines_files fuel paths (if r <? 0 then 1 else status)
  end.
Definition lines_main (fuel : nat) (argv : list (list Z)) : LM Z :=
  match argv with
  | [_] => let! r := lines_count_fd fuel 0 None in lret (if r <? 0 then 1 else 0)
  | _ => lines_files fuel (tail argv) 0
  end.

(* ------------------------------------------------------------------ *)
(** ** wc.c *)

Record wc2_counts := Wc2 { w2_lines : Z; w2_words : Z; w2_bytes : Z }.
Definition is_space_char (c : Z) : bool :=
  (c =? 32) || (c =? 10) || (c =? 9) || (c =? 13) || (c =? 11) || (c =? 12).
(** The loop of [count_buf]: the counts and [*in_word]. *)
Fixpoint wc2_count_chars (buf : list Z) (counts : wc2_counts) (in_word : bool) : wc2_counts * bool :=
  match buf with
  | [] => (counts, in_word)
  | c :: buf =>
      let lines := if c =? 10 then s64 (w2_lines counts + 1) else w2_lines counts in
      if is_space_char c then wc2_count_chars buf (Wc2 lines (w2_words counts) (w2_bytes counts)) false
      else if negb in_word then wc2_count_chars buf (Wc2 lines (s64 (w2_words counts + 1)) (w2_bytes counts)) true
      else wc2_count_chars buf (Wc2 lines (w2_words counts) (w2_bytes counts)) in_word
  end.
Definition wc2_count_buf (buf : list Z) (counts : wc2_counts) (in_word : bool) : wc2_counts * bool :=
  wc2_count_chars buf (Wc2 (w2_lines counts) (w2_words counts) (s64 (w2_bytes counts + Z.of_nat (length buf)))) in_word.
Definition wc2_count_fd (fuel : nat) (fd : Z) (counts : wc2_counts) : LM (Z * wc2_counts) :=
  let! r := each_read fuel fd 512 (fun buf '(counts, in_word) =>
    lret (inl (B := Empty_set) (wc2_count_buf buf counts in_word))) (counts, false) in
  match r with
  | inr e => match e with end
  | inl (counts, _, n) => lret (if n <? 0 then -1 else 0, counts)
  end.
Definition wc2_add_counts (dst src : wc2_counts) : wc2_counts :=
  Wc2 (s64 (w2_lines dst + w2_lines src)) (s64 (w2_words dst + w2_words src)) (s64 (w2_bytes dst + w2_bytes src)).
Definition wc2_print_counts (counts : wc2_counts) (name : option (list Z)) : LM unit :=
  match name with
  | Some name =>
      print_line (text "%ld %ld %ld %s")
        [CInt (w2_lines counts); CInt (w2_words counts); CInt (w2_bytes counts); CStr (Some name)]
  | None => print_line (text "%ld %ld %ld") [CInt (w2_lines counts); CInt (w2_words counts); CInt (w2_bytes counts)]
  end.
Definition wc2_count_file (fuel : nat) (path : list Z) (counts : wc2_counts) : LM (Z * wc2_counts) :=
  let! fd := open path O_RDONLY in
  if fd <? 0 then print_line (text "wc2: cannot open %s") [CStr (Some path)] ;;! lret (-1, counts)
  else
    let! r := wc2_count_fd fuel fd counts in
    let '(r, counts) := r in
    if r <? 0 then print_line (text "wc2: read error %s") [CStr (Some path)] ;;! close fd ;;! lret (-1, counts)
    else close fd ;;! lret (0, counts).
(** The loop of [main]: the total and [had_error]. *)
Fixpoint wc2_files (fuel : nat) (paths : list (list Z)) (total : wc2_counts) (had_error : bool) : LM (wc2_counts * bool) :=
  match paths with
  | [] => lret (total, had_error)
  | path :: paths =>
      let! r := wc2_count_file fuel path (Wc2 0 0 0) in
      let '(r, counts) := r in
      if r <? 0 then wc2_files fuel paths total true
      else
        wc2_print_counts counts (Some path) ;;!
        wc2_files fuel paths (wc2_add_counts total counts) had_error
  end.
Definition wc2_main (fuel : nat) (argv : list (list Z)) : LM Z :=
  match argv with
  | [_] =>
      let! r := wc2_count_fd fuel 0 (Wc2 0 0 0) in
      let '(r, counts) := r in
      if r <? 0 then lret 1 else wc2_print_counts counts None ;;! lret 0
  | _ =>
      let! r := wc2_files fuel (tail argv) (Wc2 0 0 0) false in
      let '(total, had_error) := r in
      (if (2 <? length argv)%nat then wc2_print_counts total (Some (text "total")) else lret tt) ;;!
      lret (if had_error then 1 else 0)
  end.

(* ------------------------------------------------------------------ *)
(** ** grep.c *)

Definition GREP2_LINE_CAP : Z := 1024.
Definition GREP2_READ_CAP : Z := 256.
Definition grep2_line_matches (pattern line : list Z) : bool := bool_decide (is_Some (strstr line pattern)).
Definition grep2_print_match (name : list Z) (show_name : bool) (line : list Z) : LM unit :=
  if show_name then print_line (text "%s:%s") [CStr (Some name); CStr (Some line)]
  else print_line (text "%s") [CStr (Some line)].
(** [line[0..pos)] is [line]; [*pos] is 0 afterwards. *)
Definition grep2_flush_line (pattern name : list Z) (show_name : bool) (line : list Z) : LM bool :=
  let matched := grep2_line_matches pattern line in
  (if matched then grep2_print_match name show_name line else lret tt) ;;!
  lret matched.
(** The loop over the bytes that were read, with the line so far and [matched]. *)
Fixpoint grep2_buf (pattern name : list Z) (show_name : bool) (buf line : list Z) (matched : bool)
    : LM (list Z * bool) :=
  match buf with
  | [] => lret (line, matched)
  | c :: buf =>
      if c =? 13 then grep2_buf pattern name show_name buf line matched
      else if c =? 10 then
        let! m := grep2_flush_line pattern name show_name line in
        grep2_buf pattern name show_name buf [] (if m then true else matched)
      else
        grep2_buf pattern name show_name buf
          (if Z.of_nat (length line) <? GREP2_LINE_CAP - 1 then line ++ [c] else line) matched
  end.
Definition grep2_fd (fuel : nat) (fd : Z) (name : list Z) (show_name : bool) (pattern : list Z) : LM bool :=
  let! r := each_read fuel fd GREP2_READ_CAP (fun buf '(line, matched) =>
    let! x := grep2_buf pattern name show_name buf line matched in lret (inl (B := Empty_set) x)) ([], false) in
  match r with
  | inr e => match e with end
  | inl (line, matched, _) =>
      if (0 <? length line)%nat then
        let! m := grep2_flush_line pattern name show_name line in lret (if m then true else matched)
      else lret matched
  end.
(** The result and [*had_error]. *)
Definition grep2_file (fuel : nat) (path : list Z) (show_name : bool) (pattern : list Z) (had_error : bool)
    : LM (bool * bool) :=
  let! fd := open path O_RDONLY in
  if fd <? 0 then print_line (text "grep2: cannot open %s") [CStr (Some path)] ;;! lret (false, true)
  else
    let! matched := grep2_fd fuel fd path show_name pattern in
    close fd ;;!
    lret (matched, had_error).
Fixpoint grep2_files (fuel : nat) (paths : list (list Z)) (show_name : bool) (pattern : list Z) (matched had_error : bool)
    : LM (bool * bool) :=
  match paths with
  | [] => lret (matched, had_error)
  | path :: paths =>
      let! r := grep2_file fuel path show_name pattern had_error in
      let '(m, had_error) := r in
      grep2_files fuel paths show_name pattern (if m then true else matched) had_error
  end.
Definition grep2_main (fuel : nat) (argv : list (list Z)) : LM Z :=
  match argv with
  | _ :: pattern :: paths =>
      let! r :=
        match paths with
        | [] => let! m := grep2_fd fuel 0 [45] false pattern in lret (m, false)
        | _ => grep2_files fuel paths (1 <? length paths)%nat pattern false false
        end in
      let '(matched, had_error) := r in
      lret (if had_error then 1 else if matched then 0 else 1)
  | _ => print_line (text "usage: grep2 PATTERN [FILE...]") [] ;;! lret 1
  end.

(* ------------------------------------------------------------------ *)
(** ** diff.c *)

Definition DIFF2_LINE_CAP : Z := 512.
(** The loop of [read_line] with [buf[0..pos)] and [*truncated]: the result, the
    line and [*truncated]. *)
Fixpoint diff2_read_line (fuel : nat) (fd cap : Z) (buf : list Z) (truncated : bool) : LM (Z * list Z * bool) :=
  match fuel with
  | O => fun _ => Spin
  | S fuel' =>
      let! r := read fd 1 in
      let '(n, data) := r in
      let ch := char0 data in
      if n <? 0 then lret (-1, buf, truncated)
      else if n =? 0 then lret (if (length buf =? 0)%nat then 0 else 1, buf, truncated)
      else if ch =? 13 then diff2_read_line fuel' fd cap buf truncated
      else if ch =? 10 then lret (1, buf, truncated)
      else if Z.of_nat (length buf) <? cap - 1 then diff2_read_line fuel' fd cap (buf ++ [ch]) truncated
      else diff2_read_line fuel' fd cap buf true
  end.
Definition diff2_print_difference (left right : list Z) (line : Z) (left_line right_line : option (list Z)) : LM unit :=
  print_line (text "%s %s differ: line %d") [CStr (Some left); CStr (Some right); CInt line] ;;!
  print_line (text "- %s") [CStr (Some (default (text "<EOF>") left_line))] ;;!
  print_line (text "+ %s") [CStr (Some (default (text "<EOF>") right_line))].
Definition diff2_read_error (name : list Z) (lfd rfd : Z) : LM Z :=
  print_line (text "diff2: read error %s") [CStr (Some name)] ;;! close lfd ;;! close rfd ;;! lret 1.
Fixpoint diff2_loop (rounds fuel : nat) (left right : list Z) (lfd rfd line : Z) : LM Z :=
  match rounds with
  | O => fun _ => Spin
  | S rounds' =>
      let! l := diff2_read_line fuel lfd DIFF2_LINE_CAP [] false in
      let! r := diff2_read_line fuel rfd DIFF2_LINE_CAP [] false in
      let '(lr, lbuf, ltrunc) := l in
      let '(rr, rbuf, rtrunc) := r in
      if lr <? 0 then diff2_read_error left lfd rfd
      else if rr <? 0 then diff2_read_error right lfd rfd
      else if (lr =? 0) && (rr =? 0) then close lfd ;;! close rfd ;;! lret 0
      else if negb (lr =? rr) || negb (Bool.eqb ltrunc rtrunc) || negb (strcmp lbuf rbuf =? 0) then
        diff2_print_difference left right line (if lr =? 0 then None else Some lbuf) (if rr =? 0 then None else Some rbuf) ;;!
        close lfd ;;!
        close rfd ;;!
        lret 1
      else diff2_loop rounds' fuel left right lfd rfd (s32 (line + 1))
  end.
Definition diff2_files (fuel : nat) (left right : list Z) : LM Z :=
  let! lfd := open left O_RDONLY in
  if lfd <? 0 then print_line (text "diff2: cannot open %s") [CStr (Some left)] ;;! lret 1
  else
    let! rfd := open right O_RDONLY in
    if rfd <? 0 then
      print_line (text "diff2: cannot open %s") [CStr (Some right)] ;;! close lfd ;;! lret 1
    else diff2_loop fuel fuel left right lfd rfd 1.
Definition diff2_main (fuel : nat) (argv : list (list Z)) : LM Z :=
  match argv with
  | [_; lpath; rpath] => diff2_files fuel lpath rpath
  | _ => print_line (text "usage: diff2 FILE1 FILE2") [] ;;! lret 1
  end.

(* ------------------------------------------------------------------ *)
(** ** hello.c *)

Definition hello_main : LM Z := print_line (text "HELLO_USERLAND") [] ;;! lret 0.
