(* ===== verification/UserlandSpec.v ===== *)
(** [diff2] compares files line by line. *)

From S2P Require Import Prelude Memory Prog LibcStr LibcFmt LibcFmtSpec LibcSys LibcStdio LibcStdioSpec Tools ToolsSpec Userland.

(* ------------------------------------------------------------------ *)
(** ** What diff2 compares *)

(** A line without the newline that ends it. *)
Definition chop (s : list Z) : list Z := match last s with Some 10 => removelast s | _ => s end.
(** The lines of a file; carriage returns do not count. *)
Definition diff_lines (s : list Z) : list (list Z) := chop <$> split_lines 10 (filter (fun c => c <> 13) s).
(** The part of a line that is compared: its first 511 bytes, up to a NUL, and
    whether there are more. *)
Definition line_key (s : list Z) : list Z * bool := (c_string (take 511 s), (511 <? length s)%nat).

(** [diff2_read_line] over what is left of a file; the last component is left
    afterwards. *)
Fixpoint scan_line (s buf : list Z) (truncated : bool) : Z * list Z * bool * list Z :=
  match s with
  | [] => (if (length buf =? 0)%nat then 0 else 1, buf, truncated, [])
  | c :: s =>
      if c =? 13 then scan_line s buf truncated
      else if c =? 10 then (1, buf, truncated, s)
      else if (length buf <? 511)%nat then scan_line s (buf ++ [c]) truncated
      else scan_line s buf true
  end.

Lemma chop_line s : chop (s ++ [10]) = s.
Proof. unfold chop. rewrite last_snoc. apply removelast_last. Qed.
Definition no_newline (x : list Z) : Prop := Forall (fun c => c <> 10) x.
Lemma chop_none x : no_newline x -> chop x = x.
Proof.
  intros Hx. unfold chop. destruct (last x) as [c|] eqn:E; [|done].
  apply last_Some_elem_of in E. eapply Forall_forall in Hx; [|exact E].
  destruct c as [|c|c]; try done. by do 4 (destruct c as [c|c|]; try done).
Qed.
Lemma split_lines_line x t : no_newline x -> split_lines 10 (x ++ 10 :: t) = (x ++ [10]) :: split_lines 10 t.
Proof.
  induction 1 as [|c x Hc _ IH]; [done|]. cbn [app split_lines]. rewrite (proj2 (Z.eqb_neq c 10)) by done. by rewrite IH.
Qed.
Lemma split_lines_last x : no_newline x -> x <> [] -> split_lines 10 x = [x].
Proof.
  induction 1 as [|c x Hc _ IH]; [done|]. intros _. cbn [split_lines]. rewrite (proj2 (Z.eqb_neq c 10)) by done.
  destruct x as [|d x]; [done|]. by rewrite IH.
Qed.

(** Behind the first bytes [x] of a line: the line and what follows it. *)
Lemma scan_line_eq s : forall x,
  no_newline x ->
  exists res line rest,
    scan_line s (take 511 x) (511 <? length x)%nat = (res, take 511 line, (511 <? length line)%nat, rest) /\
    (length rest <= length s)%nat /\
    match chop <$> split_lines 10 (x ++ filter (fun c => c <> 13) s) with
    | [] => res = 0
    | a :: ls => res = 1 /\ a = line /\ diff_lines rest = ls
    end.
Proof.
  induction s as [|c s IH]; intros x Hx; cbn [scan_line].
  - rewrite filter_nil, app_nil_r. eexists _, x, []. split; [reflexivity|]. split; [done|].
    destruct x as [|c x]; [done|]. rewrite split_lines_last by done. cbn [fmap list_fmap]. by rewrite chop_none.
  - destruct (Z.eqb_spec c 13) as [->|Hcr].
    + rewrite filter_cons_False by (intros H; by apply H). destruct (IH x Hx) as (res & line & rest & E & Hl & H).
      exists res, line, rest. split; [exact E|]. split; [cbn; lia|exact H].
    + rewrite filter_cons_True by done. destruct (Z.eqb_spec c 10) as [->|Hnl].
      * exists 1, x, s. split; [done|]. split; [cbn; lia|]. rewrite split_lines_line by done.
        cbn [fmap list_fmap]. by rewrite chop_line.
      * assert (no_newline (x ++ [c])) as Hx' by (apply Forall_app; split; [done|by repeat constructor]).
        destruct (IH (x ++ [c]) Hx') as (res & line & rest & E & Hl & H).
        rewrite <- app_assoc in H. exists res, line, rest. split; [|split; [cbn; lia|exact H]].
        rewrite <- E, length_app, length_take. cbn [length].
        destruct (Nat.ltb_spec (Nat.min 511 (length x)) 511).
        -- rewrite (take_ge x) by lia. rewrite take_ge by (rewrite length_app; cbn; lia). f_equal.
           rewrite !(proj2 (Nat.ltb_ge _ _)) by lia. done.
        -- rewrite take_app_le by lia. f_equal. symmetry. apply Nat.ltb_lt. lia.
Qed.

(* ------------------------------------------------------------------ *)
(** ** Reading a line *)

Lemma diff2_read_line_scans s : forall fuel fd buf tr l w,
  (length s < fuel)%nat -> fd <> 0 -> io_avail w fd = Some s ->
  exists w', run io_kernel (diff2_read_line fuel fd DIFF2_LINE_CAP buf tr l) w
      = (Returned (fst (scan_line s buf tr), l), w') /\
    io_avail w' fd = Some (snd (scan_line s buf tr)) /\
    (forall fd', fd' <> fd -> io_avail w' fd' = io_avail w fd') /\
    io_files w' = io_files w /\ io_out w' = io_out w.
Proof.
  induction s as [|c s IH]; intros fuel fd buf tr l w Hf Hfd Ha; (destruct fuel as [|fuel]; [cbn in Hf; lia|]);
    cbn [diff2_read_line scan_line].
  - assert (io_read fd (Z.to_nat 1) w = (0, [], w)) as Hr by (unfold io_read; by rewrite Ha).
    rewrite (lrun_bind _ _ _ _ _ _ _ _ (lrun_read fd 1 l w _ _ _ Hr ltac:(lia))).
    exists w. by destruct (length buf =? 0)%nat.
  - rewrite (lrun_bind _ _ _ _ _ _ _ _ (lrun_read fd 1 l w _ _ _ (io_read_one _ _ _ _ Ha) ltac:(lia))).
    set (w1 := io_advance fd 1 (io_skip w)).
    assert (io_avail w1 fd = Some s) as Ha1 by (unfold w1; rewrite (io_avail_advance _ _ _ _ Ha); done).
    assert (io_files w1 = io_files w /\ io_out w1 = io_out w) as [F1 F2]
      by (unfold w1, io_advance; by destruct (fd =? 0)).
    assert (forall fd', fd' <> fd -> io_avail w1 fd' = io_avail w fd') as F3.
    { intros fd' Hne. unfold w1, io_advance, io_avail. rewrite (proj2 (Z.eqb_neq fd 0)) by done. cbn.
      by rewrite lookup_alter_ne by done. }
    change (take (Z.to_nat 1) [c]) with [c]. cbv beta iota zeta. cbn [char0 hd].
    change (1 <? 0) with false. change (1 =? 0) with false. cbv iota. cbn [length] in Hf.
    assert (forall buf tr, exists w', run io_kernel (diff2_read_line fuel fd DIFF2_LINE_CAP buf tr l) w1
        = (Returned (fst (scan_line s buf tr), l), w') /\
      io_avail w' fd = Some (snd (scan_line s buf tr)) /\
      (forall fd', fd' <> fd -> io_avail w' fd' = io_avail w fd') /\
      io_files w' = io_files w /\ io_out w' = io_out w) as Hnext.
    { intros buf' tr'. destruct (IH fuel fd buf' tr' l w1) as (w' & E & G1 & G2 & G3 & G4); [lia|done|done|].
      exists w'. split; [exact E|]. split; [done|]. split; [|split; congruence]. intros fd' Hne. by rewrite G2, F3. }
    destruct (c =? 13); [apply Hnext|]. destruct (c =? 10); [by exists w1|].
    unfold DIFF2_LINE_CAP in *. destruct (Nat.ltb_spec (length buf) 511).
    + rewrite (proj2 (Z.ltb_lt _ _)) by lia. apply Hnext.
    + rewrite (proj2 (Z.ltb_ge _ _)) by lia. apply Hnext.
Qed.

Lemma strcmp_same a : forall b, strcmp a b = 0 <-> c_string a = c_string b.
Proof.
  induction a as [|c a IH]; intros b.
  - destruct b as [|d b]; cbn [strcmp char0 hd]; [done|]. rewrite c_string_cons. change (c_string []) with (@nil Z).
    destruct (Z.eqb_spec d 0) as [->|Hd]; [done|]. split; [lia|done].
  - cbn [strcmp]. rewrite c_string_cons. destruct (Z.eqb_spec c 0) as [->|Hc]; cbn [negb andb].
    + destruct b as [|d b]; cbn [char0 hd]; [done|]. rewrite c_string_cons.
      destruct (Z.eqb_spec d 0) as [->|Hd]; [done|]. split; [lia|done].
    + destruct b as [|d b]; cbn [char0 hd tl].
      * rewrite (proj2 (Z.eqb_neq c 0)) by done. change (c_string []) with (@nil Z). split; [lia|done].
      * rewrite c_string_cons. destruct (Z.eqb_spec c d) as [->|Hcd].
        -- rewrite IH, (proj2 (Z.eqb_neq d 0)) by done. split; [by intros ->|by intros [= ->]].
        -- destruct (d =? 0); [split; [lia|done]|]. split; [lia|by intros [= ->]].
Qed.

(** What the loop tests of two lines. *)
Lemma same_line la lb :
  negb (Bool.eqb (511 <? length la)%nat (511 <? length lb)%nat) || negb (strcmp (take 511 la) (take 511 lb) =? 0)
    = negb (bool_decide (line_key la = line_key lb)).
Proof.
  unfold line_key. rewrite <- negb_andb. f_equal.
  destruct (Z.eqb_spec (strcmp (take 511 la) (take 511 lb)) 0) as [E|E]; rewrite strcmp_same in E.
  - rewrite E, andb_true_r. destruct (511 <? length la)%nat, (511 <? length lb)%nat; cbn.
    all: first [by rewrite bool_decide_eq_true_2|by rewrite bool_decide_eq_false_2].
  - rewrite andb_false_r, bool_decide_eq_false_2; [done|]. by intros [= ? ?].
Qed.

(** Two files are open, and nothing has been printed. *)
Record comparing (w0 : io) (lfd rfd : Z) (a b : list Z) (w : io) : Prop := Comparing {
  cp_left : io_avail w lfd = Some a;
  cp_right : io_avail w rfd = Some b;
  cp_files : io_files w = io_files w0;
  cp_out : io_out w = io_out w0;
}.
Definition has_stdout (l : libc) : Prop := exists f, l_files l !! stdout = Some f /\ f_fd f = 1.

Lemma print_line_puts fmt args l w :
  has_stdout l -> exists s, run io_kernel (print_line fmt args l) w = (Returned (tt, l), io_put s w).
Proof.
  intros (f & Hf & Hfd). destruct (printf_prints (carg_text args) (carg_word args) (fmt ++ newline) f l w Hf Hfd) as (t & _ & E).
  unfold print_line, cprintf. rewrite (lrun_bind _ _ _ _ _ _ _ _ E). by eexists.
Qed.
Lemma lrun_close fd l w : exists r, run io_kernel (close fd l) w = (Returned (r, l), snd (io_close fd w)).
Proof.
  unfold close. destruct (io_close fd w) as [r w'] eqn:E. exists (s32 r).
  erewrite lrun_bind; [|apply lrun_sys; cbn [io_kernel]; rewrite E; reflexivity]. reflexivity.
Qed.
Lemma io_close_same fd w : io_files (snd (io_close fd w)) = io_files w /\ io_out (snd (io_close fd w)) = io_out w.
Proof. unfold io_close. by destruct (io_fds w !! fd). Qed.

(** Both descriptors are closed and the function returns. *)
Lemma closes_both (v lfd rfd : Z) l w :
  exists w', run io_kernel ((close lfd ;;! close rfd ;;! lret v) l) w = (Returned (v, l), w') /\
    io_files w' = io_files w /\ io_out w' = io_out w.
Proof.
  destruct (lrun_close lfd l w) as [r1 E1]. destruct (io_close_same lfd w) as [F1 F2].
  destruct (lrun_close rfd l (snd (io_close lfd w))) as [r2 E2]. destruct (io_close_same rfd (snd (io_close lfd w))) as [F3 F4].
  rewrite (lrun_bind _ _ _ _ _ _ _ _ E1), (lrun_bind _ _ _ _ _ _ _ _ E2).
  eexists. split; [reflexivity|]. split; congruence.
Qed.
Lemma difference_puts left right line la lb l w :
  has_stdout l ->
  exists s, run io_kernel (diff2_print_difference left right line la lb l) w = (Returned (tt, l), io_put s w).
Proof.
  intros Hl. unfold diff2_print_difference.
  destruct (print_line_puts (text "%s %s differ: line %d") [CStr (Some left); CStr (Some right); CInt line] l w Hl) as [s1 E1].
  rewrite (lrun_bind _ _ _ _ _ _ _ _ E1).
  destruct (print_line_puts (text "- %s") [CStr (Some (default (text "<EOF>") la))] l (io_put s1 w) Hl) as [s2 E2].
  rewrite (lrun_bind _ _ _ _ _ _ _ _ E2).
  destruct (print_line_puts (text "+ %s") [CStr (Some (default (text "<EOF>") lb))] l (io_put s2 (io_put s1 w)) Hl) as [s3 E3].
  rewrite E3. exists ((s1 ++ s2) ++ s3). by rewrite <- !io_put_put.
Qed.

Definition diff_keys (s : list Z) : list (list Z * bool) := line_key <$> diff_lines s.

Lemma diff2_loop_compares w0 left right lfd rfd fuel rounds : lfd <> 0 -> rfd <> 0 -> lfd <> rfd ->
  forall a b line l w, has_stdout l ->
  (length a < fuel)%nat -> (length b < fuel)%nat -> (length (diff_lines a) < rounds)%nat ->
  comparing w0 lfd rfd a b w ->
  exists w', run io_kernel (diff2_loop rounds fuel left right lfd rfd line l) w
      = (Returned (if decide (diff_keys a = diff_keys b) then 0 else 1, l), w') /\
    io_files w' = io_files w0 /\ (diff_keys a = diff_keys b -> io_out w' = io_out w0).
Proof.
  intros Hl0 Hr0 Hne. induction rounds as [|rounds IH]; intros a b line l w Hl Hfa Hfb Hr [Ca Cb Cf Co]; [lia|].
  cbn [diff2_loop].
  destruct (diff2_read_line_scans a fuel lfd [] false l w Hfa Hl0 Ca) as (w1 & E1 & A1 & O1 & F1 & P1).
  destruct (diff2_read_line_scans b fuel rfd [] false l w1 Hfb Hr0 ltac:(rewrite O1; done)) as (w2 & E2 & A2 & O2 & F2 & P2).
  rewrite (lrun_bind _ _ _ _ _ _ _ _ E1), (lrun_bind _ _ _ _ _ _ _ _ E2).
  destruct (scan_line_eq a [] ltac:(constructor)) as (lr & la & resta & Sa & La & Ha).
  destruct (scan_line_eq b [] ltac:(constructor)) as (rr & lb & restb & Sb & Lb & Hb).
  change (take 511 []) with (@nil Z) in Sa, Sb. change (511 <? length (@nil Z))%nat with false in Sa, Sb.
  rewrite Sa in A1 |- *. rewrite Sb in A2 |- *. cbn [fst snd] in A1, A2 |- *.
  cbn [app] in Ha, Hb. fold (diff_lines a) in Ha. fold (diff_lines b) in Hb.
  unfold diff_keys. 
  assert (io_files w2 = io_files w0 /\ io_out w2 = io_out w0) as [F P] by (split; congruence).
  assert (forall line ol or, exists w', run io_kernel
    ((diff2_print_difference left right line ol or ;;! close lfd ;;! close rfd ;;! lret 1) l) w2 = (Returned (1, l), w') /\
    io_files w' = io_files w0) as Hdiffer.
  { intros line' ol or. destruct (difference_puts left right line' ol or l w2 Hl) as [s E3].
    rewrite (lrun_bind _ _ _ _ _ _ _ _ E3). destruct (closes_both 1 lfd rfd l (io_put s w2)) as (w' & E4 & F4 & _).
    exists w'. split; [exact E4|]. by rewrite F4. }
  destruct (diff_lines a) as [|xa xas] eqn:Ea; destruct (diff_lines b) as [|xb xbs] eqn:Eb; cbn [fmap list_fmap].
  - subst lr rr. change (0 <? 0) with false. change (0 =? 0) with true. cbn [andb]. cbv iota.
    destruct (closes_both 0 lfd rfd l w2) as (w' & E3 & F3 & P3). exists w'. rewrite decide_True by done.
    split; [exact E3|]. split; congruence.
  - destruct Hb as (-> & _). subst lr. rewrite decide_False by done.
    destruct (Hdiffer line None (Some (take 511 lb))) as (w' & E3 & F3). exists w'. by split.
  - destruct Ha as (-> & _). subst rr. rewrite decide_False by done.
    destruct (Hdiffer line (Some (take 511 la)) None) as (w' & E3 & F3). exists w'. by split.
  - destruct Ha as (-> & -> & Hra). destruct Hb as (-> & -> & Hrb).
    change (1 <? 0) with false. change (1 =? 0) with false. change (1 =? 1) with true. cbn [andb negb orb]. cbv iota.
    rewrite same_line. case_bool_decide as Hk; cbn [negb].
    + destruct (IH resta restb (s32 (line + 1)) l w2 Hl ltac:(lia) ltac:(lia)) as (w' & E3 & F3 & P3).
      { rewrite Hra. cbn [length] in Hr. lia. }
      { constructor; [|done..]. rewrite O2; [done|]. done. }
      unfold diff_keys in E3, P3. rewrite Hra, Hrb in E3, P3. exists w'.
      split; [|split; [done|intros [= ? ?]; by apply P3]]. rewrite E3. do 3 f_equal. rewrite Hk.
      destruct (decide _) as [->|Hn]; [by rewrite decide_True|]. rewrite decide_False; [done|]. by intros [= ?].
    + assert (line_key la :: (line_key <$> xas) <> line_key lb :: (line_key <$> xbs)) as Hd
        by (intros H; apply Hk; exact (f_equal (hd (line_key la)) H)).
      rewrite decide_False by done. destruct (Hdiffer line (Some (take 511 la)) (Some (take 511 lb))) as (w' & E3 & F3). exists w'. split; [exact E3|].
      split; [done|]. intros H. by destruct Hd.
Qed.

Lemma lrun_open path l w content :
  3 <= io_next w < 2 ^ 30 -> io_files w !! path = Some content ->
  exists w', run io_kernel (open path O_RDONLY l) w = (Returned (io_next w, l), w') /\
    io_avail w' (io_next w) = Some content /\ (forall fd, fd <> io_next w -> io_avail w' fd = io_avail w fd) /\
    io_files w' = io_files w /\ io_out w' = io_out w /\ io_next w' = io_next w + 1.
Proof.
  intros Hn Hp. eexists. split.
  - unfold open. erewrite lrun_bind; [|apply lrun_sys; cbn [io_kernel]; unfold io_open; rewrite Hp; reflexivity].
    unfold errno_if. rewrite s32_id by lia. rewrite (proj2 (Z.ltb_ge _ 0)) by lia. reflexivity.
  - change (negb (Z.land (myos_flags O_RDONLY) O_TRUNC =? 0)) with false. unfold io_avail. cbn.
    split_and!; [|intros fd Hfd|done..].
    + rewrite (proj2 (Z.eqb_neq (io_next w) 0)), lookup_insert_eq by lia. cbn. by rewrite Hp.
    + by rewrite lookup_insert_ne by done.
Qed.

(** C29: [diff2] on two files returns 0, and prints nothing, if their lines have the
    same keys, in order, and 1 if not.  Carriage returns and the newline at the
    end of the last line do not belong to the lines.  The key of a line is the
    text of its first 511 bytes, up to a NUL among them, and whether the line is
    longer than 511 bytes: of the bytes behind the 511th [diff2] sees only
    whether there are any, and of the bytes behind a NUL nothing else. *)
Theorem diff2_compares name left right a b l w fuel :
  has_stdout l -> 3 <= io_next w < 2 ^ 29 ->
  io_files w !! left = Some a -> io_files w !! right = Some b ->
  (length a < fuel)%nat -> (length b < fuel)%nat ->
  exists w', run io_kernel (diff2_main fuel [name; left; right] l) w
      = (Returned (if decide (diff_keys a = diff_keys b) then 0 else 1, l), w') /\
    io_files w' = io_files w /\ (diff_keys a = diff_keys b -> io_out w' = io_out w).
Proof.
  intros Hl Hn Ha Hb Hfa Hfb. unfold diff2_main, diff2_files.
  destruct (lrun_open left l w a ltac:(lia) Ha) as (w1 & E1 & A1 & O1 & F1 & P1 & N1).
  destruct (lrun_open right l w1 b ltac:(lia) ltac:(by rewrite F1)) as (w2 & E2 & A2 & O2 & F2 & P2 & N2).
  rewrite (lrun_bind _ _ _ _ _ _ _ _ E1), (proj2 (Z.ltb_ge _ 0)) by lia.
  rewrite (lrun_bind _ _ _ _ _ _ _ _ E2), (proj2 (Z.ltb_ge _ 0)) by lia.
  assert (length (diff_lines a) <= length a)%nat.
  { unfold diff_lines. rewrite length_fmap. transitivity (length (filter (fun c => c <> 13) a)); [|apply length_filter].
    generalize (filter (fun c => c <> 13) a). clear. intros s. induction s as [|c s IH]; cbn; [lia|].
    destruct (c =? 10); cbn; [lia|]. destruct (split_lines 10 s); cbn in *; lia. }
  destruct (diff2_loop_compares w left right (io_next w) (io_next w1) fuel fuel ltac:(lia) ltac:(lia) ltac:(lia) a b 1 l w2 Hl)
    as (w' & E3 & F3 & P3); [lia|lia|lia| |].
  { constructor; [|done|congruence..]. rewrite O2; [done|lia]. }
  exists w'. split; [exact E3|]. split; [congruence|]. intros H'. rewrite P3 by done. done.
Qed.

(** The files differ in a carriage return and in the newline at the end. *)
Definition sample_pair : io :=
  IO {[ text "a" := text "one" ++ [13; 10] ++ text "two"; text "b" := text "one" ++ [10] ++ text "two" ++ [10] ]}
    ∅ 3 [] [] [] [] None.
Lemma diff2_compares_witness :
  exists w', run io_kernel (diff2_main 20 [text "diff2"; text "a"; text "b"] libc0) sample_pair = (Returned (0, libc0), w') /\
    io_files w' = io_files sample_pair /\ io_out w' = [].
Proof.
  destruct (diff2_compares (text "diff2") (text "a") (text "b") (text "one" ++ [13; 10] ++ text "two") (text "one" ++ [10] ++ text "two" ++ [10])
    libc0 sample_pair 20) as (w' & E & F & P).
  - by exists (file_of 1).
  - cbn. lia.
  - reflexivity.
  - reflexivity.
  - cbn. lia.
  - cbn. lia.
  - exists w'. split; [exact E|]. split; [exact F|]. apply P. vm_compute. reflexivity.
Defined.

(** Lines that differ in their 512th byte are the same to [diff2]. *)
Example diff2_long_lines :
  let long c := replicate 511 120 ++ [c] in
  diff_keys (long 97) = diff_keys (long 98).
Proof. vm_compute. reflexivity. Qed.
