(* ===== verification/LineEdit.v ===== *)
(** The line editor of [src/ports/kilo/lineedit.c]: the buffer of lines, loading
    and saving, the commands and the loop of [main], over the library of
    [LibcStdio.v].

    [malloc] and [realloc] are seen by their answers, as in [LibcStdio.v]: a string
    that was allocated is its bytes, [None] is a null pointer. *)

From S2P Require Import Prelude Memory Prog LibcStr LibcFmt LibcSys LibcStdio.

Definition INITIAL_CAP : Z := 32.
Definition COMMAND_CAP : Z := 512.

(** [struct buffer]: [line] has [cap] entries. *)
Record buffer := Buffer { b_line : list (option (list Z)); b_len : Z; b_cap : Z }.
Definition buffer0 : buffer := Buffer [] 0 0.

(** [b->line[i]]; outside the array it is undefined. *)
Definition line_at (b : buffer) (i : Z) : LM (option (list Z)) :=
  if (0 <=? i) && (i <? Z.of_nat (length (b_line b)))
  then lret (default None (b_line b !! Z.to_nat i)) else lundef.
Definition set_line (b : buffer) (i : Z) (v : option (list Z)) : LM buffer :=
  if (0 <=? i) && (i <? Z.of_nat (length (b_line b)))
  then lret (Buffer (<[Z.to_nat i := v]> (b_line b)) (b_len b) (b_cap b)) else lundef.

Definition strip_newline_char (c : Z) : bool := (c =? 10) || (c =? 13).
(** The bytes in front of the NULs the loops at the end of a line put there. *)
Fixpoint strip_end (s : list Z) : list Z :=
  match s with
  | [] => []
  | c :: s' =>
      match strip_end s' with
      | [] => if strip_newline_char c then [] else [c]
      | t => c :: t
      end
  end.
Definition strip_newline (s : list Z) : list Z := strip_end s.
Definition has_text (s : list Z) : bool := negb (char0 s =? 0).
Definition cstring (s : list Z) : list Z := take (Z.to_nat (strlen (Some s))) s.

Section editor.
Context (new_file : gmap Z FILE -> option Z) (has_room : Z -> bool).

(** A copy of the [n] bytes at [s]; the NUL behind them ends the string. *)
Definition dup_range (s : list Z) (n : Z) : option (list Z) :=
  if has_room (u64 (n + 1)) then Some (cstring (take (Z.to_nat n) s)) else None.
Definition dup_string (s : list Z) : option (list Z) := dup_range s (s32 (strlen (Some s))).

(* ------------------------------------------------------------------ *)
(** ** The buffer *)

(** [while (cap < need) cap *= 2;]: with room for 31 doublings [cap] is past every
    [int]. *)
Fixpoint grow_cap (n : nat) (cap need : Z) : option Z :=
  match n with
  | O => None
  | S n' => if cap <? need then grow_cap n' (s32 (cap * 2)) need else Some cap
  end.
Definition ensure_cap (b : buffer) (need : Z) : LM (Z * buffer) :=
  let cap := if b_cap b =? 0 then INITIAL_CAP else b_cap b in
  match grow_cap 32 cap need with
  | None => fun _ => Spin
  | Some cap =>
      if cap =? b_cap b then lret (0, b)
      else if negb (has_room (u64 (cap * 8))) then lret (-1, b)
      else
        let old := length (b_line b) in
        lret (0, Buffer (b_line b ++ replicate (Z.to_nat cap - old) None) (b_len b) cap)
  end.

Definition append_line (b : buffer) (s : list Z) : LM (Z * buffer) :=
  let! r := ensure_cap b (s32 (b_len b + 1)) in
  let '(r, b) := r in
  if r <? 0 then lret (-1, b)
  else
    let d := dup_string s in
    let! b := set_line b (b_len b) d in
    match d with
    | None => lret (-1, b)
    | Some _ => lret (0, Buffer (b_line b) (s32 (b_len b + 1)) (b_cap b))
    end.

(** [for (i = len; i > at; i--) line[i] = line[i - 1];], with [n] rounds to go. *)
Fixpoint shift_up (n : nat) (at_ : Z) (b : buffer) : LM buffer :=
  match n with
  | O => lret b
  | S n' =>
      let i := at_ + Z.of_nat n in
      let! x := line_at b (i - 1) in
      let! b := set_line b i x in
      shift_up n' at_ b
  end.
Definition clamp (at_ len : Z) : Z :=
  let at_ := if at_ <? 0 then 0 else at_ in if len <? at_ then len else at_.
Definition insert_line (b : buffer) (at_ : Z) (s : list Z) : LM (Z * buffer) :=
  let at_ := clamp at_ (b_len b) in
  let! r := ensure_cap b (s32 (b_len b + 1)) in
  let '(r, b) := r in
  if r <? 0 then lret (-1, b)
  else
    let! b := shift_up (Z.to_nat (b_len b - at_)) at_ b in
    let d := dup_string s in
    let! b := set_line b at_ d in
    match d with
    | None => lret (-1, b)
    | Some _ => lret (0, Buffer (b_line b) (s32 (b_len b + 1)) (b_cap b))
    end.

(** [for (i = at; i + 1 < len; i++) line[i] = line[i + 1];], from [i] with [n]
    rounds to go. *)
Fixpoint shift_down (n : nat) (i : Z) (b : buffer) : LM buffer :=
  match n with
  | O => lret b
  | S n' =>
      let! x := line_at b (i + 1) in
      let! b := set_line b i x in
      shift_down n' (i + 1) b
  end.
Definition delete_line (b : buffer) (at_ : Z) : LM buffer :=
  if (at_ <? 0) || (b_len b <=? at_) then lret b
  else
    let! b := shift_down (Z.to_nat (b_len b - 1 - at_)) at_ b in
    lret (Buffer (b_line b) (s32 (b_len b - 1)) (b_cap b)).

(* ------------------------------------------------------------------ *)
(** ** Loading and saving *)

(** The loop of [read_file]; [n] is [cap] of the line buffer. *)
Fixpoint read_file_loop (rounds fuel : nat) (f : Z) (n : option Z) (b : buffer) : LM (Z * buffer) :=
  match rounds with
  | O => fun _ => Spin
  | S rounds' =>
      let! x := getline has_room fuel n f in
      let '(ret, line, n) := x in
      if ret <? 0 then fclose (Some f) ;;! lret (0, b)
      else
        let! r := append_line b (cstring (strip_end (take (Z.to_nat ret) line))) in
        let '(r, b) := r in
        if r <? 0 then fclose (Some f) ;;! lret (-1, b)
        else read_file_loop rounds' fuel f (Some n) b
  end.
Definition read_file (fuel : nat) (b : buffer) (path : list Z) : LM (Z * buffer) :=
  let! f := fopen new_file path [114] in
  match f with
  | None => lret (0, b)
  | Some f => read_file_loop fuel fuel f None b
  end.

(** [fputs(b->line[i], f); fputc('\n', f);] from [i], [n] times. A null pointer
    has no characters. *)
Fixpoint write_lines (n : nat) (i f : Z) (b : buffer) : LM unit :=
  match n with
  | O => lret tt
  | S n' =>
      let! s := line_at b i in
      fputs (default [] s) f ;;!
      fputc 10 f ;;!
      write_lines n' (i + 1) f b
  end.
Definition write_file (b : buffer) (path : list Z) : LM Z :=
  let! f := fopen new_file path [119] in
  match f with
  | None => lret (-1)
  | Some f => write_lines (Z.to_nat (b_len b)) 0 f b ;;! fclose (Some f)
  end.

(* ------------------------------------------------------------------ *)
(** ** Reading commands *)

Definition print_help : LM unit :=
  cprintf (text "Commands:" ++ [10]) [] ;;!
  cprintf (text "  p              print file with line numbers" ++ [10]) [] ;;!
  cprintf (text "  p N            print line N" ++ [10]) [] ;;!
  cprintf (text "  a TEXT         append TEXT after current line" ++ [10]) [] ;;!
  cprintf (text "  a              append lines until a single . line" ++ [10]) [] ;;!
  cprintf (text "  i N TEXT       insert TEXT before line N" ++ [10]) [] ;;!
  cprintf (text "  i N            insert lines before line N until ." ++ [10]) [] ;;!
  cprintf (text "  r N TEXT       replace line N with TEXT" ++ [10]) [] ;;!
  cprintf (text "  d N            delete line N" ++ [10]) [] ;;!
  cprintf (text "  w              save file" ++ [10]) [] ;;!
  cprintf (text "  q              quit" ++ [10]) [] ;;!
  cprintf (text "  q!             quit without saving" ++ [10]) [] ;;!
  cprintf (text "  h              help" ++ [10]) [].

(** The loop of [read_command] with [buf[0..len)]: the command, or [None] for -1.
    A [read] that gives no byte is tried again. *)
Fixpoint read_command (fuel : nat) (cap : Z) (buf : list Z) : LM (option (list Z)) :=
  match fuel with
  | O => fun _ => Spin
  | S fuel' =>
      let! r := read 0 1 in
      if negb (fst r =? 1) then read_command fuel' cap buf
      else
        let c := char0 (snd r) in
        let c := if c =? 13 then 10 else c in
        if c =? 10 then write 1 [10] ;;! lret (Some buf)
        else if c =? 3 then lret None
        else if (c =? 127) || (c =? 8) then
          (if (0 <? length buf)%nat then
             write 1 [8; 32; 8] ;;! read_command fuel' cap (removelast buf)
           else read_command fuel' cap buf)
        else if (32 <=? c) && (c <? 127) && (Z.of_nat (length buf) <? cap - 1) then
          write 1 [c] ;;! read_command fuel' cap (buf ++ [c])
        else read_command fuel' cap buf
  end.

(** The loop of [read_text_block]: the value returned, the buffer and
    [*current]. *)
Fixpoint text_block_loop (rounds fuel : nat) (at_ inserted : Z) (b : buffer) (current : Z)
    : LM (Z * buffer * Z) :=
  match rounds with
  | O => fun _ => Spin
  | S rounds' =>
      cprintf (text ". ") [] ;;!
      let! cmd := read_command fuel COMMAND_CAP [] in
      match cmd with
      | None => lret (if inserted =? 0 then -1 else inserted, b, current)
      | Some cmd =>
          if strcmp cmd [46] =? 0 then lret (inserted, b, current)
          else
            let! r := insert_line b (s32 (at_ + inserted)) cmd in
            let '(r, b) := r in
            if r <? 0 then
              cprintf (text "Out of memory" ++ [10]) [] ;;!
              lret (if inserted =? 0 then -1 else inserted, b, current)
            else text_block_loop rounds' fuel at_ (s32 (inserted + 1)) b (s32 (at_ + inserted))
      end
  end.
Definition read_text_block (fuel : nat) (b : buffer) (at_ current : Z) : LM (Z * buffer * Z) :=
  cprintf (text "Enter text. End with a single . line." ++ [10]) [] ;;!
  text_block_loop fuel fuel (clamp at_ (b_len b)) 0 b current.

Fixpoint skip_blanks (p : list Z) : list Z :=
  match p with c :: p' => if c =? 32 then skip_blanks p' else p | [] => [] end.
Fixpoint number_digits (p : list Z) (n : Z) : Z * list Z :=
  match p with
  | c :: p' =>
      if (48 <=? c) && (c <=? 57) then number_digits p' (s32 (n * 10 + (c - 48))) else (n, p)
  | [] => (n, [])
  end.
(** The number and what [*p] points to afterwards. *)
Definition parse_number (p : list Z) : Z * list Z :=
  let '(n, p) := number_digits (skip_blanks p) 0 in (n, skip_blanks p).

Fixpoint print_lines_loop (n : nat) (i : Z) (b : buffer) : LM unit :=
  match n with
  | O => lret tt
  | S n' =>
      let! s := line_at b i in
      cprintf (text "%d" ++ [9] ++ text "%s" ++ [10]) [CInt (i + 1); CStr s] ;;!
      print_lines_loop n' (i + 1) b
  end.
Definition print_lines (b : buffer) : LM unit :=
  if b_len b =? 0 then cprintf (text "(empty)" ++ [10]) []
  else print_lines_loop (Z.to_nat (b_len b)) 0 b.
Definition print_one (b : buffer) (n : Z) : LM unit :=
  if (n <? 1) || (b_len b <? n) then cprintf (text "No such line" ++ [10]) []
  else
    let! s := line_at b (n - 1) in
    cprintf (text "%d" ++ [9] ++ text "%s" ++ [10]) [CInt n; CStr s].

(* ------------------------------------------------------------------ *)
(** ** The loop of [main] *)

(** [b], [current] and [dirty]. *)
Record estate := Estate { e_buf : buffer; e_current : Z; e_dirty : bool }.

Definition out_of_memory : LM unit := cprintf (text "Out of memory" ++ [10]) [].
Definition no_such_line : LM unit := cprintf (text "No such line" ++ [10]) [].

(** [a] and [i] with a block of text. *)
Definition add_block (fuel : nat) (at_ : Z) (e : estate) : LM estate :=
  let! r := read_text_block fuel (e_buf e) at_ (e_current e) in
  let '(added, b, current) := r in
  lret (Estate b current (if 0 <? added then true else e_dirty e)).
(** [a] and [i] with one line. *)
Definition add_line (at_ : Z) (s : list Z) (e : estate) : LM estate :=
  let! r := insert_line (e_buf e) at_ s in
  let '(r, b) := r in
  if r <? 0 then out_of_memory ;;! lret (Estate b (e_current e) (e_dirty e))
  else lret (Estate b at_ true).

(** One command: the state, or [None] where the loop is left. *)
Definition command (fuel : nat) (path cmd : list Z) (e : estate) : LM (option estate) :=
  let b := e_buf e in
  let at_end := if b_len b =? 0 then 0 else s32 (e_current e + 1) in
  let first := char0 cmd in
  let arg := (2 <=? length cmd)%nat && (char0 (tail cmd) =? 32) in
  let p := tail cmd in
  if first =? 0 then lret (Some e)
  else if strcmp cmd [104] =? 0 then print_help ;;! lret (Some e)
  else if strcmp cmd [112] =? 0 then print_lines b ;;! lret (Some e)
  else if (first =? 112) && arg then
    let line := fst (parse_number p) in
    print_one b line ;;!
    lret (Some (if (1 <=? line) && (line <=? b_len b) then Estate b (line - 1) (e_dirty e) else e))
  else if strcmp cmd [97] =? 0 then let! e := add_block fuel at_end e in lret (Some e)
  else if (first =? 97) && arg then let! e := add_line at_end (drop 2 cmd) e in lret (Some e)
  else if (first =? 105) && arg then
    let '(line, p) := parse_number p in
    let line := if line <? 1 then 1 else line in
    let line := if b_len b + 1 <? line then b_len b + 1 else line in
    if has_text p then let! e := add_line (line - 1) p e in lret (Some e)
    else let! e := add_block fuel (line - 1) e in lret (Some e)
  else if (first =? 114) && arg then
    let '(line, p) := parse_number p in
    if (line <? 1) || (b_len b <? line) then no_such_line ;;! lret (Some e)
    else
      match dup_string p with
      | None => out_of_memory ;;! lret (Some e)
      | Some s =>
          let! b := set_line b (line - 1) (Some s) in
          lret (Some (Estate b (line - 1) true))
      end
  else if (first =? 100) && arg then
    let line := fst (parse_number p) in
    if (line <? 1) || (b_len b <? line) then no_such_line ;;! lret (Some e)
    else
      let! b := delete_line b (line - 1) in
      let current := if b_len b <=? e_current e then b_len b - 1 else e_current e in
      let current := if current <? 0 then 0 else current in
      lret (Some (Estate b current true))
  else if strcmp cmd [119] =? 0 then
    let! r := write_file b path in
    if r <? 0 then cprintf (text "Could not save file" ++ [10]) [] ;;! lret (Some e)
    else
      cprintf (text "%d lines written" ++ [10]) [CInt (b_len b)] ;;!
      lret (Some (Estate b (e_current e) false))
  else if strcmp cmd [113] =? 0 then
    if e_dirty e then
      cprintf (text "Unsaved changes. Use w to save or q! to discard." ++ [10]) [] ;;! lret (Some e)
    else lret None
  else if strcmp cmd [113; 33] =? 0 then lret None
  else cprintf (text "Unknown command. Type h for help." ++ [10]) [] ;;! lret (Some e).

Fixpoint main_loop (rounds fuel : nat) (path : list Z) (e : estate) : LM unit :=
  match rounds with
  | O => fun _ => Spin
  | S rounds' =>
      cprintf (text ":%d> ") [CInt (s32 (e_current e + 1))] ;;!
      let! cmd := read_command fuel COMMAND_CAP [] in
      match cmd with
      | None => lret tt
      | Some cmd =>
          let! e := command fuel path cmd e in
          match e with
          | None => lret tt
          | Some e => main_loop rounds' fuel path e
          end
      end
  end.

Definition lineedit_main (fuel : nat) (argv : list (list Z)) : LM Z :=
  match argv with
  | [_; path] =>
      let! r := read_file fuel buffer0 path in
      let '(r, b) := r in
      if r <? 0 then cprintf (text "Could not load file" ++ [10]) [] ;;! lret 1
      else
        let current := if 0 <? b_len b then b_len b - 1 else 0 in
        cprintf (text "%s: %d lines" ++ [10]) [CStr (Some path); CInt (b_len b)] ;;!
        cprintf (text "Type h for help. Use w to save, q to quit." ++ [10]) [] ;;!
        main_loop fuel fuel path (Estate b current false) ;;!
        lret 0
  | _ =>
      cprintf (text "Usage: %s <file>" ++ [10]) [CStr (head argv)] ;;!
      cprintf (text "This MyOS editor is line based. Run h inside for help." ++ [10]) [] ;;!
      lret 1
  end.
End editor.
