(* ===== verification/LineEditSpec.v ===== *)
(** The line editor keeps a list of lines: the array of pointers behind its
    buffer, and the file it saves and loads. *)

From S2P Require Import Prelude Memory Prog LibcStr LibcFmt LibcSys LibcStdio LibcStdioSpec Tools ToolsSpec LineEdit.

(** Library code that needs no system call. *)
Lemma lbind_done {A B} (m : LM A) (k : A -> LM B) l a l' :
  m l = Done (a, l') -> lbind m k l = k a l'.
Proof. intros E. unfold lbind. by rewrite E. Qed.

(* ------------------------------------------------------------------ *)
(** ** The buffer *)

(** The buffer holds the lines [ls]. *)
Record holds (b : buffer) (ls : list (list Z)) : Prop := {
  ho_len : b_len b = Z.of_nat (length ls);
  ho_cap : b_cap b = Z.of_nat (length (b_line b));
  ho_room : (length ls <= length (b_line b))%nat;
  ho_min : b_cap b = 0 \/ 32 <= b_cap b <= 2 ^ 30;
  ho_lines : forall i s, ls !! i = Some s -> b_line b !! i = Some (Some s);
}.
(** A string of the editor. *)
Definition plain (s : list Z) : Prop := Forall (fun c => c <> 0) s /\ Z.of_nat (length s) < 2 ^ 31.
Definition roomy : Z -> bool := fun _ => true.

Lemma strlen_plain s : Forall (fun c => c <> 0) s -> strlen_loop s = Z.of_nat (length s).
Proof. induction 1 as [|c s Hc _ IH]; [done|]. cbn [strlen_loop length]. rewrite (proj2 (Z.eqb_neq c 0)) by done. lia. Qed.
Lemma cstring_plain s : Forall (fun c => c <> 0) s -> cstring s = s.
Proof. intros Hs. unfold cstring, strlen. rewrite strlen_plain by done. rewrite Nat2Z.id. apply firstn_all. Qed.
Lemma dup_plain s : plain s -> dup_string roomy s = Some s.
Proof.
  intros [Hs Hl]. unfold dup_string, dup_range, strlen. rewrite strlen_plain by done.
  rewrite s32_id by lia. rewrite Nat2Z.id, firstn_all. cbn. by rewrite cstring_plain.
Qed.

Lemma grow_cap_enough n cap need :
  0 < cap <= 2 ^ 30 -> need <= 2 ^ 29 -> need <= cap * 2 ^ Z.of_nat n ->
  exists c, grow_cap (S n) cap need = Some c /\ cap <= c <= 2 ^ 30 /\ need <= c.
Proof.
  revert cap. induction n as [|n IH]; intros cap Hc Hn Hle; cbn [grow_cap].
  - change (2 ^ Z.of_nat 0) with 1 in Hle. rewrite (proj2 (Z.ltb_ge cap need)) by lia. exists cap. split; [done|lia].
  - destruct (Z.ltb_spec cap need) as [Hlt|Hge]; [|exists cap; split; [done|lia]].
    rewrite s32_id by lia. destruct (IH (cap * 2)) as (c & E & Hb); [lia|lia| |].
    + rewrite Nat2Z.inj_succ, Z.pow_succ_r in Hle by lia. lia.
    + exists c. split; [exact E|lia].
Qed.

Lemma ensure_cap_holds b ls l need :
  holds b ls -> 0 < need <= 2 ^ 29 ->
  exists b', ensure_cap roomy b need l = Done ((0, b'), l) /\ holds b' ls /\ need <= b_cap b'.
Proof.
  intros [Hlen Hcap Hroom Hmin Hl] Hn. unfold ensure_cap.
  set (cap := if b_cap b =? 0 then INITIAL_CAP else b_cap b).
  assert (32 <= cap <= 2 ^ 30) as Hc.
  { unfold cap, INITIAL_CAP. destruct (Z.eqb_spec (b_cap b) 0); lia. }
  destruct (grow_cap_enough 31 cap need) as (c & -> & Hb & Hnc); [lia|lia|lia|].
  destruct (Z.eqb_spec c (b_cap b)) as [->|Hne].
  - exists b. split; [done|]. split; [by split|lia].
  - cbn [roomy negb]. eexists. split; [reflexivity|]. split; [|cbn; lia].
    assert (b_cap b <= c) as Hle by (unfold cap in Hb; destruct (Z.eqb_spec (b_cap b) 0); lia).
    split; cbn [b_len b_cap b_line]; [done| | |lia|].
    + rewrite length_app, length_replicate. lia.
    + rewrite length_app. lia.
    + intros i s Hi. rewrite lookup_app_l; [by apply Hl|]. apply lookup_lt_Some in Hi. lia.
Qed.

(** Array accesses within bounds. *)
Lemma line_at_in b i x l : b_line b !! i = Some x -> line_at b (Z.of_nat i) l = Done (x, l).
Proof.
  intros Hi. pose proof (lookup_lt_Some _ _ _ Hi). unfold line_at.
  rewrite (proj2 (Z.leb_le 0 _)), (proj2 (Z.ltb_lt _ _)) by lia. cbn [andb]. by rewrite Nat2Z.id, Hi.
Qed.
Lemma set_line_in b i v l :
  (i < length (b_line b))%nat ->
  set_line b (Z.of_nat i) v l = Done (Buffer (<[i := v]> (b_line b)) (b_len b) (b_cap b), l).
Proof.
  intros Hi. unfold set_line. rewrite (proj2 (Z.leb_le 0 _)), (proj2 (Z.ltb_lt _ _)) by lia. cbn [andb].
  by rewrite Nat2Z.id.
Qed.

(** The two loops that move pointers. *)
Lemma shift_up_moves n at_ b l :
  (at_ + n < length (b_line b))%nat ->
  exists L, shift_up n (Z.of_nat at_) b l = Done (Buffer L (b_len b) (b_cap b), l) /\
    length L = length (b_line b) /\
    forall i, L !! i = if decide (at_ < i <= at_ + n)%nat then b_line b !! (i - 1)%nat else b_line b !! i.
Proof.
  revert b. induction n as [|n IH]; intros b Hb; cbn [shift_up].
  - exists (b_line b). split; [by destruct b|]. split; [done|]. intros i. rewrite decide_False by lia. done.
  - destruct (lookup_lt_is_Some_2 (b_line b) (at_ + n)%nat) as [x Hx]; [lia|].
    replace (Z.of_nat at_ + Z.of_nat (S n) - 1) with (Z.of_nat (at_ + n)) by lia.
    rewrite (lbind_done _ _ _ _ _ (line_at_in b _ x l Hx)).
    replace (Z.of_nat at_ + Z.of_nat (S n)) with (Z.of_nat (at_ + S n)) by lia.
    rewrite (lbind_done _ _ _ _ _ (set_line_in b (at_ + S n) x l Hb)).
    destruct (IH (Buffer (<[(at_ + S n)%nat := x]> (b_line b)) (b_len b) (b_cap b))) as (L & HL & Hlen & Hi).
    { cbn. rewrite length_insert. lia. }
    exists L. split; [exact HL|]. split; [cbn in Hlen; by rewrite length_insert in Hlen|]. intros i. rewrite Hi. cbn [b_line].
    destruct (decide (i = (at_ + S n)%nat)) as [->|Hne].
    + rewrite decide_False, decide_True by lia. rewrite list_lookup_insert_eq by lia.
      rewrite <- Hx. f_equal. lia.
    + destruct (decide (at_ < i <= at_ + n)%nat).
      * rewrite decide_True by lia. rewrite list_lookup_insert_ne by lia. done.
      * rewrite decide_False by lia. rewrite list_lookup_insert_ne by lia. done.
Qed.
Lemma shift_down_moves n at_ b l :
  (at_ + n < length (b_line b))%nat ->
  exists L, shift_down n (Z.of_nat at_) b l = Done (Buffer L (b_len b) (b_cap b), l) /\
    length L = length (b_line b) /\
    forall i, L !! i = if decide (at_ <= i < at_ + n)%nat then b_line b !! (S i) else b_line b !! i.
Proof.
  revert at_ b. induction n as [|n IH]; intros at_ b Hb; cbn [shift_down].
  - exists (b_line b). split; [by destruct b|]. split; [done|]. intros i. rewrite decide_False by lia. done.
  - destruct (lookup_lt_is_Some_2 (b_line b) (S at_)) as [x Hx]; [lia|].
    replace (Z.of_nat at_ + 1) with (Z.of_nat (S at_)) by lia.
    rewrite (lbind_done _ _ _ _ _ (line_at_in b _ x l Hx)).
    rewrite (lbind_done _ _ _ _ _ (set_line_in b at_ x l ltac:(lia))).
    destruct (IH (S at_) (Buffer (<[at_ := x]> (b_line b)) (b_len b) (b_cap b))) as (L & HL & Hlen & Hi).
    { cbn. rewrite length_insert. lia. }
    exists L. split; [exact HL|]. split; [cbn in Hlen; by rewrite length_insert in Hlen|]. intros i. rewrite Hi. cbn [b_line].
    destruct (decide (i = at_)) as [->|Hne].
    + rewrite decide_False, decide_True by lia. rewrite list_lookup_insert_eq by lia. done.
    + destruct (decide (S at_ <= i < S at_ + n)%nat).
      * rewrite decide_True by lia. rewrite list_lookup_insert_ne by lia. done.
      * rewrite decide_False by lia. rewrite list_lookup_insert_ne by lia. done.
Qed.

(** [append_line] and [insert_line] put a copy of the string in front of line
    [at]. *)
Definition put (at_ : nat) (s : list Z) (ls : list (list Z)) : list (list Z) := take at_ ls ++ s :: drop at_ ls.
Definition drop_line (at_ : nat) (ls : list (list Z)) : list (list Z) := take at_ ls ++ drop (S at_) ls.

Lemma insert_line_puts b ls at_ s l :
  holds b ls -> plain s -> Z.of_nat (length ls) < 2 ^ 29 ->
  exists b', insert_line roomy b at_ s l = Done ((0, b'), l) /\
    holds b' (put (Z.to_nat (clamp at_ (Z.of_nat (length ls)))) s ls).
Proof.
  intros Hb Hs Hn. unfold insert_line. pose proof Hb as [Hlen _ _ _ _]. rewrite Hlen.
  set (n := Z.to_nat (clamp at_ (Z.of_nat (length ls)))).
  assert (clamp at_ (Z.of_nat (length ls)) = Z.of_nat n /\ (n <= length ls)%nat) as [-> Hle].
  { unfold n, clamp. destruct (Z.ltb_spec at_ 0); case_match; lia. }
  rewrite s32_id by lia.
  destruct (ensure_cap_holds b ls l (Z.of_nat (length ls) + 1) Hb) as (b1 & E1 & Hb1 & Hc1); [lia|].
  rewrite (lbind_done _ _ _ _ _ E1). cbn beta iota. destruct Hb1 as [Hlen1 Hcap1 Hroom1 Hmin1 Hl1].
  change (0 <? 0) with false. cbn iota. rewrite Hlen1.
  replace (Z.to_nat (Z.of_nat (length ls) - Z.of_nat n)) with (length ls - n)%nat by lia.
  destruct (shift_up_moves (length ls - n) n b1 l) as (L & E2 & HL & Hi); [lia|].
  rewrite (lbind_done _ _ _ _ _ E2). rewrite (dup_plain s Hs).
  rewrite (lbind_done _ _ _ _ _ (set_line_in (Buffer L (b_len b1) (b_cap b1)) n (Some s) l ltac:(cbn; lia))).
  cbn [b_line b_len b_cap]. rewrite Hlen1, s32_id by lia. eexists. split; [reflexivity|].
  assert (length (put n s ls) = S (length ls)) as Hput.
  { unfold put. rewrite length_app, length_take. cbn. rewrite length_drop. lia. }
  split; cbn [b_len b_cap b_line]; rewrite ?Hput, ?length_insert; [lia|lia|lia|lia|].
  intros i x Hx. unfold put in Hx. destruct (decide (i < n)%nat) as [Hin|Hin].
  - rewrite lookup_app_l in Hx by (rewrite length_take; lia). rewrite lookup_take_lt in Hx by lia.
    rewrite list_lookup_insert_ne by lia. rewrite Hi, decide_False by lia. by apply Hl1.
  - rewrite lookup_app_r in Hx by (rewrite length_take; lia).
    rewrite length_take, Nat.min_l in Hx by lia.
    destruct (decide (i = n)) as [->|Hne].
    + rewrite Nat.sub_diag in Hx. injection Hx as ->. rewrite list_lookup_insert_eq by lia. done.
    + rewrite list_lookup_insert_ne by lia. destruct (i - n)%nat as [|k] eqn:Ek; [lia|].
      change (drop n ls !! k = Some x) in Hx. rewrite lookup_drop in Hx. pose proof (lookup_lt_Some _ _ _ Hx).
      rewrite Hi, decide_True by lia. apply Hl1. rewrite <- Hx. f_equal. lia.
Qed.

Lemma delete_line_drops b ls i l :
  holds b ls -> (i < length ls)%nat -> Z.of_nat (length ls) < 2 ^ 29 ->
  exists b', delete_line b (Z.of_nat i) l = Done (b', l) /\ holds b' (drop_line i ls).
Proof.
  intros [Hlen Hcap Hroom Hmin Hl] Hin Hn. unfold delete_line. rewrite Hlen.
  rewrite (proj2 (Z.ltb_ge _ 0)), (proj2 (Z.leb_gt _ _)) by lia. cbn [orb].
  replace (Z.to_nat (Z.of_nat (length ls) - 1 - Z.of_nat i)) with (length ls - 1 - i)%nat by lia.
  destruct (shift_down_moves (length ls - 1 - i) i b l) as (L & E & HL & Hi); [lia|].
  rewrite (lbind_done _ _ _ _ _ E). cbn [b_line b_len b_cap]. rewrite Hlen, s32_id by lia.
  eexists. split; [reflexivity|].
  assert (length (drop_line i ls) = (length ls - 1)%nat) as Hd.
  { unfold drop_line. rewrite length_app, length_take, length_drop. lia. }
  split; cbn [b_len b_cap b_line]; rewrite ?Hd; [lia|lia|lia|lia|].
  intros k x Hx. pose proof (lookup_lt_Some _ _ _ Hx) as Hk. rewrite Hd in Hk. unfold drop_line in Hx.
  rewrite Hi. destruct (decide (k < i)%nat).
  - rewrite decide_False by lia. rewrite lookup_app_l in Hx by (rewrite length_take; lia).
    rewrite lookup_take_lt in Hx by lia. by apply Hl.
  - rewrite decide_True by lia. rewrite lookup_app_r in Hx by (rewrite length_take; lia).
    rewrite length_take, Nat.min_l, lookup_drop in Hx by lia. apply Hl. rewrite <- Hx. f_equal. lia.
Qed.

(* ------------------------------------------------------------------ *)
(** ** The commands that edit *)

(** A number as it is typed, and its value. *)
Definition digit (c : Z) : Prop := 48 <= c <= 57.
Definition digits_value (ds : list Z) : Z := foldl (fun n c => n * 10 + (c - 48)) 0 ds.

Lemma digits_value_from ds : Forall digit ds -> forall n,
  0 <= n -> n <= foldl (fun n c => n * 10 + (c - 48)) n ds.
Proof.
  induction 1 as [|c ds Hc _ IH]; intros n Hn; cbn [foldl]; [lia|].
  unfold digit in Hc. specialize (IH (n * 10 + (c - 48))). lia.
Qed.
Lemma number_digits_value ds t : Forall digit ds -> forall n,
  0 <= n -> foldl (fun n c => n * 10 + (c - 48)) n ds < 2 ^ 31 ->
  (forall n, number_digits t n = (n, t)) ->
  number_digits (ds ++ t) n = (foldl (fun n c => n * 10 + (c - 48)) n ds, t).
Proof.
  induction 1 as [|c ds Hc Hds IH]; intros n Hn Hv Ht; cbn [app foldl number_digits]; [by apply Ht|].
  unfold digit in Hc. rewrite (proj2 (Z.leb_le 48 c)), (proj2 (Z.leb_le c 57)) by lia. cbn [andb].
  cbn [foldl] in Hv. pose proof (digits_value_from ds Hds (n * 10 + (c - 48))).
  rewrite s32_id by lia. apply IH; [lia|lia|done].
Qed.

(** The commands that change the text. *)
Inductive edit :=
  | EAppend (s : list Z)
  | EInsert (ds s : list Z)
  | EReplace (ds s : list Z)
  | EDelete (ds : list Z).
(** What is typed. *)
Definition typed (e : edit) : list Z :=
  match e with
  | EAppend s => 97 :: 32 :: s
  | EInsert ds s => 105 :: 32 :: ds ++ 32 :: s
  | EReplace ds s => 114 :: 32 :: ds ++ 32 :: s
  | EDelete ds => 100 :: 32 :: ds
  end.

(** The text and the current line, counted from 0. *)
Definition document : Type := list (list Z) * nat.
Definition edited (e : edit) (d : document) : document :=
  let '(ls, cur) := d in
  match e with
  | EAppend s => let at_ := match ls with [] => O | _ => S cur end in (put at_ s ls, at_)
  | EInsert ds s =>
      let at_ := Nat.min (Z.to_nat (digits_value ds - 1)) (length ls) in (put at_ s ls, at_)
  | EReplace ds s => let i := Z.to_nat (digits_value ds - 1) in (<[i := s]> ls, i)
  | EDelete ds =>
      let ls := drop_line (Z.to_nat (digits_value ds - 1)) ls in (ls, Nat.min cur (length ls - 1))
  end.

Definition number (ds : list Z) : Prop := ds <> [] /\ Forall digit ds /\ digits_value ds < 2 ^ 31.
Definition unspaced (s : list Z) : Prop := char0 s <> 32.
(** A command that names a line of the text, if it has to. *)
Definition edit_ok (e : edit) (d : document) : Prop :=
  let named ds := number ds /\ 1 <= digits_value ds <= Z.of_nat (length (fst d)) in
  match e with
  | EAppend s => plain s
  | EInsert ds s => number ds /\ plain s /\ s <> [] /\ unspaced s
  | EReplace ds s => named ds /\ plain s /\ unspaced s
  | EDelete ds => named ds
  end.

Record edits (d : document) (e : estate) : Prop := {
  ed_buf : holds (e_buf e) (fst d);
  ed_current : e_current e = Z.of_nat (snd d);
  ed_inside : (snd d < length (fst d))%nat \/ (fst d = [] /\ snd d = O);
  ed_size : Z.of_nat (length (fst d)) < 2 ^ 29;
}.

Lemma skip_blanks_number ds t : number ds -> skip_blanks (32 :: ds ++ t) = ds ++ t.
Proof.
  intros (Hne & Hd & _). destruct Hd as [|c ds Hc _]; [done|]. unfold digit in Hc.
  cbn [skip_blanks app Z.eqb Pos.eqb]. by rewrite (proj2 (Z.eqb_neq c 32)) by lia.
Qed.
Lemma skip_blanks_unspaced s : unspaced s -> skip_blanks s = s.
Proof.
  intros Hs. destruct s as [|c s]; [done|]. unfold unspaced in Hs. cbn [char0 hd] in Hs. cbn [skip_blanks].
  by rewrite (proj2 (Z.eqb_neq c 32)).
Qed.
Lemma parse_number_text ds s :
  number ds -> unspaced s -> parse_number (32 :: ds ++ 32 :: s) = (digits_value ds, s).
Proof.
  intros Hn Hs. unfold parse_number. rewrite skip_blanks_number by done. destruct Hn as (_ & Hd & Hv).
  rewrite (number_digits_value ds (32 :: s) Hd 0 ltac:(lia) Hv) by done.
  f_equal. exact (skip_blanks_unspaced s Hs).
Qed.
Lemma parse_number_end ds : number ds -> parse_number (32 :: ds) = (digits_value ds, []).
Proof.
  intros Hn. unfold parse_number. rewrite <- (app_nil_r ds) at 1. rewrite skip_blanks_number by done.
  destruct Hn as (_ & Hd & Hv). by rewrite (number_digits_value ds [] Hd 0 ltac:(lia) Hv).
Qed.

Lemma length_put n s ls : (n <= length ls)%nat -> length (put n s ls) = S (length ls).
Proof. intros Hn. unfold put. rewrite length_app, length_take. cbn. rewrite length_drop. lia. Qed.
Lemma length_drop_line n ls : (n < length ls)%nat -> length (drop_line n ls) = (length ls - 1)%nat.
Proof. intros Hn. unfold drop_line. rewrite length_app, length_take, length_drop. lia. Qed.

(** One line more in front of line [n]. *)
Lemma add_line_puts d e n s l :
  edits d e -> plain s -> (n <= length (fst d))%nat -> Z.of_nat (length (fst d)) + 1 < 2 ^ 29 ->
  exists e', add_line roomy (Z.of_nat n) s e l = Done (e', l) /\ e_dirty e' = true /\ edits (put n s (fst d), n) e'.
Proof.
  intros [Hb Hcur Hin Hsz] Hs Hn Hroom. unfold add_line.
  destruct (insert_line_puts (e_buf e) (fst d) (Z.of_nat n) s l Hb Hs Hsz) as (b' & E & Hb').
  rewrite (lbind_done _ _ _ _ _ E). change (0 <? 0) with false. cbn iota.
  eexists. split; [reflexivity|]. split; [done|].
  assert (Z.to_nat (clamp (Z.of_nat n) (Z.of_nat (length (fst d)))) = n) as Hc.
  { unfold clamp. repeat case_match; lia. }
  rewrite Hc in Hb'. split; cbn [e_buf e_current fst snd]; rewrite ?length_put by done; [done|done|left; lia|lia].
Qed.

(** What the four commands do in [main]. *)
Section dispatch.
Context (nf : gmap Z FILE -> option Z) (fuel : nat) (path : list Z) (e : estate).
#[local] Abbreviation cmd := (command nf roomy fuel path).

Lemma command_append s :
  cmd (97 :: 32 :: s) e =
    let! e := add_line roomy (if b_len (e_buf e) =? 0 then 0 else s32 (e_current e + 1)) s e in lret (Some e).
Proof. reflexivity. Qed.
Lemma command_insert line p s :
  parse_number (32 :: p) = (line, s) -> has_text s = true ->
  cmd (105 :: 32 :: p) e =
    let line := if line <? 1 then 1 else line in
    let line := if b_len (e_buf e) + 1 <? line then b_len (e_buf e) + 1 else line in
    let! e := add_line roomy (line - 1) s e in lret (Some e).
Proof.
  intros Ep Hs. transitivity (let '(line, p) := parse_number (32 :: p) in
    let line := if line <? 1 then 1 else line in
    let line := if b_len (e_buf e) + 1 <? line then b_len (e_buf e) + 1 else line in
    if has_text p then let! e := add_line roomy (line - 1) p e in lret (Some e)
    else let! e := add_block roomy fuel (line - 1) e in lret (Some e)); [reflexivity|].
  by rewrite Ep, Hs.
Qed.
Lemma command_replace line p s :
  parse_number (32 :: p) = (line, s) -> 1 <= line <= b_len (e_buf e) -> plain s ->
  cmd (114 :: 32 :: p) e =
    let! b := set_line (e_buf e) (line - 1) (Some s) in lret (Some (Estate b (line - 1) true)).
Proof.
  intros Ep Hl Hs. transitivity (let '(line, p) := parse_number (32 :: p) in
    if (line <? 1) || (b_len (e_buf e) <? line) then no_such_line ;;! lret (Some e)
    else
      match dup_string roomy p with
      | None => out_of_memory ;;! lret (Some e)
      | Some s =>
          let! b := set_line (e_buf e) (line - 1) (Some s) in lret (Some (Estate b (line - 1) true))
      end); [reflexivity|].
  by rewrite Ep, (dup_plain s Hs), (proj2 (Z.ltb_ge line 1)), (proj2 (Z.ltb_ge _ line)) by lia.
Qed.
Lemma command_delete p line s :
  parse_number (32 :: p) = (line, s) -> 1 <= line <= b_len (e_buf e) ->
  cmd (100 :: 32 :: p) e =
    let! b := delete_line (e_buf e) (line - 1) in
    let current := if b_len b <=? e_current e then b_len b - 1 else e_current e in
    let current := if current <? 0 then 0 else current in
    lret (Some (Estate b current true)).
Proof.
  intros Ep Hl. transitivity (let line := fst (parse_number (32 :: p)) in
    if (line <? 1) || (b_len (e_buf e) <? line) then no_such_line ;;! lret (Some e)
    else
      let! b := delete_line (e_buf e) (line - 1) in
      let current := if b_len b <=? e_current e then b_len b - 1 else e_current e in
      let current := if current <? 0 then 0 else current in
      lret (Some (Estate b current true))); [reflexivity|].
  rewrite Ep. cbn [fst]. by rewrite (proj2 (Z.ltb_ge line 1)), (proj2 (Z.ltb_ge _ line)) by lia.
Qed.
End dispatch.

(** A command changes the text as it says. *)
Lemma command_edits nf fuel path c d e l :
  edits d e -> edit_ok c d -> Z.of_nat (length (fst d)) + 1 < 2 ^ 29 ->
  exists e', command nf roomy fuel path (typed c) e l = Done (Some e', l) /\
    e_dirty e' = true /\ edits (edited c d) e'.
Proof.
  intros He Hok Hroom. pose proof He as [Hb Hcur Hin Hsz]. pose proof Hb as [Hlen Hcap Hfit Hmin Hl].
  destruct d as [ls cur]. cbn [fst snd] in *.
  destruct c as [s|ds s|ds s|ds]; cbn [edit_ok fst typed edited] in *.
  - rewrite command_append, Hlen, Hcur.
    set (n := match ls with [] => O | _ => S cur end).
    assert ((if Z.of_nat (length ls) =? 0 then 0 else s32 (Z.of_nat cur + 1)) = Z.of_nat n /\ (n <= length ls)%nat) as [-> Hn].
    { unfold n. destruct ls as [|x ls]; [done|]. destruct Hin as [Hin|[? _]]; [|done].
      rewrite (proj2 (Z.eqb_neq _ 0)) by (cbn; lia). rewrite s32_id by lia. lia. }
    destruct (add_line_puts (ls, cur) e n s l He Hok Hn Hroom) as (e' & E & Hd & He').
    rewrite (lbind_done _ _ _ _ _ E). by exists e'.
  - destruct Hok as (Hnum & Hs & Hne & Hsp).
    rewrite (command_insert _ _ _ _ _ _ _ (parse_number_text ds s Hnum Hsp)).
    2: { destruct Hs as [Hs _]. destruct Hs as [|c s Hc _]; [done|]. unfold has_text. cbn [char0 hd].
         by rewrite (proj2 (Z.eqb_neq c 0)). }
    rewrite Hlen. cbn zeta. set (n := Nat.min (Z.to_nat (digits_value ds - 1)) (length ls)).
    match goal with |- context [add_line roomy ?x] => assert (x = Z.of_nat n) as -> end.
    { unfold n. destruct (Z.ltb_spec (digits_value ds) 1); case_match; lia. }
    destruct (add_line_puts (ls, cur) e n s l He Hs ltac:(cbn; lia) Hroom) as (e' & E & Hd & He').
    rewrite (lbind_done _ _ _ _ _ E). by exists e'.
  - destruct Hok as ([Hnum Hv] & Hs & Hsp).
    rewrite (command_replace _ _ _ _ _ _ _ (parse_number_text ds s Hnum Hsp)) by (done || lia).
    set (i := Z.to_nat (digits_value ds - 1)). replace (digits_value ds - 1) with (Z.of_nat i) by lia.
    rewrite (lbind_done _ _ _ _ _ (set_line_in (e_buf e) i (Some s) l ltac:(lia))).
    eexists. split; [reflexivity|]. split; [done|].
    split; cbn [e_buf e_current fst snd]; rewrite ?length_insert; [|done|left; lia|lia].
    split; cbn [b_len b_cap b_line]; rewrite ?length_insert; [done..|]. intros k x Hx.
    apply list_lookup_insert_Some in Hx as [(<- & -> & _)|[Hk Hx]].
    + rewrite list_lookup_insert_eq by lia. done.
    + rewrite list_lookup_insert_ne by done. by apply Hl.
  - destruct Hok as [Hnum Hv].
    rewrite (command_delete _ _ _ _ _ _ _ (parse_number_end ds Hnum)) by lia.
    set (i := Z.to_nat (digits_value ds - 1)). replace (digits_value ds - 1) with (Z.of_nat i) by lia.
    destruct (delete_line_drops (e_buf e) ls i l Hb ltac:(lia) Hsz) as (b' & E & Hb').
    rewrite (lbind_done _ _ _ _ _ E). cbn zeta. pose proof Hb' as [Hlen' _ _ _ _].
    rewrite length_drop_line in Hlen' by lia. rewrite Hlen', Hcur.
    eexists. split; [reflexivity|]. split; [done|].
    split; cbn [e_buf e_current fst snd]; rewrite ?length_drop_line by lia; [done| | |lia].
    + destruct (Z.leb_spec (Z.of_nat (length ls - 1)) (Z.of_nat cur)); destruct (Z.ltb_spec (Z.of_nat (length ls - 1) - 1) 0);
        rewrite ?(proj2 (Z.ltb_ge (Z.of_nat cur) 0)) by lia; lia.
    + destruct (decide (length ls = 1%nat)).
      * right. split; [|lia]. apply length_zero_iff_nil. rewrite length_drop_line; lia.
      * left. lia.
Qed.
