(* ===== verification/LineEditRun.v ===== *)
(** A session with the line editor: the file is read, commands are typed, the
    text is saved. *)

From S2P Require Import Prelude Memory Prog LibcStr LibcFmt LibcFmtSpec LibcSys LibcStdio LibcStdioSpec Tools ToolsSpec.
From S2P Require Import LineEdit LineEditSpec.

(** The lines of a file. *)
Definition unlines (ls : list (list Z)) : list Z := concat ((fun s => s ++ [10]) <$> ls).
Definition text_line (s : list Z) : Prop :=
  Forall (fun c => 0 < c < 256 /\ c <> 10) s /\ last s <> Some 13 /\ Z.of_nat (length s) < 2 ^ 31.
Lemma text_line_plain s : text_line s -> plain s.
Proof. intros (Hs & _ & Hl). split; [|done]. eapply Forall_impl; [exact Hs|]. cbn. lia. Qed.
Lemma text_line_strip s : text_line s -> strip_end (s ++ [10]) = s.
Proof.
  intros (Hs & Hlast & _). induction Hs as [|c s Hc _ IH]; [done|]. cbn [app strip_end].
  destruct s as [|d s].
  - cbn. unfold strip_newline_char. rewrite (proj2 (Z.eqb_neq c 10)) by lia.
    rewrite (proj2 (Z.eqb_neq c 13)) by (intros ->; done). done.
  - rewrite IH; [done|]. by cbn in Hlast |- *.
Qed.
Lemma text_line_cut s rest : text_line s -> cut_line 10 (s ++ 10 :: rest) = (s ++ [10], rest).
Proof.
  intros (Hs & _). induction Hs as [|c s Hc _ IH]; cbn; [done|].
  rewrite (proj2 (Z.eqb_neq c 10)) by lia. by rewrite IH.
Qed.
Lemma text_line_bytes ls : Forall text_line ls -> Forall is_byte (unlines ls).
Proof.
  induction 1 as [|s ls (Hs & _) _ IH]; [by constructor|]. unfold unlines. cbn.
  repeat (apply Forall_app; split); [|repeat constructor; done|exact IH].
  eapply Forall_impl; [exact Hs|]. unfold is_byte. cbn. lia.
Qed.

Lemma append_line_puts b ls s l :
  holds b ls -> plain s -> Z.of_nat (length ls) < 2 ^ 29 ->
  exists b', append_line roomy b s l = Done ((0, b'), l) /\ holds b' (ls ++ [s]).
Proof.
  intros Hb Hs Hn. unfold append_line. pose proof Hb as [Hlen _ _ _ _]. rewrite Hlen, s32_id by lia.
  destruct (ensure_cap_holds b ls l (Z.of_nat (length ls) + 1) Hb) as (b1 & E1 & Hb1 & Hc1); [lia|].
  rewrite (lbind_done _ _ _ _ _ E1). cbn beta iota. destruct Hb1 as [Hlen1 Hcap1 Hroom1 Hmin1 Hl1].
  change (0 <? 0) with false. cbn iota. rewrite Hlen1, (dup_plain s Hs).
  rewrite (lbind_done _ _ _ _ _ (set_line_in b1 (length ls) (Some s) l ltac:(lia))).
  cbn [b_line b_len b_cap]. rewrite Hlen1, s32_id by lia. eexists. split; [reflexivity|].
  split; cbn [b_len b_cap b_line]; rewrite ?length_app, ?length_insert; cbn [length]; [lia|lia|lia|lia|].
  intros i x Hx. apply lookup_app_Some in Hx as [Hx|[Hge Hx]].
  - pose proof (lookup_lt_Some _ _ _ Hx). rewrite list_lookup_insert_ne by lia. by apply Hl1.
  - apply list_lookup_singleton_Some in Hx as [Hi <-]. replace i with (length ls) by lia.
    rewrite list_lookup_insert_eq by lia. done.
Qed.

(* ------------------------------------------------------------------ *)
(** ** The library and the kernel *)

(** The terminal and the files, nothing pending. *)
Record at_terminal (nx : Z) (files : gmap (list Z) (list Z)) (input : list Z) (w : io) : Prop := AtTerminal {
  tm_files : io_files w = files;
  tm_in : io_in w = input;
  tm_sizes : io_sizes w = [];
  tm_next : io_next w = nx;
}.
Lemma at_terminal_put nx files input s w : at_terminal nx files input w -> at_terminal nx files input (io_put s w).
Proof. by intros [? ? ? ?]. Qed.

(** The standard streams are there; a new [FILE] lies at [p]. *)
Record desk (nf : gmap Z FILE -> option Z) (p : Z) (l : libc) : Prop := Desk {
  dk_out : exists f, l_files l !! stdout = Some f /\ f_fd f = 1;
  dk_new : nf (l_files l) = Some p;
  dk_free : l_files l !! p = None;
  dk_p : p <> stdin /\ p <> stdout /\ p <> stderr;
}.
Lemma desk_files nf p l l' : l_files l' = l_files l -> desk nf p l -> desk nf p l'.
Proof. intros E [? ? ? ?]. by constructor; rewrite ?E. Qed.

Lemma lrun_write_out s l w :
  Z.of_nat (length s) < 2 ^ 63 ->
  run io_kernel (write 1 s l) w = (Returned (Z.of_nat (length s), l), io_put s w).
Proof.
  intros Hs. unfold write. rewrite (lrun_bind _ _ _ _ _ _ _ _ (lrun_sys (SysWrite 1 s) l w _ _ eq_refl)).
  unfold errno_if. rewrite s64_id by lia. by rewrite (proj2 (Z.ltb_ge _ 0)) by lia.
Qed.
Lemma cprintf_puts nf p fmt args l nx files input w :
  desk nf p l -> at_terminal nx files input w ->
  exists w', run io_kernel (cprintf fmt args l) w = (Returned (tt, l), w') /\ at_terminal nx files input w'.
Proof.
  intros [(f & Hf & Hfd) _ _ _] Hw. destruct (printf_prints (carg_text args) (carg_word args) fmt f l w Hf Hfd) as (t & _ & E).
  unfold cprintf. rewrite (lrun_bind _ _ _ _ _ _ _ _ E). eexists. split; [reflexivity|]. by apply at_terminal_put.
Qed.

(** A byte from the terminal. *)
Lemma lrun_key c input nx files l w :
  at_terminal nx files (c :: input) w ->
  exists w', run io_kernel (read 0 1 l) w = (Returned ((1, [c]), l), w') /\ at_terminal nx files input w'.
Proof.
  intros [Hf Hi Hs Hn]. exists (io_advance 0 1 (io_skip w)). split.
  - apply (lrun_read 0 1 l w 1 [c]); [|lia]. apply (io_read_one w 0 c input). unfold io_avail. cbn. by rewrite Hi.
  - constructor; cbn; [done|by rewrite Hi|by rewrite Hs|done].
Qed.

(** A command is typed. *)
Definition printable (c : Z) : Prop := 32 <= c < 127.
Lemma read_command_types s : Forall printable s -> forall fuel cap buf rest nx files l w,
  (length s < fuel)%nat -> Z.of_nat (length buf + length s) < cap ->
  at_terminal nx files (s ++ 10 :: rest) w ->
  exists w', run io_kernel (read_command fuel cap buf l) w = (Returned (Some (buf ++ s), l), w') /\ at_terminal nx files rest w'.
Proof.
  induction 1 as [|c s Hc _ IH]; intros fuel cap buf rest nx files l w Hf Hcap Hw; (destruct fuel as [|fuel]; [cbn in Hf; lia|]);
    cbn [read_command app] in *; destruct (lrun_key _ _ _ _ l _ Hw) as (w1 & E1 & Hw1); rewrite (lrun_bind _ _ _ _ _ _ _ _ E1).
  - change (negb (fst (1, [10]) =? 1)) with false. cbv iota. cbn [snd char0 hd].
    change (10 =? 13) with false. cbv iota. change (10 =? 10) with true. cbv iota.
    rewrite (lrun_bind _ _ _ _ _ _ _ _ (lrun_write_out [10] l w1 ltac:(cbn; lia))). rewrite app_nil_r.
    eexists. split; [reflexivity|]. by apply at_terminal_put.
  - change (negb (fst (1, [c]) =? 1)) with false. cbv iota. cbn [snd char0 hd]. unfold printable in Hc.
    rewrite (proj2 (Z.eqb_neq c 13)) by lia. cbv iota.
    rewrite (proj2 (Z.eqb_neq c 10)), (proj2 (Z.eqb_neq c 3)), (proj2 (Z.eqb_neq c 127)), (proj2 (Z.eqb_neq c 8)) by lia.
    cbn [orb]. cbn [length] in Hf, Hcap.
    rewrite (proj2 (Z.leb_le 32 c)), (proj2 (Z.ltb_lt c 127)), (proj2 (Z.ltb_lt _ _)) by lia. cbn [andb].
    rewrite (lrun_bind _ _ _ _ _ _ _ _ (lrun_write_out [c] l w1 ltac:(cbn; lia))).
    destruct (IH fuel cap (buf ++ [c]) rest nx files l (io_put [c] w1)) as (w2 & E2 & Hw2);
      [lia|rewrite length_app; cbn [length]; lia|by apply at_terminal_put|].
    exists w2. split; [|done]. rewrite E2. by rewrite <- app_assoc.
Qed.

(* ------------------------------------------------------------------ *)
(** ** Saving *)

(** [path] is open at [fd] and has [content], all of it written. *)
Record saving (path : list Z) (fd : Z) (content : list Z) nx files input (w : io) : Prop := Saving {
  sv_term : at_terminal nx (<[path := content]> files) input w;
  sv_fd : io_fds w !! fd = Some (path, length content);
}.
Lemma saving_write path fd content nx files input w s l :
  saving path fd content nx files input w -> 3 <= fd -> Z.of_nat (length s) < 2 ^ 62 ->
  exists w', run io_kernel (write fd s l) w = (Returned (Z.of_nat (length s), l), w') /\
    saving path fd (content ++ s) nx files input w'.
Proof.
  intros [[Hf Hi Hs Hn] Hfd] H3 Hl.
  assert (io_write fd s w = (Z.of_nat (length s),
    io_set_files (<[path := content ++ s]> (io_files w)) (io_advance fd (length s) (io_skip w)))) as E.
  { unfold io_write. rewrite (proj2 (Z.eqb_neq fd 1)), (proj2 (Z.eqb_neq fd 2)) by lia. rewrite Hfd, Hf, lookup_insert_eq.
    rewrite io_amount_full by done. rewrite Nat.min_id, firstn_all, take_ge, drop_ge, app_nil_r by lia. done. }
  eexists. split.
  - unfold write. rewrite (lrun_bind _ _ _ _ _ _ _ _ (lrun_sys (SysWrite fd s) l w _ _ (f_equal (fun '(r, w) => (Some r, w)) E))).
    unfold errno_if. rewrite s64_id by lia. rewrite (proj2 (Z.ltb_ge _ 0)) by lia. reflexivity.
  - unfold io_advance. rewrite (proj2 (Z.eqb_neq fd 0)) by lia. split; [constructor|]; cbn.
    + by rewrite Hf, insert_insert_eq.
    + done.
    + by rewrite Hs.
    + done.
    + rewrite lookup_alter_eq, Hfd, length_app. done.
Qed.

Lemma fopen_write nf p path nx files input w l :
  desk nf p l -> at_terminal nx files input w -> 3 <= nx < 2 ^ 30 ->
  exists w', run io_kernel (fopen nf path [119] l) w
      = (Returned (Some p, l_set_files (<[p := file_of nx]> (l_files l)) l), w') /\
    saving path nx [] (nx + 1) files input w'.
Proof.
  intros [_ Hnew Hfree Hp] [Hf Hi Hs <-] Hn. unfold fopen. change (mode_char [119] =? 119) with true. cbn [lwhen].
  set (w1 := match io_files w !! path with Some _ => io_set_files (delete path (io_files w)) w | None => w end).
  assert (exists r, run io_kernel (unlink path l) w = (Returned (r, l), w1)) as [r E1].
  { unfold unlink, w1. destruct (io_files w !! path) eqn:Ep; eexists.
    - erewrite lrun_bind; [reflexivity|]. apply lrun_sys. cbn [io_kernel]. rewrite Ep. reflexivity.
    - erewrite lrun_bind; [reflexivity|]. apply lrun_sys. cbn [io_kernel]. rewrite Ep. reflexivity. }
  assert (run io_kernel ((unlink path ;;! lret tt) l) w = (Returned (tt, l), w1)) as E1'
    by (by rewrite (lrun_bind _ _ _ _ _ _ _ _ E1)).
  rewrite (lrun_bind _ _ _ _ _ _ _ _ E1'). clear E1 E1' r.
  assert (io_files w1 = delete path files /\ io_fds w1 = io_fds w /\ io_next w1 = io_next w /\ io_in w1 = input /\
    io_sizes w1 = []) as (F1 & F2 & F3 & F4 & F5).
  { unfold w1. destruct (io_files w !! path) eqn:Ep; cbn; split_and!; [by rewrite Hf|done..| |done|done|done|done].
    rewrite Hf in *. by rewrite delete_id. }
  set (w2 := IO (<[path := []]> (delete path files)) (<[io_next w := (path, 0%nat)]> (io_fds w)) (io_next w + 1) input
    (io_out w1) (io_err w1) [] (io_exit w1)).
  assert (run io_kernel (open path (mode_to_flags [119]) l) w1 = (Returned (io_next w, l), w2)) as E2.
  { unfold open. erewrite lrun_bind.
    2: { apply lrun_sys. cbn [io_kernel]. unfold io_open. rewrite F1, lookup_delete_eq, F2, F3, F4, F5. reflexivity. }
    unfold errno_if. rewrite s32_id by lia. by rewrite (proj2 (Z.ltb_ge _ 0)) by lia. }
  rewrite (lrun_bind _ _ _ _ _ _ _ _ E2). rewrite (proj2 (Z.ltb_ge _ 0)) by lia. cbv iota.
  change (mode_char [119] =? 97) with false. cbn [lwhen]. rewrite lrun_ret_bind.
  assert (alloc_file nf (file_of (io_next w)) l = Done (Some p, l_set_files (<[p := file_of (io_next w)]> (l_files l)) l)) as E3
    by (unfold alloc_file; by rewrite Hnew).
  rewrite (lrun_bind _ _ _ _ _ _ _ _ (lrun_done _ _ _ _ _ E3)).
  exists w2. split; [reflexivity|]. split; [constructor|]; cbn; [by rewrite insert_delete_eq|done..|apply lookup_insert_eq].
Qed.

(** [fclose] of what [fopen] opened. *)
Lemma fclose_closes nf p f l l1 w path off :
  desk nf p l -> l_files l1 !! p = Some f -> f_unlink_on_close f = false ->
  delete p (l_files l1) = l_files l -> io_fds w !! f_fd f = Some (path, off) ->
  run io_kernel (fclose (Some p) l1) w =
    (Returned (0, l_set_files (l_files l) l1), io_set_fds (delete (f_fd f) (io_fds w)) w).
Proof.
  intros [_ _ _ (H0 & H1 & H2)] Hf Hu Hd Hfd. unfold fclose.
  rewrite (proj2 (Z.eqb_neq p stdin)), (proj2 (Z.eqb_neq p stdout)), (proj2 (Z.eqb_neq p stderr)) by done. cbn [orb].
  rewrite (lrun_get_file _ _ _ _ _ _ Hf).
  assert (run io_kernel (close (f_fd f) l1) w = (Returned (0, l1), io_set_fds (delete (f_fd f) (io_fds w)) w)) as E.
  { unfold close. erewrite lrun_bind; [|apply lrun_sys; cbn [io_kernel]; unfold io_close; rewrite Hfd; reflexivity]. reflexivity. }
  rewrite (lrun_bind _ _ _ _ _ _ _ _ E). rewrite Hu. cbn [lwhen]. rewrite lrun_ret_bind. rewrite <- Hd. reflexivity.
Qed.

Lemma write_lines_writes b ls : holds b ls -> forall n i p fd path content nx files input w l f,
  (i + n = length ls)%nat -> l_files l !! p = Some f -> f_fd f = fd -> 3 <= fd ->
  Forall plain ls -> saving path fd content nx files input w ->
  exists w', run io_kernel (write_lines n (Z.of_nat i) p b l) w = (Returned (tt, l), w') /\
    saving path fd (content ++ unlines (drop i ls)) nx files input w' .
Proof.
  intros Hb n. induction n as [|n IH]; intros i p fd path content nx files input w l f Hi Hf Hfd H3 Hp Hw; cbn [write_lines].
  { rewrite drop_ge, app_nil_r by lia. by exists w. }
  destruct (lookup_lt_is_Some_2 ls i) as [s Hs]; [lia|].
  rewrite (lrun_bind _ _ _ _ _ _ _ _ (lrun_done _ _ _ _ _ (line_at_in b i (Some s) l (ho_lines _ _ Hb _ _ Hs)))).
  cbn [default from_option id].
  assert (Z.of_nat (length s) < 2 ^ 31) as Hl by (eapply Forall_lookup_1 in Hp; [apply Hp|exact Hs]).
  destruct (saving_write path fd content nx files input w s l Hw H3 ltac:(lia)) as (w1 & E1 & Hw1).
  destruct (saving_write path fd _ nx files input w1 [u8 10] l Hw1 H3 ltac:(cbn; lia)) as (w2 & E2 & Hw2).
  assert (exists r, run io_kernel (fputs s p l) w = (Returned (r, l), w1)) as [r1 E1'].
  { unfold fputs. rewrite (lrun_get_file _ _ _ _ _ _ Hf), Hfd, (lrun_bind _ _ _ _ _ _ _ _ E1). by eexists. }
  assert (exists r, run io_kernel (fputc 10 p l) w1 = (Returned (r, l), w2)) as [r2 E2'].
  { unfold fputc. rewrite (lrun_get_file _ _ _ _ _ _ Hf), Hfd, (lrun_bind _ _ _ _ _ _ _ _ E2). by eexists. }
  rewrite (lrun_bind _ _ _ _ _ _ _ _ E1'), (lrun_bind _ _ _ _ _ _ _ _ E2').
  replace (Z.of_nat i + 1) with (Z.of_nat (S i)) by lia.
  destruct (IH (S i) p fd path ((content ++ s) ++ [u8 10]) nx files input w2 l f) as (w3 & E3 & Hw3); [lia|done..|].
  exists w3. split; [exact E3|]. rewrite (drop_S ls s i Hs). unfold unlines in *. cbn [fmap list_fmap concat].
  change (u8 10) with 10 in Hw3. by rewrite <- !app_assoc in *.
Qed.

(** [write_file] makes the file the lines of the text. *)
Lemma write_file_writes nf p b ls path nx files input w l :
  holds b ls -> Forall plain ls -> desk nf p l -> at_terminal nx files input w -> 3 <= nx < 2 ^ 30 ->
  exists l' w', run io_kernel (write_file nf b path l) w = (Returned (0, l'), w') /\
    l_files l' = l_files l /\ at_terminal (nx + 1) (<[path := unlines ls]> files) input w'.
Proof.
  intros Hb Hp Hd Hw Hn. unfold write_file. destruct (fopen_write nf p path nx files input w l Hd Hw Hn) as (w1 & E1 & Hw1).
  rewrite (lrun_bind _ _ _ _ _ _ _ _ E1). cbv iota. pose proof Hb as [Hlen _ _ _ _]. rewrite Hlen, Nat2Z.id.
  set (l1 := l_set_files (<[p := file_of nx]> (l_files l)) l).
  assert (l_files l1 !! p = Some (file_of nx)) as Hf by (cbn; apply lookup_insert_eq).
  destruct (write_lines_writes b ls Hb (length ls) 0 p nx path [] (nx + 1) files input w1 l1 _ ltac:(lia) Hf eq_refl) as (w2 & E2 & Hw2);
    [lia|done..|].
  rewrite (lrun_bind _ _ _ _ _ _ _ _ E2). destruct Hw2 as [Ht Hfd].
  eexists _, _. split; [|split].
  - eapply fclose_closes; [exact Hd|exact Hf|reflexivity| |exact Hfd]. cbn. apply delete_insert_id. by destruct Hd.
  - reflexivity.
  - destruct Ht. by constructor.
Qed.

(* ------------------------------------------------------------------ *)
(** ** Loading *)

Lemma take_line s : take (Z.to_nat (Z.of_nat (length (s ++ [10])))) (s ++ [10]) = s ++ [10].
Proof. by rewrite Nat2Z.id, firstn_all. Qed.

(** [p] is a stream on the descriptor [nx] that [fopen] gave, at [rest]. *)
Record loading (p : Z) (lw : libc) (nx : Z) (rest : list Z) files input (l : libc) (w : io) : Prop := Loading {
  ld_stream : stream_at l w p rest;
  ld_term : at_terminal (nx + 1) files input w;
  ld_others : delete p (l_files l) = l_files lw;
  ld_file : exists f, l_files l !! p = Some f /\ f_fd f = nx /\ f_unlink_on_close f = false;
}.
Lemma loading_around p lw nx rest rest' files input l w l' w' :
  0 < nx -> loading p lw nx rest files input l w -> around p l w l' w' -> stream_at l' w' p rest' ->
  loading p lw nx rest' files input l' w'.
Proof.
  intros Hnx [_ [T1 T2 T3 T4] Ho (f & Hf & Hfd & Hu)] [A1 A2 A7 A3 A4 A5 A6] Hst.
  rewrite Hf in A2, A5, A7. cbn in A2, A5, A7. split; [done| |congruence|].
  - rewrite Hfd in A5. constructor; [congruence| |auto|congruence].
    rewrite A5; [done|]. intros [= ->]. lia.
  - destruct (l_files l' !! p) as [f'|]; [|done]. cbn in A2, A7. exists f'. split; [done|]. split; congruence.
Qed.
Lemma loading_close nf p lw nx rest files input l w :
  desk nf p lw -> 0 < nx -> loading p lw nx rest files input l w ->
  exists l' w', run io_kernel (fclose (Some p) l) w = (Returned (0, l'), w') /\
    l_files l' = l_files lw /\ at_terminal (nx + 1) files input w'.
Proof.
  intros Hd Hnx [[(f0 & Hf0 & _ & Ha) _] [T1 T2 T3 T4] Ho (f & Hf & Hfd & Hu)].
  assert (f0 = f) as -> by congruence. unfold io_avail in Ha. rewrite (proj2 (Z.eqb_neq _ 0)) in Ha by lia.
  destruct (io_fds w !! f_fd f) as [[path off]|] eqn:Ew; [|done].
  eexists _, _. split; [by eapply fclose_closes|]. split; [done|]. by constructor.
Qed.

Lemma read_file_loop_reads fuel nf p lw nx files input : desk nf p lw -> 0 < nx ->
  forall ls, Forall text_line ls -> forall rounds b done n l w,
  holds b done -> Z.of_nat (length done + length ls) < 2 ^ 29 ->
  (length ls < rounds)%nat -> (length (unlines ls) < fuel)%nat -> Z.of_nat (length (unlines ls)) < 2 ^ 62 ->
  (forall n0, n = Some n0 -> 0 <= n0) -> loading p lw nx (unlines ls) files input l w ->
  exists b' l' w', run io_kernel (read_file_loop roomy rounds fuel p n b l) w = (Returned ((0, b'), l'), w') /\
    holds b' (done ++ ls) /\ l_files l' = l_files lw /\ at_terminal (nx + 1) files input w'.
Proof.
  intros Hd Hnx ls Hls. induction Hls as [|s ls Hs Hls IH];
    intros rounds b done n l w Hb Hsz Hr Hf Hu Hn Hld;
    (destruct rounds as [|rounds]; [cbn in Hr; lia|]); cbn [read_file_loop].
  - destruct (getdelim_reads 10 p fuel _ n l w (ld_stream _ _ _ _ _ _ _ _ Hld) (text_line_bytes [] ltac:(constructor)) Hf Hu Hn)
      as (n' & l1 & w1 & E1 & _ & Hst1 & Har1).
    rewrite (lrun_bind _ _ _ _ _ _ _ _ E1). change (length (unlines []) =? 0)%nat with true. cbv iota.
    change (-1 <? 0) with true. cbv iota.
    pose proof (loading_around _ _ _ _ _ _ _ _ _ _ _ Hnx Hld Har1 Hst1) as Hld1.
    destruct (loading_close _ _ _ _ _ _ _ _ _ Hd Hnx Hld1) as (l2 & w2 & E2 & Hl2 & Hw2).
    rewrite (lrun_bind _ _ _ _ _ _ _ _ E2). rewrite app_nil_r. by eexists _, _, _.
  - assert (Forall is_byte (unlines (s :: ls))) as Hbytes by (apply text_line_bytes; by constructor).
    assert (unlines (s :: ls) = s ++ 10 :: unlines ls) as Eu by (unfold unlines; cbn; by rewrite <- app_assoc).
    destruct (getdelim_reads 10 p fuel _ n l w (ld_stream _ _ _ _ _ _ _ _ Hld) Hbytes Hf Hu Hn)
      as (n' & l1 & w1 & E1 & Hn' & Hst1 & Har1).
    rewrite Eu in *. rewrite (text_line_cut s (unlines ls) Hs) in *. cbn [fst snd] in *.
    pose proof (loading_around _ _ _ _ _ _ _ _ _ _ _ Hnx Hld Har1 Hst1) as Hld1.
    rewrite length_app in Hf, Hu. cbn [length] in Hf, Hu, Hsz, Hr.
    rewrite (proj2 (Nat.eqb_neq _ 0)) in E1 by (rewrite length_app; cbn; lia).
    rewrite (lrun_bind _ _ _ _ _ _ _ _ E1). rewrite (proj2 (Z.ltb_ge _ 0)) by lia.
    rewrite take_line, text_line_strip by done. rewrite cstring_plain by apply (text_line_plain s Hs).
    destruct (append_line_puts b done s l1 Hb (text_line_plain s Hs) ltac:(lia)) as (b1 & E2 & Hb1).
    rewrite (lrun_bind _ _ _ _ _ _ _ _ (lrun_done _ _ _ _ _ E2)). change (0 <? 0) with false. cbv iota.
    destruct (IH rounds b1 (done ++ [s]) (Some n') l1 w1 Hb1) as (b2 & l2 & w2 & E3 & Hb2 & Hl2 & Hw2); [..|exact Hld1|];
      [rewrite length_app; cbn [length]; lia|lia|lia|lia|intros ? [= <-]; lia|].
    exists b2, l2, w2. split; [exact E3|]. by rewrite <- app_assoc in Hb2.
Qed.

Lemma holds_empty : holds buffer0 [].
Proof. split; cbn; [done|done|lia|by left|done]. Qed.

Lemma fopen_read nf p path content files input nx w l :
  desk nf p l -> at_terminal nx files input w -> 3 <= nx < 2 ^ 30 -> files !! path = Some content ->
  let l1 := l_set_files (<[p := file_of nx]> (l_files l)) l in
  exists w1, run io_kernel (fopen nf path [114] l) w = (Returned (Some p, l1), w1) /\
    loading p l nx content files input l1 w1.
Proof.
  intros Hd [<- Hi Hs Hnx] Hn Ep l1. pose proof Hd as [_ Hnew Hfree Hp].
  set (w1 := IO (io_files w) (<[nx := (path, 0%nat)]> (io_fds w)) (nx + 1) (io_in w) (io_out w)
    (io_err w) (io_sizes w) (io_exit w)).
  assert (run io_kernel (open path (mode_to_flags [114]) l) w = (Returned (nx, l), w1)) as E1.
  { unfold open. erewrite lrun_bind; [|apply lrun_sys; cbn [io_kernel]; unfold io_open; rewrite Ep, Hnx; reflexivity].
    unfold errno_if. rewrite s32_id by lia. by rewrite (proj2 (Z.ltb_ge _ 0)) by lia. }
  assert (l_files l1 !! p = Some (file_of nx)) as Hf by (cbn; apply lookup_insert_eq).
  exists w1. split.
  - unfold fopen. change (mode_char [114] =? 119) with false. cbn [lwhen]. rewrite lrun_ret_bind.
    rewrite (lrun_bind _ _ _ _ _ _ _ _ E1). rewrite (proj2 (Z.ltb_ge _ 0)) by lia. cbv iota.
    change (mode_char [114] =? 97) with false. cbn [lwhen]. rewrite lrun_ret_bind.
    assert (alloc_file nf (file_of nx) l = Done (Some p, l1)) as E3 by (unfold alloc_file; by rewrite Hnew).
    by rewrite (lrun_bind _ _ _ _ _ _ _ _ (lrun_done _ _ _ _ _ E3)).
  - constructor.
    + constructor; [|left; by apply Hp]. exists (file_of nx). split; [done|]. split; [done|].
      unfold io_avail. cbn [file_of f_fd]. rewrite (proj2 (Z.eqb_neq nx 0)) by lia. cbn.
      rewrite lookup_insert_eq. cbn. by rewrite Ep.
    + by constructor.
    + cbn. by apply delete_insert_id.
    + by exists (file_of nx).
Qed.
Lemma fopen_read_none nf p path files input nx w l :
  desk nf p l -> at_terminal nx files input w -> files !! path = None ->
  exists l1, run io_kernel (fopen nf path [114] l) w = (Returned (None, l1), w) /\ l_files l1 = l_files l.
Proof.
  intros Hd [<- Hi Hs Hnx] Ep. unfold fopen. change (mode_char [114] =? 119) with false. cbn [lwhen]. rewrite lrun_ret_bind.
  assert (run io_kernel (open path (mode_to_flags [114]) l) w = (Returned (-1, l_set_errno 2 l), w)) as E1.
  { unfold open. erewrite lrun_bind; [|apply lrun_sys; cbn [io_kernel]; unfold io_open; rewrite Ep; reflexivity]. reflexivity. }
  rewrite (lrun_bind _ _ _ _ _ _ _ _ E1). by exists (l_set_errno 2 l).
Qed.

Lemma length_unlines ls : (length ls <= length (unlines ls))%nat.
Proof. unfold unlines. induction ls as [|s ls IH]; cbn; [lia|]. rewrite !length_app. cbn. lia. Qed.

(** [read_file] reads the lines of the file; a file that is not there is an empty
    text. *)
Lemma read_file_reads nf p ls path files input nx w l fuel :
  desk nf p l -> at_terminal nx files input w -> 3 <= nx < 2 ^ 30 ->
  Forall text_line ls -> default [] (files !! path) = unlines ls ->
  (length (unlines ls) < fuel)%nat -> Z.of_nat (length (unlines ls)) < 2 ^ 29 ->
  exists b' l' w' nx', run io_kernel (read_file nf roomy fuel buffer0 path l) w = (Returned ((0, b'), l'), w') /\
    holds b' ls /\ l_files l' = l_files l /\ at_terminal nx' files input w' /\ nx <= nx' <= nx + 1.
Proof.
  intros Hd Hw Hn Hls Hfile Hfuel Hsz. unfold read_file. pose proof (length_unlines ls).
  destruct (files !! path) as [c|] eqn:Ep; cbn in Hfile.
  - subst c. destruct (fopen_read nf p path _ files input nx w l Hd Hw Hn Ep) as (w1 & E1 & Hld).
    rewrite (lrun_bind _ _ _ _ _ _ _ _ E1).
    destruct (read_file_loop_reads fuel nf p l nx files input Hd ltac:(lia) ls Hls fuel buffer0 [] None
      (l_set_files (<[p := file_of nx]> (l_files l)) l) w1 holds_empty)
      as (b' & l' & w' & E2 & Hb & Hl & Hw'); [..|exact Hld|]; [cbn; lia|lia|done|lia|done|].
    exists b', l', w', (nx + 1). split; [exact E2|]. split; [exact Hb|]. split; [done|]. split; [done|lia].
  - assert (ls = []) as -> by (destruct ls as [|s ls]; [done|]; unfold unlines in Hfile; cbn in Hfile; by destruct s).
    destruct (fopen_read_none nf p path files input nx w l Hd Hw Ep) as (l1 & E1 & Hl).
    rewrite (lrun_bind _ _ _ _ _ _ _ _ E1). exists buffer0, l1, w, nx. split; [done|].
    split; [apply holds_empty|]. split; [done|]. split; [done|lia].
Qed.

(* ------------------------------------------------------------------ *)
(** ** The session *)

Fixpoint edit_all (es : list edit) (d : document) : document :=
  match es with [] => d | e :: es => edit_all es (edited e d) end.
(** Each command can be typed, and names a line of the text it meets. *)
Fixpoint script_ok (es : list edit) (d : document) : Prop :=
  match es with
  | [] => True
  | e :: es => edit_ok e d /\ Forall printable (typed e) /\ (length (typed e) < 512)%nat /\ script_ok es (edited e d)
  end.
Definition keys (es : list edit) : list Z := unlines (typed <$> es).
Definition save_and_quit : list Z := [119; 10; 113; 10].

Lemma edited_plain c d : edit_ok c d -> Forall plain (fst d) -> Forall plain (fst (edited c d)).
Proof.
  destruct d as [ls cur]. destruct c as [s|ds s|ds s|ds]; cbn; intros Hok Hls.
  - unfold put. apply Forall_app. split; [by apply Forall_take|]. constructor; [done|by apply Forall_drop].
  - unfold put. apply Forall_app. split; [by apply Forall_take|]. constructor; [by apply Hok|by apply Forall_drop].
  - apply Forall_insert; [done|by apply Hok].
  - unfold drop_line. apply Forall_app. split; [by apply Forall_take|by apply Forall_drop].
Qed.
Lemma edited_length c d : edit_ok c d -> (snd d < length (fst d))%nat \/ (fst d = [] /\ snd d = O) ->
  (length (fst (edited c d)) <= S (length (fst d)))%nat.
Proof.
  destruct d as [ls cur]. destruct c as [s|ds s|ds s|ds]; cbn; intros Hok Hin.
  - destruct ls as [|x ls]; [done|]. rewrite length_put; [lia|]. destruct Hin as [Hin|[? _]]; [cbn in *; lia|done].
  - rewrite length_put; lia.
  - rewrite length_insert. lia.
  - rewrite length_drop_line; lia.
Qed.

#[export] Instance number_dec ds : Decision (number ds).
Proof. unfold number, digit. apply _. Defined.
#[export] Instance plain_dec s : Decision (plain s).
Proof. unfold plain. apply _. Defined.
#[export] Instance edit_ok_dec c d : Decision (edit_ok c d).
Proof. destruct c; cbn; unfold unspaced; apply _. Defined.
#[export] Instance script_ok_dec es : forall d, Decision (script_ok es d).
Proof. induction es as [|c es IH]; intros d; cbn; unfold printable; apply _. Defined.
#[export] Instance text_line_dec s : Decision (text_line s).
Proof. unfold text_line. apply _. Defined.

Section session.
Context (nf : gmap Z FILE -> option Z) (p : Z) (path rest : list Z) (fuel : nat) (Hfuel : (512 <= fuel)%nat).

(** A command is asked for and typed. *)
Lemma asks {B} s (k : option (list Z) -> LM B) cur l w nx files input :
  desk nf p l -> Forall printable s -> (length s < 512)%nat ->
  at_terminal nx files (s ++ 10 :: input) w ->
  exists w', at_terminal nx files input w' /\
    run io_kernel ((cprintf (text ":%d> ") [CInt cur] ;;! let! cmd := read_command fuel COMMAND_CAP [] in k cmd) l) w =
      run io_kernel (k (Some s) l) w'.
Proof.
  intros Hd Hs Hl Hw. destruct (cprintf_puts nf p (text ":%d> ") [CInt cur] l nx files _ w Hd Hw) as (w1 & E1 & Hw1).
  destruct (read_command_types s Hs fuel COMMAND_CAP [] input nx files l w1) as (w2 & E2 & Hw2);
    [lia|unfold COMMAND_CAP; cbn [length]; lia|done|].
  exists w2. split; [done|]. rewrite (lrun_bind _ _ _ _ _ _ _ _ E1), (lrun_bind _ _ _ _ _ _ _ _ E2). done.
Qed.

Lemma main_loop_saves d e l w rounds nx files :
  desk nf p l -> edits d e -> Forall plain (fst d) -> 3 <= nx < 2 ^ 30 -> (2 <= rounds)%nat ->
  at_terminal nx files (save_and_quit ++ rest) w ->
  exists l' w', run io_kernel (main_loop nf roomy rounds fuel path e l) w = (Returned (tt, l'), w') /\
    at_terminal (nx + 1) (<[path := unlines (fst d)]> files) rest w'.
Proof.
  intros Hd [Hb _ _ _] Hp Hn Hr Hw. destruct rounds as [|[|rounds]]; [lia..|].
  remember (S rounds) as r eqn:Er. cbn [main_loop].
  match goal with |- context [lbind (read_command _ _ _) ?k] => 
    destruct (asks [119] k (s32 (e_current e + 1)) l w nx files (113 :: 10 :: rest) Hd) as (w1 & Hw1 & ->) end;
    [repeat constructor; done|cbn; lia|done|].
  destruct (write_file_writes nf p (e_buf e) (fst d) path nx files _ w1 l Hb Hp Hd Hw1 Hn) as (l2 & w2 & E2 & Hl2 & Hw2).
  pose proof (desk_files _ _ _ _ Hl2 Hd) as Hd2.
  destruct (cprintf_puts nf p (text "%d lines written" ++ [10]) [CInt (b_len (e_buf e))] l2 _ _ _ w2 Hd2 Hw2) as (w3 & E3 & Hw3).
  assert (run io_kernel (command nf roomy fuel path [119] e l) w1
    = (Returned (Some (Estate (e_buf e) (e_current e) false), l2), w3)) as E.
  { transitivity (run io_kernel ((let! r := write_file nf (e_buf e) path in
      if r <? 0 then cprintf (text "Could not save file" ++ [10]) [] ;;! lret (Some e)
      else cprintf (text "%d lines written" ++ [10]) [CInt (b_len (e_buf e))] ;;!
        lret (Some (Estate (e_buf e) (e_current e) false))) l) w1); [reflexivity|].
    rewrite (lrun_bind _ _ _ _ _ _ _ _ E2). change (0 <? 0) with false. cbv iota.
    by rewrite (lrun_bind _ _ _ _ _ _ _ _ E3). }
  cbv beta iota. rewrite (lrun_bind _ _ _ _ _ _ _ _ E). cbv beta iota. subst r. cbn [main_loop].
  match goal with |- context [lbind (read_command _ _ _) ?k] => 
    destruct (asks [113] k (s32 (e_current e + 1)) l2 w3 (nx + 1) (<[path := unlines (fst d)]> files) rest Hd2) as (w4 & Hw4 & Eq) end;
    [repeat constructor; done|cbn; lia|exact Hw3|].
  exists l2, w4. split; [|exact Hw4]. etransitivity; [exact Eq|]. reflexivity.
Qed.

Lemma main_loop_runs es : forall d e l w rounds nx files,
  desk nf p l -> edits d e -> Forall plain (fst d) -> script_ok es d ->
  Z.of_nat (length (fst d) + length es) < 2 ^ 29 -> 3 <= nx < 2 ^ 30 -> (length es + 2 <= rounds)%nat ->
  at_terminal nx files (keys es ++ save_and_quit ++ rest) w ->
  exists l' w', run io_kernel (main_loop nf roomy rounds fuel path e l) w = (Returned (tt, l'), w') /\
    at_terminal (nx + 1) (<[path := unlines (fst (edit_all es d))]> files) rest w'.
Proof.
  induction es as [|c es IH]; intros d e l w rounds nx files Hd He Hp Hok Hsz Hn Hr Hw.
  { by apply (main_loop_saves d e l w rounds nx files). }
  destruct Hok as (Hok & Hs & Hlen & Hrest). cbn [length] in Hsz, Hr. destruct rounds as [|rounds]; [lia|].
  assert (keys (c :: es) = typed c ++ 10 :: keys es) as Ek by (unfold keys, unlines; cbn; by rewrite <- app_assoc).
  rewrite Ek, <- app_assoc in Hw. cbn [app] in Hw. cbn [main_loop].
  match goal with |- context [lbind (read_command _ _ _) ?k] => 
    destruct (asks (typed c) k (s32 (e_current e + 1)) l w nx files _ Hd Hs Hlen Hw) as (w1 & Hw1 & ->) end.
  destruct (command_edits nf fuel path c d e l He Hok ltac:(lia)) as (e' & E & _ & He').
  cbv beta iota. rewrite (lrun_bind _ _ _ _ _ _ _ _ (lrun_done _ _ _ _ _ E)). cbv beta iota. cbn [edit_all].
  pose proof (edited_length c d Hok (ed_inside _ _ He)).
  apply IH; [done|done|by apply edited_plain|done|lia|done|lia|done].
Qed.
End session.

(** C28: a session with the line editor.  The file has the text [ls], or is not there
    and [ls] is empty; the user types the commands [es], each of which names a line
    that is there, and then [w] and [q].  The program ends with status 0, it has
    read exactly these keys, the file has the text that the commands make of
    [ls], the last line being the current one at first, and no other file has
    changed. *)
Theorem lineedit_session nf p name path rest es ls l w fuel :
  desk nf p l -> io_sizes w = [] -> 3 <= io_next w < 2 ^ 29 ->
  Forall text_line ls -> default [] (io_files w !! path) = unlines ls ->
  let d := (ls, length ls - 1)%nat in
  script_ok es d -> io_in w = keys es ++ save_and_quit ++ rest ->
  Z.of_nat (length (unlines ls) + length es) < 2 ^ 29 ->
  (512 + length (unlines ls) + length es < fuel)%nat ->
  exists l' w', run io_kernel (lineedit_main nf roomy fuel [name; path] l) w = (Returned (0, l'), w') /\
    io_files w' = <[path := unlines (fst (edit_all es d))]> (io_files w) /\ io_in w' = rest.
Proof.
  intros Hd Hsizes Hn Hls Hfile d Hok Hin Hsz Hfuel.
  assert (at_terminal (io_next w) (io_files w) (keys es ++ save_and_quit ++ rest) w) as Hw by by constructor.
  destruct (read_file_reads nf p ls path _ _ _ w l fuel Hd Hw ltac:(lia) Hls Hfile ltac:(lia) ltac:(lia))
    as (b & l1 & w1 & nx & E1 & Hb & Hl1 & Hw1 & Hnx).
  pose proof (desk_files _ _ _ _ Hl1 Hd) as Hd1. pose proof (length_unlines ls) as Hlines.
  pose proof Hb as [Hlen _ _ _ _].
  unfold lineedit_main. rewrite (lrun_bind _ _ _ _ _ _ _ _ E1). change (0 <? 0) with false. cbv beta iota zeta.
  rewrite Hlen. set (cur := if 0 <? Z.of_nat (length ls) then Z.of_nat (length ls) - 1 else 0).
  destruct (cprintf_puts nf p (text "%s: %d lines" ++ [10]) [CStr (Some path); CInt (Z.of_nat (length ls))] l1 _ _ _ w1 Hd1 Hw1)
    as (w2 & E2 & Hw2).
  destruct (cprintf_puts nf p (text "Type h for help. Use w to save, q to quit." ++ [10]) [] l1 _ _ _ w2 Hd1 Hw2) as (w3 & E3 & Hw3).
  rewrite (lrun_bind _ _ _ _ _ _ _ _ E2), (lrun_bind _ _ _ _ _ _ _ _ E3).
  assert (edits d (Estate b cur false)) as He.
  { unfold d, cur. constructor; cbn; [done| | |lia].
    - destruct (Z.ltb_spec 0 (Z.of_nat (length ls))); lia.
    - destruct ls; [by right|left; cbn; lia]. }
  destruct (main_loop_runs nf p path rest fuel ltac:(lia) es d _ l1 w3 fuel nx (io_files w) Hd1 He) as (l4 & w4 & E4 & [F1 F2 _ _]);
    [|done|unfold d; cbn [fst]; lia|lia|lia|done|].
  { eapply Forall_impl; [exact Hls|]. apply text_line_plain. }
  rewrite (lrun_bind _ _ _ _ _ _ _ _ E4). by exists l4, w4.
Qed.

(** Two lines; [i 1 zero], [a more], [d 3], [r 1 null]. *)
Definition sample_edits : list edit :=
  [EInsert [49] (text "zero"); EAppend (text "more"); EDelete [51]; EReplace [49] (text "null")].
Definition sample_new (fs : gmap Z FILE) : option Z := Some 9.
Definition sample_session : io :=
  IO {[ text "a" := unlines [text "one"; text "two"]; text "b" := [1] ]} ∅ 3 (keys sample_edits ++ save_and_quit ++ text "ls") []
    [] [] None.

Lemma lineedit_session_witness :
  exists l' w', run io_kernel (lineedit_main sample_new roomy 600 [text "lineedit"; text "a"] libc0) sample_session = (Returned (0, l'), w') /\
    io_files w' = <[text "a" := unlines [text "null"; text "more"; text "two"]]> (io_files sample_session) /\ io_in w' = text "ls".
Proof.
  apply (lineedit_session sample_new 9 (text "lineedit") (text "a") (text "ls") sample_edits [text "one"; text "two"] libc0 sample_session 600).
  - constructor; [by exists (file_of 1)|done..|]. split_and!; discriminate.
  - reflexivity.
  - cbn. lia.
  - apply (bool_decide_unpack _). vm_compute. exact I.
  - reflexivity.
  - apply (bool_decide_unpack _). vm_compute. exact I.
  - reflexivity.
  - apply (bool_decide_unpack _). vm_compute. exact I.
  - apply (bool_decide_unpack _). vm_compute. exact I.
Defined.

(** Where there is no room for a copy of the new line, [insert_line] has moved the
    lines behind it all the same: line 1 is a null pointer, and line 2 is outside
    the text. *)
Example insert_line_loses :
  let b := Buffer ([Some (text "one"); Some (text "two")] ++ replicate 30 None) 2 32 in
  insert_line (fun _ => false) b 0 (text "zero") libc0 =
    Done ((-1, Buffer ([None; Some (text "one"); Some (text "two")] ++ replicate 29 None) 2 32), libc0).
Proof. reflexivity. Qed.
