(* ===== verification/LibcScan.v ===== *)
(** [sscanf] and [scanf] of [ports/myos/libc.c].

    The arguments of a call are slots [ap i], as in [LibcFmt.v]; what the
    conversions store goes to the memory of the program.  The string that is
    scanned and the format do not lie in the bytes that are stored. *)

From S2P Require Import Prelude Memory Prog LibcStr LibcFmt LibcSys LibcStdio.

Definition scan_space (c : Z) : bool :=
  (c =? 32) || (c =? 9) || (c =? 10) || (c =? 13) || (c =? 11) || (c =? 12).
Fixpoint skip_scan_space (s : list Z) : list Z :=
  match s with c :: s' => if scan_space c then skip_scan_space s' else s | [] => [] end.

(** [length] and what follows it in the format. *)
Definition scan_length (fmt : list Z) : Z * list Z :=
  if char0 fmt =? 104 then
    if char0 (tl fmt) =? 104 then (-2, tl (tl fmt)) else (-1, tl fmt)
  else if char0 fmt =? 108 then
    if char0 (tl fmt) =? 108 then (2, tl (tl fmt)) else (1, tl fmt)
  else if (char0 fmt =? 106) || (char0 fmt =? 122) || (char0 fmt =? 116) then (1, tl fmt)
  else (0, fmt).
(** The bytes of the object a number is stored to. *)
Definition scan_size (length : Z) : nat :=
  if 1 <=? length then 8%nat else if length =? -1 then 2%nat else if length =? -2 then 1%nat else 4%nat.
Definition scan_base (c : Z) : Z :=
  if c =? 111 then 8 else if (c =? 120) || (c =? 88) then 16 else if c =? 105 then 0 else 10.
(** The word in front of a space or the end. *)
Fixpoint scan_word (s : list Z) : list Z * list Z :=
  match s with
  | [] => ([], [])
  | c :: s' => if (c =? 0) || scan_space c then ([], s) else let '(w, r) := scan_word s' in (c :: w, r)
  end.

(** [str], the next slot, [count] and the memory. *)
Record scan_st := ScanSt { sc_str : list Z; sc_slot : nat; sc_count : Z; sc_mem : mem }.

Section vscan.
Context (ap : nat -> Z).

(** [*out = ...], [count++]; the slot is used up. *)
Definition scan_store (bytes : list Z) (rest : list Z) (s : scan_st) : scan_st :=
  ScanSt rest (S (sc_slot s)) (s32 (sc_count s + 1)) (store_bytes (sc_mem s) (u64 (ap (sc_slot s))) bytes).

Definition scan_number (c length : Z) (assign : bool) (s : scan_st) : option scan_st :=
  let str := skip_scan_space (sc_str s) in
  let '(v, rest) :=
    if (c =? 100) || (c =? 105)
    then let '(v, rest) := strtol str (scan_base c) in (u64 v, rest)
    else strtoul str (scan_base c) in
  if (List.length rest =? List.length str)%nat then None
  else if assign then
    Some (scan_store (le_bytes (scan_size length) (v mod 256 ^ Z.of_nat (scan_size length))) rest s)
  else Some (ScanSt rest (sc_slot s) (sc_count s) (sc_mem s)).
(** [None] where the code leaves the loop.  [%s] and [%c] do not look at
    [assign]. *)
Definition scan_conversion (c length : Z) (assign : bool) (s : scan_st) : option scan_st :=
  if (c =? 100) || (c =? 105) || (c =? 117) || (c =? 111) || (c =? 120) || (c =? 88) then
    scan_number c length assign s
  else if c =? 115 then
    let str := skip_scan_space (sc_str s) in
    if char0 str =? 0 then None
    else let '(w, rest) := scan_word str in Some (scan_store (w ++ [0]) rest s)
  else if c =? 99 then
    if char0 (sc_str s) =? 0 then None
    else Some (scan_store [char0 (sc_str s)] (tl (sc_str s)) s)
  else if c =? 37 then
    if negb (char0 (sc_str s) =? 37) then None
    else Some (ScanSt (tl (sc_str s)) (sc_slot s) (sc_count s) (sc_mem s))
  else None.
(** A directive behind its ['%']: the format that follows. *)
Definition scan_directive (fmt : list Z) (s : scan_st) : option (list Z * scan_st) :=
  let '(assign, fmt) := if char0 fmt =? 42 then (false, tl fmt) else (true, fmt) in
  let fmt := skip_digits fmt in
  let '(length, fmt) := scan_length fmt in
  match scan_conversion (char0 fmt) length assign s with
  | Some s => Some (tl fmt, s)
  | None => None
  end.

(** Every round takes a character of the format. *)
Fixpoint vscan_loop (fuel : nat) (fmt : list Z) (s : scan_st) : option scan_st :=
  if char0 fmt =? 0 then Some s
  else
    match fuel with
    | O => None
    | S f =>
        if scan_space (char0 fmt) then
          vscan_loop f (skip_scan_space fmt)
            (ScanSt (skip_scan_space (sc_str s)) (sc_slot s) (sc_count s) (sc_mem s))
        else if negb (char0 fmt =? 37) then
          if negb (char0 (sc_str s) =? char0 fmt) then Some s
          else vscan_loop f (tl fmt) (ScanSt (tl (sc_str s)) (sc_slot s) (sc_count s) (sc_mem s))
        else
          match scan_directive (tl fmt) s with
          | Some (fmt, s) => vscan_loop f fmt s
          | None => Some s
          end
    end.
(** The result and the memory; [None] when the fuel ends before the format. *)
Definition vscan_string (m : mem) (str fmt : list Z) : option (Z * mem) :=
  match vscan_loop (length fmt) fmt (ScanSt str 0 0 m) with
  | Some s => Some (sc_count s, sc_mem s)
  | None => None
  end.
Definition sscanf (m : mem) (str fmt : list Z) : option (Z * mem) := vscan_string m str fmt.

(** The loop of [scanf] with room for [n] more bytes. *)
Fixpoint scanf_line (n : nat) (buf : list Z) : LM (list Z) :=
  match n with
  | O => lret buf
  | S n' =>
      let! c := getchar in
      if c =? EOF then lret buf
      else if c =? 10 then lret (buf ++ [c])
      else scanf_line n' (buf ++ [c])
  end.
Definition scanf (m : mem) (fmt : list Z) : LM (Z * mem) :=
  let! buf := scanf_line 255 [] in
  match vscan_string m buf fmt with
  | Some r => lret r
  | None => fun _ => Spin
  end.
End vscan.

(** A space, a number, a word and a literal. *)
Example sscanf_ex :
  (fun r => (fst r, load_bytes (snd r) 100 4, load_bytes (snd r) 200 4)) <$>
    sscanf (fun i => if (i =? 0)%nat then 100 else 200) ∅
      (text " -12,  abc d") (text "%d, %s")
  = Some (2, [244; 255; 255; 255], [97; 98; 99; 0]).
Proof. vm_compute. reflexivity. Qed.
(** The star does not keep [%s] from storing. *)
Example sscanf_star :
  (fun r => (fst r, load_bytes (snd r) 100 3)) <$> sscanf (fun _ => 100) ∅ (text "ab") (text "%*s")
  = Some (1, [97; 98; 0]).
Proof. vm_compute. reflexivity. Qed.
