(* ===== verification/LibcScanSpec.v ===== *)
(** [sscanf] reads back what [snprintf] printed. *)

From S2P Require Import Prelude Memory LibcStr LibcFmt LibcFmtSpec LibcScan.

(** [" %ld"], [k] times. *)
Fixpoint longs_format (k : nat) : list Z :=
  match k with O => [] | S k' => [32; 37; 108; 100] ++ longs_format k' end.
Fixpoint longs_text (vs : list Z) : list Z :=
  match vs with [] => [] | v :: vs' => 32 :: long_text v ++ longs_text vs' end.

Definition long_range (v : Z) : Prop := - 2 ^ 63 < v < 2 ^ 63.
Lemma longs_text_length vs : Forall long_range vs -> (length (longs_text vs) <= 21 * length vs)%nat.
Proof.
  induction 1 as [|v vs Hv _ IH]; cbn [longs_text length]; [lia|]. rewrite length_app.
  pose proof (long_text_length v Hv). lia.
Qed.
Lemma longs_text_byte vs : Forall is_byte (longs_text vs).
Proof.
  induction vs as [|v vs IH]; cbn [longs_text]; [done|]. constructor; [unfold is_byte; lia|].
  apply Forall_app. split; [apply long_text_byte|done].
Qed.
Lemma formats_longs text_at (ap : nat -> Z) vs i :
  Forall long_range vs -> (forall j v, vs !! j = Some v -> ap (i + j)%nat = u64 v) ->
  formats text_at ap (longs_format (length vs)) i (longs_text vs).
Proof.
  intros Hr. revert i. induction Hr as [|v vs Hv _ IH]; intros i Hap; cbn [length longs_format longs_text app]; [by constructor|].
  change 32 with (u8 (char0 (32 :: 37 :: 108 :: 100 :: longs_format (length vs)))) at 2.
  apply formats_char; [done|done|]. cbn [tl]. apply formats_long; [done| |].
  - rewrite <- (Hap 0%nat v) by done. f_equal. lia.
  - apply IH. intros j u Hj. rewrite <- (Hap (S j) u) by done. f_equal. lia.
Qed.

(** What [longs_text] and a NUL look like to [strtol]. *)
Lemma longs_tail vs tail r : strtol_digits (longs_text vs ++ 0 :: tail) 10 r = (r, longs_text vs ++ 0 :: tail).
Proof. by destruct vs. Qed.
Lemma long_text_head v : exists d s, long_text v = d :: s /\ scan_space d = false.
Proof.
  rewrite long_text_eq. destruct (v <? 0); [by eexists _, _|].
  destruct (uint_tmp_last (Z.abs v) []) as (d & s & H & Hd). rewrite app_nil_r in H. cbn [app]. rewrite H.
  exists d, s. split; [done|]. unfold scan_space. lia.
Qed.
Lemma skip_long_text v t : skip_scan_space (long_text v ++ t) = long_text v ++ t.
Proof. destruct (long_text_head v) as (d & s & -> & Hd). cbn. by rewrite Hd. Qed.

Lemma wr64_store m a v : wr64 m a v = store_bytes m a (le_bytes 8 v).
Proof. with_strategy transparent [wr64] reflexivity. Qed.

Section scan.
Context (ap : nat -> Z).
Abbreviation slot i := (u64 (ap i)).

(** The directive ["%ld"]. *)
Lemma scan_long v t fmt i count m :
  long_range v -> (forall r, strtol_digits t 10 r = (r, t)) ->
  scan_directive ap (108 :: 100 :: fmt) (ScanSt (long_text v ++ t) i count m) =
    Some (fmt, ScanSt t (S i) (s32 (count + 1)) (wr64 m (slot i) (u64 v))).
Proof.
  intros Hv Ht.
  transitivity (match scan_number ap 100 1 true (ScanSt (long_text v ++ t) i count m) with
                | Some s => Some (fmt, s) | None => None end); [reflexivity|].
  unfold scan_number. cbn [sc_str sc_slot sc_count sc_mem]. rewrite skip_long_text.
  change (scan_base 100) with 10. cbn [Z.eqb Pos.eqb orb]. rewrite strtol_long by done.
  destruct (Nat.eqb_spec (length t) (length (long_text v ++ t))) as [E|_].
  { rewrite length_app in E. destruct (long_text_head v) as (d & s & H & _). rewrite H in E. cbn in E. lia. }
  unfold scan_store. cbn [sc_slot sc_count sc_mem]. rewrite wr64_store. do 4 f_equal.
  change (scan_size 1) with 8%nat. change (256 ^ Z.of_nat 8) with (2 ^ 64).
  rewrite Z.mod_small; [done|]. pose proof (u64_bounds v). lia.
Qed.

Lemma vscan_longs fuel vs tail i count m :
  (2 * length vs <= fuel)%nat -> Forall long_range vs -> 0 <= count -> count + Z.of_nat (length vs) < 2 ^ 31 ->
  (forall j k, (i <= j < k)%nat -> (k < i + length vs)%nat -> slot j + 8 <= slot k \/ slot k + 8 <= slot j) ->
  exists m', vscan_loop ap fuel (longs_format (length vs)) (ScanSt (longs_text vs ++ 0 :: tail) i count m)
      = Some (ScanSt (0 :: tail) (i + length vs) (count + Z.of_nat (length vs)) m') /\
    (forall j v, vs !! j = Some v -> rd64 m' (slot (i + j)%nat) = u64 v) /\
    (forall a, (forall j, (j < length vs)%nat -> slot (i + j)%nat + 8 <= a \/ a + 8 <= slot (i + j)%nat) ->
       rd64 m' a = rd64 m a).
Proof.
  intros Hf Hr. revert fuel i count m Hf. induction Hr as [|v vs Hv _ IH]; intros fuel i count m Hf Hc0 Hc Hd.
  { exists m. cbn. rewrite Nat.add_0_r, Z.add_0_r. split_and!; [|done|done].
    by destruct fuel. }
  cbn [length] in *. destruct fuel as [|[|fuel]]; [lia..|].
  destruct (IH fuel (S i) (count + 1) (wr64 m (slot i) (u64 v))) as (m' & Hrun & Hval & Hold); [lia..| |].
  { intros j k Hjk Hk. apply Hd; lia. }
  exists m'. split_and!.
  - cbn [longs_format app longs_text vscan_loop char0 hd Z.eqb Pos.eqb]. change (scan_space 32) with true. cbn iota.
    change (skip_scan_space (32 :: 37 :: 108 :: 100 :: longs_format (length vs))) with (37 :: 108 :: 100 :: longs_format (length vs)).
    cbn [sc_str sc_slot sc_count sc_mem]. rewrite <- app_assoc.
    change (skip_scan_space (32 :: ?l)) with (skip_scan_space l). rewrite skip_long_text.
    cbn [char0 hd Z.eqb Pos.eqb]. change (scan_space 37) with false. cbn [negb]. cbn iota. cbn [tl].
    rewrite scan_long by (try done; intros r; apply longs_tail). rewrite s32_id by lia. rewrite Hrun.
    do 2 f_equal; lia.
  - intros [|j] u Hj; cbn in Hj.
    + injection Hj as <-. rewrite Nat.add_0_r, Hold.
      * rewrite rd64_wr64_eq. unfold u64. apply Zmod_mod.
      * intros j Hj. destruct (Hd i (S i + j)%nat); lia.
    + rewrite <- (Hval j u Hj). f_equal. f_equal. f_equal. lia.
  - intros a Ha. rewrite Hold.
    + apply rd64_wr64_ne. specialize (Ha 0%nat ltac:(lia)). rewrite Nat.add_0_r in Ha. lia.
    + intros j Hj. specialize (Ha (S j) ltac:(lia)). by rewrite <- Nat.add_succ_comm in Ha.
Qed.
End scan.

(** C34: numbers survive the formatter and the scanner: [sscanf], with the
    format [" %ld ... %ld"] that [snprintf] printed any list of [long]s with (but
    the most negative one), returns how many there were and stores each of them
    at its pointer, when the buffer had room and the pointers are apart. *)
Theorem sscanf_snprintf text_at (ap ptr : nat -> Z) m m0 str size vs :
  Forall long_range vs -> (forall i v, vs !! i = Some v -> ap i = u64 v) ->
  0 <= str -> 21 * Z.of_nat (length vs) < size < 2 ^ 31 -> str + size <= 2 ^ 64 ->
  (forall j k, (j < k < length vs)%nat -> u64 (ptr j) + 8 <= u64 (ptr k) \/ u64 (ptr k) + 8 <= u64 (ptr j)) ->
  exists m' n, snprintf text_at ap m str size (longs_format (length vs)) = Some (m', n) /\
    exists m2, sscanf ptr m0 (load_bytes m' str (Z.to_nat size)) (longs_format (length vs))
        = Some (Z.of_nat (length vs), m2) /\
      forall i v, vs !! i = Some v -> rd64 m2 (u64 (ptr i)) = u64 v.
Proof.
  intros Hr Hap Hstr Hsize Hend Hd. pose proof (longs_text_length vs Hr) as Hlen.
  assert (formats text_at ap (longs_format (length vs)) 0 (longs_text vs)) as Hf by (by apply formats_longs).
  unfold snprintf. rewrite (vsnprintf_text _ _ _ (longs_text vs)) by (try done; unfold fits; lia).
  rewrite (proj2 (Z.eqb_neq size 0)) by lia. rewrite take_ge by lia. eexists _, _. split; [done|].
  destruct (load_printed m str (longs_text vs) (Z.to_nat size)) as [tail ->]; [apply longs_text_byte|lia|].
  assert (length (longs_format (length vs)) = 4 * length vs)%nat as Hfl.
  { clear. induction vs as [|v vs IH]; cbn [length longs_format app]; [done|]. lia. }
  destruct (vscan_longs ptr (length (longs_format (length vs))) vs tail 0 0 m0) as (m2 & Hrun & Hval & _); [lia|done|lia|lia| |].
  - intros j k Hjk Hk. apply Hd. lia.
  - exists m2. unfold sscanf, vscan_string. rewrite Hrun. split; [done|]. intros i v Hi. by apply Hval.
Qed.
Lemma sscanf_snprintf_witness :
  exists m' n, snprintf (fun _ => []) (fun i => nth i [u64 (-42); 9007] 0) ∅ 4096 64 (longs_format 2) = Some (m', n) /\
    exists m2, sscanf (fun i => 8192 + 8 * Z.of_nat i) ∅ (load_bytes m' 4096 64) (longs_format 2) = Some (2, m2) /\
      forall i v, [-42; 9007] !! i = Some v -> rd64 m2 (u64 (8192 + 8 * Z.of_nat i)) = u64 v.
Proof.
  apply (sscanf_snprintf (fun _ => []) (fun i => nth i [u64 (-42); 9007] 0) (fun i => 8192 + 8 * Z.of_nat i)
    ∅ ∅ 4096 64 [-42; 9007]).
  - repeat constructor; cbv; done.
  - intros [|[|i]] v Hi; cbn in Hi; [by injection Hi as <-|by injection Hi as <-|done].
  - lia.
  - cbn. lia.
  - lia.
  - intros j k Hjk. cbn in Hjk. rewrite !u64_id by lia. lia.
Defined.
