(* ===== verification/LibcMisc.v ===== *)
(** The rest of [ports/myos/libc.c]: options of a command line, wide characters,
    the clock that stands still, locale and limits. *)

From S2P Require Import Prelude Prog LibcStr LibcSys.

(* ------------------------------------------------------------------ *)
(** ** getopt *)

(** [optind], [optpos], [optarg] and [optopt]. *)
Record opt_st := OptSt { o_ind : Z; o_pos : Z; o_arg : option (list Z); o_opt : Z }.
Definition opt_st0 : opt_st := OptSt 1 1 None 0.

(** [s[i]]: the NUL is behind the last character; [None] further out. *)
Definition char_at (s : list Z) (i : Z) : option Z :=
  if (i <? 0) || (Z.of_nat (length s) <? i) then None else Some (default 0 (s !! Z.to_nat i)).

(** [if (argv[optind][optpos] == 0) { optind++; optpos = 1; }] *)
Definition opt_advance (arg : list Z) (s : opt_st) : option opt_st :=
  match char_at arg (o_pos s) with
  | None => None
  | Some 0 => Some (OptSt (s32 (o_ind s + 1)) 1 (o_arg s) (o_opt s))
  | Some _ => Some s
  end.
(** An option with an argument. *)
Definition opt_argument (argv : list (list Z)) (optstring arg : list Z) (opt : Z) (s : opt_st) :
    option (Z * opt_st) :=
  match char_at arg (o_pos s) with
  | None => None
  | Some c =>
      if negb (c =? 0) then
        Some (opt, OptSt (s32 (o_ind s + 1)) 1 (Some (drop (Z.to_nat (o_pos s)) arg)) (o_opt s))
      else if o_ind s + 1 <? Z.of_nat (length argv) then
        Some (opt, OptSt (s32 (o_ind s + 2)) 1 (argv !! Z.to_nat (o_ind s + 1)) (o_opt s))
      else Some (if char0 optstring =? 58 then 58 else 63, s)
  end.
(** The result and the variables; [None] for a read outside of a string. *)
Definition getopt (argv : list (list Z)) (optstring : list Z) (s : opt_st) : option (Z * opt_st) :=
  let s := if o_ind s <=? 0 then OptSt 1 (o_pos s) (o_arg s) (o_opt s) else s in
  match (if Z.of_nat (length argv) <=? o_ind s then None else argv !! Z.to_nat (o_ind s)) with
  | None => Some (-1, s)
  | Some arg =>
      if negb (char0 arg =? 45) || (char0 (tl arg) =? 0) then Some (-1, s)
      else if strcmp arg (text "--") =? 0 then Some (-1, OptSt (s32 (o_ind s + 1)) (o_pos s) (o_arg s) (o_opt s))
      else
        match char_at arg (o_pos s) with
        | None => None
        | Some opt =>
            let s := OptSt (o_ind s) (s32 (o_pos s + 1)) (o_arg s) opt in
            match strchr optstring opt with
            | Some i =>
                if opt =? 58 then s' ← opt_advance arg s; Some (63, s')
                else
                  match char_at optstring (i + 1) with
                  | None => None
                  | Some c =>
                      if c =? 58 then opt_argument argv optstring arg opt s
                      else s' ← opt_advance arg (OptSt (o_ind s) (o_pos s) None opt); Some (opt, s')
                  end
            | None => s' ← opt_advance arg s; Some (63, s')
            end
        end
  end.

(** An option whose argument is missing is not left behind: the next call takes
    the NUL for an option and reads behind the end of [optstring]. *)
Example getopt_missing_argument :
  let argv := [text "prog"; text "-a"] in
  getopt argv (text "a:") opt_st0 = Some (63, OptSt 1 2 None 97) /\
  getopt argv (text "a:") (OptSt 1 2 None 97) = None.
Proof. split; reflexivity. Qed.

(* ------------------------------------------------------------------ *)
(** ** Wide characters *)

Definition SIZE_MAX : Z := u64 (-1).
(** A [wchar_t] is an [int]; the array [dest] after the call. *)
Fixpoint mbstowcs_loop (n len : nat) (dest src : list Z) : nat * list Z :=
  match n with
  | O => (len, dest)
  | S n' =>
      if char0 src =? 0 then (len, <[len := 0]> dest)
      else mbstowcs_loop n' (S len) (<[len := char0 src]> dest) (tl src)
  end.
Definition mbstowcs (dest src : option (list Z)) (n : nat) : Z * option (list Z) :=
  match src with
  | None => (SIZE_MAX, dest)
  | Some src =>
      match dest with
      | None => (strlen (Some src), None)
      | Some dest => let '(len, dest) := mbstowcs_loop n 0 dest src in (Z.of_nat len, Some dest)
      end
  end.
Definition narrow (c : Z) : Z := if (0 <=? c) && (c <=? 255) then c else 63.
Fixpoint wcstombs_loop (n len : nat) (dest src : list Z) : nat * list Z :=
  match n with
  | O => (len, dest)
  | S n' =>
      if char0 src =? 0 then (len, <[len := 0]> dest)
      else wcstombs_loop n' (S len) (<[len := narrow (char0 src)]> dest) (tl src)
  end.
Fixpoint wcslen_loop (s : list Z) : Z :=
  match s with c :: s' => if c =? 0 then 0 else 1 + wcslen_loop s' | [] => 0 end.
Definition wcslen (s : option (list Z)) : Z := match s with Some s => wcslen_loop s | None => 0 end.
Definition wcstombs (dest src : option (list Z)) (n : nat) : Z * option (list Z) :=
  match src with
  | None => (SIZE_MAX, dest)
  | Some src =>
      match dest with
      | None => (wcslen (Some src), None)
      | Some dest => let '(len, dest) := wcstombs_loop n 0 dest src in (Z.of_nat len, Some dest)
      end
  end.
Fixpoint wcscoll (a b : list Z) : Z :=
  match a with
  | [] => s32 (0 - char0 b)
  | x :: a' => if negb (x =? 0) && (x =? char0 b) then wcscoll a' (tl b) else s32 (x - char0 b)
  end.
(** The result and what is stored at [pwc], which is not null. *)
Definition mbrtowc (s : option (list Z)) (n : Z) : Z * option Z :=
  match s with
  | None => (0, None)
  | Some s =>
      if n =? 0 then (u64 (-2), None)
      else if char0 s =? 0 then (0, Some 0) else (1, Some (char0 s))
  end.
Definition wcrtomb (has_s : bool) (wc : Z) : Z * option Z := (1, if has_s then Some (narrow wc) else None).
Definition btowc (c : Z) : Z := if c =? -1 then -1 else u8 c.
Definition wctob (c : Z) : Z := if (0 <=? c) && (c <=? 255) then c else -1.
Definition iswalnum (c : Z) : bool := isalnum c.
Definition iswalpha (c : Z) : bool := isalpha c.
Definition iswblank (c : Z) : bool := isblank c.
Definition iswcntrl (c : Z) : bool := iscntrl c.
Definition iswdigit (c : Z) : bool := isdigit c.
Definition iswgraph (c : Z) : bool := isgraph c.
Definition iswlower (c : Z) : bool := islower c.
Definition iswprint (c : Z) : bool := isprint c.
Definition iswpunct (c : Z) : bool := ispunct c.
Definition iswspace (c : Z) : bool := isspace c.
Definition iswupper (c : Z) : bool := isupper c.
Definition iswxdigit (c : Z) : bool := isxdigit c.
Definition towlower (c : Z) : Z := tolower c.
Definition towupper (c : Z) : Z := toupper c.

(** The classes by their number. *)
Definition wctype_names : list (list Z) :=
  text <$> ["alnum"; "alpha"; "blank"; "cntrl"; "digit"; "graph"; "lower"; "print"; "punct"; "space"; "upper"; "xdigit"]%string.
Fixpoint wctype_find (names : list (list Z)) (property : list Z) (i : Z) : Z :=
  match names with
  | [] => 0
  | n :: names' => if strcmp property n =? 0 then i else wctype_find names' property (i + 1)
  end.
Definition wctype (property : list Z) : Z := wctype_find wctype_names property 1.
Definition iswctype (c desc : Z) : bool :=
  match desc with
  | 1 => iswalnum c | 2 => iswalpha c | 3 => iswblank c | 4 => iswcntrl c
  | 5 => iswdigit c | 6 => iswgraph c | 7 => iswlower c | 8 => iswprint c
  | 9 => iswpunct c | 10 => iswspace c | 11 => iswupper c | 12 => iswxdigit c
  | _ => false
  end.

(* ------------------------------------------------------------------ *)
(** ** Time, locale and limits *)

(** The result and [*tloc]. *)
Definition time (has_tloc : bool) : Z * option Z := (2026, if has_tloc then Some 2026 else None).
Definition clock : Z := 0.
Record tm := Tm {
  tm_sec : Z; tm_min : Z; tm_hour : Z; tm_mday : Z; tm_mon : Z; tm_year : Z; tm_wday : Z; tm_yday : Z; tm_isdst : Z;
}.
Definition epoch_tm : tm := Tm 0 0 0 1 0 70 4 0 0.
Definition ctime : list Z := text "Thu Jan  1 00:00:00 1970" ++ [10].
Definition localtime : tm := epoch_tm.
Definition gmtime : tm := epoch_tm.
Definition mktime (t : tm) : Z := 0.
Definition stamp : list Z := text "1970-01-01T00:00:00.000+0000".
(** The result and the array [s]; [memcpy] to a null [s] is undefined
    behaviour. *)
Definition strftime (s : option (list Z)) (max : Z) : option (Z * option (list Z)) :=
  let n := length stamp in
  if max =? 0 then Some (0, s)
  else if max <=? Z.of_nat n then Some (0, (fun s => <[0%nat := 0]> s) <$> s)
  else match s with
       | None => None
       | Some s => Some (Z.of_nat n, Some (blit s 0 (stamp ++ [0])))
       end.
(** [*tv] and [*tz]. *)
Definition gettimeofday (has_tv has_tz : bool) : Z * option (Z * Z) * option (Z * Z) :=
  (0, if has_tv then Some (fst (time false), 0) else None, if has_tz then Some (0, 0) else None).
(** Both [timeval]s of [*usage] are zero. *)
Definition getrusage (has_usage : bool) : Z * option (Z * Z) := (0, if has_usage then Some (0, 0) else None).
Definition getrlimit (has_rlim : bool) : Z * option (Z * Z) :=
  (0, if has_rlim then Some (u64 (-1), u64 (-1)) else None).
Definition setrlimit : Z := 0.
Definition atexit : Z := 0.

Definition sysconf (name : Z) : LM Z := if name =? 30 then lret 4096 else set_errno 22 ;;! lret (-1).
Definition pathconf (name : Z) : LM Z := if name =? 4 then lret 128 else set_errno 22 ;;! lret (-1).
Definition getpagesize : Z := 4096.
Definition setlocale (locale : option (list Z)) : option (list Z) :=
  match locale with
  | None => Some (text "C")
  | Some s =>
      if (char0 s =? 0) || (strcmp s (text "C") =? 0) || (strcmp s (text "POSIX") =? 0)
      then Some (text "C") else None
  end.
Definition strerror (errnum : Z) : list Z :=
  if errnum =? 2 then text "No such file or directory"
  else if errnum =? 5 then text "Input/output error"
  else if errnum =? 12 then text "Out of memory"
  else if errnum =? 17 then text "File exists"
  else if errnum =? 22 then text "Invalid argument"
  else if errnum =? 25 then text "Not a tty"
  else text "error".
