(* ===== verification/LibcMiscSpec.v ===== *)
(** [getopt] reads the command lines that options are written with: letters in
    clusters, arguments behind their letter or in the next word. *)

From S2P Require Import Prelude Prog LibcStr LibcSys LibcMisc.

(* ------------------------------------------------------------------ *)
(** ** Letters and words *)

(** What follows a letter in [optstring]. *)
Definition letter_next (optstring : list Z) (c : Z) : option Z :=
  if (c <=? 0) || (c =? 45) || (c =? 58) then None
  else i ← strchr optstring c; char_at optstring (i + 1).
Definition flag_letter (optstring : list Z) (c : Z) : Prop :=
  exists x, letter_next optstring c = Some x /\ x <> 58.
Definition arg_letter (optstring : list Z) (c : Z) : Prop := letter_next optstring c = Some 58.

(** The words of a command line: a cluster of letters, of which the last may have
    an argument, in the same word or in the next one. *)
Inductive option_item :=
| Flags (cs : list Z)
| Attached (cs : list Z) (c : Z) (a : list Z)
| Separate (cs : list Z) (c : Z) (a : list Z).
Definition item_words (it : option_item) : list (list Z) :=
  match it with
  | Flags cs => [45 :: cs]
  | Attached cs c a => [45 :: cs ++ c :: a]
  | Separate cs c a => [45 :: cs ++ [c]; a]
  end.
Definition item_options (it : option_item) : list (Z * option (list Z)) :=
  match it with
  | Flags cs => map (fun c => (c, None)) cs
  | Attached cs c a | Separate cs c a => map (fun c => (c, None)) cs ++ [(c, Some a)]
  end.
Definition item_ok (optstring : list Z) (it : option_item) : Prop :=
  match it with
  | Flags cs => cs <> [] /\ Forall (flag_letter optstring) cs
  | Attached cs c a => Forall (flag_letter optstring) cs /\ arg_letter optstring c /\ char0 a <> 0
  | Separate cs c a => Forall (flag_letter optstring) cs /\ arg_letter optstring c
  end.

(** A program that calls [getopt] until it returns -1: the options with
    [optarg], and the last state. *)
Fixpoint getopt_all (fuel : nat) (argv : list (list Z)) (optstring : list Z) (s : opt_st)
    (acc : list (Z * option (list Z))) : option (list (Z * option (list Z)) * opt_st) :=
  match fuel with
  | O => None
  | S f =>
      '(r, s) ← getopt argv optstring s;
      if r =? -1 then Some (acc, s) else getopt_all f argv optstring s (acc ++ [(r, o_arg s)])
  end.

Lemma letter_next_inv optstring c x :
  letter_next optstring c = Some x ->
  0 < c /\ c <> 45 /\ c <> 58 /\ exists i, strchr optstring c = Some i /\ char_at optstring (i + 1) = Some x.
Proof.
  unfold letter_next. destruct (Z.leb_spec c 0), (Z.eqb_spec c 45), (Z.eqb_spec c 58); cbn; try done.
  destruct (strchr optstring c) as [i|]; cbn; [|done]. intros Hx. split_and!; try done. by exists i.
Qed.
Lemma char_at_app pre c post : char_at (45 :: pre ++ c :: post) (Z.of_nat (S (length pre))) = Some c.
Proof.
  unfold char_at. rewrite (proj2 (Z.ltb_ge _ 0)) by lia.
  rewrite (proj2 (Z.ltb_ge _ _)) by (cbn; rewrite length_app; cbn; lia). cbn [orb].
  rewrite Nat2Z.id. change ((45 :: pre ++ c :: post) !! S (length pre)) with ((pre ++ c :: post) !! length pre).
  by rewrite list_lookup_middle.
Qed.
Lemma char_at_end pre : char_at (45 :: pre) (Z.of_nat (S (length pre))) = Some 0.
Proof.
  unfold char_at. rewrite (proj2 (Z.ltb_ge _ 0)), (proj2 (Z.ltb_ge _ _)) by (cbn; lia). cbn [orb].
  rewrite Nat2Z.id. by rewrite lookup_ge_None_2 by (cbn; lia).
Qed.

(* ------------------------------------------------------------------ *)
(** ** One call *)

Section getopt.
Context (argv : list (list Z)) (optstring : list Z).
Context (argv_fits : Z.of_nat (length argv) < 2 ^ 31 - 2).

(** [getopt] at a letter of a word. *)
Lemma getopt_letter ind pre c post x a o :
  argv !! ind = Some (45 :: pre ++ c :: post) -> (0 < ind)%nat ->
  Z.of_nat (length (pre ++ c :: post)) < 2 ^ 31 - 2 ->
  Forall (fun c => 0 < c /\ c <> 45) pre -> letter_next optstring c = Some x ->
  let arg := 45 :: pre ++ c :: post in
  let s := OptSt (Z.of_nat ind) (Z.of_nat (S (S (length pre)))) a c in
  getopt argv optstring (OptSt (Z.of_nat ind) (Z.of_nat (S (length pre))) a o) =
    if x =? 58 then opt_argument argv optstring arg c s
    else s' ← opt_advance arg (OptSt (Z.of_nat ind) (Z.of_nat (S (S (length pre)))) None c); Some (c, s').
Proof using argv_fits.
  intros Hl Hpos Hfit Hpre Hc arg s. apply letter_next_inv in Hc as (H0 & H45 & H58 & i & Hi & Hx).
  pose proof (lookup_lt_Some _ _ _ Hl) as Hlt. unfold getopt. cbn [o_ind o_pos o_arg o_opt].
  rewrite (proj2 (Z.leb_gt (Z.of_nat ind) 0)) by lia. cbn [o_ind o_pos o_arg o_opt].
  rewrite (proj2 (Z.leb_gt (Z.of_nat (length argv)) _)) by lia. rewrite Nat2Z.id, Hl.
  assert (exists d t, pre ++ c :: post = d :: t /\ d <> 0 /\ d <> 45) as (d & t & Hd & Hd0 & Hd45).
  { destruct pre as [|d pre]; [exists c, post; split_and!; [done|lia|done]|]. inversion Hpre as [|? ? [? ?] ?]; subst. exists d, (pre ++ c :: post). split_and!; [done|lia|done]. }
  assert ((strcmp (45 :: pre ++ c :: post) (text "--") =? 0) = false) as Hcmp.
  { rewrite Hd. change (text "--") with [45; 45]. cbn. rewrite (proj2 (Z.eqb_neq d 0)), (proj2 (Z.eqb_neq d 45)) by done. cbn. apply Z.eqb_neq. lia. }
  assert ((char0 (pre ++ c :: post) =? 0) = false) as Hh by (rewrite Hd; by apply Z.eqb_neq).
  change (char0 (45 :: pre ++ c :: post)) with 45. change (tl (45 :: pre ++ c :: post)) with (pre ++ c :: post).
  rewrite Hh, Hcmp. cbn [Z.eqb Pos.eqb negb orb]. rewrite char_at_app, Hi, (proj2 (Z.eqb_neq c 58)), Hx by done.
  rewrite length_app in Hfit. cbn [length] in Hfit. rewrite s32_id by lia.
  replace (Z.of_nat (S (length pre)) + 1) with (Z.of_nat (S (S (length pre)))) by lia. reflexivity.
Qed.

Lemma flag_letters cs : Forall (flag_letter optstring) cs -> Forall (fun c => 0 < c /\ c <> 45) cs.
Proof using.
  intros H. eapply Forall_impl; [exact H|]. intros c (x & Hx & _). by apply letter_next_inv in Hx as (? & ? & _).
Qed.

(** The letters [cs] of a word, which has [post] behind them. *)
Lemma getopt_flags cs ind pre post fuel a o acc :
  argv !! ind = Some (45 :: pre ++ cs ++ post) -> (0 < ind)%nat ->
  Z.of_nat (length (pre ++ cs ++ post)) < 2 ^ 31 - 2 ->
  Forall (fun c => 0 < c /\ c <> 45) pre -> Forall (flag_letter optstring) cs -> cs <> [] ->
  match post with [] => True | d :: _ => d <> 0 end ->
  exists a' o',
    getopt_all (length cs + fuel) argv optstring (OptSt (Z.of_nat ind) (Z.of_nat (S (length pre))) a o) acc =
    getopt_all fuel argv optstring
      (match post with
       | [] => OptSt (Z.of_nat (S ind)) 1 a' o'
       | _ => OptSt (Z.of_nat ind) (Z.of_nat (S (length (pre ++ cs)))) a' o'
       end) (acc ++ map (fun c => (c, None)) cs).
Proof using argv_fits.
  revert pre a o acc. induction cs as [|c cs IH]; intros pre a o acc Hl Hpos Hfit Hpre Hcs Hne Hpost; [done|].
  inversion Hcs as [|? ? (x & Hx & Hx58) Hcs']; subst. pose proof (letter_next_inv _ _ _ Hx) as (Hc0 & Hc45 & _).
  pose proof (lookup_lt_Some _ _ _ Hl) as Hlt. cbn [app] in Hl, Hfit. cbn [length Nat.add getopt_all].
  rewrite (getopt_letter ind pre c (cs ++ post) x a o Hl Hpos Hfit Hpre Hx).
  rewrite (proj2 (Z.eqb_neq x 58)) by done. unfold opt_advance. cbn [o_pos o_ind o_arg o_opt].
  replace (Z.of_nat (S (S (length pre)))) with (Z.of_nat (S (length (pre ++ [c])))) by (rewrite length_app; cbn; lia).
  replace (pre ++ c :: cs ++ post) with ((pre ++ [c]) ++ cs ++ post) in * by (by rewrite <- app_assoc).
  assert (Forall (fun c => 0 < c /\ c <> 45) (pre ++ [c])) as Hpre' by (apply Forall_app; split; [done|by repeat constructor]).
  destruct (decide (cs = [])) as [->|Hcsne].
  - cbn [app map]. destruct post as [|d post].
    + rewrite app_nil_r, char_at_end. cbn [mbind option_bind]. rewrite (proj2 (Z.eqb_neq c (-1))) by lia.
      rewrite s32_id by lia. cbn [o_arg]. replace (Z.of_nat ind + 1) with (Z.of_nat (S ind)) by lia. by eexists _, _.
    + rewrite char_at_app. destruct d as [|d|d]; [done|..]; cbn [mbind option_bind]; rewrite (proj2 (Z.eqb_neq c (-1))) by lia;
        cbn [o_arg]; by eexists _, _.
  - destruct cs as [|d cs]; [done|]. inversion Hcs' as [|? ? (y & Hy & _) _]; subst.
    pose proof (letter_next_inv _ _ _ Hy) as (Hd0 & _ & _). cbn [app]. rewrite char_at_app.
    destruct (IH (pre ++ [c]) None c (acc ++ [(c, None)])) as (a' & o' & H'); [done..|].
    exists a', o'. destruct d as [|d|d]; [lia| |lia]. cbn [mbind option_bind]. rewrite (proj2 (Z.eqb_neq c (-1))) by lia.
    cbn [o_arg]. rewrite H'. rewrite <- !app_assoc. reflexivity.
Qed.

(** The letter with an argument at the end of a cluster. *)
Lemma getopt_attached ind pre c arg fuel a o acc :
  argv !! ind = Some (45 :: pre ++ c :: arg) -> (0 < ind)%nat ->
  Z.of_nat (length (pre ++ c :: arg)) < 2 ^ 31 - 2 ->
  Forall (fun c => 0 < c /\ c <> 45) pre -> arg_letter optstring c -> char0 arg <> 0 ->
  getopt_all (S fuel) argv optstring (OptSt (Z.of_nat ind) (Z.of_nat (S (length pre))) a o) acc =
  getopt_all fuel argv optstring (OptSt (Z.of_nat (S ind)) 1 (Some arg) c) (acc ++ [(c, Some arg)]).
Proof using argv_fits.
  intros Hl Hpos Hfit Hpre Hc Harg. pose proof (lookup_lt_Some _ _ _ Hl). cbn [getopt_all].
  pose proof (letter_next_inv _ _ _ Hc) as (Hc0 & _).
  rewrite (getopt_letter ind pre c arg 58 a o Hl Hpos Hfit Hpre Hc). cbn [Z.eqb Pos.eqb].
  unfold opt_argument. cbn [o_pos o_ind o_arg o_opt]. destruct arg as [|d arg]; [done|]. cbn in Harg.
  replace (Z.of_nat (S (S (length pre)))) with (Z.of_nat (S (length (pre ++ [c])))) by (rewrite length_app; cbn; lia).
  replace (pre ++ c :: d :: arg) with ((pre ++ [c]) ++ d :: arg) by (by rewrite <- app_assoc). rewrite char_at_app.
  rewrite (proj2 (Z.eqb_neq d 0)) by done. cbn [negb mbind option_bind]. rewrite (proj2 (Z.eqb_neq c (-1))) by lia.
  rewrite Nat2Z.id. cbn [drop o_arg]. rewrite drop_app_length. rewrite s32_id by lia.
  by replace (Z.of_nat ind + 1) with (Z.of_nat (S ind)) by lia.
Qed.
Lemma getopt_separate ind pre c arg fuel a o acc :
  argv !! ind = Some (45 :: pre ++ [c]) -> argv !! S ind = Some arg -> (0 < ind)%nat ->
  Z.of_nat (length (pre ++ [c])) < 2 ^ 31 - 2 ->
  Forall (fun c => 0 < c /\ c <> 45) pre -> arg_letter optstring c ->
  getopt_all (S fuel) argv optstring (OptSt (Z.of_nat ind) (Z.of_nat (S (length pre))) a o) acc =
  getopt_all fuel argv optstring (OptSt (Z.of_nat (S (S ind))) 1 (Some arg) c) (acc ++ [(c, Some arg)]).
Proof using argv_fits.
  intros Hl Hl2 Hpos Hfit Hpre Hc. pose proof (lookup_lt_Some _ _ _ Hl2). cbn [getopt_all].
  pose proof (letter_next_inv _ _ _ Hc) as (Hc0 & _).
  rewrite (getopt_letter ind pre c [] 58 a o Hl Hpos Hfit Hpre Hc). cbn [Z.eqb Pos.eqb].
  unfold opt_argument. cbn [o_pos o_ind o_arg o_opt].
  replace (Z.of_nat (S (S (length pre)))) with (Z.of_nat (S (length (pre ++ [c])))) by (rewrite length_app; cbn; lia).
  rewrite char_at_end. cbn [Z.eqb negb]. rewrite (proj2 (Z.ltb_lt _ _)) by lia.
  replace (Z.to_nat (Z.of_nat ind + 1)) with (S ind) by lia. rewrite Hl2. cbn [mbind option_bind o_arg].
  rewrite (proj2 (Z.eqb_neq c (-1))), s32_id by lia. by replace (Z.of_nat ind + 2) with (Z.of_nat (S (S ind))) by lia.
Qed.

(** One item of the command line. *)
Lemma getopt_item it ind fuel a o acc :
  item_ok optstring it -> (0 < ind)%nat ->
  (forall k w, item_words it !! k = Some w -> argv !! (ind + k)%nat = Some w /\ Z.of_nat (length w) < 2 ^ 31 - 1) ->
  exists a' o',
    getopt_all (length (item_options it) + fuel) argv optstring (OptSt (Z.of_nat ind) 1 a o) acc =
    getopt_all fuel argv optstring (OptSt (Z.of_nat (ind + length (item_words it))) 1 a' o') (acc ++ item_options it).
Proof using argv_fits.
  intros Hok Hpos Hw. destruct (Hw 0%nat (hd [] (item_words it))) as [Hl Hfit]; [by destruct it|].
  rewrite Nat.add_0_r in Hl. destruct it as [cs|cs c b|cs c b]; cbn [item_words item_options hd length] in *.
  - destruct Hok as [Hne Hcs]. rewrite length_map.
    destruct (getopt_flags cs ind [] [] fuel a o acc) as (a' & o' & H); [by rewrite app_nil_r|done|rewrite app_nil_r; cbn; lia|done..|].
    exists a', o'. rewrite Nat.add_1_r. exact H.
  - destruct Hok as (Hcs & Hc & Hb). rewrite length_app, length_map. rewrite <- Nat.add_assoc. cbn [length Nat.add].
    assert (0 < c) by (by apply letter_next_inv in Hc as [? _]).
    assert (exists a' o', getopt_all (length cs + S fuel) argv optstring (OptSt (Z.of_nat ind) 1 a o) acc =
      getopt_all (S fuel) argv optstring (OptSt (Z.of_nat ind) (Z.of_nat (S (length cs))) a' o') (acc ++ map (fun c => (c, None)) cs))
      as (a' & o' & H').
    { destruct (decide (cs = [])) as [->|Hne]; [exists a, o; cbn; by rewrite app_nil_r|].
      apply (getopt_flags cs ind [] (c :: b) (S fuel) a o acc); try done; cbn [app]; lia. }
    exists (Some b), c. rewrite H', getopt_attached with (c := c) (arg := b); [|done|done| |by apply flag_letters|done|done].
    + by rewrite <- app_assoc, Nat.add_1_r.
    + lia.
  - destruct Hok as (Hcs & Hc). rewrite length_app, length_map. rewrite <- Nat.add_assoc. cbn [length Nat.add].
    assert (0 < c) by (by apply letter_next_inv in Hc as [? _]).
    destruct (Hw 1%nat b eq_refl) as [Hl2 _]. rewrite Nat.add_1_r in Hl2.
    assert (exists a' o', getopt_all (length cs + S fuel) argv optstring (OptSt (Z.of_nat ind) 1 a o) acc =
      getopt_all (S fuel) argv optstring (OptSt (Z.of_nat ind) (Z.of_nat (S (length cs))) a' o') (acc ++ map (fun c => (c, None)) cs))
      as (a' & o' & H').
    { destruct (decide (cs = [])) as [->|Hne]; [exists a, o; cbn; by rewrite app_nil_r|].
      apply (getopt_flags cs ind [] [c] (S fuel) a o acc); try done; cbn [app]; lia. }
    exists (Some b), c. rewrite H', getopt_separate with (c := c) (arg := b); [|done|done|done| |by apply flag_letters|done].
    + rewrite <- app_assoc. do 2 f_equal. lia.
    + lia.
Qed.
End getopt.

(* ------------------------------------------------------------------ *)
(** ** A command line *)

(** The words behind the options: none, [--] and the operands, or operands of
    which the first does not look like options. *)
Definition ends_options (rest : list (list Z)) : Prop :=
  match rest with [] => True | w :: _ => w = [45; 45] \/ char0 w <> 45 \/ char0 (tl w) = 0 end.
Definition operands (rest : list (list Z)) : list (list Z) :=
  match rest with w :: r => if decide (w = [45; 45]) then r else rest | [] => [] end.

Lemma getopt_end argv optstring ind rest a o :
  Z.of_nat (length argv) < 2 ^ 31 - 2 -> (0 < ind)%nat -> drop ind argv = rest -> (ind <= length argv)%nat ->
  ends_options rest ->
  exists s, getopt argv optstring (OptSt (Z.of_nat ind) 1 a o) = Some (-1, s) /\
    drop (Z.to_nat (o_ind s)) argv = operands rest.
Proof.
  intros Hfit Hpos Hd Hle He. unfold getopt. cbn [o_ind o_pos o_arg o_opt].
  rewrite (proj2 (Z.leb_gt (Z.of_nat ind) 0)) by lia. cbn [o_ind o_pos o_arg o_opt]. rewrite Nat2Z.id.
  assert (argv !! ind = head rest) as Hl by (rewrite <- Hd, head_lookup, lookup_drop; f_equal; lia).
  destruct rest as [|w rest].
  - assert (length argv = ind) as Hn by (apply (f_equal length) in Hd; rewrite length_drop in Hd; cbn in Hd; lia).
    rewrite (proj2 (Z.leb_le _ _)) by lia. eexists. split; [done|]. cbn [o_ind]. by rewrite Nat2Z.id.
  - assert (ind < length argv)%nat by (apply (f_equal length) in Hd; rewrite length_drop in Hd; cbn in Hd; lia).
    rewrite (proj2 (Z.leb_gt _ _)) by lia. rewrite Hl. cbn [head operands]. cbn [ends_options] in He.
    destruct (decide (w = [45; 45])) as [->|Hw].
    + change (strcmp [45; 45] (text "--") =? 0) with true. cbn. eexists. split; [done|]. cbn [o_ind].
      rewrite s32_id by lia. replace (Z.to_nat (Z.of_nat ind + 1)) with (ind + 1)%nat by lia.
      by rewrite <- drop_drop, Hd.
    + destruct He as [He|He]; [done|].
      assert (negb (char0 w =? 45) || (char0 (tl w) =? 0) = true) as ->.
      { destruct He as [He|He]; [by rewrite (proj2 (Z.eqb_neq _ 45))|by rewrite He, orb_true_r]. }
      eexists. split; [done|]. cbn [o_ind]. by rewrite Nat2Z.id.
Qed.

(** [getopt] reads every command line that its conventions can write: for
    clusters of letters, the last with its argument behind it or in the next
    word, the calls return the letters in their order, with [optarg] at the
    argument of a letter that has one and null otherwise; then -1, with [optind]
    at the first operand, behind a [--]. *)
Theorem getopt_reads_options prog items rest optstring :
  let argv := prog :: concat (map item_words items) ++ rest in
  Z.of_nat (length argv) < 2 ^ 31 - 2 ->
  Forall (fun w => Z.of_nat (length w) < 2 ^ 31 - 1) (concat (map item_words items)) ->
  Forall (item_ok optstring) items -> ends_options rest ->
  let options := concat (map item_options items) in
  exists s, getopt_all (S (length options)) argv optstring opt_st0 [] = Some (options, s) /\
    drop (Z.to_nat (o_ind s)) argv = operands rest.
Proof.
  intros argv Hfit Hwords Hok Hrest options.
  assert (argv = prog :: concat (map item_words items) ++ rest) as Hargv0 by done. clearbody argv.
  cut (forall done items a o acc, argv = prog :: done ++ concat (map item_words items) ++ rest ->
    Forall (fun w => Z.of_nat (length w) < 2 ^ 31 - 1) (concat (map item_words items)) ->
    Forall (item_ok optstring) items ->
    exists s, getopt_all (length (concat (map item_options items)) + 1) argv optstring
        (OptSt (Z.of_nat (S (length done))) 1 a o) acc = Some (acc ++ concat (map item_options items), s) /\
      drop (Z.to_nat (o_ind s)) argv = operands rest).
  { intros H. rewrite <- Nat.add_1_r. by apply (H [] items None 0 []). }
  clear Hwords Hok Hargv0 options items. intros d items. revert d.
  induction items as [|it items IH]; intros d a o acc Hargv Hwords Hok.
  - cbn [map concat length Nat.add app] in *. rewrite app_nil_r. cbn [getopt_all].
    destruct (getopt_end argv optstring (S (length d)) rest a o) as (s & Hs & Hd); [done|lia| | |done|].
    + rewrite Hargv. cbn. apply drop_app_length.
    + rewrite Hargv. cbn. rewrite length_app. lia.
    + rewrite Hs. by exists s.
  - cbn [map concat] in *. apply Forall_app in Hwords as [Hw Hwords]. apply Forall_cons in Hok as [Hit Hok'].
    rewrite length_app, <- Nat.add_assoc.
    destruct (getopt_item argv optstring Hfit it (S (length d)) (length (concat (map item_options items)) + 1) a o acc)
      as (a' & o' & H'); [done|lia| |].
    { intros k w Hk. split; [|by apply (Forall_lookup_1 _ _ _ _ Hw Hk)]. rewrite Hargv. cbn [Nat.add].
      change (?x :: ?l) with ([x] ++ l). rewrite lookup_app_r by (cbn; lia). cbn [length].
      rewrite lookup_app_r by lia. rewrite <- app_assoc, lookup_app_l.
      + rewrite <- Hk. f_equal. lia.
      + apply lookup_lt_Some in Hk. lia. }
    rewrite H'. destruct (IH (d ++ item_words it) a' o' (acc ++ item_options it)) as (s & Hs & Hd).
    + by rewrite Hargv, <- !app_assoc.
    + done.
    + done.
    + exists s. rewrite length_app in Hs. rewrite <- app_assoc in Hs. split; [exact Hs|done].
Qed.

(** [prog -vxoout -n 5 -- -file] with the letters [vxo:n:]. *)
Lemma getopt_reads_options_witness :
  exists s, getopt_all 5 (map text ["prog"; "-vxoout"; "-n"; "5"; "--"; "-file"]%string) (text "vxo:n:") opt_st0 []
    = Some ([(118, None); (120, None); (111, Some (text "out")); (110, Some (text "5"))], s) /\
    drop (Z.to_nat (o_ind s)) (map text ["prog"; "-vxoout"; "-n"; "5"; "--"; "-file"]%string) = [text "-file"].
Proof.
  apply (getopt_reads_options (text "prog")
    [Attached [118; 120] 111 (text "out"); Separate [] 110 (text "5")] (map text ["--"; "-file"]%string) (text "vxo:n:")).
  - vm_compute. reflexivity.
  - repeat constructor.
  - repeat constructor; try (by eexists; split; [vm_compute; reflexivity|]); vm_compute; done.
  - by left.
Defined.
